(* ===== verification/_CoqProject ===== *)
-Q . S2P
Prelude.v
KList.v
KListFacts.v
KListOps.v
KListSort.v
KListTheorems.v
KState.v
Interrupt.v
Threads.v
Synch.v
ThreadLife.v
Timer.v
TimerDelay.v
Machine.v
KInv.v
KInvFacts.v
KInvStep.v
KInvExec.v
KInvSync.v
KInvMove.v
KInvBlock.v
KInvWake.v
KInvTimer.v
KInvLife.v
KernelSafety.v
KernelTheorems.v
KernelLiveness.v
Bitmap.v
BitmapTheorems.v
Arith.v
StringC.v
StringTheorems.v
StdlibC.v
StdlibTheorems.v
Hash.v
HashTheorems.v
Stdio.v
StdioTheorems.v
Vaddr.v
Palloc.v
PallocTheorems.v
Malloc.v
MallocTheorems.v
Mmu.v
MmuTheorems.v
Inode.v
InodeTheorems.v
FileSys.v
FileSysTheorems.v
Directory.v
DirectoryTheorems.v
Volume.v
Random.v
Intq.v
IntrTable.v
Serial.v
SerialTheorems.v
Kbd.v
Vga.v
Console.v
ConsoleTheorems.v
Disk.v
DiskSpec.v
DiskLogic.v
DiskDriver.v
DiskDetect.v
DiskTheorems.v
Fsutil.v
FsutilTheorems.v
KernelInit.v
KernelInitTheorems.v
UserLib.v
Debug.v
UserPrograms.v
UserProgramTheorems.v
Shell.v
Pwd.v
Insult.v
Listing.v
Switch.v
