(* ===== verification/Prelude.v ===== *)
(** * Verification of the juntos kernel

    juntos is a Pintos (KAIST, x86-64) teaching kernel written in C.  This
    library models its kernel code as executable definitions and proves what
    makes that code correct.  File and function names below are relative to
    src/.

    ** The program and its model

    Names in brackets are modules.  A module is in the file of its name, but
    [DebugTheorems] is in Debug.v, [PrintfFacts] in StdioTheorems.v, [UserFiles] in
    UserPrograms.v, [CmpTheorems], [LineupTheorems] and [Mapped] in
    UserProgramTheorems.v, [PwdTheorems] in Pwd.v, [InsultTheorems] in Insult.v,
    [ListingTheorems] in Listing.v, [SwitchTheorems] and [FrameDump] in Switch.v,
    [SelfTest] in KernelTheorems.v, [PortStrings] and [IntrTableTheorems] in
    IntrTable.v, [KbdTheorems] in Kbd.v and [VgaTheorems] in Vga.v.

    Lists and threads.

    - lib/kernel/list.c, the intrusive doubly linked list every other part
      uses.  [KList] translates all of it over a heap of [list_elem] cells;
      [KListFacts] defines [is_list h l xs] (the list at [l] is well formed and
      holds [xs]) and the separation lemmas, [KListOps] and [KListSort] prove
      that each operation refines the operation on sequences, [KListTheorems]
      states the properties.
    - threads/thread.c, threads/synch.c, threads/interrupt.c,
      devices/timer.c and the part of threads/palloc.c that creating and
      destroying threads uses: [KState] (the statics and [struct thread]),
      [Interrupt], [Threads], [Synch], [ThreadLife], [Timer], and [TimerDelay]
      for the delay loops and their calibration, where time is counted in
      iterations of a loop.  Lists of threads
      are sequences here, which the refinement theorems of [KListOps] justify.
      A thread's kernel stack is the list of [frame]s it still has to execute;
      every point at which a C function can be interrupted, preempted or
      blocked is a frame, code that runs with interrupts off is one step.
      [Machine] puts them together: [step] runs the next frame of the current
      thread, lets other kernel code ([Client]) call a function or initialise
      an object, or takes a timer interrupt, and [run] executes a sequence of
      such labels, so a theorem about all label sequences is one about all
      interleavings.
    - [KInv] states the invariant of the threading system: typing of kernel
      stacks (interrupt level, locks held, nesting), the list each thread is
      on, the single token of every lock, page ownership, the order of the
      sleepers.  [KInvFacts], [KInvStep], [KInvExec], [KInvSync], [KInvMove],
      [KInvBlock], [KInvWake], [KInvTimer] and [KInvLife] prove it for each
      frame; [KernelSafety] for every step and run; [KernelTheorems] draws the
      conclusions; [KernelLiveness] bounds how long a ready thread waits.
    - the assembly of [thread_launch] and [do_iret], with struct intr_frame:
      [Switch] has the processor's registers, a memory of 64-bit words and the
      code instruction by instruction, [SwitchTheorems] what a switch saves and
      restores.  In [Machine] the switch is the change of the current
      thread.  [SelfTest] runs the self-test of synch.c on the machine.

    The kernel's library.

    - lib/kernel/bitmap.c: [Bitmap], [BitmapTheorems] (words of 64 bits refine
      sequences of booleans, and with them the page pool of the thread model).
    - lib/arithmetic.c: [Arith], with the trap of DIVL.
    - lib/string.c: [StringC], [StringTheorems], over byte-addressed memory.
    - lib/stdlib.c: [StdlibC], [StdlibTheorems] (heap sort, binary search,
      [atoi]).
    - lib/kernel/hash.c: [Hash], [HashTheorems].  Hash and comparison callbacks
      and the outcome of each allocation are parameters.
    - lib/stdio.c: [Stdio], [StdioTheorems].  The output callback receives
      characters only, so the functions return what they output.
      [PrintfFacts] goes through a format conversion by conversion.
    - lib/debug.c, lib/kernel/debug.c and lib/user/debug.c: [Debug],
      [DebugTheorems].  The stack is a memory of words; the kernel's panic runs on
      the console of [Console].  [FrameDump] is [intr_dump_frame] of
      threads/interrupt.c.
    - lib/random.c: [Random].

    Memory.

    - include/threads/vaddr.h: [Vaddr].  threads/palloc.c: [Palloc],
      [PallocTheorems].  The class [PageAlloc] says what a page allocator
      promises to its clients; [PallocTheorems] discharges it for the kernel
      pool.
    - threads/mmu.c and [paging_init] of threads/init.c: [Mmu], [MmuTheorems],
      against any [PageAlloc], over memory of 64-bit words.
    - threads/malloc.c: [Malloc], [MallocTheorems], on top of [Palloc].

    The file system.

    - filesys/inode.c: [Inode], [InodeTheorems]; filesys/file.c,
      filesys/free-map.c and the file part of lib/kernel/bitmap.c: [FileSys],
      [FileSysTheorems]; filesys/directory.c and filesys/filesys.c:
      [Directory], [DirectoryTheorems].  A disk is a sequence of sectors of 512
      bytes; whether an allocation succeeds is an oracle.
    - filesys/fsutil.c, the actions on files: [Fsutil], [FsutilTheorems].

    Devices.

    - threads/interrupt.c, the part for all vectors (descriptor table,
      registration, interrupt controllers, dispatch), and include/threads/io.h:
      [IntrTable], [IntrTableTheorems]; the transfers of io.h that no driver uses
      are in [PortStrings].  A device is the answers it gives to
      reads and the trace of the writes; handlers are numbers.
    - devices/intq.c: [Intq].  A call that blocks returns the place where it
      resumes.
    - devices/serial.c and devices/input.c: [Serial], [SerialTheorems];
      devices/kbd.c: [Kbd], [KbdTheorems]; devices/vga.c: [Vga],
      [VgaTheorems]; lib/kernel/console.c: [Console], [ConsoleTheorems], which
      composes serial port, display and formatted output.
    - devices/disk.c: [Disk] is the driver over any [AtaBus], the class of the
      controllers' operations: registers, the passing of time and interrupts
      that may come between any two instructions.  [DiskSpec] states what the
      ATA standard promises of a controller as the class [AtaLaws], in terms
      of an abstract view of it, and gives a simulated controller that meets the
      laws.  [DiskLogic] has the triples about the driver's primitives,
      [DiskDriver] commands, waits and transfers, [DiskDetect] reset and
      detection, [DiskTheorems] the properties.

    Start and user programs.

    - threads/init.c: [KernelInit] (the command line, options, actions, help,
      statistics and power off, in the order of [main]),
      [KernelInitTheorems].  The tests that the action [run] calls are a
      parameter.  [thread_init] and [thread_start] are in [Machine],
      [paging_init] in [Mmu].
    - lib/user/syscall.c, lib/user/console.c and lib/user/entry.c: [UserLib],
      over any kernel.
    - examples/: the programs are their [main]s over classes of system calls, and
      their theorems hold for every system that meets the laws the classes of
      laws state.  [UserFiles] has the calls on files, their laws and a system
      that meets them; [UserPrograms] cat, cp, cmp, hex-dump, lineup, rm, echo,
      bubsort and matmult (and include/lib/ctype.h), [UserProgramTheorems],
      [CmpTheorems] and [LineupTheorems] what they do; [Mapped] mcat and mcp;
      [Shell] the shell and its line editor; [Pwd] and [PwdTheorems] pwd;
      [Listing] and [ListingTheorems] ls, mkdir, halt and recursor; [Insult]
      and [InsultTheorems] insult with its tables.

    ** Conventions

    A call that fails returns [Err]: [AssertFail] and [PanicCall] for ASSERT,
    PANIC and NOT_REACHED, [BadAddr] for a dead or uninitialised object or an
    access outside of one, [Trap] for a processor trap, [NoFuel] for a loop
    that ran out of fuel, a device that gives no more answers, or a thread that
    waits where the model does not follow it.  Machine integers are [Z] reduced
    by [u8] ... [i64] where the C type wraps.

    Fuel is chosen so that it cannot run out, and the theorems show it: pointer
    loops have one more than the number of cells of the heap, the wake-up loop
    two more than the number of sleepers, the goto loop of [populate_pools]
    three rounds, inode loops one more than the number of bytes, directory
    loops one more than the number of entries, [malloc_init] twelve rounds for
    seven sizes, the loops of the serial driver 64 for queues of at most 63
    bytes, the loops over the command line 66 for an array of 65 entries, and a
    wait for the disk as many rounds as the source has, 1000 and 3000, or
    one more than the longest time the laws of the controller allow.  The loops of
    the example programs that end with a file, a directory or the typing take a
    bound that the theorems ask to exceed its length; the levels of pwd are
    bounded by its own limit; the depth of insult's recursion depends on the
    random numbers, and its theorem says what holds up to any depth.  Loops over a given count recurse on it.  Addresses fixed by the
    linker or the boot code are the class [Layout] or parameters.

    ** What the theorems show

    - Threading: no step of any legal interleaving panics; locks exclude each
      other's owners; every thread's [elem] is on exactly the one list its
      state calls for; the timer wakes exactly the due sleepers; yielding is
      round robin; [sema_up] is first-come first-served; kernel stacks are
      well typed; a ready thread runs after at most four timer interrupts for
      each place before it on the ready list; calibrated delays are right
      within a factor of two; a context switch gives a thread back all its
      registers, and a new thread starts in [kernel_thread] with its function,
      its argument and its stack.  Two theorems prove
      defects of the code: [do_schedule] can panic when it frees a dead
      thread's page while the page pool's lock is held, and [thread_wakeup]
      reads the tail sentinel as a thread.
    - Lists: [list_sort] is a stable sort in place, [list_insert_ordered] keeps
      order, [list_remove] undoes [list_insert], queues are first-in
      first-out, reversal, maximum, and the ASSERTs on empty lists.
    - Library: [sort] sorts, [binary_search] finds, [strtok_r] splits into
      words, [memmove] copies overlapping blocks, 64-bit division is exact, a
      hash table is a set under every sequence of operations and allocation
      failures, [atoi] reads back what [snprintf] wrote, the generator's state
      stays a permutation; and where the code falls short (the result of
      [memmove], the 32-bit remainder, a format that ends in a percent sign).
    - Memory: blocks from [palloc_get_multiple] and from [malloc], [calloc] and
      [realloc] never overlap, for every sequence of calls; double frees are
      caught; an address space is a finite map from pages to frames; clearing
      the dirty bit loses the upper half of the entry.
    - File system: the data of an inode is a sequence of bytes that writes
      overwrite and reads return; inodes are shared between openers; a
      directory is a map from names to sectors; the free map reads back; a
      failed creation leaks sectors.
    - Devices: every vector reaches its handler; interrupt queues are
      first-in first-out; the serial port sends every byte once and in order
      with the right interrupts enabled; typing a text brings that text into
      the input buffer; the framebuffer shows what a terminal shows; the
      console prints on both and leaves its lock as it was; the disk driver
      behaves as an array of sectors for every timing of the controller's
      interrupts, and finds the disks that are there.
    - Start: a command line of options and actions is carried out as written;
      what [put] copies in, [get] copies out again; too many empty
      arguments write behind the array of arguments.
    - Panics: whoever holds the console, the message and the call stack of a panic
      are sent and shown completely, and the kernel stops.
    - User programs: the printing functions write exactly the formatted text in
      blocks of 64 bytes; the second argument of a system call is lost in the
      register that the instruction overwrites; cp and mcp copy, cat prints,
      lineup changes letters to capitals, ls lists, pwd prints the path from the
      root, the shell's line editor is the one a user expects, bubsort sorts
      and matmult multiplies, insult prints sentences of its grammar and stays
      inside its tables; cmp calls a file and its beginning identical, and pwd
      and ls can write behind the arrays that receive names.

    ** Not modelled

    The boot loader and the entry stubs in assembly, the wrappers of single
    instructions in include/intrinsic.h but for their effects where they are
    used, the sources that only USERPROG compiles, which are not part of the
    repository, and the tests, which are clients of the kernel. *)
From Stdlib Require Export ZArith Lia.
From stdpp Require Export base gmap list list_numbers sorting strings.


(** * Outcomes of C code

    [Ok] is a normal return.  [Err] collects the ways a call does not return
    normally: a failed [ASSERT] or a [PANIC] (both end in [debug_panic]), an
    access through a null or unmapped pointer, a processor trap, and the
    artificial case of a loop that used up its fuel. *)
Inductive err : Type :=
  | AssertFail
  | PanicCall
  | BadAddr
  | Trap
  | NoFuel.

Inductive res (A : Type) : Type :=
  | Ok (a : A)
  | Err (e : err).
Arguments Ok {A} a.
Arguments Err {A} e.

#[export] Instance err_eq_dec : EqDecision err.
Proof. solve_decision. Defined.

#[export] Instance res_ret : MRet res := λ A a, Ok a.
#[export] Instance res_bind : MBind res := λ A B f m,
  match m with Ok a => f a | Err e => Err e end.

Definition is_ok {A} (r : res A) : bool :=
  match r with Ok _ => true | Err _ => false end.

(** Stateful code: explicit state passing with the outcomes above. *)
Definition st (S A : Type) : Type := S → res (A * S).

#[export] Instance st_ret S : MRet (st S) := λ A a s, Ok (a, s).
#[export] Instance st_bind S : MBind (st S) := λ A B f m s,
  match m s with Ok (a, s') => f a s' | Err e => Err e end.

Definition st_err {S A} (e : err) : st S A := λ _, Err e.
Definition st_get {S} : st S S := λ s, Ok (s, s).
Definition st_gets {S A} (f : S → A) : st S A := λ s, Ok (f s, s).
Definition st_put {S} (s : S) : st S unit := λ _, Ok (tt, s).
Definition st_modify {S} (f : S → S) : st S unit := λ s, Ok (tt, f s).
Definition st_of_option {S A} (e : err) (o : option A) : st S A :=
  match o with Some a => mret a | None => st_err e end.

(** include/lib/debug.h, [ASSERT] with [NDEBUG] undefined. *)
Definition ASSERT {S} (b : bool) : st S unit :=
  if b then mret tt else st_err AssertFail.

Definition assert_res (b : bool) : res unit :=
  if b then Ok tt else Err AssertFail.

Lemma st_bind_ok {S A B} (m : st S A) (f : A → st S B) s a s' :
  m s = Ok (a, s') → (m ≫= f) s = f a s'.
Proof. intros H. unfold mbind, st_bind. by rewrite H. Qed.

Lemma st_bind_err {S A B} (m : st S A) (f : A → st S B) s r :
  m s = Err r → (m ≫= f) s = Err r.
Proof. intros H. unfold mbind, st_bind. by rewrite H. Qed.

Lemma st_bind_assoc {S A B C} (m : st S A) (f : A → st S B) (g : B → st S C) s :
  ((m ≫= f) ≫= g) s = (m ≫= (λ a, f a ≫= g)) s.
Proof. unfold mbind, st_bind. by destruct (m s) as [[]|]. Qed.

Lemma st_bind_inv {S A B} (m : st S A) (f : A → st S B) s r :
  (m ≫= f) s = Ok r → ∃ a s', m s = Ok (a, s') ∧ f a s' = Ok r.
Proof.
  unfold mbind, st_bind. destruct (m s) as [[a s']|e]; [eauto|done].
Qed.

Lemma ASSERT_true {S} (s : S) b : b = true → ASSERT b s = Ok (tt, s).
Proof. by intros ->. Qed.

Lemma assert_res_ok {B} (b : bool) (f : unit → res B) : b = true → (assert_res b ≫= f) = f tt.
Proof. by intros ->. Qed.

(** * Machine integers

    A value of a w-bit type is the integer it denotes; [u8] to [u64] reduce
    modulo 2^w and [i32], [i64] into the two's complement range. *)
Definition u8 (z : Z) : Z := z `mod` 2 ^ 8.
Definition u16 (z : Z) : Z := z `mod` 2 ^ 16.
Definition u32 (z : Z) : Z := z `mod` 2 ^ 32.
Definition u64 (z : Z) : Z := z `mod` 2 ^ 64.
Definition i32 (z : Z) : Z := (z + 2 ^ 31) `mod` 2 ^ 32 - 2 ^ 31.
Definition i64 (z : Z) : Z := (z + 2 ^ 63) `mod` 2 ^ 64 - 2 ^ 63.

Definition INT64_MAX : Z := 9223372036854775807.
Definition NULL : Z := 0.

Section width.
Local Open Scope Z_scope.

Lemma u64_range z : 0 ≤ u64 z < 2 ^ 64.
Proof. apply Z.mod_pos_bound. lia. Qed.
Lemma u32_range z : 0 ≤ u32 z < 2 ^ 32.
Proof. apply Z.mod_pos_bound. lia. Qed.
Lemma u8_range z : 0 ≤ u8 z < 2 ^ 8.
Proof. apply Z.mod_pos_bound. lia. Qed.
Lemma u64_small z : 0 ≤ z < 2 ^ 64 → u64 z = z.
Proof. apply Z.mod_small. Qed.
Lemma u32_small z : 0 ≤ z < 2 ^ 32 → u32 z = z.
Proof. apply Z.mod_small. Qed.
Lemma u8_small z : 0 ≤ z < 2 ^ 8 → u8 z = z.
Proof. apply Z.mod_small. Qed.
Lemma i64_range z : - 2 ^ 63 ≤ i64 z < 2 ^ 63.
Proof. unfold i64. pose proof (Z.mod_pos_bound (z + 2 ^ 63) (2 ^ 64)). lia. Qed.
Lemma i64_small z : - 2 ^ 63 ≤ z < 2 ^ 63 → i64 z = z.
Proof. intros H. unfold i64. rewrite Z.mod_small; lia. Qed.
Lemma i32_range z : - 2 ^ 31 ≤ i32 z < 2 ^ 31.
Proof. unfold i32. pose proof (Z.mod_pos_bound (z + 2 ^ 31) (2 ^ 32)). lia. Qed.
Lemma i32_small z : - 2 ^ 31 ≤ z < 2 ^ 31 → i32 z = z.
Proof. intros H. unfold i32. rewrite Z.mod_small; lia. Qed.
End width.

Create Rewrite HintDb width.
#[export] Hint Rewrite u64_small u32_small u8_small i64_small i32_small using lia : width.
