(* ===== verification/KList.v ===== *)
(** lib/kernel/list.c: the intrusive doubly linked list, at pointer level.

    Memory is the finite map from the address of a [struct list_elem] to its
    two links; a [struct list] at address [l] is its [head] at [l] and its
    [tail] at [l + 16].  Every function of list.c is translated statement by
    statement into the state monad of Prelude.  A loop carries fuel equal to
    one more than the number of mapped elements: a traversal that meets no
    element twice cannot use it up. *)
From S2P Require Import Prelude.
Local Open Scope Z_scope.

Module KList.

(** include/lib/kernel/list.h, [struct list_elem]. *)
Record list_elem := ListElem { prev : Z; next : Z }.

Abbreviation heap := (gmap Z list_elem).

(** [struct list]: [head] then [tail], 16 bytes each. *)
Definition head_of (l : Z) : Z := l.
Definition tail_of (l : Z) : Z := l + 16.

Definition get_next (e : Z) : st heap Z := λ h,
  match h !! e with Some c => Ok (next c, h) | None => Err BadAddr end.
Definition get_prev (e : Z) : st heap Z := λ h,
  match h !! e with Some c => Ok (prev c, h) | None => Err BadAddr end.
Definition set_next (e v : Z) : st heap unit := λ h,
  match h !! e with
  | Some c => Ok (tt, <[e := ListElem (prev c) v]> h) | None => Err BadAddr
  end.
Definition set_prev (e v : Z) : st heap unit := λ h,
  match h !! e with
  | Some c => Ok (tt, <[e := ListElem v (next c)]> h) | None => Err BadAddr
  end.

Definition loop_fuel : st heap nat := st_gets (λ h, S (size h)).

Definition is_head (elem : Z) : st heap bool :=
  if elem =? NULL then mret false else
  p ← get_prev elem; n ← get_next elem;
  mret ((p =? NULL) && negb (n =? NULL)).

Definition is_interior (elem : Z) : st heap bool :=
  if elem =? NULL then mret false else
  p ← get_prev elem; n ← get_next elem;
  mret (negb (p =? NULL) && negb (n =? NULL)).

Definition is_tail (elem : Z) : st heap bool :=
  if elem =? NULL then mret false else
  p ← get_prev elem; n ← get_next elem;
  mret (negb (p =? NULL) && (n =? NULL)).

Definition list_init (l : Z) : st heap unit :=
  ASSERT (negb (l =? NULL));;
  set_prev (head_of l) NULL;;
  set_next (head_of l) (tail_of l);;
  set_prev (tail_of l) (head_of l);;
  set_next (tail_of l) NULL.

Definition list_begin (l : Z) : st heap Z :=
  ASSERT (negb (l =? NULL));; get_next (head_of l).

Definition list_next (elem : Z) : st heap Z :=
  a ← is_head elem; b ← is_interior elem;
  ASSERT (a || b);; get_next elem.

Definition list_end (l : Z) : st heap Z :=
  ASSERT (negb (l =? NULL));; mret (tail_of l).

Definition list_rbegin (l : Z) : st heap Z :=
  ASSERT (negb (l =? NULL));; get_prev (tail_of l).

Definition list_prev (elem : Z) : st heap Z :=
  a ← is_interior elem; b ← is_tail elem;
  ASSERT (a || b);; get_prev elem.

Definition list_rend (l : Z) : st heap Z :=
  ASSERT (negb (l =? NULL));; mret (head_of l).

Definition list_head (l : Z) : st heap Z :=
  ASSERT (negb (l =? NULL));; mret (head_of l).

Definition list_tail (l : Z) : st heap Z :=
  ASSERT (negb (l =? NULL));; mret (tail_of l).

Definition list_insert (before elem : Z) : st heap unit :=
  a ← is_interior before; b ← is_tail before;
  ASSERT (a || b);;
  ASSERT (negb (elem =? NULL));;
  p ← get_prev before; set_prev elem p;;
  set_next elem before;;
  p ← get_prev before; set_next p elem;;
  set_prev before elem.

Definition list_splice (before first last : Z) : st heap unit :=
  a ← is_interior before; b ← is_tail before;
  ASSERT (a || b);;
  if first =? last then mret tt else
  last ← list_prev last;
  a ← is_interior first; ASSERT a;;
  b ← is_interior last; ASSERT b;;
  (* Cleanly remove FIRST...LAST from its current list. *)
  fp ← get_prev first; ln ← get_next last; set_next fp ln;;
  ln ← get_next last; fp ← get_prev first; set_prev ln fp;;
  (* Splice FIRST...LAST into new list. *)
  bp ← get_prev before; set_prev first bp;;
  set_next last before;;
  bp ← get_prev before; set_next bp first;;
  set_prev before last.

Definition list_push_front (l elem : Z) : st heap unit :=
  b ← list_begin l; list_insert b elem.

Definition list_push_back (l elem : Z) : st heap unit :=
  e ← list_end l; list_insert e elem.

Definition list_remove (elem : Z) : st heap Z :=
  a ← is_interior elem; ASSERT a;;
  p ← get_prev elem; n ← get_next elem; set_next p n;;
  n ← get_next elem; p ← get_prev elem; set_prev n p;;
  get_next elem.

Definition list_empty (l : Z) : st heap bool :=
  b ← list_begin l; e ← list_end l; mret (b =? e).

Definition list_front (l : Z) : st heap Z :=
  b ← list_empty l; ASSERT (negb b);; get_next (head_of l).

Definition list_back (l : Z) : st heap Z :=
  b ← list_empty l; ASSERT (negb b);; get_prev (tail_of l).

Definition list_pop_front (l : Z) : st heap Z :=
  front ← list_front l; list_remove front;; mret front.

Definition list_pop_back (l : Z) : st heap Z :=
  back ← list_back l; list_remove back;; mret back.

Fixpoint size_loop (fuel : nat) (l e cnt : Z) : st heap Z :=
  match fuel with
  | O => st_err NoFuel
  | S fuel =>
      t ← list_end l;
      if e =? t then mret cnt else
      e' ← list_next e; size_loop fuel l e' (cnt + 1)
  end.

Definition list_size (l : Z) : st heap Z :=
  fuel ← loop_fuel; e ← list_begin l; size_loop fuel l e 0.

(** A [struct list_elem **]: the address of a link. *)
Inductive link := LPrev (a : Z) | LNext (a : Z).

Definition read_link (k : link) : st heap Z :=
  match k with LPrev a => get_prev a | LNext a => get_next a end.
Definition write_link (k : link) (v : Z) : st heap unit :=
  match k with LPrev a => set_prev a v | LNext a => set_next a v end.

Definition swap (a b : link) : st heap unit :=
  t ← read_link a; v ← read_link b; write_link a v;; write_link b t.

Fixpoint reverse_loop (fuel : nat) (l e : Z) : st heap unit :=
  match fuel with
  | O => st_err NoFuel
  | S fuel =>
      t ← list_end l;
      if e =? t then mret tt else
      swap (LPrev e) (LNext e);;
      e' ← get_prev e; reverse_loop fuel l e'
  end.

Definition list_reverse (l : Z) : st heap unit :=
  b ← list_empty l;
  if b : bool then mret tt else
  fuel ← loop_fuel;
  e ← list_begin l;
  reverse_loop fuel l e;;
  swap (LNext (head_of l)) (LPrev (tail_of l));;
  hn ← get_next (head_of l); tp ← get_prev (tail_of l);
  swap (LPrev hn) (LNext tp).

Section ordered.
(** [list_less_func] with its auxiliary data: a comparison of the structures
    the elements are embedded in, which does not touch the links. *)
Context (less : Z → Z → bool).

Fixpoint is_sorted_loop (fuel : nat) (a b : Z) : st heap bool :=
  match fuel with
  | O => st_err NoFuel
  | S fuel =>
      a ← list_next a;
      if a =? b then mret true else
      p ← list_prev a;
      if less a p then mret false else is_sorted_loop fuel a b
  end.

Definition is_sorted (a b : Z) : st heap bool :=
  if a =? b then mret true else
  fuel ← loop_fuel; is_sorted_loop fuel a b.

Fixpoint end_of_run_loop (fuel : nat) (a b : Z) : st heap Z :=
  match fuel with
  | O => st_err NoFuel
  | S fuel =>
      a ← list_next a;
      if a =? b then mret a else
      p ← list_prev a;
      if negb (less a p) then end_of_run_loop fuel a b else mret a
  end.

Definition find_end_of_run (a b : Z) : st heap Z :=
  ASSERT (negb (a =? NULL));;
  ASSERT (negb (b =? NULL));;
  ASSERT (negb (a =? b));;
  fuel ← loop_fuel; end_of_run_loop fuel a b.

Fixpoint merge_loop (fuel : nat) (a0 a1b0 b1 : Z) : st heap unit :=
  match fuel with
  | O => st_err NoFuel
  | S fuel =>
      if (a0 =? a1b0) || (a1b0 =? b1) then mret tt else
      if negb (less a1b0 a0) then
        a0 ← list_next a0; merge_loop fuel a0 a1b0 b1
      else
        a1b0 ← list_next a1b0;
        p ← list_prev a1b0;
        list_splice a0 p a1b0;;
        merge_loop fuel a0 a1b0 b1
  end.

Definition inplace_merge (a0 a1b0 b1 : Z) : st heap unit :=
  ASSERT (negb (a0 =? NULL));;
  ASSERT (negb (a1b0 =? NULL));;
  ASSERT (negb (b1 =? NULL));;
  s1 ← is_sorted a0 a1b0; ASSERT s1;;
  s2 ← is_sorted a1b0 b1; ASSERT s2;;
  fuel ← loop_fuel; merge_loop fuel a0 a1b0 b1.

(** The [for] loop of [list_sort]: one pass; returns [output_run_cnt]. *)
Fixpoint sort_pass (fuel : nat) (l a0 output_run_cnt : Z) : st heap Z :=
  match fuel with
  | O => st_err NoFuel
  | S fuel =>
      t ← list_end l;
      if a0 =? t then mret output_run_cnt else
      let output_run_cnt := output_run_cnt + 1 in
      a1b0 ← find_end_of_run a0 t;
      if a1b0 =? t then mret output_run_cnt else
      b1 ← find_end_of_run a1b0 t;
      inplace_merge a0 a1b0 b1;;
      sort_pass fuel l b1 output_run_cnt
  end.

(** The [do ... while] loop of [list_sort]. *)
Fixpoint sort_loop (fuel : nat) (l : Z) : st heap unit :=
  match fuel with
  | O => st_err NoFuel
  | S fuel =>
      n ← loop_fuel;
      a0 ← list_begin l;
      output_run_cnt ← sort_pass n l a0 0;
      if 1 <? output_run_cnt then sort_loop fuel l else mret tt
  end.

Definition list_sort (l : Z) : st heap unit :=
  ASSERT (negb (l =? NULL));;
  fuel ← loop_fuel;
  sort_loop fuel l;;
  b ← list_begin l; e ← list_end l;
  s ← is_sorted b e; ASSERT s.

Fixpoint insert_ordered_loop (fuel : nat) (l elem e : Z) : st heap Z :=
  match fuel with
  | O => st_err NoFuel
  | S fuel =>
      t ← list_end l;
      if e =? t then mret e else
      if less elem e then mret e else
      e ← list_next e; insert_ordered_loop fuel l elem e
  end.

Definition list_insert_ordered (l elem : Z) : st heap unit :=
  ASSERT (negb (l =? NULL));;
  ASSERT (negb (elem =? NULL));;
  fuel ← loop_fuel;
  b ← list_begin l;
  e ← insert_ordered_loop fuel l elem b;
  list_insert e elem.

Fixpoint unique_loop (fuel : nat) (l duplicates elem : Z) : st heap unit :=
  match fuel with
  | O => st_err NoFuel
  | S fuel =>
      n ← list_next elem; t ← list_end l;
      if n =? t then mret tt else
      if negb (less elem n) && negb (less n elem) then
        list_remove n;;
        (if negb (duplicates =? NULL) then list_push_back duplicates n
         else mret tt);;
        unique_loop fuel l duplicates elem
      else unique_loop fuel l duplicates n
  end.

Definition list_unique (l duplicates : Z) : st heap unit :=
  ASSERT (negb (l =? NULL));;
  b ← list_empty l;
  if b : bool then mret tt else
  fuel ← loop_fuel;
  elem ← list_begin l;
  unique_loop fuel l duplicates elem.

Fixpoint max_loop (fuel : nat) (l max e : Z) : st heap Z :=
  match fuel with
  | O => st_err NoFuel
  | S fuel =>
      t ← list_end l;
      if e =? t then mret max else
      e' ← list_next e;
      max_loop fuel l (if less max e then e else max) e'
  end.

Definition list_max (l : Z) : st heap Z :=
  max ← list_begin l; t ← list_end l;
  if max =? t then mret max else
  fuel ← loop_fuel; e ← list_next max; max_loop fuel l max e.

Fixpoint min_loop (fuel : nat) (l min e : Z) : st heap Z :=
  match fuel with
  | O => st_err NoFuel
  | S fuel =>
      t ← list_end l;
      if e =? t then mret min else
      e' ← list_next e;
      min_loop fuel l (if less e min then e else min) e'
  end.

Definition list_min (l : Z) : st heap Z :=
  min ← list_begin l; t ← list_end l;
  if min =? t then mret min else
  fuel ← loop_fuel; e ← list_next min; min_loop fuel l min e.

End ordered.
End KList.
