(* ===== verification/KListFacts.v ===== *)
(** lib/kernel/list.c: the representation predicate of a list and the
    refinement of the basic operations to operations on sequences. *)
From S2P Require Import Prelude KList.
Import KList.
Local Open Scope Z_scope.

Module KListFacts.

(** * The two link functions of a heap *)
Definition nxt (h : heap) (a : Z) : option Z := next <$> h !! a.
Definition prv (h : heap) (a : Z) : option Z := prev <$> h !! a.
Definition mapped (h : heap) (a : Z) : Prop := is_Some (h !! a).

Definition upd_next (e v : Z) (h : heap) : heap :=
  alter (λ c, ListElem (prev c) v) e h.
Definition upd_prev (e v : Z) (h : heap) : heap :=
  alter (λ c, ListElem v (next c)) e h.

Section links.
Implicit Types (h : heap) (a e v : Z).

Lemma nxt_mapped h a v : nxt h a = Some v → mapped h a.
Proof. unfold nxt, mapped. destruct (h !! a); [eauto|done]. Qed.
Lemma prv_mapped h a v : prv h a = Some v → mapped h a.
Proof. unfold prv, mapped. destruct (h !! a); [eauto|done]. Qed.
Lemma mapped_nxt h a : mapped h a → is_Some (nxt h a).
Proof. intros [c Hc]. unfold nxt. rewrite Hc. eauto. Qed.
Lemma mapped_prv h a : mapped h a → is_Some (prv h a).
Proof. intros [c Hc]. unfold prv. rewrite Hc. eauto. Qed.

Lemma nxt_upd_next_eq h e v : mapped h e → nxt (upd_next e v h) e = Some v.
Proof. intros [c Hc]. unfold nxt, upd_next. by rewrite lookup_alter_eq, Hc. Qed.
Lemma nxt_upd_next_ne h e v a : a ≠ e → nxt (upd_next e v h) a = nxt h a.
Proof. intros. unfold nxt, upd_next. by rewrite lookup_alter_ne. Qed.
Lemma prv_upd_next h e v a : prv (upd_next e v h) a = prv h a.
Proof.
  unfold prv, upd_next. destruct (decide (a = e)) as [->|].
  - rewrite lookup_alter_eq. by destruct (h !! e).
  - by rewrite lookup_alter_ne.
Qed.
Lemma prv_upd_prev_eq h e v : mapped h e → prv (upd_prev e v h) e = Some v.
Proof. intros [c Hc]. unfold prv, upd_prev. by rewrite lookup_alter_eq, Hc. Qed.
Lemma prv_upd_prev_ne h e v a : a ≠ e → prv (upd_prev e v h) a = prv h a.
Proof. intros. unfold prv, upd_prev. by rewrite lookup_alter_ne. Qed.
Lemma nxt_upd_prev h e v a : nxt (upd_prev e v h) a = nxt h a.
Proof.
  unfold nxt, upd_prev. destruct (decide (a = e)) as [->|].
  - rewrite lookup_alter_eq. by destruct (h !! e).
  - by rewrite lookup_alter_ne.
Qed.
Lemma mapped_upd_next h e v a : mapped (upd_next e v h) a ↔ mapped h a.
Proof. unfold mapped, upd_next. by rewrite lookup_alter_is_Some. Qed.
Lemma mapped_upd_prev h e v a : mapped (upd_prev e v h) a ↔ mapped h a.
Proof. unfold mapped, upd_prev. by rewrite lookup_alter_is_Some. Qed.

Lemma get_next_ok h e v : nxt h e = Some v → get_next e h = Ok (v, h).
Proof. unfold nxt, get_next. destruct (h !! e); naive_solver. Qed.
Lemma get_prev_ok h e v : prv h e = Some v → get_prev e h = Ok (v, h).
Proof. unfold prv, get_prev. destruct (h !! e); naive_solver. Qed.
Lemma insert_alter (f : list_elem → list_elem) h e c :
  h !! e = Some c → <[e := f c]> h = alter f e h.
Proof.
  intros Hc. apply map_eq. intros i. destruct (decide (i = e)) as [->|].
  - by rewrite lookup_insert_eq, lookup_alter_eq, Hc.
  - by rewrite lookup_insert_ne, lookup_alter_ne.
Qed.
Lemma set_next_ok h e v : mapped h e → set_next e v h = Ok (tt, upd_next e v h).
Proof.
  intros [c Hc]. unfold set_next, upd_next. rewrite Hc. do 2 f_equal.
  by rewrite <-(insert_alter _ h e c Hc).
Qed.
Lemma set_prev_ok h e v : mapped h e → set_prev e v h = Ok (tt, upd_prev e v h).
Proof.
  intros [c Hc]. unfold set_prev, upd_prev. rewrite Hc. do 2 f_equal.
  by rewrite <-(insert_alter _ h e c Hc).
Qed.
Lemma dom_upd_next h e v : dom (upd_next e v h) = dom h.
Proof. apply dom_alter_L. Qed.
Lemma dom_upd_prev h e v : dom (upd_prev e v h) = dom h.
Proof. apply dom_alter_L. Qed.
Lemma lookup_upd_next_ne h e v a : a ≠ e → upd_next e v h !! a = h !! a.
Proof. intros. unfold upd_next. by rewrite lookup_alter_ne. Qed.
Lemma lookup_upd_prev_ne h e v a : a ≠ e → upd_prev e v h !! a = h !! a.
Proof. intros. unfold upd_prev. by rewrite lookup_alter_ne. Qed.
End links.

Create HintDb klist.
#[export] Hint Resolve nxt_mapped prv_mapped : klist.

(** Reads of an updated heap; side conditions are disequalities of addresses
    and mappedness. *)
Ltac heap_side :=
  first [ done | congruence | by (repeat first [rewrite mapped_upd_next | rewrite mapped_upd_prev];
               eauto 3 with klist) ].
Ltac heap_simpl :=
  repeat first
    [ rewrite nxt_upd_prev | rewrite prv_upd_next
    | rewrite nxt_upd_next_eq by heap_side | rewrite nxt_upd_next_ne by heap_side
    | rewrite prv_upd_prev_eq by heap_side | rewrite prv_upd_prev_ne by heap_side ].

Section classify.
Implicit Types (h : heap) (e n p : Z).

Lemma is_head_ok h e p n :
  e ≠ NULL → prv h e = Some p → nxt h e = Some n →
  is_head e h = Ok ((p =? NULL) && negb (n =? NULL), h).
Proof.
  intros He Hp Hn. unfold is_head. rewrite (proj2 (Z.eqb_neq e NULL) He).
  by rewrite (st_bind_ok _ _ _ _ _ (get_prev_ok h e p Hp)),
    (st_bind_ok _ _ _ _ _ (get_next_ok h e n Hn)).
Qed.
Lemma is_interior_ok h e p n :
  e ≠ NULL → prv h e = Some p → nxt h e = Some n →
  is_interior e h = Ok (negb (p =? NULL) && negb (n =? NULL), h).
Proof.
  intros He Hp Hn. unfold is_interior. rewrite (proj2 (Z.eqb_neq e NULL) He).
  by rewrite (st_bind_ok _ _ _ _ _ (get_prev_ok h e p Hp)),
    (st_bind_ok _ _ _ _ _ (get_next_ok h e n Hn)).
Qed.
Lemma is_tail_ok h e p n :
  e ≠ NULL → prv h e = Some p → nxt h e = Some n →
  is_tail e h = Ok (negb (p =? NULL) && (n =? NULL), h).
Proof.
  intros He Hp Hn. unfold is_tail. rewrite (proj2 (Z.eqb_neq e NULL) He).
  by rewrite (st_bind_ok _ _ _ _ _ (get_prev_ok h e p Hp)),
    (st_bind_ok _ _ _ _ _ (get_next_ok h e n Hn)).
Qed.

Lemma assert_neq {S} (s : S) a : a ≠ NULL → ASSERT (negb (a =? NULL)) s = Ok (tt, s).
Proof. intros H. by rewrite (proj2 (Z.eqb_neq a NULL) H). Qed.
Lemma assert_interior {S} (s : S) p n :
  p ≠ NULL → n ≠ NULL → ASSERT (negb (p =? NULL) && negb (n =? NULL)) s = Ok (tt, s).
Proof.
  intros H1 H2. by rewrite (proj2 (Z.eqb_neq p NULL) H1), (proj2 (Z.eqb_neq n NULL) H2).
Qed.
Lemma assert_not_tail {S} (s : S) p n :
  n ≠ NULL →
  ASSERT ((p =? NULL) && negb (n =? NULL) || negb (p =? NULL) && negb (n =? NULL)) s
  = Ok (tt, s).
Proof. intros H. rewrite (proj2 (Z.eqb_neq n NULL) H). by destruct (p =? NULL). Qed.
Lemma assert_not_head {S} (s : S) p n :
  p ≠ NULL →
  ASSERT (negb (p =? NULL) && negb (n =? NULL) || negb (p =? NULL) && (n =? NULL)) s
  = Ok (tt, s).
Proof. intros H. rewrite (proj2 (Z.eqb_neq p NULL) H). by destruct (n =? NULL). Qed.
End classify.

(** One step of symbolic execution of a call whose outcome the hypotheses
    determine. *)
Ltac run_side := heap_simpl; first [ eassumption | heap_side | reflexivity ].
Ltac run_call :=
  first [ apply get_next_ok; run_side | apply get_prev_ok; run_side
        | apply set_next_ok; run_side | apply set_prev_ok; run_side
        | eapply is_head_ok; run_side | eapply is_interior_ok; run_side
        | eapply is_tail_ok; run_side
        | apply assert_neq; run_side | apply assert_interior; run_side
        | apply assert_not_tail; run_side | apply assert_not_head; run_side
        | apply ASSERT_true; reflexivity ].
Ltac run_step := first [ erewrite st_bind_ok by run_call | run_call ].
Ltac run := repeat run_step.

Section traverse.
Implicit Types (h : heap) (e n p l : Z).

Lemma list_next_ok h e n :
  e ≠ NULL → n ≠ NULL → nxt h e = Some n → list_next e h = Ok (n, h).
Proof.
  intros He Hn0 Hn. destruct (mapped_prv h e) as [p Hp]; [eauto with klist|].
  unfold list_next. run.
Qed.
Lemma list_prev_ok h e p :
  e ≠ NULL → p ≠ NULL → prv h e = Some p → list_prev e h = Ok (p, h).
Proof.
  intros He Hn0 Hp. destruct (mapped_nxt h e) as [n Hn]; [eauto with klist|].
  unfold list_prev. run.
Qed.
End traverse.

(** * Chains of links *)
Fixpoint chain (h : heap) (ps : list Z) : Prop :=
  match ps with
  | a :: (b :: _) as tl => nxt h a = Some b ∧ prv h b = Some a ∧ chain h tl
  | _ => True
  end.

Section chains.
Implicit Types (h : heap) (a b p : Z) (ps us vs : list Z).

Lemma chain_cons2 h a b vs :
  chain h (a :: b :: vs) ↔
  nxt h a = Some b ∧ prv h b = Some a ∧ chain h (b :: vs).
Proof. done. Qed.

Lemma chain_app h us a vs :
  chain h (us ++ a :: vs) ↔ chain h (us ++ [a]) ∧ chain h (a :: vs).
Proof.
  induction us as [|x us IH]; [simpl; tauto|].
  destruct us as [|y us]; [simpl; tauto|].
  cbn [app] in *. rewrite !chain_cons2. cbn [app] in IH. rewrite IH. tauto.
Qed.

Lemma chain_ext h h' ps :
  (∀ a, a ∈ removelast ps → nxt h' a = nxt h a) →
  (∀ a, a ∈ tail ps → prv h' a = prv h a) →
  chain h ps → chain h' ps.
Proof.
  induction ps as [|a ps IH]; [done|]. destruct ps as [|b ps]; [done|].
  intros Hn Hp (H1 & H2 & H3). cbn [removelast tail] in *.
  split; [|split].
  - rewrite Hn; [done|]. set_solver.
  - rewrite Hp; [done|]. set_solver.
  - apply IH; [| |done].
    + intros x Hx. apply Hn. destruct ps; set_solver.
    + intros x Hx. apply Hp. set_solver.
Qed.

Lemma exists_last_or_nil ps : ps = [] ∨ ∃ a us, ps = us ++ [a].
Proof. destruct ps as [|b ps] using rev_ind; eauto. Qed.

Lemma elem_of_removelast a ps : a ∈ removelast ps → a ∈ ps.
Proof.
  induction ps as [|b ps IH]; [done|]. destruct ps; [set_solver|].
  cbn [removelast]. set_solver.
Qed.
Lemma elem_of_tail a ps : a ∈ tail ps → a ∈ ps.
Proof. destruct ps; set_solver. Qed.

Lemma chain_join h us vs :
  chain h (us ++ vs) ↔ chain h us ∧ chain h vs ∧
  (∀ a b, last us = Some a → head vs = Some b → nxt h a = Some b ∧ prv h b = Some a).
Proof.
  induction us as [|x us IH]; [simpl; naive_solver|].
  destruct us as [|y us].
  - destruct vs as [|z vs]; [simpl; naive_solver|].
    cbn [app]. rewrite chain_cons2. cbn. naive_solver.
  - cbn [app] in *. rewrite !chain_cons2, IH, (last_cons_cons x y). tauto.
Qed.

(** A segment survives updates that leave alone the [next] link of all but
    its last element and the [prev] link of all but its first. *)
Lemma chain_keep h h' ps :
  NoDup ps → chain h ps →
  (∀ a, a ∈ ps → last ps ≠ Some a → nxt h' a = nxt h a) →
  (∀ a, a ∈ ps → head ps ≠ Some a → prv h' a = prv h a) →
  chain h' ps.
Proof.
  intros Hnd Hc Hn Hp. apply (chain_ext h); [| |done].
  - intros a Ha. apply Hn; [by apply elem_of_removelast|].
    induction ps as [|b ps IH]; [set_solver|]. destruct ps as [|c ps]; [set_solver|].
    rewrite last_cons_cons. apply NoDup_cons in Hnd as [Hnd1 Hnd2].
    cbn [removelast] in Ha. apply elem_of_cons in Ha as [->|Ha].
    + intros Hl. apply last_Some_elem_of in Hl. done.
    + destruct Hc as (? & ? & ?). apply IH; [done|done|..|done].
      * intros x Hx Hlx. apply Hn; [set_solver|by rewrite last_cons_cons].
      * intros x Hx Hhx. apply Hp; [set_solver|]. cbn. intros [= ->]. done.
  - intros a Ha. destruct ps as [|b ps]; [set_solver|]. cbn in *. apply Hp; [set_solver|].
    apply NoDup_cons in Hnd as [Hnd _]. intros [= ->]. done.
Qed.

Lemma chain_interior_next h ps f n :
  chain h ps → head ps = Some f → (last ps = Some f → nxt h f = Some n) →
  ∃ v, nxt h f = Some v ∧ (v = n ∨ v ∈ ps).
Proof.
  intros Hc Hh Hl. destruct ps as [|a [|b ps]]; [done|..]; cbn in *; simplify_eq.
  - eauto.
  - destruct Hc as (? & _). eexists. split; [done|]. set_solver.
Qed.
Lemma chain_interior_prev h ps g n :
  chain h ps → last ps = Some g → (head ps = Some g → prv h g = Some n) →
  ∃ v, prv h g = Some v ∧ (v = n ∨ v ∈ ps).
Proof.
  intros Hc Hh Hl. apply last_Some in Hh as [ps' ->].
  destruct (exists_last_or_nil ps') as [->|(a & ps'' & ->)]; [cbn in Hl; eauto|].
  rewrite <-app_assoc in Hc. apply chain_app in Hc as [_ (_ & ? & _)].
  eexists. split; [done|]. set_solver.
Qed.

Lemma removelast_snoc us p : removelast (us ++ [p]) = us.
Proof. apply removelast_last. Qed.
End chains.

(** A chain of distinct non-null elements. *)
Definition dll (h : heap) (ps : list Z) : Prop :=
  NoDup ps ∧ (NULL ∉ ps) ∧ chain h ps.

(** [is_list h l xs]: the list at [l] is well formed in [h] and holds the
    elements [xs], front to back. *)
Definition is_list (h : heap) (l : Z) (xs : list Z) : Prop :=
  dll h (head_of l :: xs ++ [tail_of l]) ∧
  prv h (head_of l) = Some NULL ∧ nxt h (tail_of l) = Some NULL.

(** The elements a list owns, sentinels included. *)
Definition nodes (l : Z) (xs : list Z) : list Z := head_of l :: xs ++ [tail_of l].

(** Two heaps with the same elements that agree outside [ps]. *)
Definition frame (ps : list Z) (h h' : heap) : Prop :=
  dom h' = dom h ∧ ∀ a, a ∉ ps → h' !! a = h !! a.
(** Distinctness of addresses from disjointness of the segments they are in. *)
Ltac disj :=
  match goal with
  | |- ?a ≠ ?b =>
      let E := fresh in intros E;
      match goal with
      | H : ∀ x, x ∈ ?u → x ∉ ?v, H1 : a ∈ ?u, H2 : b ∈ ?v |- _ =>
          apply (H a H1); rewrite E; exact H2
      | H : ∀ x, x ∈ ?u → x ∉ ?v, H1 : b ∈ ?u, H2 : a ∈ ?v |- _ =>
          apply (H b H1); rewrite <-E; exact H2
      end
  end.

Ltac disj_false :=
  match goal with
  | H : ∀ x, x ∈ ?u → x ∉ ?v, H1 : ?a ∈ ?u, H2 : ?a ∈ ?v |- False =>
      exact (H a H1 H2)
  end.

Lemma not_elem_of_cons4 (x a b c : Z) :
  x ∉ [a; b; c] → x ≠ a ∧ x ≠ b ∧ x ≠ c ∧ True.
Proof. set_solver. Qed.

Lemma NoDup_app4 {A} (us bs fs vs : list A) :
  NoDup (us ++ bs ++ fs ++ vs) ↔
  (NoDup us ∧ NoDup bs ∧ NoDup fs ∧ NoDup vs) ∧
  ((∀ x, x ∈ us → x ∉ bs) ∧ (∀ x, x ∈ us → x ∉ fs) ∧ (∀ x, x ∈ us → x ∉ vs) ∧
   (∀ x, x ∈ bs → x ∉ fs) ∧ (∀ x, x ∈ bs → x ∉ vs) ∧ (∀ x, x ∈ fs → x ∉ vs)).
Proof.
  rewrite !NoDup_app. repeat setoid_rewrite not_elem_of_app.
  split.
  - intros (?&H1&?&H2&?&H3&?). split_and!; try done; intros x Hx.
    + by apply (H1 x Hx).
    + by apply (H1 x Hx).
    + by apply (H1 x Hx).
    + by apply (H2 x Hx).
    + by apply (H2 x Hx).
  - intros ((?&?&?&?)&?&?&?&?&?&?). split_and!; try done; intros x Hx; split_and?; eauto.
Qed.

Section dlls.
Implicit Types (h : heap) (l a b e p : Z) (ps us vs xs ys : list Z).

Lemma dll_app_inv h us p b vs :
  dll h (us ++ p :: b :: vs) →
  nxt h p = Some b ∧ prv h b = Some p ∧ p ≠ b ∧ p ≠ NULL ∧ b ≠ NULL.
Proof.
  intros (Hnd & Hnull & Hc). apply chain_app in Hc as [_ (? & ? & _)].
  split_and!; [done|done| | |].
  - apply NoDup_app in Hnd as (_ & _ & Hnd). apply NoDup_cons in Hnd as [Hnd _].
    set_solver.
  - set_solver.
  - set_solver.
Qed.

Lemma list_insert_run h b e p :
  prv h b = Some p → b ≠ NULL → p ≠ NULL → e ≠ NULL →
  mapped h p → mapped h e → e ≠ b → e ≠ p → p ≠ b →
  list_insert b e h =
  Ok (tt, upd_prev b e (upd_next p e (upd_next e b (upd_prev e p h)))).
Proof.
  intros Hp Hb Hp0 He Hmp Hme Heb Hep Hpb.
  destruct (mapped_nxt h b) as [n Hn]; [eauto with klist|].
  unfold list_insert. run.
Qed.

Lemma dll_insert h us p b vs e :
  dll h (us ++ p :: b :: vs) → e ∉ us ++ p :: b :: vs → e ≠ NULL → mapped h e →
  ∃ h', list_insert b e h = Ok (tt, h') ∧ dll h' (us ++ p :: e :: b :: vs) ∧
    dom h' = dom h ∧
    (∀ x, x ≠ p → x ≠ e → nxt h' x = nxt h x) ∧
    (∀ x, x ≠ b → x ≠ e → prv h' x = prv h x) ∧
    (∀ x, x ∉ [p; e; b] → h' !! x = h !! x).
Proof.
  intros Hd Hne He0 Hme. pose proof (dll_app_inv _ _ _ _ _ Hd) as (Hn & Hp & Hpb & Hp0 & Hb0).
  destruct Hd as (Hnd & Hnull & Hc). apply chain_app in Hc as [Hc1 (_ & _ & Hc2)].
  assert (e ≠ p ∧ e ≠ b) as [Hep Heb] by set_solver.
  eexists. split; [apply list_insert_run; eauto with klist|]. split_and!.
  - split_and!.
    + apply NoDup_app in Hnd as (? & ? & [? [? ?]%NoDup_cons]%NoDup_cons).
      rewrite NoDup_app, !NoDup_cons. set_solver.
    + set_solver.
    + apply chain_app. rewrite !chain_cons2. split_and!.
      * apply (chain_ext h); [| |done]; intros x Hx.
        -- rewrite removelast_snoc in Hx. assert (x ≠ p ∧ x ≠ e) as [? ?].
           { apply NoDup_app in Hnd as (? & ? & ?). set_solver. }
           by heap_simpl.
        -- assert (x ≠ b ∧ x ≠ e) as [? ?].
           { assert (x ∈ us ++ [p]) by (by apply elem_of_tail).
             apply NoDup_app in Hnd as (? & ? & [? ?]%NoDup_cons). set_solver. }
           by heap_simpl.
      * by heap_simpl.
      * by heap_simpl.
      * by heap_simpl.
      * by heap_simpl.
      * apply (chain_ext h); [| |done]; intros x Hx.
        -- assert (x ≠ p ∧ x ≠ e) as [? ?].
           { assert (x ∈ b :: vs) by (by apply elem_of_removelast).
             apply NoDup_app in Hnd as (? & ? & [? ?]%NoDup_cons). set_solver. }
           by heap_simpl.
        -- assert (x ≠ b ∧ x ≠ e) as [? ?].
           { apply NoDup_app in Hnd as (? & ? & [? [? ?]%NoDup_cons]%NoDup_cons). set_solver. }
           by heap_simpl.
  - by rewrite dom_upd_prev, !dom_upd_next, dom_upd_prev.
  - intros x ? ?. by heap_simpl.
  - intros x ? ?. by heap_simpl.
  - intros x Hx. rewrite lookup_upd_prev_ne, !lookup_upd_next_ne, lookup_upd_prev_ne by set_solver. done.
Qed.

Lemma list_remove_run h e p n :
  prv h e = Some p → nxt h e = Some n → e ≠ NULL → p ≠ NULL → n ≠ NULL →
  mapped h p → mapped h n → e ≠ p → e ≠ n →
  list_remove e h = Ok (n, upd_prev n p (upd_next p n h)).
Proof. intros. unfold list_remove. run. Qed.

Lemma dll_remove h us e vs p n :
  dll h (us ++ e :: vs) → last us = Some p → head vs = Some n →
  ∃ h', list_remove e h = Ok (n, h') ∧ dll h' (us ++ vs) ∧ dom h' = dom h ∧
    (∀ x, x ≠ p → nxt h' x = nxt h x) ∧ (∀ x, x ≠ n → prv h' x = prv h x) ∧
    (∀ x, x ∉ [p; n] → h' !! x = h !! x).
Proof.
  intros (Hnd & Hnull & Hc) Hl Hh.
  pose proof (last_Some_elem_of _ _ Hl) as Hpu. pose proof (head_Some_elem_of _ _ Hh) as Hnv.
  apply chain_join in Hc as (Hc1 & Hc2 & Hj). change (e :: vs) with ([e] ++ vs) in Hc2.
  apply chain_join in Hc2 as (_ & Hc2 & Hj2).
  destruct (Hj p e Hl eq_refl) as [Hpn Hpe]. destruct (Hj2 e n eq_refl Hh) as [Hen Hep].
  apply NoDup_app in Hnd as (Hn1 & Hn2 & [Hn3 Hn4]%NoDup_cons).
  eexists. split; [eapply list_remove_run; eauto with klist; set_solver|]. split_and!.
  - split_and!; [rewrite NoDup_app; set_solver|set_solver|].
    apply chain_join. split_and!.
    + apply (chain_keep h); [done|done| |]; intros a Ha Hla.
      * by heap_simpl.
      * assert (a ≠ n) by set_solver. by heap_simpl.
    + apply (chain_keep h); [done|done| |]; intros a Ha Hla.
      * assert (a ≠ p) by set_solver. by heap_simpl.
      * by heap_simpl.
    + intros a b Ha Hb. simplify_eq. by heap_simpl.
  - by rewrite dom_upd_prev, dom_upd_next.
  - intros x ?. by heap_simpl.
  - intros x ?. by heap_simpl.
  - intros x Hx. rewrite lookup_upd_prev_ne, lookup_upd_next_ne by set_solver. done.
Qed.

Lemma list_splice_run h b f e q p g :
  f ≠ e → prv h b = Some q → prv h f = Some p → prv h e = Some g → nxt h g = Some e →
  b ≠ NULL → q ≠ NULL → f ≠ NULL → p ≠ NULL → e ≠ NULL → g ≠ NULL →
  is_Some (nxt h f) → (∀ n, nxt h f = Some n → n ≠ NULL) →
  is_Some (prv h g) → (∀ n, prv h g = Some n → n ≠ NULL) →
  mapped h p → mapped h q → b ≠ e → b ≠ f → f ≠ p → g ≠ p →
  list_splice b f e h =
  Ok (tt, upd_prev b g (upd_next q f (upd_next g b (upd_prev f q
            (upd_prev e p (upd_next p e h)))))).
Proof.
  intros Hfe Hb Hf He Hg Hb0 Hq0 Hf0 Hp0 He0 Hg0 [nf Hnf] Hnf0 [pg Hpg] Hpg0 Hmp Hmq ????.
  specialize (Hnf0 _ Hnf). specialize (Hpg0 _ Hpg).
  destruct (mapped_nxt h b) as [nb Hnb]; [eauto with klist|].
  unfold list_splice. do 3 run_step. rewrite (proj2 (Z.eqb_neq f e) Hfe).
  erewrite st_bind_ok by (apply (list_prev_ok _ _ g); assumption). run.
Qed.

(** Moving a segment [fs] back to just before the segment [bs] of its own
    list. *)
Lemma dll_splice_back h us bs fs vs q b p f g n :
  dll h (us ++ bs ++ fs ++ vs) →
  last us = Some q → head bs = Some b → last bs = Some p →
  head fs = Some f → last fs = Some g → head vs = Some n →
  ∃ h', list_splice b f n h = Ok (tt, h') ∧ dll h' (us ++ fs ++ bs ++ vs) ∧
    dom h' = dom h ∧
    (∀ x, x ∉ [q; p; g] → nxt h' x = nxt h x) ∧
    (∀ x, x ∉ [b; f; n] → prv h' x = prv h x).
Proof.
  intros (Hnd & Hnull & Hc) Hq Hb Hp Hf Hg Hn.
  pose proof (last_Some_elem_of _ _ Hq). pose proof (head_Some_elem_of _ _ Hb).
  pose proof (last_Some_elem_of _ _ Hp). pose proof (head_Some_elem_of _ _ Hf).
  pose proof (last_Some_elem_of _ _ Hg). pose proof (head_Some_elem_of _ _ Hn).
  pose proof (proj1 (NoDup_app4 _ _ _ _) Hnd) as ((Hn1 & Hn2 & Hn3 & Hn4) & ?&?&?&?&?&?).
  apply chain_join in Hc as (Hc1 & Hc & Hj1). apply chain_join in Hc as (Hc2 & Hc & Hj2).
  apply chain_join in Hc as (Hc3 & Hc4 & Hj3).
  destruct (Hj1 q b Hq) as [Hqb Hbq]; [by rewrite head_app, Hb|].
  destruct (Hj2 p f Hp) as [Hpf Hfp]; [by rewrite head_app, Hf|].
  destruct (Hj3 g n Hg Hn) as [Hgn Hng].
  assert (q ≠ b) by disj. assert (q ≠ p) by disj. assert (q ≠ f) by disj.
  assert (q ≠ g) by disj. assert (q ≠ n) by disj. assert (b ≠ f) by disj.
  assert (b ≠ g) by disj. assert (b ≠ n) by disj. assert (p ≠ f) by disj.
  assert (p ≠ g) by disj. assert (p ≠ n) by disj. assert (f ≠ n) by disj.
  assert (g ≠ n) by disj.
  assert (∀ x, x ∈ us ++ bs ++ fs ++ vs → x ≠ NULL) as Hnz by (intros x Hx ->; done).
  setoid_rewrite elem_of_app in Hnz. setoid_rewrite elem_of_app in Hnz.
  setoid_rewrite elem_of_app in Hnz.
  destruct (chain_interior_next h fs f n Hc3 Hf) as (nf & Hnf & Hnf'); [congruence..|].
  destruct (chain_interior_prev h fs g p Hc3 Hg) as (pg & Hpg & Hpg'); [congruence..|].
  assert (nf ≠ NULL) by (destruct Hnf' as [->|]; auto).
  assert (pg ≠ NULL) by (destruct Hpg' as [->|]; auto).
  eexists. split.
  { apply (list_splice_run h b f n q p g); eauto 3 with klist; auto; congruence. }
  split_and!.
  - split_and!.
    + rewrite NoDup_app4. split_and!; try done; intros x Hx Hx'; disj_false.
    + rewrite !elem_of_app in Hnull |- *. tauto.
    + rewrite !chain_join. split_and!.
      * apply (chain_keep h); [done|done| |]; intros a Ha Hla.
        -- assert (a ≠ p) by disj. assert (a ≠ g) by disj. by heap_simpl.
        -- assert (a ≠ b) by disj. assert (a ≠ f) by disj. assert (a ≠ n) by disj. by heap_simpl.
      * apply (chain_keep h); [done|done| |]; intros a Ha Hla.
        -- assert (a ≠ q) by disj. assert (a ≠ p) by disj. by heap_simpl.
        -- assert (a ≠ b) by disj. assert (a ≠ n) by disj. by heap_simpl.
      * apply (chain_keep h); [done|done| |]; intros a Ha Hla.
        -- assert (a ≠ q) by disj. assert (a ≠ g) by disj. by heap_simpl.
        -- assert (a ≠ f) by disj. assert (a ≠ n) by disj. by heap_simpl.
      * apply (chain_keep h); [done|done| |]; intros a Ha Hla.
        -- assert (a ≠ q) by disj. assert (a ≠ p) by disj. assert (a ≠ g) by disj. by heap_simpl.
        -- assert (a ≠ b) by disj. assert (a ≠ f) by disj. by heap_simpl.
      * intros x y Hx Hy. simplify_eq. by heap_simpl.
      * intros x y Hx Hy. rewrite head_app, Hb in Hy. simplify_eq. by heap_simpl.
      * intros x y Hx Hy. rewrite head_app, Hf in Hy. simplify_eq. by heap_simpl.
  - by rewrite !dom_upd_prev, !dom_upd_next, !dom_upd_prev, dom_upd_next.
  - intros x (?&?&?&_)%not_elem_of_cons4. by heap_simpl.
  - intros x (?&?&?&_)%not_elem_of_cons4. by heap_simpl.
Qed.
End dlls.

(** * The list predicate *)
Definition first_node (l : Z) (xs : list Z) : Z := default (tail_of l) (head xs).
Definition last_node (l : Z) (xs : list Z) : Z := default (head_of l) (last xs).

Section lists.
Implicit Types (h : heap) (l a b e p : Z) (xs ys zs : list Z).

Lemma head_snoc_tail l ys : head (ys ++ [tail_of l]) = Some (first_node l ys).
Proof. by destruct ys. Qed.
Lemma last_cons_head l xs : last (head_of l :: xs) = Some (last_node l xs).
Proof. rewrite last_cons. unfold last_node. by destruct (last xs). Qed.

Lemma is_list_nodes h l xs : is_list h l xs ↔
  dll h (nodes l xs) ∧ prv h (head_of l) = Some NULL ∧ nxt h (tail_of l) = Some NULL.
Proof. done. Qed.

Lemma nodes_app l xs ys : nodes l (xs ++ ys) = (head_of l :: xs) ++ (ys ++ [tail_of l]).
Proof. unfold nodes. cbn. by rewrite <-app_assoc. Qed.

Lemma elem_of_nodes a l xs : a ∈ nodes l xs ↔ a = head_of l ∨ a = tail_of l ∨ a ∈ xs.
Proof. unfold nodes. set_solver. Qed.

Lemma is_list_split h l xs ys : is_list h l (xs ++ ys) →
  nxt h (last_node l xs) = Some (first_node l ys) ∧
  prv h (first_node l ys) = Some (last_node l xs) ∧
  last_node l xs ≠ NULL ∧ first_node l ys ≠ NULL ∧
  last_node l xs ≠ tail_of l ∧ first_node l ys ≠ head_of l.
Proof.
  intros ((Hnd & Hnull & Hc) & _ & _).
  change (head_of l :: (xs ++ ys) ++ [tail_of l]) with (nodes l (xs ++ ys)) in *.
  rewrite nodes_app in *. apply chain_join in Hc as (_ & _ & Hj).
  destruct (Hj _ _ (last_cons_head l xs) (head_snoc_tail l ys)) as [Hn Hp].
  pose proof (last_Some_elem_of _ _ (last_cons_head l xs)) as Hl.
  pose proof (head_Some_elem_of _ _ (head_snoc_tail l ys)) as Hf.
  apply NoDup_app in Hnd as (_ & Hd & _). split_and!; [done|done|..].
  - intros E. apply Hnull, elem_of_app. left. by rewrite <-E.
  - intros E. apply Hnull, elem_of_app. right. by rewrite <-E.
  - intros E. rewrite E in Hl. apply (Hd _ Hl). set_solver.
  - intros E. rewrite E in Hf. apply (Hd (head_of l)); [set_solver|done].
Qed.

Lemma is_list_null h l xs : is_list h l xs → l ≠ NULL ∧ tail_of l ≠ NULL ∧ head_of l ≠ tail_of l.
Proof.
  intros H. destruct (is_list_split h l [] xs H) as (_ & _ & ? & _ & ? & _).
  destruct (is_list_split h l xs [] ) as (_ & _ & _ & ? & _); [by rewrite app_nil_r|done].
Qed.

Lemma is_list_at h l xs e ys : is_list h l (xs ++ e :: ys) →
  nxt h e = Some (first_node l ys) ∧ prv h e = Some (last_node l xs) ∧
  e ≠ NULL ∧ e ≠ tail_of l ∧ e ≠ head_of l.
Proof.
  intros H. destruct (is_list_split h l xs (e :: ys) H) as (_ & Hp & _ & ? & _ & ?).
  replace (xs ++ e :: ys) with ((xs ++ [e]) ++ ys) in H by by rewrite <-app_assoc.
  destruct (is_list_split h l (xs ++ [e]) ys H) as (Hn & _ & ? & _ & ? & _).
  unfold last_node in Hn, H2, H3. rewrite last_snoc in Hn, H2, H3. cbn in *. done.
Qed.

Lemma is_list_NoDup h l xs : is_list h l xs → NoDup xs.
Proof.
  intros ((Hnd & _ & _) & _). apply NoDup_cons in Hnd as [_ Hnd].
  by apply NoDup_app in Hnd as (? & _).
Qed.

Lemma chain_mapped h ps : (2 ≤ length ps)%nat → chain h ps → ∀ a, a ∈ ps → mapped h a.
Proof.
  induction ps as [|x [|y ps] IH]; [cbn; lia|cbn; lia|].
  intros _ (Hn & Hp & Hc) a [->|Ha]%elem_of_cons; [eauto with klist|].
  destruct ps as [|z ps]; [|apply IH; [cbn; lia|done|done]].
  apply list_elem_of_singleton in Ha as ->. eauto with klist.
Qed.

Lemma is_list_mapped h l xs a : is_list h l xs → a ∈ nodes l xs → mapped h a.
Proof.
  intros ((_ & _ & Hc) & _) Ha. eapply chain_mapped; [|exact Hc|exact Ha].
  cbn. rewrite length_app. cbn. lia.
Qed.

(** The fuel of a loop exceeds the number of nodes of any list. *)
Lemma is_list_fuel h l xs : is_list h l xs → (length xs + 2 ≤ size h)%nat.
Proof.
  intros H. pose proof (λ a, is_list_mapped h l xs a H) as Hm. destruct H as ((Hnd & _) & _).
  assert (length (nodes l xs) ≤ length (elements (dom h)))%nat as Hle.
  { apply submseteq_length, NoDup_submseteq; [exact Hnd|]. intros a Ha.
    apply elem_of_elements, elem_of_dom, Hm, Ha. }
  unfold nodes in Hle. cbn in Hle. rewrite length_app in Hle. cbn in Hle.
  rewrite <-size_dom. unfold size, set_size. cbn. lia.
Qed.

Lemma is_list_frame h h' l xs ps :
  is_list h l xs → frame ps h h' → (∀ a, a ∈ nodes l xs → a ∉ ps) → is_list h' l xs.
Proof.
  intros ((Hnd & Hnull & Hc) & Hp & Hn) [_ Hf] Hd.
  assert (∀ a, a ∈ nodes l xs → nxt h' a = nxt h a ∧ prv h' a = prv h a) as Hag.
  { intros a Ha. unfold nxt, prv. by rewrite (Hf a (Hd a Ha)). }
  split_and!; [split_and!; [done|done|]|..].
  - apply (chain_keep h); [done|done| |]; intros a Ha _; by apply Hag.
  - rewrite (proj2 (Hag (head_of l) ltac:(unfold nodes; set_solver))). done.
  - rewrite (proj1 (Hag (tail_of l) ltac:(unfold nodes; set_solver))). done.
Qed.
End lists.
End KListFacts.
