(* ===== verification/KListOps.v ===== *)
(** lib/kernel/list.c: every operation but the sort, refined to an operation
    on the sequence of elements.  Each statement gives the outcome of the
    pointer program, the sequence the list holds afterwards and the part of
    memory it left alone. *)
From S2P Require Import Prelude KList KListFacts.
Import KList KListFacts.
Local Open Scope Z_scope.

Module KListOps.

(** * Specification: the operations on sequences *)
Section spec.
Context (less : Z → Z → bool).

(** Position of an ordered insertion: before the first element that [x] is
    less than. *)
Fixpoint spec_insert_ordered (x : Z) (xs : list Z) : list Z :=
  match xs with
  | [] => [x]
  | y :: ys => if less x y then x :: y :: ys else y :: spec_insert_ordered x ys
  end.

Fixpoint spec_max (m : Z) (xs : list Z) : Z :=
  match xs with [] => m | y :: ys => spec_max (if less m y then y else m) ys end.

Fixpoint spec_min (m : Z) (xs : list Z) : Z :=
  match xs with [] => m | y :: ys => spec_min (if less y m then y else m) ys end.

Definition equivb (x y : Z) : bool := negb (less x y) && negb (less y x).

(** What [list_unique] keeps after the element [m], and what it removes. *)
Fixpoint spec_unique (m : Z) (xs : list Z) : list Z * list Z :=
  match xs with
  | [] => ([], [])
  | y :: ys =>
      if equivb m y then let '(k, d) := spec_unique m ys in (k, y :: d)
      else let '(k, d) := spec_unique y ys in (y :: k, d)
  end.
End spec.

Section ops.
Implicit Types (h : heap) (l a b e p : Z) (xs ys zs : list Z).

Lemma list_begin_ok h l xs :
  is_list h l xs → list_begin l h = Ok (first_node l xs, h).
Proof.
  intros H. destruct (is_list_split h l [] xs H) as (Hn & _).
  destruct (is_list_null _ _ _ H) as (? & _). unfold list_begin. run.
Qed.

Lemma list_end_ok h l xs : is_list h l xs → list_end l h = Ok (tail_of l, h).
Proof. intros (? & _)%is_list_null. unfold list_end. by run. Qed.

Lemma list_rbegin_ok h l xs :
  is_list h l xs → list_rbegin l h = Ok (last_node l xs, h).
Proof.
  intros H. destruct (is_list_split h l xs []) as (_ & Hp & _); [by rewrite app_nil_r|].
  destruct (is_list_null _ _ _ H) as (? & _). unfold list_rbegin. run.
Qed.

Lemma first_node_tail h l xs ys :
  is_list h l (xs ++ ys) → (first_node l ys =? tail_of l) = bool_decide (ys = []).
Proof.
  intros H. destruct ys as [|y ys]; [by apply Z.eqb_refl|].
  apply is_list_at in H as (_ & _ & _ & ? & _). by apply Z.eqb_neq.
Qed.

Lemma list_empty_ok h l xs :
  is_list h l xs → list_empty l h = Ok (bool_decide (xs = []), h).
Proof.
  intros H. unfold list_empty.
  rewrite (st_bind_ok _ _ _ _ _ (list_begin_ok h l xs H)),
    (st_bind_ok _ _ _ _ _ (list_end_ok h l xs H)).
  by rewrite (first_node_tail h l [] xs H).
Qed.

Lemma list_insert_ok h l xs ys e :
  is_list h l (xs ++ ys) → mapped h e → e ≠ NULL → e ∉ nodes l (xs ++ ys) →
  ∃ h', list_insert (first_node l ys) e h = Ok (tt, h') ∧
    is_list h' l (xs ++ e :: ys) ∧ frame (e :: nodes l (xs ++ ys)) h h'.
Proof.
  intros H Hm He0 He.
  pose proof (head_snoc_tail l ys) as Hh. pose proof (last_cons_head l xs) as Hl.
  destruct (is_list_split _ _ _ _ H) as (Hsn & Hsp & _ & _ & Hlt & Hfh).
  destruct H as (Hd & Hph & Hnt). fold (nodes l (xs ++ ys)) in Hd.
  rewrite nodes_app in Hd, He. apply last_Some in Hl as [us Hus].
  destruct (ys ++ [tail_of l]) as [|b vs] eqn:Hv; [done|]. cbn in Hh. simplify_eq.
  rewrite Hus, <-app_assoc in Hd, He. cbn in Hd, He.
  destruct (dll_insert _ _ _ _ _ _ Hd He He0 Hm)
    as (h' & Hrun & Hd' & Hdom & Hnx & Hpv & Hlk).
  exists h'. split; [done|]. split; [|split; [done|]].
  - apply is_list_nodes. split_and!.
    + replace (nodes l (xs ++ e :: ys)) with ((us ++ [last_node l xs]) ++ e :: first_node l ys :: vs); [|].
      * by rewrite <-app_assoc.
      * rewrite <-Hus, <-Hv. unfold nodes. cbn. by rewrite <-app_assoc.
    + rewrite Hpv; [done|done|]. intros <-. apply He. assert (head_of l ∈ us ++ [last_node l xs]).
      { rewrite <-Hus. set_solver. } set_solver.
    + rewrite Hnx; [done|done|]. intros <-. apply He.
      assert (tail_of l ∈ first_node l ys :: vs) by (rewrite <-Hv; set_solver). set_solver.
  - intros a Ha. apply Hlk. rewrite nodes_app, Hus, Hv in Ha. set_solver.
Qed.

Lemma list_push_front_ok h l xs e :
  is_list h l xs → mapped h e → e ≠ NULL → e ∉ nodes l xs →
  ∃ h', list_push_front l e h = Ok (tt, h') ∧
    is_list h' l (e :: xs) ∧ frame (e :: nodes l xs) h h'.
Proof.
  intros H ???. unfold list_push_front.
  rewrite (st_bind_ok _ _ _ _ _ (list_begin_ok h l xs H)).
  by apply (list_insert_ok h l [] xs e).
Qed.

Lemma list_push_back_ok h l xs e :
  is_list h l xs → mapped h e → e ≠ NULL → e ∉ nodes l xs →
  ∃ h', list_push_back l e h = Ok (tt, h') ∧
    is_list h' l (xs ++ [e]) ∧ frame (e :: nodes l xs) h h'.
Proof.
  intros H ? ? He. unfold list_push_back.
  rewrite (st_bind_ok _ _ _ _ _ (list_end_ok h l xs H)).
  rewrite <-(app_nil_r xs) in H, He. 
  destruct (list_insert_ok h l xs [] e H) as (h' & ?); [done..|].
  exists h'. by rewrite app_nil_r in *.
Qed.

Lemma list_remove_ok h l xs e ys :
  is_list h l (xs ++ e :: ys) →
  ∃ h', list_remove e h = Ok (first_node l ys, h') ∧
    is_list h' l (xs ++ ys) ∧ frame (nodes l (xs ++ ys)) h h'.
Proof.
  intros H. pose proof (head_snoc_tail l ys) as Hh. pose proof (last_cons_head l xs) as Hl.
  destruct (is_list_at _ _ _ _ _ H) as (_ & _ & _ & ? & ?).
  pose proof H as H2. replace (xs ++ e :: ys) with ((xs ++ [e]) ++ ys) in H2 by by rewrite <-app_assoc.
  destruct (is_list_split _ _ _ _ H2) as (_ & _ & _ & _ & _ & Hfh).
  destruct (is_list_split _ _ _ _ H) as (_ & _ & _ & _ & Hlt & _).
  destruct H as (Hd & Hph & Hnt). fold (nodes l (xs ++ e :: ys)) in Hd.
  rewrite nodes_app in Hd. cbn [app] in Hd.
  destruct (dll_remove h (head_of l :: xs) e _ _ _ Hd Hl Hh)
    as (h' & Hrun & Hd' & Hdom & Hnx & Hpv & Hlk).
  exists h'. split; [done|]. split; [|split; [done|]].
  - apply is_list_nodes. rewrite nodes_app. split_and!; [done|..].
    + rewrite Hpv; done.
    + rewrite Hnx; done.
  - intros a Ha. apply Hlk. rewrite nodes_app in Ha.
    apply head_Some_elem_of in Hh. apply last_Some_elem_of in Hl. set_solver.
Qed.

Lemma list_front_ok h l xs e :
  is_list h l (e :: xs) → list_front l h = Ok (e, h).
Proof.
  intros H. destruct (is_list_split h l [] (e :: xs) H) as (Hn & _).
  unfold list_front. rewrite (st_bind_ok _ _ _ _ _ (list_empty_ok h l _ H)). cbn. run.
Qed.

Lemma list_back_ok h l xs e :
  is_list h l (xs ++ [e]) → list_back l h = Ok (e, h).
Proof.
  intros H. pose proof H as H'. rewrite <-(app_nil_r (xs ++ [e])) in H'.
  destruct (is_list_split h l (xs ++ [e]) [] H') as (_ & Hp & _).
  unfold last_node in Hp. rewrite last_snoc in Hp. cbn in Hp.
  unfold list_back. rewrite (st_bind_ok _ _ _ _ _ (list_empty_ok h l _ H)).
  rewrite bool_decide_eq_false_2 by (by destruct xs). cbn. run.
Qed.

Lemma list_front_empty h l : is_list h l [] → list_front l h = Err AssertFail.
Proof. intros H. unfold list_front. by rewrite (st_bind_ok _ _ _ _ _ (list_empty_ok h l _ H)). Qed.

Lemma list_back_empty h l : is_list h l [] → list_back l h = Err AssertFail.
Proof. intros H. unfold list_back. by rewrite (st_bind_ok _ _ _ _ _ (list_empty_ok h l _ H)). Qed.

Lemma list_pop_front_ok h l e xs :
  is_list h l (e :: xs) →
  ∃ h', list_pop_front l h = Ok (e, h') ∧ is_list h' l xs ∧ frame (nodes l xs) h h'.
Proof.
  intros H. destruct (list_remove_ok h l [] e xs H) as (h' & Hr & ?).
  exists h'. unfold list_pop_front.
  by rewrite (st_bind_ok _ _ _ _ _ (list_front_ok h l xs e H)), (st_bind_ok _ _ _ _ _ Hr).
Qed.

Lemma list_pop_back_ok h l xs e :
  is_list h l (xs ++ [e]) →
  ∃ h', list_pop_back l h = Ok (e, h') ∧ is_list h' l xs ∧ frame (nodes l xs) h h'.
Proof.
  intros H. destruct (list_remove_ok h l xs e [] H) as (h' & Hr & Hl & Hf).
  rewrite app_nil_r in Hl, Hf. exists h'. unfold list_pop_back.
  by rewrite (st_bind_ok _ _ _ _ _ (list_back_ok h l xs e H)), (st_bind_ok _ _ _ _ _ Hr).
Qed.

Lemma list_pop_front_empty h l : is_list h l [] → list_pop_front l h = Err AssertFail.
Proof. intros H. by apply st_bind_err, list_front_empty. Qed.
Lemma list_pop_back_empty h l : is_list h l [] → list_pop_back l h = Err AssertFail.
Proof. intros H. by apply st_bind_err, list_back_empty. Qed.

Lemma frame_refl ps h : frame ps h h.
Proof. done. Qed.
Lemma frame_trans ps h1 h2 h3 : frame ps h1 h2 → frame ps h2 h3 → frame ps h1 h3.
Proof. intros [? H1] [? H2]. split; [congruence|]. intros a ?. by rewrite H2, H1. Qed.
Lemma frame_mono ps qs h h' : (∀ a, a ∈ ps → a ∈ qs) → frame ps h h' → frame qs h h'.
Proof. intros Hs [? H]. split; [done|]. intros a Ha. apply H. auto. Qed.
Lemma frame_mapped ps h h' a : frame ps h h' → mapped h a → mapped h' a.
Proof.
  intros [Hd _] Hm. apply elem_of_dom. rewrite Hd. by apply elem_of_dom.
Qed.
Lemma frame_size ps h h' : frame ps h h' → size h' = size h.
Proof. intros [Hd _]. by rewrite <-!size_dom, Hd. Qed.

Lemma list_init_ok h l :
  mapped h (head_of l) → mapped h (tail_of l) → l ≠ NULL → tail_of l ≠ NULL →
  ∃ h', list_init l h = Ok (tt, h') ∧ is_list h' l [] ∧
    frame [head_of l; tail_of l] h h'.
Proof.
  intros Hh Ht H0 Ht0. assert (head_of l ≠ tail_of l) as Hne by (unfold head_of, tail_of; lia).
  eexists. split; [unfold list_init; run|]. split; [|split].
  - split_and!.
    + split_and!; [| |split_and!; [by heap_simpl|by heap_simpl|done]].
      * cbn [app]. apply NoDup_cons. split; [|apply NoDup_singleton].
        by intros ?%list_elem_of_singleton.
      * cbn [app]. rewrite !not_elem_of_cons. unfold head_of.
        split_and!; [congruence..|apply not_elem_of_nil].
    + by heap_simpl.
    + by heap_simpl.
  - by rewrite dom_upd_next, !dom_upd_prev, dom_upd_next, dom_upd_prev.
  - intros a Ha. rewrite lookup_upd_next_ne, lookup_upd_prev_ne, lookup_upd_next_ne,
      lookup_upd_prev_ne by set_solver. done.
Qed.

(** The next element of an iteration standing at [e]. *)
Lemma list_next_at h l xs e ys :
  is_list h l (xs ++ e :: ys) → list_next e h = Ok (first_node l ys, h).
Proof.
  intros H. destruct (is_list_at _ _ _ _ _ H) as (Hn & _ & He & _).
  replace (xs ++ e :: ys) with ((xs ++ [e]) ++ ys) in H by by rewrite <-app_assoc.
  destruct (is_list_split _ _ _ _ H) as (_ & _ & _ & ? & _). by apply list_next_ok.
Qed.

Lemma list_prev_at h l xs e ys :
  is_list h l (xs ++ e :: ys) → list_prev e h = Ok (last_node l xs, h).
Proof.
  intros H. destruct (is_list_at _ _ _ _ _ H) as (_ & Hp & He & _).
  destruct (is_list_split _ _ _ _ H) as (_ & _ & ? & _). by apply list_prev_ok.
Qed.

Lemma is_list_in h l xs x :
  is_list h l xs → x ∈ xs → x ≠ head_of l ∧ x ≠ tail_of l ∧ x ≠ NULL.
Proof.
  intros H (us & vs & ->)%list_elem_of_split.
  by apply is_list_at in H as (_ & _ & ? & ? & ?).
Qed.

Lemma eqb_tail_at h l xs e ys :
  is_list h l (xs ++ e :: ys) → (e =? tail_of l) = false.
Proof. intros H. apply Z.eqb_neq. by apply is_list_at in H as (_ & _ & _ & ? & _). Qed.

Lemma cons_snoc_app xs e ys : xs ++ e :: ys = (xs ++ [e]) ++ ys.
Proof. by rewrite <-app_assoc. Qed.

Lemma size_loop_ok h l ys : ∀ xs fuel cnt,
  is_list h l (xs ++ ys) → (length ys < fuel)%nat →
  size_loop fuel l (first_node l ys) cnt h = Ok (cnt + Z.of_nat (length ys), h).
Proof.
  induction ys as [|y ys IH]; intros xs [|fuel] cnt H Hf; [cbn in Hf; lia| |cbn in Hf; lia|];
    cbn [size_loop]; rewrite (st_bind_ok _ _ _ _ _ (list_end_ok h l _ H)).
  - cbn. by rewrite Z.eqb_refl, Z.add_0_r.
  - change (first_node l (y :: ys)) with y. rewrite (eqb_tail_at _ _ _ _ _ H).
    rewrite (st_bind_ok _ _ _ _ _ (list_next_at _ _ _ _ _ H)).
    rewrite (IH (xs ++ [y])); [do 2 f_equal; cbn; lia|by rewrite <-app_assoc|cbn in Hf; lia].
Qed.

Lemma loop_fuel_ok h : loop_fuel h = Ok (S (size h), h).
Proof. done. Qed.

Lemma list_size_ok h l xs : is_list h l xs → list_size l h = Ok (Z.of_nat (length xs), h).
Proof.
  intros H. unfold list_size. rewrite (st_bind_ok _ _ _ _ _ (loop_fuel_ok h)).
  rewrite (st_bind_ok _ _ _ _ _ (list_begin_ok h l xs H)).
  rewrite (size_loop_ok h l xs []); [done|done|]. apply is_list_fuel in H. lia.
Qed.

(** * Reversal *)
Lemma swap_self_run h e p n :
  prv h e = Some p → nxt h e = Some n →
  swap (LPrev e) (LNext e) h = Ok (tt, upd_next e p (upd_prev e n h)).
Proof. intros. unfold swap. cbn [read_link write_link]. run. Qed.

(** [h] is [h0] with the links of the elements [xs] exchanged. *)
Definition swapped (h0 h : heap) (xs : list Z) : Prop :=
  dom h = dom h0 ∧
  (∀ a, a ∈ xs → nxt h a = prv h0 a ∧ prv h a = nxt h0 a) ∧
  (∀ a, a ∉ xs → h !! a = h0 !! a).

Lemma swapped_snoc h0 h xs e p n :
  swapped h0 h xs → e ∉ xs → prv h0 e = Some p → nxt h0 e = Some n →
  swapped h0 (upd_next e p (upd_prev e n h)) (xs ++ [e]).
Proof.
  intros (Hd & Hx & Ho) He Hp Hn. assert (mapped h e) as Hm.
  { unfold mapped. rewrite (Ho e He). by apply (prv_mapped _ _ p). }
  split_and!; [by rewrite dom_upd_next, dom_upd_prev| |].
  - intros a [Ha| ->%list_elem_of_singleton]%elem_of_app.
    + assert (a ≠ e) by (intros ->; done). heap_simpl. auto.
    + heap_simpl. done.
  - intros a [Ha He']%not_elem_of_app. apply not_elem_of_cons in He' as [He' _].
    rewrite lookup_upd_next_ne, lookup_upd_prev_ne by done. auto.
Qed.

Lemma reverse_loop_ok h0 l ys : ∀ xs h fuel,
  is_list h0 l (xs ++ ys) → swapped h0 h xs → (length ys < fuel)%nat →
  ∃ h', reverse_loop fuel l (first_node l ys) h = Ok (tt, h') ∧ swapped h0 h' (xs ++ ys).
Proof.
  induction ys as [|y ys IH]; intros xs h [|fuel] H Hs Hf;
    [cbn in Hf; lia| |cbn in Hf; lia|]; cbn [reverse_loop];
    destruct (is_list_null _ _ _ H) as (Hl0 & _);
    erewrite st_bind_ok by (unfold list_end; run_step; done).
  - exists h. cbn. by rewrite Z.eqb_refl, app_nil_r.
  - change (first_node l (y :: ys)) with y. rewrite (eqb_tail_at _ _ _ _ _ H).
    destruct (is_list_at _ _ _ _ _ H) as (Hn & Hp & _).
    assert (y ∉ xs) as Hy.
    { apply is_list_NoDup, NoDup_app in H as (_ & Hd & _). intros Hy.
      apply (Hd y Hy). set_solver. }
    assert (nxt h y = Some (first_node l ys) ∧ prv h y = Some (last_node l xs)) as [Hn' Hp'].
    { unfold nxt, prv in *. destruct Hs as (_ & _ & Ho). by rewrite (Ho y Hy). }
    rewrite (st_bind_ok _ _ _ _ _ (swap_self_run h y _ _ Hp' Hn')).
    erewrite st_bind_ok by (apply get_prev_ok; heap_simpl; reflexivity).
    pose proof (swapped_snoc h0 h xs y _ _ Hs Hy Hp Hn) as Hs'.
    rewrite cons_snoc_app in H. cbn in Hf.
    destruct (IH _ _ fuel H Hs') as (h' & Hr & Hs''); [lia|].
    exists h'. rewrite cons_snoc_app. done.
Qed.

Lemma chain_reverse h h' ps :
  (∀ a, a ∈ tail ps → nxt h' a = prv h a) →
  (∀ a, a ∈ removelast ps → prv h' a = nxt h a) →
  chain h ps → chain h' (reverse ps).
Proof.
  induction ps as [|a ps IH]; [done|]. destruct ps as [|b ps]; [done|].
  intros Hn Hp (H1 & H2 & H3). rewrite reverse_cons. apply chain_join. split_and!.
  - apply IH; [| |done]; intros x Hx.
    + apply Hn. set_solver.
    + apply Hp. cbn [removelast]. destruct ps; set_solver.
  - done.
  - intros x y Hx Hy. rewrite last_reverse in Hx. cbn in Hx, Hy. simplify_eq.
    split; [rewrite Hn by set_solver; done|].
    rewrite Hp; [done|]. cbn [removelast]. set_solver.
Qed.
End ops.

Section reverse.
Implicit Types (h : heap) (l a b e p : Z) (xs ys zs : list Z).

(** The last two exchanges of [list_reverse]. *)
Lemma swap_ends_run h l x y p n :
  nxt h (head_of l) = Some x → prv h (tail_of l) = Some y →
  head_of l ≠ tail_of l → y ≠ head_of l → x ≠ tail_of l → x ≠ head_of l → y ≠ tail_of l →
  prv h y = Some p → nxt h x = Some n →
  (swap (LNext (head_of l)) (LPrev (tail_of l));;
   hn ← get_next (head_of l); tp ← get_prev (tail_of l);
   swap (LPrev hn) (LNext tp)) h =
  Ok (tt, upd_next x p (upd_prev y n (upd_prev (tail_of l) x (upd_next (head_of l) y h)))).
Proof.
  intros. erewrite st_bind_ok by (unfold swap; cbn [read_link write_link]; run).
  do 2 run_step. unfold swap. cbn [read_link write_link]. run.
Qed.

(** Rebuilding the list once the interior links are exchanged. *)
Lemma reverse_relink h0 h1 h2 l xs x y :
  is_list h0 l xs → swapped h0 h1 xs → head xs = Some x → last xs = Some y →
  h2 = upd_next x (tail_of l) (upd_prev y (head_of l)
         (upd_prev (tail_of l) x (upd_next (head_of l) y h1))) →
  is_list h2 l (reverse xs).
Proof.
  intros H0 (Hdom & Hsw & Hout) Hx Hy ->.
  pose proof (head_Some_elem_of _ _ Hx) as Hxin. pose proof (last_Some_elem_of _ _ Hy) as Hyin.
  pose proof (is_list_NoDup _ _ _ H0) as Hnd.
  assert (∀ a, a ∈ nodes l xs → mapped h1 a) as Hmap.
  { intros a Ha. apply elem_of_dom. rewrite Hdom. by apply elem_of_dom, (is_list_mapped _ l xs). }
  destruct H0 as ((Hndn & Hnull & Hc) & Hph & Hnt).
  pose proof Hndn as [Hhn [_ [Hxt _]]%NoDup_app]%NoDup_cons.
  apply not_elem_of_app in Hhn as [Hhx Hht]. apply not_elem_of_cons in Hht as [Hht _].
  assert (∀ a, a ∈ xs → a ≠ head_of l ∧ a ≠ tail_of l ∧ mapped h1 a) as Hin.
  { intros a Ha. split_and!; [set_solver..|]. apply Hmap. unfold nodes. set_solver. }
  destruct (Hin x Hxin) as (? & ? & ?), (Hin y Hyin) as (? & ? & ?).
  assert (mapped h1 (head_of l)) by (apply Hmap; unfold nodes; set_solver).
  assert (mapped h1 (tail_of l)) by (apply Hmap; unfold nodes; set_solver).
  assert (∀ a, a ∉ xs → nxt h1 a = nxt h0 a ∧ prv h1 a = prv h0 a) as Hkeep.
  { intros a Ha. unfold nxt, prv. by rewrite (Hout a Ha). }
  change (head_of l :: xs ++ [tail_of l]) with ([head_of l] ++ xs ++ [tail_of l]) in Hc.
  apply chain_join in Hc as (_ & Hc & _). apply chain_join in Hc as (Hc & _ & _).
  split_and!; [split_and!| |].
  - by rewrite reverse_Permutation.
  - set_solver.
  - change (head_of l :: reverse xs ++ [tail_of l]) with ([head_of l] ++ reverse xs ++ [tail_of l]).
    rewrite !chain_join. split_and!; [done| |done| |].
    + apply (chain_reverse h0); [| |done]; intros a Ha.
      * assert (a ≠ x ∧ a ∈ xs) as [??].
        { destruct xs; [set_solver|]. cbn in *. simplify_eq. apply NoDup_cons in Hnd as [? ?].
          split; [intros ->; done|set_solver]. }
        destruct (Hin a) as (?&?&?); [done|]. heap_simpl. by apply Hsw.
      * pose proof (elem_of_removelast _ _ Ha). destruct (Hin a) as (?&?&?); [done|].
        assert (a ≠ y).
        { apply last_Some in Hy as [xs' ->]. rewrite removelast_snoc in Ha.
          apply NoDup_app in Hnd as (_ & Hd & _). set_solver. }
        heap_simpl. by apply Hsw.
    + intros a b Ha Hb. rewrite last_reverse in Ha. cbn in Hb. simplify_eq. by heap_simpl.
    + intros a b Ha Hb. rewrite head_app, head_reverse, Hy in Hb. cbn in Ha. simplify_eq.
      by heap_simpl.
  - heap_simpl. rewrite (proj2 (Hkeep _ Hhx)). done.
  - heap_simpl. rewrite (proj1 (Hkeep (tail_of l) ltac:(set_solver))). done.
Qed.

Lemma list_reverse_ok h l xs :
  is_list h l xs →
  ∃ h', list_reverse l h = Ok (tt, h') ∧ is_list h' l (reverse xs) ∧ frame (nodes l xs) h h'.
Proof.
  intros H. unfold list_reverse. rewrite (st_bind_ok _ _ _ _ _ (list_empty_ok h l _ H)).
  destruct (decide (xs = [])) as [->|Hne].
  { exists h. by rewrite bool_decide_true. }
  rewrite bool_decide_false by done. rewrite (st_bind_ok _ _ _ _ _ (loop_fuel_ok h)).
  rewrite (st_bind_ok _ _ _ _ _ (list_begin_ok h l _ H)).
  destruct (reverse_loop_ok h l xs [] h (S (size h)) H) as (h1 & Hr & Hs).
  { split_and!; [done|set_solver|done]. }
  { apply is_list_fuel in H. lia. }
  rewrite (st_bind_ok _ _ _ _ _ Hr). cbn [app] in Hs.
  destruct (proj2 (last_is_Some xs) Hne) as [y Hy]. destruct xs as [|x xs]; [done|].
  pose proof (last_Some_elem_of _ _ Hy) as Hyin.
  destruct (is_list_split h l [] (x :: xs) H) as (Hhx & Hxh & _).
  destruct (is_list_split h l (x :: xs) []) as (Hyt & Hty & _); [by rewrite app_nil_r|].
  unfold last_node in Hyt, Hty. rewrite Hy in Hyt, Hty. cbn in Hyt, Hty, Hhx, Hxh.
  assert (∀ a, a ∈ x :: xs → a ≠ head_of l ∧ a ≠ tail_of l) as Hin.
  { destruct H as (([? [_ [Hd _]]%NoDup_app]%NoDup_cons & _) & _). set_solver. }
  destruct (is_list_null _ _ _ H) as (_ & _ & Hht).
  destruct (Hin x ltac:(set_solver)) as [??], (Hin y Hyin) as [??].
  pose proof Hs as (Hdom & Hsw & Hout).
  rewrite (swap_ends_run h1 l x y (tail_of l) (head_of l)); try done.
  - eexists. split; [done|]. split; [by eapply reverse_relink|]. split.
    + by rewrite dom_upd_next, !dom_upd_prev, dom_upd_next.
    + intros a Ha. unfold nodes in Ha.
      rewrite lookup_upd_next_ne, !lookup_upd_prev_ne, lookup_upd_next_ne by set_solver.
      apply Hout. set_solver.
  - unfold nxt. rewrite Hout; [done|]. intros Hc. by destruct (Hin _ Hc).
  - unfold prv. rewrite Hout; [done|]. intros Hc. by destruct (Hin _ Hc).
  - by rewrite (proj2 (Hsw y Hyin)).
  - by rewrite (proj1 (Hsw x ltac:(set_solver))).
Qed.
End reverse.

Section ops2.
Implicit Types (h : heap) (l a b e p : Z) (xs ys zs : list Z).

(** * Ordered operations *)
Section with_less.
Context (less : Z → Z → bool).

Lemma insert_ordered_loop_ok h l e ys : ∀ xs fuel,
  is_list h l (xs ++ ys) → (length ys < fuel)%nat →
  ∃ us vs, ys = us ++ vs ∧ spec_insert_ordered less e ys = us ++ e :: vs ∧
    insert_ordered_loop less fuel l e (first_node l ys) h = Ok (first_node l vs, h).
Proof.
  induction ys as [|y ys IH]; intros xs [|fuel] H Hf; [cbn in Hf; lia| |cbn in Hf; lia|];
    cbn [insert_ordered_loop]; rewrite (st_bind_ok _ _ _ _ _ (list_end_ok h l _ H)).
  - exists [], []. cbn. by rewrite Z.eqb_refl.
  - change (first_node l (y :: ys)) with y. rewrite (eqb_tail_at _ _ _ _ _ H).
    cbn [spec_insert_ordered]. destruct (less e y); [by exists [], (y :: ys)|].
    rewrite (st_bind_ok _ _ _ _ _ (list_next_at _ _ _ _ _ H)).
    rewrite cons_snoc_app in H. cbn in Hf.
    destruct (IH _ fuel H) as (us & vs & -> & Hs & Hr); [lia|].
    exists (y :: us), vs. cbn. by rewrite Hs.
Qed.

Lemma list_insert_ordered_ok h l xs e :
  is_list h l xs → mapped h e → e ≠ NULL → e ∉ nodes l xs →
  ∃ h', list_insert_ordered less l e h = Ok (tt, h') ∧
    is_list h' l (spec_insert_ordered less e xs) ∧ frame (e :: nodes l xs) h h'.
Proof.
  intros H Hm He0 He. destruct (is_list_null _ _ _ H) as (Hl0 & _).
  destruct (insert_ordered_loop_ok h l e xs [] (S (size h)) H) as (us & vs & -> & Hs & Hr).
  { apply is_list_fuel in H. lia. }
  destruct (list_insert_ok h l us vs e) as (h' & Hi & Hl' & Hf); [done..|].
  exists h'. rewrite Hs. split; [|done]. unfold list_insert_ordered.
  do 2 run_step. rewrite (st_bind_ok _ _ _ _ _ (loop_fuel_ok h)).
  by rewrite (st_bind_ok _ _ _ _ _ (list_begin_ok h l _ H)), (st_bind_ok _ _ _ _ _ Hr).
Qed.

Lemma max_loop_ok h l ys : ∀ xs fuel m,
  is_list h l (xs ++ ys) → (length ys < fuel)%nat →
  max_loop less fuel l m (first_node l ys) h = Ok (spec_max less m ys, h).
Proof.
  induction ys as [|y ys IH]; intros xs [|fuel] m H Hf; [cbn in Hf; lia| |cbn in Hf; lia|];
    cbn [max_loop]; rewrite (st_bind_ok _ _ _ _ _ (list_end_ok h l _ H)).
  - cbn. by rewrite Z.eqb_refl.
  - change (first_node l (y :: ys)) with y. rewrite (eqb_tail_at _ _ _ _ _ H).
    rewrite (st_bind_ok _ _ _ _ _ (list_next_at _ _ _ _ _ H)).
    rewrite cons_snoc_app in H. cbn in Hf. rewrite (IH _ _ _ H); [done|lia].
Qed.

Lemma list_max_ok h l xs :
  is_list h l xs →
  list_max less l h =
  Ok (match xs with [] => tail_of l | x :: xs' => spec_max less x xs' end, h).
Proof.
  intros H. unfold list_max. rewrite (st_bind_ok _ _ _ _ _ (list_begin_ok h l _ H)).
  rewrite (st_bind_ok _ _ _ _ _ (list_end_ok h l _ H)), (first_node_tail h l [] xs H).
  destruct xs as [|x xs]; [done|]. cbn. rewrite (st_bind_ok _ _ _ _ _ (loop_fuel_ok h)).
  rewrite (st_bind_ok _ _ _ _ _ (list_next_at h l [] x xs H)).
  apply (max_loop_ok h l xs [x]); [done|]. apply is_list_fuel in H. cbn in H. lia.
Qed.

Lemma min_loop_ok h l ys : ∀ xs fuel m,
  is_list h l (xs ++ ys) → (length ys < fuel)%nat →
  min_loop less fuel l m (first_node l ys) h = Ok (spec_min less m ys, h).
Proof.
  induction ys as [|y ys IH]; intros xs [|fuel] m H Hf; [cbn in Hf; lia| |cbn in Hf; lia|];
    cbn [min_loop]; rewrite (st_bind_ok _ _ _ _ _ (list_end_ok h l _ H)).
  - cbn. by rewrite Z.eqb_refl.
  - change (first_node l (y :: ys)) with y. rewrite (eqb_tail_at _ _ _ _ _ H).
    rewrite (st_bind_ok _ _ _ _ _ (list_next_at _ _ _ _ _ H)).
    rewrite cons_snoc_app in H. cbn in Hf. rewrite (IH _ _ _ H); [done|lia].
Qed.

Lemma list_min_ok h l xs :
  is_list h l xs →
  list_min less l h =
  Ok (match xs with [] => tail_of l | x :: xs' => spec_min less x xs' end, h).
Proof.
  intros H. unfold list_min. rewrite (st_bind_ok _ _ _ _ _ (list_begin_ok h l _ H)).
  rewrite (st_bind_ok _ _ _ _ _ (list_end_ok h l _ H)), (first_node_tail h l [] xs H).
  destruct xs as [|x xs]; [done|]. cbn. rewrite (st_bind_ok _ _ _ _ _ (loop_fuel_ok h)).
  rewrite (st_bind_ok _ _ _ _ _ (list_next_at h l [] x xs H)).
  apply (min_loop_ok h l xs [x]); [done|]. apply is_list_fuel in H. cbn in H. lia.
Qed.

(** The list that collects the duplicates, if there is one, is well formed
    and shares nothing with the list being reduced. *)
Definition dup_rep (h : heap) (l : Z) (xs : list Z) (d : Z) (ds : list Z) : Prop :=
  d ≠ NULL → is_list h d ds ∧ (∀ a, a ∈ nodes l xs → a ∉ nodes d ds).

(** One removal: [y] leaves the list and joins the duplicates. *)
Lemma unique_step_ok h l xs y ys d ds :
  is_list h l (xs ++ y :: ys) → dup_rep h l (xs ++ y :: ys) d ds →
  ∃ h', (list_remove y;;
         (if negb (d =? NULL) then list_push_back d y else mret tt)) h = Ok (tt, h') ∧
    is_list h' l (xs ++ ys) ∧ dup_rep h' l (xs ++ ys) d (ds ++ [y]) ∧
    frame (nodes l (xs ++ y :: ys) ++ (if d =? NULL then [] else nodes d ds)) h h'.
Proof.
  intros H Hd. destruct (list_remove_ok h l xs y ys H) as (h1 & Hr & Hl1 & Hf1).
  rewrite (st_bind_ok _ _ _ _ _ Hr).
  assert (∀ a, a ∈ nodes l (xs ++ ys) → a ∈ nodes l (xs ++ y :: ys)) as Hsub.
  { intros a. rewrite !elem_of_nodes, !elem_of_app. set_solver. }
  destruct (decide (d = NULL)) as [->|Hd0].
  { exists h1. rewrite Z.eqb_refl. cbn. split_and!; [done|done|done|].
    eapply frame_mono; [|exact Hf1]. rewrite app_nil_r. done. }
  rewrite (proj2 (Z.eqb_neq d NULL) Hd0). cbn [negb].
  destruct (Hd Hd0) as [Hld Hdisj].
  assert (is_list h1 d ds) as Hld1.
  { eapply is_list_frame; [done|exact Hf1|]. intros a Ha Ha'. apply (Hdisj a); auto. }
  assert (y ∈ nodes l (xs ++ y :: ys)) as Hyn by (rewrite elem_of_nodes; set_solver).
  destruct (list_push_back_ok h1 d ds y) as (h2 & Hp & Hld2 & Hf2); [done|..].
  { eapply frame_mapped; [exact Hf1|]. exact (is_list_mapped _ _ _ _ H Hyn). }
  { by destruct (is_list_at _ _ _ _ _ H) as (_ & _ & ? & _). }
  { by apply Hdisj. }
  assert (y ∉ nodes l (xs ++ ys)) as Hyl.
  { rewrite elem_of_nodes. destruct (is_list_at _ _ _ _ _ H) as (_ & _ & _ & ? & ?).
    apply is_list_NoDup, NoDup_app in H as (_ & Hn & [? _]%NoDup_cons). set_solver. }
  exists h2. split_and!; [done|..].
  - eapply is_list_frame; [done|exact Hf2|]. intros a Ha.
    apply not_elem_of_cons. split; [intros ->; done|]. apply Hdisj. auto.
  - intros _. split; [done|]. intros a Ha. rewrite elem_of_nodes, elem_of_app, list_elem_of_singleton.
    intros [->|[->|[Ha'| ->]]]; [| | |done].
    + apply (Hdisj (head_of d)); [auto|rewrite elem_of_nodes; auto].
    + apply (Hdisj (tail_of d)); [auto|rewrite elem_of_nodes; auto].
    + apply (Hdisj a); [auto|rewrite elem_of_nodes; auto].
  - eapply frame_trans; eapply frame_mono; [|exact Hf1| |exact Hf2]; intros a; set_solver.
Qed.

Lemma unique_loop_ok l d ys : ∀ h xs m ds fuel,
  is_list h l (xs ++ m :: ys) → dup_rep h l (xs ++ m :: ys) d ds → (length ys < fuel)%nat →
  ∃ h', unique_loop less fuel l d m h = Ok (tt, h') ∧
    is_list h' l (xs ++ m :: (spec_unique less m ys).1) ∧
    dup_rep h' l (xs ++ m :: (spec_unique less m ys).1) d (ds ++ (spec_unique less m ys).2) ∧
    frame (nodes l (xs ++ m :: ys) ++
           (if d =? NULL then [] else nodes d (ds ++ (spec_unique less m ys).2))) h h'.
Proof.
  induction ys as [|y ys IH]; intros h xs m ds [|fuel] H Hd Hf;
    [cbn in Hf; lia| |cbn in Hf; lia|]; cbn [unique_loop];
    rewrite (st_bind_ok _ _ _ _ _ (list_next_at _ _ _ _ _ H)),
            (st_bind_ok _ _ _ _ _ (list_end_ok h l _ H)).
  - exists h. cbn. rewrite Z.eqb_refl, app_nil_r. done.
  - cbn in Hf. change (first_node l (y :: ys)) with y.
    pose proof H as H'. rewrite cons_snoc_app in H'. rewrite (eqb_tail_at _ _ _ _ _ H').
    cbn [spec_unique]. unfold equivb. destruct (negb (less m y) && negb (less y m)).
    + rewrite cons_snoc_app in Hd.
      destruct (unique_step_ok h l (xs ++ [m]) y ys d ds H' Hd) as (h1 & Hr & Hl1 & Hd1 & Hf1).
      rewrite <-cons_snoc_app in Hl1, Hd1.
      destruct (IH h1 xs m (ds ++ [y]) fuel Hl1 Hd1) as (h2 & Hr2 & Hl2 & Hd2 & Hf2); [lia|].
      destruct (spec_unique less m ys) as [k dd] eqn:E. cbn in *.
      rewrite <-app_assoc in Hd2, Hf2. exists h2. split_and!; [|done|done|].
      * change (list_remove y ≫= _) with
          (list_remove y ≫= (λ _ : Z, (if negb (d =? NULL) then list_push_back d y else mret tt) ≫=
             (λ _ : unit, unique_loop less fuel l d m))).
        rewrite <-st_bind_assoc. by rewrite (st_bind_ok _ _ _ _ _ Hr).
      * eapply frame_trans; eapply frame_mono; [|exact Hf1| |exact Hf2]; intros a.
        -- destruct (d =? NULL); rewrite ?elem_of_app, ?elem_of_nodes, ?elem_of_app; set_solver.
        -- destruct (d =? NULL); rewrite ?elem_of_app, ?elem_of_nodes, ?elem_of_app; set_solver.
    + rewrite cons_snoc_app in Hd.
      destruct (IH h (xs ++ [m]) y ds fuel H' Hd) as (h2 & Hr2 & Hl2 & Hd2 & Hf2); [lia|].
      rewrite <-!cons_snoc_app in *. exists h2.
      destruct (spec_unique less y ys) as [k dd] eqn:E. cbn in *. done.
Qed.

Lemma list_unique_ok h l d x xs ds :
  is_list h l (x :: xs) → dup_rep h l (x :: xs) d ds →
  ∃ h', list_unique less l d h = Ok (tt, h') ∧
    is_list h' l (x :: (spec_unique less x xs).1) ∧
    (d ≠ NULL → is_list h' d (ds ++ (spec_unique less x xs).2)).
Proof.
  intros H Hd. destruct (is_list_null _ _ _ H) as (Hl0 & _).
  destruct (unique_loop_ok l d xs h [] x ds (S (size h)) H Hd) as (h' & Hr & Hl & Hd' & _).
  { apply is_list_fuel in H. cbn in H. lia. }
  exists h'. split_and!; [|done|intros; by apply Hd'].
  unfold list_unique. run_step. rewrite (st_bind_ok _ _ _ _ _ (list_empty_ok h l _ H)). cbn.
  rewrite (st_bind_ok _ _ _ _ _ (loop_fuel_ok h)).
  by rewrite (st_bind_ok _ _ _ _ _ (list_begin_ok h l _ H)).
Qed.
End with_less.
End ops2.
End KListOps.
