(* ===== verification/KListSort.v ===== *)
(** lib/kernel/list.c: [list_sort], the in-place natural merge sort.

    The pointer program is shown to terminate without a failed assertion and
    to leave the list sorted, a permutation of what it was, and with equal
    elements in their original order. *)
From S2P Require Import Prelude KList KListFacts KListOps.
From Stdlib Require Import Sorted.
Import KList KListFacts KListOps.
Local Open Scope Z_scope.

Module KListSort.

Section order.
Context (less : Z → Z → bool).

(** [list_less_func]: a strict weak order. *)
Definition strict_weak : Prop :=
  (∀ a b, less a b = true → less b a = false) ∧
  (∀ a b c, less a b = false → less b c = false → less a c = false).

Definition le (a b : Z) : Prop := less b a = false.

Fixpoint merge (xs : list Z) : list Z → list Z :=
  fix go (ys : list Z) : list Z :=
  match xs, ys with
  | [], _ => ys
  | _, [] => xs
  | x :: xs', y :: ys' => if less y x then y :: go ys' else x :: merge xs' ys
  end.

(** The number of maximal nondecreasing runs. *)
Fixpoint nruns (xs : list Z) : nat :=
  match xs with
  | [] => 0
  | x :: tl => match tl with
               | [] => 1
               | y :: _ => if less y x then S (nruns tl) else nruns tl
               end
  end.

Fixpoint sortedb (xs : list Z) : bool :=
  match xs with
  | [] => true
  | x :: tl => match tl with
               | [] => true
               | y :: _ => negb (less y x) && sortedb tl
               end
  end.

(** The elements equivalent to [x], in order. *)
Definition cls (x : Z) (xs : list Z) : list Z := filter (λ y, equivb less x y = true) xs.

Hypothesis Hless : strict_weak.

Lemma le_trans a b c : le a b → le b c → le a c.
Proof. unfold le. intros H1 H2. destruct Hless as [_ Ht]. eauto. Qed.
Lemma less_le a b : less a b = true → le a b.
Proof. unfold le. apply Hless. Qed.
#[local] Instance le_transitive : Transitive le.
Proof. intros a b c. apply le_trans. Qed.

Lemma sorted_strong xs : Sorted le xs ↔ StronglySorted le xs.
Proof. split; [apply Sorted_StronglySorted; exact le_trans|apply StronglySorted_Sorted]. Qed.

Lemma sortedb_spec xs : sortedb xs = true ↔ Sorted le xs.
Proof.
  induction xs as [|x [|y xs] IH]; [by split; [constructor|]|by split; [repeat constructor|]|].
  cbn [sortedb]. rewrite andb_true_iff, IH, negb_true_iff. split.
  - intros [? ?]. by constructor; [|constructor].
  - intros [? H2]%Sorted_inv. split; [|done]. by inversion H2.
Qed.

Lemma merge_nil_l ys : merge [] ys = ys.
Proof. by destruct ys. Qed.
Lemma merge_nil_r xs : merge xs [] = xs.
Proof. by destruct xs. Qed.
Lemma merge_cons x xs y ys :
  merge (x :: xs) (y :: ys) =
  if less y x then y :: merge (x :: xs) ys else x :: merge xs (y :: ys).
Proof. done. Qed.

(** Induction along the steps of a merge. *)
Lemma merge_ind (P : list Z → list Z → Prop) :
  (∀ ys, P [] ys) → (∀ x xs, P (x :: xs) []) →
  (∀ x xs y ys, less y x = true → P (x :: xs) ys → P (x :: xs) (y :: ys)) →
  (∀ x xs y ys, less y x = false → P xs (y :: ys) → P (x :: xs) (y :: ys)) →
  ∀ xs ys, P xs ys.
Proof.
  intros H1 H2 H3 H4 xs. induction xs as [|x xs IH]; [done|].
  induction ys as [|y ys IHy]; [done|]. destruct (less y x) eqn:E; eauto.
Qed.

Lemma merge_perm xs ys : merge xs ys ≡ₚ xs ++ ys.
Proof.
  revert xs ys. apply merge_ind.
  - intros. by rewrite merge_nil_l.
  - intros. by rewrite app_nil_r.
  - intros x xs y ys E IH. rewrite merge_cons, E, IH. by rewrite Permutation_middle.
  - intros x xs y ys E IH. by rewrite merge_cons, E, IH.
Qed.

Lemma merge_sorted xs ys :
  StronglySorted le xs → StronglySorted le ys → StronglySorted le (merge xs ys).
Proof.
  revert xs ys. apply (merge_ind (λ xs ys, StronglySorted le xs → StronglySorted le ys →
    StronglySorted le (merge xs ys))).
  - intros. by rewrite merge_nil_l.
  - intros. by rewrite merge_nil_r.
  - intros x xs y ys E IH Hx Hy. rewrite merge_cons, E.
    apply StronglySorted_inv in Hy as [Hy Hfy]. pose proof Hx as [_ Hfx]%StronglySorted_inv.
    constructor; [auto|]. rewrite merge_perm, Forall_app, Forall_cons.
    apply less_le in E. split_and!; [done| |done].
    eapply Forall_impl; [exact Hfx|]. intros z ?. by eapply le_trans.
  - intros x xs y ys E IH Hx Hy. rewrite merge_cons, E.
    apply StronglySorted_inv in Hx as [Hx Hfx]. pose proof Hy as [_ Hfy]%StronglySorted_inv.
    constructor; [auto|]. rewrite merge_perm, Forall_app, Forall_cons.
    split_and!; [done|done|].
    eapply Forall_impl; [exact Hfy|]. intros z ?. by apply (le_trans _ y).
Qed.

Lemma cls_app z xs ys : cls z (xs ++ ys) = cls z xs ++ cls z ys.
Proof. apply filter_app. Qed.
Lemma cls_cons z x xs :
  cls z (x :: xs) = if equivb less z x then x :: cls z xs else cls z xs.
Proof. unfold cls. rewrite filter_cons. by destruct (equivb less z x). Qed.

Lemma cls_none z xs : Forall (λ y, ¬ equivb less z y = true) xs → cls z xs = [].
Proof.
  induction 1 as [|y xs Hy _ IH]; [done|]. rewrite cls_cons, IH.
  by destruct (equivb less z y).
Qed.

(** An element below a sorted sequence is equivalent to nothing in it. *)
Lemma cls_below z y x xs :
  less y x = true → StronglySorted le (x :: xs) → equivb less z y = true → cls z (x :: xs) = [].
Proof.
  intros E Hs Hz. apply cls_none.
  apply StronglySorted_inv in Hs as [_ Hs].
  assert (∀ w, le x w → ¬ equivb less z w = true) as Hw.
  { intros w Hxw Hzw. unfold equivb in *. rewrite andb_true_iff, !negb_true_iff in *.
    destruct Hless as [_ Ht]. unfold le in Hxw.
    assert (less y x = false); [|congruence].
    apply (Ht _ w); [|done]. apply (Ht _ z); tauto. }
  apply Forall_cons. split.
  - apply Hw. unfold le. destruct (less x x) eqn:E'; [|done]. destruct Hless as [Ha _].
    by rewrite (Ha _ _ E') in E'.
  - eapply Forall_impl; [exact Hs|]. done.
Qed.

Lemma merge_stable z xs ys :
  StronglySorted le xs → cls z (merge xs ys) = cls z (xs ++ ys).
Proof.
  revert xs ys. apply (merge_ind (λ xs ys, StronglySorted le xs →
    cls z (merge xs ys) = cls z (xs ++ ys))).
  - intros. by rewrite merge_nil_l.
  - intros. by rewrite merge_nil_r, app_nil_r.
  - intros x xs y ys E IH Hx. rewrite merge_cons, E, cls_cons, (IH Hx), !cls_app, (cls_cons z y).
    destruct (equivb less z y) eqn:Ez; [|done]. by rewrite (cls_below z y x xs).
  - intros x xs y ys E IH Hx. rewrite merge_cons, E. cbn [app].
    rewrite (cls_cons z x (merge _ _)), (cls_cons z x (_ ++ _)), IH; [done|].
    by apply StronglySorted_inv in Hx as [? _].
Qed.

Lemma nruns_cons2 x y ys :
  nruns (x :: y :: ys) = if less y x then S (nruns (y :: ys)) else nruns (y :: ys).
Proof. done. Qed.

Lemma nruns_cons_le x xs : (nruns xs ≤ nruns (x :: xs) ≤ S (nruns xs))%nat.
Proof. destruct xs as [|y ys]; [cbn; lia|]. rewrite nruns_cons2. destruct (less y x); lia. Qed.

Lemma nruns_app_le xs ys : (nruns (xs ++ ys) ≤ nruns xs + nruns ys)%nat.
Proof.
  induction xs as [|x [|y xs] IH]; [done| |].
  - cbn [app]. pose proof (nruns_cons_le x ys). change (nruns [x]) with 1%nat. lia.
  - cbn [app] in *. rewrite !nruns_cons2. destruct (less y x); lia.
Qed.

Lemma nruns_sorted xs : Sorted le xs → (nruns xs ≤ 1)%nat.
Proof.
  induction 1 as [|x xs Hs IH Hh]; [cbn; lia|]. destruct xs as [|y xs]; [cbn; lia|].
  rewrite nruns_cons2. inversion Hh as [|? ? Hl]; subst. rewrite Hl. done.
Qed.

Lemma nruns_concat rs : Forall (Sorted le) rs → (nruns (concat rs) ≤ length rs)%nat.
Proof.
  induction 1 as [|r rs Hr _ IH]; [done|]. cbn. pose proof (nruns_app_le r (concat rs)).
  pose proof (nruns_sorted r Hr). lia.
Qed.

(** A maximal run counts for one. *)
Lemma nruns_run x us vs :
  Sorted le (x :: us) →
  (∀ v, head vs = Some v → ∃ u, last (x :: us) = Some u ∧ less v u = true) →
  nruns ((x :: us) ++ vs) = S (nruns vs).
Proof.
  revert x. induction us as [|y us IH]; intros x Hs Hl.
  - destruct vs as [|v vs]; [done|]. cbn [app]. rewrite nruns_cons2.
    destruct (Hl v eq_refl) as (u & [= <-] & E). by rewrite E.
  - apply Sorted_inv in Hs as [Hs Hh]. inversion Hh as [|? ? Hxy]; subst.
    cbn [app]. rewrite nruns_cons2, Hxy. apply (IH y Hs). intros v Hv.
    destruct (Hl v Hv) as (u & Hu & ?). rewrite last_cons_cons in Hu. eauto.
Qed.

Lemma nruns_length xs : (nruns xs ≤ length xs)%nat.
Proof. induction xs as [|x xs IH]; [done|]. pose proof (nruns_cons_le x xs). cbn [length]. lia. Qed.

(** * The pointer program *)
Implicit Types (h : heap) (l a b : Z) (xs ys us vs : list Z).

Lemma first_node_eq h l xs us vs :
  is_list h l (xs ++ us ++ vs) →
  (first_node l (us ++ vs) =? first_node l vs) = bool_decide (us = []).
Proof.
  intros H. destruct us as [|u us]; [by apply Z.eqb_refl|]. apply Z.eqb_neq.
  cbn. destruct vs as [|v vs]; cbn.
  - by apply is_list_at in H as (_ & _ & _ & ? & _).
  - intros ->. apply is_list_NoDup, NoDup_app in H as (_ & _ & H).
    cbn in H. apply NoDup_cons in H as [H _]. set_solver.
Qed.

Lemma last_node_snoc l xs a : last_node l (xs ++ [a]) = a.
Proof. unfold last_node. by rewrite last_snoc. Qed.

Lemma is_sorted_loop_ok h l us : ∀ xs a vs fuel,
  is_list h l (xs ++ a :: us ++ vs) → (length us < fuel)%nat →
  is_sorted_loop less fuel a (first_node l vs) h = Ok (sortedb (a :: us), h).
Proof.
  induction us as [|u us IH]; intros xs a vs [|fuel] H Hf;
    [cbn in Hf; lia| |cbn in Hf; lia|]; cbn [is_sorted_loop];
    rewrite (st_bind_ok _ _ _ _ _ (list_next_at _ _ _ _ _ H));
    rewrite (first_node_eq h l (xs ++ [a])) by by rewrite <-app_assoc.
  - done.
  - cbn in Hf. rewrite bool_decide_false by done.
    rewrite cons_snoc_app in H. cbn [app] in H.
    change (first_node l ((u :: us) ++ vs)) with u.
    rewrite (st_bind_ok _ _ _ _ _ (list_prev_at _ _ _ _ _ H)).
    rewrite last_node_snoc.
    change (sortedb (a :: u :: us)) with (negb (less u a) && sortedb (u :: us)).
    destruct (less u a); [done|]. apply (IH _ u vs fuel H). lia.
Qed.

Lemma is_sorted_ok h l xs us vs :
  is_list h l (xs ++ us ++ vs) →
  is_sorted less (first_node l (us ++ vs)) (first_node l vs) h = Ok (sortedb us, h).
Proof.
  intros H. unfold is_sorted. rewrite (first_node_eq _ _ _ _ _ H).
  destruct us as [|u us]; [done|]. rewrite bool_decide_false by done.
  rewrite (st_bind_ok _ _ _ _ _ (loop_fuel_ok h)).
  apply (is_sorted_loop_ok h l us xs u vs); [done|].
  apply is_list_fuel in H. rewrite !length_app in H. cbn in H. lia.
Qed.

(** A maximal run starting at [a]. *)
Definition run_from (a : Z) (us vs : list Z) : Prop :=
  Sorted le (a :: us) ∧
  (∀ v, head vs = Some v → ∃ u, last (a :: us) = Some u ∧ less v u = true).

Lemma end_of_run_loop_ok h l ys : ∀ xs a fuel,
  is_list h l (xs ++ a :: ys) → (length ys < fuel)%nat →
  ∃ us vs, ys = us ++ vs ∧ run_from a us vs ∧
    end_of_run_loop less fuel a (tail_of l) h = Ok (first_node l vs, h).
Proof.
  induction ys as [|y ys IH]; intros xs a [|fuel] H Hf;
    [cbn in Hf; lia| |cbn in Hf; lia|]; cbn [end_of_run_loop];
    rewrite (st_bind_ok _ _ _ _ _ (list_next_at _ _ _ _ _ H)).
  - exists [], []. cbn. rewrite Z.eqb_refl. split_and!; [done| |done].
    split; [repeat constructor|done].
  - cbn in Hf. change (first_node l (y :: ys)) with y. rewrite cons_snoc_app in H.
    rewrite (eqb_tail_at _ _ _ _ _ H), (st_bind_ok _ _ _ _ _ (list_prev_at _ _ _ _ _ H)).
    rewrite last_node_snoc. destruct (less y a) eqn:E; cbn [negb].
    + exists [], (y :: ys). split_and!; [done| |done]. split; [repeat constructor|].
      intros v [= <-]. eauto.
    + destruct (IH _ _ fuel H) as (us & vs & -> & [Hs Hm] & Hr); [lia|].
      exists (y :: us), vs. split_and!; [done| |done]. split.
      * constructor; [done|]. constructor. done.
      * intros v Hv. rewrite last_cons_cons. eauto.
Qed.

Lemma find_end_of_run_ok h l xs a ys :
  is_list h l (xs ++ a :: ys) →
  ∃ us vs, ys = us ++ vs ∧ run_from a us vs ∧
    find_end_of_run less a (tail_of l) h = Ok (first_node l vs, h).
Proof.
  intros H. destruct (end_of_run_loop_ok h l ys xs a (S (size h)) H) as (us & vs & ? & ? & Hr).
  { apply is_list_fuel in H. rewrite length_app in H. cbn in H. lia. }
  destruct (is_list_at _ _ _ _ _ H) as (_ & _ & ? & _).
  destruct (is_list_null _ _ _ H) as (_ & ? & _).
  exists us, vs. split_and!; [done..|]. unfold find_end_of_run. do 2 run_step.
  rewrite (eqb_tail_at _ _ _ _ _ H). cbn [negb]. run_step.
  by rewrite (st_bind_ok _ _ _ _ _ (loop_fuel_ok h)).
Qed.

Lemma heap_ext h h' x : nxt h' x = nxt h x → prv h' x = prv h x → h' !! x = h !! x.
Proof.
  unfold nxt, prv. destruct (h' !! x) as [[]|], (h !! x) as [[]|]; cbn; congruence.
Qed.

Lemma not_in3 (x a b c : Z) : x ≠ a → x ≠ b → x ≠ c → x ∉ [a; b; c].
Proof. set_solver. Qed.

(** [list_splice (a0, list_prev (a1b0), a1b0)]: one element moves back. *)
Lemma splice_one_ok h l xs a us b vs :
  is_list h l (xs ++ (a :: us) ++ b :: vs) →
  ∃ h', list_splice a b (first_node l vs) h = Ok (tt, h') ∧
    is_list h' l (xs ++ b :: (a :: us) ++ vs) ∧ frame (nodes l (xs ++ b :: (a :: us) ++ vs)) h h'.
Proof.
  intros H. pose proof (last_cons_head l xs) as Hl. pose proof (head_snoc_tail l vs) as Hv.
  destruct (last (a :: us)) as [p|] eqn:Hp; [|by apply last_None in Hp].
  assert (last_node l xs ≠ tail_of l) as Hlt by by apply is_list_split in H as (_&_&_&_&?&_).
  assert (first_node l vs ≠ head_of l) as Hfh.
  { rewrite app_assoc, cons_snoc_app in H. by apply is_list_split in H as (_&_&_&_&_&?). }
  pose proof (last_Some_elem_of _ _ Hp) as Hpin.
  destruct (is_list_in _ _ _ p H) as (?&?&_); [rewrite !elem_of_app; auto|].
  destruct (is_list_in _ _ _ a H) as (?&?&_); [rewrite !elem_of_app, elem_of_cons; auto|].
  destruct (is_list_in _ _ _ b H) as (?&?&_); [rewrite !elem_of_app, !elem_of_cons; auto|].
  destruct H as (Hd & Hph & Hnt). fold (nodes l (xs ++ (a :: us) ++ b :: vs)) in Hd.
  assert (nodes l (xs ++ (a :: us) ++ b :: vs) =
          (head_of l :: xs) ++ (a :: us) ++ [b] ++ vs ++ [tail_of l]) as E1.
  { rewrite nodes_app. cbn. by rewrite <-app_assoc. }
  assert (nodes l (xs ++ b :: (a :: us) ++ vs) =
          (head_of l :: xs) ++ [b] ++ (a :: us) ++ vs ++ [tail_of l]) as E2.
  { rewrite nodes_app. cbn. by rewrite <-app_assoc. }
  rewrite E1 in Hd.
  destruct (dll_splice_back _ _ _ _ _ _ a _ b b _ Hd Hl eq_refl Hp eq_refl eq_refl Hv)
    as (h' & Hr & Hd' & Hdom & Hn & Hpv).
  exists h'. split_and!; [done| |].
  - apply is_list_nodes. rewrite E2. split_and!; [done|..].
    + rewrite Hpv; [done|]. by apply not_in3.
    + rewrite Hn; [done|]. by apply not_in3.
  - split; [done|]. intros x Hx. rewrite E2, !not_elem_of_app in Hx.
    pose proof (last_Some_elem_of _ _ Hl). pose proof (head_Some_elem_of _ _ Hv) as Hvin.
    rewrite elem_of_app in Hvin. destruct Hx as (? & Hxb & Hxa & ? & ?).
    rewrite not_elem_of_cons in Hxb.
    apply heap_ext; [apply Hn|apply Hpv]; apply not_in3; intros ->; try done.
    + by destruct Hxb.
    + apply Hxa. set_solver.
    + by destruct Hxb.
    + tauto.
Qed.

Lemma list_prev_first h l xs ys :
  is_list h l (xs ++ ys) → list_prev (first_node l ys) h = Ok (last_node l xs, h).
Proof. intros (_ & ? & ? & ? & _)%is_list_split. by apply list_prev_ok. Qed.

Lemma merge_loop_ok l vs : ∀ us ws h xs fuel,
  is_list h l (xs ++ us ++ ws ++ vs) → (length us + length ws < fuel)%nat →
  ∃ h', merge_loop less fuel (first_node l (us ++ ws ++ vs)) (first_node l (ws ++ vs))
          (first_node l vs) h = Ok (tt, h') ∧
    is_list h' l (xs ++ merge us ws ++ vs) ∧ frame (nodes l (xs ++ us ++ ws ++ vs)) h h'.
Proof.
  intros us ws. pattern us, ws. revert us ws. apply merge_ind; cbn beta.
  - intros ws h xs [|fuel] H Hf; [cbn in Hf; lia|]. exists h. cbn [merge_loop app].
    rewrite Z.eqb_refl, merge_nil_l. done.
  - intros u us h xs [|fuel] H Hf; [cbn in Hf; lia|]. exists h. cbn [merge_loop].
    rewrite merge_nil_r. cbn [app]. rewrite Z.eqb_refl, orb_true_r. done.
  - intros u us w ws E IH h xs [|fuel] H Hf; [cbn in Hf; lia|]. cbn [merge_loop].
    rewrite (first_node_eq h l xs (u :: us) ((w :: ws) ++ vs) H).
    pose proof H as H1. rewrite app_assoc in H1. rewrite (first_node_eq h l _ (w :: ws) vs H1).
    rewrite !bool_decide_false by done. cbn [orb].
    change (first_node l ((u :: us) ++ (w :: ws) ++ vs)) with u.
    change (first_node l ((w :: ws) ++ vs)) with w. rewrite E. cbn [negb].
    rewrite (st_bind_ok _ _ _ _ _ (list_next_at h l (xs ++ u :: us) w (ws ++ vs) H1)).
    pose proof H1 as H2. cbn [app] in H2. rewrite cons_snoc_app in H2.
    rewrite (st_bind_ok _ _ _ _ _ (list_prev_first h l _ _ H2)), last_node_snoc.
    destruct (splice_one_ok h l xs u us w (ws ++ vs) H) as (h1 & Hr & Hl1 & Hf1).
    rewrite (st_bind_ok _ _ _ _ _ Hr).
    rewrite cons_snoc_app in Hl1. cbn in Hf.
    destruct (IH h1 (xs ++ [w]) fuel Hl1) as (h2 & Hr2 & Hl2 & Hf2); [cbn; lia|].
    exists h2. split_and!; [done| |].
    + rewrite merge_cons, E. cbn [app]. by rewrite cons_snoc_app.
    + eapply frame_trans; eapply frame_mono; [|exact Hf1| |exact Hf2];
        intros a; rewrite !elem_of_nodes; set_solver.
  - intros u us w ws E IH h xs [|fuel] H Hf; [cbn in Hf; lia|]. cbn [merge_loop].
    rewrite (first_node_eq h l xs (u :: us) ((w :: ws) ++ vs) H).
    pose proof H as H1. rewrite app_assoc in H1. rewrite (first_node_eq h l _ (w :: ws) vs H1).
    rewrite !bool_decide_false by done. cbn [orb].
    change (first_node l ((u :: us) ++ (w :: ws) ++ vs)) with u.
    change (first_node l ((w :: ws) ++ vs)) with w. rewrite E. cbn [negb].
    rewrite (st_bind_ok _ _ _ _ _ (list_next_at h l xs u (us ++ (w :: ws) ++ vs) H)).
    cbn [app] in H. rewrite cons_snoc_app in H. cbn in Hf.
    destruct (IH h (xs ++ [u]) fuel H) as (h2 & Hr2 & Hl2 & Hf2); [cbn; lia|].
    exists h2. split_and!; [done| |].
    + rewrite merge_cons, E. cbn [app]. by rewrite cons_snoc_app.
    + eapply frame_mono; [|exact Hf2]. intros a. rewrite !elem_of_nodes. set_solver.
Qed.

Lemma inplace_merge_ok h l xs us ws vs :
  is_list h l (xs ++ us ++ ws ++ vs) → Sorted le us → Sorted le ws →
  ∃ h', inplace_merge less (first_node l (us ++ ws ++ vs)) (first_node l (ws ++ vs))
          (first_node l vs) h = Ok (tt, h') ∧
    is_list h' l (xs ++ merge us ws ++ vs) ∧ frame (nodes l (xs ++ us ++ ws ++ vs)) h h'.
Proof.
  intros H Hu Hw. pose proof H as H1. rewrite app_assoc in H1. pose proof H1 as H2.
  rewrite app_assoc in H2.
  destruct (merge_loop_ok l vs us ws h xs (S (size h)) H) as (h' & Hr & ?).
  { apply is_list_fuel in H. rewrite !length_app in H. lia. }
  assert (first_node l (us ++ ws ++ vs) ≠ NULL) by by apply is_list_split in H as (_&_&_&?&_).
  assert (first_node l (ws ++ vs) ≠ NULL) by by apply is_list_split in H1 as (_&_&_&?&_).
  assert (first_node l vs ≠ NULL) by by apply is_list_split in H2 as (_&_&_&?&_).
  exists h'. split; [|done]. unfold inplace_merge. do 3 run_step.
  rewrite (st_bind_ok _ _ _ _ _ (is_sorted_ok h l xs us (ws ++ vs) H)).
  rewrite (proj2 (sortedb_spec us) Hu). run_step.
  rewrite (st_bind_ok _ _ _ _ _ (is_sorted_ok h l (xs ++ us) ws vs H1)).
  rewrite (proj2 (sortedb_spec ws) Hw). run_step.
  by rewrite (st_bind_ok _ _ _ _ _ (loop_fuel_ok h)).
Qed.

(** What a pass of [list_sort] does to the part of the list it processes: it
    becomes [k] sorted runs, at most half as many as there were. *)
Definition pass_result (ys ys' : list Z) (k : nat) : Prop :=
  (∃ rs, ys' = concat rs ∧ Forall (Sorted le) rs ∧ length rs = k) ∧
  (2 * k ≤ nruns ys + 1)%nat ∧ ys' ≡ₚ ys ∧ ∀ z, cls z ys' = cls z ys.

Lemma pass_result_cons r1 r2 ys ys' k :
  StronglySorted le r1 → StronglySorted le r2 →
  nruns (r1 ++ r2 ++ ys) = S (S (nruns ys)) → pass_result ys ys' k →
  pass_result (r1 ++ r2 ++ ys) (merge r1 r2 ++ ys') (S k).
Proof.
  intros H1 H2 Hn ((rs & -> & Hrs & Hlen) & Hk & Hp & Hc). split_and!.
  - exists (merge r1 r2 :: rs). split_and!; [done| |cbn; lia].
    constructor; [|done]. by apply sorted_strong, merge_sorted.
  - lia.
  - by rewrite merge_perm, Hp, app_assoc.
  - intros z. by rewrite !cls_app, merge_stable, Hc, cls_app, app_assoc.
Qed.

Lemma run_from_cons a us vs : run_from a us vs →
  StronglySorted le (a :: us) ∧ nruns ((a :: us) ++ vs) = S (nruns vs).
Proof. intros [Hs Hm]. split; [by apply sorted_strong|by apply nruns_run]. Qed.

Lemma pass_result_one a us :
  run_from a us [] → pass_result (a :: us) (a :: us) 1.
Proof.
  intros Hr. pose proof Hr as [Hs Hm]. pose proof (run_from_cons _ _ _ Hr) as [_ Hn].
  rewrite app_nil_r in Hn. split_and!; [|rewrite Hn; cbn; lia|done|done].
  exists [a :: us]. cbn. rewrite app_nil_r. auto.
Qed.

Lemma sort_pass_ok l : ∀ (n : nat) ys h xs fuel cnt,
  (length ys ≤ n)%nat → is_list h l (xs ++ ys) → (length ys < fuel)%nat →
  ∃ h' ys' k, sort_pass less fuel l (first_node l ys) cnt h = Ok (cnt + Z.of_nat k, h') ∧
    is_list h' l (xs ++ ys') ∧ frame (nodes l (xs ++ ys)) h h' ∧ pass_result ys ys' k.
Proof.
  induction n as [|n IH]; intros ys h xs [|fuel] cnt Hn H Hf; [lia| |lia|];
    cbn [sort_pass]; rewrite (st_bind_ok _ _ _ _ _ (list_end_ok h l _ H)),
      (first_node_tail _ _ _ _ H).
  - destruct ys; [|cbn in Hn; lia]. exists h, [], 0%nat. cbn. rewrite Z.add_0_r.
    split_and!; [done..|]. split_and!; [by exists []|cbn; lia|done|done].
  - destruct ys as [|y ys].
    { exists h, [], 0%nat. cbn. rewrite Z.add_0_r.
      split_and!; [done..|]. split_and!; [by exists []|cbn; lia|done|done]. }
    rewrite bool_decide_false by done. change (first_node l (y :: ys)) with y.
    destruct (find_end_of_run_ok h l xs y ys H) as (us & vs & -> & Hrun & Hr).
    rewrite (st_bind_ok _ _ _ _ _ Hr). pose proof H as H1.
    change (y :: us ++ vs) with ((y :: us) ++ vs) in H1. rewrite app_assoc in H1.
    rewrite (first_node_tail _ _ _ _ H1). destruct vs as [|v vs].
    { exists h, (y :: us), 1%nat. rewrite bool_decide_true by done.
      rewrite app_nil_r in *. split_and!; [done..|]. by apply pass_result_one. }
    rewrite bool_decide_false by done. change (first_node l (v :: vs)) with v.
    destruct (find_end_of_run_ok h l (xs ++ y :: us) v vs H1) as (us2 & vs2 & -> & Hrun2 & Hr2).
    rewrite (st_bind_ok _ _ _ _ _ Hr2).
    destruct (run_from_cons _ _ _ Hrun) as [Hs1 Hn1], (run_from_cons _ _ _ Hrun2) as [Hs2 Hn2].
    destruct (inplace_merge_ok h l xs (y :: us) (v :: us2) vs2 H) as (h1 & Hrm & Hl1 & Hf1);
      [by apply sorted_strong..|].
    change (first_node l ((y :: us) ++ (v :: us2) ++ vs2)) with y in Hrm.
    change (first_node l ((v :: us2) ++ vs2)) with v in Hrm.
    rewrite (st_bind_ok _ _ _ _ _ Hrm). rewrite app_assoc in Hl1.
    cbn in Hn, Hf. rewrite !length_app in Hn, Hf. cbn in Hn, Hf. rewrite !length_app in Hn, Hf.
    destruct (IH vs2 h1 (xs ++ merge (y :: us) (v :: us2)) fuel (cnt + 1)) as (h2 & ys' & k & Hr3 & Hl2 & Hf2 & Hpr);
      [lia|exact Hl1|lia|].
    exists h2, (merge (y :: us) (v :: us2) ++ ys'), (S k). split_and!.
    + rewrite Hr3. do 2 f_equal. lia.
    + by rewrite app_assoc.
    + eapply frame_trans; [exact Hf1|]. eapply frame_mono; [|exact Hf2].
      intros a. rewrite !elem_of_nodes, !elem_of_app, merge_perm. set_solver.
    + apply (pass_result_cons (y :: us) (v :: us2) vs2 ys' k); [done|done| |done].
      change ((v :: us2) ++ vs2) with (v :: us2 ++ vs2) in *. by rewrite Hn1, Hn2.
Qed.

Lemma sort_loop_ok l : ∀ fuel h xs,
  is_list h l xs → (nruns xs < fuel)%nat →
  ∃ h' ys, sort_loop less fuel l h = Ok (tt, h') ∧ is_list h' l ys ∧
    frame (nodes l xs) h h' ∧ Sorted le ys ∧ ys ≡ₚ xs ∧ ∀ z, cls z ys = cls z xs.
Proof.
  induction fuel as [|fuel IH]; intros h xs H Hf; [lia|]. cbn [sort_loop].
  rewrite (st_bind_ok _ _ _ _ _ (loop_fuel_ok h)), (st_bind_ok _ _ _ _ _ (list_begin_ok h l xs H)).
  destruct (sort_pass_ok l (length xs) xs h [] (S (size h)) 0) as
    (h1 & ys & k & Hr & Hl1 & Hf1 & (rs & -> & Hrs & Hlen) & Hk & Hp & Hc); [done|done|..].
  { apply is_list_fuel in H. lia. }
  rewrite (st_bind_ok _ _ _ _ _ Hr), Z.add_0_l. cbn [app] in *.
  pose proof (nruns_concat rs Hrs) as Hnr. destruct (Z.ltb_spec 1 (Z.of_nat k)) as [Hk1|Hk1].
  - destruct (IH h1 (concat rs) Hl1) as (h2 & ys2 & Hr2 & Hl2 & Hf2 & Hs2 & Hp2 & Hc2); [lia|].
    exists h2, ys2. split_and!; [done|done| |done|by rewrite Hp2|].
    + eapply frame_trans; [exact Hf1|]. eapply frame_mono; [|exact Hf2].
      intros a. by rewrite !elem_of_nodes, Hp.
    + intros z. by rewrite Hc2.
  - exists h1, (concat rs). split_and!; [done|done|done| |done|done].
    destruct rs as [|r [|r' rs]]; [constructor| |cbn in Hlen; lia].
    cbn. rewrite app_nil_r. by inversion Hrs.
Qed.

Lemma list_sort_ok h l xs :
  is_list h l xs →
  ∃ h' ys, list_sort less l h = Ok (tt, h') ∧ is_list h' l ys ∧
    frame (nodes l xs) h h' ∧ Sorted le ys ∧ ys ≡ₚ xs ∧ ∀ z, cls z ys = cls z xs.
Proof.
  intros H. destruct (is_list_null _ _ _ H) as (? & _).
  destruct (sort_loop_ok l (S (size h)) h xs H) as (h' & ys & Hr & Hl' & Hf & Hs & Hp & Hc).
  { apply is_list_fuel in H. pose proof (nruns_length xs). lia. }
  exists h', ys. split_and!; try done. unfold list_sort. run_step.
  rewrite (st_bind_ok _ _ _ _ _ (loop_fuel_ok h)), (st_bind_ok _ _ _ _ _ Hr).
  rewrite (st_bind_ok _ _ _ _ _ (list_begin_ok h' l ys Hl')),
    (st_bind_ok _ _ _ _ _ (list_end_ok h' l ys Hl')).
  pose proof Hl' as Hl2. rewrite <-(app_nil_r ys) in Hl2.
  pose proof (is_sorted_ok h' l [] ys [] Hl2) as Hso. rewrite app_nil_r in Hso.
  change (first_node l []) with (tail_of l) in Hso.
  rewrite (st_bind_ok _ _ _ _ _ Hso), (proj2 (sortedb_spec ys) Hs). done.
Qed.
End order.
End KListSort.
