(* ===== verification/KListTheorems.v ===== *)
(** The properties of lib/kernel/list.c. *)
From S2P Require Import Prelude KList KListFacts KListOps KListSort.
Import KList KListFacts KListOps KListSort.
Local Open Scope Z_scope.

Module KListTheorems.

(** ** Auxiliary facts *)

(** The links of a list's nodes are a function of its sequence. *)
Lemma is_list_det h h' l xs a :
  is_list h l xs → is_list h' l xs → a ∈ nodes l xs → h !! a = h' !! a.
Proof.
  intros H H' Ha.
  assert (Hlink : ∀ g, is_list g l xs →
    ∃ p n, g !! a = Some (ListElem p n)
      ∧ (a = head_of l ∧ p = NULL ∧ n = first_node l xs
         ∨ a = tail_of l ∧ p = last_node l xs ∧ n = NULL
         ∨ ∃ us vs, xs = us ++ a :: vs ∧ p = last_node l us ∧ n = first_node l vs)).
  { intros g Hg. destruct (is_list_split g l [] xs Hg) as (Hn & _).
    destruct (is_list_split g l xs []) as (_ & Hp & _); [by rewrite app_nil_r|].
    destruct Hg as (Hd & Hph & Hnt) eqn:Eg. clear Eg.
    unfold nodes in Ha. apply elem_of_cons in Ha as [->|Ha].
    - unfold nxt, prv in *. change (last_node l []) with (head_of l) in Hn.
      destruct (g !! head_of l) as [[p n]|]; [|done]. simpl in *. exists p, n. naive_solver.
    - apply elem_of_app in Ha as [Ha| ->%list_elem_of_singleton].
      + apply list_elem_of_split in Ha as (us & vs & ->).
        destruct (is_list_at g l us a vs) as (H1 & H2 & _); [by split|].
        unfold nxt, prv in *. destruct (g !! a) as [[p n]|]; [|done]. simpl in *. exists p, n. naive_solver.
      + unfold nxt, prv in *. change (first_node l []) with (tail_of l) in Hp.
        destruct (g !! tail_of l) as [[p n]|]; [|done]. simpl in *. exists p, n. naive_solver. }
  destruct (Hlink h H) as (p & n & -> & Hc), (Hlink h' H') as (p' & n' & -> & Hc').
  destruct (is_list_null _ _ _ H) as (_ & _ & Hht). pose proof (is_list_NoDup _ _ _ H) as Hnd.
  assert (Hin : ∀ us vs, xs = us ++ a :: vs → a ≠ head_of l ∧ a ≠ tail_of l).
  { intros us vs ->. by destruct (is_list_at h l us a vs H) as (_ & _ & _ & ? & ?). }
  destruct Hc as [(-> & -> & ->)|[(-> & -> & ->)|(us & vs & E & -> & ->)]],
    Hc' as [(E1 & -> & ->)|[(E1 & -> & ->)|(us' & vs' & E' & -> & ->)]]; try done;
    try (by destruct (Hin _ _ E)); try (by destruct (Hin _ _ E')).
  assert (us = us' ∧ vs = vs') as [-> ->]; [|done].
  clear -E E' Hnd. rewrite E in E', Hnd. clear E xs. revert us' E' Hnd.
  induction us as [|u us IH]; intros [|u' us'] E' Hnd; simplify_eq/=; try done.
  - apply NoDup_cons in Hnd as [Hnd _]. by destruct Hnd; apply elem_of_app; right; left.
  - apply NoDup_cons in Hnd as [Hnd _]. by destruct Hnd; apply elem_of_app; right; left.
  - apply NoDup_cons in Hnd as [_ Hnd]. match goal with Hx : us ++ _ = us' ++ _ |- _ => by destruct (IH us' Hx Hnd) as [-> ->] end.
Qed.

Section ordered.
Context (less : Z → Z → bool).

Lemma insert_ordered_sorted e xs :
  strict_weak less → Sorted (le less) xs → Sorted (le less) (spec_insert_ordered less e xs).
Proof.
  intros [Hasym _]. induction 1 as [|y ys Hs IH Hh]; simpl; [by repeat constructor|].
  destruct (less e y) eqn:E.
  - constructor; [by constructor|]. constructor. unfold le. by apply Hasym.
  - constructor; [done|]. destruct ys as [|z zs]; simpl in *; [by constructor|].
    destruct (less e z); constructor; [done|by inversion Hh].
Qed.

Lemma insert_ordered_perm e xs : spec_insert_ordered less e xs ≡ₚ e :: xs.
Proof.
  induction xs as [|y ys IH]; simpl; [done|]. destruct (less e y); [done|]. rewrite IH. constructor.
Qed.

Lemma spec_max_ok m xs :
  strict_weak less →
  spec_max less m xs ∈ m :: xs ∧ ∀ x, x ∈ m :: xs → less (spec_max less m xs) x = false.
Proof.
  intros [Hasym Htr]. revert m. induction xs as [|y ys IH]; intros m; simpl.
  - split; [by left|]. intros x ->%list_elem_of_singleton.
    destruct (less m m) eqn:E; [|done]. by rewrite (Hasym _ _ E) in E.
  - destruct (IH (if less m y then y else m)) as [Hin Hle]. split.
    + destruct (less m y); apply elem_of_cons in Hin as [-> |Hin]; rewrite !elem_of_cons; auto.
    + intros x Hx. destruct (less m y) eqn:E.
      * apply elem_of_cons in Hx as [->|Hx]; [|auto].
        apply (Htr _ y); [apply Hle; by left|]. by apply Hasym.
      * apply elem_of_cons in Hx as [->|[->|Hx]%elem_of_cons].
        -- apply Hle. by left.
        -- apply (Htr _ m); [apply Hle; by left|done].
        -- apply Hle. by right.
Qed.
End ordered.

(** ** A concrete list, for the examples: the list at 1000 holds 3, 1, 2 *)

Definition demo_heap : heap :=
  list_to_map [(1000, ListElem 0 3); (3, ListElem 1000 1); (1, ListElem 3 2);
               (2, ListElem 1 1016); (1016, ListElem 2 0); (7, ListElem 0 0)].

Lemma demo_is_list : is_list demo_heap 1000 [3; 1; 2].
Proof.
  split; [|by vm_compute]. split; [|split].
  - apply (bool_decide_unpack _). by vm_compute.
  - intros Hn. apply (bool_decide_pack _) in Hn. by vm_compute in Hn.
  - vm_compute. repeat split; done.
Qed.

Lemma ltb_strict_weak : strict_weak Z.ltb.
Proof. split; intros; rewrite ?Z.ltb_lt, ?Z.ltb_ge in *; lia. Qed.

(** ** The theorems *)

(** C9: [list_sort] sorts.  On every well-formed list and for every strict weak
    order it returns; afterwards the same list object holds a stable sorted
    permutation of the elements (equivalent elements keep their order), and no
    memory outside the list's own nodes has changed. *)
Theorem list_sort_stable less h l xs :
  strict_weak less → is_list h l xs →
  ∃ h' ys, list_sort less l h = Ok (tt, h') ∧ is_list h' l ys ∧ frame (nodes l xs) h h'
    ∧ Sorted (le less) ys ∧ ys ≡ₚ xs ∧ ∀ z, cls less z ys = cls less z xs.
Proof. intros Hw Hl. by apply list_sort_ok. Qed.

Lemma list_sort_stable_witness :
  ∃ h' ys, list_sort Z.ltb 1000 demo_heap = Ok (tt, h') ∧ is_list h' 1000 ys
    ∧ frame (nodes 1000 [3; 1; 2]) demo_heap h'
    ∧ Sorted (le Z.ltb) ys ∧ ys ≡ₚ [3; 1; 2] ∧ ∀ z, cls Z.ltb z ys = cls Z.ltb z [3; 1; 2].
Proof. apply (list_sort_stable Z.ltb demo_heap 1000 [3; 1; 2] ltb_strict_weak demo_is_list). Defined.

(** [list_insert_ordered] keeps a sorted list sorted and adds exactly the new
    element. *)
Theorem list_insert_ordered_sorted less h l xs e :
  strict_weak less → is_list h l xs → Sorted (le less) xs →
  mapped h e → e ≠ NULL → e ∉ nodes l xs →
  ∃ h' ys, list_insert_ordered less l e h = Ok (tt, h') ∧ is_list h' l ys
    ∧ Sorted (le less) ys ∧ ys ≡ₚ e :: xs ∧ frame (e :: nodes l xs) h h'.
Proof.
  intros Hw Hl Hs Hm Hn He.
  destruct (list_insert_ordered_ok less h l xs e Hl Hm Hn He) as (h' & Hr & Hl' & Hf).
  exists h', (spec_insert_ordered less e xs). split_and!; try done.
  - by apply insert_ordered_sorted.
  - apply insert_ordered_perm.
Qed.

(** The empty list at 1000 and the node 7. *)
Definition demo_empty : heap :=
  list_to_map [(1000, ListElem 0 1016); (1016, ListElem 1000 0); (7, ListElem 0 0)].

Lemma demo_empty_is_list : is_list demo_empty 1000 [].
Proof.
  split; [|by vm_compute]. split; [|split].
  - apply (bool_decide_unpack _). by vm_compute.
  - intros Hn. apply (bool_decide_pack _) in Hn. by vm_compute in Hn.
  - vm_compute. repeat split; done.
Qed.

Lemma list_insert_ordered_sorted_witness :
  ∃ h' ys, list_insert_ordered Z.ltb 1000 7 demo_empty = Ok (tt, h') ∧ is_list h' 1000 ys
    ∧ Sorted (le Z.ltb) ys ∧ ys ≡ₚ [7] ∧ frame (7 :: nodes 1000 []) demo_empty h'.
Proof.
  apply (list_insert_ordered_sorted Z.ltb demo_empty 1000 [] 7 ltb_strict_weak demo_empty_is_list).
  - constructor.
  - eexists. vm_compute. reflexivity.
  - done.
  - apply (bool_decide_unpack _). by vm_compute.
Defined.

(** Removing undoes inserting: when an element is inserted before any position
    of a list and removed again, every word of memory other than the element's
    own links is what it was. *)
Theorem list_insert_remove h l xs ys e :
  is_list h l (xs ++ ys) → mapped h e → e ≠ NULL → e ∉ nodes l (xs ++ ys) →
  ∃ h', (list_insert (first_node l ys) e;; list_remove e) h = Ok (first_node l ys, h')
    ∧ is_list h' l (xs ++ ys) ∧ ∀ a, a ≠ e → h' !! a = h !! a.
Proof.
  intros Hl Hm Hn He. destruct (list_insert_ok h l xs ys e Hl Hm Hn He) as (h1 & Hr1 & Hl1 & Hf1).
  destruct (list_remove_ok h1 l xs e ys Hl1) as (h2 & Hr2 & Hl2 & Hf2).
  exists h2. rewrite (st_bind_ok _ _ _ _ _ Hr1). split_and!; [done|done|]. intros a Hae.
  destruct (decide (a ∈ nodes l (xs ++ ys))) as [Ha|Ha].
  - by apply (is_list_det h2 h l (xs ++ ys)).
  - destruct Hf1 as [_ Hf1], Hf2 as [_ Hf2]. rewrite Hf2, Hf1; [done| |done].
    by intros [->|?]%elem_of_cons.
Qed.

Lemma list_insert_remove_witness :
  ∃ h', (list_insert (first_node 1000 [2]) 7;; list_remove 7) demo_heap = Ok (first_node 1000 [2], h')
    ∧ is_list h' 1000 ([3; 1] ++ [2]) ∧ ∀ a, a ≠ 7 → h' !! a = demo_heap !! a.
Proof.
  apply (list_insert_remove demo_heap 1000 [3; 1] [2] 7 demo_is_list).
  - eexists. vm_compute. reflexivity.
  - done.
  - apply (bool_decide_unpack _). by vm_compute.
Defined.

(** A list used as a queue is first-in first-out: [list_push_back] then
    [list_pop_front] returns the element at the front and leaves the pushed one
    at the back. *)
Theorem list_queue_fifo h l x xs e :
  is_list h l (x :: xs) → mapped h e → e ≠ NULL → e ∉ nodes l (x :: xs) →
  ∃ h', (list_push_back l e;; list_pop_front l) h = Ok (x, h') ∧ is_list h' l (xs ++ [e]).
Proof.
  intros Hl Hm Hn He. destruct (list_push_back_ok h l (x :: xs) e Hl Hm Hn He) as (h1 & Hr1 & Hl1 & _).
  destruct (list_pop_front_ok h1 l x (xs ++ [e]) Hl1) as (h2 & Hr2 & Hl2 & _).
  exists h2. by rewrite (st_bind_ok _ _ _ _ _ Hr1).
Qed.

Lemma list_queue_fifo_witness :
  ∃ h', (list_push_back 1000 7;; list_pop_front 1000) demo_heap = Ok (3, h')
    ∧ is_list h' 1000 ([1; 2] ++ [7]).
Proof.
  apply (list_queue_fifo demo_heap 1000 3 [1; 2] 7 demo_is_list).
  - eexists. vm_compute. reflexivity.
  - done.
  - apply (bool_decide_unpack _). by vm_compute.
Defined.

(** [list_reverse] reverses the list in place; [list_size] is unchanged. *)
Theorem list_reverse_in_place h l xs :
  is_list h l xs →
  ∃ h', list_reverse l h = Ok (tt, h') ∧ is_list h' l (reverse xs) ∧ frame (nodes l xs) h h'
    ∧ list_size l h' = Ok (Z.of_nat (length xs), h').
Proof.
  intros Hl. destruct (list_reverse_ok h l xs Hl) as (h' & Hr & Hl' & Hf). exists h'.
  split_and!; try done. rewrite (list_size_ok _ _ _ Hl'). by rewrite length_reverse.
Qed.

Lemma list_reverse_in_place_witness :
  ∃ h', list_reverse 1000 demo_heap = Ok (tt, h') ∧ is_list h' 1000 (reverse [3; 1; 2])
    ∧ frame (nodes 1000 [3; 1; 2]) demo_heap h'
    ∧ list_size 1000 h' = Ok (Z.of_nat (length [3; 1; 2]), h').
Proof. apply (list_reverse_in_place demo_heap 1000 [3; 1; 2] demo_is_list). Defined.

(** [list_max] returns an element of a non-empty list that no element exceeds,
    and changes nothing. *)
Theorem list_max_is_max less h l x xs :
  strict_weak less → is_list h l (x :: xs) →
  ∃ m, list_max less l h = Ok (m, h) ∧ m ∈ x :: xs ∧ ∀ y, y ∈ x :: xs → less m y = false.
Proof.
  intros Hw Hl. exists (spec_max less x xs). rewrite (list_max_ok less h l _ Hl).
  split; [done|]. by apply spec_max_ok.
Qed.

Lemma list_max_is_max_witness :
  ∃ m, list_max Z.ltb 1000 demo_heap = Ok (m, demo_heap) ∧ m ∈ [3; 1; 2]
    ∧ ∀ y, y ∈ [3; 1; 2] → Z.ltb m y = false.
Proof. apply (list_max_is_max Z.ltb demo_heap 1000 3 [1; 2] ltb_strict_weak demo_is_list). Defined.

(** Taking an element from an empty list is caught: [list_front], [list_back],
    [list_pop_front] and [list_pop_back] all fail their [ASSERT]. *)
Theorem list_empty_asserts h l :
  is_list h l [] →
  list_front l h = Err AssertFail ∧ list_back l h = Err AssertFail
  ∧ list_pop_front l h = Err AssertFail ∧ list_pop_back l h = Err AssertFail.
Proof.
  intros Hl. split_and!; [by apply list_front_empty|by apply list_back_empty
    |by apply list_pop_front_empty|by apply list_pop_back_empty].
Qed.

Lemma list_empty_asserts_witness :
  list_front 1000 demo_empty = Err AssertFail ∧ list_back 1000 demo_empty = Err AssertFail
  ∧ list_pop_front 1000 demo_empty = Err AssertFail ∧ list_pop_back 1000 demo_empty = Err AssertFail.
Proof. apply (list_empty_asserts demo_empty 1000 demo_empty_is_list). Defined.

End KListTheorems.
