(* ===== verification/KState.v ===== *)
(** The state of the threading system (thread.c, synch.c, interrupt.c, timer.c).

    A thread's kernel stack is the list of [frame]s it still has to execute:
    each constructor is a program point of the C code, at which the thread can
    be interrupted or switched away from.  The intrusive lists of threads
    (ready, sleeping, waiting) are the sequences KListOps relates the pointer
    structures to. *)
From S2P Require Import Prelude.
Local Open Scope Z_scope.

Module KState.

(** include/threads/thread.h *)
Inductive thread_status :=
  | THREAD_RUNNING | THREAD_READY | THREAD_BLOCKED | THREAD_DYING.
#[export] Instance thread_status_eq_dec : EqDecision thread_status.
Proof. solve_decision. Defined.

Definition TID_ERROR : Z := -1.
Definition PRI_MIN : Z := 0.
Definition PRI_DEFAULT : Z := 31.
Definition PRI_MAX : Z := 63.
Definition TIME_SLICE : Z := 4.
Definition PGSIZE : Z := 4096.

(** include/threads/interrupt.h *)
Inductive intr_level := INTR_OFF | INTR_ON.
#[export] Instance intr_level_eq_dec : EqDecision intr_level.
Proof. solve_decision. Defined.

(** Locks: [tid_lock] of thread.c, [kernel_pool.lock] of palloc.c, and the
    locks other code declares, by address. *)
Inductive lock_id := TidLock | PoolLock | UserLock (a : Z).
#[export] Instance lock_id_eq_dec : EqDecision lock_id.
Proof. solve_decision. Defined.
#[export] Instance lock_id_countable : Countable lock_id.
Proof.
  refine (inj_countable' (λ l, match l with
    | TidLock => inl (inl tt) | PoolLock => inl (inr tt) | UserLock a => inr a end)
    (λ s, match s with inl (inl _) => TidLock | inl (inr _) => PoolLock
                     | inr a => UserLock a end) _).
  by intros [].
Defined.

(** Semaphores: a standalone one by address, the one inside a lock, the
    [struct semaphore_elem] on a waiting thread's stack (cond_wait), and the
    local [idle_started] of thread_start. *)
Inductive sema_id :=
  | Sema (a : Z) | LockSema (l : lock_id) | WaiterSema (t : Z) | IdleStarted.
#[export] Instance sema_id_eq_dec : EqDecision sema_id.
Proof. solve_decision. Defined.
#[export] Instance sema_id_countable : Countable sema_id.
Proof.
  refine (inj_countable' (λ l, match l with
    | Sema a => inl (inl a) | LockSema l => inl (inr l)
    | WaiterSema t => inr (inl t) | IdleStarted => inr (inr tt) end)
    (λ s, match s with inl (inl a) => Sema a | inl (inr l) => LockSema l
                     | inr (inl t) => WaiterSema t | inr (inr _) => IdleStarted end) _).
  by intros [].
Defined.

(** include/threads/synch.h *)
Record semaphore := Semaphore { value : Z; waiters : list Z }.

(** What a new thread runs: [idle] of thread.c, or some kernel code. *)
Inductive thread_func := F_idle | F_client.
#[export] Instance thread_func_eq_dec : EqDecision thread_func.
Proof. solve_decision. Defined.

Inductive frame :=
  (* synch.c *)
  | SemaDown (s : sema_id)
  | SemaDownLoop (s : sema_id)                (* the while test of sema_down *)
  | SemaTryDown (s : sema_id)
  | SemaUp (s : sema_id)
  | LockAcquire (l : lock_id)
  | LockAcquireSet (l : lock_id)              (* lock->holder = thread_current () *)
  | LockTryAcquire (l : lock_id)
  | LockRelease (l : lock_id)
  | CondWait (c : Z) (l : lock_id)
  | CondSignal (c : Z) (l : lock_id)
  | CondBroadcast (c : Z) (l : lock_id)
  (* interrupt.c *)
  | SetLevel (v : intr_level)                 (* intr_set_level (v) *)
  | Iret                                      (* return from an interrupt *)
  (* thread.c *)
  | ThreadYield
  | ThreadExit
  | DoSchedule (v : thread_status)            (* do_schedule, at the while test *)
  | NotReached
  | ThreadSleep (wake : Z)
  | SleepDone (v : intr_level)                (* thread_sleep, after thread_block *)
  | ThreadSetPriority (p : Z)
  | ThreadStart
  | ThreadCreate (nm : string) (p : Z) (f : thread_func)
  | CreateScan (nm : string) (p : Z) (f : thread_func)   (* palloc_get_page, lock held *)
  | CreateInit (t : Z) (nm : string) (p : Z) (f : thread_func)
  | CreateTid (t : Z) (f : thread_func)       (* allocate_tid, lock held *)
  | CreateFinish (t id : Z) (f : thread_func)
  | KernelThread (f : thread_func)
  | Idle
  | IdleLoop                                  (* intr_disable (); thread_block () *)
  | StiHlt                                    (* "sti; hlt" *)
  | Hlt                                       (* halted, interrupts enabled *)
  (* palloc.c *)
  | PallocClear (page : Z)                    (* clear the page's bit, lock held *)
  (* timer.c *)
  | TimerSleep (n : Z)
  (* any other kernel code *)
  | Client.
#[export] Instance frame_eq_dec : EqDecision frame.
Proof. solve_decision. Defined.

(** [struct thread]; [tf_if] is the interrupt flag in the saved [tf.eflags]. *)
Record thread := Thread {
  tid : Z;
  status : thread_status;
  name : string;
  priority : Z;
  alarm : Z;
  tf_if : intr_level;
  stack : list frame
}.

Definition set_tid (v : Z) (t : thread) : thread :=
  Thread v (status t) (name t) (priority t) (alarm t) (tf_if t) (stack t).
Definition set_status (v : thread_status) (t : thread) : thread :=
  Thread (tid t) v (name t) (priority t) (alarm t) (tf_if t) (stack t).
Definition set_priority (v : Z) (t : thread) : thread :=
  Thread (tid t) (status t) (name t) v (alarm t) (tf_if t) (stack t).
Definition set_alarm (v : Z) (t : thread) : thread :=
  Thread (tid t) (status t) (name t) (priority t) v (tf_if t) (stack t).
Definition set_tf_if (v : intr_level) (t : thread) : thread :=
  Thread (tid t) (status t) (name t) (priority t) (alarm t) v (stack t).
Definition set_stack (v : list frame) (t : thread) : thread :=
  Thread (tid t) (status t) (name t) (priority t) (alarm t) (tf_if t) v.

(** Where the linker and the boot code put what the thread code depends on:
    [kernel_pool.base] of palloc.c and the address of [sleep_list.tail]. *)
Class Layout := { pool_base : Z; sleep_tail : Z }.

(** What holds of every such layout: pool pages are page-aligned kernel
    addresses, and a kernel address is a large positive [int64_t]. *)
Class LayoutOk `{Layout} := {
  pool_base_pos : 0 < pool_base;
  pool_base_aligned : pool_base mod PGSIZE = 0;
  sleep_tail_pos : 0 < sleep_tail < INT64_MAX
}.

(** The static variables of the modelled files and the processor's state. *)
Record kstate := KState {
  threads : gmap Z thread;
  current : Z;
  ready_list : list Z;
  sleep_list : list Z;
  destruction_req : list Z;
  idle_thread : Z;
  initial_thread : Z;
  earliest_wake_up_tick : Z;
  next_tid : Z;
  idle_ticks : Z;
  kernel_ticks : Z;
  thread_ticks : Z;
  if_flag : intr_level;
  in_external_intr : bool;
  yield_on_return : bool;
  ticks : Z;
  semas : gmap sema_id semaphore;
  holders : gmap lock_id Z;
  conds : gmap Z (list Z);
  used_map : list bool
}.

Definition set_threads (v : gmap Z thread) (s : kstate) : kstate :=
  KState v (current s) (ready_list s) (sleep_list s) (destruction_req s) (idle_thread s) (initial_thread s) (earliest_wake_up_tick s) (next_tid s) (idle_ticks s) (kernel_ticks s) (thread_ticks s) (if_flag s) (in_external_intr s) (yield_on_return s) (ticks s) (semas s) (holders s) (conds s) (used_map s).
Definition set_current (v : Z) (s : kstate) : kstate :=
  KState (threads s) v (ready_list s) (sleep_list s) (destruction_req s) (idle_thread s) (initial_thread s) (earliest_wake_up_tick s) (next_tid s) (idle_ticks s) (kernel_ticks s) (thread_ticks s) (if_flag s) (in_external_intr s) (yield_on_return s) (ticks s) (semas s) (holders s) (conds s) (used_map s).
Definition set_ready_list (v : list Z) (s : kstate) : kstate :=
  KState (threads s) (current s) v (sleep_list s) (destruction_req s) (idle_thread s) (initial_thread s) (earliest_wake_up_tick s) (next_tid s) (idle_ticks s) (kernel_ticks s) (thread_ticks s) (if_flag s) (in_external_intr s) (yield_on_return s) (ticks s) (semas s) (holders s) (conds s) (used_map s).
Definition set_sleep_list (v : list Z) (s : kstate) : kstate :=
  KState (threads s) (current s) (ready_list s) v (destruction_req s) (idle_thread s) (initial_thread s) (earliest_wake_up_tick s) (next_tid s) (idle_ticks s) (kernel_ticks s) (thread_ticks s) (if_flag s) (in_external_intr s) (yield_on_return s) (ticks s) (semas s) (holders s) (conds s) (used_map s).
Definition set_destruction_req (v : list Z) (s : kstate) : kstate :=
  KState (threads s) (current s) (ready_list s) (sleep_list s) v (idle_thread s) (initial_thread s) (earliest_wake_up_tick s) (next_tid s) (idle_ticks s) (kernel_ticks s) (thread_ticks s) (if_flag s) (in_external_intr s) (yield_on_return s) (ticks s) (semas s) (holders s) (conds s) (used_map s).
Definition set_idle_thread (v : Z) (s : kstate) : kstate :=
  KState (threads s) (current s) (ready_list s) (sleep_list s) (destruction_req s) v (initial_thread s) (earliest_wake_up_tick s) (next_tid s) (idle_ticks s) (kernel_ticks s) (thread_ticks s) (if_flag s) (in_external_intr s) (yield_on_return s) (ticks s) (semas s) (holders s) (conds s) (used_map s).
Definition set_initial_thread (v : Z) (s : kstate) : kstate :=
  KState (threads s) (current s) (ready_list s) (sleep_list s) (destruction_req s) (idle_thread s) v (earliest_wake_up_tick s) (next_tid s) (idle_ticks s) (kernel_ticks s) (thread_ticks s) (if_flag s) (in_external_intr s) (yield_on_return s) (ticks s) (semas s) (holders s) (conds s) (used_map s).
Definition set_earliest_wake_up_tick (v : Z) (s : kstate) : kstate :=
  KState (threads s) (current s) (ready_list s) (sleep_list s) (destruction_req s) (idle_thread s) (initial_thread s) v (next_tid s) (idle_ticks s) (kernel_ticks s) (thread_ticks s) (if_flag s) (in_external_intr s) (yield_on_return s) (ticks s) (semas s) (holders s) (conds s) (used_map s).
Definition set_next_tid (v : Z) (s : kstate) : kstate :=
  KState (threads s) (current s) (ready_list s) (sleep_list s) (destruction_req s) (idle_thread s) (initial_thread s) (earliest_wake_up_tick s) v (idle_ticks s) (kernel_ticks s) (thread_ticks s) (if_flag s) (in_external_intr s) (yield_on_return s) (ticks s) (semas s) (holders s) (conds s) (used_map s).
Definition set_idle_ticks (v : Z) (s : kstate) : kstate :=
  KState (threads s) (current s) (ready_list s) (sleep_list s) (destruction_req s) (idle_thread s) (initial_thread s) (earliest_wake_up_tick s) (next_tid s) v (kernel_ticks s) (thread_ticks s) (if_flag s) (in_external_intr s) (yield_on_return s) (ticks s) (semas s) (holders s) (conds s) (used_map s).
Definition set_kernel_ticks (v : Z) (s : kstate) : kstate :=
  KState (threads s) (current s) (ready_list s) (sleep_list s) (destruction_req s) (idle_thread s) (initial_thread s) (earliest_wake_up_tick s) (next_tid s) (idle_ticks s) v (thread_ticks s) (if_flag s) (in_external_intr s) (yield_on_return s) (ticks s) (semas s) (holders s) (conds s) (used_map s).
Definition set_thread_ticks (v : Z) (s : kstate) : kstate :=
  KState (threads s) (current s) (ready_list s) (sleep_list s) (destruction_req s) (idle_thread s) (initial_thread s) (earliest_wake_up_tick s) (next_tid s) (idle_ticks s) (kernel_ticks s) v (if_flag s) (in_external_intr s) (yield_on_return s) (ticks s) (semas s) (holders s) (conds s) (used_map s).
Definition set_if_flag (v : intr_level) (s : kstate) : kstate :=
  KState (threads s) (current s) (ready_list s) (sleep_list s) (destruction_req s) (idle_thread s) (initial_thread s) (earliest_wake_up_tick s) (next_tid s) (idle_ticks s) (kernel_ticks s) (thread_ticks s) v (in_external_intr s) (yield_on_return s) (ticks s) (semas s) (holders s) (conds s) (used_map s).
Definition set_in_external_intr (v : bool) (s : kstate) : kstate :=
  KState (threads s) (current s) (ready_list s) (sleep_list s) (destruction_req s) (idle_thread s) (initial_thread s) (earliest_wake_up_tick s) (next_tid s) (idle_ticks s) (kernel_ticks s) (thread_ticks s) (if_flag s) v (yield_on_return s) (ticks s) (semas s) (holders s) (conds s) (used_map s).
Definition set_yield_on_return (v : bool) (s : kstate) : kstate :=
  KState (threads s) (current s) (ready_list s) (sleep_list s) (destruction_req s) (idle_thread s) (initial_thread s) (earliest_wake_up_tick s) (next_tid s) (idle_ticks s) (kernel_ticks s) (thread_ticks s) (if_flag s) (in_external_intr s) v (ticks s) (semas s) (holders s) (conds s) (used_map s).
Definition set_ticks (v : Z) (s : kstate) : kstate :=
  KState (threads s) (current s) (ready_list s) (sleep_list s) (destruction_req s) (idle_thread s) (initial_thread s) (earliest_wake_up_tick s) (next_tid s) (idle_ticks s) (kernel_ticks s) (thread_ticks s) (if_flag s) (in_external_intr s) (yield_on_return s) v (semas s) (holders s) (conds s) (used_map s).
Definition set_semas (v : gmap sema_id semaphore) (s : kstate) : kstate :=
  KState (threads s) (current s) (ready_list s) (sleep_list s) (destruction_req s) (idle_thread s) (initial_thread s) (earliest_wake_up_tick s) (next_tid s) (idle_ticks s) (kernel_ticks s) (thread_ticks s) (if_flag s) (in_external_intr s) (yield_on_return s) (ticks s) v (holders s) (conds s) (used_map s).
Definition set_holders (v : gmap lock_id Z) (s : kstate) : kstate :=
  KState (threads s) (current s) (ready_list s) (sleep_list s) (destruction_req s) (idle_thread s) (initial_thread s) (earliest_wake_up_tick s) (next_tid s) (idle_ticks s) (kernel_ticks s) (thread_ticks s) (if_flag s) (in_external_intr s) (yield_on_return s) (ticks s) (semas s) v (conds s) (used_map s).
Definition set_conds (v : gmap Z (list Z)) (s : kstate) : kstate :=
  KState (threads s) (current s) (ready_list s) (sleep_list s) (destruction_req s) (idle_thread s) (initial_thread s) (earliest_wake_up_tick s) (next_tid s) (idle_ticks s) (kernel_ticks s) (thread_ticks s) (if_flag s) (in_external_intr s) (yield_on_return s) (ticks s) (semas s) (holders s) v (used_map s).
Definition set_used_map (v : list bool) (s : kstate) : kstate :=
  KState (threads s) (current s) (ready_list s) (sleep_list s) (destruction_req s) (idle_thread s) (initial_thread s) (earliest_wake_up_tick s) (next_tid s) (idle_ticks s) (kernel_ticks s) (thread_ticks s) (if_flag s) (in_external_intr s) (yield_on_return s) (ticks s) (semas s) (holders s) (conds s) v.

(** Changes one thread structure, if it exists. *)
Definition upd_thread (t : Z) (f : thread → thread) (s : kstate) : kstate :=
  set_threads (alter f t (threads s)) s.

Definition upd_sema (i : sema_id) (f : semaphore → semaphore) (s : kstate) : kstate :=
  set_semas (alter f i (semas s)) s.

(** Code the running thread has to execute next. *)
Definition push (fs : list frame) (s : kstate) : kstate :=
  upd_thread (current s) (λ t, set_stack (fs ++ stack t) t) s.

End KState.
