(* ===== verification/Interrupt.v ===== *)
(** threads/interrupt.c: the interrupt flag, the external-interrupt context and
    the common part of [intr_handler]. *)
From S2P Require Import Prelude KState.
Import KState.
Local Open Scope Z_scope.

Module Interrupt.

Definition intr_get_level (s : kstate) : intr_level := if_flag s.
Definition intr_context (s : kstate) : bool := in_external_intr s.

(** Each returns the previous level. *)
Definition intr_enable (s : kstate) : res (intr_level * kstate) :=
  let old_level := intr_get_level s in
  assert_res (negb (intr_context s));;
  Ok (old_level, set_if_flag INTR_ON s).

Definition intr_disable (s : kstate) : intr_level * kstate :=
  (intr_get_level s, set_if_flag INTR_OFF s).

Definition intr_set_level (level : intr_level) (s : kstate) : res (intr_level * kstate) :=
  match level with
  | INTR_ON => intr_enable s
  | INTR_OFF => Ok (intr_disable s)
  end.

Definition intr_yield_on_return (s : kstate) : res kstate :=
  assert_res (intr_context s);; Ok (set_yield_on_return true s).

(** [intr_handler] for an external interrupt whose registered handler is
    [handler].  The processor has cleared the interrupt flag on entry through
    the interrupt gate; the acknowledgement to the PIC has no effect on this
    state.  [thread_yield] and the [iretq] of intr-stubs.S follow as frames. *)
Definition intr_handler (handler : kstate → res kstate) (s : kstate) : res kstate :=
  assert_res (bool_decide (intr_get_level s = INTR_OFF));;
  assert_res (negb (intr_context s));;
  s ← handler (set_yield_on_return false (set_in_external_intr true s));
  assert_res (bool_decide (intr_get_level s = INTR_OFF));;
  assert_res (intr_context s);;
  let s := set_in_external_intr false s in
  Ok (push (if yield_on_return s then [ThreadYield; Iret] else [Iret]) s).

End Interrupt.
