(* ===== verification/Threads.v ===== *)
(** threads/thread.c: scheduling, blocking and sleeping, creation and
    destruction of threads, with the page allocation they use (palloc.c). *)
From S2P Require Import Prelude KList KListFacts KListOps KState Interrupt.
Import KState Interrupt KListOps.
Local Open Scope Z_scope.

Module Threads.

Section layout.
Context `{Layout}.

(** [t != NULL && t->magic == THREAD_MAGIC]: the magic is in place exactly in
    the pages of [threads]. *)
Definition is_thread (s : kstate) (t : Z) : bool :=
  bool_decide (t ≠ NULL) && bool_decide (is_Some (threads s !! t)).

Definition running_thread (s : kstate) : Z := current s.

Definition thread_status_of (s : kstate) (t : Z) : option thread_status :=
  status <$> threads s !! t.

Definition thread_current (s : kstate) : res Z :=
  let t := running_thread s in
  assert_res (is_thread s t);;
  assert_res (bool_decide (thread_status_of s t = Some THREAD_RUNNING));;
  Ok t.

Definition thread_unblock (t : Z) (s : kstate) : res kstate :=
  assert_res (is_thread s t);;
  let '(old_level, s) := intr_disable s in
  assert_res (bool_decide (thread_status_of s t = Some THREAD_BLOCKED));;
  let s := set_ready_list (ready_list s ++ [t]) s in
  let s := upd_thread t (set_status THREAD_READY) s in
  '(_, s) ← intr_set_level old_level s;
  Ok s.

Definition next_thread_to_run (s : kstate) : Z * kstate :=
  match ready_list s with
  | [] => (idle_thread s, s)
  | t :: r => (t, set_ready_list r s)
  end.

(** The register context is saved into [running_thread ()->tf] and the next
    thread's is loaded by [iretq], the interrupt flag with it. *)
Definition thread_launch (th : Z) (s : kstate) : res kstate :=
  assert_res (bool_decide (intr_get_level s = INTR_OFF));;
  match threads s !! th with
  | None => Err BadAddr
  | Some n =>
    let s := upd_thread (running_thread s) (set_tf_if (intr_get_level s)) s in
    Ok (set_if_flag (tf_if n) (set_current th s))
  end.

Definition schedule (s : kstate) : res kstate :=
  let curr := running_thread s in
  let '(next, s) := next_thread_to_run s in
  assert_res (bool_decide (intr_get_level s = INTR_OFF));;
  assert_res (bool_decide (thread_status_of s curr ≠ Some THREAD_RUNNING));;
  assert_res (is_thread s next);;
  let s := upd_thread next (set_status THREAD_RUNNING) s in
  let s := set_thread_ticks 0 s in
  if decide (curr ≠ next) then
    let s :=
      if bool_decide (thread_status_of s curr = Some THREAD_DYING)
         && bool_decide (curr ≠ initial_thread s)
      then set_destruction_req (destruction_req s ++ [curr]) s else s in
    thread_launch next s
  else Ok s.

Definition thread_block (s : kstate) : res kstate :=
  assert_res (negb (intr_context s));;
  assert_res (bool_decide (intr_get_level s = INTR_OFF));;
  t ← thread_current s;
  schedule (upd_thread t (set_status THREAD_BLOCKED) s).

Definition thread_tick (s : kstate) : res kstate :=
  t ← thread_current s;
  let s := if decide (t = idle_thread s)
           then set_idle_ticks (i64 (idle_ticks s + 1)) s
           else set_kernel_ticks (i64 (kernel_ticks s + 1)) s in
  let s := set_thread_ticks (u32 (thread_ticks s + 1)) s in
  if thread_ticks s >=? TIME_SLICE then intr_yield_on_return s else Ok s.

(** ** Sleeping *)

Definition alarm_of (s : kstate) (t : Z) : Z := default 0 (alarm <$> threads s !! t).

Definition timer_comparator (s : kstate) (x y : Z) : bool := alarm_of s x <=? alarm_of s y.

Definition earliest_time (n : Z) (s : kstate) : kstate :=
  if earliest_wake_up_tick s >? n then set_earliest_wake_up_tick n s else s.

(** Up to the return of [thread_block], after which [SleepDone] restores the
    interrupt level. *)
Definition thread_sleep (wake : Z) (s : kstate) : res kstate :=
  sleeper ← thread_current s;
  let '(old_level, s) := intr_disable s in
  let s := upd_thread sleeper (set_alarm wake) s in
  let s := earliest_time (alarm_of s sleeper) s in
  let s := set_sleep_list
             (spec_insert_ordered (timer_comparator s) sleeper (sleep_list s)) s in
  thread_block (push [SleepDone old_level] s).

(** [list_entry (list_begin (&sleep_list), struct thread, elem)->alarm].  On an
    empty list [list_begin] is [&sleep_list.tail]; [alarm] lies 8 bytes before
    [elem], so the load reads [sleep_list.head.next], which holds
    [&sleep_list.tail]. *)
Definition first_alarm (s : kstate) : Z :=
  match sleep_list s with t :: _ => alarm_of s t | [] => sleep_tail end.

Fixpoint wakeup_loop (fuel : nat) (n : Z) (s : kstate) : res kstate :=
  match fuel with
  | O => Err NoFuel
  | S fuel =>
    if n >=? earliest_wake_up_tick s then
      match sleep_list s with
      | [] => Err AssertFail                 (* list_pop_front of an empty list *)
      | t :: r =>
        s ← thread_unblock t (set_sleep_list r s);
        wakeup_loop fuel n (set_earliest_wake_up_tick (first_alarm s) s)
      end
    else Ok s
  end.

(** One iteration per sleeper and the final test. *)
Definition thread_wakeup (n : Z) (s : kstate) : res kstate :=
  match sleep_list s with
  | [] => Ok (set_earliest_wake_up_tick INT64_MAX s)
  | _ => wakeup_loop (2 + length (sleep_list s)) n s
  end.

(** ** Page allocation, as thread creation and destruction use it *)

(** [bitmap_scan_and_flip (used_map, 0, 1, false)] *)
Fixpoint scan_and_flip (m : list bool) : option (nat * list bool) :=
  match m with
  | [] => None
  | false :: r => Some (O, true :: r)
  | true :: r => '(i, r) ← scan_and_flip r; Some (S i, true :: r)
  end.

Definition page_addr (i : nat) : Z := pool_base + PGSIZE * Z.of_nat i.
Definition page_idx (p : Z) : nat := Z.to_nat (p / PGSIZE - pool_base / PGSIZE).

Definition page_from_pool (s : kstate) (p : Z) : bool :=
  (pool_base / PGSIZE <=? p / PGSIZE)
  && (p / PGSIZE <? pool_base / PGSIZE + Z.of_nat (length (used_map s))).

(** The part of [palloc_free_multiple] under the lock, for one page. *)
Definition palloc_clear (p : Z) (s : kstate) : res kstate :=
  assert_res (bool_decide (used_map s !! page_idx p = Some true));;
  Ok (set_used_map (<[page_idx p := false]> (used_map s)) s).

(** The part before the lock is taken: the page is checked and overwritten with
    0xcc, the thread's magic with it. *)
Definition palloc_free_check (p : Z) (s : kstate) : res kstate :=
  assert_res (bool_decide (p mod PGSIZE = 0));;
  if negb (page_from_pool s p) then Err PanicCall
  else Ok (set_threads (delete p (threads s)) s).

End layout.
End Threads.
