(* ===== verification/Synch.v ===== *)
(** threads/synch.c: semaphores, locks and condition variables.

    Code that runs with interrupts off is one step.  Where a function continues
    after a call that can be preempted or can block, the rest of it is pushed
    on the running thread's stack as frames, the next one first. *)
From S2P Require Import Prelude KState Interrupt Threads.
Import KState Interrupt Threads.
Local Open Scope Z_scope.

Module Synch.

(** ** Semaphores *)

Definition sema_init (i : sema_id) (v : Z) (s : kstate) : kstate :=
  set_semas (<[i := Semaphore (u32 v) []]> (semas s)) s.

Definition sema_down (i : sema_id) (s : kstate) : res kstate :=
  assert_res (negb (intr_context s));;
  let '(old_level, s) := intr_disable s in
  Ok (push [SemaDownLoop i; SetLevel old_level] s).

(** The loop and the decrement; [thread_block] returns to the loop's test. *)
Definition sema_down_loop (i : sema_id) (s : kstate) : res kstate :=
  match semas s !! i with
  | None => Err BadAddr
  | Some sm =>
    if decide (value sm = 0) then
      t ← thread_current s;
      let s := upd_sema i (λ sm, Semaphore (value sm) (waiters sm ++ [t])) s in
      thread_block (push [SemaDownLoop i] s)
    else
      Ok (upd_sema i (λ sm, Semaphore (u32 (value sm - 1)) (waiters sm)) s)
  end.

Definition sema_try_down (i : sema_id) (s : kstate) : res (bool * kstate) :=
  match semas s !! i with
  | None => Err BadAddr
  | Some sm =>
    let '(old_level, s) := intr_disable s in
    let '(success, s) :=
      if value sm >? 0
      then (true, upd_sema i (λ sm, Semaphore (u32 (value sm - 1)) (waiters sm)) s)
      else (false, s) in
    '(_, s) ← intr_set_level old_level s;
    Ok (success, s)
  end.

Definition sema_up (i : sema_id) (s : kstate) : res kstate :=
  match semas s !! i with
  | None => Err BadAddr
  | Some sm =>
    let '(old_level, s) := intr_disable s in
    s ← match waiters sm with
        | [] => Ok s
        | t :: r => thread_unblock t (upd_sema i (λ sm, Semaphore (value sm) r) s)
        end;
    let s := upd_sema i (λ sm, Semaphore (u32 (value sm + 1)) (waiters sm)) s in
    '(_, s) ← intr_set_level old_level s;
    Ok s
  end.

(** ** Locks *)

Definition lock_init (l : lock_id) (s : kstate) : kstate :=
  sema_init (LockSema l) 1 (set_holders (<[l := NULL]> (holders s)) s).

Definition lock_held_by_current_thread (l : lock_id) (s : kstate) : res bool :=
  match holders s !! l with
  | None => Err BadAddr
  | Some h => t ← thread_current s; Ok (bool_decide (h = t))
  end.

Definition set_holder (l : lock_id) (h : Z) (s : kstate) : kstate :=
  set_holders (<[l := h]> (holders s)) s.

Definition lock_acquire (l : lock_id) (s : kstate) : res kstate :=
  assert_res (negb (intr_context s));;
  held ← lock_held_by_current_thread l s;
  assert_res (negb held);;
  Ok (push [SemaDown (LockSema l); LockAcquireSet l] s).

(** [lock->holder = thread_current ()] *)
Definition lock_acquire_set (l : lock_id) (s : kstate) : res kstate :=
  t ← thread_current s; Ok (set_holder l t s).

Definition lock_try_acquire (l : lock_id) (s : kstate) : res (bool * kstate) :=
  held ← lock_held_by_current_thread l s;
  assert_res (negb held);;
  '(success, s) ← sema_try_down (LockSema l) s;
  Ok (success, if success : bool then push [LockAcquireSet l] s else s).

Definition lock_release (l : lock_id) (s : kstate) : res kstate :=
  held ← lock_held_by_current_thread l s;
  assert_res held;;
  Ok (push [SemaUp (LockSema l)] (set_holder l NULL s)).

(** ** Condition variables

    [conds] holds each condition's list of [struct semaphore_elem]s, named by
    the thread on whose stack they are. *)

Definition cond_init (c : Z) (s : kstate) : kstate :=
  set_conds (<[c := []]> (conds s)) s.

Definition cond_wait (c : Z) (l : lock_id) (s : kstate) : res kstate :=
  assert_res (negb (intr_context s));;
  held ← lock_held_by_current_thread l s;
  assert_res held;;
  match conds s !! c with
  | None => Err BadAddr
  | Some ws =>
    t ← thread_current s;
    let s := sema_init (WaiterSema t) 0 s in
    let s := set_conds (<[c := ws ++ [t]]> (conds s)) s in
    Ok (push [LockRelease l; SemaDown (WaiterSema t); LockAcquire l] s)
  end.

Definition cond_signal (c : Z) (l : lock_id) (s : kstate) : res kstate :=
  assert_res (negb (intr_context s));;
  held ← lock_held_by_current_thread l s;
  assert_res held;;
  match conds s !! c with
  | None => Err BadAddr
  | Some [] => Ok s
  | Some (w :: ws) =>
    Ok (push [SemaUp (WaiterSema w)] (set_conds (<[c := ws]> (conds s)) s))
  end.

Definition cond_broadcast (c : Z) (l : lock_id) (s : kstate) : res kstate :=
  match conds s !! c with
  | None => Err BadAddr
  | Some [] => Ok s
  | Some _ => Ok (push [CondSignal c l; CondBroadcast c l] s)
  end.

End Synch.
