(* ===== verification/ThreadLife.v ===== *)
(** threads/thread.c: [do_schedule] and what is built on it - yielding, exit,
    creation, the idle thread and the start of the system. *)
From S2P Require Import Prelude KState Interrupt Threads Synch.
Import KState Interrupt Threads Synch.
Local Open Scope Z_scope.

Module ThreadLife.

Section layout.
Context `{Layout}.

(** [palloc_free_page (victim)] called with interrupts off.  When the pool's
    lock is free, [lock_acquire] does not block and the whole call is one step;
    otherwise [lock_acquire] and the rest are frames. *)
Definition palloc_free_page_off (victim : Z) (rest : list frame) (s : kstate) : res kstate :=
  s ← palloc_free_check victim s;
  match semas s !! LockSema PoolLock with
  | None => Err BadAddr
  | Some sm =>
    if decide (value sm = 0) then
      Ok (push ([LockAcquire PoolLock; PallocClear victim; LockRelease PoolLock] ++ rest) s)
    else
      held ← lock_held_by_current_thread PoolLock s;
      assert_res (negb held);;
      let s := upd_sema (LockSema PoolLock)
                 (λ sm, Semaphore (u32 (value sm - 1)) (waiters sm)) s in
      s ← lock_acquire_set PoolLock s;
      s ← palloc_clear victim s;
      s ← sema_up (LockSema PoolLock) (set_holder PoolLock NULL s);
      Ok (push rest s)
  end.

(** [do_schedule], one iteration of its loop, or the switch after the loop. *)
Definition do_schedule (st : thread_status) (s : kstate) : res kstate :=
  assert_res (bool_decide (intr_get_level s = INTR_OFF));;
  t ← thread_current s;
  match destruction_req s with
  | victim :: r => palloc_free_page_off victim [DoSchedule st] (set_destruction_req r s)
  | [] => schedule (upd_thread t (set_status st) s)
  end.

Definition thread_yield (s : kstate) : res kstate :=
  curr ← thread_current s;
  assert_res (negb (intr_context s));;
  let '(old_level, s) := intr_disable s in
  let s := if decide (curr ≠ idle_thread s)
           then set_ready_list (ready_list s ++ [curr]) s else s in
  Ok (push [DoSchedule THREAD_READY; SetLevel old_level] s).

Definition thread_exit (s : kstate) : res kstate :=
  assert_res (negb (intr_context s));;
  let '(_, s) := intr_disable s in
  Ok (push [DoSchedule THREAD_DYING; NotReached] s).

Definition thread_set_priority (p : Z) (s : kstate) : res kstate :=
  t ← thread_current s; Ok (upd_thread t (set_priority p) s).

(** The field [f] of the running thread. *)
Definition current_field {A} (f : thread → A) (s : kstate) : res A :=
  t ← thread_current s; match threads s !! t with Some th => Ok (f th) | None => Err BadAddr end.
Definition thread_name (s : kstate) : res string := current_field name s.
Definition thread_tid (s : kstate) : res Z := current_field tid s.
Definition thread_get_priority (s : kstate) : res Z := current_field priority s.

(** The four functions of the advanced scheduler are not implemented. *)
Definition thread_set_nice (nice : Z) (s : kstate) : res kstate := Ok s.
Definition thread_get_nice (s : kstate) : res Z := Ok 0.
Definition thread_get_load_avg (s : kstate) : res Z := Ok 0.
Definition thread_get_recent_cpu (s : kstate) : res Z := Ok 0.

(** ** Creation

    [thread_create] as its caller's frames: take the pool lock, scan, release,
    initialise, take the tid lock, read [next_tid], release, unblock. *)

Definition thread_create (nm : string) (p : Z) (f : thread_func) (s : kstate) : res kstate :=
  Ok (push [LockAcquire PoolLock; CreateScan nm p f] s).

(** [palloc_get_page (PAL_ZERO)] with the lock held; no page is TID_ERROR. *)
Definition create_scan (nm : string) (p : Z) (f : thread_func) (s : kstate) : res kstate :=
  match scan_and_flip (used_map s) with
  | None => Ok (push [LockRelease PoolLock] s)
  | Some (i, m) =>
    Ok (push [LockRelease PoolLock; CreateInit (page_addr i) nm p f] (set_used_map m s))
  end.

(** [init_thread]; [strlcpy] keeps 15 characters of the name. *)
Definition init_thread (t : Z) (nm : string) (p : Z) (s : kstate) : res kstate :=
  assert_res (bool_decide (t ≠ NULL));;
  assert_res (bool_decide (PRI_MIN ≤ p ∧ p ≤ PRI_MAX));;
  Ok (set_threads
        (<[t := Thread 0 THREAD_BLOCKED (String.substring 0 15 nm) p 0 INTR_OFF []]> (threads s)) s).

Definition create_init (t : Z) (nm : string) (p : Z) (f : thread_func) (s : kstate) : res kstate :=
  s ← init_thread t nm p s;
  Ok (push [LockAcquire TidLock; CreateTid t f] s).

(** [allocate_tid] with the lock held. *)
Definition create_tid (t : Z) (f : thread_func) (s : kstate) : res kstate :=
  let id := next_tid s in
  Ok (push [LockRelease TidLock; CreateFinish t id f] (set_next_tid (i32 (id + 1)) s)).

Definition create_finish (t id : Z) (f : thread_func) (s : kstate) : res kstate :=
  let s := upd_thread t (set_tid id) s in
  let s := upd_thread t (set_stack [KernelThread f]) s in
  let s := upd_thread t (set_tf_if INTR_ON) s in
  thread_unblock t s.

Definition body (f : thread_func) : frame :=
  match f with F_idle => Idle | F_client => Client end.

Definition kernel_thread (f : thread_func) (s : kstate) : res kstate :=
  '(_, s) ← intr_enable s; Ok (push [body f; ThreadExit] s).

(** ** The idle thread *)

Definition idle (s : kstate) : res kstate :=
  t ← thread_current s;
  Ok (push [SemaUp IdleStarted; IdleLoop] (set_idle_thread t s)).

Definition idle_loop (s : kstate) : res kstate :=
  let '(_, s) := intr_disable s in thread_block (push [StiHlt] s).

(** [sti] takes effect after the [hlt] that follows it. *)
Definition sti_hlt (s : kstate) : res kstate :=
  Ok (push [Hlt; IdleLoop] (set_if_flag INTR_ON s)).

(** ** Start of the system *)

Definition thread_start (s : kstate) : res kstate :=
  let s := sema_init IdleStarted 0 s in
  Ok (push [ThreadCreate "idle" PRI_MIN F_idle; SetLevel INTR_ON; SemaDown IdleStarted] s).

(** The statics as the loader leaves them, [used_map] as [palloc_init] does. *)
Definition boot_state (sp : Z) (pages : list bool) : kstate :=
  KState ∅ sp [] [] [] NULL NULL INT64_MAX 1 0 0 0 INTR_OFF false false 0 ∅ ∅ ∅ pages.

(** [thread_init] followed by the [lock_init] of the kernel pool; its
    uncontended [allocate_tid] takes the first tid. *)
Definition thread_init (s : kstate) : res kstate :=
  assert_res (bool_decide (intr_get_level s = INTR_OFF));;
  let s := lock_init TidLock s in
  let s := set_destruction_req [] (set_ready_list [] s) in
  let s := set_sleep_list [] s in
  let t := running_thread s in
  let s := set_initial_thread t s in
  s ← init_thread t "main" PRI_DEFAULT s;
  let s := upd_thread t (set_status THREAD_RUNNING) s in
  let id := next_tid s in
  let s := upd_thread t (set_tid id) (set_next_tid (i32 (id + 1)) s) in
  Ok (lock_init PoolLock s).

End layout.
End ThreadLife.
