(* ===== verification/Timer.v ===== *)
(** devices/timer.c: the tick counter, the timer interrupt, sleeping for ticks
    and for real time. *)
From S2P Require Import Prelude KState Interrupt Threads.
Import KState Interrupt Threads.
Local Open Scope Z_scope.

Module Timer.

Definition TIMER_FREQ : Z := 100.

Definition timer_ticks (s : kstate) : res (Z * kstate) :=
  let '(old_level, s) := intr_disable s in
  let t := ticks s in
  '(_, s) ← intr_set_level old_level s;
  Ok (t, s).

Definition timer_elapsed (thn : Z) (s : kstate) : res (Z * kstate) :=
  '(t, s) ← timer_ticks s; Ok (i64 (t - thn), s).

(** [thread_sleep (ticks)] follows as a frame: the thread can be preempted
    before it disables interrupts. *)
Definition timer_sleep (n : Z) (s : kstate) : res kstate :=
  '(start, s) ← timer_ticks s;
  assert_res (bool_decide (intr_get_level s = INTR_ON));;
  Ok (push [ThreadSleep (i64 (start + n))] s).

Section layout.
Context `{Layout}.

Definition timer_interrupt (s : kstate) : res kstate :=
  let s := set_ticks (i64 (ticks s + 1)) s in
  s ← thread_tick s;
  thread_wakeup (ticks s) s.

End layout.

(** [real_time_sleep]: the ticks to sleep, or the iterations [busy_wait] is
    called for.  C division truncates. *)
Inductive delay := SleepTicks (n : Z) | BusyWait (loops : Z).

Definition real_time_sleep (loops_per_tick num denom : Z) (lvl : intr_level) : res delay :=
  let n := Z.quot (i64 (num * TIMER_FREQ)) denom in
  assert_res (bool_decide (lvl = INTR_ON));;
  if n >? 0 then Ok (SleepTicks n)
  else
    assert_res (Z.rem denom 1000 =? 0);;
    Ok (BusyWait (Z.quot (i64 (Z.quot (i64 (loops_per_tick * num)) 1000 * TIMER_FREQ))
                         (Z.quot denom 1000))).

Definition timer_msleep (lpt ms : Z) (lvl : intr_level) : res delay :=
  real_time_sleep lpt ms 1000 lvl.
Definition timer_usleep (lpt us : Z) (lvl : intr_level) : res delay :=
  real_time_sleep lpt us 1000000 lvl.
Definition timer_nsleep (lpt ns : Z) (lvl : intr_level) : res delay :=
  real_time_sleep lpt ns 1000000000 lvl.

End Timer.
