(* ===== verification/TimerDelay.v ===== *)
(** devices/timer.c: the delay loop and its calibration against the hardware
    timer.

    The state is the time, in iterations of a loop around a barrier;
    [ticks_at] is what the variable [ticks] holds at a time, which the timer
    interrupt increments meanwhile.  [patience] is how many iterations a loop
    that waits for a tick may take: the theorems hold for any number above the
    length of a tick. *)
From S2P Require Import Prelude KState Interrupt Timer.
Import KState Interrupt Timer.
Local Open Scope Z_scope.

Module TimerDelay.

Section clock.
Context (ticks_at : Z → Z) (patience : nat).

Definition barrier : st Z unit := st_modify (λ t, t + 1).
Definition read_ticks : st Z Z := st_gets ticks_at.

(** [while (loops-- > 0) barrier ();] *)
Fixpoint delay_loop (loops : nat) : st Z unit :=
  match loops with O => mret tt | S loops => barrier;; delay_loop loops end.
Definition busy_wait (loops : Z) : st Z unit := delay_loop (Z.to_nat loops).

Fixpoint await_tick (fuel : nat) (start : Z) : st Z unit :=
  match fuel with
  | O => st_err NoFuel
  | S fuel => now ← read_ticks; if now =? start then barrier;; await_tick fuel start else mret tt
  end.

Definition too_many_loops (loops : Z) : st Z bool :=
  start ← read_ticks;
  await_tick patience start;;
  start ← read_ticks;
  busy_wait loops;;
  now ← read_ticks;
  mret (negb (start =? now)).

(** The doubling loop ends after at most 22 rounds, by its ASSERT. *)
Fixpoint calibrate_double (fuel : nat) (loops_per_tick : Z) : st Z Z :=
  match fuel with
  | O => st_err NoFuel
  | S fuel =>
    b ← too_many_loops (u32 (loops_per_tick * 2));
    if b : bool then mret loops_per_tick
    else
      let loops_per_tick := u32 (loops_per_tick * 2) in
      ASSERT (negb (loops_per_tick =? 0));;
      calibrate_double fuel loops_per_tick
  end.

Fixpoint calibrate_refine (fuel : nat) (high_bit test_bit loops_per_tick : Z) : st Z Z :=
  match fuel with
  | O => st_err NoFuel
  | S fuel =>
    if test_bit =? Z.shiftr high_bit 10 then mret loops_per_tick
    else
      b ← too_many_loops (Z.lor high_bit test_bit);
      calibrate_refine fuel high_bit (Z.shiftr test_bit 1)
        (if b : bool then loops_per_tick else Z.lor loops_per_tick test_bit)
  end.

(** The two messages are left out. *)
Definition timer_calibrate (lvl : intr_level) : st Z Z :=
  ASSERT (bool_decide (lvl = INTR_ON));;
  lpt ← calibrate_double 23 (Z.shiftl 1 10);
  calibrate_refine 10 lpt (Z.shiftr lpt 1) lpt.

(** ** A timer that ticks every [P] iterations *)

Context (P base phase : Z).
Hypothesis Hclock : ∀ t, ticks_at t = base + (t + phase) / P.
Hypothesis HP : 0 < P.
Hypothesis Hpatience : P < Z.of_nat patience.

Lemma delay_loop_ok n t : delay_loop n t = Ok (tt, t + Z.of_nat n).
Proof.
  revert t. induction n as [|n IH]; intros t; cbn [delay_loop]; [by rewrite Z.add_0_r|].
  rewrite (st_bind_ok barrier _ _ tt (t + 1)) by done. rewrite IH. do 2 f_equal. lia.
Qed.

Lemma busy_wait_ok n t : 0 ≤ n → busy_wait n t = Ok (tt, t + n).
Proof. intros Hn. unfold busy_wait. by rewrite delay_loop_ok, Z2Nat.id. Qed.

(** Waiting ends at the start of the next tick. *)
Lemma await_tick_ok k t : 0 < k ≤ P → (t + phase) mod P = P - k → ∀ fuel, k < Z.of_nat fuel →
  await_tick fuel (ticks_at t) t = Ok (tt, t + k).
Proof.
  intros Hk Hm. assert (Hq : t + phase = P * ((t + phase) / P) + (P - k)) by (rewrite <- Hm; apply Z.div_mod; lia).
  set (q := (t + phase) / P) in *.
  assert (Hgen : ∀ j fuel, (0 ≤ j ≤ k) → j < Z.of_nat fuel → await_tick fuel (base + q) (t + k - j) = Ok (tt, t + k)).
  { intros j fuel [Hj Hjk]. revert fuel Hjk. pattern j. apply natlike_ind; [| |done].
    - intros [|fuel] _ Hf; [lia|]. cbn [await_tick]. rewrite (st_bind_ok read_ticks _ _ (ticks_at (t + k - 0)) (t + k - 0)) by done.
      rewrite Hclock. replace ((t + k - 0 + phase) / P) with (q + 1) by (apply Z.div_unique with 0; lia).
      rewrite (proj2 (Z.eqb_neq _ _)) by lia. by rewrite Z.sub_0_r.
    - clear j Hj. intros j Hj IH [|fuel] Hjk Hf; [lia|]. cbn [await_tick].
      rewrite (st_bind_ok read_ticks _ _ (ticks_at (t + k - Z.succ j)) (t + k - Z.succ j)) by done. rewrite Hclock.
      replace ((t + k - Z.succ j + phase) / P) with q by (apply Z.div_unique with (P - Z.succ j); lia). rewrite Z.eqb_refl.
      rewrite (st_bind_ok barrier _ _ tt (t + k - j)) by (unfold barrier, st_modify; do 2 f_equal; lia). apply IH; lia. }
  intros fuel Hf. rewrite Hclock. fold q. rewrite <- (Hgen k fuel) by lia. f_equal. lia.
Qed.

(** [too_many_loops] returns, and true exactly when the loop takes a whole tick. *)
Lemma too_many_loops_ok loops t : 0 ≤ loops → ∃ t', too_many_loops loops t = Ok (P <=? loops, t').
Proof.
  intros Hl. set (k := P - (t + phase) mod P). pose proof (Z.mod_pos_bound (t + phase) P HP) as Hb.
  exists (t + k + loops). unfold too_many_loops. rewrite (st_bind_ok read_ticks _ _ (ticks_at t) t) by done.
  rewrite (st_bind_ok _ _ _ _ _ (await_tick_ok k t ltac:(lia) ltac:(unfold k; lia) patience ltac:(lia))).
  rewrite (st_bind_ok read_ticks _ _ (ticks_at (t + k)) (t + k)) by done. rewrite (st_bind_ok _ _ _ _ _ (busy_wait_ok loops (t + k) Hl)).
  rewrite (st_bind_ok read_ticks _ _ (ticks_at (t + k + loops)) (t + k + loops)) by done. unfold mret, st_ret. do 2 f_equal.
  rewrite !Hclock. assert (Hq : t + k + phase = P * ((t + phase) / P + 1) + 0) by (pose proof (Z.div_mod (t + phase) P); unfold k; lia).
  set (q := (t + phase) / P + 1) in *.
  replace ((t + k + phase) / P) with q by (apply Z.div_unique with 0; lia).
  replace ((t + k + loops + phase) / P) with (q + loops / P) by (replace (t + k + loops + phase) with (loops + q * P) by lia; rewrite Z.div_add by lia; lia).
  destruct (Z.leb_spec P loops) as [H|H].
  - assert (1 ≤ loops / P) by (apply Z.div_le_lower_bound; lia). rewrite (proj2 (Z.eqb_neq _ _)) by lia. done.
  - rewrite Z.div_small by lia. by rewrite Z.add_0_r, Z.eqb_refl.
Qed.

(** The largest power of two below a tick. *)
Lemma calibrate_double_ok n : ∀ e fuel t, 10 ≤ e → e + Z.of_nat n = 31 → (n < fuel)%nat → 2 ^ e < P ≤ 2 ^ 31 →
  ∃ h t', calibrate_double fuel (2 ^ e) t = Ok (2 ^ h, t') ∧ 10 ≤ h < 31 ∧ 2 ^ h < P ≤ 2 ^ (h + 1).
Proof.
  induction n as [|n IH]; intros e fuel t He Hn Hf HPe; [replace e with 31 in HPe by lia; lia|].
  destruct fuel as [|fuel]; [lia|]. cbn [calibrate_double].
  assert (Hdouble : 2 ^ e * 2 = 2 ^ (e + 1)) by (rewrite Z.pow_add_r by lia; lia).
  assert (Hlt : 0 < 2 ^ (e + 1) < 2 ^ 32) by (split; [apply Z.pow_pos_nonneg; lia|apply Z.pow_lt_mono_r; lia]).
  rewrite Hdouble. rewrite u32_small by lia.
  destruct (too_many_loops_ok (2 ^ (e + 1)) t ltac:(lia)) as (t1 & Ht1). rewrite (st_bind_ok _ _ _ _ _ Ht1).
  destruct (Z.leb_spec P (2 ^ (e + 1))) as [Hle|Hgt]; [exists e, t1; split_and!; done || lia|].
  cbv zeta. rewrite (st_bind_ok (ASSERT _) _ _ tt t1) by (rewrite (proj2 (Z.eqb_neq _ _)) by lia; done).
  apply IH; lia.
Qed.

(** Adding bits below the highest one keeps it the highest. *)
Lemma lor_below h a b : 0 ≤ h → 2 ^ h ≤ a < 2 ^ (h + 1) → 0 ≤ b < 2 ^ h → 2 ^ h ≤ Z.lor a b < 2 ^ (h + 1).
Proof.
  intros Hh Ha Hb. assert (Hp : 0 < 2 ^ h) by (apply Z.pow_pos_nonneg; lia). split.
  - assert (0 ≤ a ≤ Z.lor a b); [|lia]. apply Z.ldiff_le; [apply Z.lor_nonneg; lia|]. apply Z.bits_inj'. intros i Hi.
    rewrite Z.ldiff_spec, Z.lor_spec, Z.bits_0. by destruct (Z.testbit a i).
  - apply Z.log2_lt_cancel. rewrite Z.log2_pow2 by lia. rewrite Z.log2_lor by lia. apply Z.max_lub_lt.
    + apply Z.log2_lt_pow2; lia.
    + destruct (decide (b = 0)) as [->|]; [simpl; lia|]. apply Z.log2_lt_pow2; [lia|]. rewrite Z.pow_add_r by lia. lia.
Qed.

Lemma calibrate_refine_ok fuel : ∀ h k l t, 10 ≤ h → (fuel + k = 10)%nat → (1 ≤ fuel)%nat → 2 ^ h ≤ l < 2 ^ (h + 1) →
  ∃ r t', calibrate_refine fuel (2 ^ h) (2 ^ (h - 1 - Z.of_nat k)) l t = Ok (r, t') ∧ 2 ^ h ≤ r < 2 ^ (h + 1).
Proof.
  induction fuel as [|fuel IH]; intros h k l t Hh Hk Hf Hl; [lia|]. cbn [calibrate_refine].
  rewrite Z.shiftr_div_pow2 by lia. rewrite <- Z.pow_sub_r by lia.
  destruct (decide (k = 9)%nat) as [->|Hk9].
  { replace (h - 1 - Z.of_nat 9) with (h - 10) by lia. rewrite Z.eqb_refl. by exists l, t. }
  assert (Hlt : 2 ^ (h - 10) < 2 ^ (h - 1 - Z.of_nat k)) by (apply Z.pow_lt_mono_r; lia).
  rewrite (proj2 (Z.eqb_neq _ _)) by lia.
  destruct (too_many_loops_ok (Z.lor (2 ^ h) (2 ^ (h - 1 - Z.of_nat k))) t) as (t1 & Ht1).
  { apply Z.lor_nonneg. split; apply Z.pow_nonneg; lia. }
  rewrite (st_bind_ok _ _ _ _ _ Ht1). rewrite Z.shiftr_div_pow2 by lia. rewrite <- Z.pow_sub_r by lia.
  replace (h - 1 - Z.of_nat k - 1) with (h - 1 - Z.of_nat (S k)) by lia. apply IH; try lia.
  destruct (P <=? _); [done|]. apply lor_below; [lia|done|]. split; [apply Z.pow_nonneg; lia|apply Z.pow_lt_mono_r; lia].
Qed.

Lemma timer_calibrate_ok t : 2 ^ 10 < P ≤ 2 ^ 31 →
  ∃ lpt t', timer_calibrate INTR_ON t = Ok (lpt, t') ∧ P ≤ 2 * lpt ∧ lpt < 2 * P ∧ 0 < lpt < 2 ^ 31.
Proof.
  intros HP2. unfold timer_calibrate. rewrite (st_bind_ok (ASSERT _) _ _ tt t) by done.
  destruct (calibrate_double_ok 21 10 23 t) as (h & t1 & Hd & Hh & Hb); [lia..|]. change (Z.shiftl 1 10) with (2 ^ 10).
  rewrite (st_bind_ok _ _ _ _ _ Hd). rewrite Z.shiftr_div_pow2 by lia. rewrite <- Z.pow_sub_r by lia.
  assert (Hpow : 2 ^ (h + 1) = 2 * 2 ^ h) by (rewrite Z.pow_add_r by lia; lia).
  assert (Hpos : 0 < 2 ^ h) by (apply Z.pow_pos_nonneg; lia).
  assert (H31 : 2 ^ (h + 1) ≤ 2 ^ 31) by (apply Z.pow_le_mono_r; lia).
  destruct (calibrate_refine_ok 10 h 0 (2 ^ h) t1) as (r & t2 & Hr & Hrb); [lia..|].
  rewrite Z.sub_0_r in Hr. exists r, t2. split; [exact Hr|]. lia.
Qed.

(** C34: [timer_calibrate] returns and its number of loops for a tick is right within a
    factor of two, so that a delay below one tick lasts at least half of the
    time asked for, up to two iterations of rounding, and less than twice it:
    [P] iterations are a tick of 10 ms, so that [us] microseconds are
    [P * us / 10000] of them. *)
Theorem calibrated_delays t us : 2 ^ 10 < P ≤ 2 ^ 31 → 0 < us < 10000 →
  ∃ lpt t1, timer_calibrate INTR_ON t = Ok (lpt, t1)
    ∧ ∃ loops t2, timer_usleep lpt us INTR_ON = Ok (BusyWait loops) ∧ busy_wait loops t1 = Ok (tt, t2)
      ∧ P * us ≤ 2 * 10000 * (t2 - t1 + 2) ∧ 10000 * (t2 - t1) < 2 * P * us.
Proof.
  intros HP2 Hus. destruct (timer_calibrate_ok t HP2) as (lpt & t1 & Hc & H1 & H2 & H3). exists lpt, t1. split; [exact Hc|].
  assert (Hmul : 0 < lpt * us < 2 ^ 31 * 10000) by nia.
  unfold timer_usleep, real_time_sleep, TIMER_FREQ. rewrite (i64_small (us * 100)) by lia. rewrite Z.quot_small by lia.
  rewrite (i64_small (lpt * us)) by lia. rewrite (Z.quot_div_nonneg (lpt * us) 1000) by lia.
  pose proof (Z.div_mod (lpt * us) 1000 ltac:(lia)) as Hd1. pose proof (Z.mod_pos_bound (lpt * us) 1000 ltac:(lia)) as Hm1.
  set (q := lpt * us / 1000) in *. rewrite (i64_small (q * 100)) by lia. change (Z.quot 1000000 1000) with 1000. rewrite (Z.quot_div_nonneg (q * 100) 1000) by lia.
  pose proof (Z.div_mod (q * 100) 1000 ltac:(lia)) as Hd2. pose proof (Z.mod_pos_bound (q * 100) 1000 ltac:(lia)) as Hm2.
  set (loops := q * 100 / 1000) in *. exists loops, (t1 + loops). split; [done|]. split; [apply busy_wait_ok; lia|]. nia.
Qed.

End clock.

Lemma calibrated_delays_witness :
  ∃ lpt t1, timer_calibrate (λ t, 7 + (t + 5) / 1400) 1500 INTR_ON 0 = Ok (lpt, t1) ∧ 700 ≤ lpt < 2800.
Proof.
  destruct (calibrated_delays (λ t, 7 + (t + 5) / 1400) 1500 1400 7 5 ltac:(reflexivity) ltac:(lia) ltac:(lia) 0 500 ltac:(lia) ltac:(lia))
    as (lpt & t1 & Hc & _). exists lpt, t1. split; [exact Hc|]. vm_compute in Hc. injection Hc as <- _. lia.
Defined.

(** Each bit is tried without the bits already accepted: the number of loops
    exceeds the length of a tick. *)
Example calibration_overshoots :
  match timer_calibrate (λ t, t / 1400) 1500 INTR_ON 0 with Ok (lpt, _) => lpt = 1534 | Err _ => False end.
Proof. vm_compute. done. Qed.

End TimerDelay.
