(* ===== verification/Machine.v ===== *)
(** The kernel as a machine: the running thread executes the frames of its
    stack one by one, other kernel code calls the functions of the modelled
    files, and the timer interrupts whenever interrupts are enabled. *)
From S2P Require Import Prelude KState Interrupt Threads Synch ThreadLife Timer.
Import KState Interrupt Threads Synch ThreadLife Timer.
Local Open Scope Z_scope.

Module Machine.

Section layout.
Context `{Layout}.

(** Runs one frame, already popped from the running thread's stack. *)
Definition exec (f : frame) (s : kstate) : res kstate :=
  match f with
  | SemaDown i => sema_down i s
  | SemaDownLoop i => sema_down_loop i s
  | SemaTryDown i => '(_, s) ← sema_try_down i s; Ok s
  | SemaUp i => sema_up i s
  | LockAcquire l => lock_acquire l s
  | LockAcquireSet l => lock_acquire_set l s
  | LockTryAcquire l => '(_, s) ← lock_try_acquire l s; Ok s
  | LockRelease l => lock_release l s
  | CondWait c l => cond_wait c l s
  | CondSignal c l => cond_signal c l s
  | CondBroadcast c l => cond_broadcast c l s
  | SetLevel v => '(_, s) ← intr_set_level v s; Ok s
  | Iret => Ok (set_if_flag INTR_ON s)
  | ThreadYield => thread_yield s
  | ThreadExit => thread_exit s
  | DoSchedule st => do_schedule st s
  | NotReached => Err PanicCall
  | ThreadSleep n => thread_sleep n s
  | SleepDone v => '(_, s) ← intr_set_level v s; Ok s
  | ThreadSetPriority p => thread_set_priority p s
  | ThreadStart => thread_start s
  | ThreadCreate nm p f => thread_create nm p f s
  | CreateScan nm p f => create_scan nm p f s
  | CreateInit t nm p f => create_init t nm p f s
  | CreateTid t f => create_tid t f s
  | CreateFinish t id f => create_finish t id f s
  | KernelThread f => kernel_thread f s
  | Idle => idle s
  | IdleLoop => idle_loop s
  | StiHlt => sti_hlt s
  | Hlt => Ok (push [Hlt] s)
  | PallocClear p => palloc_clear p s
  | TimerSleep n => timer_sleep n s
  | Client => Ok (push [Client] s)
  end.

(** [LExec] runs the next frame of the running thread; [LInit o], [LCall f] and
    [LReturn] are what other kernel code ([Client]) does next: initialise a
    synchronisation object, call a function, return; [LTimer] is the timer. *)
Inductive object := OSema (a v : Z) | OLock (a : Z) | OCond (c : Z).
Inductive label := LExec | LInit (o : object) | LCall (f : frame) | LReturn | LTimer.

Definition init_object (o : object) (s : kstate) : kstate :=
  match o with
  | OSema a v => sema_init (Sema a) v s
  | OLock a => lock_init (UserLock a) s
  | OCond c => cond_init c s
  end.

Definition cur_stack (s : kstate) : list frame :=
  default [] (stack <$> threads s !! current s).

Definition set_cur_stack (fs : list frame) (s : kstate) : kstate :=
  upd_thread (current s) (set_stack fs) s.

(** The interrupt wakes a halted processor and clears the flag. *)
Definition timer_entry (s : kstate) : kstate :=
  set_if_flag INTR_OFF
    match cur_stack s with Hlt :: r => set_cur_stack r s | _ => s end.

(** [None] when the label is not enabled. *)
Definition step (l : label) (s : kstate) : option (res kstate) :=
  match l, cur_stack s with
  | LExec, f :: r => Some (exec f (set_cur_stack r s))
  | LInit o, Client :: _ => Some (Ok (init_object o s))
  | LCall f, Client :: _ => Some (Ok (push [f] s))
  | LReturn, Client :: r => Some (Ok (set_cur_stack r s))
  | LTimer, _ =>
    match if_flag s with
    | INTR_ON => Some (intr_handler timer_interrupt (timer_entry s))
    | INTR_OFF => None
    end
  | _, _ => None
  end.

Fixpoint run (ls : list label) (s : kstate) : option (res kstate) :=
  match ls with
  | [] => Some (Ok s)
  | l :: ls =>
    match step l s with
    | Some (Ok s) => run ls s
    | r => r
    end
  end.

(** [init.c]'s [main] up to the return of [thread_start]. *)
Definition boot (sp : Z) (pages : list bool) : res kstate :=
  s ← thread_init (boot_state sp pages);
  Ok (set_cur_stack [ThreadStart; Client; ThreadExit] s).

End layout.
End Machine.
