(* ===== verification/KInv.v ===== *)
(** The invariant of the threading system.

    [lvl_ok], [hold_ok] and [shape] type a kernel stack: the interrupt level,
    the locks held and the nesting each frame relies on.  [inv] relates the
    lists, the thread states, the locks' tokens and the pages. *)
From S2P Require Import Prelude KState Interrupt Threads Synch ThreadLife Timer Machine.
Import KState Interrupt Threads Synch ThreadLife Timer Machine.
Local Open Scope Z_scope.

Module KInv.

(** ** Typing of stacks *)

(** [lvl_ok v fs]: the frames can run from interrupt level [v]. *)
Fixpoint lvl_ok (v : intr_level) (fs : list frame) : Prop :=
  match fs with
  | [] => True
  | SetLevel w :: r => lvl_ok w r
  | SleepDone w :: r => v = INTR_OFF ∧ lvl_ok w r
  | Iret :: r => v = INTR_OFF ∧ lvl_ok INTR_ON r
  | SemaDownLoop _ :: r => v = INTR_OFF ∧ lvl_ok INTR_OFF r
  | DoSchedule THREAD_READY :: r => v = INTR_OFF ∧ lvl_ok INTR_OFF r
  | DoSchedule THREAD_DYING :: r => v = INTR_OFF ∧ ∃ q, r = NotReached :: q
  | DoSchedule _ :: _ => False
  | ThreadExit :: _ | KernelThread F_client :: _ | IdleLoop :: _ => True
  | StiHlt :: _ => v = INTR_OFF
  | Hlt :: r => v = INTR_ON ∧ lvl_ok INTR_ON r
  | TimerSleep _ :: r => v = INTR_ON ∧ lvl_ok INTR_ON r
  | Client :: r => lvl_ok INTR_OFF r ∧ lvl_ok INTR_ON r
  | (NotReached | KernelThread F_idle | Idle | ThreadStart | PallocClear _
     | ThreadCreate _ _ F_idle | CreateScan _ _ F_idle | CreateInit _ _ _ F_idle
     | CreateTid _ F_idle | CreateFinish _ _ F_idle) :: _ => False
  | _ :: r => lvl_ok v r
  end.

Definition internal (l : lock_id) : Prop :=
  match l with UserLock _ => False | _ => True end.
#[export] Instance internal_dec l : Decision (internal l).
Proof. destruct l; simpl; apply _. Defined.

(** [hold_ok l h fs]: the frames can run when the thread's being the holder of
    [l] is [h].  Code that never returns, and code outside the modelled files,
    must not hold the locks of thread.c and palloc.c. *)
Fixpoint hold_ok (l : lock_id) (h : bool) (fs : list frame) : Prop :=
  match fs with
  | [] => internal l → h = false
  | f :: r =>
    match f with
    | LockAcquire k | LockAcquireSet k =>
      if decide (k = l) then h = false ∧ hold_ok l true r else hold_ok l h r
    | LockTryAcquire k =>
      if decide (k = l) then h = false ∧ hold_ok l true r ∧ hold_ok l false r
      else hold_ok l h r
    | LockRelease k =>
      if decide (k = l) then h = true ∧ hold_ok l false r else hold_ok l h r
    | CondWait _ k | CondSignal _ k | CondBroadcast _ k =>
      if decide (k = l) then h = true ∧ hold_ok l true r else hold_ok l h r
    | CreateScan _ _ _ =>
      (l = PoolLock → h = true) ∧ (l = TidLock → h = false)
      ∧ hold_ok l (if decide (l = PoolLock) then false else h) r
    | CreateTid _ _ =>
      (l = TidLock → h = true) ∧ hold_ok l (if decide (l = TidLock) then false else h) r
    | ThreadCreate _ _ _ | CreateInit _ _ _ _ => (internal l → h = false) ∧ hold_ok l h r
    | Client =>
      match l with
      | UserLock _ => ∀ h', hold_ok l h' r
      | _ => h = false ∧ hold_ok l false r
      end
    | ThreadExit | DoSchedule THREAD_DYING | KernelThread _ | IdleLoop | StiHlt =>
      internal l → h = false
    | _ => hold_ok l h r
    end
  end.

(** The lock tokens a stack accounts for beside [holder]: a semaphore taken
    whose holder is not recorded yet, or a holder cleared whose semaphore is
    not up yet. *)
Fixpoint cnt (l : lock_id) (fs : list frame) : nat :=
  match fs with
  | [] => 0
  | f :: r =>
    match f with
    | SemaDown (LockSema k) | SemaDownLoop (LockSema k) =>
      if decide (k = l) then pred (cnt l r) else cnt l r
    | LockAcquireSet k | SemaUp (LockSema k) =>
      if decide (k = l) then S (cnt l r) else cnt l r
    | ThreadExit | NotReached | DoSchedule THREAD_DYING | KernelThread _
    | IdleLoop | StiHlt | Client => 0
    | _ => cnt l r
    end
  end.

(** The page of the thread a stack is creating, and whether the thread
    structure is set up in it. *)
Fixpoint pend (fs : list frame) : option (Z * bool) :=
  match fs with
  | [] => None
  | CreateInit t _ _ _ :: _ => Some (t, false)
  | (CreateTid t _ | CreateFinish t _ _) :: _ => Some (t, true)
  | _ :: r => pend r
  end.

(** The stack of the idle thread once it has blocked for the first time. *)
Fixpoint idle_stack (fs : list frame) : Prop :=
  match fs with
  | (IdleLoop | StiHlt) :: _ => True
  | (Hlt | Iret | ThreadYield | DoSchedule THREAD_READY | SetLevel _) :: r => idle_stack r
  | _ => False
  end.

Definition local_shape (idl t : Z) (f : frame) (r : list frame) : Prop :=
  match f with
  | SemaDown (LockSema l) => ∃ q, r = LockAcquireSet l :: q
  | SemaDownLoop (LockSema l) => ∃ v q, r = SetLevel v :: LockAcquireSet l :: q
  | SemaDown (WaiterSema w) | SemaDownLoop (WaiterSema w) => w = t
  | SemaTryDown (LockSema _ | WaiterSema _) => False
  | SemaDown IdleStarted | SemaDownLoop IdleStarted => False
  | ThreadCreate _ p _ | CreateScan _ p _ => (PRI_MIN ≤ p ∧ p ≤ PRI_MAX) ∧ pend r = None
  | CreateInit _ _ p _ => (PRI_MIN ≤ p ∧ p ≤ PRI_MAX) ∧ pend r = None
  | CreateTid _ _ | CreateFinish _ _ _ | KernelThread _ => pend r = None
  | Client => pend r = None ∧ ∃ q, r = ThreadExit :: q
  | CondWait _ l | LockTryAcquire l => ¬ internal l
  | IdleLoop | StiHlt => t = idl
  | DoSchedule THREAD_READY => ∃ v q, r = SetLevel v :: q
  | _ => True
  end.

(** Interrupts are off in [do_schedule], so nothing is ever above it. *)
Definition no_sched (fs : list frame) : Prop :=
  match fs with DoSchedule _ :: _ => False | _ => True end.

Fixpoint shape (idl t : Z) (fs : list frame) : Prop :=
  match fs with [] => True | f :: r => local_shape idl t f r ∧ no_sched r ∧ shape idl t r end.

(** ** Where a thread's [elem] is *)

Inductive place :=
  | PRun | PReady | PSema (i : sema_id) | PSleep | PIdle | PNew | PDead | PGone | PBad.
#[export] Instance place_eq_dec : EqDecision place.
Proof. solve_decision. Defined.

Definition place_of (idl ini t : Z) (th : thread) : place :=
  match status th, stack th with
  | THREAD_RUNNING, DoSchedule THREAD_READY :: _ => if decide (t = idl) then PRun else PReady
  | THREAD_RUNNING, _ => PRun
  | THREAD_READY, DoSchedule _ :: _ => PBad
  | THREAD_READY, [] => PBad
  | THREAD_READY, _ => if decide (t = idl) then PIdle else PReady
  | THREAD_BLOCKED, [] => PNew
  | THREAD_BLOCKED, SemaDownLoop i :: _ => PSema i
  | THREAD_BLOCKED, SleepDone _ :: _ => PSleep
  | THREAD_BLOCKED, StiHlt :: _ => if decide (t = idl) then PIdle else PBad
  | THREAD_BLOCKED, _ => PBad
  | THREAD_DYING, NotReached :: _ => if decide (t = ini) then PGone else PDead
  | THREAD_DYING, _ => PBad
  end.

Definition list_of (s : kstate) (p : place) : list Z :=
  match p with
  | PReady => ready_list s
  | PSema i => default [] (waiters <$> semas s !! i)
  | PSleep => sleep_list s
  | PDead => destruction_req s
  | _ => []
  end.

Definition listed (s : kstate) (p : place) : Prop :=
  match p with
  | PReady | PSleep | PDead => True
  | PSema i => is_Some (semas s !! i)
  | _ => False
  end.

Definition placed (s : kstate) (t : Z) (p : place) : Prop :=
  ∃ th, threads s !! t = Some th ∧ place_of (idle_thread s) (initial_thread s) t th = p.

(** Every list holds exactly the threads of its place, each once. *)
Record lists_ok (s : kstate) : Prop := {
  lo_nodup : ∀ p, NoDup (list_of s p);
  lo_mem : ∀ p t, listed s p → t ∈ list_of s p ↔ placed s t p;
  lo_bad : ∀ t, ¬ placed s t PBad;
  lo_sema : ∀ t i, placed s t (PSema i) → is_Some (semas s !! i)
}.

(** ** Objects the frames refer to *)

Definition has_lock (s : kstate) (l : lock_id) : Prop :=
  is_Some (holders s !! l) ∧ is_Some (semas s !! LockSema l).

Definition live (s : kstate) (f : frame) : Prop :=
  match f with
  | SemaDown i | SemaDownLoop i | SemaTryDown i | SemaUp i => is_Some (semas s !! i)
  | LockAcquire l | LockAcquireSet l | LockTryAcquire l | LockRelease l => has_lock s l
  | CondWait c l | CondSignal c l | CondBroadcast c l =>
    is_Some (conds s !! c) ∧ has_lock s l
  | _ => True
  end.

(** ** The parts of the invariant *)

(** Typing of every thread that can still run. *)
Definition lvl_of (s : kstate) (t : Z) (th : thread) : intr_level :=
  if decide (t = current s) then if_flag s else tf_if th.

Record typed (s : kstate) (t : Z) (th : thread) : Prop := {
  ty_lvl : lvl_ok (lvl_of s t th) (stack th);
  ty_hold : ∀ l h, holders s !! l = Some h → hold_ok l (bool_decide (h = t)) (stack th);
  ty_shape : shape (idle_thread s) t (stack th);
  ty_live : Forall (live s) (stack th)
}.

Definition typing_ok (s : kstate) : Prop :=
  ∀ t th, threads s !! t = Some th → t ≠ NULL ∧ (status th ≠ THREAD_DYING → typed s t th).

(** Exactly one token per lock: in the semaphore, or with one thread. *)
Definition cnt_of (s : kstate) (l : lock_id) (t : Z) : nat :=
  default 0%nat (cnt l ∘ stack <$> threads s !! t).

Definition tokens (s : kstate) (l : lock_id) (h t : Z) : nat :=
  ((if decide (h = t) then 1 else 0) + cnt_of s l t)%nat.

Definition lock_ok (s : kstate) (l : lock_id) : Prop :=
  ∀ h sm, holders s !! l = Some h → semas s !! LockSema l = Some sm →
  ∃ own : option Z,
    value sm = (if own then 0 else 1)
    ∧ ∀ t, t ≠ NULL → tokens s l h t = if decide (own = Some t) then 1%nat else 0%nat.

Record locks_ok (s : kstate) : Prop := {
  lk_tok : ∀ l, lock_ok s l;
  lk_dom : ∀ l, is_Some (holders s !! l) ↔ is_Some (semas s !! LockSema l);
  lk_int : ∀ l, internal l → ∃ h, holders s !! l = Some h
    ∧ (h = NULL ∨ ∃ th, threads s !! h = Some th ∧ status th ≠ THREAD_DYING);
  lk_wait : ∀ c ws w, conds s !! c = Some ws → w ∈ ws → is_Some (semas s !! WaiterSema w)
}.

Section layout.
Context `{Layout}.

Record pages_ok (s : kstate) : Prop := {
  pg_used : ∀ t, is_Some (threads s !! t) → t ≠ initial_thread s →
    ∃ i, t = page_addr i ∧ used_map s !! i = Some true;
  pg_init : ∀ i, (i < length (used_map s))%nat → page_addr i ≠ initial_thread s;
  pg_pend : ∀ a th t b, threads s !! a = Some th → status th ≠ THREAD_DYING →
    pend (stack th) = Some (t, b) →
    (∃ i, t = page_addr i ∧ used_map s !! i = Some true)
    ∧ (if b then placed s t PNew else threads s !! t = None);
  pg_uniq : ∀ a b tha thb t ba bb, threads s !! a = Some tha → threads s !! b = Some thb →
    status tha ≠ THREAD_DYING → status thb ≠ THREAD_DYING →
    pend (stack tha) = Some (t, ba) → pend (stack thb) = Some (t, bb) → a = b
}.

(** The sleepers are ordered by alarm, and [earliest_wake_up_tick] is the first
    alarm unless no alarm lies before the address it was loaded from. *)
Record sleep_ok (s : kstate) : Prop := {
  sl_sorted : StronglySorted (λ a b, alarm_of s a ≤ alarm_of s b) (sleep_list s);
  sl_low : ∀ t, t ∈ sleep_list s → earliest_wake_up_tick s ≤ alarm_of s t;
  sl_first : earliest_wake_up_tick s < sleep_tail →
    ∃ t r, sleep_list s = t :: r ∧ alarm_of s t = earliest_wake_up_tick s
}.

(** The processor: [r] is whether the current thread runs ([schedule] is
    entered with its status already changed). *)
Record cpu_ok (r : bool) (s : kstate) : Prop := {
  cp_cur : is_Some (threads s !! current s);
  cp_run : ∀ t th, threads s !! t = Some th →
    status th = THREAD_RUNNING ↔ (r = true ∧ t = current s);
  cp_ext : in_external_intr s = false;
  cp_off : r = false → if_flag s = INTR_OFF;
  cp_idle : ∃ th, threads s !! idle_thread s = Some th ∧ status th ≠ THREAD_DYING
    ∧ idle_stack (stack th)
}.

Record inv_at (r : bool) (s : kstate) : Prop := {
  iv_cpu : cpu_ok r s;
  iv_lists : lists_ok s;
  iv_typing : typing_ok s;
  iv_locks : locks_ok s;
  iv_pages : pages_ok s;
  iv_sleep : sleep_ok s
}.

Definition inv : kstate → Prop := inv_at true.

End layout.
End KInv.
