(* ===== verification/KInvFacts.v ===== *)
(** How the parts of the invariant survive the elementary changes of state. *)
From S2P Require Import Prelude KState Interrupt Threads Synch ThreadLife Timer Machine KInv.
Import KState Interrupt Threads Synch ThreadLife Timer Machine KInv.
Local Open Scope Z_scope.

Module KInvFacts.

Lemma upd_thread_insert s t th f :
  threads s !! t = Some th → upd_thread t f s = set_threads (<[t := f th]> (threads s)) s.
Proof.
  intros Ht. unfold upd_thread. f_equal. apply map_eq. intros x.
  destruct (decide (x = t)) as [->|Hx].
  - by rewrite lookup_alter_eq, lookup_insert_eq, Ht.
  - by rewrite lookup_alter_ne, lookup_insert_ne.
Qed.

Lemma upd_sema_insert s i sm f :
  semas s !! i = Some sm → upd_sema i f s = set_semas (<[i := f sm]> (semas s)) s.
Proof.
  intros Ht. unfold upd_sema. f_equal. apply map_eq. intros x.
  destruct (decide (x = i)) as [->|Hx].
  - by rewrite lookup_alter_eq, lookup_insert_eq, Ht.
  - by rewrite lookup_alter_ne, lookup_insert_ne.
Qed.

(** ** Places *)

Ltac place_cases th :=
  unfold place_of; destruct (status th) eqn:?; destruct (stack th) as [|[] ?] eqn:?;
  try (match goal with v : thread_status |- _ => destruct v end);
  repeat case_decide; simpl; intros; simplify_eq; try done; eauto 10.

Lemma place_sema_inv idl ini t th i :
  place_of idl ini t th = PSema i →
  status th = THREAD_BLOCKED ∧ ∃ r, stack th = SemaDownLoop i :: r.
Proof. place_cases th. Qed.

Lemma place_sleep_inv idl ini t th :
  place_of idl ini t th = PSleep →
  status th = THREAD_BLOCKED ∧ ∃ v r, stack th = SleepDone v :: r.
Proof. place_cases th. Qed.

Lemma place_dead_inv idl ini t th :
  place_of idl ini t th = PDead →
  status th = THREAD_DYING ∧ t ≠ ini ∧ ∃ r, stack th = NotReached :: r.
Proof. place_cases th. Qed.

Lemma place_new_inv idl ini t th :
  place_of idl ini t th = PNew → status th = THREAD_BLOCKED ∧ stack th = [].
Proof. place_cases th. Qed.

Lemma place_ready_inv idl ini t th :
  status th ≠ THREAD_RUNNING → place_of idl ini t th = PReady →
  status th = THREAD_READY ∧ t ≠ idl ∧ no_sched (stack th).
Proof. place_cases th. Qed.

(** ** Lists *)

Lemma lists_move s s' t th th' p p' :
  lists_ok s →
  threads s !! t = Some th →
  threads s' = <[t := th']> (threads s) →
  idle_thread s' = idle_thread s → initial_thread s' = initial_thread s →
  place_of (idle_thread s) (initial_thread s) t th = p →
  place_of (idle_thread s) (initial_thread s) t th' = p' →
  p' ≠ PBad →
  (∀ i, is_Some (semas s' !! i) ↔ is_Some (semas s !! i)) →
  (∀ i, p' = PSema i → is_Some (semas s !! i)) →
  (∀ q, q ≠ p → q ≠ p' → list_of s' q = list_of s q) →
  (p = p' → list_of s' p = list_of s p) →
  (p ≠ p' → listed s p → list_of s p ≡ₚ t :: list_of s' p) →
  (p ≠ p' → listed s p' → list_of s' p' ≡ₚ t :: list_of s p') →
  lists_ok s'.
Proof.
  intros [Hnd Hmem Hbad Hsem] Ht Hth Hid Hin Hp Hp' Hnb Hdom Hps Hoth Hsame Hdel Hadd.
  assert (Hpl : ∀ x q, x ≠ t → placed s' x q ↔ placed s x q).
  { intros x q Hx. unfold placed. rewrite Hth, Hid, Hin.
    by setoid_rewrite lookup_insert_ne; [|done]. }
  assert (Hpt : ∀ q, placed s' t q ↔ q = p').
  { intros q. unfold placed. rewrite Hth, Hid, Hin. rewrite lookup_insert_eq.
    split; [intros (?&[= <-]&<-); done|intros ->; eauto]. }
  assert (Hpo : ∀ q, placed s t q ↔ q = p).
  { intros q. unfold placed. rewrite Ht.
    split; [intros (?&[= <-]&<-); done|intros ->; eauto]. }
  assert (Hl : ∀ q, listed s' q ↔ listed s q) by (intros []; simpl; auto).
  assert (Hlist : ∀ q, listed s q ∨ list_of s q = []).
  { intros []; simpl; auto. destruct (semas s !! i) eqn:E; [left|right]; done. }
  assert (Hcase : ∀ q, listed s q →
    NoDup (list_of s' q) ∧ ∀ x, x ∈ list_of s' q ↔ placed s' x q).
  { intros q Hq. pose proof (Hnd q) as Hndq. pose proof (λ x, Hmem q x Hq) as Hm.
    destruct (decide (p = p')) as [->|Hne].
    - assert (Heq : list_of s' q = list_of s q)
        by (destruct (decide (q = p')) as [->|]; eauto).
      rewrite Heq. split; [done|]. intros x. rewrite Hm.
      destruct (decide (x = t)) as [->|]; [|by rewrite Hpl]. by rewrite Hpt, Hpo.
    - destruct (decide (q = p)) as [->|Hqp].
      + specialize (Hdel Hne Hq). rewrite Hdel in Hndq. apply NoDup_cons in Hndq as [Hnt Hndq].
        split; [done|]. intros x. destruct (decide (x = t)) as [->|Hx].
        * rewrite Hpt. split; [intros ?; done|intros ->; congruence].
        * rewrite (Hpl _ _ Hx), <- Hm, Hdel, elem_of_cons. naive_solver.
      + destruct (decide (q = p')) as [->|Hqp'].
        * specialize (Hadd Hne Hq). rewrite Hadd.
          assert (t ∉ list_of s p') by (rewrite Hm, Hpo; congruence).
          split; [by constructor|]. intros x. rewrite Hadd, elem_of_cons.
          destruct (decide (x = t)) as [->|Hx]; [rewrite Hpt; naive_solver|].
          rewrite (Hpl _ _ Hx), <- Hm. naive_solver.
        * rewrite (Hoth q) by done. split; [done|]. intros x. rewrite Hm.
          destruct (decide (x = t)) as [->|Hx]; [|by rewrite Hpl].
          rewrite Hpt, Hpo. naive_solver. }
  split.
  - intros q. destruct (Hlist q) as [Hq|Hq]; [by apply Hcase|].
    destruct q; try (simpl; constructor).
    + simpl in Hq |- *. apply (Hcase PReady). done.
    + destruct (semas s !! i) eqn:E.
      * apply Hcase. simpl. rewrite E. eauto.
      * simpl. assert (semas s' !! i = None) as ->
          by (apply eq_None_not_Some; rewrite Hdom, E; by intros [? ?]).
        constructor.
    + apply (Hcase PSleep). done.
    + apply (Hcase PDead). done.
  - intros q x Hq. apply Hcase. by apply Hl.
  - intros x. destruct (decide (x = t)) as [->|]; [rewrite Hpt; congruence|].
    rewrite Hpl by done. apply Hbad.
  - intros x i. destruct (decide (x = t)) as [->|].
    + rewrite Hpt. intros ?. apply Hdom. eauto.
    + rewrite Hpl by done. intros ?. apply Hdom. eauto.
Qed.

(** No list and no thread's place changes. *)
Lemma lists_ext s s' :
  lists_ok s → threads s' = threads s →
  idle_thread s' = idle_thread s → initial_thread s' = initial_thread s →
  (∀ i, is_Some (semas s !! i) → is_Some (semas s' !! i)) →
  (∀ i, semas s !! i = None → default [] (waiters <$> semas s' !! i) = []) →
  (∀ q, listed s q → list_of s' q = list_of s q) →
  lists_ok s'.
Proof.
  intros [Hnd Hmem Hbad Hsem] Hth Hid Hin Hdom Hnew Hq.
  assert (Hpl : ∀ x q, placed s' x q ↔ placed s x q).
  { intros x q. unfold placed. by rewrite Hth, Hid, Hin. }
  assert (Hnl : ∀ i, semas s !! i = None → ∀ x, ¬ placed s x (PSema i)).
  { intros i Hi x Hx. apply Hsem in Hx. rewrite Hi in Hx. by destruct Hx. }
  split.
  - intros [| | i | | | | | |]; simpl; try constructor.
    + generalize (Hnd PReady). by rewrite <- (Hq PReady I).
    + destruct (semas s !! i) eqn:E; [|rewrite Hnew by done; constructor].
      pose proof (Hq (PSema i)) as Hqi. simpl in Hqi. rewrite Hqi by (rewrite E; eauto).
      apply (Hnd (PSema i)).
    + generalize (Hnd PSleep). by rewrite <- (Hq PSleep I).
    + generalize (Hnd PDead). by rewrite <- (Hq PDead I).
  - intros q x Hl. rewrite Hpl.
    assert (listed s q ∨ ∃ i, q = PSema i ∧ semas s !! i = None) as [Hlq|(i&->&Hi)].
    { destruct q; simpl in *; auto. destruct (semas s !! i) eqn:E; eauto. }
    + rewrite Hq by done. auto.
    + simpl. rewrite Hnew by done. split; [by intros ?%elem_of_nil|intros ?; by edestruct Hnl].
  - intros x. rewrite Hpl. apply Hbad.
  - intros x i. rewrite Hpl. eauto.
Qed.

(** ** Typing *)

Definition grows (s s' : kstate) : Prop :=
  (∀ i, is_Some (semas s !! i) → is_Some (semas s' !! i))
  ∧ (∀ l, is_Some (holders s !! l) → is_Some (holders s' !! l))
  ∧ (∀ c, is_Some (conds s !! c) → is_Some (conds s' !! c)).

Lemma live_grows s s' f : grows s s' → live s f → live s' f.
Proof.
  intros (Hs & Hl & Hc). destruct f; simpl; unfold has_lock; naive_solver.
Qed.

Lemma Forall_live_grows s s' fs : grows s s' → Forall (live s) fs → Forall (live s') fs.
Proof. intros Hg Hf. eapply Forall_impl; eauto using live_grows. Qed.

(** The thread [t] is seen in [s'] as it was in [s]. *)
Definition same_view (s s' : kstate) (t : Z) (th' : thread) : Prop :=
  ∃ th, threads s !! t = Some th ∧ stack th' = stack th ∧ status th ≠ THREAD_DYING
    ∧ lvl_of s' t th' = lvl_of s t th
    ∧ ∀ l h', holders s' !! l = Some h' →
        ∃ h, holders s !! l = Some h ∧ (h = t ↔ h' = t).

Lemma typing_frame s s' :
  typing_ok s → grows s s' → idle_thread s' = idle_thread s →
  (∀ t th', threads s' !! t = Some th' → t ≠ NULL
     ∧ (status th' ≠ THREAD_DYING → same_view s s' t th' ∨ typed s' t th')) →
  typing_ok s'.
Proof.
  intros Hty Hg Hidl Hth t th' Ht. destruct (Hth t th' Ht) as [Hn Hv]. split; [done|].
  intros Hst. destruct (Hv Hst) as [(th & Hl & Hs & Hd & Hlv & Hh)|]; [|done].
  destruct (Hty t th Hl) as [_ [T1 T2 T3 T4]]; [done|]. split.
  - by rewrite Hlv, Hs.
  - intros l h' Hh'. destruct (Hh l h' Hh') as (h & Hh0 & E).
    rewrite Hs, <- (bool_decide_ext _ _ E). eauto.
  - by rewrite Hidl, Hs.
  - rewrite Hs. eauto using Forall_live_grows.
Qed.

(** ** Locks *)

Definition alive (s : kstate) (t : Z) : Prop :=
  ∃ th, threads s !! t = Some th ∧ status th ≠ THREAD_DYING.

Definition same_lock (s s' : kstate) (l : lock_id) : Prop :=
  holders s' !! l = holders s !! l
  ∧ value <$> semas s' !! LockSema l = value <$> semas s !! LockSema l
  ∧ ∀ t, t ≠ NULL → cnt_of s' l t = cnt_of s l t.

Lemma lock_ok_same s s' l : same_lock s s' l → lock_ok s l → lock_ok s' l.
Proof.
  intros (Hh & Hv & Hc) Hok h sm' Hh' Hsm'. rewrite Hh in Hh'. rewrite Hsm' in Hv.
  destruct (semas s !! LockSema l) as [sm|] eqn:E; [|done]. injection Hv as Hv.
  destruct (Hok h sm Hh' E) as (own & Hval & Ht). exists own. split; [congruence|].
  intros t Hn. rewrite <- Ht by done. unfold tokens. by rewrite Hc.
Qed.

Lemma locks_frame s s' :
  locks_ok s →
  (∀ l, same_lock s s' l ∨ lock_ok s' l) →
  (∀ l, is_Some (holders s' !! l) ↔ is_Some (semas s' !! LockSema l)) →
  (∀ l h, internal l → holders s !! l = Some h → (h = NULL ∨ alive s h) →
    ∃ h', holders s' !! l = Some h' ∧ (h' = NULL ∨ alive s' h')) →
  (∀ c ws w, conds s' !! c = Some ws → w ∈ ws → is_Some (semas s' !! WaiterSema w)) →
  locks_ok s'.
Proof.
  intros [H1 H2 H3 H4] Hl Hd Hi Hc. split; [| |intros l Hint|]; auto.
  - intros l. destruct (Hl l); eauto using lock_ok_same.
  - destruct (H3 l Hint) as (h & Hh & Ha). eauto.
Qed.

(** ** Sleepers *)

Section layout.
Context `{Layout}.

Lemma sleep_ext s s' :
  sleep_ok s → sleep_list s' = sleep_list s →
  earliest_wake_up_tick s' = earliest_wake_up_tick s →
  (∀ t, t ∈ sleep_list s → alarm_of s' t = alarm_of s t) →
  sleep_ok s'.
Proof.
  intros [Hs Hl Hf] Hsl He Ha. split; rewrite ?Hsl, ?He.
  - clear -Hs Ha. induction Hs as [|t r Hr IH Ht]; constructor.
    + apply IH. intros x Hx. apply Ha. by right.
    + rewrite Forall_forall in Ht |- *. intros x Hx.
      rewrite !Ha by (rewrite ?elem_of_cons; auto). auto.
  - intros t Ht. rewrite Ha by done. auto.
  - intros Hlt. destruct (Hf Hlt) as (t & r & E & Ht). exists t, r. split; [done|].
    rewrite Ha; [done|]. rewrite E. by left.
Qed.

(** ** Pages *)

Lemma pages_frame s s' :
  pages_ok s → used_map s' = used_map s → initial_thread s' = initial_thread s →
  (∀ t, threads s !! t = None → threads s' !! t = None) →
  (∀ t a th, threads s !! a = Some th → status th ≠ THREAD_DYING →
     pend (stack th) = Some (t, true) → placed s t PNew → placed s' t PNew) →
  (∀ a th', threads s' !! a = Some th' → status th' ≠ THREAD_DYING →
     pend (stack th') ≠ None →
     ∃ th, threads s !! a = Some th ∧ status th ≠ THREAD_DYING
       ∧ pend (stack th') = pend (stack th)) →
  pages_ok s'.
Proof.
  intros [H1 H2 H3 H4] Hu Hi Hn Hnew Hp. split; rewrite ?Hu, ?Hi; auto.
  - intros t [th' Ht] Hne. apply H1; [|done].
    destruct (threads s !! t) eqn:E; [eauto|]. by rewrite (Hn t E) in Ht.
  - intros a th' t b Ha Hd Hpe.
    destruct (Hp a th' Ha Hd) as (th & Hth & Hd' & E); [by rewrite Hpe|].
    destruct (H3 a th t b Hth Hd') as [? Hb]; [by rewrite <- E|]. split; [done|].
    destruct b; [|by apply Hn]. eapply Hnew; eauto. by rewrite <- E.
  - intros a b tha thb t ba bb Ha Hb Hda Hdb Hpa Hpb.
    destruct (Hp a tha Ha Hda) as (tha0 & ? & ? & Ea); [by rewrite Hpa|].
    destruct (Hp b thb Hb Hdb) as (thb0 & ? & ? & Eb); [by rewrite Hpb|].
    eapply (H4 a b tha0 thb0 t ba bb); try done; congruence.
Qed.

End layout.

End KInvFacts.
