(* ===== verification/KInvStep.v ===== *)
(** The steps of the running thread that neither block nor wake a thread. *)
From S2P Require Import Prelude KState Interrupt Threads Synch ThreadLife Timer Machine KInv KInvFacts.
Import KState Interrupt Threads Synch ThreadLife Timer Machine KInv KInvFacts.
Local Open Scope Z_scope.

Module KInvStep.

Definition cur_with (s : kstate) (th : thread) : kstate :=
  set_threads (<[current s := th]> (threads s)) s.

Lemma set_cur_stack_eq s th r :
  threads s !! current s = Some th → set_cur_stack r s = cur_with s (set_stack r th).
Proof. intros Ht. unfold set_cur_stack. by rewrite (upd_thread_insert _ _ _ _ Ht). Qed.

Lemma upd_cur_with s th f :
  upd_thread (current s) f (cur_with s th) = cur_with s (f th).
Proof.
  rewrite (upd_thread_insert _ _ th) by (simpl; apply lookup_insert_eq).
  unfold cur_with. simpl. by rewrite insert_insert_eq.
Qed.

Lemma push_cur_with s th fs :
  push fs (cur_with s th) = cur_with s (set_stack (fs ++ stack th) th).
Proof. unfold push. simpl. by rewrite (upd_cur_with s th). Qed.

Lemma cur_with_lookup s th : threads (cur_with s th) !! current s = Some th.
Proof. apply lookup_insert_eq. Qed.

(** ** The running thread *)

Lemma place_run idl ini t th :
  status th = THREAD_RUNNING → head (stack th) ≠ Some (DoSchedule THREAD_READY) →
  place_of idl ini t th = PRun.
Proof.
  unfold place_of. intros -> Hh. destruct (stack th) as [|[] ]; try done.
  destruct v; done.
Qed.

Section layout.
Context `{Layout}.

Lemma cur_running s : inv s → ∃ th, threads s !! current s = Some th ∧ status th = THREAD_RUNNING.
Proof.
  intros I. destruct (iv_cpu _ _ I) as [[th Hth] Hr _ _ _]. exists th. split; [done|].
  by apply (Hr _ _ Hth).
Qed.

Lemma cur_typed s th : inv s → threads s !! current s = Some th → typed s (current s) th.
Proof.
  intros I Ht. apply (iv_typing _ _ I _ _ Ht). destruct (cur_running s I) as (th' & ? & Hs).
  assert (th' = th) by congruence. subst. by rewrite Hs.
Qed.

Lemma cur_nonnull s : inv s → current s ≠ NULL.
Proof.
  intros I. destruct (cur_running s I) as (th & Ht & _). by apply (iv_typing _ _ I _ _ Ht).
Qed.

Lemma thread_current_ok s th :
  current s ≠ NULL → threads s !! current s = Some th → status th = THREAD_RUNNING →
  thread_current s = Ok (current s).
Proof.
  intros Hn Ht Hs. unfold thread_current, is_thread, running_thread, thread_status_of.
  rewrite Ht. simpl. rewrite Hs. rewrite !bool_decide_eq_true_2 by eauto. done.
Qed.

(** The running thread's record, the interrupt flag and the synchronisation
    objects change; the lists do not. *)
Lemma inv_cur_pages s s' th th' :
  inv s → threads s !! current s = Some th →
  threads s' = <[current s := th']> (threads s) → current s' = current s →
  status th' = THREAD_RUNNING →
  ready_list s' = ready_list s → sleep_list s' = sleep_list s →
  destruction_req s' = destruction_req s → idle_thread s' = idle_thread s →
  initial_thread s' = initial_thread s →
  earliest_wake_up_tick s' = earliest_wake_up_tick s →
  in_external_intr s' = false →
  head (stack th) ≠ Some (DoSchedule THREAD_READY) →
  head (stack th') ≠ Some (DoSchedule THREAD_READY) →
  (∀ i, default [] (waiters <$> semas s' !! i) = default [] (waiters <$> semas s !! i)) →
  grows s s' →
  (∀ t l h', t ≠ NULL → t ≠ current s → holders s' !! l = Some h' →
     ∃ h, holders s !! l = Some h ∧ (h = t ↔ h' = t)) →
  typed s' (current s) th' →
  (current s = idle_thread s → idle_stack (stack th) → idle_stack (stack th')) →
  locks_ok s' → pages_ok s' →
  inv s'.
Proof.
  intros I Ht Hth Hc Hst Hrl Hsl Hdr Hid Hin He Hex Hh Hh' Hw Hg Hho Hty Hidl Hlk Hpg.
  pose proof (cur_running s I) as (th0 & Ht0 & Hs0). assert (th0 = th) as -> by congruence.
  pose proof (cur_nonnull s I) as Hnn.
  destruct I as [[_ Hrun _ _ Hidle] Hlists Htyping _ Hpages Hsleep]. split.
  - split; rewrite ?Hth, ?Hc, ?Hid; [rewrite lookup_insert_eq; eauto| |done|done|].
    + intros t tht. destruct (decide (t = current s)) as [->|Hne].
      * rewrite lookup_insert_eq. intros [= <-]. by rewrite Hst.
      * rewrite lookup_insert_ne by done. apply Hrun.
    + destruct Hidle as (thi & Hi & Hd & Hq). destruct (decide (idle_thread s = current s)) as [E|Hne].
      * rewrite E, lookup_insert_eq. rewrite E, Ht in Hi. injection Hi as <-.
        exists th'. rewrite Hst. auto.
      * rewrite lookup_insert_ne by done. eauto.
  - assert (lists_ok (set_semas (semas s') s)) as Hl1.
    { apply (lists_ext s); try done; simpl.
      - apply Hg.
      - intros i Hi. by rewrite Hw, Hi.
      - intros []; simpl; try done. }
    eapply (lists_move _ s' (current s) th th' PRun PRun Hl1); simpl; try done;
      eauto using place_run.
    intros []; simpl; try done; congruence.
  - apply (typing_frame s); [done|done|done|]. intros t tht. rewrite Hth.
    destruct (decide (t = current s)) as [->|Hne].
    { rewrite lookup_insert_eq. intros [= <-]. auto. }
    rewrite lookup_insert_ne by done. intros Ht'. destruct (Htyping t tht Ht') as [Hn _].
    split; [done|]. intros Hd. left. exists tht. unfold lvl_of. rewrite Hc.
    rewrite !decide_False by done. eauto 10.
  - done.
  - done.
  - apply (sleep_ext s); auto. intros t Hsl'. unfold alarm_of. rewrite Hth.
    rewrite lookup_insert_ne; [done|]. intros <-.
    destruct (proj1 (lo_mem _ Hlists PSleep (current s) Logic.I) Hsl') as (tht & Ht' & Hpl).
    assert (tht = th) as -> by congruence. by rewrite place_run in Hpl.
Qed.

Lemma pages_cur s s' th th' :
  pages_ok s → threads s !! current s = Some th → status th = THREAD_RUNNING →
  threads s' = <[current s := th']> (threads s) → idle_thread s' = idle_thread s →
  initial_thread s' = initial_thread s → used_map s' = used_map s →
  head (stack th) ≠ Some (DoSchedule THREAD_READY) →
  pend (stack th') = None ∨ pend (stack th') = pend (stack th) →
  pages_ok s'.
Proof.
  intros Hpages Ht Hs0 Hth Hid Hin Hum Hh Hpe.
  apply (pages_frame s); auto; rewrite ?Hth.
  - intros t Hn. rewrite lookup_insert_ne by congruence. done.
  - intros t a tha Ha Hda Hpa (tht & Ht' & Hpl). unfold placed. rewrite Hth, Hid, Hin.
    destruct (decide (t = current s)) as [->|Hne].
    { rewrite Ht in Ht'. injection Ht' as <-. rewrite place_run in Hpl by done. done. }
    rewrite lookup_insert_ne by done. eauto.
  - intros a tha. destruct (decide (a = current s)) as [->|Hne].
    + rewrite lookup_insert_eq. intros [= <-] _ Hp. exists th. rewrite Hs0. naive_solver.
    + rewrite lookup_insert_ne by done. eauto.
Qed.

Lemma inv_cur s s' th th' :
  inv s → threads s !! current s = Some th →
  threads s' = <[current s := th']> (threads s) → current s' = current s →
  status th' = THREAD_RUNNING →
  ready_list s' = ready_list s → sleep_list s' = sleep_list s →
  destruction_req s' = destruction_req s → idle_thread s' = idle_thread s →
  initial_thread s' = initial_thread s →
  earliest_wake_up_tick s' = earliest_wake_up_tick s →
  in_external_intr s' = false → used_map s' = used_map s →
  head (stack th) ≠ Some (DoSchedule THREAD_READY) →
  head (stack th') ≠ Some (DoSchedule THREAD_READY) →
  (∀ i, default [] (waiters <$> semas s' !! i) = default [] (waiters <$> semas s !! i)) →
  grows s s' →
  (∀ t l h', t ≠ NULL → t ≠ current s → holders s' !! l = Some h' →
     ∃ h, holders s !! l = Some h ∧ (h = t ↔ h' = t)) →
  typed s' (current s) th' →
  pend (stack th') = pend (stack th) →
  (current s = idle_thread s → idle_stack (stack th) → idle_stack (stack th')) →
  locks_ok s' →
  inv s'.
Proof.
  intros I Ht ? ? ? ? ? ? ? ? ? ? ? ? ? ? ? ? ? Hp ? ?.
  destruct (cur_running s I) as (th0 & Ht0 & Hs0). assert (th0 = th) as -> by congruence.
  eapply (inv_cur_pages s s' th th'); try done.
  eapply (pages_cur s _ th th'); eauto. apply (iv_pages _ _ I).
Qed.

(** Fields the invariant does not mention. *)
Lemma inv_irrel r s s' :
  inv_at r s → threads s' = threads s → current s' = current s →
  ready_list s' = ready_list s → sleep_list s' = sleep_list s →
  destruction_req s' = destruction_req s → idle_thread s' = idle_thread s →
  initial_thread s' = initial_thread s →
  earliest_wake_up_tick s' = earliest_wake_up_tick s → if_flag s' = if_flag s →
  in_external_intr s' = in_external_intr s → semas s' = semas s →
  holders s' = holders s → conds s' = conds s → used_map s' = used_map s →
  inv_at r s'.
Proof.
  destruct s, s'; simpl; intros I; intros; subst. destruct I as [I1 I2 I3 I4 I5 I6].
  split; [destruct I1|destruct I2| |destruct I4|destruct I5|destruct I6];
    first [by split | idtac].
  intros t th Ht. destruct (I3 t th Ht) as [? I]. split; [done|]. intros Hd.
  destruct (I Hd). by split.
Qed.

Lemma locks_cur s s' th th' :
  locks_ok s → threads s !! current s = Some th →
  threads s' = <[current s := th']> (threads s) → status th' ≠ THREAD_DYING →
  holders s' = holders s → semas s' = semas s → conds s' = conds s →
  (∀ l, cnt l (stack th') = cnt l (stack th)) →
  locks_ok s'.
Proof.
  intros Hlk Ht Hth Hd Hh Hs Hc Hcnt. apply (locks_frame s); [done| | | |]; rewrite ?Hh, ?Hs, ?Hc.
  - intros l. left. unfold same_lock. rewrite Hh, Hs. split; [done|]. split; [done|].
    intros t _. unfold cnt_of. rewrite Hth. destruct (decide (t = current s)) as [->|].
    + rewrite lookup_insert_eq, Ht. simpl. auto.
    + by rewrite lookup_insert_ne.
  - apply (lk_dom _ Hlk).
  - intros l h Hi Hl Ha. exists h. split; [done|]. destruct Ha as [|(thh & Hth' & Hd')]; [auto|].
    right. unfold alive. rewrite Hth. destruct (decide (h = current s)) as [->|].
    + rewrite lookup_insert_eq. eauto.
    + rewrite lookup_insert_ne by done. eauto.
  - apply (lk_wait _ Hlk).
Qed.

(** The running thread goes on with other frames; it may take a page for a new
    thread or give one up. *)
Lemma inv_restack_pages s th fs v :
  inv s → threads s !! current s = Some th →
  head (stack th) ≠ Some (DoSchedule THREAD_READY) →
  head fs ≠ Some (DoSchedule THREAD_READY) →
  lvl_ok v fs →
  (∀ l h, holders s !! l = Some h → hold_ok l (bool_decide (h = current s)) (stack th) →
     hold_ok l (bool_decide (h = current s)) fs) →
  shape (idle_thread s) (current s) fs → Forall (live s) fs →
  (∀ l, cnt l fs = cnt l (stack th)) →
  (current s = idle_thread s → idle_stack (stack th) → idle_stack fs) →
  pages_ok (set_if_flag v (cur_with s (set_stack fs th))) →
  inv (set_if_flag v (cur_with s (set_stack fs th))).
Proof.
  intros I Ht Hh Hh' Hlvl Hhold Hsh Hlive Hcnt Hidle Hpg.
  destruct (cur_running s I) as (th0 & Ht0 & Hst). assert (th0 = th) as -> by congruence.
  pose proof (cur_typed s th I Ht) as [T1 T2 T3 T4].
  apply (inv_cur_pages s _ th (set_stack fs th)); simpl; try done.
  - apply (iv_cpu _ _ I).
  - eauto.
  - split; simpl; try done.
    + unfold lvl_of. simpl. by rewrite decide_True.
    + eauto.
  - eapply (locks_cur s _ th); simpl; [apply (iv_locks _ _ I)|..]; try done. simpl. by rewrite Hst.
Qed.

(** ... or keeps the page it has. *)
Lemma inv_restack s th fs v :
  inv s → threads s !! current s = Some th →
  head (stack th) ≠ Some (DoSchedule THREAD_READY) →
  head fs ≠ Some (DoSchedule THREAD_READY) →
  lvl_ok v fs →
  (∀ l h, holders s !! l = Some h → hold_ok l (bool_decide (h = current s)) (stack th) →
     hold_ok l (bool_decide (h = current s)) fs) →
  shape (idle_thread s) (current s) fs → Forall (live s) fs →
  (∀ l, cnt l fs = cnt l (stack th)) →
  pend fs = pend (stack th) →
  (current s = idle_thread s → idle_stack (stack th) → idle_stack fs) →
  inv (set_if_flag v (cur_with s (set_stack fs th))).
Proof.
  intros I Ht Hh Hh' Hlvl Hhold Hsh Hlive Hcnt Hpend Hidle.
  destruct (cur_running s I) as (th0 & Ht0 & Hst). assert (th0 = th) as -> by congruence.
  apply inv_restack_pages; try done.
  eapply (pages_cur s _ th (set_stack fs th)); try done; [apply (iv_pages _ _ I)|by right].
Qed.

End layout.

(** ** Automation for one step *)

Lemma no_sched_head fs : no_sched fs → head fs ≠ Some (DoSchedule THREAD_READY).
Proof. destruct fs as [|[]]; done. Qed.

Definition ok_step `{Layout} (r : res kstate) : Prop := ∃ s', r = Ok s' ∧ inv s'.

(** Opens the typing of the running thread, whose stack is known. *)
Ltac open_cur I Ht E :=
  let T := fresh "T" in
  pose proof (cur_typed _ _ I Ht) as T; destruct T as [Tlvl Thold Tshape Tlive];
  rewrite E in Tlvl, Thold, Tshape, Tlive; simpl in Tlvl, Tshape;
  destruct Tshape as (Tloc & Tns & Tshape); pose proof (no_sched_head _ Tns) as Thd;
  unfold lvl_of in Tlvl; try rewrite decide_True in Tlvl by done;
  rewrite Forall_cons in Tlive; destruct Tlive as [Tlf Tlive].

End KInvStep.
