(* ===== verification/KInvExec.v ===== *)
(** Every frame that neither blocks nor wakes a thread runs without a failure
    and keeps the invariant. *)
From S2P Require Import Prelude KState Interrupt Threads Synch ThreadLife Timer Machine KInv KInvFacts KInvStep.
Import KState Interrupt Threads Synch ThreadLife Timer Machine KInv KInvFacts KInvStep.
Local Open Scope Z_scope.

Module KInvExec.

Lemma flag_self s th : cur_with s th = set_if_flag (if_flag s) (cur_with s th).
Proof. by destruct s. Qed.

Lemma push_flag fs v s : push fs (set_if_flag v s) = set_if_flag v (push fs s).
Proof. done. Qed.

Lemma set_stack_twice a b th : set_stack a (set_stack b th) = set_stack a th.
Proof. done. Qed.

(** The frames that only continue with other frames. *)
Ltac restack I Ht E :=
  rewrite ?push_flag, ?push_cur_with; simpl; rewrite ?set_stack_twice;
  try rewrite (flag_self _ (set_stack _ _));
  eexists; split; [reflexivity|];
  eapply (inv_restack _ _ _ _ I Ht); rewrite ?E; simpl.

Ltac frames := repeat (apply Forall_cons; split); simpl; try done; eauto.

Section layout.
Context `{Layout}.

Lemma thread_current_cur s th fs :
  inv s → threads s !! current s = Some th →
  thread_current (cur_with s (set_stack fs th)) = Ok (current s).
Proof.
  intros I Ht. destruct (cur_running s I) as (th0 & Ht0 & Hst). assert (th0 = th) as -> by congruence.
  pose proof (cur_nonnull s I).
  apply (thread_current_ok (cur_with s (set_stack fs th)) (set_stack fs th)); simpl; [done|by apply lookup_insert_eq|done].
Qed.

Lemma inv_noext r s : inv_at r s → in_external_intr s = false.
Proof. intros I. apply (iv_cpu _ _ I). Qed.

Section frame.
Context (s : kstate) (th : thread) (r : list frame).
Context (I : inv s) (Ht : threads s !! current s = Some th).
Abbreviation popped := (cur_with s (set_stack r th)).

Lemma exec_SemaDown i : stack th = SemaDown i :: r → ok_step (exec (SemaDown i) popped).
Proof using All.
  intros E. open_cur I Ht E. simpl. unfold sema_down, intr_context. simpl.
  rewrite (inv_noext _ _ I). simpl.
  restack I Ht E; try done; [|frames].
  destruct i; naive_solver.
Qed.

Lemma exec_SetLevel v : stack th = SetLevel v :: r → ok_step (exec (SetLevel v) popped).
Proof using All.
  intros E. open_cur I Ht E.
  assert (Hr : exec (SetLevel v) popped = Ok (set_if_flag v popped)).
  { simpl. destruct v; simpl; [done|]. unfold intr_enable, intr_context. simpl.
    by rewrite (inv_noext _ _ I). }
  rewrite Hr. clear Hr.
  restack I Ht E; try done.
Qed.

Lemma exec_SleepDone v : stack th = SleepDone v :: r → ok_step (exec (SleepDone v) popped).
Proof using All.
  intros E. open_cur I Ht E. destruct Tlvl as [Hoff Tlvl].
  assert (Hr : exec (SleepDone v) popped = Ok (set_if_flag v popped)).
  { simpl. destruct v; simpl; [done|]. unfold intr_enable, intr_context. simpl.
    by rewrite (inv_noext _ _ I). }
  rewrite Hr. clear Hr. restack I Ht E; try done.
Qed.

Lemma exec_Iret : stack th = Iret :: r → ok_step (exec Iret popped).
Proof using All.
  intros E. open_cur I Ht E. destruct Tlvl as [Hoff Tlvl]. simpl. restack I Ht E; try done.
Qed.

Lemma exec_ThreadExit : stack th = ThreadExit :: r → ok_step (exec ThreadExit popped).
Proof using All.
  intros E. open_cur I Ht E. simpl. unfold thread_exit, intr_context. simpl.
  rewrite (inv_noext _ _ I). simpl.
  restack I Ht E; try done; [naive_solver|frames].
Qed.

Lemma exec_KernelThread f : stack th = KernelThread f :: r → ok_step (exec (KernelThread f) popped).
Proof using All.
  intros E. open_cur I Ht E. destruct f; [done|].
  simpl. unfold kernel_thread, intr_enable, intr_context. simpl.
  rewrite (inv_noext _ _ I). simpl. restack I Ht E; try done; [| |frames].
  - intros l h Hl Hh. destruct l; naive_solver.
  - eauto 10.
Qed.

Lemma exec_StiHlt : stack th = StiHlt :: r → ok_step (exec StiHlt popped).
Proof using All.
  intros E. open_cur I Ht E. simpl. unfold sti_hlt.
  restack I Ht E; try done. frames.
Qed.

Lemma exec_same f : stack th = f :: r → f = Hlt ∨ f = Client →
  ok_step (Ok (push [f] popped)).
Proof using All.
  intros E Hf. rewrite push_cur_with. simpl. rewrite set_stack_twice, <- E.
  exists s. split; [|done]. f_equal. unfold cur_with. destruct th; simpl in *.
  rewrite insert_id by done. by destruct s.
Qed.

Lemma exec_TimerSleep n : stack th = TimerSleep n :: r → ok_step (exec (TimerSleep n) popped).
Proof using All.
  intros E. open_cur I Ht E. destruct Tlvl as [Hon Tlvl]. simpl.
  unfold timer_sleep, timer_ticks, intr_set_level, intr_enable, intr_context. simpl.
  rewrite Hon. simpl. rewrite (inv_noext _ _ I). simpl.
  rewrite push_flag, push_flag. restack I Ht E; try done. frames.
Qed.

Lemma internal_lock l : internal l → has_lock s l.
Proof using I.
  intros Hi. destruct (lk_int _ (iv_locks _ _ I) l Hi) as (h & Hh & _).
  split; [eauto|]. apply (lk_dom _ (iv_locks _ _ I)). eauto.
Qed.

Lemma exec_ThreadCreate nm p f :
  stack th = ThreadCreate nm p f :: r → ok_step (exec (ThreadCreate nm p f) popped).
Proof using All.
  intros E. open_cur I Ht E. simpl. unfold thread_create.
  pose proof (internal_lock PoolLock) as HP.
  destruct f; [done|]. restack I Ht E; try done.
  - intros l h Hl [Hi Hh]. destruct (decide (PoolLock = l)) as [<-|Hne].
    + rewrite (Hi Logic.I) in *. done.
    + rewrite decide_False by done. split; [done|]. split; [|done].
      intros ->. by apply Hi.
  - frames.
Qed.

Lemma exec_CreateScan_none nm p f :
  stack th = CreateScan nm p f :: r → scan_and_flip (used_map s) = None →
  ok_step (exec (CreateScan nm p f) popped).
Proof using All.
  intros E Hs. open_cur I Ht E. simpl. unfold create_scan. simpl. rewrite Hs.
  pose proof (internal_lock PoolLock) as HP.
  destruct f; [done|]. restack I Ht E; try done.
  - intros l h Hl (Hp & Hi & Hh). destruct (decide (PoolLock = l)) as [<-|Hne].
    + rewrite decide_True in Hh by done. auto.
    + by rewrite decide_False in Hh.
  - frames.
Qed.

Lemma exec_CondBroadcast c l :
  stack th = CondBroadcast c l :: r → ok_step (exec (CondBroadcast c l) popped).
Proof using All.
  intros E. open_cur I Ht E. simpl. unfold cond_broadcast. simpl.
  simpl in Tlf. destruct Tlf as [[ws Hws] Hlk]. rewrite Hws. destruct ws.
  - restack I Ht E; try done. intros k h Hk Hh. destruct (decide (l = k)); [destruct Hh as [-> Hh]|]; auto.
  - restack I Ht E; try done.
    + intros k h Hk Hh. destruct (decide (l = k)); [destruct Hh as [-> Hh]|]; auto.
    + frames.
Qed.

End frame.
End layout.
End KInvExec.
