(* ===== verification/KInvSync.v ===== *)
(** The frames that take and give the tokens of semaphores and locks. *)
From S2P Require Import Prelude KState Interrupt Threads Synch ThreadLife Timer Machine KInv KInvFacts KInvStep KInvExec.
Import KState Interrupt Threads Synch ThreadLife Timer Machine KInv KInvFacts KInvStep KInvExec.
Local Open Scope Z_scope.

Module KInvSync.

(** Only the lock [l] changes. *)
Lemma locks_cur_at s s' th th' l :
  locks_ok s → threads s !! current s = Some th →
  threads s' = <[current s := th']> (threads s) → status th' ≠ THREAD_DYING →
  (∀ k, k ≠ l → holders s' !! k = holders s !! k) →
  (∀ k, k ≠ l → value <$> semas s' !! LockSema k = value <$> semas s !! LockSema k) →
  (∀ i, is_Some (semas s !! i) → is_Some (semas s' !! i)) →
  (is_Some (holders s' !! l) ↔ is_Some (semas s' !! LockSema l)) →
  conds s' = conds s →
  (∀ k, k ≠ l → cnt k (stack th') = cnt k (stack th)) →
  (∀ h h', holders s !! l = Some h → holders s' !! l = Some h' → h' = h ∨ h' = NULL ∨ h' = current s) →
  is_Some (holders s' !! l) →
  lock_ok s' l →
  locks_ok s'.
Proof.
  intros Hlk Ht Hth Hd Hh Hv Hg Hdl Hc Hcnt Hhl Hsl Hok.
  assert (Hal : ∀ t, alive s t → alive s' t).
  { intros t (x & Hx & Hxd). unfold alive. rewrite Hth.
    destruct (decide (t = current s)) as [->|]; [rewrite lookup_insert_eq; eauto|].
    rewrite lookup_insert_ne by done. eauto. }
  assert (Hcur : alive s' (current s)).
  { unfold alive. rewrite Hth, lookup_insert_eq. eauto. }
  apply (locks_frame s); [done| | | |].
  - intros k. destruct (decide (k = l)) as [->|Hk]; [by right|left].
    split; [auto|]. split; [auto|]. intros t _. unfold cnt_of. rewrite Hth.
    destruct (decide (t = current s)) as [->|].
    + rewrite lookup_insert_eq, Ht. simpl. auto.
    + by rewrite lookup_insert_ne.
  - intros k. destruct (decide (k = l)) as [->|Hk]; [done|].
    rewrite Hh by done. rewrite (lk_dom _ Hlk k).
    specialize (Hv k Hk). destruct (semas s !! LockSema k), (semas s' !! LockSema k); done.
  - intros k h Hi Hl Ha. destruct (decide (k = l)) as [->|Hk].
    + destruct Hsl as [h' Hh']. exists h'. split; [done|].
      destruct (Hhl h h' Hl Hh') as [->|[->| ->]]; naive_solver.
    + rewrite Hh by done. exists h. naive_solver.
  - rewrite Hc. intros c ws w Hw1 Hw2. apply Hg. eapply (lk_wait _ Hlk); eauto.
Qed.

(** A thread that accounts for a token owns the lock. *)
Lemma own_spec s l h sm t :
  lock_ok s l → holders s !! l = Some h → semas s !! LockSema l = Some sm → t ≠ NULL →
  (0 < tokens s l h t)%nat →
  value sm = 0 ∧ tokens s l h t = 1%nat ∧ ∀ x, x ≠ NULL → x ≠ t → tokens s l h x = 0%nat.
Proof.
  intros Hok Hh Hs Hn Hpos. destruct (Hok h sm Hh Hs) as (own & Hv & Htk).
  pose proof (Htk t Hn) as Hx. case_decide; [subst own|lia]. split; [done|]. split; [done|].
  intros x Hxn Hxt. rewrite Htk by done. rewrite decide_False by congruence. done.
Qed.

Lemma free_spec s l h sm :
  lock_ok s l → holders s !! l = Some h → semas s !! LockSema l = Some sm →
  value sm ≠ 0 → value sm = 1 ∧ ∀ x, x ≠ NULL → tokens s l h x = 0%nat.
Proof.
  intros Hok Hh Hs Hv. destruct (Hok h sm Hh Hs) as ([o|] & Hv' & Htk); [done|].
  split; [done|]. intros x Hx. by rewrite Htk.
Qed.

Lemma tokens_cur s s' th' l h t :
  threads s' = <[current s := th']> (threads s) →
  tokens s' l h t = if decide (t = current s)
    then ((if decide (h = t) then 1 else 0) + cnt l (stack th'))%nat
    else tokens s l h t.
Proof.
  intros Hth. unfold tokens, cnt_of. rewrite Hth. destruct (decide (t = current s)) as [->|].
  - by rewrite lookup_insert_eq.
  - by rewrite lookup_insert_ne.
Qed.

Lemma cnt_of_cur s th l : threads s !! current s = Some th → cnt_of s l (current s) = cnt l (stack th).
Proof. intros Ht. unfold cnt_of. by rewrite Ht. Qed.

Lemma cnt_set l r : cnt l (LockAcquireSet l :: r) = S (cnt l r).
Proof. simpl. by rewrite decide_True. Qed.

Lemma cnt_up l r : cnt l (SemaUp (LockSema l) :: r) = S (cnt l r).
Proof. simpl. by rewrite decide_True. Qed.

Section layout.
Context `{Layout}.

Lemma held_cur s th fs l h :
  inv s → threads s !! current s = Some th → holders s !! l = Some h →
  lock_held_by_current_thread l (cur_with s (set_stack fs th)) = Ok (bool_decide (h = current s)).
Proof.
  intros I Ht Hl. unfold lock_held_by_current_thread. simpl. rewrite Hl.
  by rewrite (thread_current_cur s th fs I Ht).
Qed.

Section frame.
Context (s : kstate) (th : thread) (r : list frame).
Context (I : inv s) (Ht : threads s !! current s = Some th).
Abbreviation popped := (cur_with s (set_stack r th)).

Lemma exec_LockAcquire l : stack th = LockAcquire l :: r → ok_step (exec (LockAcquire l) popped).
Proof using All.
  intros E. open_cur I Ht E. destruct Tlf as [[h Hl] Hsm]. simpl. unfold lock_acquire, intr_context. simpl.
  rewrite (inv_noext _ _ I). simpl. rewrite (held_cur _ _ _ _ _ I Ht Hl). simpl.
  pose proof (Thold l h Hl) as Hh. simpl in Hh. rewrite decide_True in Hh by done.
  destruct Hh as [Hf Hh]. rewrite Hf. simpl.
  restack I Ht E; try done.
  - eauto 10.
  - frames; by split; eauto.
  - intros k. by destruct (decide (l = k)).
Qed.

(** The status of the running thread, for [inv_cur]. *)
Lemma cur_status : status th = THREAD_RUNNING.
Proof using I Ht.
  destruct (cur_running s I) as (th0 & Ht0 & Hst). congruence.
Qed.

Lemma grows_refl x : grows x x.
Proof. done. Qed.

Lemma exec_LockAcquireSet l :
  stack th = LockAcquireSet l :: r → ok_step (exec (LockAcquireSet l) popped).
Proof using All.
  intros E. open_cur I Ht E. destruct Tlf as [[h Hl] [sm Hsm]]. simpl. unfold lock_acquire_set.
  rewrite (thread_current_cur s th r I Ht). simpl. unfold set_holder. simpl.
  eexists. split; [reflexivity|]. pose proof (cur_nonnull s I) as Hnn. pose proof cur_status as Hst.
  pose proof (iv_locks _ _ I) as Hlk. pose proof (cur_typed _ _ I Ht) as [_ Thold' _ _].
  destruct (own_spec s l h sm (current s) (lk_tok _ Hlk l) Hl Hsm Hnn) as (Hv & H1 & H0).
  { unfold tokens. rewrite (cnt_of_cur s th l Ht), E, cnt_set. lia. }
  assert (Hc0 : cnt l r = 0%nat ∧ h ≠ current s).
  { unfold tokens in H1. rewrite (cnt_of_cur s th l Ht), E, cnt_set in H1.
    case_decide; [lia|]. split; [lia|done]. }
  destruct Hc0 as [Hc0 Hhc].
  eapply (inv_cur s _ th (set_stack r th)); simpl; try done; rewrite ?E; simpl; try done.
  - apply (inv_noext _ _ I).
  - split; simpl; [done|]. split; [|done]. intros k Hk.
    destruct (decide (k = l)) as [->|]; [rewrite lookup_insert_eq|rewrite lookup_insert_ne by done]; eauto.
  - intros t k h' Hn Hne. destruct (decide (k = l)) as [->|Hk].
    + rewrite lookup_insert_eq. intros [= <-]. exists h. split; [done|].
      split; [|done]. intros ->. specialize (H0 t Hn Hne). unfold tokens in H0.
      rewrite decide_True in H0 by done. lia.
    + rewrite lookup_insert_ne by done. eauto.
  - split; simpl; [unfold lvl_of; simpl; by rewrite decide_True| |done|].
    + intros k h'. destruct (decide (k = l)) as [->|Hk].
      * rewrite lookup_insert_eq. intros [= <-]. rewrite bool_decide_eq_true_2 by done.
        specialize (Thold l h Hl). simpl in Thold. rewrite decide_True in Thold by done. apply Thold.
      * rewrite lookup_insert_ne by done. intros Hk'. specialize (Thold k h' Hk'). simpl in Thold.
        by rewrite decide_False in Thold.
    + eapply Forall_live_grows; [|done]. split; simpl; [done|]. split; [|done]. intros k Hk.
      destruct (decide (k = l)) as [->|]; [rewrite lookup_insert_eq|rewrite lookup_insert_ne by done]; eauto.
  - eapply (locks_cur_at s _ th _ l Hlk Ht); simpl; try done; rewrite ?E; simpl;
      rewrite ?lookup_insert_eq; eauto.
    + by rewrite Hst.
    + intros k Hk. by rewrite lookup_insert_ne.
    + rewrite Hsm. split; eauto.
    + intros k Hk. by rewrite decide_False.
    + intros ? ? _ [= <-]. auto.
    + intros h' sm' Hh' Hsm'. simpl in *. rewrite lookup_insert_eq in Hh'. injection Hh' as <-.
      assert (sm' = sm) as -> by congruence. exists (Some (current s)). split; [done|].
      intros t Hn. rewrite (tokens_cur s _ (set_stack r th)) by done. simpl. rewrite Hc0.
      destruct (decide (t = current s)) as [->|Hne].
      * by rewrite !decide_True.
      * specialize (H0 t Hn Hne). rewrite decide_False by congruence.
        unfold tokens in *. rewrite decide_False by congruence. lia.
Qed.

Lemma grows_holders l h x :
  grows x (set_holders (<[l := h]> (holders x)) x).
Proof.
  split; simpl; [done|]. split; [|done]. intros k Hk.
  destruct (decide (k = l)) as [->|]; [rewrite lookup_insert_eq|rewrite lookup_insert_ne by done]; eauto.
Qed.

Lemma exec_LockRelease l :
  stack th = LockRelease l :: r → ok_step (exec (LockRelease l) popped).
Proof using All.
  intros E. open_cur I Ht E. destruct Tlf as [[h Hl] [sm Hsm]]. simpl. unfold lock_release.
  rewrite (held_cur _ _ _ _ _ I Ht Hl). simpl.
  pose proof (Thold l h Hl) as Hh. simpl in Hh. rewrite decide_True in Hh by done.
  destruct Hh as [Hf Hh]. rewrite Hf. simpl. apply bool_decide_eq_true_1 in Hf. subst h.
  unfold set_holder. simpl.
  change (set_holders ?m (cur_with s ?x)) with (cur_with (set_holders m s) x).
  rewrite push_cur_with. simpl. rewrite set_stack_twice.
  eexists. split; [reflexivity|]. pose proof (cur_nonnull s I) as Hnn. pose proof cur_status as Hst.
  pose proof (iv_locks _ _ I) as Hlk.
  eapply (inv_cur s _ th (set_stack _ th)); simpl; try done; rewrite ?E; simpl; try done.
  - apply (inv_noext _ _ I).
  - apply grows_holders.
  - intros t k h' Hn Hne. destruct (decide (k = l)) as [->|Hk].
    + rewrite lookup_insert_eq. intros [= <-]. exists (current s). naive_solver.
    + rewrite lookup_insert_ne by done. eauto.
  - split; simpl; [unfold lvl_of; simpl; by rewrite decide_True| |done|].
    + intros k h'. destruct (decide (k = l)) as [->|Hk].
      * rewrite lookup_insert_eq. intros [= <-]. by rewrite bool_decide_eq_false_2.
      * rewrite lookup_insert_ne by done. intros Hk'. specialize (Thold k h' Hk'). simpl in Thold.
        by rewrite decide_False in Thold.
    + apply (Forall_live_grows s); [apply grows_holders|]. frames.
  - eapply (locks_cur_at s _ th _ l Hlk Ht); simpl; try done; rewrite ?E; simpl;
      rewrite ?lookup_insert_eq; eauto.
    + by rewrite Hst.
    + intros k Hk. by rewrite lookup_insert_ne.
    + rewrite Hsm. split; eauto.
    + intros k Hk. by rewrite decide_False.
    + intros ? ? _ [= <-]. auto.
    + intros h' sm' Hh' Hsm'. simpl in *. rewrite lookup_insert_eq in Hh'. injection Hh' as <-.
      destruct (lk_tok _ Hlk l _ _ Hl Hsm') as (own & Hv & Htk). exists own. split; [done|].
      intros t Hn. rewrite <- Htk by done. unfold tokens, cnt_of. simpl.
      destruct (decide (t = current s)) as [->|Hne].
      * rewrite lookup_insert_eq, Ht. cbn -[cnt]. rewrite E, cnt_up. simpl.
        rewrite decide_False, decide_True by done. done.
      * rewrite lookup_insert_ne by done. by rewrite !decide_False.
Qed.

(** The value of one semaphore changes while the running thread goes on. *)
Lemma inv_sema_value fs i sm v' :
  semas s !! i = Some sm →
  head (stack th) ≠ Some (DoSchedule THREAD_READY) →
  head fs ≠ Some (DoSchedule THREAD_READY) →
  lvl_ok (if_flag s) fs →
  (∀ l h, holders s !! l = Some h → hold_ok l (bool_decide (h = current s)) (stack th) →
     hold_ok l (bool_decide (h = current s)) fs) →
  shape (idle_thread s) (current s) fs → Forall (live s) fs →
  pend fs = pend (stack th) →
  (current s = idle_thread s → idle_stack (stack th) → idle_stack fs) →
  (∀ l, i ≠ LockSema l → cnt l fs = cnt l (stack th)) →
  (∀ l h, i = LockSema l → holders s !! l = Some h →
     value sm ≠ 0 ∧ v' = u32 (value sm - 1) ∧ cnt l fs = S (cnt l (stack th))
     ∨ v' = u32 (value sm + 1) ∧ cnt l (stack th) = S (cnt l fs)) →
  inv (set_semas (<[i := Semaphore v' (waiters sm)]> (semas s)) (cur_with s (set_stack fs th))).
Proof using All.
  intros Hsm Hh Hh' Hlvl Hhold Hsh Hlive Hpend Hidle Hcnt Htok.
  pose proof cur_status as Hst. pose proof (cur_typed s th I Ht) as [T1 T2 T3 T4].
  pose proof (cur_nonnull s I) as Hnn. pose proof (iv_locks _ _ I) as Hlk.
  assert (Hdom : ∀ j, is_Some (<[i := Semaphore v' (waiters sm)]> (semas s) !! j)
                      ↔ is_Some (semas s !! j)).
  { intros j. destruct (decide (j = i)) as [->|]; [rewrite lookup_insert_eq, Hsm; done|].
    by rewrite lookup_insert_ne. }
  assert (Hg : grows s (set_semas (<[i := Semaphore v' (waiters sm)]> (semas s))
                         (cur_with s (set_stack fs th)))).
  { split; simpl; [|done]. intros j. by rewrite Hdom. }
  eapply (inv_cur s _ th (set_stack fs th)); simpl; try done.
  - apply (inv_noext _ _ I).
  - intros j. destruct (decide (j = i)) as [->|]; [rewrite lookup_insert_eq, Hsm; done|].
    by rewrite lookup_insert_ne.
  - eauto.
  - split; simpl; [unfold lvl_of; simpl; by rewrite decide_True|eauto|done|].
    by eapply Forall_live_grows.
  - assert (Hd : status (set_stack fs th) ≠ THREAD_DYING) by (simpl; by rewrite Hst).
    assert ((∃ l, i = LockSema l ∧ is_Some (holders s !! l)) ∨ ∀ l, i ≠ LockSema l)
      as [(l & -> & h & Hl)|Hni].
    { destruct i as [|l| |]; auto. left. exists l. split; [done|].
      apply (lk_dom _ Hlk). eauto. }
    + eapply (locks_cur_at s _ th _ l Hlk Ht); simpl; eauto.
      * intros k Hk. by rewrite lookup_insert_ne by congruence.
      * intros j. by rewrite Hdom.
      * rewrite Hdom. apply (lk_dom _ Hlk).
      * intros k Hk. apply Hcnt. congruence.
      * intros ?? Hx Hy. left. congruence.
      * intros h' sm' Hh2 Hsm2. simpl in *. rewrite lookup_insert_eq in Hsm2.
        injection Hsm2 as <-. assert (h' = h) as -> by congruence. simpl.
        destruct (Htok l h eq_refl Hl) as [(Hv & -> & Hc)|(-> & Hc)].
        -- destruct (free_spec s l h sm (lk_tok _ Hlk l) Hl Hsm Hv) as [-> H0].
           exists (Some (current s)). split; [done|]. intros t Hn.
           rewrite (tokens_cur s _ (set_stack fs th)) by done. simpl.
           destruct (decide (t = current s)) as [->|Hne].
           ++ pose proof (H0 _ Hnn) as Hx. unfold tokens in Hx.
              rewrite (cnt_of_cur s th l Ht) in Hx. rewrite Hc, (decide_True _ _ (eq_refl (Some (current s)))).
              destruct (decide (h = current s)); lia.
           ++ rewrite (decide_False (P := Some _ = _)) by congruence. auto.
        -- destruct (own_spec s l h sm (current s) (lk_tok _ Hlk l) Hl Hsm Hnn) as (-> & Hx & H0).
           { unfold tokens. rewrite (cnt_of_cur s th l Ht), Hc. lia. }
           exists None. split; [done|]. intros t Hn.
           rewrite (tokens_cur s _ (set_stack fs th)) by done. simpl.
           destruct (decide (t = current s)) as [->|Hne]; [|auto].
           unfold tokens in Hx. rewrite (cnt_of_cur s th l Ht), Hc in Hx.
           destruct (decide (h = current s)); lia.
    + apply (locks_frame s); simpl; [done| | | |].
      * intros l. left. split; [done|]. simpl. rewrite lookup_insert_ne by done. split; [done|].
        intros t _. unfold cnt_of. simpl. destruct (decide (t = current s)) as [->|].
        -- rewrite lookup_insert_eq, Ht. simpl. auto.
        -- by rewrite lookup_insert_ne.
      * intros l. rewrite Hdom. apply (lk_dom _ Hlk).
      * intros l h Hi Hl Ha. exists h. split; [done|]. destruct Ha as [|(x & Hx & Hxd)]; [auto|].
        right. unfold alive. simpl. destruct (decide (h = current s)) as [->|].
        -- rewrite lookup_insert_eq. eauto.
        -- rewrite lookup_insert_ne by done. eauto.
      * intros c ws w Hc Hw. rewrite Hdom. eapply (lk_wait _ Hlk); eauto.
Qed.

Lemma set_level_ok v x :
  in_external_intr x = false → intr_set_level v x = Ok (if_flag x, set_if_flag v x).
Proof. intros Hx. destruct v; simpl; [done|]. unfold intr_enable, intr_context. by rewrite Hx. Qed.

Lemma exec_SemaDownLoop_take i sm :
  stack th = SemaDownLoop i :: r → semas s !! i = Some sm → value sm ≠ 0 →
  ok_step (exec (SemaDownLoop i) popped).
Proof using All.
  intros E Hsm Hv. open_cur I Ht E. destruct Tlvl as [Hoff Tlvl]. simpl. unfold sema_down_loop. simpl.
  rewrite Hsm, decide_False by done. rewrite (upd_sema_insert _ _ sm) by done.
  eexists. split; [reflexivity|]. simpl.
  eapply (inv_sema_value r i sm _ Hsm); rewrite ?E; simpl; try done.
  - by rewrite Hoff.
  - intros l Hl. destruct i; try done. by rewrite decide_False by congruence.
  - intros l h -> Hl. left. split; [done|]. split; [done|].
    destruct Tloc as (v & q & ->). rewrite decide_True by done. simpl. by rewrite decide_True.
Qed.

Lemma exec_SemaTryDown i :
  stack th = SemaTryDown i :: r → ok_step (exec (SemaTryDown i) popped).
Proof using All.
  intros E. open_cur I Ht E. destruct Tlf as [sm Hsm]. simpl. unfold sema_try_down. simpl.
  rewrite Hsm. simpl. destruct (value sm >? 0) eqn:Hv.
  - rewrite set_level_ok by (simpl; apply (inv_noext _ _ I)). simpl.
    rewrite (upd_sema_insert _ _ sm) by done. simpl.
    eexists. split; [reflexivity|].
    match goal with |- inv ?x => assert (x = set_semas (<[i := Semaphore (u32 (value sm - 1)) (waiters sm)]> (semas s)) popped) as -> by (by destruct s) end.
    eapply (inv_sema_value r i sm _ Hsm); rewrite ?E; simpl; try done.
    intros l h -> Hl. done.
  - rewrite set_level_ok by (simpl; apply (inv_noext _ _ I)). simpl. restack I Ht E; try done.
Qed.

Lemma exec_LockTryAcquire l :
  stack th = LockTryAcquire l :: r → ok_step (exec (LockTryAcquire l) popped).
Proof using All.
  intros E. open_cur I Ht E. destruct Tlf as [[h Hl] [sm Hsm]]. simpl.
  unfold lock_try_acquire. rewrite (held_cur _ _ _ _ _ I Ht Hl). simpl.
  pose proof (Thold l h Hl) as Hh. simpl in Hh. rewrite decide_True in Hh by done.
  destruct Hh as (Hf & Hh1 & Hh2). rewrite Hf. simpl. unfold sema_try_down. simpl.
  rewrite Hsm. simpl. destruct (value sm >? 0) eqn:Hv.
  - rewrite set_level_ok by (simpl; apply (inv_noext _ _ I)). simpl.
    rewrite (upd_sema_insert _ _ sm) by done. simpl.
    eexists. split; [reflexivity|].
    match goal with |- inv ?x => assert (x =
      set_semas (<[LockSema l := Semaphore (u32 (value sm - 1)) (waiters sm)]> (semas s))
        (cur_with s (set_stack (LockAcquireSet l :: r) th))) as -> end.
    { change ([LockAcquireSet l] ++ r) with (LockAcquireSet l :: r).
      transitivity (set_semas (<[LockSema l := Semaphore (u32 (value sm - 1)) (waiters sm)]> (semas s))
        (push [LockAcquireSet l] popped)); [by destruct s|]. by rewrite push_cur_with. }
    eapply (inv_sema_value _ _ sm _ Hsm); rewrite ?E; simpl; try done.
    + intros k h' Hk. destruct (decide (l = k)); naive_solver.
    + frames.
    + intros k Hk. by rewrite decide_False by congruence.
    + intros k h' [= <-] Hk. left. rewrite decide_True by done. split; [|done].
      apply Z.gtb_lt in Hv. lia.
  - rewrite set_level_ok by (simpl; apply (inv_noext _ _ I)). simpl. restack I Ht E; try done.
    intros k h' Hk. destruct (decide (l = k)) as [->|]; [|done].
    assert (h' = h) as -> by congruence. intros (-> & _ & ?). done.
Qed.

(** [sema_up], once the waiter is awake. *)
Lemma exec_SemaUp_give i sm :
  stack th = SemaUp i :: r → semas s !! i = Some sm →
  inv (set_semas (<[i := Semaphore (u32 (value sm + 1)) (waiters sm)]> (semas s)) popped).
Proof using All.
  intros E Hsm. open_cur I Ht E.
  eapply (inv_sema_value r i sm _ Hsm); rewrite ?E; simpl; try done.
  - intros l Hl. destruct i; try done. by rewrite decide_False by congruence.
  - intros l h -> Hl. right. by rewrite decide_True.
Qed.

(** A step that touches condition variables and no lock. *)
Lemma inv_conds fs sms cds :
  head (stack th) ≠ Some (DoSchedule THREAD_READY) →
  head fs ≠ Some (DoSchedule THREAD_READY) →
  lvl_ok (if_flag s) fs →
  (∀ l h, holders s !! l = Some h → hold_ok l (bool_decide (h = current s)) (stack th) →
     hold_ok l (bool_decide (h = current s)) fs) →
  (∀ l, sms !! LockSema l = semas s !! LockSema l) →
  (∀ i, default [] (waiters <$> sms !! i) = default [] (waiters <$> semas s !! i)) →
  (∀ i, is_Some (semas s !! i) → is_Some (sms !! i)) →
  (∀ c, is_Some (conds s !! c) → is_Some (cds !! c)) →
  (∀ c ws w, cds !! c = Some ws → w ∈ ws → is_Some (sms !! WaiterSema w)) →
  let s' := set_conds cds (set_semas sms (cur_with s (set_stack fs th))) in
  shape (idle_thread s) (current s) fs → Forall (live s') fs →
  (∀ l, cnt l fs = cnt l (stack th)) →
  pend fs = pend (stack th) →
  (current s = idle_thread s → idle_stack (stack th) → idle_stack fs) →
  inv s'.
Proof using All.
  intros Hh Hh' Hlvl Hhold Hsl Hw Hg1 Hg2 Hcw s' Hsh Hlive Hcnt Hpend Hidle. unfold s' in *.
  pose proof cur_status as Hst. pose proof (cur_typed s th I Ht) as [T1 T2 T3 T4].
  pose proof (iv_locks _ _ I) as Hlk.
  eapply (inv_cur s _ th (set_stack fs th)); simpl; try done.
  - apply (inv_noext _ _ I).
  - eauto.
  - split; simpl; [unfold lvl_of; simpl; by rewrite decide_True|eauto|done|done].
  - apply (locks_frame s); simpl; [done| | | |done].
    + intros l. left. split; [done|]. simpl. rewrite Hsl. split; [done|].
      intros t _. unfold cnt_of. simpl. destruct (decide (t = current s)) as [->|].
      * rewrite lookup_insert_eq, Ht. simpl. auto.
      * by rewrite lookup_insert_ne.
    + intros l. rewrite Hsl. apply (lk_dom _ Hlk).
    + intros l h Hi Hl Ha. exists h. split; [done|]. destruct Ha as [|(x & Hx & Hxd)]; [auto|].
      right. unfold alive. simpl. destruct (decide (h = current s)) as [->|].
      * rewrite lookup_insert_eq. eexists. split; [done|]. simpl. by rewrite Hst.
      * rewrite lookup_insert_ne by done. eauto.
Qed.

(** Only the thread itself ever waits on its [semaphore_elem]. *)
Lemma own_waiter_empty sm : semas s !! WaiterSema (current s) = Some sm → waiters sm = [].
Proof using All.
  intros Hsm. destruct (waiters sm) as [|t ws] eqn:Ew; [done|exfalso].
  pose proof (lo_mem _ (iv_lists _ _ I) (PSema (WaiterSema (current s))) t) as Hm.
  simpl in Hm. rewrite Hsm in Hm. simpl in Hm. rewrite Ew in Hm.
  destruct (proj1 (Hm ltac:(eauto)) ltac:(by left)) as (tht & Htt & Hp).
  destruct (place_sema_inv _ _ _ _ _ Hp) as (Est & fs & Ef).
  destruct (iv_typing _ _ I t tht Htt) as [_ Hty]. destruct Hty as [_ _ Hs _]; [by rewrite Est|].
  rewrite Ef in Hs. simpl in Hs. destruct Hs as [<- _]. pose proof cur_status. congruence.
Qed.

Lemma exec_CondWait c l :
  stack th = CondWait c l :: r → ok_step (exec (CondWait c l) popped).
Proof using All.
  intros E. open_cur I Ht E. destruct Tlf as [[ws Hws] [[h Hl] Hsm]]. simpl.
  unfold cond_wait, intr_context. cbn -[lock_held_by_current_thread]. rewrite (inv_noext _ _ I). cbn -[lock_held_by_current_thread].
  rewrite (held_cur _ _ _ _ _ I Ht Hl). simpl.
  pose proof (Thold l h Hl) as Hh. simpl in Hh. rewrite decide_True in Hh by done.
  destruct Hh as [Hf Hh]. rewrite Hf. simpl. rewrite Hws, (thread_current_cur s th r I Ht). simpl.
  unfold sema_init. simpl.
  change (set_conds ?c (set_semas ?m (cur_with s ?x)))
    with (cur_with (set_conds c (set_semas m s)) x).
  rewrite push_cur_with. eexists. split; [reflexivity|].
  set (sms := <[_ := _]> (semas s)). set (cds := <[_ := _]> (conds s)).
  apply (inv_conds ([LockRelease l; SemaDown (WaiterSema (current s)); LockAcquire l] ++ r) sms cds);
    rewrite ?E; unfold sms, cds; simpl; try done.
  - intros k h' Hk. destruct (decide (l = k)); naive_solver.
  - intros k. by rewrite lookup_insert_ne.
  - intros i. destruct (decide (i = WaiterSema (current s))) as [->|].
    + rewrite lookup_insert_eq. simpl. destruct (semas s !! WaiterSema (current s)) eqn:Es; [|done]. simpl.
      by rewrite (own_waiter_empty _ Es).
    + by rewrite lookup_insert_ne.
  - intros i Hi. destruct (decide (i = WaiterSema (current s))) as [->|].
    + rewrite lookup_insert_eq; eauto.
    + by rewrite lookup_insert_ne.
  - intros i Hi. destruct (decide (i = c)) as [->|].
    + rewrite lookup_insert_eq; eauto.
    + by rewrite lookup_insert_ne.
  - intros c' ws' w. assert (Hold : ∀ w, is_Some (semas s !! WaiterSema w) →
      is_Some (<[WaiterSema (current s):=Semaphore (u32 0) []]> (semas s) !! WaiterSema w)).
    { intros w' Hw'. destruct (decide (WaiterSema w' = WaiterSema (current s))) as [->|].
      - rewrite lookup_insert_eq; eauto.
      - by rewrite lookup_insert_ne. }
    destruct (decide (c' = c)) as [->|].
    + rewrite lookup_insert_eq. intros [= <-] [Hw| ->%list_elem_of_singleton]%elem_of_app.
      * apply Hold. eapply (lk_wait _ (iv_locks _ _ I)); eauto.
      * rewrite lookup_insert_eq; eauto.
    + rewrite lookup_insert_ne by done. intros Hc Hw. apply Hold.
      eapply (lk_wait _ (iv_locks _ _ I)); eauto.
  - unfold has_lock. repeat (apply Forall_cons; split); simpl.
    + split; [eauto|]. simpl. by rewrite lookup_insert_ne.
    + rewrite lookup_insert_eq. eauto.
    + split; [eauto|]. simpl. by rewrite lookup_insert_ne.
    + eapply Forall_live_grows; [|exact Tlive]. split; [|split]; simpl; [|done|].
      * intros i Hi. destruct (decide (i = WaiterSema (current s))) as [->|].
        -- rewrite lookup_insert_eq; eauto.
        -- by rewrite lookup_insert_ne.
      * intros i Hi. destruct (decide (i = c)) as [->|].
        -- rewrite lookup_insert_eq; eauto.
        -- by rewrite lookup_insert_ne.
Qed.

Lemma exec_CondSignal c l :
  stack th = CondSignal c l :: r → ok_step (exec (CondSignal c l) popped).
Proof using All.
  intros E. open_cur I Ht E. destruct Tlf as [[ws Hws] [[h Hl] Hsm]]. simpl.
  unfold cond_signal, intr_context. cbn -[lock_held_by_current_thread]. rewrite (inv_noext _ _ I). cbn -[lock_held_by_current_thread].
  rewrite (held_cur _ _ _ _ _ I Ht Hl). simpl.
  pose proof (Thold l h Hl) as Hh. simpl in Hh. rewrite decide_True in Hh by done.
  destruct Hh as [Hf Hh]. rewrite Hf. simpl. rewrite Hws.
  assert (Hho : ∀ k h', holders s !! k = Some h' →
     (if decide (l = k) then bool_decide (h' = current s) = true ∧ hold_ok k true r
      else hold_ok k (bool_decide (h' = current s)) r) →
     hold_ok k (bool_decide (h' = current s)) r).
  { intros k h' Hk. destruct (decide (l = k)); [|done]. by intros [-> ?]. }
  destruct ws as [|w ws].
  { restack I Ht E; try done. }
  change (set_conds ?c (cur_with s ?x)) with (cur_with (set_conds c s) x).
  rewrite push_cur_with. eexists. split; [reflexivity|].
  assert (Hw : is_Some (semas s !! WaiterSema w)).
  { eapply (lk_wait _ (iv_locks _ _ I)); [done|by left]. }
  assert (Hg : ∀ c', is_Some (conds s !! c') → is_Some (<[c:=ws]> (conds s) !! c')).
  { intros c' Hc'. destruct (decide (c' = c)) as [->|].
    - rewrite lookup_insert_eq; eauto.
    - by rewrite lookup_insert_ne. }
  set (cds := <[c:=ws]> (conds s)) in *.
  pose proof (inv_conds ([SemaUp (WaiterSema w)] ++ r) (semas s) cds) as Hinv.
  match goal with |- inv ?x => assert (x = set_conds cds (set_semas (semas s)
    (cur_with s (set_stack ([SemaUp (WaiterSema w)] ++ r) th)))) as -> by (by destruct s) end.
  apply Hinv; rewrite ?E; simpl; try done.
  - intros c' ws' w'. unfold cds. destruct (decide (c' = c)) as [->|].
    + rewrite lookup_insert_eq. intros [= <-] Hw'. eapply (lk_wait _ (iv_locks _ _ I)); [done|by right].
    + rewrite lookup_insert_ne by done. eapply (lk_wait _ (iv_locks _ _ I)).
  - repeat (apply Forall_cons; split); simpl; [done|].
    eapply Forall_live_grows; [|exact Tlive]. by split; [|split].
Qed.

Lemma exec_CreateTid t f : stack th = CreateTid t f :: r → ok_step (exec (CreateTid t f) popped).
Proof using All.
  intros E. open_cur I Ht E. simpl. unfold create_tid. destruct f; [done|]. simpl.
  change (set_next_tid ?n (cur_with s ?x)) with (cur_with (set_next_tid n s) x).
  rewrite push_cur_with. eexists. split; [reflexivity|]. simpl.
  pose proof (internal_lock s I TidLock Logic.I) as HP.
  eapply (inv_irrel _ (set_if_flag (if_flag s) (cur_with s (set_stack _ th)))); try done.
  eapply (inv_restack _ _ _ _ I Ht); rewrite ?E; simpl; try done.
  - intros l h Hl [Hi Hh]. destruct (decide (TidLock = l)) as [<-|Hne].
    + rewrite decide_True in Hh by done. auto.
    + by rewrite decide_False in Hh.
  - frames.
Qed.

Lemma exec_ThreadSetPriority p :
  stack th = ThreadSetPriority p :: r → ok_step (exec (ThreadSetPriority p) popped).
Proof using All.
  intros E. open_cur I Ht E. simpl. unfold thread_set_priority.
  rewrite (thread_current_cur s th r I Ht). simpl. rewrite (upd_cur_with s).
  eexists. split; [reflexivity|]. pose proof cur_status as Hst.
  eapply (inv_cur s _ th (set_priority p (set_stack r th))); simpl; try done; rewrite ?E; simpl; try done.
  - apply (inv_noext _ _ I).
  - eauto.
  - split; simpl; [unfold lvl_of; simpl; by rewrite decide_True|exact Thold|done|done].
  - eapply (locks_cur s _ th); simpl; [apply (iv_locks _ _ I)|..]; try done; rewrite ?E; try done.
    simpl. by rewrite Hst.
Qed.

End frame.
End layout.
End KInvSync.
