(* ===== verification/KInvMove.v ===== *)
(** Changes of a thread's state: blocking, waking, and the switch itself. *)
From S2P Require Import Prelude KState Interrupt Threads Synch ThreadLife Timer Machine KInv KInvFacts KInvStep KInvExec.
Import KState Interrupt Threads Synch ThreadLife Timer Machine KInv KInvFacts KInvStep KInvExec.
Local Open Scope Z_scope.

Module KInvMove.

Section layout.
Context `{Layout}.

(** One thread changes its place. *)
Lemma inv_move r r' s s' t th th' p p' :
  inv_at r s → threads s !! t = Some th →
  threads s' = <[t := th']> (threads s) →
  current s' = current s → idle_thread s' = idle_thread s →
  initial_thread s' = initial_thread s → if_flag s' = if_flag s →
  in_external_intr s' = in_external_intr s → used_map s' = used_map s →
  holders s' = holders s → conds s' = conds s →
  status th ≠ THREAD_DYING →
  (∀ i, value <$> semas s' !! i = value <$> semas s !! i) →
  place_of (idle_thread s) (initial_thread s) t th = p →
  (p = PNew → ∀ a tha, threads s !! a = Some tha → status tha ≠ THREAD_DYING →
     pend (stack tha) ≠ Some (t, true)) →
  place_of (idle_thread s) (initial_thread s) t th' = p' → p' ≠ PBad →
  (∀ i, p' = PSema i → is_Some (semas s !! i)) →
  (∀ q, q ≠ p → q ≠ p' → list_of s' q = list_of s q) →
  (p = p' → list_of s' p = list_of s p) →
  (p ≠ p' → listed s p → list_of s p ≡ₚ t :: list_of s' p) →
  (p ≠ p' → listed s p' → list_of s' p' ≡ₚ t :: list_of s p') →
  (status th' ≠ THREAD_DYING → typed s' t th' ∧ pend (stack th') = pend (stack th)) →
  (status th' = THREAD_DYING → t ≠ idle_thread s ∧ ∀ l, internal l → holders s !! l ≠ Some t) →
  (∀ l, cnt l (stack th') = cnt l (stack th)) →
  (t = idle_thread s → idle_stack (stack th) → idle_stack (stack th')) →
  (status th' = THREAD_RUNNING ↔ r' = true ∧ t = current s) →
  (∀ x thx, x ≠ t → threads s !! x = Some thx →
     status thx = THREAD_RUNNING ↔ r' = true ∧ x = current s) →
  (r' = false → if_flag s = INTR_OFF) →
  sleep_ok s' →
  inv_at r' s'.
Proof.
  intros I Ht Hth Hc Hid Hin Hif Hex Hum Hho Hco Hnd Hv Hp Hpn Hp' Hpb Hps L1 L2 L3 L4
    Hty Hdy Hcnt Hidl Hr1 Hr2 Hoff Hsl.
  assert (Hdom : ∀ i, is_Some (semas s' !! i) ↔ is_Some (semas s !! i)).
  { intros i. specialize (Hv i). destruct (semas s !! i), (semas s' !! i); done. }
  destruct I as [[Hcur Hrun Hext _ Hidle] Hlists Htyping Hlk Hpages _].
  assert (Hne : ∀ x, x ≠ t → threads s' !! x = threads s !! x).
  { intros x Hx. rewrite Hth. by apply lookup_insert_ne. }
  assert (Heq : threads s' !! t = Some th') by (rewrite Hth; apply lookup_insert_eq).
  destruct (Htyping t th Ht) as [Htn _].
  split; [| | | | |done].
  - split; rewrite ?Hc, ?Hif, ?Hex, ?Hid; try done.
    + destruct (decide (current s = t)) as [->|]; [eauto|]. by rewrite Hne.
    + intros x thx. destruct (decide (x = t)) as [->|]; [|rewrite Hne by done; eauto].
      rewrite Heq. intros [= <-]. done.
    + destruct Hidle as (thi & Hi & Hdi & Hst).
      destruct (decide (idle_thread s = t)) as [E|]; [|rewrite Hne by done; eauto].
      rewrite E, Heq. rewrite E, Ht in Hi. injection Hi as <-. exists th'. split; [done|].
      split; [|by auto]. intros Hd. by destruct (Hdy Hd).
  - eapply (lists_move s s' t th th' p p'); eauto.
  - apply (typing_frame s); [done|split; [|rewrite Hho, Hco; done]|done|].
    { intros i. by rewrite Hdom. }
    intros x thx. destruct (decide (x = t)) as [->|Hx].
    + rewrite Heq. intros [= <-]. split; [done|]. intros Hd. right. by apply Hty.
    + rewrite Hne by done. intros Hxt. destruct (Htyping x thx Hxt) as [Hn _].
      split; [done|]. intros Hd. left. exists thx. rewrite Hho. unfold lvl_of.
      rewrite Hc, Hif. repeat split; eauto.
  - apply (locks_frame s); [done| | | |]; rewrite ?Hho, ?Hco.
    + intros l. left. split; [by rewrite Hho|]. split; [by rewrite Hv|]. intros x _. unfold cnt_of.
      destruct (decide (x = t)) as [->|]; [|by rewrite Hne].
      rewrite Heq, Ht. simpl. auto.
    + intros l. rewrite Hdom. apply (lk_dom _ Hlk).
    + intros l h Hi Hl Ha. exists h. split; [done|]. destruct Ha as [|(x & Hx & Hxd)]; [auto|].
      right. unfold alive. destruct (decide (h = t)) as [->|]; [|rewrite Hne by done; eauto].
      rewrite Heq. exists th'. split; [done|]. intros Hd. destruct (Hdy Hd) as [_ Hi'].
      by apply (Hi' l Hi).
    + intros c ws w Hcw Hw. rewrite Hdom. eapply (lk_wait _ Hlk); eauto.
  - apply (pages_frame s); auto.
    + intros x Hx. rewrite Hne; [done|]. congruence.
    + intros x a tha Ha Hda Hpa (thx & Hx & Hpl). unfold placed. rewrite Hid, Hin.
      rewrite Hne; [eauto|]. intros ->. rewrite Ht in Hx. injection Hx as <-.
      apply (Hpn ltac:(congruence) a tha Ha Hda). done.
    + intros a tha. destruct (decide (a = t)) as [->|]; [|rewrite Hne by done; eauto].
      rewrite Heq. intros [= <-] Hd _. exists th. split; [done|]. split; [done|]. by apply Hty.
Qed.

(** A thread keeps its typing when only its status changes. *)
Lemma typed_status s s' t th st :
  typed s t th → current s' = current s → idle_thread s' = idle_thread s →
  if_flag s' = if_flag s →
  holders s' = holders s → conds s' = conds s →
  (∀ i, is_Some (semas s !! i) → is_Some (semas s' !! i)) →
  typed s' t (set_status st th).
Proof.
  intros [T1 T2 T3 T4] Hc Hid Hi Hh Hco Hs. split; simpl; [|by rewrite Hh|by rewrite Hid|].
  - unfold lvl_of in *. by rewrite Hc, Hi.
  - eapply Forall_live_grows; [|done]. split; [done|]. by rewrite Hh, Hco.
Qed.

(** ** The switch *)

(** The thread chosen by [next_thread_to_run], and the ready list after it. *)
Definition chosen (s : kstate) (n : Z) (rl : list Z) : Prop :=
  (ready_list s = n :: rl) ∨ (ready_list s = [] ∧ n = idle_thread s ∧ rl = []).

Lemma chosen_place s n rl :
  inv_at false s → chosen s n rl →
  ∃ th p, threads s !! n = Some th ∧ place_of (idle_thread s) (initial_thread s) n th = p
    ∧ (status th = THREAD_READY ∨ status th = THREAD_BLOCKED)
    ∧ no_sched (stack th)
    ∧ (p = PReady ∧ ready_list s = n :: rl ∨ p = PIdle ∧ rl = ready_list s).
Proof.
  intros I Hch. pose proof (iv_cpu _ _ I) as [_ Hrun _ _ Hidle]. pose proof (iv_lists _ _ I) as Hl.
  assert (Hnr : ∀ t th, threads s !! t = Some th → status th ≠ THREAD_RUNNING).
  { intros t th Ht Hs. apply (Hrun t th Ht) in Hs. by destruct Hs. }
  destruct Hch as [Hr|(Hr & -> & ->)].
  - destruct (proj1 (lo_mem _ Hl PReady n Logic.I)) as (th & Ht & Hp).
    { simpl. rewrite Hr. by left. }
    exists th, PReady. split; [done|]. split; [done|]. specialize (Hnr n th Ht).
    destruct (place_ready_inv _ _ _ _ Hnr Hp) as (Hs & _ & Hn). auto 10.
  - destruct Hidle as (th & Ht & Hd & Hs). exists th.
    specialize (Hnr _ th Ht). pose proof (lo_bad _ Hl (idle_thread s)) as Hb.
    assert (Hp : place_of (idle_thread s) (initial_thread s) (idle_thread s) th ≠ PBad).
    { intros Hp. apply Hb. by exists th. }
    exists PIdle. split; [done|]. unfold place_of in *. rewrite !decide_True in * by done.
    destruct (status th); try done; destruct (stack th) as [|f fs]; try done;
      destruct f; try done; simpl; auto 10; try (destruct v; done).
Qed.

Lemma place_resume s n th :
  no_sched (stack th) →
  place_of (idle_thread s) (initial_thread s) n (set_status THREAD_RUNNING th) = PRun.
Proof. intros Hn. apply place_run; [done|]. simpl. by apply no_sched_head. Qed.

(** The chosen thread is the one that called [schedule]. *)
Lemma resume_inv s th rl :
  inv_at false s → chosen s (current s) rl → threads s !! current s = Some th →
  inv (cur_with (set_ready_list rl s) (set_status THREAD_RUNNING th)).
Proof.
  intros I Hch Ht. destruct (chosen_place _ _ _ I Hch) as (th' & p & Ht' & Hp & Hst & Hns & Hrl).
  assert (th' = th) as -> by congruence.
  assert (Hnd : status th ≠ THREAD_DYING) by (destruct Hst as [-> | ->]; done).
  pose proof (iv_cpu _ _ I) as [_ Hrun _ Hoff _].
  eapply (inv_move false true s _ (current s) th _ p PRun I Ht); simpl; try done.
  - intros ->. destruct Hrl as [[? _]|[? _]]; done.
  - by apply place_resume.
  - intros []; simpl; try done. intros ? _. destruct Hrl as [[-> Hr]|[-> Hr]]; done.
  - intros ->. by destruct Hrl as [[? _]|[? _]].
  - intros _. destruct Hrl as [[-> Hr]|[-> Hr]]; simpl; [by rewrite Hr|done].
  - intros _. split; [|done]. apply (typed_status s); try done. by apply (iv_typing _ _ I _ _ Ht).
  - intros x thx Hx Hxt. rewrite (Hrun x thx Hxt). naive_solver.
  - eapply (sleep_ext s); try done; [apply (iv_sleep _ _ I)|]. intros t _. unfold alarm_of. simpl.
    destruct (decide (t = current s)) as [->|]; [by rewrite lookup_insert_eq, Ht|].
    by rewrite lookup_insert_ne.
Qed.

(** The state after [thread_launch]. *)
Definition launched (s : kstate) (n : Z) (thc thn : thread) (rl : list Z) : kstate :=
  set_if_flag (tf_if thn) (set_current n
    (set_threads (<[current s := set_tf_if INTR_OFF thc]>
                   (<[n := set_status THREAD_RUNNING thn]> (threads s)))
      (set_ready_list rl s))).

Lemma launched_lookup s n thc thn rl x thx :
  n ≠ current s → threads s !! current s = Some thc → threads s !! n = Some thn →
  threads (launched s n thc thn rl) !! x = Some thx →
  ∃ th, threads s !! x = Some th ∧ stack thx = stack th ∧ alarm thx = alarm th
    ∧ (x = n ∧ th = thn ∧ thx = set_status THREAD_RUNNING thn
       ∨ x ≠ n ∧ status thx = status th
         ∧ (if decide (x = current s) then tf_if thx = INTR_OFF else tf_if thx = tf_if th)).
Proof.
  intros Hne Hc Hn. simpl. destruct (decide (x = current s)) as [->|Hx].
  - rewrite lookup_insert_eq. intros [= <-]. exists thc. naive_solver.
  - rewrite lookup_insert_ne by done. destruct (decide (x = n)) as [->|].
    + rewrite lookup_insert_eq. intros [= <-]. exists thn. naive_solver.
    + rewrite lookup_insert_ne by done. exists thx. naive_solver.
Qed.

Lemma launched_lookup_none s n thc thn rl x :
  threads s !! current s = Some thc → threads s !! n = Some thn →
  threads s !! x = None → threads (launched s n thc thn rl) !! x = None.
Proof. intros Hc Hn Hx. simpl. rewrite !lookup_insert_ne by congruence. done. Qed.

Lemma launched_lookup_some s n thc thn rl x th :
  n ≠ current s → threads s !! current s = Some thc → threads s !! n = Some thn →
  threads s !! x = Some th →
  ∃ thx, threads (launched s n thc thn rl) !! x = Some thx ∧ stack thx = stack th
    ∧ alarm thx = alarm th
    ∧ (x ≠ n → status thx = status th) ∧ (x = n → status thx = THREAD_RUNNING).
Proof.
  intros Hne Hc Hn Hx. simpl. destruct (decide (x = current s)) as [->|Hxc].
  - rewrite lookup_insert_eq. eexists. split; [done|]. simpl. split_and!; congruence.
  - rewrite lookup_insert_ne by done. destruct (decide (x = n)) as [->|].
    + rewrite lookup_insert_eq. eexists. split; [done|]. simpl. split_and!; congruence.
    + rewrite lookup_insert_ne by done. exists th. split_and!; try done.
Qed.

Lemma launched_lists s n thc thn rl p :
  lists_ok s → n ≠ current s →
  threads s !! current s = Some thc → threads s !! n = Some thn →
  place_of (idle_thread s) (initial_thread s) n thn = p → no_sched (stack thn) →
  (p = PReady ∧ ready_list s = n :: rl ∨ p = PIdle ∧ rl = ready_list s) →
  lists_ok (launched s n thc thn rl).
Proof.
  intros Hl Hne Hc Hn Hp Hns Hrl.
  set (s1 := set_threads (<[n := set_status THREAD_RUNNING thn]> (threads s)) (set_ready_list rl s)).
  assert (Hl1 : lists_ok s1).
  { eapply (lists_move s s1 n thn _ p PRun Hl Hn); unfold s1; simpl; try done.
    - by apply place_resume.
    - intros []; simpl; try done. intros ? _. destruct Hrl as [[-> Hr]|[-> Hr]]; done.
    - intros ->. by destruct Hrl as [[? _]|[? _]].
    - intros _. destruct Hrl as [[-> Hr]|[-> Hr]]; simpl; [by rewrite Hr|done]. }
  eapply (lists_move s1 _ (current s) thc (set_tf_if INTR_OFF thc)); unfold s1; simpl; try done.
  - by rewrite lookup_insert_ne.
  - intros Hb. apply (lo_bad _ Hl1 (current s)). exists thc. unfold s1. simpl.
    rewrite lookup_insert_ne by done. done.
  - intros i Hi. apply (lo_sema _ Hl1 (current s)). exists thc. unfold s1. simpl.
    rewrite lookup_insert_ne by done. done.
Qed.

Lemma launch_inv s n thc thn rl :
  inv_at false s → chosen s n rl → n ≠ current s →
  threads s !! current s = Some thc → threads s !! n = Some thn →
  inv (launched s n thc thn rl).
Proof.
  intros I Hch Hne Hc Hn.
  destruct (chosen_place _ _ _ I Hch) as (th' & p & Ht' & Hp & Hst & Hns & Hrl).
  assert (th' = thn) as -> by congruence.
  assert (Hnd : status thn ≠ THREAD_DYING) by (destruct Hst as [-> | ->]; done).
  pose proof I as [[_ Hrun Hext Hoff Hidle] Hlists Htyping Hlk Hpages Hsleep].
  specialize (Hoff eq_refl).
  pose proof (λ x thx, launched_lookup s n thc thn rl x thx Hne Hc Hn) as Hlook.
  pose proof (λ x th, launched_lookup_some s n thc thn rl x th Hne Hc Hn) as Hsome.
  assert (Hdy : ∀ x th thx, threads s !! x = Some th →
    threads (launched s n thc thn rl) !! x = Some thx → status thx ≠ THREAD_DYING ↔ status th ≠ THREAD_DYING).
  { intros x th thx Hx Hx'. destruct (Hlook x thx Hx') as (th0 & Hx0 & _ & _ & Hcase).
    assert (th0 = th) as -> by congruence.
    destruct Hcase as [(-> & -> & ->)|(_ & -> & _)]; done. }
  split.
  - split; [| | done | done |].
    + destruct (Hsome n thn Hn) as (thx & Hx & _). exists thx. exact Hx.
    + intros x thx Hx. destruct (Hlook x thx Hx) as (th & Hx0 & _ & _ & [(-> & -> & ->)|(Hxn & Hs & _)]).
      * done.
      * rewrite Hs, (Hrun x th Hx0). simpl. naive_solver.
    + destruct Hidle as (thi & Hi & Hd & Hq). destruct (Hsome _ _ Hi) as (thx & Hx & Hs & _).
      exists thx. split; [done|]. split; [by eapply Hdy|]. by rewrite Hs.
  - by eapply launched_lists.
  - apply (typing_frame s); [done|done|done|]. intros x thx Hx.
    destruct (Hlook x thx Hx) as (th & Hx0 & Hs & _ & Hcase).
    destruct (Htyping x th Hx0) as [Hnn _]. split; [done|]. intros Hd. left.
    exists th. split; [done|]. split; [done|]. split; [by apply (Hdy x th thx)|]. split; [|by eauto].
    unfold lvl_of. simpl. destruct Hcase as [(-> & -> & ->)|(Hxn & _ & Htf)].
    + by rewrite decide_True, decide_False.
    + rewrite decide_False by done. destruct (decide (x = current s)); congruence.
  - apply (locks_frame s); [done| |apply (lk_dom _ Hlk)| |apply (lk_wait _ Hlk)].
    + intros l. left. split; [done|]. split; [done|]. intros x _. unfold cnt_of.
      destruct (threads s !! x) as [th|] eqn:Ex.
      * destruct (Hsome x th Ex) as (thx & -> & Hs & _). simpl. by rewrite Hs.
      * by rewrite launched_lookup_none.
    + intros l h Hi Hl Ha. exists h. split; [done|]. destruct Ha as [|(th & Hx & Hxd)]; [auto|].
      right. destruct (Hsome h th Hx) as (thx & Hx' & _). exists thx. split; [done|]. by eapply Hdy.
  - apply (pages_frame s); try done.
    + intros x Hx. by apply launched_lookup_none.
    + intros x a tha Ha Hda Hpa (th & Hx & Hpl). destruct (Hsome x th Hx) as (thx & Hx' & Hs & _ & Hst' & _).
      exists thx. split; [done|]. simpl. unfold place_of. rewrite Hs, Hst'; [done|].
      intros ->. assert (th = thn) as -> by congruence.
      rewrite Hpl in Hp. destruct Hrl as [[? _]|[? _]]; congruence.
    + intros a tha Ha Hd _. destruct (Hlook a tha Ha) as (th & Hx0 & Hs & _).
      exists th. split; [done|]. split; [by apply (Hdy a th tha)|]. by rewrite Hs.
  - apply (sleep_ext s); try done. intros x _. unfold alarm_of.
    destruct (threads s !! x) as [th|] eqn:Ex.
    + destruct (Hsome x th Ex) as (thx & -> & _ & Hal & _). simpl. done.
    + by rewrite launched_lookup_none.
Qed.

(** ** [schedule] *)

(** The request [schedule] queues when the thread it leaves is dying. *)
Definition enqueue_dead (s : kstate) : kstate :=
  if bool_decide (thread_status_of s (current s) = Some THREAD_DYING)
     && bool_decide (current s ≠ initial_thread s)
  then set_destruction_req (destruction_req s ++ [current s]) s else s.

Lemma enqueue_dead_fields s :
  enqueue_dead s = set_destruction_req (destruction_req (enqueue_dead s)) s.
Proof. unfold enqueue_dead. case_match; [done|]. by destruct s. Qed.

Lemma schedule_ok s : inv_at false (enqueue_dead s) → ok_step (schedule s).
Proof.
  intros I. set (s' := enqueue_dead s) in *.
  assert (∃ d, s' = set_destruction_req d s) as [d Hf] by (eexists; apply enqueue_dead_fields).
  assert (∃ n rl, next_thread_to_run s = (n, set_ready_list rl s) ∧ chosen s' n rl)
    as (n & rl & Hnext & Hch).
  { unfold next_thread_to_run. rewrite Hf. destruct (ready_list s) as [|t r] eqn:Er.
    - exists (idle_thread s), []. split; [rewrite <- Er; by destruct s|]. right. done.
    - exists t, r. split; [done|]. by left. }
  destruct (chosen_place _ _ _ I Hch) as (thn & p & Hn & Hp & Hst & Hns & Hrl).
  pose proof (iv_cpu _ _ I) as [[thc Hc] Hrun Hext Hoff _]. specialize (Hoff eq_refl).
  assert (Hcr : status thc ≠ THREAD_RUNNING).
  { intros Hs. apply (Hrun _ _ Hc) in Hs. by destruct Hs. }
  destruct (iv_typing _ _ I _ _ Hn) as [Hnn _].
  rewrite Hf in Hn, Hc, Hoff. simpl in Hn, Hc, Hoff.
  unfold schedule, running_thread. rewrite Hnext. unfold intr_get_level. cbn.
  rewrite assert_res_ok by (rewrite Hoff; done).
  rewrite assert_res_ok by (apply bool_decide_eq_true_2; unfold thread_status_of; simpl;
    rewrite Hc; simpl; congruence).
  rewrite assert_res_ok by (unfold is_thread; simpl; rewrite Hn, !bool_decide_eq_true_2 by eauto; done).
  rewrite (upd_thread_insert _ n thn) by done.
  case_decide as Hcn.
  - match goal with |- ok_step (thread_launch n ?y) => set (x := y) end.
    assert (Hx : x = set_thread_ticks 0 (set_threads (<[n:=set_status THREAD_RUNNING thn]> (threads s))
                       (set_ready_list rl s'))).
    { unfold x, s', enqueue_dead. simpl.
      assert (thread_status_of (set_thread_ticks 0
        (set_threads (<[n:=set_status THREAD_RUNNING thn]> (threads s)) (set_ready_list rl s))) (current s)
        = thread_status_of s (current s)) as ->.
      { unfold thread_status_of. simpl. by rewrite lookup_insert_ne. }
      case_match; done. }
    rewrite Hx. unfold thread_launch, running_thread, intr_get_level. rewrite Hf. simpl. rewrite Hoff. simpl.
    rewrite lookup_insert_eq. simpl. rewrite (upd_thread_insert _ _ thc) by (simpl; by rewrite lookup_insert_ne).
    eexists. split; [reflexivity|].
    eapply (inv_irrel _ (launched s' n thc thn rl)); [|simpl; rewrite ?Hf; try done..].
    apply launch_inv; try done; rewrite Hf; simpl; auto.
  - assert (n = current s) as -> by (destruct (decide (n = current s)); congruence).
    assert (thn = thc) as -> by congruence.
    assert (Hs' : s' = s).
    { unfold s', enqueue_dead, thread_status_of. rewrite Hc. simpl.
      destruct Hst as [-> | ->]; done. }
    eexists. split; [reflexivity|].
    eapply (inv_irrel _ (cur_with (set_ready_list rl s) (set_status THREAD_RUNNING thc))); try done.
    rewrite Hs' in I, Hch. by apply resume_inv.
Qed.

End layout.
End KInvMove.
