(* ===== verification/KInvBlock.v ===== *)
(** The frames that block the running thread, give up the processor or wake
    another thread. *)
From S2P Require Import Prelude KState Interrupt Threads Synch ThreadLife Timer Machine KInv KInvFacts KInvStep KInvExec KInvSync KInvMove.
From S2P Require Import KListOps.
Import KState Interrupt Threads Synch ThreadLife Timer Machine KInv KInvFacts KInvStep KInvExec
  KInvSync KInvMove KListOps.
Local Open Scope Z_scope.

Module KInvBlock.

Lemma enqueue_dead_alive s th :
  threads s !! current s = Some th → status th ≠ THREAD_DYING → enqueue_dead s = s.
Proof.
  intros Ht Hd. unfold enqueue_dead, thread_status_of. rewrite Ht. simpl.
  rewrite bool_decide_eq_false_2 by congruence. done.
Qed.

Lemma set_stack_self th : set_stack (stack th) th = th.
Proof. by destruct th. Qed.

Section layout.
Context `{Layout}.

Lemma block_run x th :
  threads x !! current x = Some th → status th = THREAD_RUNNING → current x ≠ NULL →
  in_external_intr x = false → if_flag x = INTR_OFF →
  thread_block x = schedule (cur_with x (set_status THREAD_BLOCKED th)).
Proof.
  intros Ht Hs Hn He Hf. unfold thread_block, intr_context, intr_get_level. rewrite He, Hf. cbn -[thread_current].
  rewrite (thread_current_ok _ th) by done. simpl. by rewrite (upd_thread_insert _ _ th).
Qed.

(** Blocking the running thread, its stack already in place and its list
    already extended. *)
Lemma block_inv s x th p :
  inv s → threads s !! current s = Some th → if_flag s = INTR_OFF →
  threads x = threads s → current x = current s → idle_thread x = idle_thread s →
  initial_thread x = initial_thread s → if_flag x = if_flag s →
  in_external_intr x = in_external_intr s → used_map x = used_map s →
  holders x = holders s → conds x = conds s →
  (∀ i, value <$> semas x !! i = value <$> semas s !! i) →
  no_sched (stack th) →
  place_of (idle_thread s) (initial_thread s) (current s) (set_status THREAD_BLOCKED th) = p →
  p ≠ PBad → (∀ i, p = PSema i → is_Some (semas s !! i)) →
  (∀ q, q ≠ p → list_of x q = list_of s q) →
  (listed s p → list_of x p ≡ₚ current s :: list_of s p) →
  sleep_ok x →
  ok_step (thread_block x).
Proof.
  intros I Ht Hoff Hth Hc Hid Hin Hif Hex Hum Hho Hco Hv Hns Hp Hpb Hps L1 L2 Hsl.
  destruct (cur_running s I) as (th0 & Ht0 & Hst). assert (th0 = th) as -> by congruence.
  rewrite (block_run x th); rewrite ?Hth, ?Hc, ?Hif, ?Hex; try done;
    [|by apply cur_nonnull|by apply (inv_noext _ _ I)].
  apply schedule_ok.
  rewrite (enqueue_dead_alive _ (set_status THREAD_BLOCKED th)) by
    (simpl; first [apply lookup_insert_eq | done]).
  pose proof (iv_cpu _ _ I) as [_ Hrun _ _ _].
  assert (Hnr : p ≠ PRun) by (rewrite <- Hp; unfold place_of; simpl; destruct (stack th) as [|[] ]; try done; by case_decide).
  unfold cur_with. rewrite Hth, Hc.
  eapply (inv_move true false s _ (current s) th _ PRun p I Ht); simpl; try done; eauto.
  - by rewrite Hst.
  - apply place_run; [done|]. by apply no_sched_head.
  - intros _. split; [|done]. apply (typed_status s); try done.
    + by apply cur_typed.
    + intros i. simpl. specialize (Hv i). destruct (semas s !! i), (semas x !! i); naive_solver.
  - naive_solver.
  - intros y thy Hy Hyt. rewrite (Hrun y thy Hyt). naive_solver.
  - apply (sleep_ext x); try done. intros t Ht'. unfold alarm_of. simpl.
    destruct (decide (t = current s)) as [->|]; [rewrite lookup_insert_eq, Hth, Ht; done|].
    rewrite lookup_insert_ne by done. by rewrite Hth.
Qed.

Section frame.
Context (s : kstate) (th : thread) (r : list frame).
Context (I : inv s) (Ht : threads s !! current s = Some th).
Abbreviation popped := (cur_with s (set_stack r th)).

Lemma exec_SemaDownLoop_block i sm :
  stack th = SemaDownLoop i :: r → semas s !! i = Some sm → value sm = 0 →
  ok_step (exec (SemaDownLoop i) popped).
Proof using All.
  intros E Hsm Hv. open_cur I Ht E. destruct Tlvl as [Hoff Tlvl]. simpl. unfold sema_down_loop. simpl.
  rewrite Hsm, decide_True by done. rewrite (thread_current_cur s th r I Ht). simpl.
  rewrite (upd_sema_insert _ _ sm) by done. simpl.
  set (sms := <[i := _]> (semas s)).
  change (set_semas sms popped) with (cur_with (set_semas sms s) (set_stack r th)).
  rewrite push_cur_with. simpl. rewrite set_stack_twice, <- E, set_stack_self.
  eapply (block_inv s _ th (PSema i) I Ht Hoff); simpl; try done.
  - by apply insert_id.
  - intros j. unfold sms. destruct (decide (j = i)) as [->|].
    + by rewrite lookup_insert_eq, Hsm.
    + by rewrite lookup_insert_ne.
  - by rewrite E.
  - unfold place_of. simpl. by rewrite E.
  - intros j [= <-]. eauto.
  - intros []; simpl; try done. intros Hq. unfold sms. rewrite lookup_insert_ne by congruence. done.
  - intros _. unfold sms. rewrite lookup_insert_eq, Hsm. simpl. by rewrite Permutation_app_comm.
  - apply (sleep_ext s); [apply (iv_sleep _ _ I)|done|done|]. intros t _.
    unfold alarm_of. simpl. by rewrite insert_id.
Qed.

Lemma exec_IdleLoop : stack th = IdleLoop :: r → ok_step (exec IdleLoop popped).
Proof using All.
  intros E. open_cur I Ht E. simpl. unfold idle_loop. cbn -[thread_block push].
  change (set_if_flag INTR_OFF popped) with (cur_with (set_if_flag INTR_OFF s) (set_stack r th)).
  rewrite push_cur_with. simpl. rewrite set_stack_twice.
  set (s1 := set_if_flag INTR_OFF (cur_with s (set_stack (StiHlt :: r) th))).
  assert (I1 : inv s1).
  { eapply (inv_restack _ _ _ _ I Ht); rewrite ?E; simpl; try done. frames. }
  change (cur_with (set_if_flag INTR_OFF s) (set_stack (StiHlt :: r) th)) with s1.
  eapply (block_inv s1 s1 (set_stack (StiHlt :: r) th) PIdle I1); try done.
  - exact (cur_with_lookup s _).
  - unfold place_of. simpl. by rewrite decide_True.
  - apply (iv_sleep _ _ I1).
Qed.

(** ** Sleeping *)

Lemma sleep_insert_perm less x xs : spec_insert_ordered less x xs ≡ₚ x :: xs.
Proof.
  induction xs as [|y ys IH]; simpl; [done|]. destruct (less x y); [done|].
  rewrite IH. constructor.
Qed.

Lemma sorted_impl {A} (R R' : A → A → Prop) l :
  (∀ y z, R y z → R' y z) → StronglySorted R l → StronglySorted R' l.
Proof.
  intros HR. induction 1 as [|y ys Hs IH Hy]; constructor; [done|].
  eapply Forall_impl; eauto.
Qed.

Lemma insert_ordered_ext f g x xs :
  (∀ u v, f u v = g u v) → spec_insert_ordered f x xs = spec_insert_ordered g x xs.
Proof. intros Hfg. induction xs as [|y ys IH]; simpl; [done|]. by rewrite Hfg, IH. Qed.

Lemma sleep_insert_sorted (a : Z → Z) x xs :
  StronglySorted (λ u v, a u ≤ a v) xs →
  StronglySorted (λ u v, a u ≤ a v) (spec_insert_ordered (λ u v, a u <=? a v) x xs).
Proof.
  induction 1 as [|y ys Hs IH Hy]; simpl; [repeat constructor|].
  destruct (a x <=? a y) eqn:E.
  - constructor; [by constructor|]. constructor; [lia|].
    eapply Forall_impl; [exact Hy|]. simpl. lia.
  - constructor; [done|]. rewrite sleep_insert_perm. constructor; [lia|done].
Qed.

Lemma insert_ordered_head (a : Z → Z) x xs y ys :
  spec_insert_ordered (λ u v, a u <=? a v) x xs = y :: ys →
  match xs with
  | [] => y = x
  | z :: _ => if a x <=? a z then y = x else y = z
  end.
Proof. destruct xs as [|z zs]; simpl; [by intros [= <-]|]. destruct (a x <=? a z); by intros [= <- _]. Qed.

(** [thread_sleep] keeps the sleepers ordered and the earliest alarm right. *)
Lemma sleep_insert_ok x t w :
  sleep_ok x → alarm_of x t = w →
  sleep_ok (set_sleep_list (spec_insert_ordered (timer_comparator x) t (sleep_list x))
              (earliest_time w x)).
Proof.
  intros [S1 S2 S3] Hw.
  assert (Ha : ∀ y, alarm_of (set_sleep_list (spec_insert_ordered (timer_comparator x) t (sleep_list x))
     (earliest_time w x)) y = alarm_of x y).
  { intros y. unfold alarm_of, earliest_time. simpl. by case_match. }
  assert (He : earliest_wake_up_tick (earliest_time w x) = Z.min (earliest_wake_up_tick x) w).
  { unfold earliest_time. case_match; simpl; lia. }
  assert (Hsorted : StronglySorted (λ u v, alarm_of x u ≤ alarm_of x v)
                      (spec_insert_ordered (timer_comparator x) t (sleep_list x)))
    by (by apply sleep_insert_sorted).
  split; cbn [sleep_list set_sleep_list earliest_wake_up_tick]; rewrite ?He.
  - eapply sorted_impl; [|exact Hsorted]; simpl. intros y z. by rewrite !Ha.
  - intros y. rewrite Ha, sleep_insert_perm, elem_of_cons. intros [->|Hy]; [lia|].
    specialize (S2 y Hy). lia.
  - intros Hlt. destruct (spec_insert_ordered _ _ _) as [|y ys] eqn:E.
    { pose proof (sleep_insert_perm (timer_comparator x) t (sleep_list x)) as Hp.
      rewrite E in Hp. by apply Permutation_nil_cons in Hp. }
    exists y, ys. split; [done|]. rewrite Ha. pose proof (insert_ordered_head _ _ _ _ _ E) as Hh.
    destruct (sleep_list x) as [|z zs] eqn:El.
    + subst y. destruct (decide (earliest_wake_up_tick x < sleep_tail)) as [Hx|Hx]; [|lia].
      destruct (S3 Hx) as (? & ? & ? & _). done.
    + specialize (S2 z ltac:(by left)). destruct (alarm_of x t <=? alarm_of x z) eqn:Ez; subst y.
      * destruct (decide (earliest_wake_up_tick x < sleep_tail)) as [Hx|Hx]; [|lia].
        destruct (S3 Hx) as (? & ? & [= <- <-] & Hz). lia.
      * destruct (S3 ltac:(lia)) as (? & ? & [= <- <-] & Hz). lia.
Qed.

Lemma exec_ThreadSleep w : stack th = ThreadSleep w :: r → ok_step (exec (ThreadSleep w) popped).
Proof using All.
  intros E. open_cur I Ht E. simpl. unfold thread_sleep.
  rewrite (thread_current_cur s th r I Ht). cbn -[thread_block push upd_thread earliest_time timer_comparator].
  change (set_if_flag INTR_OFF popped) with (cur_with (set_if_flag INTR_OFF s) (set_stack r th)).
  set (th1 := set_alarm w (set_stack (SleepDone (if_flag s) :: r) th)).
  set (s1 := set_if_flag INTR_OFF (cur_with s th1)).
  assert (I1 : inv s1).
  { pose proof (cur_status s th I Ht) as Hst.
    eapply (inv_cur s _ th th1); simpl; try done; rewrite ?E; simpl; try done.
    - apply (inv_noext _ _ I).
    - eauto.
    - split; simpl; [unfold lvl_of; simpl; by rewrite decide_True|exact Thold|done|frames].
    - eapply (locks_cur s _ th); simpl; [apply (iv_locks _ _ I)|..]; try done; rewrite ?E; try done.
      simpl. by rewrite Hst. }
  set (x0 := cur_with (set_if_flag INTR_OFF s) (set_alarm w (set_stack r th))).
  assert (Hx0 : upd_thread (current s) (set_alarm w) (cur_with (set_if_flag INTR_OFF s) (set_stack r th)) = x0)
    by exact (upd_cur_with (set_if_flag INTR_OFF s) _ _).
  rewrite !Hx0.
  assert (Hal : alarm_of x0 (current s) = w).
  { unfold alarm_of, x0. simpl. by rewrite lookup_insert_eq. }
  rewrite !Hal.
  assert (Hal1 : ∀ t, alarm_of x0 t = alarm_of s1 t).
  { intros t. unfold alarm_of, x0, s1, th1. simpl. destruct (decide (t = current s)) as [->|].
    - by rewrite !lookup_insert_eq.
    - by rewrite !lookup_insert_ne. }
  match goal with |- ok_step (thread_block ?x) => assert (x =
    set_sleep_list (spec_insert_ordered (timer_comparator s1) (current s) (sleep_list s1))
      (earliest_time w s1)) as -> end.
  { assert (Hte : ∀ u v, timer_comparator (earliest_time w x0) u v = timer_comparator s1 u v).
    { intros u v. unfold timer_comparator. rewrite <- !Hal1. unfold alarm_of, earliest_time.
      by case_match. }
    rewrite (insert_ordered_ext _ _ _ _ Hte). unfold earliest_time. simpl.
    destruct (earliest_wake_up_tick s >? w); unfold push; simpl;
      unfold x0, upd_thread; simpl; unfold s1, th1, cur_with; simpl;
      rewrite alter_insert_eq; done. }
  eapply (block_inv s1 _ th1 PSleep I1); try done; unfold earliest_time; simpl; try (by case_match).
  - exact (cur_with_lookup s _).
  - intros []; simpl; intros; by repeat case_match.
  - intros _. apply sleep_insert_perm.
  - apply (sleep_insert_ok s1); [apply (iv_sleep _ _ I1)|].
    rewrite <- Hal1. exact Hal.
Qed.

(** ** Giving up the processor *)

Lemma not_idle : ¬ idle_stack (stack th) → current s ≠ idle_thread s.
Proof using I Ht.
  intros Hn Heq. destruct (iv_cpu _ _ I) as [_ _ _ _ (thi & Hi & _ & Hs)].
  rewrite <- Heq in Hi. assert (thi = th) as -> by congruence. done.
Qed.

Lemma exec_ThreadYield : stack th = ThreadYield :: r → ok_step (exec ThreadYield popped).
Proof using All.
  intros E. open_cur I Ht E. simpl. unfold thread_yield.
  rewrite (thread_current_cur s th r I Ht). simpl. unfold intr_context. simpl.
  rewrite (inv_noext _ _ I). simpl. pose proof (cur_status s th I Ht) as Hst.
  set (s1 := set_if_flag INTR_OFF (cur_with s (set_stack (SetLevel (if_flag s) :: r) th))).
  assert (I1 : inv s1).
  { eapply (inv_restack _ _ _ _ I Ht); rewrite ?E; simpl; try done. frames. }
  pose proof (cur_with_lookup s (set_stack (SetLevel (if_flag s) :: r) th)) as Ht1.
  change (threads s1 !! current s1 = Some (set_stack (SetLevel (if_flag s) :: r) th)) in Ht1.
  pose proof (cur_typed _ _ I1 Ht1) as [U1 U2 U3 U4].
  assert (Hty : ∀ x, current x = current s1 → idle_thread x = idle_thread s1 →
    if_flag x = if_flag s1 → holders x = holders s1 → conds x = conds s1 → semas x = semas s1 →
    typed x (current s) (set_stack (DoSchedule THREAD_READY :: SetLevel (if_flag s) :: r) th)).
  { intros x Hc Hid Hf Hh Hco Hs. split; simpl.
    - unfold lvl_of. rewrite Hc, decide_True by done. rewrite Hf. done.
    - rewrite Hh. exact U2.
    - rewrite Hid. by eauto 10.
    - constructor; [done|]. apply (Forall_live_grows s1); [|done].
      split; [by rewrite Hs|]. by rewrite Hh, Hco. }
  pose proof (iv_cpu _ _ I1) as [_ Hrun1 _ _ _]. pose proof (iv_sleep _ _ I1) as Hsl1.
  assert (Hsl : ∀ rl, sleep_ok (set_if_flag INTR_OFF (cur_with (set_ready_list rl s)
    (set_stack (DoSchedule THREAD_READY :: SetLevel (if_flag s) :: r) th)))).
  { intros rl. eapply (sleep_ext s1); try done. intros t _. unfold alarm_of, s1. simpl.
    destruct (decide (t = current s)) as [->|]; [by rewrite !lookup_insert_eq|].
    by rewrite !lookup_insert_ne. }
  case_decide as Hid; simpl in Hid.
  - eexists. split; [reflexivity|].
    change (set_ready_list ?l (set_if_flag INTR_OFF popped))
      with (set_if_flag INTR_OFF (cur_with (set_ready_list l s) (set_stack r th))).
    rewrite push_flag, push_cur_with. simpl. rewrite set_stack_twice.
    eapply (inv_move true true s1 _ (current s) _ (set_stack (DoSchedule THREAD_READY :: SetLevel (if_flag s) :: r) th) PRun PReady I1 Ht1); simpl; try done.
    + by rewrite insert_insert_eq.
    + by rewrite Hst.
    + by apply place_run.
    + unfold place_of. simpl. rewrite Hst. by rewrite decide_False.
    + intros []; done.
    + intros _ _. by rewrite Permutation_app_comm.
    + intros _. split; [by apply Hty|done].
    + by rewrite Hst.
    + intros x thx Hx Hxt. apply (Hrun1 x thx Hxt).
  - assert (current s = idle_thread s) as Hid' by (by destruct (decide (current s = idle_thread s))).
    eexists. split; [reflexivity|].
    rewrite push_flag, push_cur_with. simpl. rewrite set_stack_twice.
    eapply (inv_move true true s1 _ (current s) _ (set_stack (DoSchedule THREAD_READY :: SetLevel (if_flag s) :: r) th) PRun PRun I1 Ht1); simpl; try done.
    + by rewrite insert_insert_eq.
    + by rewrite Hst.
    + by apply place_run.
    + unfold place_of. simpl. rewrite Hst. by rewrite decide_True.
    + intros _. split; [by apply Hty|done].
    + by rewrite Hst.
    + intros x thx Hx Hxt. apply (Hrun1 x thx Hxt).
    + pose proof (Hsl (ready_list s)) as Hs. by destruct s.
Qed.

Lemma do_schedule_enter st :
  if_flag s = INTR_OFF → stack th = DoSchedule st :: r →
  destruction_req s = [] →
  exec (DoSchedule st) popped = schedule (cur_with s (set_status st (set_stack r th))).
Proof using All.
  intros Hoff E Hd. simpl. unfold do_schedule, intr_get_level. simpl. rewrite Hoff. simpl.
  rewrite (thread_current_cur s th r I Ht). simpl. rewrite Hd. by rewrite upd_cur_with.
Qed.

Lemma sleep_cur th' : alarm th' = alarm th → sleep_ok (cur_with s th').
Proof using I Ht.
  intros Ha. apply (sleep_ext s); [apply (iv_sleep _ _ I)|done|done|]. intros t _.
  unfold alarm_of. simpl. destruct (decide (t = current s)) as [->|].
  - rewrite lookup_insert_eq, Ht. simpl. done.
  - by rewrite lookup_insert_ne.
Qed.

Lemma exec_DoSchedule_ready :
  stack th = DoSchedule THREAD_READY :: r → destruction_req s = [] →
  ok_step (exec (DoSchedule THREAD_READY) popped).
Proof using All.
  intros E Hd. open_cur I Ht E. destruct Tlvl as [Hoff Tlvl].
  rewrite do_schedule_enter by done. apply schedule_ok.
  rewrite (enqueue_dead_alive _ (set_status THREAD_READY (set_stack r th))) by
    (simpl; first [apply lookup_insert_eq | done]).
  pose proof (cur_status s th I Ht) as Hst. destruct Tloc as (v & q & ->).
  pose proof (iv_cpu _ _ I) as [_ Hrun _ _ _].
  assert (Hr2 : ∀ x thx, x ≠ current s → threads s !! x = Some thx →
     status thx = THREAD_RUNNING ↔ false = true ∧ x = current s).
  { intros x thx Hx Hxt. rewrite (Hrun x thx Hxt). naive_solver. }
  assert (Hty : typed (cur_with s (set_status THREAD_READY (set_stack (SetLevel v :: q) th)))
     (current s) (set_status THREAD_READY (set_stack (SetLevel v :: q) th))).
  { split; simpl; [done|exact Thold|done|done]. }
  destruct (decide (current s = idle_thread s)) as [Hid|Hid].
  - eapply (inv_move true false s _ (current s) th (set_status THREAD_READY (set_stack (SetLevel v :: q) th)) PRun PIdle I Ht); simpl; try done.
    + by rewrite Hst.
    + unfold place_of. rewrite Hst, E. by rewrite decide_True.
    + unfold place_of. simpl. by rewrite decide_True.
    + by rewrite E.
    + by rewrite E.
    + by rewrite E.
    + naive_solver.
    + by apply sleep_cur.
  - eapply (inv_move true false s _ (current s) th (set_status THREAD_READY (set_stack (SetLevel v :: q) th)) PReady PReady I Ht); simpl; try done.
    + by rewrite Hst.
    + unfold place_of. rewrite Hst, E. by rewrite decide_False.
    + unfold place_of. simpl. by rewrite decide_False.
    + by rewrite E.
    + by rewrite E.
    + naive_solver.
    + by apply sleep_cur.
Qed.

Lemma exec_DoSchedule_dying :
  stack th = DoSchedule THREAD_DYING :: r → destruction_req s = [] →
  ok_step (exec (DoSchedule THREAD_DYING) popped).
Proof using All.
  intros E Hd. open_cur I Ht E. destruct Tlvl as (Hoff & q & Hq).
  rewrite do_schedule_enter by done. apply schedule_ok. rewrite Hq in *.
  set (th' := set_status THREAD_DYING (set_stack (NotReached :: q) th)).
  pose proof (cur_status s th I Ht) as Hst.
  assert (Hni : current s ≠ idle_thread s) by (apply not_idle; rewrite E; by intros []).
  pose proof (iv_cpu _ _ I) as [_ Hrun _ _ _].
  assert (Hr2 : ∀ x thx, x ≠ current s → threads s !! x = Some thx →
     status thx = THREAD_RUNNING ↔ false = true ∧ x = current s).
  { intros x thx Hx Hxt. rewrite (Hrun x thx Hxt). naive_solver. }
  assert (Hint : ∀ l, internal l → holders s !! l ≠ Some (current s)).
  { intros l Hi Hl. specialize (Thold l _ Hl). simpl in Thold. specialize (Thold Hi).
    by rewrite bool_decide_eq_true_2 in Thold. }
  assert (Hst' : thread_status_of (cur_with s th') (current (cur_with s th')) = Some THREAD_DYING).
  { unfold thread_status_of. simpl. by rewrite lookup_insert_eq. }
  unfold enqueue_dead. rewrite Hst'. simpl.
  assert (Hrun0 : place_of (idle_thread s) (initial_thread s) (current s) th = PRun).
  { apply place_run; [done|]. by rewrite E. }
  destruct (decide (current s = initial_thread s)) as [Hin|Hin].
  - rewrite bool_decide_eq_false_2 by (by intros ?).
    eapply (inv_move true false s _ (current s) th th' PRun PGone I Ht); simpl; try done.
    + by rewrite Hst.
    + unfold place_of. simpl. by rewrite decide_True.
    + by rewrite E.
    + naive_solver.
    + by apply sleep_cur.
  - rewrite bool_decide_eq_true_2 by done.
    eapply (inv_move true false s _ (current s) th th' PRun PDead I Ht); simpl; try done.
    + by rewrite Hst.
    + unfold place_of. simpl. by rewrite decide_False.
    + intros []; done.
    + intros _ _. by rewrite Permutation_app_comm.
    + by rewrite E.
    + naive_solver.
    + pose proof (sleep_cur th' eq_refl) as Hs. apply (sleep_ext _ _ Hs); done.
Qed.

End frame.

End layout.
End KInvBlock.
