(* ===== verification/KInvWake.v ===== *)
(** Waking threads: [thread_unblock] under [sema_up] and the timer. *)
From S2P Require Import Prelude KState Interrupt Threads Synch ThreadLife Timer Machine KInv KInvFacts KInvStep KInvExec KInvSync KInvMove KInvBlock.
Import KState Interrupt Threads Synch ThreadLife Timer Machine KInv KInvFacts KInvStep KInvExec
  KInvSync KInvMove KInvBlock.
Local Open Scope Z_scope.

Module KInvWake.

(** The state [thread_unblock] leaves. *)
Definition woken (t : Z) (th : thread) (s : kstate) : kstate :=
  set_threads (<[t := set_status THREAD_READY th]> (threads s))
    (set_ready_list (ready_list s ++ [t]) s).

Lemma unblock_run x t th :
  threads x !! t = Some th → status th = THREAD_BLOCKED → t ≠ NULL →
  in_external_intr x = false ∨ if_flag x = INTR_OFF →
  thread_unblock t x = Ok (woken t th x).
Proof.
  intros Ht Hs Hn He. unfold thread_unblock.
  rewrite assert_res_ok by (unfold is_thread; rewrite Ht, !bool_decide_eq_true_2 by eauto; done).
  simpl. rewrite assert_res_ok by
    (apply bool_decide_eq_true_2; unfold thread_status_of; simpl; rewrite Ht; simpl; by rewrite Hs).
  rewrite (upd_thread_insert _ _ th) by done.
  assert (Hl : intr_set_level (if_flag x) (set_threads (<[t:=set_status THREAD_READY th]> (threads x))
    (set_ready_list (ready_list x ++ [t]) (set_if_flag INTR_OFF x)))
    = Ok (INTR_OFF, woken t th x)).
  { unfold intr_set_level, intr_enable, intr_disable, intr_context, woken. destruct (if_flag x) eqn:Hf.
    - by destruct x; simpl in *; subst.
    - destruct He as [He|]; [|done]. simpl. rewrite He. simpl. by destruct x; simpl in *; subst. }
  change (intr_get_level x) with (if_flag x). cbn [threads set_ready_list set_if_flag]. by rewrite Hl.
Qed.

Section layout.
Context `{Layout}.

Lemma idle_not_sema s t th i :
  inv s → threads s !! t = Some th →
  (place_of (idle_thread s) (initial_thread s) t th = PSema i
   ∨ place_of (idle_thread s) (initial_thread s) t th = PSleep) →
  t ≠ idle_thread s ∧ t ≠ current s ∧ t ≠ NULL ∧ status th = THREAD_BLOCKED.
Proof.
  intros I Ht Hp.
  assert (∃ f r, stack th = f :: r ∧ status th = THREAD_BLOCKED ∧ ¬ idle_stack (f :: r)) as (f & r & E & Hs & Hni).
  { destruct Hp as [Hp|Hp].
    - destruct (place_sema_inv _ _ _ _ _ Hp) as (? & r & ?). eexists _, r. split; [done|]. split; [done|]. by intros [].
    - destruct (place_sleep_inv _ _ _ _ Hp) as (? & v & r & ?). eexists _, r. split; [done|]. split; [done|]. by intros []. }
  split; [|split; [|split; [|done]]].
  - intros ->. destruct (iv_cpu _ _ I) as [_ _ _ _ (thi & Hi & _ & Hst)].
    assert (thi = th) as -> by congruence. by rewrite E in Hst.
  - intros ->. destruct (cur_running s I) as (th0 & ? & ?). congruence.
  - by apply (iv_typing _ _ I t th).
Qed.

(** The head of a place's list becomes ready. *)
Lemma wake_inv s x t th p :
  inv s → threads s !! t = Some th →
  place_of (idle_thread s) (initial_thread s) t th = p →
  (∃ i, p = PSema i) ∨ p = PSleep →
  threads x = threads s → ready_list x = ready_list s → current x = current s →
  idle_thread x = idle_thread s → initial_thread x = initial_thread s →
  if_flag x = if_flag s → in_external_intr x = in_external_intr s → used_map x = used_map s →
  holders x = holders s → conds x = conds s →
  (∀ i, value <$> semas x !! i = value <$> semas s !! i) →
  (∀ q, q ≠ p → list_of x q = list_of s q) →
  (listed s p → list_of s p ≡ₚ t :: list_of x p) →
  sleep_ok (woken t th x) →
  inv (woken t th x).
Proof.
  intros I Ht Hp Hpk Hth Hrl Hc Hid Hin Hif Hex Hum Hho Hco Hv L1 L2 Hsl.
  assert (∃ i, place_of (idle_thread s) (initial_thread s) t th = PSema i
    ∨ place_of (idle_thread s) (initial_thread s) t th = PSleep) as [i Hp'].
  { destruct Hpk as [[i ->]| ->]; [exists i; auto|exists IdleStarted; auto]. }
  destruct (idle_not_sema s t th i I Ht Hp') as (Hni & Hnc & Hnn & Hst).
  pose proof (iv_cpu _ _ I) as [_ Hrun _ _ _].
  assert (Hst' : ∃ f r, stack th = f :: r ∧ no_sched (f :: r)).
  { destruct Hp' as [Hx|Hx].
    - destruct (place_sema_inv _ _ _ _ _ Hx) as (? & r & ->). by eexists _, r.
    - destruct (place_sleep_inv _ _ _ _ Hx) as (? & v & r & ->). by eexists _, r. }
  destruct Hst' as (f & r & E & Hns).
  eapply (inv_move true true s _ t th (set_status THREAD_READY th) p PReady I Ht); simpl; try done; rewrite ?Hth; try done.
  - by rewrite Hst.
  - intros ->. by destruct Hpk as [[? ?]|?].
  - unfold place_of. simpl. rewrite E. rewrite decide_False by done. by destruct f.
  - intros q Hq1 Hq2. rewrite <- L1 by done. by destruct q.
  - by destruct Hpk as [[? ->]| ->].
  - intros _ Hl. rewrite (L2 Hl). destruct Hpk as [[? ->]| ->]; done.
  - intros _ _. rewrite Hrl. by rewrite Permutation_app_comm.
  - intros _. split; [|done]. apply (typed_status s); try done.
    + apply (iv_typing _ _ I _ _ Ht). by rewrite Hst.
    + intros j. simpl. specialize (Hv j). destruct (semas s !! j), (semas x !! j); naive_solver.
  - naive_solver.
  - intros y thy Hy Hyt. apply (Hrun y thy Hyt).
Qed.

Lemma woken_sleep s t th :
  threads s !! t = Some th → sleep_ok s → sleep_ok (woken t th s).
Proof.
  intros Ht Hs. apply (sleep_ext s); [done..|]. intros y _. unfold alarm_of. simpl.
  destruct (decide (y = t)) as [->|]; [by rewrite lookup_insert_eq, Ht|].
  by rewrite lookup_insert_ne.
Qed.

(** [sema_up] on a semaphore with a waiter. *)
Lemma wake_sema s i sm t ws th :
  inv s → semas s !! i = Some sm → waiters sm = t :: ws → threads s !! t = Some th →
  inv (woken t th (set_semas (<[i := Semaphore (value sm) ws]> (semas s)) s)).
Proof.
  intros I Hsm Hw Ht.
  assert (Hp : place_of (idle_thread s) (initial_thread s) t th = PSema i).
  { destruct (proj1 (lo_mem _ (iv_lists _ _ I) (PSema i) t ltac:(simpl; eauto))) as (th' & Ht' & Hp).
    - simpl. rewrite Hsm. simpl. rewrite Hw. by left.
    - congruence. }
  eapply (wake_inv s _ t th (PSema i) I Ht); simpl; eauto.
  - intros j. destruct (decide (j = i)) as [->|].
    + by rewrite lookup_insert_eq, Hsm.
    + by rewrite lookup_insert_ne.
  - intros []; simpl; try done. intros Hq. by rewrite lookup_insert_ne by congruence.
  - intros _. rewrite lookup_insert_eq, Hsm. simpl. by rewrite Hw.
  - apply woken_sleep; [done|]. apply (sleep_ext s); [apply (iv_sleep _ _ I)|done..].
Qed.

Lemma waiter_thread s i sm t ws :
  inv s → semas s !! i = Some sm → waiters sm = t :: ws →
  ∃ th, threads s !! t = Some th ∧ status th = THREAD_BLOCKED ∧ t ≠ NULL ∧ t ≠ current s.
Proof.
  intros I Hsm Hw.
  destruct (proj1 (lo_mem _ (iv_lists _ _ I) (PSema i) t ltac:(simpl; eauto))) as (th & Ht & Hp).
  { simpl. rewrite Hsm. simpl. rewrite Hw. by left. }
  exists th. destruct (idle_not_sema s t th i I Ht (or_introl Hp)) as (? & ? & ? & ?). done.
Qed.

Section frame.
Context (s : kstate) (th : thread) (r : list frame).
Context (I : inv s) (Ht : threads s !! current s = Some th).
Abbreviation popped := (cur_with s (set_stack r th)).

(** [sema_up] as a function of the state, wherever it is called with the
    interrupt context clear. *)
Lemma sema_up_none x i sm :
  in_external_intr x = false → semas x !! i = Some sm → waiters sm = [] →
  sema_up i x = Ok (set_semas (<[i := Semaphore (u32 (value sm + 1)) []]> (semas x)) x).
Proof.
  intros He Hsm Hw. unfold sema_up. rewrite Hsm. simpl. rewrite Hw. simpl.
  rewrite (upd_sema_insert _ _ sm) by done. rewrite set_level_ok by done. simpl. rewrite Hw.
  by destruct x.
Qed.

Lemma sema_up_some x i sm t ws tht :
  in_external_intr x = false → semas x !! i = Some sm → waiters sm = t :: ws →
  threads x !! t = Some tht → status tht = THREAD_BLOCKED → t ≠ NULL →
  sema_up i x
  = Ok (set_semas (<[i := Semaphore (u32 (value sm + 1)) ws]> (semas x)) (woken t tht x)).
Proof.
  intros He Hsm Hw Htt Hs Hn. unfold sema_up. rewrite Hsm. simpl. rewrite Hw.
  rewrite (upd_sema_insert _ _ sm) by done.
  rewrite (unblock_run _ t tht) by (simpl; auto). simpl.
  rewrite (upd_sema_insert _ _ (Semaphore (value sm) ws)) by (simpl; apply lookup_insert_eq).
  rewrite set_level_ok by done. simpl. rewrite insert_insert_eq. by destruct x.
Qed.

Lemma exec_SemaUp i : stack th = SemaUp i :: r → ok_step (exec (SemaUp i) popped).
Proof using All.
  intros E. open_cur I Ht E. destruct Tlf as [sm Hsm]. simpl.
  pose proof (inv_noext _ _ I) as Hne.
  destruct (waiters sm) as [|t ws] eqn:Hw.
  - rewrite (sema_up_none _ i sm) by done. eexists. split; [reflexivity|].
    pose proof (exec_SemaUp_give s th r I Ht i sm E Hsm) as Hi. by rewrite Hw in Hi.
  - destruct (waiter_thread s i sm t ws I Hsm Hw) as (tht & Htt & Hst & Hnn & Hnc).
    rewrite (sema_up_some _ i sm t ws tht); simpl; try done; [|by rewrite lookup_insert_ne].
    eexists. split; [reflexivity|].
    pose proof (wake_sema s i sm t ws tht I Hsm Hw Htt) as I2.
    set (s2 := woken t tht (set_semas (<[i:=Semaphore (value sm) ws]> (semas s)) s)) in *.
    assert (Ht2 : threads s2 !! current s2 = Some th) by (unfold s2; simpl; by rewrite lookup_insert_ne).
    assert (Hsm2 : semas s2 !! i = Some (Semaphore (value sm) ws)) by apply lookup_insert_eq.
    pose proof (exec_SemaUp_give s2 th r I2 Ht2 i _ E Hsm2) as Hi. simpl in Hi.
    rewrite insert_insert_eq in Hi. unfold cur_with, woken in *. simpl in *.
    rewrite insert_insert_ne by done. exact Hi.
Qed.

End frame.

End layout.
End KInvWake.
