(* ===== verification/KInvTimer.v ===== *)
(** The timer interrupt: what it wakes, and that it keeps the invariant. *)
From S2P Require Import Prelude KState Interrupt Threads Synch ThreadLife Timer Machine KInv KInvFacts KInvStep KInvExec KInvSync KInvMove KInvBlock KInvWake.
Import KState Interrupt Threads Synch ThreadLife Timer Machine KInv KInvFacts KInvStep KInvExec
  KInvSync KInvMove KInvBlock KInvWake.
Local Open Scope Z_scope.

Module KInvTimer.

(** The state of a handler as the interrupted thread will find it. *)
Definition after_iret (x : kstate) : kstate := set_in_external_intr false (push [Iret] x).

Lemma after_iret_woken x t th :
  t ≠ current x → after_iret (woken t th x) = woken t th (after_iret x).
Proof.
  intros Hne. unfold after_iret, push, woken, upd_thread. simpl.
  by rewrite alter_insert_ne by done.
Qed.

Lemma after_iret_lookup x t : t ≠ current x → threads (after_iret x) !! t = threads x !! t.
Proof. intros Hne. simpl. by apply lookup_alter_ne. Qed.

Lemma after_iret_alarm x t : alarm_of (after_iret x) t = alarm_of x t.
Proof.
  unfold alarm_of. destruct (decide (t = current x)) as [->|]; [|by rewrite after_iret_lookup].
  simpl. rewrite lookup_alter_eq. by destruct (threads x !! current x).
Qed.

Lemma woken_alarm x t th y : threads x !! t = Some th → alarm_of (woken t th x) y = alarm_of x y.
Proof.
  intros Ht. unfold alarm_of. simpl. destruct (decide (y = t)) as [->|].
  - by rewrite lookup_insert_eq, Ht.
  - by rewrite lookup_insert_ne.
Qed.

Section layout.
Context `{Layout}.

(** One iteration of [thread_wakeup]'s loop. *)
Definition wake_one (t : Z) (th : thread) (r : list Z) (x : kstate) : kstate :=
  let y := woken t th (set_sleep_list r x) in set_earliest_wake_up_tick (first_alarm y) y.

Lemma wake_one_sleep x t th r :
  sleep_ok x → sleep_list x = t :: r → threads x !! t = Some th → sleep_ok (wake_one t th r x).
Proof.
  intros [S1 S2 S3] Hl Ht.
  assert (Ha : ∀ y, alarm_of (wake_one t th r x) y = alarm_of x y).
  { intros y. exact (woken_alarm x t th y Ht). }
  rewrite Hl in S1. apply StronglySorted_inv in S1 as [S1 _].
  assert (He : earliest_wake_up_tick (wake_one t th r x)
    = match r with u :: _ => alarm_of x u | [] => sleep_tail end).
  { unfold wake_one, first_alarm. simpl. destruct r as [|u r]; [done|].
    exact (woken_alarm x t th u Ht). }
  split; cbn [sleep_list wake_one set_earliest_wake_up_tick]; rewrite ?He.
  - eapply sorted_impl; [|exact S1]. intros y z. simpl. by rewrite !Ha.
  - intros y Hy. rewrite Ha. destruct r as [|u r]; [by apply elem_of_nil in Hy|].
    apply StronglySorted_inv in S1 as [_ Hu]. rewrite Forall_forall in Hu.
    apply elem_of_cons in Hy as [->|Hy]; [lia|auto].
  - intros Hlt. simpl. destruct r as [|u r]; [lia|]. exists u, r. by rewrite Ha.
Qed.

Lemma wake_one_inv x t th r :
  inv (after_iret x) → sleep_list x = t :: r → threads x !! t = Some th →
  t ≠ current x → inv (after_iret (wake_one t th r x)).
Proof.
  intros I Hl Ht Hne.
  assert (Heq : after_iret (wake_one t th r x)
    = woken t th (set_earliest_wake_up_tick (first_alarm (woken t th (set_sleep_list r x)))
        (set_sleep_list r (after_iret x)))).
  { unfold wake_one, after_iret, push, woken, upd_thread. simpl. by rewrite alter_insert_ne by done. }
  assert (Ht' : threads (after_iret x) !! t = Some th) by (by rewrite after_iret_lookup).
  rewrite Heq.
  assert (Hp : place_of (idle_thread x) (initial_thread x) t th = PSleep).
  { destruct (proj1 (lo_mem _ (iv_lists _ _ I) PSleep t Logic.I)) as (th' & Ht2 & Hp).
    - simpl. rewrite Hl. by left.
    - simpl in Hp. congruence. }
  eapply (wake_inv (after_iret x) _ t th PSleep I Ht'); simpl; eauto.
  - intros []; done.
  - intros _. by rewrite Hl.
  - pose proof (wake_one_sleep (after_iret x) t th r (iv_sleep _ _ I) Hl Ht') as Hs.
    unfold wake_one in Hs.
    assert (Hf : first_alarm (woken t th (set_sleep_list r (after_iret x)))
      = first_alarm (woken t th (set_sleep_list r x))).
    { unfold first_alarm. simpl. destruct r as [|u r]; [done|].
      rewrite !woken_alarm by done. exact (after_iret_alarm x u). }
    rewrite Hf in Hs. exact Hs.
Qed.

(** What the loop does: the sleepers whose alarm has come, and only they,
    become ready, in the order of their alarms. *)
Lemma wakeup_loop_ok n : ∀ fuel x,
  n < sleep_tail →
  inv (after_iret x) → in_external_intr x = true → if_flag x = INTR_OFF →
  (length (sleep_list x) < fuel)%nat →
  ∃ x' ws, wakeup_loop fuel n x = Ok x' ∧ inv (after_iret x')
    ∧ sleep_list x = ws ++ sleep_list x'
    ∧ ready_list x' = ready_list x ++ ws
    ∧ (∀ t, t ∈ ws → alarm_of x t ≤ n) ∧ (∀ t, t ∈ sleep_list x' → n < alarm_of x t)
    ∧ (∀ t, alarm_of x' t = alarm_of x t)
    ∧ current x' = current x ∧ in_external_intr x' = true ∧ if_flag x' = INTR_OFF
    ∧ yield_on_return x' = yield_on_return x
    ∧ threads x' !! current x = threads x !! current x.
Proof.
  induction fuel as [|fuel IH]; intros x Hn I He Hf Hfuel; [lia|].
  pose proof (iv_sleep _ _ I) as [S1 S2 S3]. simpl in S2, S3. cbn [wakeup_loop].
  rewrite Z.geb_leb. destruct (earliest_wake_up_tick x <=? n) eqn:Hc.
  - destruct (S3 ltac:(lia)) as (t & r & Hl & Ha). rewrite Hl.
    destruct (proj1 (lo_mem _ (iv_lists _ _ I) PSleep t Logic.I)) as (th & Ht & Hp).
    { simpl. rewrite Hl. by left. }
    destruct (idle_not_sema _ t th IdleStarted I Ht (or_intror Hp)) as (_ & Hnc & Hnn & Hst).
    simpl in Hnc. rewrite after_iret_lookup in Ht by done. rewrite after_iret_alarm in Ha.
    rewrite (unblock_run _ t th) by (simpl; auto). cbn [mbind res_bind].
    change (set_earliest_wake_up_tick _ _) with (wake_one t th r x).
    assert (Haw : ∀ y, alarm_of (wake_one t th r x) y = alarm_of x y) by (intros y; exact (woken_alarm x t th y Ht)).
    destruct (IH (wake_one t th r x)) as (x' & ws & H1 & H2 & H3 & H4 & H5 & H6 & H7 & H8 & H9 & H10 & H11 & H12);
      try done.
    + by apply wake_one_inv.
    + simpl. rewrite Hl in Hfuel. simpl in Hfuel. lia.
    + exists x', (t :: ws). simpl in H3, H4, H8, H11, H12. split; [done|]. split; [done|].
      split; [by rewrite H3|]. split; [by rewrite H4, <- app_assoc|].
      split; [intros y [->|Hy]%elem_of_cons; [lia|]; rewrite <- Haw; auto|].
      split; [intros y Hy; rewrite <- Haw; auto|]. split; [intros y; by rewrite H7, Haw|].
      split; [done|]. split; [done|]. split; [done|]. split; [done|].
      rewrite H12. by rewrite lookup_insert_ne.
  - exists x, []. rewrite app_nil_r. split_and!; try done.
    + intros t Ht. by apply elem_of_nil in Ht.
    + intros t Ht. specialize (S2 t Ht). rewrite after_iret_alarm in S2. lia.
Qed.

Context `{!LayoutOk}.

Lemma thread_wakeup_ok n x :
  n < sleep_tail →
  inv (after_iret x) → in_external_intr x = true → if_flag x = INTR_OFF →
  ∃ x' ws, thread_wakeup n x = Ok x' ∧ inv (after_iret x')
    ∧ sleep_list x = ws ++ sleep_list x'
    ∧ ready_list x' = ready_list x ++ ws
    ∧ (∀ t, t ∈ ws → alarm_of x t ≤ n) ∧ (∀ t, t ∈ sleep_list x' → n < alarm_of x t)
    ∧ (∀ t, alarm_of x' t = alarm_of x t)
    ∧ current x' = current x ∧ in_external_intr x' = true ∧ if_flag x' = INTR_OFF
    ∧ yield_on_return x' = yield_on_return x
    ∧ threads x' !! current x = threads x !! current x.
Proof.
  intros Hn I He Hf. unfold thread_wakeup. destruct (sleep_list x) as [|t r] eqn:Hl.
  - exists (set_earliest_wake_up_tick INT64_MAX x), []. simpl. rewrite app_nil_r, Hl.
    split_and!; try done; [|by intros t ?%elem_of_nil..].
    destruct I as [I1 I2 I3 I4 I5 I6]. simpl in *.
    split; [destruct I1; by split|destruct I2; by split| |destruct I4; by split|destruct I5; by split|].
    + intros t th Ht. destruct (I3 t th Ht) as [? I3']. split; [done|]. intros Hd. destruct (I3' Hd). by split.
    + split; simpl; rewrite ?Hl; [constructor|by intros t ?%elem_of_nil|].
      pose proof sleep_tail_pos. lia.
  - rewrite <- Hl. exact (wakeup_loop_ok n (2 + length (sleep_list x)) x Hn I He Hf ltac:(lia)).
Qed.

(** ** The whole interrupt *)

Lemma timer_entry_inv s :
  inv s → if_flag s = INTR_ON → inv (after_iret (timer_entry s)).
Proof.
  intros I Hon. destruct (cur_running s I) as (th & Ht & Hst).
  pose proof (cur_typed _ _ I Ht) as [T1 T2 T3 T4]. unfold lvl_of in T1.
  rewrite decide_True, Hon in T1 by done.
  assert (Hh : head (stack th) ≠ Some (DoSchedule THREAD_READY)).
  { intros Hh. destruct (stack th) as [|f q]; [done|]. injection Hh as ->. by destruct T1. }
  unfold timer_entry, cur_stack. rewrite Ht. simpl.
  assert (Hgen : ∀ fs, (fs = stack th ∨ stack th = Hlt :: fs) →
    inv (set_if_flag INTR_OFF (cur_with s (set_stack (Iret :: fs) th)))).
  { intros fs Hfs. eapply (inv_restack _ _ _ _ I Ht); simpl; try done.
    - split; [done|]. destruct Hfs as [->|E]; [done|]. rewrite E in T1. by destruct T1.
    - intros l h Hl Hho. destruct Hfs as [->|E]; [done|]. by rewrite E in Hho.
    - destruct Hfs as [->|E]; [|rewrite E in T3; simpl in T3; naive_solver].
      split; [done|]. split; [|done]. destruct (stack th) as [|[] q]; try done.
      destruct v; try done; by destruct T1.
    - constructor; [done|]. destruct Hfs as [->|E]; [done|]. rewrite E in T4. by inversion T4.
    - intros l. destruct Hfs as [->|E]; [done|]. by rewrite E.
    - destruct Hfs as [->|E]; [done|]. by rewrite E.
    - intros _. destruct Hfs as [->|E]; [done|]. by rewrite E. }
  pose proof (inv_noext _ _ I) as Hne.
  assert (Hfin : ∀ fs, (fs = stack th ∨ stack th = Hlt :: fs) →
    inv (after_iret (set_if_flag INTR_OFF (cur_with s (set_stack fs th))))).
  { intros fs Hfs. specialize (Hgen fs Hfs).
    assert (E : after_iret (set_if_flag INTR_OFF (cur_with s (set_stack fs th)))
      = set_if_flag INTR_OFF (cur_with s (set_stack (Iret :: fs) th))).
    { unfold after_iret. rewrite push_flag, push_cur_with. simpl. rewrite set_stack_twice.
      destruct s; simpl in *; by subst. }
    by rewrite E. }
  destruct (stack th) as [|f q] eqn:E.
  - specialize (Hfin [] (or_introl eq_refl)). unfold cur_with in Hfin.
    rewrite <- E, set_stack_self, insert_id in Hfin by done. by destruct s.
  - assert (Hd : f = Hlt ∨ f ≠ Hlt) by (destruct (decide (f = Hlt)); auto).
    destruct Hd as [->|Hf].
    + rewrite (set_cur_stack_eq s th q Ht). apply Hfin. by right.
    + specialize (Hfin (f :: q) (or_introl eq_refl)). unfold cur_with in Hfin.
      rewrite <- E, set_stack_self, insert_id in Hfin by done.
      destruct f; try done; by destruct s.
Qed.

(** The tick does not fail and changes nothing the invariant mentions. *)
Lemma thread_tick_ok x th :
  threads x !! current x = Some th → status th = THREAD_RUNNING → current x ≠ NULL →
  in_external_intr x = true →
  ∃ x', thread_tick x = Ok x' ∧ threads x' = threads x ∧ current x' = current x
    ∧ ready_list x' = ready_list x ∧ sleep_list x' = sleep_list x
    ∧ (inv (after_iret x) → inv (after_iret x')) ∧ in_external_intr x' = true
    ∧ if_flag x' = if_flag x ∧ ticks x' = ticks x.
Proof.
  intros Ht Hs Hn He. unfold thread_tick. rewrite (thread_current_ok x th) by done.
  cbn [mbind res_bind]. unfold intr_yield_on_return, intr_context.
  destruct (decide (current x = idle_thread x)); cbn -[u32];
    destruct (_ >=? TIME_SLICE); cbn -[u32]; rewrite ?He; cbn -[u32];
    (eexists; split; [reflexivity|]; cbn -[u32]; split_and!; try done;
     intros I; by eapply (inv_irrel _ (after_iret x))).
Qed.

Lemma timer_entry_alarm s t : alarm_of (timer_entry s) t = alarm_of s t.
Proof.
  unfold timer_entry, alarm_of. destruct (cur_stack s) as [|[] q]; try done. simpl.
  destruct (decide (t = current s)) as [->|].
  - rewrite lookup_alter_eq. by destruct (threads s !! current s).
  - by rewrite lookup_alter_ne.
Qed.

Lemma step_timer_spec s :
  inv s → if_flag s = INTR_ON → - 2 ^ 63 ≤ ticks s → ticks s + 1 < sleep_tail →
  ∃ s' ws, intr_handler timer_interrupt (timer_entry s) = Ok s' ∧ inv s'
    ∧ sleep_list s = ws ++ sleep_list s' ∧ ready_list s' = ready_list s ++ ws
    ∧ (∀ t, t ∈ ws → alarm_of s t ≤ ticks s + 1)
    ∧ (∀ t, t ∈ sleep_list s' → ticks s + 1 < alarm_of s t).
Proof.
  intros I Hon Hlo Hhi. pose proof (timer_entry_alarm s) as Hal. pose proof (timer_entry_inv s I Hon) as I0.
  set (x := timer_entry s) in *.
  assert (Hx : if_flag x = INTR_OFF ∧ in_external_intr x = false ∧ ticks x = ticks s
    ∧ sleep_list x = sleep_list s ∧ ready_list x = ready_list s).
  { unfold x, timer_entry. pose proof (inv_noext _ _ I). repeat case_match; done. }
  destruct Hx as (Hf & He & Htk & Hxs & Hxr). clearbody x.
  destruct (cur_running _ I0) as (th & Ht & Hst). simpl in Ht.
  rewrite lookup_alter_eq in Ht.
  destruct (threads x !! current x) as [th0|] eqn:Ht0; [|done]. injection Ht as <-. simpl in Hst.
  pose proof (cur_nonnull _ I0) as Hnn. simpl in Hnn.
  unfold intr_handler, intr_get_level, intr_context. rewrite Hf, He. cbn -[timer_interrupt].
  unfold timer_interrupt.
  set (y := set_ticks _ _).
  destruct (thread_tick_ok y th0) as (y' & -> & Hy1 & Hy2 & Hy3 & Hy4 & Hy5 & Hy6 & Hy7 & Hy8); try done.
  cbn [mbind res_bind].
  assert (Iy : inv (after_iret y')).
  { apply Hy5. unfold y. by eapply (inv_irrel _ (after_iret x)). }
  pose proof sleep_tail_pos as Hst63. unfold INT64_MAX in Hst63.
  assert (Htk' : ticks y' = ticks s + 1).
  { rewrite Hy8. unfold y. simpl. rewrite Htk. by rewrite i64_small by lia. }
  assert (Hal' : ∀ t, alarm_of y' t = alarm_of s t).
  { intros t. rewrite <- Hal. unfold alarm_of. by rewrite Hy1. }
  rewrite Htk'.
  destruct (thread_wakeup_ok (ticks s + 1) y')
    as (z & ws & -> & Iz & Hz4 & Hz5 & Hz6 & Hz7 & _ & Hz1 & Hz2 & Hz3 & _ & _);
    [lia|done|done|by rewrite Hy7|].
  cbn -[push]. rewrite Hz3, Hz2. cbn -[push]. eexists _, ws. split; [reflexivity|].
  rewrite Hy3 in Hz5. rewrite Hy4 in Hz4. simpl in Hz4, Hz5. rewrite Hxs in Hz4. rewrite Hxr in Hz5.
  assert (Hres : ∀ fs, inv (push fs (set_in_external_intr false z)) →
    inv (push fs (set_in_external_intr false z))
    ∧ sleep_list s = ws ++ sleep_list (push fs (set_in_external_intr false z))
    ∧ ready_list (push fs (set_in_external_intr false z)) = ready_list s ++ ws
    ∧ (∀ t, t ∈ ws → alarm_of s t ≤ ticks s + 1)
    ∧ (∀ t, t ∈ sleep_list (push fs (set_in_external_intr false z)) → ticks s + 1 < alarm_of s t)).
  { intros fs Ifs. split_and!; try done; intros t Ht'; rewrite <- Hal'; auto. }
  apply Hres. clear Hres.
  destruct (yield_on_return z).
  - destruct (cur_running _ Iz) as (thz & Htz & Hsz). pose proof (cur_typed _ _ Iz Htz) as [T1 T2 T3 T4].
    assert (Hfz : if_flag (after_iret z) = INTR_OFF) by (by simpl).
    unfold lvl_of in T1. rewrite decide_True, Hfz in T1 by done.
    assert (E : push [ThreadYield; Iret] (set_in_external_intr false z)
      = set_if_flag INTR_OFF (cur_with (after_iret z) (set_stack (ThreadYield :: stack thz) thz))).
    { simpl in Htz. rewrite lookup_alter_eq in Htz.
      destruct (threads z !! current z) as [thz0|] eqn:Ez; [|done]. injection Htz as <-.
      unfold push, upd_thread, after_iret, push, upd_thread, cur_with. simpl.
      assert (Hm : ∀ f, alter f (current z) (threads z) = <[current z := f thz0]> (threads z)).
      { intros f. apply map_eq. intros k. destruct (decide (k = current z)) as [->|].
        - by rewrite lookup_alter_eq, lookup_insert_eq, Ez.
        - by rewrite lookup_alter_ne, lookup_insert_ne. }
      rewrite !Hm, insert_insert_eq. destruct z; simpl in *; by subst. }
    assert (∃ q, stack thz = Iret :: q) as [q Hq].
    { simpl in Htz. rewrite lookup_alter_eq in Htz.
      destruct (threads z !! current z) as [thz0|]; [|done]. injection Htz as <-. by eexists. }
    rewrite E. eapply (inv_restack _ _ _ _ Iz Htz); simpl; try done.
    + by rewrite Hq.
    + by rewrite Hq in *.
    + by constructor.
  - exact Iz.
Qed.

Lemma step_timer s :
  inv s → if_flag s = INTR_ON → - 2 ^ 63 ≤ ticks s → ticks s + 1 < sleep_tail →
  ok_step (intr_handler timer_interrupt (timer_entry s)).
Proof.
  intros I H1 H2 H3. destruct (step_timer_spec s I H1 H2 H3) as (s' & ws & -> & I' & _).
  by exists s'.
Qed.

End layout.
End KInvTimer.
