(* ===== verification/KInvLife.v ===== *)
(** Creation and destruction of threads keep the invariant. *)
From S2P Require Import Prelude KState Interrupt Threads Synch ThreadLife Timer Machine KInv KInvFacts KInvStep KInvExec KInvSync KInvMove KInvBlock KInvWake.
Import KState Interrupt Threads Synch ThreadLife Timer Machine KInv KInvFacts KInvStep KInvExec
  KInvSync KInvMove KInvBlock KInvWake.
Local Open Scope Z_scope.

Module KInvLife.

(** ** The page bitmap *)

Lemma scan_and_flip_spec m i m' :
  scan_and_flip m = Some (i, m') → m !! i = Some false ∧ m' = <[i := true]> m.
Proof.
  revert i m'. induction m as [|[] m IH]; intros i m'; simpl; [done| |by intros [= <- <-]].
  destruct (scan_and_flip m) as [[j k]|] eqn:E; simpl; [|done]. intros [= <- <-].
  by destruct (IH j k eq_refl) as [? ->].
Qed.

Section layout.
Context `{LayoutOk}.

Lemma page_addr_inj i j : page_addr i = page_addr j → i = j.
Proof. unfold page_addr, PGSIZE. lia. Qed.

Lemma page_addr_div i : page_addr i / PGSIZE = pool_base / PGSIZE + Z.of_nat i.
Proof.
  unfold page_addr. rewrite (Z.mul_comm PGSIZE), Z.div_add; [done|]. unfold PGSIZE. lia.
Qed.

Lemma page_idx_addr i : page_idx (page_addr i) = i.
Proof. unfold page_idx. rewrite page_addr_div. lia. Qed.

Lemma page_addr_aligned i : page_addr i mod PGSIZE = 0.
Proof.
  unfold page_addr. rewrite (Z.mul_comm PGSIZE), Z.mod_add by (unfold PGSIZE; lia).
  apply pool_base_aligned.
Qed.

Lemma page_addr_nonnull i : page_addr i ≠ NULL.
Proof. unfold page_addr, PGSIZE, NULL. pose proof pool_base_pos. lia. Qed.

(** ** Freeing a dead thread's page *)

Definition reaped (v : Z) (i : nat) (rest : list Z) (s : kstate) : kstate :=
  set_used_map (<[i := false]> (used_map s))
    (set_threads (delete v (threads s)) (set_destruction_req rest s)).

Lemma reaped_lists s v i rest thv :
  lists_ok s → destruction_req s = v :: rest → threads s !! v = Some thv →
  place_of (idle_thread s) (initial_thread s) v thv = PDead →
  lists_ok (reaped v i rest s).
Proof.
  intros [Hnd Hmem Hbad Hsem] Hd Hv Hp.
  assert (Hpl : ∀ x q, placed (reaped v i rest s) x q ↔ x ≠ v ∧ placed s x q).
  { intros x q. unfold placed. simpl. destruct (decide (x = v)) as [->|].
    - rewrite lookup_delete_eq. naive_solver.
    - rewrite lookup_delete_ne by done. naive_solver. }
  pose proof (Hnd PDead) as Hdn. simpl in Hdn. rewrite Hd in Hdn. apply NoDup_cons in Hdn as [Hvr Hdn].
  split.
  - intros []; simpl; first [exact (Hnd PReady)|exact (Hnd (PSema _))|exact (Hnd PSleep)
      |exact Hdn|constructor].
  - intros q x Hq. rewrite Hpl. assert (Hq' : listed s q) by (by destruct q).
    destruct (decide (q = PDead)) as [->|Hqd].
    + simpl. rewrite <- (Hmem PDead x Logic.I). simpl. rewrite Hd, elem_of_cons. naive_solver.
    + assert (list_of (reaped v i rest s) q = list_of s q) as -> by (by destruct q).
      rewrite (Hmem q x Hq'). split; [|naive_solver]. intros Hx. split; [|done]. intros ->.
      destruct Hx as (th & Hth & Hpq). congruence.
  - intros x. rewrite Hpl. naive_solver.
  - intros x j. rewrite Hpl. intros [_ Hx]. by apply (Hsem x j).
Qed.

Lemma reap_inv s v rest :
  inv s → destruction_req s = v :: rest →
  ∃ i, v = page_addr i ∧ used_map s !! i = Some true ∧ inv (reaped v i rest s)
    ∧ v ≠ current s.
Proof.
  intros I Hd.
  destruct (proj1 (lo_mem _ (iv_lists _ _ I) PDead v Logic.I)) as (thv & Hv & Hp).
  { simpl. rewrite Hd. by left. }
  destruct (place_dead_inv _ _ _ _ Hp) as (Hst & Hvi & q & Hq).
  destruct (pg_used _ (iv_pages _ _ I) v) as (i & Hi & Hu); [eauto|done|].
  exists i. split; [done|]. split; [done|].
  pose proof I as [[[thc Hc] Hrun Hext Hoff Hidle] Hlists Htyping Hlk Hpages Hsleep].
  assert (Hvc : v ≠ current s).
  { intros ->. destruct (cur_running s I) as (th0 & ? & ?). congruence. }
  split; [|done].
  assert (Hne : ∀ x, x ≠ v → delete v (threads s) !! x = threads s !! x) by (intros; by apply lookup_delete_ne).
  assert (Hsome : ∀ x th, delete v (threads s) !! x = Some th → x ≠ v ∧ threads s !! x = Some th).
  { intros x th Hx. by apply lookup_delete_Some in Hx as [? ?]. }
  split.
  - split; simpl; try done.
    + rewrite Hne by done. eauto.
    + intros x th [_ Hx]%Hsome. eauto.
    + destruct Hidle as (thi & Hi' & Hdi & Hs). exists thi. rewrite Hne; [done|]. intros E.
      rewrite E in Hi'. congruence.
  - by eapply reaped_lists.
  - apply (typing_frame s); [done|done|done|]. intros x th [_ Hx]%Hsome.
    destruct (Htyping x th Hx) as [Hn _]. split; [done|]. intros Hdx. left. exists th.
    repeat split; eauto.
  - apply (locks_frame s); simpl; [done| |apply (lk_dom _ Hlk)| |apply (lk_wait _ Hlk)].
    + intros l. left. split; [done|]. split; [done|]. intros x _. unfold cnt_of. simpl.
      destruct (decide (x = v)) as [->|]; [|by rewrite Hne].
      rewrite lookup_delete_eq, Hv. simpl. by rewrite Hq.
    + intros l h Hint Hl Ha. exists h. split; [done|]. destruct Ha as [|(x & Hx & Hxd)]; [auto|].
      right. exists x. simpl. split; [|done]. rewrite Hne; [done|]. intros ->. congruence.
  - destruct Hpages as [P1 P2 P3 P4]. split; simpl.
    + intros t [th [Htv Hx]%Hsome] Hti. destruct (P1 t) as (j & Hj & Huj); [eauto|done|].
      exists j. split; [done|]. rewrite list_lookup_insert_ne; [done|]. intros ->. congruence.
    + intros j. rewrite length_insert. apply P2.
    + intros a th t b [_ Ha]%Hsome Hda Hpe. destruct (P3 a th t b Ha Hda Hpe) as ((j & Hj & Huj) & Hb).
      assert (Htv : t ≠ v).
      { intros ->. destruct b; [|congruence]. destruct Hb as (x & Hx & Hpx). congruence. }
      split.
      * exists j. split; [done|]. rewrite list_lookup_insert_ne; [done|]. intros ->. congruence.
      * destruct b; [|by rewrite Hne]. destruct Hb as (x & Hx & Hpx). exists x. split; [|done].
        simpl. by rewrite Hne.
    + intros a b tha thb t ba bb [_ Ha]%Hsome [_ Hb]%Hsome. eauto.
  - apply (sleep_ext s); [done|done|done|]. intros t Ht. unfold alarm_of. simpl.
    rewrite Hne; [done|]. intros ->.
    destruct (proj1 (lo_mem _ Hlists PSleep v Logic.I) Ht) as (x & Hx & Hpx). congruence.
Qed.

(** A lock whose semaphore is up has no holder. *)
Lemma free_holder s l h sm :
  locks_ok s → holders s !! l = Some h → semas s !! LockSema l = Some sm → value sm ≠ 0 →
  h = NULL ∧ value sm = 1.
Proof.
  intros Hlk Hl Hsm Hv. destruct (free_spec s l h sm (lk_tok _ Hlk l) Hl Hsm Hv) as [H1 H2].
  split; [|done]. destruct (decide (h = NULL)) as [|Hn]; [done|]. specialize (H2 h Hn).
  unfold tokens in H2. rewrite decide_True in H2 by done. lia.
Qed.

Section frame.
Context (s : kstate) (th : thread) (r : list frame).
Context (I : inv s) (Ht : threads s !! current s = Some th).
Abbreviation popped := (cur_with s (set_stack r th)).

(** The whole [palloc_free_page] when the pool's lock is free: a waiter of
    the lock, if there is one, becomes ready. *)
Lemma reap_run st v rest sm :
  stack th = DoSchedule st :: r → destruction_req s = v :: rest →
  semas s !! LockSema PoolLock = Some sm → value sm ≠ 0 →
  ∃ i, inv (reaped v i rest s)
  ∧ palloc_free_page_off v [DoSchedule st] (set_destruction_req rest popped)
    = Ok match waiters sm with
      | [] => reaped v i rest s
      | t :: ws =>
        match threads s !! t with
        | Some tht => woken t tht (set_semas (<[LockSema PoolLock := Semaphore (value sm) ws]> (semas s))
                        (reaped v i rest s))
        | None => s
        end
      end.
Proof using All.
  intros E Hd Hsm Hv. destruct (reap_inv s v rest I Hd) as (i & -> & Hu & I1 & Hvc).
  exists i. split; [done|]. pose proof (cur_status s th I Ht) as Hst.
  pose proof (cur_nonnull s I) as Hnn. pose proof (iv_locks _ _ I) as Hlk.
  destruct (lk_int _ Hlk PoolLock Logic.I) as (h & Hh & _).
  destruct (free_holder s PoolLock h sm Hlk Hh Hsm Hv) as [-> Hv1].
  assert (Hlen : (i < length (used_map s))%nat) by (by apply lookup_lt_Some in Hu).
  unfold palloc_free_page_off, palloc_free_check. rewrite page_addr_aligned.
  rewrite assert_res_ok by done. unfold page_from_pool. rewrite page_addr_div. simpl.
  rewrite (proj2 (Z.leb_le _ _)), (proj2 (Z.ltb_lt _ _)) by lia. simpl. rewrite Hsm.
  rewrite decide_False by done. unfold lock_held_by_current_thread. simpl. rewrite Hh.
  set (x := set_threads (delete (page_addr i) (<[current s:=set_stack r th]> (threads s)))
              (set_destruction_req rest popped)).
  assert (Hxt : threads x !! current x = Some (set_stack r th)).
  { unfold x. simpl. rewrite lookup_delete_ne by done. apply lookup_insert_eq. }
  rewrite (thread_current_ok x (set_stack r th)) by done. simpl.
  rewrite bool_decide_eq_false_2 by (intros E'; by rewrite <- E' in Hnn). simpl.
  unfold lock_acquire_set. rewrite (thread_current_ok _ (set_stack r th)) by done. simpl.
  unfold palloc_clear. simpl. rewrite page_idx_addr, Hu. simpl.
  rewrite (upd_sema_insert x _ sm) by done. unfold set_holder. simpl.
  set (y := set_holders _ _).
  assert (Hysm : semas y !! LockSema PoolLock = Some (Semaphore (u32 (value sm - 1)) (waiters sm)))
    by apply lookup_insert_eq.
  assert (Hext : in_external_intr y = false) by apply (inv_noext _ _ I).
  assert (Hu1 : u32 (u32 (value sm - 1) + 1) = value sm) by (by rewrite Hv1).
  assert (Hstk : set_stack ([DoSchedule st] ++ stack (set_stack r th)) (set_stack r th) = th).
  { simpl. rewrite set_stack_twice, <- E. apply set_stack_self. }
  assert (Hho : <[PoolLock:=NULL]> (<[PoolLock:=current s]> (holders s)) = holders s).
  { rewrite insert_insert_eq. by apply insert_id. }
  destruct (waiters sm) as [|t ws] eqn:Hw.
  - rewrite (sema_up_none y _ (Semaphore (u32 (value sm - 1)) [])) by done. simpl. f_equal.
    unfold push, upd_thread, reaped, y. simpl. rewrite Hu1, Hho, !insert_insert_eq.
    rewrite (insert_id (semas s)) by (rewrite Hsm; destruct sm; simpl in *; by subst).
    assert (Hm : alter (λ t, set_stack ([DoSchedule st] ++ stack t) t) (current s)
      (delete (page_addr i) (<[current s:=set_stack r th]> (threads s))) = delete (page_addr i) (threads s)).
    { apply map_eq. intros k. destruct (decide (k = current s)) as [->|].
      - rewrite lookup_alter_eq, !lookup_delete_ne, lookup_insert_eq, Ht by done. simpl.
        f_equal. exact Hstk.
      - rewrite lookup_alter_ne by done. destruct (decide (k = page_addr i)) as [->|].
        + by rewrite !lookup_delete_eq.
        + by rewrite !lookup_delete_ne, lookup_insert_ne. }
    simpl in Hm. rewrite Hm. by destruct s.
  - destruct (waiter_thread _ _ _ t ws I1 Hsm Hw) as (tht & Htt & Hstt & Htn & Htc).
    simpl in Htt, Htc. apply lookup_delete_Some in Htt as [Htv Htt]. rewrite Htt.
    rewrite (sema_up_some y _ (Semaphore (u32 (value sm - 1)) (t :: ws)) t ws tht); try done.
    2:{ unfold y, x. simpl. by rewrite lookup_delete_ne, lookup_insert_ne. }
    simpl. f_equal. unfold push, upd_thread, reaped, woken, y. simpl.
    rewrite Hu1, Hho, !insert_insert_eq.
    assert (Hm : alter (λ t, set_stack ([DoSchedule st] ++ stack t) t) (current s)
      (<[t:=set_status THREAD_READY tht]> (delete (page_addr i) (<[current s:=set_stack r th]> (threads s))))
      = <[t:=set_status THREAD_READY tht]> (delete (page_addr i) (threads s))).
    { apply map_eq. intros k. destruct (decide (k = current s)) as [->|].
      - rewrite lookup_alter_eq, !lookup_insert_ne, !lookup_delete_ne, lookup_insert_eq, Ht by done.
        simpl. f_equal. exact Hstk.
      - rewrite lookup_alter_ne by done. destruct (decide (k = t)) as [->|].
        { by rewrite !lookup_insert_eq. }
        rewrite !lookup_insert_ne by done. destruct (decide (k = page_addr i)) as [->|].
        + by rewrite !lookup_delete_eq.
        + by rewrite !lookup_delete_ne, lookup_insert_ne. }
    simpl in Hm. rewrite Hm. by destruct s.
Qed.

Lemma exec_DoSchedule_reap st v rest sm :
  stack th = DoSchedule st :: r → destruction_req s = v :: rest →
  semas s !! LockSema PoolLock = Some sm → value sm ≠ 0 →
  ok_step (exec (DoSchedule st) popped).
Proof using All.
  intros E Hd Hsm Hv.
  assert (Hoff : if_flag s = INTR_OFF).
  { pose proof (cur_typed _ _ I Ht) as [T1 _ _ _]. unfold lvl_of in T1.
    rewrite decide_True, E in T1 by done. by destruct st, T1. }
  simpl. unfold do_schedule, intr_get_level. simpl. rewrite Hoff. simpl.
  rewrite (thread_current_cur s th r I Ht). simpl. rewrite Hd.
  destruct (reap_run st v rest sm E Hd Hsm Hv) as (i & I1 & ->). eexists. split; [reflexivity|].
  destruct (waiters sm) as [|t ws] eqn:Hw; [done|].
  destruct (waiter_thread _ _ _ t ws I1 Hsm Hw) as (tht & Htt & _).
  pose proof (wake_sema (reaped v i rest s) _ sm t ws tht I1 Hsm Hw Htt) as I2.
  simpl in Htt. apply lookup_delete_Some in Htt as [Htv Htt]. by rewrite Htt.
Qed.

(** ** Creation *)

Lemma scan_pages i fs :
  used_map s !! i = Some false → head (stack th) ≠ Some (DoSchedule THREAD_READY) →
  pend (stack th) = None → pend fs = Some (page_addr i, false) →
  pages_ok (set_used_map (<[i := true]> (used_map s)) (cur_with s (set_stack fs th))).
Proof using All.
  intros Hu Hh Hp0 Hp1. pose proof (cur_status s th I Ht) as Hst.
  destruct (iv_pages _ _ I) as [P1 P2 P3 P4].
  assert (Hlen : (i < length (used_map s))%nat) by (by apply lookup_lt_Some in Hu).
  assert (Hnone : threads s !! page_addr i = None).
  { destruct (threads s !! page_addr i) as [x|] eqn:Ex; [|done]. exfalso.
    destruct (P1 (page_addr i)) as (j & Hj & Huj); [eauto|by apply P2|].
    apply page_addr_inj in Hj. congruence. }
  assert (Hkeep : ∀ j, used_map s !! j = Some true → <[i:=true]> (used_map s) !! j = Some true).
  { intros j Hj. destruct (decide (j = i)) as [->|]; [by rewrite list_lookup_insert_eq|].
    by rewrite list_lookup_insert_ne. }
  assert (Hcur : current s ≠ page_addr i) by (intros E; rewrite E in Ht; congruence).
  assert (Hoth : ∀ a x b, a ≠ current s → threads s !! a = Some x → status x ≠ THREAD_DYING →
    pend (stack x) ≠ Some (page_addr i, b)).
  { intros a x b Ha Hx Hd Hpe. destruct (P3 a x _ b Hx Hd Hpe) as [(j & Hj & Huj) _].
    apply page_addr_inj in Hj. congruence. }
  split; simpl.
  - intros t Hx Hti. destruct (P1 t) as (j & Hj & Huj); eauto.
    destruct (decide (t = current s)) as [->|]; [eauto|]. by rewrite lookup_insert_ne in Hx.
  - intros j. rewrite length_insert. apply P2.
  - intros a x t b. destruct (decide (a = current s)) as [->|Ha].
    + rewrite lookup_insert_eq. intros [= <-] _. simpl. rewrite Hp1. intros [= <- <-]. split.
      * exists i. split; [done|]. by apply list_lookup_insert_eq.
      * by rewrite lookup_insert_ne by done.
    + rewrite lookup_insert_ne by done. intros Hx Hd Hpe.
      destruct (P3 a x t b Hx Hd Hpe) as [(j & Hj & Huj) Hb]. split; [eauto|].
      assert (Htc : t ≠ current s).
      { intros ->. destruct b; [|congruence]. destruct Hb as (y & Hy & Hpy).
        assert (y = th) as -> by congruence. by rewrite place_run in Hpy. }
      destruct b; [|by rewrite lookup_insert_ne]. destruct Hb as (y & Hy & Hpy). exists y.
      simpl. by rewrite lookup_insert_ne.
  - intros a b tha thb t ba bb. destruct (decide (a = current s)) as [->|Ha], (decide (b = current s)) as [->|Hb];
      rewrite ?lookup_insert_eq, ?lookup_insert_ne by done; try done.
    + intros [= <-] Hx _ Hd. simpl. rewrite Hp1. intros [= <- <-] Hpe. by destruct (Hoth b thb bb).
    + intros Hx [= <-] Hd _. simpl. rewrite Hp1. intros Hpe [= <- <-]. by destruct (Hoth a tha ba).
    + eauto.
Qed.

Lemma exec_CreateScan_some nm p f i m :
  stack th = CreateScan nm p f :: r → scan_and_flip (used_map s) = Some (i, m) →
  ok_step (exec (CreateScan nm p f) popped).
Proof using All.
  intros E Hs. open_cur I Ht E. destruct f; [done|]. simpl. unfold create_scan. simpl. rewrite Hs.
  apply scan_and_flip_spec in Hs as [Hu ->]. eexists. split; [reflexivity|].
  change (set_used_map ?m popped) with (cur_with (set_used_map m s) (set_stack r th)).
  rewrite push_cur_with. simpl. rewrite set_stack_twice.
  pose proof (internal_lock s I PoolLock Logic.I) as HP. pose proof (cur_status s th I Ht) as Hst.
  destruct Tloc as [Hpri Hpn].
  eapply (inv_cur_pages s _ th (set_stack _ th)); simpl; try done; rewrite ?E; simpl; try done.
  - apply (inv_noext _ _ I).
  - eauto.
  - split; simpl; [unfold lvl_of; simpl; by rewrite decide_True| |done|frames].
    intros l h Hl. specialize (Thold l h Hl). simpl in Thold. destruct Thold as (Hp & Hi & Hh).
    destruct (decide (PoolLock = l)) as [<-|Hne].
    + rewrite decide_True in Hh by done. split; [auto|]. split; done.
    + rewrite decide_False in Hh by done. split; [|done]. destruct l; try done. by intros _; apply Hi.
  - eapply (locks_cur s _ th); simpl; [apply (iv_locks _ _ I)|..]; try done; rewrite ?E; try done.
    simpl. by rewrite Hst.
  - pose proof (scan_pages i (LockRelease PoolLock :: CreateInit (page_addr i) nm p F_client :: r) Hu) as Hpg.
    apply Hpg; by rewrite ?E.
Qed.

(** The running thread starts to prepare the new thread [t]. *)
Lemma pend_pages t i fs :
  t = page_addr i → used_map s !! i = Some true → placed s t PNew →
  head (stack th) ≠ Some (DoSchedule THREAD_READY) →
  pend fs = Some (t, true) →
  (∀ a x b, a ≠ current s → threads s !! a = Some x → status x ≠ THREAD_DYING →
    pend (stack x) ≠ Some (t, b)) →
  pages_ok (cur_with s (set_stack fs th)).
Proof using All.
  intros Hti Hu Hnew Hh Hp1 Hoth. pose proof (cur_status s th I Ht) as Hst.
  destruct (iv_pages _ _ I) as [P1 P2 P3 P4].
  assert (Hkeep : ∀ y, placed s y PNew → placed (cur_with s (set_stack fs th)) y PNew).
  { intros y (x & Hx & Hpx). exists x. split; [|done]. simpl. rewrite lookup_insert_ne; [done|].
    intros <-. assert (x = th) as -> by congruence. by rewrite place_run in Hpx. }
  split; simpl.
  - intros y Hx Hyi. destruct (P1 y) as (j & Hj & Huj); eauto.
    destruct (decide (y = current s)) as [->|]; [eauto|]. by rewrite lookup_insert_ne in Hx.
  - done.
  - intros a x y b. destruct (decide (a = current s)) as [->|Ha].
    + rewrite lookup_insert_eq. intros [= <-] _. simpl. rewrite Hp1. intros [= <- <-]. split; eauto.
    + rewrite lookup_insert_ne by done. intros Hx Hd Hpe.
      destruct (P3 a x y b Hx Hd Hpe) as [(j & Hj & Huj) Hb]. split; [eauto|].
      destruct b; [eauto|]. rewrite lookup_insert_ne; [done|]. congruence.
  - intros a b tha thb y ba bb. destruct (decide (a = current s)) as [->|Ha], (decide (b = current s)) as [->|Hb];
      rewrite ?lookup_insert_eq, ?lookup_insert_ne by done; try done.
    + intros [= <-] Hx _ Hd. simpl. rewrite Hp1. intros [= <- <-] Hpe. by destruct (Hoth b thb bb).
    + intros Hx [= <-] Hd _. simpl. rewrite Hp1. intros Hpe [= <- <-]. by destruct (Hoth a tha ba).
    + eauto.
Qed.

(** A fresh thread structure, on no list and with nothing to run. *)
Lemma new_inv t i nm p :
  threads s !! t = None → t = page_addr i → used_map s !! i = Some true →
  (∀ a x b, threads s !! a = Some x → status x ≠ THREAD_DYING → pend (stack x) ≠ Some (t, b)) →
  inv (set_threads (<[t := Thread 0 THREAD_BLOCKED nm p 0 INTR_OFF []]> (threads s)) s).
Proof using H0 I.
  intros Hn Hti Hu Hoth. set (nt := Thread _ _ _ _ _ _ _).
  pose proof I as [[[thc Hc] Hrun Hext Hoff Hidle] Hlists Htyping Hlk Hpages Hsleep].
  assert (Hne : ∀ x y, threads s !! x = Some y → <[t := nt]> (threads s) !! x = Some y).
  { intros x y Hx. rewrite lookup_insert_ne; [done|]. congruence. }
  assert (Hcase : ∀ x y, <[t := nt]> (threads s) !! x = Some y → x = t ∧ y = nt ∨ threads s !! x = Some y).
  { intros x y. destruct (decide (x = t)) as [->|].
    - rewrite lookup_insert_eq. intros [= <-]. auto.
    - rewrite lookup_insert_ne by done. auto. }
  assert (Htn : t ≠ NULL) by (rewrite Hti; apply page_addr_nonnull).
  split.
  - split; simpl; try done; [eauto| |].
    + intros x y [[-> ->]|Hx]%Hcase; [|eauto]. split; [done|]. intros [_ ->]. congruence.
    + destruct Hidle as (thi & Hi & ? & ?). exists thi. split; [eauto|done].
  - destruct Hlists as [Hnd Hmem Hbad Hsem].
    assert (Hpl : ∀ x q, q ≠ PNew → placed (set_threads (<[t := nt]> (threads s)) s) x q ↔ placed s x q).
    { intros x q Hq. split; intros (y & Hy & Hp); simpl in *.
      - apply Hcase in Hy as [[-> ->]|Hy]; [done|]. by exists y.
      - exists y. eauto. }
    split; [done| |intros x; rewrite Hpl by done; apply Hbad|intros x j; rewrite Hpl by done; apply Hsem].
    intros q x Hq. assert (q ≠ PNew) by (by intros ->). rewrite Hpl by done. by apply Hmem.
  - apply (typing_frame s); [done|done|done|]. intros x y [[-> ->]|Hx]%Hcase.
    + split; [done|]. intros _. right. split; simpl; [done| |done|done].
      intros l h Hl Hint. destruct (lk_int _ Hlk l Hint) as (h' & Hh' & Ha).
      assert (h' = h) as -> by congruence. apply bool_decide_eq_false_2. intros ->.
      destruct Ha as [|(z & Hz & _)]; congruence.
    + destruct (Htyping x y Hx) as [Hnx _]. split; [done|]. intros Hd. left. exists y.
      repeat split; eauto.
  - apply (locks_frame s); simpl; [done| |apply (lk_dom _ Hlk)| |apply (lk_wait _ Hlk)].
    + intros l. left. split; [done|]. split; [done|]. intros x _. unfold cnt_of. simpl.
      destruct (decide (x = t)) as [->|]; [by rewrite lookup_insert_eq, Hn|].
      by rewrite lookup_insert_ne.
    + intros l h Hint Hl Ha. exists h. split; [done|]. destruct Ha as [|(x & Hx & Hxd)]; [auto|].
      right. exists x. simpl. eauto.
  - destruct Hpages as [P1 P2 P3 P4]. split; simpl.
    + intros x [y [[-> ->]|Hx]%Hcase] Hxi; eauto.
    + done.
    + intros a x y b [[-> ->]|Hx]%Hcase Hd Hpe; [done|].
      destruct (P3 a x y b Hx Hd Hpe) as [Hj Hb]. split; [done|].
      assert (y ≠ t) by (intros ->; by apply (Hoth a x b)).
      destruct b; [|by rewrite lookup_insert_ne]. destruct Hb as (z & Hz & Hpz). exists z.
      simpl. rewrite lookup_insert_ne by done. done.
    + intros a b x y z ba bb [[-> ->]|Hx]%Hcase [[-> ->]|Hy]%Hcase; try done. eauto.
  - apply (sleep_ext s); [done|done|done|]. intros x Hx. unfold alarm_of. simpl.
    destruct (decide (x = t)) as [->|]; [|by rewrite lookup_insert_ne].
    by rewrite lookup_insert_eq, Hn.
Qed.

End frame.

Section create.
Context (s : kstate) (th : thread) (r : list frame).
Context (I : inv s) (Ht : threads s !! current s = Some th).
Abbreviation popped := (cur_with s (set_stack r th)).

Lemma exec_CreateInit t nm p f :
  stack th = CreateInit t nm p f :: r → ok_step (exec (CreateInit t nm p f) popped).
Proof using All.
  intros E. open_cur I Ht E. destruct f; [done|]. destruct Tloc as [Hpri Hpn].
  pose proof (cur_status s th I Ht) as Hst.
  destruct (pg_pend _ (iv_pages _ _ I) (current s) th t false Ht) as [(i & Hti & Hu) Hnone];
    [by rewrite Hst|by rewrite E|].
  assert (Huniq : ∀ a x b, a ≠ current s → threads s !! a = Some x → status x ≠ THREAD_DYING →
    pend (stack x) ≠ Some (t, b)).
  { intros a x b Ha Hx Hd Hpe. apply Ha.
    eapply (pg_uniq _ (iv_pages _ _ I) a (current s) x th t b false); eauto; [by rewrite Hst|by rewrite E]. }
  pose proof (internal_lock s I TidLock Logic.I) as HP.
  (* the page is set aside *)
  set (fs1 := LockAcquire TidLock :: LockRelease TidLock :: r).
  set (s1 := set_if_flag (if_flag s) (cur_with s (set_stack fs1 th))).
  assert (I1 : inv s1).
  { eapply (inv_restack_pages _ _ _ _ I Ht); rewrite ?E; simpl; try done.
    - intros l h Hl [Hi Hh]. destruct (decide (TidLock = l)) as [<-|Hne]; [|done].
      rewrite (Hi Logic.I) in *. by split.
    - frames.
    - eapply (pages_cur s _ th (set_stack fs1 th)); try done; [apply (iv_pages _ _ I)|by rewrite E|by left]. }
  assert (Htc : t ≠ current s) by congruence.
  (* the thread structure is set up *)
  set (nt := Thread 0 THREAD_BLOCKED (String.substring 0 15 nm) p 0 INTR_OFF []).
  set (s2 := set_threads (<[t := nt]> (threads s1)) s1).
  assert (I2 : inv s2).
  { eapply (new_inv s1 I1 t i); try done.
    - unfold s1. simpl. by rewrite lookup_insert_ne.
    - unfold s1. simpl. intros a x b. destruct (decide (a = current s)) as [->|].
      + rewrite lookup_insert_eq. intros [= <-] _. simpl. by rewrite Hpn.
      + rewrite lookup_insert_ne by done. eauto. }
  assert (Ht2 : threads s2 !! current s2 = Some (set_stack fs1 th)).
  { unfold s2, s1. simpl. rewrite lookup_insert_ne by done. apply lookup_insert_eq. }
  (* and the running thread goes on to allocate_tid *)
  set (fs3 := LockAcquire TidLock :: CreateTid t F_client :: r).
  assert (I3 : inv (set_if_flag (if_flag s) (cur_with s2 (set_stack fs3 (set_stack fs1 th))))).
  { eapply (inv_restack_pages s2 _ _ _ I2 Ht2); simpl; try done.
    - intros l h Hl. destruct (decide (TidLock = l)) as [<-|Hne].
      + intros (Hf & _ & Hh). split; [done|]. split; [done|]. by rewrite decide_True.
      + by rewrite (decide_False (P := l = TidLock)) by congruence.
    - apply (Forall_live_grows s); [done|]. unfold fs3. frames.
    - pose proof (pend_pages s2 _ r I2 Ht2 t i fs3 Hti) as Hpg.
      assert (Hg : pages_ok (cur_with s2 (set_stack fs3 (set_stack fs1 th)))).
      { apply Hpg; try done.
        - exists nt. unfold s2. simpl. by rewrite lookup_insert_eq.
        - unfold s2, s1. simpl. intros a x b Ha. destruct (decide (a = t)) as [->|].
          + rewrite lookup_insert_eq. by intros [= <-].
          + rewrite !lookup_insert_ne by done. eauto. }
      by destruct Hg; split. }
  simpl. unfold create_init, init_thread.
  rewrite assert_res_ok by (apply bool_decide_eq_true_2; rewrite Hti; apply page_addr_nonnull).
  rewrite assert_res_ok by (by apply bool_decide_eq_true_2). cbn [mbind res_bind].
  eexists. split; [reflexivity|].
  match goal with |- inv ?x => assert (x = set_if_flag (if_flag s) (cur_with s2 (set_stack fs3 (set_stack fs1 th)))) as -> end;
    [|done].
  unfold push, upd_thread, s2, s1, cur_with. simpl.
  rewrite alter_insert_ne, alter_insert_eq by done.
  rewrite (insert_insert_ne _ (current s) t) by done. rewrite insert_insert_eq. by destruct s.
Qed.

Lemma exec_CreateFinish t id f :
  stack th = CreateFinish t id f :: r → ok_step (exec (CreateFinish t id f) popped).
Proof using All.
  intros E. open_cur I Ht E. destruct f; [done|].
  pose proof (cur_status s th I Ht) as Hst.
  destruct (pg_pend _ (iv_pages _ _ I) (current s) th t true Ht) as [_ (nt & Hnt & Hpl)];
    [by rewrite Hst|by rewrite E|].
  destruct (place_new_inv _ _ _ _ Hpl) as [Hns Hne].
  assert (Htc : t ≠ current s) by (intros ->; congruence).
  set (s1 := set_if_flag (if_flag s) popped).
  assert (I1 : inv s1).
  { eapply (inv_restack_pages _ _ _ _ I Ht); rewrite ?E; simpl; try done.
    eapply (pages_cur s _ th (set_stack r th)); try done; [apply (iv_pages _ _ I)|by rewrite E|by left]. }
  assert (Ht1 : threads s1 !! t = Some nt) by (unfold s1; simpl; by rewrite lookup_insert_ne).
  set (nt' := set_tf_if INTR_ON (set_stack [KernelThread F_client] (set_tid id nt))).
  assert (Hrun : exec (CreateFinish t id F_client) popped = Ok (woken t nt' s1)).
  { simpl. unfold create_finish.
    assert (Hp : threads popped !! t = Some nt) by (simpl; by rewrite lookup_insert_ne).
    rewrite (upd_thread_insert popped t nt) by done.
    set (p1 := set_threads _ popped).
    rewrite (upd_thread_insert p1 t (set_tid id nt)) by (apply lookup_insert_eq).
    set (p2 := set_threads _ p1).
    rewrite (upd_thread_insert p2 t (set_stack [KernelThread F_client] (set_tid id nt)))
      by (apply lookup_insert_eq).
    unfold p2, p1. simpl. rewrite !insert_insert_eq.
    rewrite (unblock_run _ t nt'); simpl; try done.
    - f_equal. unfold woken. simpl. rewrite insert_insert_eq. by destruct s.
    - by rewrite lookup_insert_eq.
    - by apply (iv_typing _ _ I1 t nt).
    - left. apply (inv_noext _ _ I). }
  rewrite Hrun. eexists. split; [reflexivity|].
  destruct (iv_typing _ _ I1 t nt Ht1) as [Htn Hty]. destruct Hty as [U1 U2 U3 U4]; [by rewrite Hns|].
  rewrite Hne in U2. pose proof (iv_cpu _ _ I1) as [_ Hrun1 _ _ Hidle].
  assert (Hnidle : t ≠ idle_thread s).
  { intros ->. destruct Hidle as (x & Hx & _ & Hix). simpl in Hx. simpl in Ht1.
    assert (x = nt) as -> by congruence. by rewrite Hne in Hix. }
  eapply (inv_move true true s1 _ t nt (set_status THREAD_READY nt') PNew PReady I1 Ht1); simpl; try done.
  - by rewrite Hns.
  - intros _ a x. destruct (decide (a = current s)) as [->|Ha].
    + rewrite lookup_insert_eq. intros [= <-] _. simpl. by rewrite Tloc.
    + rewrite lookup_insert_ne by done. intros Hx Hd Hpe. apply Ha.
      eapply (pg_uniq _ (iv_pages _ _ I) a (current s) x th t true true); eauto; [by rewrite Hst|by rewrite E].
  - unfold place_of. simpl. by rewrite decide_False.
  - intros []; done.
  - intros _ _. by rewrite Permutation_app_comm.
  - intros _. split; [|by rewrite Hne]. split; simpl; [done| |done|by repeat constructor].
    intros l h Hl. exact (U2 l h Hl).
  - by rewrite Hne.
  - naive_solver.
  - intros x thx Hx Hxt. apply (Hrun1 x thx Hxt).
  - apply (sleep_ext s1); [apply (iv_sleep _ _ I1)|done|done|]. intros y _. unfold alarm_of. simpl.
    destruct (decide (y = t)) as [->|].
    + rewrite lookup_insert_eq, lookup_insert_ne by done. by rewrite Hnt.
    + by rewrite lookup_insert_ne.
Qed.

End create.

End layout.
End KInvLife.
