(* ===== verification/KernelSafety.v ===== *)
(** The threading system as a whole: from a state that satisfies the invariant,
    every step of the machine succeeds and keeps it. *)
From S2P Require Import Prelude KState Interrupt Threads Synch ThreadLife Timer Machine KInv KInvFacts KInvStep KInvExec KInvSync KInvMove KInvBlock KInvWake KInvTimer KInvLife.
Import KState Interrupt Threads Synch ThreadLife Timer Machine KInv KInvFacts KInvStep KInvExec
  KInvSync KInvMove KInvBlock KInvWake KInvTimer KInvLife.
Local Open Scope Z_scope.

Module KernelSafety.

(** ** What the code outside the modelled files must respect *)

Definition holds (s : kstate) (l : lock_id) : bool :=
  bool_decide (holders s !! l = Some (current s)).

Definition lock_exists (s : kstate) (l : lock_id) : bool :=
  bool_decide (is_Some (holders s !! l)).

(** The documented preconditions of synch.h, thread.h and timer.h: objects are
    initialised before use, locks are not acquired twice and are released only
    by their holder, priorities are in range, [timer_sleep] is called with
    interrupts on. *)
Definition legal (f : frame) (s : kstate) : bool :=
  match f with
  | SemaDown (Sema a) | SemaTryDown (Sema a) | SemaUp (Sema a) =>
    bool_decide (is_Some (semas s !! Sema a))
  | LockAcquire (UserLock a) | LockTryAcquire (UserLock a) =>
    lock_exists s (UserLock a) && negb (holds s (UserLock a))
  | LockRelease (UserLock a) => holds s (UserLock a)
  | CondWait c (UserLock a) | CondSignal c (UserLock a) | CondBroadcast c (UserLock a) =>
    bool_decide (is_Some (conds s !! c)) && holds s (UserLock a)
  | SetLevel _ | ThreadYield | ThreadExit | ThreadSetPriority _ => true
  | ThreadCreate _ p F_client => (PRI_MIN <=? p) && (p <=? PRI_MAX)
  | TimerSleep _ => bool_decide (if_flag s = INTR_ON)
  | _ => false
  end.

(** An object is initialised once, or again when nobody waits on it. *)
Definition init_legal (o : object) (s : kstate) : bool :=
  match o with
  | OSema a _ => bool_decide (default [] (waiters <$> semas s !! Sema a) = [])
  | OLock a => bool_decide (semas s !! LockSema (UserLock a) = None)
  | OCond c => bool_decide (default [] (conds s !! c) = [])
  end.

(** [do_schedule] frees a dead thread's page only while the page pool's lock is
    free.  The code does not ensure this; see [reap_holding_pool_lock_panics]. *)
Definition reap_safe (s : kstate) : bool :=
  match cur_stack s, destruction_req s with
  | DoSchedule _ :: _, _ :: _ =>
    match semas s !! LockSema PoolLock with
    | Some sm => negb (value sm =? 0)
    | None => false
    end
  | _, _ => true
  end.

Section layout.
Context `{LayoutOk}.

(** The tick counter has not reached the address of [sleep_list.tail]. *)
Definition clock_ok (s : kstate) : bool := (0 <=? ticks s) && (ticks s + 1 <? sleep_tail).

Definition allowed (l : label) (s : kstate) : bool :=
  match l with
  | LExec => reap_safe s
  | LInit o => init_legal o s
  | LCall f => legal f s
  | LReturn => true
  | LTimer => clock_ok s
  end.

(** ** Running a frame *)

Lemma exec_ok s th f r :
  inv s → threads s !! current s = Some th → stack th = f :: r → reap_safe s = true →
  ok_step (exec f (cur_with s (set_stack r th))).
Proof.
  intros I Ht E Hr.
  destruct f; try (by eauto using exec_SemaDown, exec_SemaTryDown, exec_SemaUp,
    exec_LockAcquire, exec_LockAcquireSet, exec_LockTryAcquire, exec_LockRelease, exec_CondWait,
    exec_CondSignal, exec_CondBroadcast, exec_SetLevel, exec_Iret, exec_ThreadYield, exec_ThreadExit,
    exec_ThreadSleep, exec_SleepDone, exec_ThreadSetPriority, exec_ThreadCreate, exec_CreateInit,
    exec_CreateTid, exec_CreateFinish, exec_KernelThread, exec_IdleLoop, exec_StiHlt, exec_TimerSleep).
  all: try (exfalso; open_cur I Ht E; by destruct Tlvl).
  - destruct (cur_typed _ _ I Ht) as [_ _ _ Hl]. rewrite E, Forall_cons in Hl.
    destruct Hl as [[sm Hsm] _].
    destruct (decide (value sm = 0)); eauto using exec_SemaDownLoop_block, exec_SemaDownLoop_take.
  - unfold reap_safe, cur_stack in Hr. rewrite Ht in Hr. simpl in Hr. rewrite E in Hr.
    destruct (destruction_req s) as [|d ds] eqn:Hd.
    + pose proof (cur_typed _ _ I Ht) as [Hl _ _ _]. rewrite E in Hl.
      destruct v; try done; eauto using exec_DoSchedule_ready, exec_DoSchedule_dying.
    + destruct (semas s !! LockSema PoolLock) as [sm|] eqn:Hsm; [|done].
      eapply exec_DoSchedule_reap; eauto. intros Hv. by rewrite Hv in Hr.
  - destruct (scan_and_flip (used_map s)) as [[i m]|] eqn:Es;
      eauto using exec_CreateScan_none, exec_CreateScan_some.
  - eapply exec_same; eauto.
  - eapply exec_same; eauto.
Qed.

(** ** Calls from other code *)

Lemma call_ok s th f r :
  inv s → threads s !! current s = Some th → stack th = Client :: r → legal f s = true →
  inv (push [f] s).
Proof.
  intros I Ht E Hf. open_cur I Ht E.
  assert (Hpush : push [f] s = set_if_flag (if_flag s) (cur_with s (set_stack (f :: stack th) th))).
  { unfold push. rewrite (upd_thread_insert _ _ th) by done. by destruct s. }
  rewrite Hpush.
  assert (Hlive : Forall (live s) (stack th)) by (rewrite E; by constructor).
  assert (Hd : ∀ l, holds s l = true → has_lock s l ∧ holders s !! l = Some (current s)).
  { intros l Hl. apply bool_decide_eq_true_1 in Hl. split; [|done]. split; [eauto|].
    apply (lk_dom _ (iv_locks _ _ I)). eauto. }
  assert (Hx : ∀ l, lock_exists s l && negb (holds s l) = true →
    has_lock s l ∧ ∀ h, holders s !! l = Some h → bool_decide (h = current s) = false).
  { intros l [Hl1 Hl2]%andb_true_iff. apply bool_decide_eq_true_1 in Hl1. split.
    - split; [done|]. by apply (lk_dom _ (iv_locks _ _ I)).
    - intros h Hh. apply bool_decide_eq_false_2. intros ->. unfold holds in Hl2.
      by rewrite bool_decide_eq_true_2 in Hl2. }
  assert (Hcl : ∀ a h, hold_ok (UserLock a) h (Client :: r) → ∀ h', hold_ok (UserLock a) h' (Client :: r)).
  { intros a h Hh h'. exact Hh. }
  destruct f; try done;
    repeat match goal with x : sema_id |- _ => destruct x; try done end;
    repeat match goal with x : lock_id |- _ => destruct x; try done end;
    try match goal with x : thread_func |- _ => destruct x; try done end;
    cbn [legal] in Hf;
    first [apply Hx in Hf as [Hlk Hb]
          |apply Hd in Hf as [Hlk Hb]
          |apply andb_true_iff in Hf as [Hf1 Hf2]; apply Hd in Hf2 as [Hlk Hb];
           apply bool_decide_eq_true_1 in Hf1
          |apply andb_true_iff in Hf as [Hf1%Z.leb_le Hf2%Z.leb_le]
          |apply bool_decide_eq_true_1 in Hf
          |idtac];
    rewrite E in *; (eapply (inv_restack _ _ _ _ I Ht); rewrite ?E; simpl; try done).
  all: try (by frames).
  all: try (intros l h Hh Hc;
            match goal with |- context [decide (UserLock ?a = l)] =>
              destruct (decide (UserLock a = l)) as [<-|]; [|done] end;
            split; [|by auto];
            first [by eauto | apply bool_decide_eq_true_2; congruence]).
  all: try (split; [tauto|done]).
  - intros l h Hh Hc Hi. destruct l; [by destruct Hc|by destruct Hc|done].
  - intros l h Hh Hc. split; [|done]. intros Hi. destruct l; [by destruct Hc|by destruct Hc|done].
Qed.

(** ** Initialisation of objects *)

Lemma hold_ok_fresh s l fs :
  Forall (live s) fs → holders s !! l = None → ¬ internal l → ∀ h, hold_ok l h fs.
Proof.
  intros Hf Hl Hi. destruct l as [| |a]; [by destruct Hi..|]. clear Hi.
  assert (Hno : ∀ k, has_lock s k → k ≠ UserLock a).
  { intros k [[x Hx] _] ->. congruence. }
  induction Hf as [|f fs Hlv Hf IH]; intros h; simpl; [done|].
  destruct f; simpl in Hlv; auto;
    try (rewrite decide_False; [by auto|]; first [by apply Hno|by apply Hno, Hlv]).
  all: try match goal with v : thread_status |- _ => destruct v end.
  all: split_and?; auto; done.
Qed.

Lemma init_lock_ok s a :
  inv s → semas s !! LockSema (UserLock a) = None → inv (lock_init (UserLock a) s).
Proof.
  intros I Hn. pose proof I as [Hcpu Hlists Htyping Hlk Hpages Hsleep].
  assert (Hh : holders s !! UserLock a = None).
  { apply eq_None_not_Some. rewrite (lk_dom _ Hlk (UserLock a)), Hn. by intros [? ?]. }
  set (s' := lock_init (UserLock a) s).
  assert (Hg : grows s s').
  { unfold s', lock_init, sema_init. split; [|split]; simpl; [|intros k|done].
    - intros i Hi. rewrite lookup_insert_ne; [done|]. intros <-. rewrite Hn in Hi. by destruct Hi.
    - intros Hk. rewrite lookup_insert_ne; [done|]. intros <-. rewrite Hh in Hk. by destruct Hk. }
  split; [by destruct Hcpu; split| | | |by destruct Hpages; split|by destruct Hsleep; split].
  - apply (lists_ext s); try done; [apply Hg| |]; simpl.
    + intros i Hi. destruct (decide (i = LockSema (UserLock a))) as [->|]; [by rewrite lookup_insert_eq|].
      by rewrite lookup_insert_ne, Hi.
    + intros []; simpl; try done. intros [sm Hsm]. rewrite lookup_insert_ne; [done|]. congruence.
  - intros t th Ht. destruct (Htyping t th Ht) as [Htn Hty]. split; [done|]. intros Hd.
    destruct (Hty Hd) as [T1 T2 T3 T4]. split; [done| |done|by eapply Forall_live_grows].
    intros l h. simpl. destruct (decide (l = UserLock a)) as [->|].
    + intros _. eapply hold_ok_fresh; [done|done|by intros []].
    + rewrite lookup_insert_ne by done. apply T2.
  - apply (locks_frame s); simpl; [done| | | |].
    + intros l. destruct (decide (l = UserLock a)) as [->|Hne].
      * right. intros h sm. simpl. rewrite !lookup_insert_eq. intros [= <-] [= <-]. exists None.
        split; [done|]. intros t Ht. unfold tokens. rewrite decide_False by done.
        assert (Hc : ∀ fs, Forall (live s) fs → cnt (UserLock a) fs = 0%nat).
        { assert (Hno : ∀ k, is_Some (semas s !! LockSema k) → k ≠ UserLock a).
          { intros k [x Hx] ->. congruence. }
          induction 1 as [|f fs Hlv _ IH]; [done|]. simpl.
          destruct f; simpl in Hlv; auto;
            repeat match goal with x : sema_id |- _ => destruct x end; auto;
            try (rewrite decide_False; [done|]; first [by apply Hno|by apply Hno, Hlv]).
          by destruct v. }
        unfold cnt_of. simpl. destruct (threads s !! t) as [th|] eqn:Et; [|done]. simpl.
        destruct (decide (status th = THREAD_DYING)) as [Hd|Hd].
        { pose proof (lo_bad _ Hlists t) as Hb. assert (Hp : place_of (idle_thread s) (initial_thread s) t th ≠ PBad).
          { intros Hp. apply Hb. by exists th. }
          unfold place_of in Hp. rewrite Hd in Hp. by destruct (stack th) as [|[] ]. }
        apply Hc. by apply (Htyping t th Et).
      * left. split; [simpl; by rewrite lookup_insert_ne|]. split; [|done].
        simpl. rewrite lookup_insert_ne by congruence. done.
    + intros l. destruct (decide (l = UserLock a)) as [->|Hne].
      * rewrite !lookup_insert_eq. split; eauto.
      * rewrite !lookup_insert_ne by congruence. apply (lk_dom _ Hlk).
    + intros l h Hi Hl Ha. exists h. rewrite lookup_insert_ne; [done|]. by intros <-.
    + intros c ws w Hc Hw. rewrite lookup_insert_ne by done. eapply (lk_wait _ Hlk); eauto.
Qed.

Lemma init_ok s th r o :
  inv s → threads s !! current s = Some th → stack th = Client :: r → init_legal o s = true →
  inv (init_object o s).
Proof.
  intros I Ht E Hf. pose proof (cur_typed _ _ I Ht) as [T1 T2 T3 T4].
  unfold lvl_of in T1. rewrite decide_True in T1 by done. pose proof (iv_locks _ _ I) as Hlk.
  assert (Hself : ∀ sms cds, set_conds cds (set_semas sms (cur_with s (set_stack (stack th) th)))
    = set_conds cds (set_semas sms s)).
  { intros sms cds. rewrite set_stack_self. unfold cur_with. rewrite insert_id by done. by destruct s. }
  destruct o as [a v|a|c]; simpl in Hf |- *; apply bool_decide_eq_true_1 in Hf.
  - assert (Hx : sema_init (Sema a) v s = set_conds (conds s) (set_semas (<[Sema a := Semaphore (u32 v) []]> (semas s)) s))
      by (by destruct s).
    assert (Hg : ∀ i, is_Some (semas s !! i) → is_Some (<[Sema a := Semaphore (u32 v) []]> (semas s) !! i)).
    { intros i Hi. destruct (decide (i = Sema a)) as [->|]; [rewrite lookup_insert_eq; eauto|].
      by rewrite lookup_insert_ne. }
    rewrite Hx, <- Hself. apply (inv_conds s th r I Ht); rewrite ?E; try done.
    + by rewrite <- E.
    + intros l. by rewrite lookup_insert_ne.
    + intros i. destruct (decide (i = Sema a)) as [->|]; [by rewrite lookup_insert_eq, Hf|].
      by rewrite lookup_insert_ne.
    + intros c ws w Hc Hw. rewrite lookup_insert_ne by done. eapply (lk_wait _ Hlk); eauto.
    + by rewrite <- E.
    + rewrite <- E. eapply Forall_live_grows; [|done]. by split.
  - by apply init_lock_ok.
  - assert (Hx : cond_init c s = set_conds (<[c := []]> (conds s)) (set_semas (semas s) s))
      by (by destruct s).
    assert (Hg : ∀ i, is_Some (conds s !! i) → is_Some (<[c := []]> (conds s) !! i)).
    { intros i Hi. destruct (decide (i = c)) as [->|]; [rewrite lookup_insert_eq; eauto|].
      by rewrite lookup_insert_ne. }
    rewrite Hx, <- Hself. apply (inv_conds s th r I Ht); rewrite ?E; try done.
    + by rewrite <- E.
    + intros c' ws w. destruct (decide (c' = c)) as [->|].
      * rewrite lookup_insert_eq. intros [= <-] Hw. by apply elem_of_nil in Hw.
      * rewrite lookup_insert_ne by done. apply (lk_wait _ Hlk).
    + by rewrite <- E.
    + rewrite <- E. eapply Forall_live_grows; [|done]. by split; [|split].
Qed.

(** ** One step, and a run *)

Lemma step_ok l s res :
  inv s → allowed l s = true → step l s = Some res → ok_step res.
Proof.
  intros I Hal Hst. destruct (cur_running s I) as (th & Ht & Hrun).
  assert (Hcs : cur_stack s = stack th) by (unfold cur_stack; by rewrite Ht).
  unfold step in Hst. rewrite Hcs in Hst. destruct l as [|o|f| |]; simpl in Hal.
  - destruct (stack th) as [|f r] eqn:E; [done|]. injection Hst as <-.
    rewrite (set_cur_stack_eq s th r Ht). by eapply exec_ok.
  - destruct (stack th) as [|[] r] eqn:E; try done. injection Hst as <-.
    eexists. split; [reflexivity|]. by eapply init_ok.
  - destruct (stack th) as [|[] r] eqn:E; try done. injection Hst as <-.
    eexists. split; [reflexivity|]. by eapply call_ok.
  - destruct (stack th) as [|[] r] eqn:E; try done. injection Hst as <-.
    rewrite (set_cur_stack_eq s th r Ht). open_cur I Ht E.
    rewrite flag_self. eexists. split; [reflexivity|].
    eapply (inv_restack _ _ _ _ I Ht); rewrite ?E; simpl; try done.
    + by destruct (if_flag s), Tlvl.
    + intros l h Hl Hc. destruct l; naive_solver.
    + destruct Tloc as (_ & q & ->). done.
  - destruct (if_flag s) eqn:Hif; [done|].
    assert (res = intr_handler timer_interrupt (timer_entry s)) as -> by (by destruct (stack th) as [|[] ?]; injection Hst).
    apply andb_true_iff in Hal as [H1%Z.leb_le H2%Z.ltb_lt]. apply step_timer; try done. lia.
Qed.

(** Every step of the sequence is one the calling code may take. *)
Fixpoint allowed_run (ls : list label) (s : kstate) : bool :=
  match ls with
  | [] => true
  | l :: ls =>
    allowed l s &&
    match step l s with
    | Some (Ok s') => allowed_run ls s'
    | Some (Err _) => true
    | None => false
    end
  end.

Lemma run_ok ls : ∀ s, inv s → allowed_run ls s = true →
  ∃ s', run ls s = Some (Ok s') ∧ inv s'.
Proof.
  induction ls as [|l ls IH]; intros s I Hal; simpl in *; [eauto|].
  apply andb_true_iff in Hal as [Ha Hal].
  destruct (step l s) as [res|] eqn:Hs; [|done].
  destruct (step_ok l s res I Ha Hs) as (s' & -> & I'). auto.
Qed.

(** ** The state [thread_start] leaves *)

(** [main] runs at the address [sp], the idle thread is at [idl] and blocked. *)
Definition booted (sp idl : Z) (m : list bool) : kstate :=
  KState (<[sp := Thread 1 THREAD_RUNNING "main" PRI_DEFAULT 0 INTR_OFF [Client; ThreadExit]]>
           {[ idl := Thread 2 THREAD_BLOCKED "idle" PRI_MIN 0 INTR_OFF [StiHlt; ThreadExit] ]})
    sp [] [] [] idl sp INT64_MAX 3 0 0 0 INTR_ON false false 0
    (<[LockSema TidLock := Semaphore 1 []]> (<[LockSema PoolLock := Semaphore 1 []]>
      {[ IdleStarted := Semaphore 0 [] ]}))
    (<[TidLock := NULL]> {[ PoolLock := NULL ]}) ∅ m.

Lemma booted_inv sp i m :
  sp ≠ NULL → m !! i = Some true → (∀ j, (j < length m)%nat → page_addr j ≠ sp) →
  inv (booted sp (page_addr i) m).
Proof.
  intros Hsp Hu Hpg. set (idl := page_addr i). set (s := booted sp idl m).
  assert (Hne : idl ≠ sp) by (apply Hpg; by apply lookup_lt_Some in Hu).
  assert (Hin : idl ≠ NULL) by apply page_addr_nonnull.
  set (tm := Thread 1 THREAD_RUNNING "main" PRI_DEFAULT 0 INTR_OFF [Client; ThreadExit]).
  set (ti := Thread 2 THREAD_BLOCKED "idle" PRI_MIN 0 INTR_OFF [StiHlt; ThreadExit]).
  assert (Hth : ∀ t th, threads s !! t = Some th → t = sp ∧ th = tm ∨ t = idl ∧ th = ti).
  { intros t th. simpl. rewrite lookup_insert_Some, lookup_singleton_Some. naive_solver. }
  assert (Hm : threads s !! sp = Some tm) by apply lookup_insert_eq.
  assert (Hi : threads s !! idl = Some ti).
  { simpl. rewrite lookup_insert_ne by done. apply lookup_singleton_eq. }
  assert (Hse : ∀ j sm, semas s !! j = Some sm → waiters sm = []
     ∧ ∀ l, j = LockSema l → internal l ∧ value sm = 1).
  { intros j sm. simpl. rewrite !lookup_insert_Some, lookup_singleton_Some. naive_solver. }
  assert (Hho : ∀ l h, holders s !! l = Some h → internal l ∧ h = NULL).
  { intros l h. simpl. rewrite lookup_insert_Some, lookup_singleton_Some. naive_solver. }
  assert (Hlist : ∀ p, list_of s p = []).
  { intros [| |j| | | | | |]; try done. unfold list_of. destruct (semas s !! j) as [sm|] eqn:E; [|done].
    apply Hse in E as [E _]. exact E. }
  assert (Hpl : ∀ t p, placed s t p → p = PRun ∨ p = PIdle).
  { intros t p (th & Ht & <-). destruct (Hth t th Ht) as [[-> ->]|[-> ->]]; [by left|right].
    unfold place_of. simpl. by rewrite decide_True. }
  split.
  - split; [by exists tm| |done|done|by exists ti].
    intros t th Ht. destruct (Hth t th Ht) as [[-> ->]|[-> ->]]; [done|].
    split; [done|]. intros [_ Heq]. simpl in Heq. congruence.
  - split.
    + intros p. rewrite Hlist. constructor.
    + intros p t Hl. rewrite Hlist. split; [by intros ?%elem_of_nil|].
      intros [-> | ->]%Hpl; done.
    + intros t [Hp|Hp]%Hpl; done.
    + intros t j [Hp|Hp]%Hpl; done.
  - intros t th Ht. destruct (Hth t th Ht) as [[-> ->]|[-> ->]].
    + split; [done|]. intros _. split; simpl; [done| |by eauto 10|by repeat constructor].
      intros l h [Hl ->]%Hho. rewrite bool_decide_eq_false_2 by done. by destruct l.
    + split; [done|]. intros _. split; simpl; [unfold lvl_of; simpl; by rewrite decide_False| |by eauto 10|by repeat constructor].
      intros l h [Hl ->]%Hho. by rewrite bool_decide_eq_false_2.
  - split.
    + intros l h sm [Hl ->]%Hho Hs. destruct (Hse _ _ Hs) as [_ Hv]. exists None.
      split; [by apply (Hv l)|]. intros t Ht. unfold tokens, cnt_of. rewrite decide_False by done.
      destruct (threads s !! t) as [th|] eqn:E; [|done].
      by destruct (Hth t th E) as [[-> ->]|[-> ->]].
    + intros l. split.
      * intros [h [Hl ->]%Hho]. by destruct l; [eexists..|].
      * intros [sm Hs]. destruct (Hse _ _ Hs) as [_ Hv]. destruct (Hv l eq_refl) as [Hl _].
        by destruct l; [eexists..|].
    + intros l Hl. exists NULL. split; [|by left]. by destruct l.
    + intros c ws w Hc. done.
  - split.
    + intros t [th Ht] Hti. destruct (Hth t th Ht) as [[-> ->]|[-> ->]]; [done|]. by exists i.
    + exact Hpg.
    + intros a th t b Ha _. by destruct (Hth a th Ha) as [[-> ->]|[-> ->]].
    + intros a b tha thb t ba bb Ha _ _ _. by destruct (Hth a tha Ha) as [[-> ->]|[-> ->]].
  - split; simpl; [constructor|by intros t ?%elem_of_nil|]. pose proof sleep_tail_pos. lia.
Qed.

End layout.
End KernelSafety.
