(* ===== verification/KernelTheorems.v ===== *)
(** The properties of the threading system: thread.c, synch.c, interrupt.c and
    timer.c together, over every interleaving of threads and timer interrupts. *)

From S2P Require Import Prelude KState Interrupt Threads Synch ThreadLife Timer Machine KInv KInvFacts KInvStep KInvExec KInvSync KInvMove KInvBlock KInvWake KInvTimer KInvLife KernelSafety.
Import KState Interrupt Threads Synch ThreadLife Timer Machine KInv KInvFacts KInvStep KInvExec
  KInvSync KInvMove KInvBlock KInvWake KInvTimer KInvLife KernelSafety.
Local Open Scope Z_scope.

Module KernelTheorems.

(** ** Reachable states *)

Section layout.
Context `{LayoutOk}.

(** [main] runs on a page that is not of the pool, the idle thread's page is
    allocated. *)
Definition boot_args (sp : Z) (i : nat) (m : list bool) : Prop :=
  sp ≠ NULL ∧ m !! i = Some true ∧ ∀ j, (j < length m)%nat → page_addr j ≠ sp.

Definition reachable (s : kstate) : Prop :=
  ∃ sp i m ls, boot_args sp i m
    ∧ allowed_run ls (booted sp (page_addr i) m) = true
    ∧ run ls (booted sp (page_addr i) m) = Some (Ok s).

Lemma reachable_inv s : reachable s → inv s.
Proof.
  intros (sp & i & m & ls & (H1 & H2 & H3) & Hal & Hrun).
  destruct (run_ok ls _ (booted_inv sp i m H1 H2 H3) Hal) as (s' & Hr & I). congruence.
Qed.

(** The thread has taken the lock's semaphore and has not given it back:
    it is the recorded holder, or it is between the two assignments. *)
Definition owns (s : kstate) (l : lock_id) (t : Z) : Prop :=
  t ≠ NULL ∧ ∃ h sm, holders s !! l = Some h ∧ semas s !! LockSema l = Some sm
    ∧ (h = t ∨ (0 < cnt_of s l t)%nat).

Lemma owns_spec s l t :
  inv s → owns s l t →
  (∀ t', owns s l t' → t' = t) ∧ value <$> semas s !! LockSema l = Some 0.
Proof.
  intros I (Hn & h & sm & Hh & Hs & Ho).
  destruct (own_spec s l h sm t (lk_tok _ (iv_locks _ _ I) l) Hh Hs Hn) as (Hv & _ & Hz).
  { unfold tokens. destruct Ho as [->|Ho]; [rewrite decide_True by done|]; lia. }
  split; [|rewrite Hs; simpl; by rewrite Hv].
  intros t' (Hn' & h' & sm' & Hh' & Hs' & Ho'). destruct (decide (t' = t)) as [|Hne]; [done|].
  specialize (Hz t' Hn' Hne). assert (h' = h) as -> by congruence. unfold tokens in Hz.
  destruct Ho' as [->|Ho']; [rewrite decide_True in Hz by done|]; lia.
Qed.

Lemma schedule_next s s' n rl :
  schedule s = Ok s' → ready_list s = n :: rl → current s' = n ∧ ready_list s' = rl.
Proof.
  intros Hs Hr. unfold schedule, next_thread_to_run in Hs. rewrite Hr in Hs.
  unfold assert_res, mbind, res_bind in Hs.
  do 3 (match type of Hs with context [if ?b then Ok tt else _] => destruct b end; [|discriminate Hs]).
  destruct (decide _) as [Hd|Hd].
  - unfold thread_launch, assert_res, mbind, res_bind in Hs.
    match type of Hs with context [bool_decide (intr_get_level ?y = INTR_OFF)] => set (x := y) in Hs end.
    assert (Hx : ready_list x = rl) by (unfold x; by destruct (_ && _)).
    destruct (bool_decide (intr_get_level x = INTR_OFF)); [|done].
    destruct (threads x !! n); [|done]. injection Hs as <-. done.
  - injection Hs as <-. simpl. split; [|done].
    by destruct (decide (running_thread s = n)).
Qed.

Lemma run_cons_ok l ls s s1 x :
  run [l] s = Some (Ok s1) → run ls s1 = x → run (l :: ls) s = x.
Proof. cbn [run]. destruct (step l s) as [[s'|e]|]; [|done..]. by intros [= <-]. Qed.

(** Entering [thread_yield]: interrupts are off, the thread is on the ready
    list unless it is the idle thread, [do_schedule] is next. *)
Lemma yield_enter s r :
  inv s → cur_stack s = ThreadYield :: r →
  ∃ s1, run [LExec] s = Some (Ok s1) ∧ inv s1 ∧ if_flag s1 = INTR_OFF
    ∧ cur_stack s1 = DoSchedule THREAD_READY :: SetLevel (if_flag s) :: r
    ∧ current s1 = current s ∧ destruction_req s1 = destruction_req s
    ∧ holders s1 = holders s
    ∧ ready_list s1 = ready_list s ++ (if decide (current s ≠ idle_thread s) then [current s] else []).
Proof.
  intros I Hc. destruct (cur_running s I) as (th & Ht & Hst).
  assert (E : stack th = ThreadYield :: r) by (unfold cur_stack in Hc; by rewrite Ht in Hc).
  destruct (exec_ThreadYield s th r I Ht E) as (s1 & Hx1 & I1). exists s1.
  assert (Hs1 : run [LExec] s = Some (Ok s1)).
  { cbn [run]. unfold step. rewrite Hc, (set_cur_stack_eq s th r Ht). by rewrite Hx1. }
  split; [done|]. split; [done|]. clear Hs1.
  simpl in Hx1. unfold thread_yield in Hx1. rewrite (thread_current_cur s th r I Ht) in Hx1.
  simpl in Hx1. unfold intr_context in Hx1. simpl in Hx1. rewrite (inv_noext _ _ I) in Hx1.
  simpl in Hx1. destruct (decide (current s ≠ idle_thread s)); injection Hx1 as <-;
    rewrite ?app_nil_r; repeat split; unfold cur_stack; simpl;
    by rewrite lookup_alter_eq, lookup_insert_eq.
Qed.

Lemma yield_switch s r n rl :
  inv s → cur_stack s = ThreadYield :: r → current s ≠ idle_thread s →
  destruction_req s = [] → ready_list s = n :: rl →
  ∃ s', run [LExec; LExec] s = Some (Ok s') ∧ current s' = n
    ∧ ready_list s' = rl ++ [current s].
Proof.
  intros I Hc Hid Hd Hr.
  destruct (yield_enter s r I Hc) as (s1 & Hx & I1 & Hf1 & Hc1 & Hcur & Hd1 & _ & Hr1).
  rewrite decide_True, Hr in Hr1 by done. rewrite Hd in Hd1.
  destruct (cur_running s1 I1) as (th1 & Ht1 & Hst1).
  assert (E1 : stack th1 = DoSchedule THREAD_READY :: SetLevel (if_flag s) :: r)
    by (unfold cur_stack in Hc1; by rewrite Ht1 in Hc1).
  destruct (exec_DoSchedule_ready s1 th1 _ I1 Ht1 E1 Hd1) as (s2 & Hx2 & I2).
  rewrite (do_schedule_enter s1 th1 _ I1 Ht1) in Hx2 by done.
  destruct (schedule_next _ s2 n (rl ++ [current s]) Hx2) as [Hn Hrl]; [by simpl; rewrite Hr1|].
  exists s2. split; [|done]. eapply run_cons_ok; [exact Hx|]. cbn [run]. unfold step. rewrite Hc1.
  rewrite (set_cur_stack_eq s1 th1 _ Ht1). cbn [run].
  rewrite (do_schedule_enter s1 th1 _ I1 Ht1) by done. by rewrite Hx2.
Qed.

(** [do_schedule] has a dead thread to free and the running thread holds the
    pool's lock: [palloc_free_page] calls [lock_acquire], whose ASSERT fails. *)
Lemma reap_held_fails s st r v rest :
  inv s → if_flag s = INTR_OFF → cur_stack s = DoSchedule st :: r →
  destruction_req s = v :: rest → holders s !! PoolLock = Some (current s) →
  run [LExec; LExec] s = Some (Err AssertFail).
Proof.
  intros I Hoff Hc Hd Hh. destruct (cur_running s I) as (th & Ht & Hst).
  destruct (reap_inv s v rest I Hd) as (i & -> & Hu & _ & Hvc).
  pose proof (cur_nonnull s I) as Hnn. pose proof (lookup_lt_Some _ _ _ Hu) as Hlen.
  destruct (owns_spec s PoolLock (current s) I) as [_ Hv].
  { split; [done|]. destruct (proj1 (lk_dom _ (iv_locks _ _ I) PoolLock)) as [sm Hsm]; eauto 10. }
  destruct (semas s !! LockSema PoolLock) as [sm|] eqn:Hsm; [|done]. simpl in Hv. injection Hv as Hv.
  set (x := set_threads (delete (page_addr i) (threads (cur_with s (set_stack r th))))
              (set_destruction_req rest (cur_with s (set_stack r th)))).
  set (fs := [LockAcquire PoolLock; PallocClear (page_addr i); LockRelease PoolLock; DoSchedule st]).
  assert (H1 : run [LExec] s = Some (Ok (push fs x))).
  { cbn [run]. unfold step. rewrite Hc, (set_cur_stack_eq s th r Ht). simpl.
    unfold do_schedule, intr_get_level. simpl. rewrite Hoff. simpl.
    rewrite (thread_current_cur s th r I Ht). simpl. rewrite Hd.
    unfold palloc_free_page_off, palloc_free_check. rewrite page_addr_aligned.
    rewrite assert_res_ok by done. unfold page_from_pool. rewrite page_addr_div. simpl.
    rewrite (proj2 (Z.leb_le _ _)), (proj2 (Z.ltb_lt _ _)) by lia. simpl. rewrite Hsm.
    by rewrite decide_True. }
  eapply run_cons_ok; [exact H1|]. clear H1.
  assert (Hxt : threads x !! current x = Some (set_stack r th)).
  { unfold x. simpl. rewrite lookup_delete_ne by done. apply lookup_insert_eq. }
  assert (Hpt : threads (push fs x) !! current (push fs x) = Some (set_stack (fs ++ r) th)).
  { unfold push, upd_thread. cbn [threads current set_threads]. by rewrite lookup_alter_eq, Hxt. }
  assert (Hps : cur_stack (push fs x) = LockAcquire PoolLock :: tl fs ++ r)
    by (unfold cur_stack; by rewrite Hpt).
  cbn [run]. unfold step. rewrite Hps, (set_cur_stack_eq _ _ _ Hpt). cbn [exec]. unfold lock_acquire, intr_context. simpl.
  rewrite (inv_noext _ _ I). simpl. unfold lock_held_by_current_thread. simpl. rewrite Hh.
  rewrite (thread_current_ok _ (set_stack (tl fs ++ r) th)) by (simpl; rewrite ?lookup_insert_eq; done).
  simpl. by rewrite bool_decide_eq_true_2.
Qed.

End layout.

(** ** A concrete machine, for the examples *)

#[export] Instance demo_layout : Layout :=
  {| pool_base := 549757911040; sleep_tail := 549757800000 |}.
#[export] Instance demo_layout_ok : LayoutOk.
Proof. split; vm_compute; try done; split; done. Qed.

Definition demo_sp : Z := 549755813888.
Definition demo_boot : kstate := booted demo_sp (page_addr 1) [true; true; false; false].

Lemma demo_args : boot_args demo_sp 1 [true; true; false; false].
Proof.
  split; [done|]. split; [done|]. intros j Hj. unfold page_addr, demo_sp, PGSIZE. simpl in *. lia.
Qed.

(** The state after a sequence of steps from [demo_boot]. *)
Definition demo_run (ls : list label) : kstate :=
  match run ls demo_boot with Some (Ok s) => s | _ => demo_boot end.

Lemma demo_reachable ls : allowed_run ls demo_boot = true → reachable (demo_run ls).
Proof.
  intros Hal. pose proof demo_args as Hargs. destruct Hargs as (H1 & H2 & H3).
  destruct (run_ok ls demo_boot (booted_inv _ _ _ H1 H2 H3) Hal) as (s & Hr & _).
  exists demo_sp, 1%nat, [true; true; false; false], ls. split; [apply demo_args|].
  unfold demo_run. change (booted demo_sp (page_addr 1) [true; true; false; false]) with demo_boot.
  by rewrite Hr.
Qed.

Definition demo_lock : lock_id := UserLock 4096.
Definition demo_thread : Z := page_addr 2.

(** [main] takes a lock, creates a thread and yields; the thread blocks on the
    lock and [main] runs again. *)
Definition contended : list label :=
  [LInit (OLock 4096); LCall (LockAcquire demo_lock)] ++ repeat LExec 5
  ++ [LCall (ThreadCreate "a" 31 F_client)] ++ repeat LExec 32
  ++ [LCall ThreadYield; LExec; LExec; LExec; LCall (LockAcquire demo_lock);
      LExec; LExec; LExec; LExec].

(** ... then [main] sleeps for two ticks, and one tick passes. *)
Definition sleeping : list label :=
  contended ++ [LCall (TimerSleep 2); LExec; LExec; LExec; LTimer; LExec; LExec; LExec; LExec].

(** ** The theorems *)

(** C1: From the state [thread_start] leaves, and for every interleaving of
    thread steps, legal calls of other kernel code and timer interrupts, no
    step fails: no [ASSERT] or [NOT_REACHED] of thread.c, synch.c, interrupt.c,
    timer.c and palloc.c fires and no dead pointer is followed, provided
    [do_schedule] never reaps a dead thread while the page pool's lock is held
    and the tick count stays below the address of [sleep_list.tail]. *)
Theorem kernel_never_panics `{LayoutOk} sp i m ls :
  boot_args sp i m → allowed_run ls (booted sp (page_addr i) m) = true →
  ∃ s, run ls (booted sp (page_addr i) m) = Some (Ok s).
Proof.
  intros (H1 & H2 & H3) Hal.
  destruct (run_ok ls _ (booted_inv sp i m H1 H2 H3) Hal) as (s & Hr & _). eauto.
Qed.

Lemma kernel_never_panics_witness :
  allowed_run sleeping demo_boot = true ∧ ∃ s, run sleeping demo_boot = Some (Ok s).
Proof.
  assert (Hal : allowed_run sleeping demo_boot = true) by (vm_compute; reflexivity).
  split; [exact Hal|]. exact (kernel_never_panics _ _ _ _ demo_args Hal).
Defined.

(** C2: Mutual exclusion.  In every reachable state at most one thread has taken a
    lock's semaphore without having given it back, and while one has, the
    semaphore's value is 0. *)
Theorem lock_mutual_exclusion `{LayoutOk} s l t :
  reachable s → owns s l t →
  (∀ t', owns s l t' → t' = t) ∧ value <$> semas s !! LockSema l = Some 0.
Proof. intros Hr. apply owns_spec. by apply reachable_inv. Qed.

Lemma lock_mutual_exclusion_witness :
  (∀ t', owns (demo_run contended) demo_lock t' → t' = demo_sp)
  ∧ value <$> semas (demo_run contended) !! LockSema demo_lock = Some 0.
Proof.
  apply (lock_mutual_exclusion (demo_run contended) demo_lock demo_sp).
  - apply demo_reachable. vm_compute. reflexivity.
  - split; [done|]. exists demo_sp, (Semaphore 0 [demo_thread]).
    split; [vm_compute; reflexivity|]. split; [vm_compute; reflexivity|]. by left.
Defined.

(** C3: The [elem] of a thread is on at most one list.  In every reachable state
    the ready list, the sleep list, every semaphore's waiters and the
    destruction requests hold no thread twice and no two of them share one, as
    the comment on [struct thread] requires. *)
Theorem elem_on_one_list `{LayoutOk} s p q t :
  reachable s →
  NoDup (list_of s p) ∧ (t ∈ list_of s p → t ∈ list_of s q → p = q).
Proof.
  intros Hr. pose proof (iv_lists _ _ (reachable_inv s Hr)) as [Hnd Hmem _ _].
  split; [apply Hnd|]. intros Hp Hq.
  assert (Hl : ∀ u, t ∈ list_of s u → listed s u).
  { intros [| |j| | | | | |]; simpl; try done; try (by intros ?%elem_of_nil).
    destruct (semas s !! j); simpl; [eauto|by intros ?%elem_of_nil]. }
  apply Hmem in Hp as (th & Ht & <-); [|by apply Hl].
  apply Hmem in Hq as (th' & Ht' & <-); [|by apply Hl]. congruence.
Qed.

Lemma elem_on_one_list_witness :
  NoDup (list_of (demo_run sleeping) PSleep)
  ∧ (demo_sp ∈ list_of (demo_run sleeping) PSleep →
     demo_sp ∈ list_of (demo_run sleeping) PReady → PSleep = PReady).
Proof.
  apply (elem_on_one_list (demo_run sleeping) PSleep PReady demo_sp).
  apply demo_reachable. vm_compute. reflexivity.
Defined.

(** C5: No thread is lost.  In every reachable state exactly the current thread is
    RUNNING; a READY thread other than the idle thread is on the ready list; a
    BLOCKED thread is the idle thread, is still being created, or is on the
    list of the semaphore or alarm it waits for; a DYING thread other than the
    initial one waits to be destroyed. *)
Theorem no_thread_lost `{LayoutOk} s t th :
  reachable s → threads s !! t = Some th →
  match status th with
  | THREAD_RUNNING => t = current s
  | THREAD_READY => t = idle_thread s ∨ t ∈ ready_list s
  | THREAD_BLOCKED => t = idle_thread s ∨ stack th = [] ∨ t ∈ sleep_list s
      ∨ ∃ i sm, semas s !! i = Some sm ∧ t ∈ waiters sm
  | THREAD_DYING => t = initial_thread s ∨ t ∈ destruction_req s
  end.
Proof.
  intros Hr Ht. pose proof (reachable_inv s Hr) as I. pose proof (iv_cpu _ _ I) as [_ Hrun _ _ _].
  pose proof (iv_lists _ _ I) as [_ Hmem Hbad Hsem].
  assert (Hp : placed s t (place_of (idle_thread s) (initial_thread s) t th)) by (by exists th).
  assert (Hnb := Hbad t). destruct (status th) eqn:Hs.
  - by apply (Hrun t th Ht) in Hs as [_ ?].
  - destruct (decide (t = idle_thread s)) as [|Hi]; [by left|right].
    apply (Hmem PReady t Logic.I). exists th. split; [done|].
    unfold place_of in *. rewrite Hs in *. rewrite decide_False in * by done.
    destruct (stack th) as [|[] ]; done.
  - destruct (decide (t = idle_thread s)) as [|Hi]; [by left|right].
    destruct (stack th) as [|f r] eqn:E; [by left|right].
    unfold place_of in Hp. rewrite Hs, E in Hp.
    destruct f; try done; try (by rewrite decide_False in Hp).
    + right. destruct (Hsem t _ Hp) as [sm Hsm]. exists s0, sm. split; [done|].
      pose proof (Hmem (PSema s0) t) as Hm. simpl in Hm. rewrite Hsm in Hm. apply Hm; eauto.
    + left. by apply (Hmem PSleep t Logic.I).
  - destruct (decide (t = initial_thread s)) as [|Hi]; [by left|right].
    apply (Hmem PDead t Logic.I). unfold place_of in Hp. rewrite Hs in Hp.
    destruct (stack th) as [|[] ]; try done. by rewrite decide_False in Hp.
Qed.

Lemma no_thread_lost_witness :
  ∃ th, threads (demo_run contended) !! demo_thread = Some th
  ∧ match status th with
    | THREAD_RUNNING => demo_thread = current (demo_run contended)
    | THREAD_READY => demo_thread = idle_thread (demo_run contended)
        ∨ demo_thread ∈ ready_list (demo_run contended)
    | THREAD_BLOCKED => demo_thread = idle_thread (demo_run contended) ∨ stack th = []
        ∨ demo_thread ∈ sleep_list (demo_run contended)
        ∨ ∃ i sm, semas (demo_run contended) !! i = Some sm ∧ demo_thread ∈ waiters sm
    | THREAD_DYING => demo_thread = initial_thread (demo_run contended)
        ∨ demo_thread ∈ destruction_req (demo_run contended)
    end.
Proof.
  assert (Ht : is_Some (threads (demo_run contended) !! demo_thread)) by (vm_compute; eauto).
  destruct Ht as [th Ht]. exists th. split; [exact Ht|].
  apply (no_thread_lost (demo_run contended) demo_thread th); [|exact Ht].
  apply demo_reachable. vm_compute. reflexivity.
Defined.

(** C4: The alarm clock.  In every reachable state with interrupts on, a timer
    interrupt succeeds and moves from the sleep list to the end of the ready
    list exactly the sleepers whose alarm is at most the new tick count, in
    the order of their alarms: nobody wakes early, nobody oversleeps a tick. *)
Theorem timer_wakes_exactly_due `{LayoutOk} s :
  reachable s → if_flag s = INTR_ON → clock_ok s = true →
  ∃ s' ws, step LTimer s = Some (Ok s')
    ∧ sleep_list s = ws ++ sleep_list s' ∧ ready_list s' = ready_list s ++ ws
    ∧ (∀ t, t ∈ ws → alarm_of s t ≤ ticks s + 1)
    ∧ (∀ t, t ∈ sleep_list s' → ticks s + 1 < alarm_of s t).
Proof.
  intros Hr Hon [H1%Z.leb_le H2%Z.ltb_lt]%andb_true_iff.
  destruct (step_timer_spec s (reachable_inv s Hr) Hon ltac:(lia) H2) as (s' & ws & Hs & _ & Hrest).
  exists s', ws. split; [|done]. unfold step. rewrite Hon, Hs. by destruct (cur_stack s) as [|[] ?].
Qed.

Lemma timer_wakes_exactly_due_witness :
  ∃ s' ws, step LTimer (demo_run sleeping) = Some (Ok s')
    ∧ sleep_list (demo_run sleeping) = ws ++ sleep_list s'
    ∧ ready_list s' = ready_list (demo_run sleeping) ++ ws
    ∧ (∀ t, t ∈ ws → alarm_of (demo_run sleeping) t ≤ ticks (demo_run sleeping) + 1)
    ∧ (∀ t, t ∈ sleep_list s' → ticks (demo_run sleeping) + 1 < alarm_of (demo_run sleeping) t).
Proof.
  apply (timer_wakes_exactly_due (demo_run sleeping)).
  - apply demo_reachable. vm_compute. reflexivity.
  - vm_compute. reflexivity.
  - vm_compute. reflexivity.
Defined.

(** Round robin.  When a thread other than the idle thread yields and others
    are ready, the first of them runs next and the yielding thread goes to the
    end of the ready list. *)
Theorem yield_round_robin `{LayoutOk} s r n rl :
  reachable s → cur_stack s = ThreadYield :: r → current s ≠ idle_thread s →
  destruction_req s = [] → ready_list s = n :: rl →
  ∃ s', run [LExec; LExec] s = Some (Ok s') ∧ current s' = n
    ∧ ready_list s' = rl ++ [current s].
Proof. intros Hr. apply yield_switch. by apply reachable_inv. Qed.

(** [main] has created a thread and calls [thread_yield]. *)
Definition yielding : list label :=
  [LCall (ThreadCreate "a" 31 F_client)] ++ repeat LExec 32 ++ [LCall ThreadYield].

Lemma yield_round_robin_witness :
  ∃ s', run [LExec; LExec] (demo_run yielding) = Some (Ok s') ∧ current s' = demo_thread
    ∧ ready_list s' = [] ++ [demo_sp].
Proof.
  apply (yield_round_robin (demo_run yielding) [Client; ThreadExit] demo_thread []).
  - apply demo_reachable. vm_compute. reflexivity.
  - vm_compute. reflexivity.
  - vm_compute. discriminate.
  - vm_compute. reflexivity.
  - vm_compute. reflexivity.
Defined.

(** [sema_up] wakes the thread that has waited longest: in a reachable state
    whose next frame is [sema_up] on a semaphore with waiters, the step removes
    the first waiter, makes it READY at the end of the ready list and adds one
    to the value. *)
Theorem sema_up_wakes_first `{LayoutOk} s i sm t ws r :
  reachable s → cur_stack s = SemaUp i :: r → semas s !! i = Some sm → waiters sm = t :: ws →
  ∃ s', step LExec s = Some (Ok s')
    ∧ semas s' !! i = Some (Semaphore (u32 (value sm + 1)) ws)
    ∧ ready_list s' = ready_list s ++ [t]
    ∧ thread_status_of s' t = Some THREAD_READY ∧ current s' = current s.
Proof.
  intros Hr Hc Hsm Hw. pose proof (reachable_inv s Hr) as I.
  destruct (cur_running s I) as (th & Ht & Hst).
  destruct (waiter_thread s i sm t ws I Hsm Hw) as (tht & Htt & Hb & Hn & Hnc).
  unfold step. rewrite Hc, (set_cur_stack_eq s th r Ht). simpl.
  rewrite (sema_up_some _ i sm t ws tht); simpl; try done;
    [|apply (inv_noext _ _ I)|by rewrite lookup_insert_ne].
  eexists. split; [reflexivity|]. unfold thread_status_of. simpl.
  by rewrite !lookup_insert_eq.
Qed.

(** [main] releases the contended lock. *)
Definition releasing : list label := contended ++ [LCall (LockRelease demo_lock); LExec].

Lemma sema_up_wakes_first_witness :
  ∃ s', step LExec (demo_run releasing) = Some (Ok s')
    ∧ semas s' !! LockSema demo_lock = Some (Semaphore (u32 (0 + 1)) [])
    ∧ ready_list s' = ready_list (demo_run releasing) ++ [demo_thread]
    ∧ thread_status_of s' demo_thread = Some THREAD_READY
    ∧ current s' = current (demo_run releasing).
Proof.
  apply (sema_up_wakes_first (demo_run releasing) (LockSema demo_lock) (Semaphore 0 [demo_thread])
    demo_thread [] [Client; ThreadExit]).
  - apply demo_reachable. vm_compute. reflexivity.
  - vm_compute. reflexivity.
  - vm_compute. reflexivity.
  - reflexivity.
Defined.

(** Booting.  From the statics the loader leaves, with one page of the pool in
    use, [thread_init] and [thread_start] reach the state from which the other
    theorems start: the idle thread has run and blocked, [main] runs with
    interrupts on. *)
Theorem boot_reaches_booted :
  (s ← boot demo_sp [true; false; false; false];
   match run (repeat LExec 40) s with Some r => r | None => Err NoFuel end)
  = Ok demo_boot.
Proof. vm_compute. reflexivity. Qed.

(** C10: [do_schedule] frees the pages of dead threads with [palloc_free_page],
    which acquires the page pool's lock.  So in every reachable state in which
    the running thread holds that lock and a dead thread waits to be freed, a
    yield - the one of a preemption too, which can come at any instruction of
    [palloc_get_page] - makes the ASSERT in [lock_acquire] fail: the kernel
    panics. *)
Theorem reap_holding_pool_lock_panics `{LayoutOk} s r victim rest :
  reachable s → cur_stack s = ThreadYield :: r → destruction_req s = victim :: rest →
  holders s !! PoolLock = Some (current s) →
  run [LExec; LExec; LExec] s = Some (Err AssertFail).
Proof.
  intros Hr Hc Hd Hh. pose proof (reachable_inv s Hr) as I.
  destruct (yield_enter s r I Hc) as (s1 & Hx & I1 & Hf1 & Hc1 & Hcur & Hd1 & Hh1 & _).
  eapply run_cons_ok; [exact Hx|]. rewrite Hd in Hd1.
  eapply reap_held_fails; eauto. by rewrite Hh1, Hcur.
Qed.

(** A thread exits; [main] is then preempted inside [palloc_get_page], which
    holds the pool's lock. *)
Definition reap_trace : list label :=
  [LCall (ThreadCreate "a" 31 F_client)] ++ repeat LExec 32
  ++ [LCall ThreadYield; LExec; LExec; LExec; LReturn; LExec; LExec; LExec]
  ++ [LCall (ThreadCreate "b" 31 F_client)] ++ repeat LExec 6
  ++ [LTimer; LExec; LTimer; LExec; LTimer; LExec; LTimer].

Lemma reap_holding_pool_lock_panics_witness :
  run [LExec; LExec; LExec] (demo_run reap_trace) = Some (Err AssertFail).
Proof.
  eapply (reap_holding_pool_lock_panics (demo_run reap_trace)).
  - apply demo_reachable. vm_compute. reflexivity.
  - vm_compute. reflexivity.
  - vm_compute. reflexivity.
  - vm_compute. reflexivity.
Defined.

(** When [thread_wakeup] wakes the last sleeper it reads the "alarm" of the
    sleep list's tail sentinel: [earliest_wake_up_tick] is left holding the
    address of [sleep_list.tail], not an alarm. *)
Theorem wakeup_of_last_sleeper_reads_tail `{LayoutOk} s t n :
  reachable s → sleep_list s = [t] → if_flag s = INTR_OFF →
  earliest_wake_up_tick s ≤ n → n < sleep_tail →
  ∃ s', thread_wakeup n s = Ok s' ∧ earliest_wake_up_tick s' = sleep_tail.
Proof.
  intros Hr Hl Hoff He Hn. pose proof (reachable_inv s Hr) as I.
  destruct (proj1 (lo_mem _ (iv_lists _ _ I) PSleep t Logic.I)) as (th & Ht & Hp).
  { simpl. rewrite Hl. by left. }
  destruct (idle_not_sema s t th IdleStarted I Ht (or_intror Hp)) as (_ & _ & Hnn & Hst).
  unfold thread_wakeup. rewrite Hl. cbn [length wakeup_loop Nat.add].
  rewrite Z.geb_leb, (proj2 (Z.leb_le _ _) He), Hl.
  rewrite (unblock_run _ t th) by (simpl; auto). cbn -[Z.geb].
  rewrite Z.geb_leb, (proj2 (Z.leb_gt _ _) Hn). by eexists.
Qed.

(** [main] alone sleeps; the idle thread runs with interrupts off. *)
Definition one_sleeper : list label := [LCall (TimerSleep 2); LExec; LExec].

Lemma wakeup_of_last_sleeper_reads_tail_witness :
  ∃ s', thread_wakeup 2 (demo_run one_sleeper) = Ok s' ∧ earliest_wake_up_tick s' = sleep_tail.
Proof.
  apply (wakeup_of_last_sleeper_reads_tail (demo_run one_sleeper) demo_sp 2).
  - apply demo_reachable. vm_compute. reflexivity.
  - vm_compute. reflexivity.
  - vm_compute. reflexivity.
  - vm_compute. discriminate.
  - vm_compute. reflexivity.
Defined.

(** C7: Type safety of the kernel stacks.  In every reachable state the stack of
    a thread that can still run is well typed: each frame finds the interrupt
    level it was suspended with, the locks it believes it holds, and is followed
    by the frames of its callers; every semaphore, lock and condition variable a
    frame refers to has been initialised.  The four judgements are those of
    [typed], and [live] spells out the last. *)
Theorem thread_stacks_typed `{LayoutOk} s t th :
  reachable s → threads s !! t = Some th → status th ≠ THREAD_DYING →
  lvl_ok (if decide (t = current s) then if_flag s else tf_if th) (stack th)
  ∧ (∀ l h, holders s !! l = Some h → hold_ok l (bool_decide (h = t)) (stack th))
  ∧ shape (idle_thread s) t (stack th)
  ∧ ∀ f, f ∈ stack th → live s f.
Proof.
  intros Hr Ht Hd. destruct (iv_typing _ _ (reachable_inv s Hr) t th Ht) as [_ Hty].
  destruct (Hty Hd) as [T1 T2 T3 T4]. rewrite Forall_forall in T4. done.
Qed.

(** The thread blocked on the lock's semaphore, in the middle of
    [lock_acquire]. *)
Lemma thread_stacks_typed_witness :
  ∃ th, threads (demo_run contended) !! demo_thread = Some th
    ∧ stack th = [SemaDownLoop (LockSema demo_lock); SetLevel INTR_ON; LockAcquireSet demo_lock; Client; ThreadExit]
    ∧ lvl_ok INTR_OFF (stack th) ∧ ∀ f, f ∈ stack th → live (demo_run contended) f.
Proof.
  eexists. split; [vm_compute; reflexivity|]. split; [reflexivity|].
  destruct (thread_stacks_typed (demo_run contended) demo_thread
    (default (Thread 0 THREAD_DYING "" 0 0 INTR_OFF []) (threads (demo_run contended) !! demo_thread))) as (T1 & _ & _ & T4).
  - apply demo_reachable. vm_compute. reflexivity.
  - vm_compute. reflexivity.
  - vm_compute. discriminate.
  - split; [exact T1|exact T4].
Defined.

End KernelTheorems.

(** threads/synch.c, [sema_self_test]: two threads that hand control back and forth with
    two semaphores, as the calls they make on the machine of [Machine].

    A script is what the client code of a thread does next; [drive] executes the frames of
    the running thread and, when its client code runs, the next entry of its script.  The
    timer fires at the steps [timer] selects when interrupts are enabled. *)
Import KState Interrupt Threads Synch ThreadLife Timer Machine KernelTheorems.
Local Open Scope Z_scope.

Module SelfTest.

Section scripts.
Context (sema0 sema1 : Z).

(** The bodies of the loops, ten times each; the messages are left out. *)
Definition sema_self_test : list label :=
  [LInit (OSema sema0 0); LInit (OSema sema1 0); LCall (ThreadCreate "sema-test" 31 F_client)]
  ++ concat (repeat [LCall (SemaUp (Sema sema0)); LCall (SemaDown (Sema sema1))] 10).
Definition sema_test_helper : list label :=
  concat (repeat [LCall (SemaDown (Sema sema0)); LCall (SemaUp (Sema sema1))] 10) ++ [LReturn].

End scripts.

Section drive.
Context `{Layout} (main : Z) (timer : nat → bool).

(** The state when [main]'s script has been executed, with what is left of the others and
    the number of steps. *)
Fixpoint drive (fuel n : nat) (scripts : gmap Z (list label)) (s : kstate) : option (nat * gmap Z (list label) * kstate) :=
  match fuel with
  | O => None
  | S fuel =>
    if timer n && bool_decide (if_flag s = INTR_ON) then
      match step LTimer s with Some (Ok s) => drive fuel (S n) scripts s | _ => None end
    else
      match cur_stack s, default [] (scripts !! current s) with
      | Client :: _, [] => if current s =? main then Some (n, scripts, s) else None
      | Client :: _, l :: ls =>
        match step l s with Some (Ok s') => drive fuel (S n) (<[current s := ls]> scripts) s' | _ => None end
      | _, _ => match step LExec s with Some (Ok s) => drive fuel (S n) scripts s | _ => None end
      end
  end.

End drive.

Definition scripts : gmap Z (list label) := {[demo_sp := sema_self_test 4096 8192; demo_thread := sema_test_helper 4096 8192]}.

(** Whether the test ends with both semaphores at zero and all rounds of the helper done. *)
Definition passes (timer : nat → bool) : bool :=
  match drive demo_sp timer 3000 0 scripts demo_boot with
  | Some (_, rest, s) =>
    (length (default [] (rest !! demo_sp)) =? 0)%nat && (length (default [] (rest !! demo_thread)) <=? 1)%nat
    && bool_decide (value <$> semas s !! Sema 4096 = Some 0) && bool_decide (value <$> semas s !! Sema 8192 = Some 0)
  | None => false
  end.

(** Without timer interrupts, and with one at every second, third, ... step. *)
Example self_test_passes : passes (λ _, false) = true ∧ forallb (λ k, passes (λ n, (n mod k =? 0)%nat)) [2; 3; 4; 5; 7; 11; 13; 20; 50]%nat = true.
Proof. split; vm_compute; reflexivity. Qed.

End SelfTest.
