(* ===== verification/KernelLiveness.v ===== *)
(** The scheduler is fair: a thread on the ready list runs after a bounded
    number of timer interrupts, whatever all other threads do.

    Between two timer interrupts nothing takes the time slice away from the
    running thread but itself; the fourth interrupt of a slice leaves the
    processor with interrupts off and [thread_yield] as the only thing it can
    do.  A switch takes the first thread of the ready list, and threads are
    added at its end only, so that each switch brings a ready thread one place
    nearer. *)
From S2P Require Import Prelude KState Interrupt Threads Synch ThreadLife Timer Machine KInv KInvFacts KInvStep KInvExec KernelSafety KernelTheorems.
Import KState Interrupt Threads Synch ThreadLife Timer Machine KInv KInvFacts KInvStep KernelSafety KernelTheorems.
Local Open Scope Z_scope.

Module KernelLiveness.

(** ** Steps that do not switch, and switches *)

(** Threads are at most added at the end of the ready list, and the running
    thread's time slice goes on. *)
Definition quiet (s s' : kstate) : Prop :=
  (∃ ext, ready_list s' = ready_list s ++ ext) ∧ thread_ticks s' = thread_ticks s.

(** The first ready thread runs, with a new time slice. *)
Definition switched (s s' : kstate) : Prop :=
  thread_ticks s' = 0 ∧
  match ready_list s with [] => True | n :: rl => current s' = n ∧ ∃ ext, ready_list s' = rl ++ ext end.

#[export] Instance quiet_preorder : PreOrder quiet.
Proof.
  split.
  - intros s. split; [exists []; by rewrite app_nil_r|done].
  - intros s1 s2 s3 [[e1 H1] T1] [[e2 H2] T2]. split; [|congruence]. exists (e1 ++ e2). by rewrite H2, H1, app_assoc.
Qed.

(** A state that differs in other fields only. *)
Lemma quiet_same s s' : ready_list s' = ready_list s → thread_ticks s' = thread_ticks s → quiet s s'.
Proof. intros H1 H2. split; [|done]. exists []. by rewrite app_nil_r. Qed.

Lemma quiet_switched s1 s2 s3 : quiet s1 s2 → switched s2 s3 → switched s1 s3.
Proof.
  intros [[e He] _] [H0 H]. split; [done|]. rewrite He in H. destruct (ready_list s1) as [|n rl]; [done|].
  simpl in H. destruct H as (H1 & e2 & H2). split; [done|]. exists (e ++ e2). by rewrite H2, app_assoc.
Qed.

(** Taking apart a call that returned. *)
Lemma bind_ok {A B} (m : res A) (f : A → res B) b : (m ≫= f) = Ok b → ∃ a, m = Ok a ∧ f a = Ok b.
Proof. destruct m as [a|]; [|done]. intros H. by exists a. Qed.

Lemma bind_assert {B} (b : bool) (f : unit → res B) r : (assert_res b ≫= f) = Ok r → b = true ∧ f tt = Ok r.
Proof. by destruct b. Qed.

Lemma set_level_eq v s x s' : intr_set_level v s = Ok (x, s') → s' = set_if_flag v s.
Proof. destruct v; simpl; [by intros [= <- <-]|]. unfold intr_enable. intros [_ [= <- <-]]%bind_assert. done. Qed.

Lemma current_eq s t : thread_current s = Ok t → t = current s ∧ is_Some (threads s !! t).
Proof.
  unfold thread_current. intros [H1 [_ [= <-]]%bind_assert]%bind_assert. split; [done|].
  unfold is_thread in H1. apply andb_true_iff in H1 as [_ H1]. by apply bool_decide_eq_true in H1.
Qed.

Lemma unblock_eq t s s' : thread_unblock t s = Ok s' →
  s' = set_if_flag (if_flag s) (upd_thread t (set_status THREAD_READY) (set_ready_list (ready_list s ++ [t]) (set_if_flag INTR_OFF s))).
Proof.
  unfold thread_unblock. intros [_ H]%bind_assert. simpl in H. apply bind_assert in H as [_ H].
  apply bind_ok in H as ([x s1] & H1 & [= <-]). by apply set_level_eq in H1.
Qed.

Lemma unblock_quiet t s s' : thread_unblock t s = Ok s' → quiet s s'.
Proof. intros ->%unblock_eq. split; [by exists [t]|done]. Qed.

Lemma sema_up_quiet i s s' : sema_up i s = Ok s' → quiet s s'.
Proof.
  unfold sema_up. destruct (semas s !! i) as [sm|]; [|done]. simpl. intros (s1 & H1 & H)%bind_ok.
  apply bind_ok in H as ([x s2] & H2 & [= <-]). apply set_level_eq in H2 as ->.
  assert (quiet s s1) as Hq; [|by destruct Hq; split]. destruct (waiters sm); [injection H1 as <-; by apply quiet_same|].
  apply unblock_quiet in H1. etrans; [|exact H1]. by apply quiet_same.
Qed.

Lemma schedule_switched s s' : schedule s = Ok s' → switched s s'.
Proof.
  intros Hs. split.
  - unfold schedule in Hs. destruct (next_thread_to_run s) as [n s1]. apply bind_assert in Hs as [_ Hs].
    apply bind_assert in Hs as [_ Hs]. apply bind_assert in Hs as [_ Hs].
    destruct (decide _); [|by injection Hs as <-]. unfold thread_launch in Hs. apply bind_assert in Hs as [_ Hs].
    destruct (threads _ !! n); [|done]. injection Hs as <-. simpl. by destruct (_ && _).
  - destruct (ready_list s) as [|n rl] eqn:Er; [done|]. destruct (schedule_next _ _ _ _ Hs Er) as [H1 H2].
    split; [done|]. exists []. by rewrite app_nil_r.
Qed.

Lemma block_switched s s' : thread_block s = Ok s' → switched s s'.
Proof.
  unfold thread_block. intros [_ [_ H]%bind_assert]%bind_assert. apply bind_ok in H as (t & _ & H).
  apply schedule_switched in H. eapply quiet_switched; [|exact H]. by apply quiet_same.
Qed.

Section layout.
Context `{Layout}.

Lemma wakeup_loop_quiet fuel : ∀ n s s', wakeup_loop fuel n s = Ok s' → quiet s s'.
Proof.
  induction fuel as [|fuel IH]; intros n s s' Hw; simpl in Hw; [done|].
  destruct (_ >=? _); [|by injection Hw as <-]. destruct (sleep_list s) as [|t r]; [done|].
  apply bind_ok in Hw as (s1 & H1 & Hw). apply unblock_quiet in H1. apply IH in Hw.
  etrans; [|etrans; [exact H1|etrans; [|exact Hw]]]; by apply quiet_same.
Qed.

Lemma wakeup_quiet n s s' : thread_wakeup n s = Ok s' → quiet s s'.
Proof.
  unfold thread_wakeup. destruct (sleep_list s) as [|t r]; [intros [= <-]; by apply quiet_same|]. apply wakeup_loop_quiet.
Qed.

(** ** Frames *)

(** What the frame of the running thread does, [DoSchedule] and [ThreadYield]
    apart. *)
Lemma try_down_quiet i s b s' : sema_try_down i s = Ok (b, s') → quiet s s'.
Proof.
  unfold sema_try_down. destruct (semas s !! i) as [sm|]; [|done]. simpl.
  destruct (value sm >? 0); intros ([x s2] & H2%set_level_eq & [= <- <-])%bind_ok; subst; by apply quiet_same.
Qed.

Lemma free_page_quiet v rest s s' : palloc_free_page_off v rest s = Ok s' → quiet s s'.
Proof.
  unfold palloc_free_page_off. intros (s1 & H1 & Hx)%bind_ok. unfold palloc_free_check in H1. apply bind_assert in H1 as [_ H1].
  destruct (negb _); [done|]. injection H1 as <-. destruct (semas _ !! _) as [sm|]; [|done].
  destruct (decide _); [injection Hx as <-; by apply quiet_same|]. apply bind_ok in Hx as (h & _ & Hx). apply bind_assert in Hx as [_ Hx].
  apply bind_ok in Hx as (s2 & H2 & Hx). apply bind_ok in Hx as (s3 & H3 & Hx). apply bind_ok in Hx as (s4 & H4 & [= <-]).
  unfold lock_acquire_set in H2. apply bind_ok in H2 as (t & _ & [= <-]). unfold palloc_clear in H3. apply bind_assert in H3 as [_ [= <-]].
  apply sema_up_quiet in H4. etrans; [|etrans; [exact H4|]]; by apply quiet_same.
Qed.

Lemma exec_progress f s s' : exec f s = Ok s' → quiet s s' ∨ switched s s'.
Proof.
  destruct f as [i|i|i|i|l|l|l|l|c l|c l|c l|v| | | |v| |w|v|pr| |nm pr f|nm pr f|t nm pr f|t f|t id f|f| | | | |pg|n|];
    cbn [exec]; intros Hx.
  all: try (injection Hx as <-; left; by apply quiet_same).
  all: try (apply bind_ok in Hx as ([x1 s1] & H1%set_level_eq & [= <-]); subst; left; by apply quiet_same).
  - unfold sema_down in Hx. apply bind_assert in Hx as [_ [= <-]]. left. by apply quiet_same.
  - unfold sema_down_loop in Hx. destruct (semas s !! i); [|done]. destruct (decide _).
    + apply bind_ok in Hx as (t & _ & Hx). apply block_switched in Hx. right. eapply quiet_switched; [|exact Hx]. by apply quiet_same.
    + injection Hx as <-. left. by apply quiet_same.
  - apply bind_ok in Hx as ([b s1] & Hx & [= <-]). left. by eapply try_down_quiet.
  - left. by eapply sema_up_quiet.
  - unfold lock_acquire in Hx. apply bind_assert in Hx as [_ Hx]. apply bind_ok in Hx as (h & _ & Hx).
    apply bind_assert in Hx as [_ [= <-]]. left. by apply quiet_same.
  - unfold lock_acquire_set in Hx. apply bind_ok in Hx as (t & _ & [= <-]). left. by apply quiet_same.
  - apply bind_ok in Hx as ([b s1] & Hx & [= <-]). unfold lock_try_acquire in Hx. apply bind_ok in Hx as (h & _ & Hx).
    apply bind_assert in Hx as [_ Hx]. apply bind_ok in Hx as ([b2 s2] & Hx & [= _ <-]). left.
    apply try_down_quiet in Hx. etrans; [exact Hx|]. destruct b2; by apply quiet_same.
  - unfold lock_release in Hx. apply bind_ok in Hx as (h & _ & Hx). apply bind_assert in Hx as [_ [= <-]]. left. by apply quiet_same.
  - unfold cond_wait in Hx. apply bind_assert in Hx as [_ Hx]. apply bind_ok in Hx as (h & _ & Hx). apply bind_assert in Hx as [_ Hx].
    destruct (conds s !! c); [|done]. apply bind_ok in Hx as (t & _ & [= <-]). left. by apply quiet_same.
  - unfold cond_signal in Hx. apply bind_assert in Hx as [_ Hx]. apply bind_ok in Hx as (h & _ & Hx). apply bind_assert in Hx as [_ Hx].
    destruct (conds s !! c) as [[|w ws]|]; [| |done]; injection Hx as <-; left; by apply quiet_same.
  - unfold cond_broadcast in Hx. destruct (conds s !! c) as [[|w ws]|]; [| |done]; injection Hx as <-; left; by apply quiet_same.
  - unfold thread_yield in Hx. apply bind_ok in Hx as (t & _ & Hx). apply bind_assert in Hx as [_ [= <-]]. left.
    destruct (decide _); [split; [by exists [t]|done]|by apply quiet_same].
  - unfold thread_exit in Hx. apply bind_assert in Hx as [_ [= <-]]. left. by apply quiet_same.
  - unfold do_schedule in Hx. apply bind_assert in Hx as [_ Hx]. apply bind_ok in Hx as (t & _ & Hx).
    destruct (destruction_req s) as [|d ds].
    + right. apply schedule_switched in Hx. eapply quiet_switched; [|exact Hx]. by apply quiet_same.
    + left. apply free_page_quiet in Hx. etrans; [|exact Hx]. by apply quiet_same.
  - done.
  - unfold thread_sleep in Hx. apply bind_ok in Hx as (t & _ & Hx). simpl in Hx. apply block_switched in Hx. right.
    eapply quiet_switched; [|exact Hx]. apply quiet_same; unfold push, earliest_time; simpl; by destruct (_ >? _).
  - unfold thread_set_priority in Hx. apply bind_ok in Hx as (t & _ & [= <-]). left. by apply quiet_same.
  - unfold create_scan in Hx. destruct (scan_and_flip _) as [[k m]|]; injection Hx as <-; left; by apply quiet_same.
  - unfold create_init in Hx. apply bind_ok in Hx as (s1 & Hi & [= <-]). unfold init_thread in Hi.
    apply bind_assert in Hi as [_ Hi]. apply bind_assert in Hi as [_ [= <-]]. left. by apply quiet_same.
  - left. unfold create_finish in Hx. apply unblock_quiet in Hx. etrans; [|exact Hx]. by apply quiet_same.
  - unfold kernel_thread in Hx. apply bind_ok in Hx as ([x1 s1] & H1 & [= <-]). unfold intr_enable in H1.
    apply bind_assert in H1 as [_ [= <- <-]]. left. by apply quiet_same.
  - unfold idle in Hx. apply bind_ok in Hx as (t & _ & [= <-]). left. by apply quiet_same.
  - unfold idle_loop in Hx. simpl in Hx. apply block_switched in Hx. right. eapply quiet_switched; [|exact Hx]. by apply quiet_same.
  - unfold palloc_clear in Hx. apply bind_assert in Hx as [_ [= <-]]. left. by apply quiet_same.
  - unfold timer_sleep in Hx. apply bind_ok in Hx as ([x1 s1] & H1 & Hx). apply bind_assert in Hx as [_ [= <-]].
    unfold timer_ticks in H1. simpl in H1. apply bind_ok in H1 as ([x2 s2] & H2%set_level_eq & [= <- <-]). subst. left. by apply quiet_same.
Qed.

(** ** The end of a time slice *)

(** [thread_yield] on return from the interrupt, or the switch it leads to, is
    the only thing the processor can do next. *)
Definition switching (s : kstate) : Prop :=
  (∃ st r, cur_stack s = DoSchedule st :: r) ∨ (if_flag s = INTR_OFF ∧ ∃ r, cur_stack s = ThreadYield :: r).

Definition slice_ok (s : kstate) : Prop :=
  0 ≤ thread_ticks s ∧ (thread_ticks s < TIME_SLICE ∨ thread_ticks s = TIME_SLICE ∧ switching s).

Lemma cur_stack_push fs s : is_Some (threads (push fs s) !! current s) → cur_stack (push fs s) = fs ++ cur_stack s.
Proof.
  unfold cur_stack, push, upd_thread. simpl. rewrite lookup_alter_eq. intros [th Hth].
  destruct (threads s !! current s); [done|]. done.
Qed.

(** Only the end of [thread_yield], and the reaping loop, come back to
    [do_schedule]. *)
Lemma free_page_switching v st s s' :
  palloc_free_page_off v [DoSchedule st] s = Ok s' → is_Some (threads s' !! current s') →
  (∃ sm, semas s !! LockSema PoolLock = Some sm ∧ value sm ≠ 0) → switching s'.
Proof.
  unfold palloc_free_page_off. intros (s1 & H1 & Hx)%bind_ok Hc (sm & Hsm & Hv). unfold palloc_free_check in H1.
  apply bind_assert in H1 as [_ H1]. destruct (negb _); [done|]. injection H1 as <-.
  simpl in Hx. rewrite Hsm, decide_False in Hx by done.
  apply bind_ok in Hx as (h & _ & Hx). apply bind_assert in Hx as [_ Hx].
  apply bind_ok in Hx as (s2 & H2 & Hx). apply bind_ok in Hx as (s3 & H3 & Hx). apply bind_ok in Hx as (s4 & H4 & [= <-]).
  left. exists st, (cur_stack s4). by apply cur_stack_push.
Qed.

Lemma wakeup_loop_yield fuel : ∀ n s s', wakeup_loop fuel n s = Ok s' → yield_on_return s' = yield_on_return s.
Proof.
  induction fuel as [|fuel IH]; intros n s s' Hw; simpl in Hw; [done|].
  destruct (_ >=? _); [|by injection Hw as <-]. destruct (sleep_list s) as [|t r]; [done|].
  apply bind_ok in Hw as (s1 & ->%unblock_eq & Hw). by apply IH in Hw as ->.
Qed.

Lemma thread_tick_slice s s' :
  thread_tick s = Ok s' → 0 ≤ thread_ticks s < TIME_SLICE →
  ready_list s' = ready_list s ∧ thread_ticks s' = thread_ticks s + 1
  ∧ (thread_ticks s' = TIME_SLICE → yield_on_return s' = true).
Proof.
  unfold thread_tick, TIME_SLICE. intros (t & _ & Ht)%bind_ok Hr.
  assert (Hu : u32 (thread_ticks s + 1) = thread_ticks s + 1) by (apply u32_small; lia).
  revert Ht. destruct (decide _); simpl; rewrite Hu; (destruct (_ >=? _) eqn:E; [intros [_ [= <-]]%bind_assert|intros [= <-]]);
    simpl; (split; [done|]); (split; [done|]); intros; try done; rewrite Z.geb_leb in E; apply Z.leb_gt in E; lia.
Qed.

Lemma wakeup_yield n s s' : thread_wakeup n s = Ok s' → yield_on_return s' = yield_on_return s.
Proof. unfold thread_wakeup. destruct (sleep_list s); [by intros [= <-]|]. apply wakeup_loop_yield. Qed.

Lemma handler_return h x s' :
  intr_handler h x = Ok s' →
  ∃ s1, h (set_yield_on_return false (set_in_external_intr true x)) = Ok s1 ∧ if_flag s1 = INTR_OFF
    ∧ s' = push (if yield_on_return s1 then [ThreadYield; Iret] else [Iret]) (set_in_external_intr false s1).
Proof.
  unfold intr_handler. intros [_ Hx]%bind_assert. apply bind_assert in Hx as [_ Hx].
  apply bind_ok in Hx as (s1 & H1 & Hx). apply bind_assert in Hx as [Hoff Hx]. apply bind_assert in Hx as [_ [= <-]].
  apply bool_decide_eq_true in Hoff. by exists s1.
Qed.

Lemma return_switching s :
  let s' := push [ThreadYield; Iret] s in
  if_flag s = INTR_OFF → is_Some (threads s' !! current s') → switching s'.
Proof. intros s' Hf Hc. right. split; [exact Hf|]. exists (Iret :: cur_stack s). by apply (cur_stack_push [ThreadYield; Iret]). Qed.

Lemma timer_entry_slice s : ready_list (timer_entry s) = ready_list s ∧ thread_ticks (timer_entry s) = thread_ticks s.
Proof. unfold timer_entry. by destruct (cur_stack s) as [|[] ?]. Qed.

Lemma timer_interrupt_slice x s1 :
  timer_interrupt x = Ok s1 → 0 ≤ thread_ticks x < TIME_SLICE →
  (∃ ext, ready_list s1 = ready_list x ++ ext) ∧ thread_ticks s1 = thread_ticks x + 1
  ∧ (thread_ticks s1 = TIME_SLICE → yield_on_return s1 = true).
Proof.
  unfold timer_interrupt. intros (s2 & H2 & H1)%bind_ok Ht.
  generalize dependent (i64 (ticks x + 1)). intros z H2. apply thread_tick_slice in H2 as (Hr & Hk & Hy); [|exact Ht].
  pose proof (wakeup_quiet _ _ _ H1) as [[ext Hq] Hq2]. apply wakeup_yield in H1. rewrite Hq2, Hq, H1, Hr.
  split; [by exists ext|]. by split.
Qed.

Lemma timer_slice s s' :
  intr_handler timer_interrupt (timer_entry s) = Ok s' → is_Some (threads s' !! current s') →
  0 ≤ thread_ticks s < TIME_SLICE →
  (∃ ext, ready_list s' = ready_list s ++ ext) ∧ thread_ticks s' = thread_ticks s + 1 ∧ slice_ok s'.
Proof.
  intros (s1 & H1 & Hoff & ->)%handler_return Hc Ht. destruct (timer_entry_slice s) as [He1 He2].
  generalize dependent (timer_entry s). intros e H1 He1 He2. rewrite <- He1, <- He2 in *.
  apply timer_interrupt_slice in H1 as (Hr & Hk & Hy); [|exact Ht].
  split; [exact Hr|]. split; [exact Hk|]. unfold slice_ok.
  change (thread_ticks (push _ _)) with (thread_ticks s1). rewrite Hk in *. cbn [thread_ticks set_yield_on_return set_in_external_intr] in *.
  split; [lia|]. destruct (decide (thread_ticks e + 1 = TIME_SLICE)) as [E|]; [right|left; lia].
  split; [done|]. rewrite (Hy E) in Hc |- *. by apply return_switching.
Qed.

End layout.

Section fair.
Context `{LayoutOk}.

Lemma switching_off s : inv s → switching s → if_flag s = INTR_OFF.
Proof.
  intros I [(st & r & E)|[Hf _]]; [|done]. destruct (cur_running s I) as (th & Ht & _).
  unfold cur_stack in E. rewrite Ht in E. simpl in E. pose proof (cur_typed _ _ I Ht) as [T1 _ _ _].
  unfold lvl_of in T1. rewrite decide_True, E in T1 by done. by destruct st, T1.
Qed.

(** From [switching], the next frame switches or is followed by another of its
    kind. *)
Lemma exec_switching s s' :
  inv s → is_Some (threads s' !! current s') → reap_safe s = true → step LExec s = Some (Ok s') →
  switching s → quiet s s' ∧ switching s' ∨ switched s s'.
Proof.
  intros I Hc Hr Hs Hsw.
  assert (∃ f r, cur_stack s = f :: r ∧ exec f (set_cur_stack r s) = Ok s' ∧ (f = ThreadYield ∨ ∃ st, f = DoSchedule st))
    as (f & r & E & Hx & Hf).
  { unfold step in Hs. destruct Hsw as [(st & r & E)|[_ [r E]]]; rewrite E in Hs; injection Hs as Hs; eauto 8. }
  destruct Hf as [->|[st ->]]; cbn [exec] in Hx.
  - left. unfold thread_yield in Hx. apply bind_ok in Hx as (t & _ & Hx). apply bind_assert in Hx as [_ Hx].
    simpl in Hx. injection Hx as <-. split.
    + destruct (decide _); [split; [by exists [t]|done]|by apply quiet_same].
    + left. eexists _, _. refine (cur_stack_push [DoSchedule THREAD_READY; SetLevel _] _ _). exact Hc.
  - unfold do_schedule in Hx. apply bind_assert in Hx as [_ Hx]. apply bind_ok in Hx as (t & _ & Hx).
    unfold reap_safe in Hr. rewrite E in Hr. simpl in Hx. destruct (destruction_req s) as [|d ds] eqn:Hd.
    + right. apply schedule_switched in Hx. eapply quiet_switched; [|exact Hx]. by apply quiet_same.
    + left. split; [apply free_page_quiet in Hx; etrans; [|exact Hx]; by apply quiet_same|].
      eapply free_page_switching; [exact Hx|exact Hc|]. simpl.
      destruct (semas s !! LockSema PoolLock) as [sm|]; [|done]. exists sm. split; [done|]. intros Hv. by rewrite Hv in Hr.
Qed.

(** Timer interrupts among the steps. *)
Definition tick (l : label) : Z := match l with LTimer => 1 | _ => 0 end.
Fixpoint timers (ls : list label) : Z :=
  match ls with [] => 0 | l :: ls => tick l + timers ls end.

Lemma step_slice l s s' :
  inv s → inv s' → allowed l s = true → step l s = Some (Ok s') → slice_ok s →
  slice_ok s' ∧ ((∃ ext, ready_list s' = ready_list s ++ ext) ∧ thread_ticks s' = thread_ticks s + tick l
                 ∨ tick l = 0 ∧ switched s s').
Proof.
  intros I I' Hal Hs [Hnn Hsl]. destruct (cur_running s' I') as (th' & Ht' & _).
  destruct Hsl as [Hlt|[Heq Hsw]].
  - destruct l as [|o|f| |]; cbn [tick] in *; rewrite ?Z.add_0_r.
    + assert (∃ f r, exec f (set_cur_stack r s) = Ok s') as (f & r & Hx).
      { unfold step in Hs. destruct (cur_stack s) as [|f r]; [done|]. injection Hs as Hs. eauto. }
      destruct (exec_progress _ _ _ Hx) as [[Hq1 Hq2]|[Hq1 Hq2]].
      * split; [split; [|left]; rewrite Hq2; done|]. left. by split.
      * split; [split; [|left]; rewrite Hq1; done|]. right. by split.
    + unfold step in Hs. destruct (cur_stack s) as [|[] ?]; try done. injection Hs as <-.
      split; [by destruct o; (split; [|left])|]. left. split; [exists []; rewrite app_nil_r|]; by destruct o.
    + unfold step in Hs. destruct (cur_stack s) as [|[] ?]; try done. injection Hs as <-.
      split; [split; [|left]; done|]. left. split; [exists []; by rewrite app_nil_r|done].
    + unfold step in Hs. destruct (cur_stack s) as [|[] ?]; try done. injection Hs as <-.
      split; [split; [|left]; done|]. left. split; [exists []; by rewrite app_nil_r|done].
    + assert (intr_handler timer_interrupt (timer_entry s) = Ok s') as Hx.
      { unfold step in Hs. destruct (if_flag s), (cur_stack s) as [|[] ?]; try done; by injection Hs. }
      destruct (timer_slice _ _ Hx) as (H1 & H2 & H3); [by exists th'|done|]. split; [done|]. by left.
  - assert (l = LExec) as ->.
    { pose proof (switching_off _ I Hsw) as Hoff. unfold step in Hs.
      destruct Hsw as [(st & r & E)|[_ [r E]]]; rewrite E, ?Hoff in Hs; by destruct l. }
    cbn [tick]. rewrite Z.add_0_r.
    destruct (exec_switching s s') as [[[Hq1 Hq2] Hsw']|Hsw']; [done|by exists th'|done|done|done| |].
    + split; [split; [|right]; rewrite Hq2; [done|by split]|]. left. by split.
    + split; [|by right]. destruct Hsw' as [Hz _]. split; [|left]; rewrite Hz; done.
Qed.

(** The timer interrupts a thread at index [k] of the ready list waits for at
    most. *)
Definition wait_bound (s : kstate) (k : nat) : Z := TIME_SLICE * Z.of_nat k + (TIME_SLICE - thread_ticks s).

Lemma wait_run ls : ∀ s k t,
  inv s → slice_ok s → allowed_run ls s = true → ready_list s !! k = Some t → wait_bound s k < timers ls →
  ∃ ls1 ls2 s1, ls = ls1 ++ ls2 ∧ timers ls1 ≤ wait_bound s k ∧ run ls1 s = Some (Ok s1) ∧ current s1 = t.
Proof.
  induction ls as [|l ls IH]; intros s k t I Hsl Hal Hk Hb; simpl in Hal, Hb.
  { destruct Hsl as [_ Hsl]. unfold wait_bound, TIME_SLICE in *. lia. }
  apply andb_true_iff in Hal as [Ha Hal]. destruct (step l s) as [r|] eqn:Hs; [|done].
  destruct (step_ok l s r I Ha Hs) as (s' & -> & I').
  destruct (step_slice l s s' I I' Ha Hs Hsl) as [Hsl' Hp].
  assert ((current s' = t ∧ tick l = 0) ∨ ∃ k', ready_list s' !! k' = Some t ∧ wait_bound s' k' + tick l ≤ wait_bound s k)
    as [[Hc Hl]|(k' & Hk' & Hb')].
  { destruct Hp as [[[ext He] Hq]|[Hl [Hz Hq]]].
    - right. exists k. rewrite He, lookup_app, Hk. split; [done|]. unfold wait_bound. lia.
    - destruct (ready_list s) as [|n rl]; [done|]. destruct Hq as [Hc [ext He]]. destruct k as [|k].
      + left. by simplify_eq/=.
      + right. exists k. simpl in Hk. rewrite He, lookup_app, Hk. split; [done|]. destruct Hsl as [_ Hsl].
        unfold wait_bound, TIME_SLICE in *. lia. }
  - exists [l], ls, s'. split; [done|]. simpl. rewrite Hs. split; [|done]. destruct Hsl as [_ Hsl].
    unfold wait_bound, TIME_SLICE in *. lia.
  - destruct (IH s' k' t I' Hsl' Hal Hk') as (ls1 & ls2 & s1 & -> & Hn & Hr & Hc); [lia|].
    exists (l :: ls1), ls2, s1. split; [done|]. simpl. rewrite Hs. split; [lia|done].
Qed.

Lemma run_slice ls : ∀ s s', inv s → slice_ok s → allowed_run ls s = true → run ls s = Some (Ok s') → slice_ok s'.
Proof.
  induction ls as [|l ls IH]; intros s s' I Hsl Hal Hr; simpl in Hal, Hr; [by injection Hr as <-|].
  apply andb_true_iff in Hal as [Ha Hal]. destruct (step l s) as [r|] eqn:Hs; [|done].
  destruct (step_ok l s r I Ha Hs) as (s1 & -> & I1). eapply IH; [exact I1| |exact Hal|exact Hr].
  by apply (step_slice l s s1 I I1 Ha Hs).
Qed.

Lemma reachable_slice s : reachable s → slice_ok s.
Proof.
  intros (sp & i & m & ls & (H1 & H2 & H3) & Hal & Hrun). eapply run_slice; [| |exact Hal|exact Hrun].
  - by apply booted_inv.
  - by split; [|left].
Qed.

End fair.

(** ** The theorem *)

(** C6: No starvation.  A thread at index [k] of the ready list of a reachable
    state runs after at most [TIME_SLICE * (k + 1)] timer interrupts: every
    interleaving with more of them passes through a state in which it is the
    running thread, whatever the other threads and other kernel code do. *)
Theorem ready_thread_runs `{LayoutOk} ls s k t :
  reachable s → ready_list s !! k = Some t → allowed_run ls s = true →
  TIME_SLICE * (Z.of_nat k + 1) < timers ls →
  ∃ ls1 ls2 s1, ls = ls1 ++ ls2 ∧ timers ls1 ≤ TIME_SLICE * (Z.of_nat k + 1)
    ∧ run ls1 s = Some (Ok s1) ∧ current s1 = t.
Proof.
  intros Hr Hk Hal Hn. pose proof (reachable_slice s Hr) as Hsl.
  assert (wait_bound s k ≤ TIME_SLICE * (Z.of_nat k + 1)) by (destruct Hsl as [Hnn _]; unfold wait_bound; lia).
  destruct (wait_run ls s k t) as (ls1 & ls2 & s1 & Hls & Hn1 & Hr1 & Hc1); try done;
    [by apply reachable_inv|lia|]. exists ls1, ls2, s1. repeat split; try done. lia.
Qed.

(** [main] creates a thread and goes on without ever yielding. *)
Definition created : list label := [LCall (ThreadCreate "a" 31 F_client)] ++ repeat LExec 32.
Definition busy : list label := concat (repeat [LTimer; LExec] 4) ++ [LExec; LExec; LExec; LTimer].

Lemma ready_thread_runs_witness :
  ready_list (demo_run created) !! 0%nat = Some demo_thread ∧
  ∃ ls1 ls2 s1, busy = ls1 ++ ls2 ∧ timers ls1 ≤ TIME_SLICE * 1
    ∧ run ls1 (demo_run created) = Some (Ok s1) ∧ current s1 = demo_thread.
Proof.
  assert (Hk : ready_list (demo_run created) !! 0%nat = Some demo_thread) by (vm_compute; reflexivity).
  split; [exact Hk|]. apply (ready_thread_runs busy (demo_run created) 0 demo_thread).
  - apply demo_reachable. vm_compute. reflexivity.
  - exact Hk.
  - vm_compute. reflexivity.
  - vm_compute. reflexivity.
Defined.

End KernelLiveness.
