(* ===== verification/BitmapTheorems.v ===== *)
(** Bitmaps: every operation of [Bitmap] on words refines the operation on the
    sequence of bits the bitmap represents. *)
From S2P Require Import Prelude KState Threads Bitmap.
Import Bitmap.
Local Open Scope Z_scope.

Module BitmapTheorems.

(** Bit [i] as the words store it. *)
Definition word_bit (bm : bitmap) (i : nat) : bool :=
  Z.testbit (default 0 (bits bm !! (i / 64)%nat)) (Z.of_nat (i mod 64)).

(** The bitmap represents the bits [l]. *)
Record rep (bm : bitmap) (l : list bool) : Prop := {
  rep_len : Z.of_nat (length l) = bit_cnt bm;
  rep_max : bit_cnt bm < 2 ^ 64 - 64;
  rep_elems : Z.of_nat (length (bits bm)) = elem_cnt (bit_cnt bm);
  rep_words : Forall (λ w, 0 ≤ w < 2 ^ 64) (bits bm);
  rep_bits : ∀ i, (i < length l)%nat → l !! i = Some (word_bit bm i) }.

Definition bitmap_at (m : bmem) (b : Z) (l : list bool) : Prop :=
  b ≠ NULL ∧ ∃ bm, m !! b = Some bm ∧ rep bm l.

(** [op] returns [r] and changes only the bitmap at [b], to bits [l]. *)
Definition updates {A} (op : st bmem A) (m : bmem) (b : Z) (r : A) (l : list bool) : Prop :=
  ∃ bm, op m = Ok (r, <[b := bm]> m) ∧ rep bm l.

(** The operations on sequences. *)
Definition fill (start cnt : nat) (v : bool) (l : list bool) : list bool :=
  take start l ++ replicate cnt v ++ drop (start + cnt) l.
Definition range (start cnt : nat) (l : list bool) : list bool := take cnt (drop start l).
Definition count_of (v : bool) (l : list bool) : nat := length (filter (λ b, b = v) l).

(** ** Words *)

Section words.
Implicit Types w : Z.

Lemma bit_mask_eq (i : nat) : bit_mask (Z.of_nat i) = 2 ^ Z.of_nat (i mod 64).
Proof.
  unfold bit_mask, ELEM_BITS. rewrite Z.shiftl_1_l.
  change 64 with (Z.of_nat 64). rewrite <- Nat2Z.inj_mod. apply u64_small.
  pose proof (Nat.mod_upper_bound i 64). split; [apply Z.pow_nonneg; lia|].
  apply Z.pow_lt_mono_r; lia.
Qed.

Lemma elem_idx_eq (i : nat) : Z.to_nat (elem_idx (Z.of_nat i)) = (i / 64)%nat.
Proof.
  unfold elem_idx, ELEM_BITS. change 64 with (Z.of_nat 64).
  by rewrite <- Nat2Z.inj_div, Nat2Z.id.
Qed.

Lemma word_range_iff w : 0 ≤ w < 2 ^ 64 ↔ 0 ≤ w ∧ ∀ j, 64 ≤ j → Z.testbit w j = false.
Proof.
  split.
  - intros [H1 H2]. split; [done|]. intros j Hj.
    destruct (decide (w = 0)) as [->|]; [apply Z.bits_0|].
    apply Z.bits_above_log2; [done|]. apply Z.lt_le_trans with 64; [|done].
    apply Z.log2_lt_pow2; lia.
  - intros [H1 H2]. split; [done|]. destruct (decide (w = 0)) as [->|]; [lia|].
    apply Z.log2_lt_pow2; [lia|]. destruct (decide (64 ≤ Z.log2 w)) as [Hl|]; [|lia].
    specialize (H2 _ Hl). rewrite Z.bit_log2 in H2 by lia. done.
Qed.

Lemma testbit_pow2 (j k : nat) : Z.testbit (2 ^ Z.of_nat j) (Z.of_nat k) = bool_decide (j = k).
Proof.
  rewrite Z.pow2_bits_eqb by lia. destruct (Z.eqb_spec (Z.of_nat j) (Z.of_nat k)); case_bool_decide; lia || done.
Qed.

Lemma land_pow2 w (j : nat) : negb (Z.land w (2 ^ Z.of_nat j) =? 0) = Z.testbit w (Z.of_nat j).
Proof.
  destruct (Z.testbit w (Z.of_nat j)) eqn:E.
  - apply negb_true_iff, Z.eqb_neq. intros H0.
    assert (Z.testbit (Z.land w (2 ^ Z.of_nat j)) (Z.of_nat j) = true)
      by (rewrite Z.land_spec, E, testbit_pow2, bool_decide_eq_true_2; done).
    by rewrite H0, Z.bits_0 in H.
  - apply negb_false_iff, Z.eqb_eq, Z.bits_inj'. intros n Hn.
    rewrite Z.land_spec, Z.bits_0, Z.pow2_bits_eqb by lia.
    destruct (Z.eqb_spec (Z.of_nat j) n) as [<-|]; [by rewrite E|apply andb_false_r].
Qed.

(** The new word of an operation on bit [j]: in range, and only bit [j] changed. *)
Definition bit_update w w' (j : nat) (v : bool) : Prop :=
  0 ≤ w' < 2 ^ 64 ∧
  ∀ k : nat, Z.testbit w' (Z.of_nat k) = if decide (k = j) then v else Z.testbit w (Z.of_nat k).

Lemma mask_range (j : nat) : (j < 64)%nat → 0 ≤ 2 ^ Z.of_nat j < 2 ^ 64.
Proof. intros. split; [apply Z.pow_nonneg; lia|apply Z.pow_lt_mono_r; lia]. Qed.

Lemma or_update w (j : nat) :
  (j < 64)%nat → 0 ≤ w < 2 ^ 64 → bit_update w (Z.lor w (2 ^ Z.of_nat j)) j true.
Proof.
  intros Hj Hw. pose proof (mask_range j Hj) as Hm. split.
  - apply word_range_iff. apply word_range_iff in Hw as [? Hw], Hm as [? Hm].
    split; [by apply Z.lor_nonneg|]. intros k Hk. by rewrite Z.lor_spec, Hw, Hm.
  - intros k. rewrite Z.lor_spec, testbit_pow2.
    destruct (decide (k = j)) as [->|]; [by rewrite bool_decide_eq_true_2, orb_true_r|].
    by rewrite bool_decide_eq_false_2, orb_false_r.
Qed.

Lemma xor_update w (j : nat) :
  (j < 64)%nat → 0 ≤ w < 2 ^ 64 →
  bit_update w (Z.lxor w (2 ^ Z.of_nat j)) j (negb (Z.testbit w (Z.of_nat j))).
Proof.
  intros Hj Hw. pose proof (mask_range j Hj) as Hm. split.
  - apply word_range_iff. apply word_range_iff in Hw as [? Hw], Hm as [? Hm].
    split; [by apply Z.lxor_nonneg|]. intros k Hk. by rewrite Z.lxor_spec, Hw, Hm.
  - intros k. rewrite Z.lxor_spec, testbit_pow2.
    destruct (decide (k = j)) as [->|]; [by rewrite bool_decide_eq_true_2, xorb_true_r|].
    by rewrite bool_decide_eq_false_2, xorb_false_r.
Qed.

Lemma and_update w (j : nat) :
  (j < 64)%nat → 0 ≤ w < 2 ^ 64 →
  bit_update w (Z.land w (u64 (Z.lnot (2 ^ Z.of_nat j)))) j false.
Proof.
  intros Hj Hw. apply word_range_iff in Hw as [H0 Hw]. split.
  - apply word_range_iff. split; [apply Z.land_nonneg; auto|].
    intros k Hk. by rewrite Z.land_spec, Hw.
  - intros k. rewrite Z.land_spec. unfold u64. destruct (decide (64 ≤ Z.of_nat k)).
    { rewrite Hw by done. simpl. by case_decide. }
    rewrite Z.mod_pow2_bits_low, Z.lnot_spec, testbit_pow2 by lia.
    destruct (decide (k = j)) as [->|]; [by rewrite bool_decide_eq_true_2, andb_false_r|].
    by rewrite bool_decide_eq_false_2, andb_true_r.
Qed.
End words.

(** ** Single bits *)

Section single.
Context (m : bmem) (b : Z) (bm : bitmap) (l : list bool).
Hypothesis Hb : b ≠ NULL.
Hypothesis Hm : m !! b = Some bm.
Hypothesis R : rep bm l.

Lemma size_ok : bitmap_size b m = Ok (bit_cnt bm, m).
Proof using Hm. unfold bitmap_size, get_bitmap, mbind, st_bind. by rewrite Hm. Qed.

Lemma elem_in_range i : (i < length l)%nat → (i / 64 < length (bits bm))%nat.
Proof using R.
  intros Hi. apply Nat2Z.inj_lt. rewrite (rep_elems _ _ R), <- (rep_len _ _ R).
  pose proof (rep_max _ _ R). pose proof (rep_len _ _ R). unfold elem_cnt, ELEM_BITS.
  rewrite u64_small by lia. rewrite Nat2Z.inj_div. change (Z.of_nat 64) with 64.
  apply Z.div_lt_upper_bound; [lia|]. pose proof (Z.div_mod (Z.of_nat (length l) + 64 - 1) 64).
  pose proof (Z.mod_pos_bound (Z.of_nat (length l) + 64 - 1) 64). lia.
Qed.

Lemma get_elem_ok i :
  (i < length l)%nat →
  ∃ w, bits bm !! (i / 64)%nat = Some w ∧ get_elem b (elem_idx (Z.of_nat i)) m = Ok (w, m) ∧
       0 ≤ w < 2 ^ 64 ∧ l !! i = Some (Z.testbit w (Z.of_nat (i mod 64))).
Proof using Hm R.
  intros Hi. destruct (lookup_lt_is_Some_2 _ _ (elem_in_range i Hi)) as [w Hw].
  exists w. unfold get_elem, get_bitmap, mbind, st_bind. rewrite Hm, elem_idx_eq, Hw.
  split; [done|]. split; [done|]. split.
  - apply (Forall_lookup_1 _ _ _ _ (rep_words _ _ R) Hw).
  - rewrite (rep_bits _ _ R) by done. unfold word_bit. by rewrite Hw.
Qed.

Lemma rep_update i w w' v :
  (i < length l)%nat → bits bm !! (i / 64)%nat = Some w → bit_update w w' (i mod 64) v →
  rep (MkBitmap (bit_cnt bm) (<[(i / 64)%nat := w']> (bits bm))) (<[i := v]> l).
Proof using R.
  intros Hi Hw [Hr Hu]. destruct R as [R1 R2 R3 R4 R5]. split; cbn [bits bit_cnt].
  - by rewrite length_insert.
  - done.
  - by rewrite length_insert.
  - by apply Forall_insert.
  - intros k. rewrite length_insert. intros Hk. unfold word_bit. cbn [bits].
    destruct (decide (i / 64 = k / 64)%nat) as [He|He].
    + rewrite <- He, list_lookup_insert_eq by (eapply lookup_lt_Some; eauto). cbn [default].
      rewrite Hu. destruct (decide (k = i)) as [->|Hki].
      { rewrite list_lookup_insert_eq by done. by rewrite decide_True. }
      rewrite list_lookup_insert_ne, R5 by done. rewrite decide_False.
      { unfold word_bit. rewrite <- He, Hw. done. }
      intros Hmm. apply Hki. rewrite (Nat.div_mod_eq k 64), (Nat.div_mod_eq i 64). lia.
    + rewrite list_lookup_insert_ne by congruence. rewrite R5, list_lookup_insert_ne by done. done.
Qed.

(** An instruction that replaces the word of bit [i] changes that bit only. *)
Lemma elem_op_ok i w w' v (op : st bmem unit) :
  (i < length l)%nat → bits bm !! (i / 64)%nat = Some w → bit_update w w' (i mod 64) v →
  op m = set_elem b (elem_idx (Z.of_nat i)) w' m → updates op m b tt (<[i := v]> l).
Proof using Hm R.
  intros Hi Hw Hu Ho. eexists. split; [|by eapply rep_update].
  rewrite Ho. unfold set_elem, get_bitmap, mbind, st_bind. rewrite Hm, elem_idx_eq. done.
Qed.

Lemma mark_ok i : (i < length l)%nat → updates (bitmap_mark b (Z.of_nat i)) m b tt (<[i := true]> l).
Proof using Hm R.
  intros Hi. destruct (get_elem_ok i Hi) as (w & Hw & Hg & Hr & Hl).
  eapply elem_op_ok; [done..|by apply or_update; [apply Nat.mod_upper_bound|]|].
  unfold bitmap_mark. rewrite (st_bind_ok _ _ _ _ _ Hg), bit_mask_eq. done.
Qed.

Lemma reset_ok i : (i < length l)%nat → updates (bitmap_reset b (Z.of_nat i)) m b tt (<[i := false]> l).
Proof using Hm R.
  intros Hi. destruct (get_elem_ok i Hi) as (w & Hw & Hg & Hr & Hl).
  eapply elem_op_ok; [done..|by apply and_update; [apply Nat.mod_upper_bound|]|].
  unfold bitmap_reset. rewrite (st_bind_ok _ _ _ _ _ Hg), bit_mask_eq. done.
Qed.

Lemma flip_ok i v : l !! i = Some v → updates (bitmap_flip b (Z.of_nat i)) m b tt (<[i := negb v]> l).
Proof using Hm R.
  intros Hv. assert (Hi : (i < length l)%nat) by by eapply lookup_lt_Some.
  destruct (get_elem_ok i Hi) as (w & Hw & Hg & Hr & Hl).
  assert (v = Z.testbit w (Z.of_nat (i mod 64))) as -> by congruence.
  eapply elem_op_ok; [done..|by apply xor_update; [apply Nat.mod_upper_bound|]|].
  unfold bitmap_flip. rewrite (st_bind_ok _ _ _ _ _ Hg), bit_mask_eq. done.
Qed.

(** The ASSERTs on the pointer and on one index. *)
Lemma checks_ok {A} (i : nat) (k : unit → st bmem A) :
  (i < length l)%nat →
  (ASSERT (negb (b =? NULL));; n ← bitmap_size b; ASSERT (Z.of_nat i <? n) ≫= k) m = k tt m.
Proof using Hb Hm R.
  intros Hi. pose proof (rep_len _ _ R).
  rewrite (st_bind_ok _ _ _ tt m) by (apply ASSERT_true; apply negb_true_iff, Z.eqb_neq, Hb).
  rewrite (st_bind_ok _ _ _ _ _ size_ok).
  by rewrite (st_bind_ok _ _ _ tt m) by (apply ASSERT_true, Z.ltb_lt; lia).
Qed.

Lemma set_ok i v : (i < length l)%nat → updates (bitmap_set b (Z.of_nat i) v) m b tt (<[i := v]> l).
Proof using Hb Hm R.
  intros Hi. destruct v; [destruct (mark_ok i Hi) as (bm' & Hop & R')|destruct (reset_ok i Hi) as (bm' & Hop & R')];
    exists bm'; split; try done; unfold bitmap_set; by rewrite checks_ok.
Qed.

Lemma test_ok i v : l !! i = Some v → bitmap_test b (Z.of_nat i) m = Ok (v, m).
Proof using Hb Hm R.
  intros Hv. assert (Hi : (i < length l)%nat) by by eapply lookup_lt_Some.
  destruct (get_elem_ok i Hi) as (w & Hw & Hg & Hr & Hl).
  unfold bitmap_test. rewrite checks_ok by done.
  rewrite (st_bind_ok _ _ _ _ _ Hg), bit_mask_eq, land_pow2. unfold mret, st_ret. congruence.
Qed.

Lemma range_ok start cnt :
  (start + cnt ≤ length l)%nat → assert_range b (Z.of_nat start) (Z.of_nat cnt) m = Ok (tt, m).
Proof using Hb Hm R.
  intros Hr. pose proof (rep_len _ _ R). pose proof (rep_max _ _ R). unfold assert_range.
  rewrite (st_bind_ok _ _ _ tt m) by (apply ASSERT_true; apply negb_true_iff, Z.eqb_neq, Hb).
  rewrite (st_bind_ok _ _ _ _ _ size_ok).
  rewrite (st_bind_ok _ _ _ tt m) by (apply ASSERT_true, Z.leb_le; lia).
  apply ASSERT_true, Z.leb_le. rewrite u64_small; lia.
Qed.
End single.

(** ** Ranges of bits *)

Lemma fill_lookup s c v l j :
  (s + c ≤ length l)%nat →
  fill s c v l !! j = if decide (s ≤ j < s + c)%nat then Some v else l !! j.
Proof.
  intros H. unfold fill. destruct (decide (j < s)%nat).
  { rewrite lookup_app_l by (rewrite length_take; lia).
    rewrite lookup_take_lt by lia. by rewrite decide_False by lia. }
  rewrite lookup_app_r; rewrite length_take; [|lia]. rewrite Nat.min_l by lia.
  destruct (decide (j < s + c)%nat).
  { rewrite lookup_app_l by (rewrite length_replicate; lia).
    rewrite lookup_replicate_2 by lia. by rewrite decide_True by lia. }
  rewrite lookup_app_r; rewrite length_replicate; [|lia].
  rewrite lookup_drop, decide_False by lia. f_equal. lia.
Qed.

Lemma length_fill s c v l : (s + c ≤ length l)%nat → length (fill s c v l) = length l.
Proof.
  intros H. unfold fill. rewrite !length_app, length_take, length_replicate, length_drop. lia.
Qed.

Lemma fill_S s c v l :
  (s + S c ≤ length l)%nat → fill (S s) c v (<[s := v]> l) = fill s (S c) v l.
Proof.
  intros H. apply list_eq. intros j. rewrite !fill_lookup by (rewrite ?length_insert; lia).
  destruct (decide (j = s)) as [->|].
  - rewrite decide_False, decide_True by lia. by rewrite list_lookup_insert_eq by lia.
  - rewrite list_lookup_insert_ne by done. repeat case_decide; done || lia.
Qed.

Lemma fill_all v l : fill 0 (length l) v l = replicate (length l) v.
Proof. unfold fill. simpl. by rewrite drop_all, app_nil_r. Qed.

Lemma range_S s c l v : l !! s = Some v → range s (S c) l = v :: range (S s) c l.
Proof. intros H. unfold range. by rewrite (drop_S _ _ _ H). Qed.

Section loops.
Context (b : Z) (Hb : b ≠ NULL).

Lemma idx_eq (bm : bitmap) l (start i : nat) :
  rep bm l → (start + i < length l)%nat → u64 (Z.of_nat start + Z.of_nat i) = Z.of_nat (start + i).
Proof.
  intros R Hi. pose proof (rep_len _ _ R). pose proof (rep_max _ _ R).
  rewrite u64_small; lia.
Qed.

Lemma set_multiple_loop_ok k : ∀ m bm l start i v,
  m !! b = Some bm → rep bm l → (start + i + k ≤ length l)%nat →
  updates (set_multiple_loop k b (Z.of_nat start) (Z.of_nat i) v) m b tt (fill (start + i) k v l).
Proof using Hb.
  induction k as [|k IH]; intros m bm l start i v Hm R Hl.
  { exists bm. simpl. rewrite insert_id by done. split; [done|].
    unfold fill. simpl. by rewrite Nat.add_0_r, take_drop. }
  cbn [set_multiple_loop]. rewrite (idx_eq bm l) by (done || lia).
  destruct (set_ok m b bm l Hb Hm R (start + i) v) as (bm1 & Hop & R1); [lia|].
  destruct (IH (<[b := bm1]> m) bm1 (<[(start + i)%nat := v]> l) start (S i) v)
    as (bm2 & Hop2 & R2); [by rewrite lookup_insert_eq|done|rewrite length_insert; lia|].
  exists bm2. rewrite (st_bind_ok _ _ _ _ _ Hop).
  replace (Z.of_nat i + 1) with (Z.of_nat (S i)) by lia.
  rewrite Hop2, insert_insert_eq. split; [done|].
  by rewrite Nat.add_succ_r, fill_S in R2 by lia.
Qed.

Lemma set_multiple_ok m bm l start cnt v :
  m !! b = Some bm → rep bm l → (start + cnt ≤ length l)%nat →
  updates (bitmap_set_multiple b (Z.of_nat start) (Z.of_nat cnt) v) m b tt (fill start cnt v l).
Proof using Hb.
  intros Hm R Hl. destruct (set_multiple_loop_ok cnt m bm l start 0 v) as (bm' & Hop & R'); [done..|lia|].
  rewrite Nat.add_0_r in R'. exists bm'. split; [|done]. unfold bitmap_set_multiple.
  by rewrite (st_bind_ok _ _ _ _ _ (range_ok m b bm l Hb Hm R start cnt Hl)), Nat2Z.id.
Qed.

Lemma set_all_ok m bm l v :
  m !! b = Some bm → rep bm l →
  updates (bitmap_set_all b v) m b tt (replicate (length l) v).
Proof using Hb.
  intros Hm R. destruct (set_multiple_ok m bm l 0 (length l) v) as (bm' & Hop & R'); [done..|lia|].
  rewrite fill_all in R'. exists bm'. split; [|done]. unfold bitmap_set_all.
  rewrite (st_bind_ok _ _ _ tt m) by (apply ASSERT_true; apply negb_true_iff, Z.eqb_neq, Hb).
  by rewrite (st_bind_ok _ _ _ _ _ (size_ok m b bm Hm)), <- (rep_len _ _ R).
Qed.

Section reading.
Context (m : bmem) (bm : bitmap) (l : list bool).
Hypothesis Hm : m !! b = Some bm.
Hypothesis R : rep bm l.

(** One step of the loops that test the bits of a range in order. *)
Lemma test_step {A} (k : bool → st bmem A) start i c :
  (start + i + S c ≤ length l)%nat →
  ∃ v, range (start + i) (S c) l = v :: range (start + S i) c l ∧
    (bitmap_test b (u64 (Z.of_nat start + Z.of_nat i)) ≫= k) m = k v m.
Proof using Hb Hm R.
  intros Hl. destruct (lookup_lt_is_Some_2 l (start + i)) as [v Hv]; [lia|].
  exists v. rewrite (range_S _ _ _ _ Hv), Nat.add_succ_r. split; [done|].
  rewrite (idx_eq bm l) by (done || lia). apply st_bind_ok. by eapply test_ok.
Qed.

Lemma count_loop_ok c : ∀ start i v n,
  (start + i + c ≤ length l)%nat → 0 ≤ n → n + Z.of_nat c < 2 ^ 64 →
  count_loop c b (Z.of_nat start) (Z.of_nat i) v n m
  = Ok (n + Z.of_nat (count_of v (range (start + i) c l)), m).
Proof using Hb Hm R.
  induction c as [|c IH]; intros start i v n Hl H0 Hn.
  { simpl. unfold range. simpl. by rewrite Z.add_0_r. }
  cbn [count_loop]. edestruct (λ k, test_step (A := Z) k start i c Hl) as (w & Hr & ->).
  rewrite Hr. replace (Z.of_nat i + 1) with (Z.of_nat (S i)) by lia.
  unfold count_of. rewrite filter_cons.
  destruct (eqb w v) eqn:E; [apply eqb_prop in E|apply eqb_false_iff in E].
  - rewrite u64_small by lia. rewrite IH by lia. rewrite decide_True by done.
    unfold count_of. cbn [length]. do 2 f_equal. lia.
  - rewrite IH by lia. by rewrite decide_False by done.
Qed.

Lemma count_ok start cnt v :
  (start + cnt ≤ length l)%nat →
  bitmap_count b (Z.of_nat start) (Z.of_nat cnt) v m
  = Ok (Z.of_nat (count_of v (range start cnt l)), m).
Proof using Hb Hm R.
  intros Hl. unfold bitmap_count. pose proof (rep_len _ _ R). pose proof (rep_max _ _ R).
  rewrite (st_bind_ok _ _ _ _ _ (range_ok m b bm l Hb Hm R start cnt Hl)), Nat2Z.id.
  change 0 with (Z.of_nat 0) at 1. rewrite count_loop_ok by lia. by rewrite Nat.add_0_r.
Qed.

Lemma contains_loop_ok c : ∀ start i v,
  (start + i + c ≤ length l)%nat →
  contains_loop c b (Z.of_nat start) (Z.of_nat i) v m
  = Ok (bool_decide (v ∈ range (start + i) c l), m).
Proof using Hb Hm R.
  induction c as [|c IH]; intros start i v Hl; [done|].
  cbn [contains_loop]. edestruct (λ k, test_step (A := bool) k start i c Hl) as (w & Hr & ->).
  rewrite Hr. replace (Z.of_nat i + 1) with (Z.of_nat (S i)) by lia.
  destruct (eqb w v) eqn:E; [apply eqb_prop in E|apply eqb_false_iff in E].
  - rewrite bool_decide_eq_true_2; [done|]. subst. left.
  - rewrite IH by lia. do 2 f_equal. apply bool_decide_ext. rewrite elem_of_cons. naive_solver.
Qed.

Lemma contains_ok start cnt v :
  (start + cnt ≤ length l)%nat →
  bitmap_contains b (Z.of_nat start) (Z.of_nat cnt) v m
  = Ok (bool_decide (v ∈ range start cnt l), m).
Proof using Hb Hm R.
  intros Hl. unfold bitmap_contains.
  rewrite (st_bind_ok _ _ _ _ _ (range_ok m b bm l Hb Hm R start cnt Hl)), Nat2Z.id.
  change 0 with (Z.of_nat 0). rewrite contains_loop_ok by lia. by rewrite Nat.add_0_r.
Qed.

(** The bits [i], ..., [i + cnt - 1] exist and all have value [v]. *)
Definition group (i cnt : nat) (v : bool) (bs : list bool) : Prop :=
  (i + cnt ≤ length bs)%nat ∧ range i cnt bs = replicate cnt v.

Lemma group_iff i cnt v :
  (i + cnt ≤ length l)%nat → negb v ∉ range i cnt l ↔ group i cnt v l.
Proof.
  intros Hl. unfold group.
  assert (range i cnt l = replicate cnt v ↔ replicate cnt v = range i cnt l) as -> by by split.
  rewrite (replicate_as_elem_of v cnt).
  assert (length (range i cnt l) = cnt) by (unfold range; rewrite length_take, length_drop; lia).
  split.
  - intros Hn. split; [done|]. split; [done|]. intros y Hy. destruct y, v; done.
  - intros (_ & _ & Hy) Hn. specialize (Hy _ Hn). by destruct v.
Qed.

(** What [bitmap_scan] may return: the first group at or after [start], or
    the error value when there is none. *)
Inductive scan_result (start cnt : nat) (v : bool) (bs : list bool) : Z → Prop :=
  | ScanFound i :
      (start ≤ i)%nat → group i cnt v bs →
      (∀ j, (start ≤ j < i)%nat → ¬ group j cnt v bs) →
      scan_result start cnt v bs (Z.of_nat i)
  | ScanNone :
      (∀ j, (start ≤ j)%nat → ¬ group j cnt v bs) →
      scan_result start cnt v bs BITMAP_ERROR.

Lemma scan_loop_ok k : ∀ i cnt v,
  (i + cnt + k = length l + 1)%nat →
  ∃ r, scan_loop k b (Z.of_nat i) (Z.of_nat cnt) v m = Ok (r, m) ∧ scan_result i cnt v l r.
Proof using Hb Hm R.
  induction k as [|k IH]; intros i cnt v Hl.
  { exists BITMAP_ERROR. split; [done|]. constructor. intros j Hj [? _]. lia. }
  cbn [scan_loop]. rewrite (st_bind_ok _ _ _ _ _ (contains_ok i cnt (negb v) ltac:(lia))).
  destruct (decide (negb v ∈ range i cnt l)) as [Hd|Hd].
  - rewrite bool_decide_eq_true_2 by done. cbn [negb].
    replace (Z.of_nat i + 1) with (Z.of_nat (S i)) by lia.
    destruct (IH (S i) cnt v) as (r & Hr & Hs); [lia|]. exists r. split; [done|].
    assert (Hno : ¬ group i cnt v l) by (rewrite <- group_iff by lia; tauto).
    destruct Hs as [i' Hi Hg Hj|Hj].
    + constructor; [lia|done|]. intros j Hj'. destruct (decide (j = i)) as [->|]; [done|].
      apply Hj. lia.
    + constructor. intros j Hj'. destruct (decide (j = i)) as [->|]; [done|]. apply Hj. lia.
  - rewrite bool_decide_eq_false_2 by done. exists (Z.of_nat i). split; [done|].
    constructor; [lia|apply group_iff; [lia|done]|lia].
Qed.

Lemma scan_ok start cnt v :
  (start ≤ length l)%nat →
  ∃ r, bitmap_scan b (Z.of_nat start) (Z.of_nat cnt) v m = Ok (r, m) ∧
       scan_result start cnt v l r.
Proof using Hb Hm R.
  intros Hl. pose proof (rep_len _ _ R) as Hn. unfold bitmap_scan.
  rewrite (st_bind_ok _ _ _ tt m) by (apply ASSERT_true; apply negb_true_iff, Z.eqb_neq, Hb).
  rewrite (st_bind_ok _ _ _ _ _ (size_ok m b bm Hm)), <- Hn.
  rewrite (st_bind_ok _ _ _ tt m) by (apply ASSERT_true, Z.leb_le; lia).
  destruct (Z.leb_spec (Z.of_nat cnt) (Z.of_nat (length l))).
  - destruct (decide (start + cnt ≤ length l)%nat).
    + apply scan_loop_ok. lia.
    + rewrite Z2Nat.nonpos by lia. exists BITMAP_ERROR. split; [done|].
      constructor. intros j Hj [? _]. lia.
  - exists BITMAP_ERROR. split; [done|]. constructor. intros j Hj [? _]. lia.
Qed.

Lemma scan_and_flip_ok start cnt v :
  (start ≤ length l)%nat → Z.of_nat (length l) < BITMAP_ERROR →
  ∃ r, scan_result start cnt v l r ∧
    updates (bitmap_scan_and_flip b (Z.of_nat start) (Z.of_nat cnt) v) m b r
      (if r =? BITMAP_ERROR then l else fill (Z.to_nat r) cnt (negb v) l).
Proof using Hb Hm R.
  intros Hl Hmax. destruct (scan_ok start cnt v Hl) as (r & Hr & Hs). exists r.
  split; [done|]. unfold updates, bitmap_scan_and_flip. setoid_rewrite (st_bind_ok _ _ _ _ _ Hr).
  destruct Hs as [i Hi [Hg _] Hj|Hj].
  - assert (Z.of_nat i =? BITMAP_ERROR = false) as -> by (apply Z.eqb_neq; lia). cbn [negb].
    rewrite Nat2Z.id.
    destruct (set_multiple_ok m bm l i cnt (negb v) Hm R Hg) as (bm' & Hop & R').
    exists bm'. by rewrite (st_bind_ok _ _ _ _ _ Hop).
  - rewrite Z.eqb_refl. exists bm. cbn [negb]. unfold mbind, st_bind, mret, st_ret.
    by rewrite insert_id by done.
Qed.
End reading.
End loops.

(** ** Construction, errors and the page allocator's view *)

(** The bits an array of words holds. *)
Definition bits_of (n : Z) (w : list Z) : list bool :=
  map (word_bit (MkBitmap n w)) (seq 0 (Z.to_nat n)).

Lemma rep_of_words n w :
  0 ≤ n < 2 ^ 64 - 64 → Z.of_nat (length w) = elem_cnt n → Forall (λ x, 0 ≤ x < 2 ^ 64) w →
  rep (MkBitmap n w) (bits_of n w).
Proof.
  intros Hn Hw Hf. assert (Hl : length (bits_of n w) = Z.to_nat n)
    by (unfold bits_of; by rewrite length_map, length_seq).
  split; cbn [bits bit_cnt]; try done; rewrite ?Hl; [lia..|].
  intros i Hi. unfold bits_of. rewrite list_lookup_fmap, lookup_seq_lt by done. done.
Qed.

Lemma set_past_end m b bm l i v :
  b ≠ NULL → m !! b = Some bm → rep bm l → Z.of_nat (length l) ≤ i →
  bitmap_set b i v m = Err AssertFail.
Proof.
  intros Hb Hm R Hi. pose proof (rep_len _ _ R). unfold bitmap_set.
  rewrite (st_bind_ok _ _ _ tt m) by (apply ASSERT_true; apply negb_true_iff, Z.eqb_neq, Hb).
  rewrite (st_bind_ok _ _ _ _ _ (size_ok m b bm Hm)). apply st_bind_err.
  by assert (i <? bit_cnt bm = false) as -> by (apply Z.ltb_ge; lia).
Qed.

Lemma set_multiple_loop_past_end k : ∀ m b bm l start i v,
  b ≠ NULL → m !! b = Some bm → rep bm l →
  (start + i ≤ length l)%nat → (length l < start + i + k)%nat →
  set_multiple_loop k b (Z.of_nat start) (Z.of_nat i) v m = Err AssertFail.
Proof.
  induction k as [|k IH]; intros m b bm l start i v Hb Hm R Hs Hl; [lia|].
  cbn [set_multiple_loop]. pose proof (rep_len _ _ R). pose proof (rep_max _ _ R).
  destruct (decide (start + i < length l)%nat).
  - rewrite (idx_eq bm l) by done.
    destruct (set_ok m b bm l Hb Hm R (start + i) v) as (bm1 & Hop & R1); [lia|].
    rewrite (st_bind_ok _ _ _ _ _ Hop). replace (Z.of_nat i + 1) with (Z.of_nat (S i)) by lia.
    eapply IH; [done|by rewrite lookup_insert_eq|done|rewrite length_insert; lia..].
  - apply st_bind_err. rewrite u64_small by lia. eapply set_past_end; eauto; lia.
Qed.

Lemma pool_scan (l : list bool) :
  match Threads.scan_and_flip l with
  | Some (i, l') => group i 1 false l ∧ (∀ j, (j < i)%nat → ¬ group j 1 false l) ∧
                    l' = fill i 1 true l
  | None => ∀ j, ¬ group j 1 false l
  end.
Proof.
  assert (Hc : ∀ a (l : list bool) j, group (S j) 1 false (a :: l) ↔ group j 1 false l)
    by (intros; unfold group, range; simpl; split; intros []; split; auto; lia).
  induction l as [|[] l IH]; simpl.
  - intros j [Hj _]. simpl in Hj. lia.
  - destruct (Threads.scan_and_flip l) as [[i l']|]; simpl.
    + destruct IH as (Hg & Hn & ->). split_and!; [by apply Hc| |done].
      intros [|j] Hj; [by intros [_ ?]|rewrite Hc; apply Hn; lia].
    + intros [|j]; [by intros [_ ?]|by rewrite Hc].
  - split_and!; [split; simpl; [lia|done]|lia|done].
Qed.

(** ** Theorems *)

(** [bitmap_set] at an index inside the bitmap returns, changes exactly that
    bit as [bitmap_test] sees it, and touches no other bitmap. *)
Theorem bitmap_set_test m b l i v :
  bitmap_at m b l → (i < length l)%nat →
  ∃ m', bitmap_set b (Z.of_nat i) v m = Ok (tt, m') ∧
    bitmap_at m' b (<[i := v]> l) ∧
    bitmap_test b (Z.of_nat i) m' = Ok (v, m') ∧
    (∀ j w, j ≠ i → l !! j = Some w → bitmap_test b (Z.of_nat j) m' = Ok (w, m')) ∧
    (∀ b', b' ≠ b → m' !! b' = m !! b').
Proof.
  intros (Hb & bm & Hm & R) Hi. destruct (set_ok m b bm l Hb Hm R i v Hi) as (bm' & Hop & R').
  exists (<[b := bm']> m). assert (Hm' : <[b := bm']> m !! b = Some bm') by apply lookup_insert_eq.
  split_and!; [done|by split; [|exists bm']| | |].
  - eapply test_ok; [done..|]. by rewrite list_lookup_insert_eq.
  - intros j w Hj Hw. eapply test_ok; [done..|]. by rewrite list_lookup_insert_ne.
  - intros b' Hb'. by rewrite lookup_insert_ne.
Qed.

(** [bitmap_set_multiple] on a range inside the bitmap sets exactly the
    bits of the range; [bitmap_count] then counts all of them and
    [bitmap_contains] finds none of the other value. *)
Theorem bitmap_set_multiple_fills m b l start cnt v :
  bitmap_at m b l → (start + cnt ≤ length l)%nat →
  ∃ m', bitmap_set_multiple b (Z.of_nat start) (Z.of_nat cnt) v m = Ok (tt, m') ∧
    bitmap_at m' b (fill start cnt v l) ∧
    bitmap_count b (Z.of_nat start) (Z.of_nat cnt) v m' = Ok (Z.of_nat cnt, m') ∧
    bitmap_contains b (Z.of_nat start) (Z.of_nat cnt) (negb v) m' = Ok (false, m').
Proof.
  intros (Hb & bm & Hm & R) Hl.
  destruct (set_multiple_ok b Hb m bm l start cnt v Hm R Hl) as (bm' & Hop & R').
  exists (<[b := bm']> m). assert (Hm' : <[b := bm']> m !! b = Some bm') by apply lookup_insert_eq.
  assert (Hr : range start cnt (fill start cnt v l) = replicate cnt v).
  { unfold range, fill. rewrite drop_app_length' by (rewrite length_take; lia).
    by rewrite take_app_length' by (by rewrite length_replicate). }
  split_and!; [done|by split; [|exists bm']| |].
  - erewrite count_ok by (done || by rewrite length_fill). rewrite Hr. do 3 f_equal.
    unfold count_of. clear. induction cnt; [done|]. cbn [replicate]. rewrite filter_cons_True by done.
    cbn [length]. by rewrite IHcnt.
  - erewrite contains_ok by (done || by rewrite length_fill). rewrite Hr.
    rewrite bool_decide_eq_false_2; [done|]. rewrite elem_of_replicate. by destruct v; intros [].
Qed.

(** [bitmap_scan_and_flip] on a bitmap of less than [BITMAP_ERROR] bits
    returns: it finds the first group of [cnt] bits of the wanted value at or
    after [start] and flips exactly these, or returns [BITMAP_ERROR] and leaves
    the bitmap as it is when no such group exists. *)
Theorem bitmap_scan_and_flip_first_fit m b l start cnt v :
  bitmap_at m b l → (start ≤ length l)%nat → Z.of_nat (length l) < BITMAP_ERROR →
  ∃ r m', bitmap_scan_and_flip b (Z.of_nat start) (Z.of_nat cnt) v m = Ok (r, m') ∧
    scan_result start cnt v l r ∧
    bitmap_at m' b (if r =? BITMAP_ERROR then l else fill (Z.to_nat r) cnt (negb v) l).
Proof.
  intros (Hb & bm & Hm & R) Hl Hmax.
  destruct (scan_and_flip_ok b Hb m bm l Hm R start cnt v Hl Hmax) as (r & Hs & bm' & Hop & R').
  exists r, (<[b := bm']> m). split_and!; [done..|]. split; [done|]. exists bm'. by rewrite lookup_insert_eq.
Qed.

(** C13: for one free page, the word-level [bitmap_scan_and_flip] of the page
    pool's bitmap computes what the thread model's [scan_and_flip] on the
    pool's sequence of bits computes. *)
Theorem bitmap_refines_page_pool m b l :
  bitmap_at m b l → Z.of_nat (length l) < BITMAP_ERROR →
  ∃ m', bitmap_scan_and_flip b 0 1 false m
          = Ok (match Threads.scan_and_flip l with Some (i, _) => Z.of_nat i | None => BITMAP_ERROR end, m') ∧
    bitmap_at m' b (match Threads.scan_and_flip l with Some (_, l') => l' | None => l end).
Proof.
  intros (Hb & bm & Hm & R) Hmax.
  destruct (scan_and_flip_ok b Hb m bm l Hm R 0 1 false ltac:(lia) Hmax) as (r & Hs & bm' & Hop & R').
  exists (<[b := bm']> m). pose proof (pool_scan l) as Hp.
  assert (Ha : bitmap_at (<[b := bm']> m) b (if r =? BITMAP_ERROR then l else fill (Z.to_nat r) 1 true l))
    by (split; [done|exists bm'; by rewrite lookup_insert_eq]).
  change 0 with (Z.of_nat 0). change 1 with (Z.of_nat 1). rewrite Hop.
  destruct (Threads.scan_and_flip l) as [[i l']|].
  - destruct Hp as (Hg & Hf & ->). destruct Hs as [i' _ Hg' Hj|Hj]; [|by destruct (Hj i); [lia|]].
    assert (i' = i) as ->.
    { destruct (Nat.lt_trichotomy i i') as [H|[H|H]]; [|done|]; exfalso; [eapply Hj|eapply Hf]; eauto; lia. }
    destruct Hg' as [Hlt _].
    assert (Z.of_nat i =? BITMAP_ERROR = false) as E by (apply Z.eqb_neq; lia).
    rewrite E, Nat2Z.id in Ha. done.
  - destruct Hs as [i' _ Hg' _|Hj]; [by destruct (Hp i')|done].
Qed.

(** [bitmap_create], when both allocations succeed, returns a bitmap of
    [n] false bits whatever the allocated words contained. *)
Theorem bitmap_create_all_false m b w n :
  b ≠ NULL → 0 ≤ n < 2 ^ 64 - 64 → Z.of_nat (length w) = elem_cnt n →
  Forall (λ x, 0 ≤ x < 2 ^ 64) w →
  ∃ m', bitmap_create b (Some w) n m = Ok (b, m') ∧ bitmap_at m' b (replicate (Z.to_nat n) false).
Proof.
  intros Hb Hn Hw Hf. pose proof (rep_of_words n w Hn Hw Hf) as R.
  destruct (set_all_ok b Hb (<[b := MkBitmap n w]> m) (MkBitmap n w) (bits_of n w) false)
    as (bm' & Hop & R'); [by rewrite lookup_insert_eq|done|].
  exists (<[b := bm']> m). unfold bitmap_create.
  assert (b =? NULL = false) as -> by (by apply Z.eqb_neq). rewrite (st_bind_ok _ _ _ tt (<[b := MkBitmap n w]> m)) by done.
  rewrite bool_decide_eq_false_2 by done. cbn [negb orb]. rewrite (st_bind_ok _ _ _ _ _ Hop), insert_insert_eq.
  split; [done|]. split; [done|]. exists bm'. rewrite lookup_insert_eq. split; [done|].
  unfold bits_of in R'. by rewrite length_map, length_seq in R'.
Qed.

(** Setting a range that leaves the bitmap fails an ASSERT, also when
    [start + cnt] wraps around the machine word and passes the range check. *)
Theorem bitmap_set_multiple_out_of_range m b l start cnt v :
  bitmap_at m b l → (length l < start + cnt)%nat →
  bitmap_set_multiple b (Z.of_nat start) (Z.of_nat cnt) v m = Err AssertFail.
Proof.
  intros (Hb & bm & Hm & R) Hl. pose proof (rep_len _ _ R). unfold bitmap_set_multiple, assert_range.
  rewrite (st_bind_assoc _ _ _ m).
  rewrite (st_bind_ok _ _ _ tt m) by (apply ASSERT_true; apply negb_true_iff, Z.eqb_neq, Hb).
  rewrite (st_bind_assoc _ _ _ m), (st_bind_ok _ _ _ _ _ (size_ok m b bm Hm)).
  rewrite (st_bind_assoc _ _ _ m).
  destruct (Z.leb_spec (Z.of_nat start) (bit_cnt bm)); [|done].
  rewrite (st_bind_ok _ _ _ tt m) by done.
  destruct (u64 _ <=? _); [|done]. rewrite (st_bind_ok _ _ _ tt m) by done.
  rewrite Nat2Z.id. change 0 with (Z.of_nat 0).
  eapply set_multiple_loop_past_end; eauto; lia.
Qed.

(** ** Witnesses: a bitmap of 70 bits in two words, with bits 0, 2 and 69 set. *)

Definition demo : bmem := {[ 4096 := MkBitmap 70 [5; 32] ]}.

Lemma demo_at : bitmap_at demo 4096 (bits_of 70 [5; 32]).
Proof.
  split; [done|]. eexists. split; [by apply lookup_singleton_eq|].
  apply rep_of_words; [lia|done|]. repeat constructor; lia.
Qed.

Lemma bitmap_set_test_witness :
  ∃ m', bitmap_set 4096 65 true demo = Ok (tt, m') ∧ bitmap_test 4096 65 m' = Ok (true, m') ∧
        bitmap_test 4096 64 m' = Ok (false, m').
Proof.
  destruct (bitmap_set_test demo 4096 _ 65 true demo_at) as (m' & H1 & _ & H2 & H3 & _); [vm_compute; lia|].
  exists m'. split; [exact H1|]. split; [exact H2|]. apply (H3 64%nat); [lia|reflexivity].
Defined.

Lemma bitmap_set_multiple_fills_witness :
  ∃ m', bitmap_set_multiple 4096 60 8 true demo = Ok (tt, m') ∧ bitmap_count 4096 60 8 true m' = Ok (8, m').
Proof.
  destruct (bitmap_set_multiple_fills demo 4096 _ 60 8 true demo_at) as (m' & H1 & _ & H2 & _); [vm_compute; lia|].
  exists m'. split; [exact H1|exact H2].
Defined.

Lemma bitmap_scan_and_flip_first_fit_witness :
  ∃ r m', bitmap_scan_and_flip 4096 0 3 false demo = Ok (r, m') ∧ r = 3.
Proof.
  destruct (bitmap_scan_and_flip_first_fit demo 4096 _ 0 3 false demo_at) as (r & m' & H1 & _);
    [vm_compute; lia|reflexivity|].
  exists r, m'. split; [exact H1|]. vm_compute in H1. congruence.
Defined.

Lemma bitmap_refines_page_pool_witness :
  ∃ m', bitmap_scan_and_flip 4096 0 1 false demo = Ok (1, m').
Proof.
  destruct (bitmap_refines_page_pool demo 4096 _ demo_at) as (m' & H1 & _); [reflexivity|].
  exists m'. exact H1.
Defined.

Lemma bitmap_create_all_false_witness :
  ∃ m', bitmap_create 8192 (Some [17; 99]) 70 ∅ = Ok (8192, m') ∧ bitmap_at m' 8192 (replicate 70 false).
Proof.
  apply (bitmap_create_all_false ∅ 8192 [17; 99] 70); [done|lia|done|repeat constructor; lia].
Defined.

Lemma bitmap_set_multiple_out_of_range_witness :
  bitmap_set_multiple 4096 60 11 true demo = Err AssertFail.
Proof. apply (bitmap_set_multiple_out_of_range demo 4096 _ 60 11 true demo_at). vm_compute; lia. Defined.
End BitmapTheorems.
