(* ===== verification/Arith.v ===== *)
(** lib/arithmetic.c: 64-bit division out of the 32-bit DIVL instruction.

    [udiv64_correct] is the proof the comment inside [udiv64] sketches for
    32-bit divisors, and that of the Hacker's Delight algorithm the other
    branch uses. *)
From S2P Require Import Prelude.
Local Open Scope Z_scope.

Module Arith.

(** [divl]: #DE when the divisor is zero or the quotient needs more than 32
    bits. *)
Definition divl (n d : Z) : res Z :=
  let n1 := u32 (Z.shiftr n 32) in
  let n0 := u32 n in
  if d =? 0 then Err Trap else
  let q := (n1 * 2 ^ 32 + n0) / d in
  if q <? 2 ^ 32 then Ok q else Err Trap.

(** [if (x <= lim) { n += k; x <<= k; }] *)
Definition nlz_step (lim k : Z) (nx : Z * Z) : Z * Z :=
  let '(n, x) := nx in
  if x <=? lim then (n + k, u32 (Z.shiftl x k)) else (n, x).

Definition nlz (x : Z) : Z :=
  let nx := nlz_step 0x0000FFFF 16 (0, x) in
  let nx := nlz_step 0x00FFFFFF 8 nx in
  let nx := nlz_step 0x0FFFFFFF 4 nx in
  let '(n, x) := nlz_step 0x3FFFFFFF 2 nx in
  if x <=? 0x7FFFFFFF then n + 1 else n.

Definition udiv64 (n d : Z) : res Z :=
  if Z.shiftr d 32 =? 0 then
    let b := 2 ^ 32 in
    let n1 := u32 (Z.shiftr n 32) in
    let n0 := u32 n in
    let d0 := u32 d in
    if d0 =? 0 then Err Trap else
    q ← divl (u64 (b * (n1 mod d0) + n0)) d0;
    Ok (u64 (q + b * (n1 / d0)))
  else if n <? d then Ok 0
  else
    let d1 := u32 (Z.shiftr d 32) in
    let s := nlz d1 in
    q ← divl (Z.shiftr n 1) (u32 (Z.shiftr (u64 (Z.shiftl d s)) 32));
    let q := Z.shiftr q (31 - s) in
    Ok (if u64 (n - u64 (u64 (q - 1) * d)) <? d then u64 (q - 1) else q).

Definition umod64 (n d : Z) : res Z :=
  q ← udiv64 n d; Ok (u32 (u64 (n - u64 (d * q)))).

Definition sdiv64 (n d : Z) : res Z :=
  let n_abs := if 0 <=? n then u64 n else u64 (- u64 n) in
  let d_abs := if 0 <=? d then u64 d else u64 (- u64 d) in
  q_abs ← udiv64 n_abs d_abs;
  Ok (if eqb (n <? 0) (d <? 0) then i64 q_abs else i64 (- i64 q_abs)).

Definition smod64 (n d : Z) : res Z :=
  q ← sdiv64 n d; Ok (i32 (i64 (n - i64 (d * q)))).

(** The names gcc calls.  The remainders widen a 32-bit value. *)
Definition __divdi3 (n d : Z) : res Z := sdiv64 n d.
Definition __moddi3 (n d : Z) : res Z := smod64 n d.
Definition __udivdi3 (n d : Z) : res Z := udiv64 n d.
Definition __umoddi3 (n d : Z) : res Z := umod64 n d.

(** ** Proofs *)

Lemma divl_ok n d : 0 ≤ n < 2 ^ 64 → 0 < d → n / d < 2 ^ 32 → divl n d = Ok (n / d).
Proof.
  intros Hn Hd Hq. unfold divl. rewrite Z.shiftr_div_pow2 by lia.
  assert (u32 (n / 2 ^ 32) * 2 ^ 32 + u32 n = n) as ->.
  { rewrite u32_small by (split; [apply Z.div_pos|apply Z.div_lt_upper_bound]; lia).
    unfold u32. pose proof (Z.div_mod n (2 ^ 32)). lia. }
  assert (d =? 0 = false) as -> by (apply Z.eqb_neq; lia).
  by assert (n / d <? 2 ^ 32 = true) as -> by (by apply Z.ltb_lt).
Qed.

(** [nlz] keeps [x] shifted by [n] and narrows its range. *)
Lemma nlz_step_ok lim k n x x0 :
  0 ≤ k → 0 ≤ n → (lim + 1) * 2 ^ k = 2 ^ 32 → x = x0 * 2 ^ n → 0 < x < 2 ^ 32 →
  let '(n', x') := nlz_step lim k (n, x) in
  n ≤ n' ≤ n + k ∧ x' = x0 * 2 ^ n' ∧ x' < 2 ^ 32 ∧
  (x' = x ∧ lim < x ∨ x' = x * 2 ^ k ∧ x ≤ lim).
Proof.
  intros Hk Hn Hlim Hx Hr. unfold nlz_step. rewrite Z.shiftl_mul_pow2 by done.
  destruct (Z.leb_spec x lim); [|split_and!; lia].
  assert (x * 2 ^ k < 2 ^ 32) by nia.
  rewrite u32_small by nia. split_and!; try lia. rewrite Z.pow_add_r by lia. nia.
Qed.

Lemma nlz_ok x : 0 < x < 2 ^ 32 → 0 ≤ nlz x ≤ 31 ∧ 2 ^ 31 ≤ x * 2 ^ nlz x < 2 ^ 32.
Proof.
  intros Hx. unfold nlz.
  pose proof (nlz_step_ok 0x0000FFFF 16 0 x x ltac:(lia) ltac:(lia) eq_refl ltac:(lia) Hx) as H1.
  destruct (nlz_step _ 16 _) as [n1 x1]. destruct H1 as (N1 & E1 & L1 & B1).
  pose proof (nlz_step_ok 0x00FFFFFF 8 n1 x1 x ltac:(lia) ltac:(lia) eq_refl E1 ltac:(lia)) as H2.
  destruct (nlz_step _ 8 _) as [n2 x2]. destruct H2 as (N2 & E2 & L2 & B2).
  pose proof (nlz_step_ok 0x0FFFFFFF 4 n2 x2 x ltac:(lia) ltac:(lia) eq_refl E2 ltac:(lia)) as H3.
  destruct (nlz_step _ 4 _) as [n3 x3]. destruct H3 as (N3 & E3 & L3 & B3).
  pose proof (nlz_step_ok 0x3FFFFFFF 2 n3 x3 x ltac:(lia) ltac:(lia) eq_refl E3 ltac:(lia)) as H4.
  destruct (nlz_step _ 2 _) as [n4 x4]. destruct H4 as (N4 & E4 & L4 & B4).
  destruct (Z.leb_spec x4 0x7FFFFFFF).
  - rewrite Z.pow_add_r, Z.mul_assoc, <- E4 by lia. lia.
  - rewrite <- E4. lia.
Qed.

(** The estimate of the long branch: with [d'] the divisor cut to its leading
    32 bits, [n / d'] is the quotient or one more. *)
Lemma estimate n d d' :
  0 ≤ n → 0 < d' ≤ d → n * (d - d') < d * d' → n / d ≤ n / d' ≤ n / d + 1.
Proof.
  intros Hn Hd Hs.
  pose proof (Z.div_mod n d ltac:(lia)) as E1. pose proof (Z.mod_pos_bound n d ltac:(lia)).
  pose proof (Z.div_mod n d' ltac:(lia)) as E2. pose proof (Z.mod_pos_bound n d' ltac:(lia)).
  split; [apply Z.div_le_compat_l; lia|].
  set (q := n / d) in *. set (q' := n / d') in *.
  destruct (decide (q' ≤ q + 1)) as [|Hq]; [done|]. exfalso.
  assert ((q + 2) * d' ≤ n) by nia. assert (n + d < (q + 2) * d) by nia.
  assert (d' * (n + d) < (q + 2) * d * d') by nia. assert ((q + 2) * d * d' ≤ n * d) by nia. lia.
Qed.

Lemma cut_bound t : 0 ≤ t → 2 ^ (t + 1) - 1 ≤ 2 ^ (2 * t).
Proof.
  intros Ht. destruct (decide (t = 0)) as [->|]; [done|].
  assert (2 ^ (t + 1) ≤ 2 ^ (2 * t)) by (apply Z.pow_le_mono_r; lia). lia.
Qed.

Lemma udiv64_short n d : 0 ≤ n < 2 ^ 64 → 0 < d < 2 ^ 32 → udiv64 n d = Ok (n / d).
Proof.
  intros Hn Hd. unfold udiv64. rewrite !Z.shiftr_div_pow2 by lia.
  rewrite (Z.div_small d) by lia. cbn [Z.eqb].
  assert (Hn1 : 0 ≤ n / 2 ^ 32 < 2 ^ 32) by (split; [apply Z.div_pos|apply Z.div_lt_upper_bound]; lia).
  rewrite (u32_small d), (u32_small (n / 2 ^ 32)) by lia. unfold u32.
  pose proof (Z.div_mod n (2 ^ 32) ltac:(lia)) as En. pose proof (Z.mod_pos_bound n (2 ^ 32) ltac:(lia)) as Bn.
  set (n1 := n / 2 ^ 32) in *. set (n0 := n mod 2 ^ 32) in *.
  assert (d =? 0 = false) as -> by (apply Z.eqb_neq; lia).
  pose proof (Z.div_mod n1 d ltac:(lia)) as E1. pose proof (Z.mod_pos_bound n1 d ltac:(lia)) as B1.
  assert (Hlt : 2 ^ 32 * (n1 mod d) + n0 < 2 ^ 32 * d) by nia.
  assert (Hq : n / d = 2 ^ 32 * (n1 / d) + (2 ^ 32 * (n1 mod d) + n0) / d).
  { rewrite <- Z.div_add_l by lia. f_equal. nia. }
  assert (n / d < 2 ^ 64) by (apply Z.div_lt_upper_bound; nia).
  assert (0 ≤ n / d) by (apply Z.div_pos; lia).
  rewrite (u64_small (2 ^ 32 * _ + _)) by nia.
  rewrite divl_ok; [|nia|lia|apply Z.div_lt_upper_bound; lia].
  cbn [mbind res_bind]. rewrite (Z.add_comm _ (2 ^ 32 * _)), <- Hq. by rewrite u64_small.
Qed.

(** The facts on the normalised divisor of the long branch. *)
Lemma normalise d :
  2 ^ 32 ≤ d < 2 ^ 64 →
  let s := nlz (d / 2 ^ 32) in
  let v1 := d * 2 ^ s / 2 ^ 32 in
  0 ≤ s ≤ 31 ∧ d * 2 ^ s < 2 ^ 64 ∧ 2 ^ 31 ≤ v1 < 2 ^ 32 ∧
  v1 * 2 ^ (32 - s) ≤ d < v1 * 2 ^ (32 - s) + 2 ^ (32 - s).
Proof.
  intros Hd s v1. pose proof (Z.div_mod d (2 ^ 32) ltac:(lia)) as E.
  pose proof (Z.mod_pos_bound d (2 ^ 32) ltac:(lia)) as B.
  assert (H1 : 1 ≤ d / 2 ^ 32) by (apply Z.div_le_lower_bound; lia).
  assert (H2 : d / 2 ^ 32 < 2 ^ 32) by (apply Z.div_lt_upper_bound; lia).
  destruct (nlz_ok (d / 2 ^ 32)) as [Hs Hr]; [lia|]. fold s in Hs, Hr.
  set (d1 := d / 2 ^ 32) in *. assert (H32 : 2 ^ 32 = 2 ^ (32 - s) * 2 ^ s)
    by (rewrite <- Z.pow_add_r by lia; f_equal; lia).
  assert (0 < 2 ^ s) by (apply Z.pow_pos_nonneg; lia).
  assert (0 < 2 ^ (32 - s)) by (apply Z.pow_pos_nonneg; lia).
  assert (Hd1 : d1 + 1 ≤ 2 ^ (32 - s)) by nia.
  assert (Hv : v1 = d / 2 ^ (32 - s)) by (unfold v1; rewrite H32; apply Z.div_mul_cancel_r; lia).
  assert (d * 2 ^ s < 2 ^ 64) by nia.
  split_and!; try lia.
  - unfold v1. apply Z.div_le_lower_bound; [lia|]. nia.
  - unfold v1. apply Z.div_lt_upper_bound; lia.
  - rewrite Hv. pose proof (Z.mul_div_le d (2 ^ (32 - s))). lia.
  - rewrite Hv. pose proof (Z.mul_succ_div_gt d (2 ^ (32 - s))). lia.
Qed.

Lemma udiv64_long n d : 0 ≤ n < 2 ^ 64 → 2 ^ 32 ≤ d < 2 ^ 64 → udiv64 n d = Ok (n / d).
Proof.
  intros Hn Hd. unfold udiv64.
  assert (Hs32 : Z.shiftr d 32 =? 0 = false).
  { rewrite Z.shiftr_div_pow2 by lia. apply Z.eqb_neq.
    pose proof (Z.div_le_lower_bound d (2 ^ 32) 1). lia. }
  rewrite Hs32. destruct (Z.ltb_spec n d); [by rewrite Z.div_small by lia|].
  rewrite !Z.shiftr_div_pow2 by lia.
  rewrite (u32_small (d / 2 ^ 32)) by (split; [apply Z.div_pos|apply Z.div_lt_upper_bound]; lia).
  destruct (normalise d Hd) as (Hs & Hsh & Hv & Hd'). cbv zeta.
  set (s := nlz (d / 2 ^ 32)) in *. rewrite Z.shiftl_mul_pow2, (u64_small (d * _)) by lia.
  set (v1 := d * 2 ^ s / 2 ^ 32) in *. rewrite (u32_small v1) by lia.
  assert (0 ≤ n / 2 ^ 1 < 2 ^ 63) by (split; [apply Z.div_pos|apply Z.div_lt_upper_bound]; lia).
  rewrite divl_ok; [|lia|lia|apply Z.div_lt_upper_bound; lia].
  cbn [mbind res_bind]. rewrite Z.shiftr_div_pow2 by lia.
  assert (0 < 2 ^ (31 - s)) by (apply Z.pow_pos_nonneg; lia).
  rewrite !Z.div_div by lia.
  assert (2 ^ 1 * (v1 * 2 ^ (31 - s)) = v1 * 2 ^ (32 - s)) as Ev.
  { replace (32 - s) with (1 + (31 - s)) by lia. rewrite (Z.pow_add_r 2 1) by lia. lia. }
  rewrite Ev. set (d' := v1 * 2 ^ (32 - s)) in *.
  assert (Hcut : 2 ^ (32 - s) - 1 ≤ 2 ^ (62 - 2 * s)).
  { pose proof (cut_bound (31 - s) ltac:(lia)). replace (32 - s) with (31 - s + 1) by lia.
    by replace (62 - 2 * s) with (2 * (31 - s)) by lia. }
  assert (Hd'63 : 2 ^ (63 - s) ≤ d').
  { unfold d'. replace (63 - s) with (31 + (32 - s)) by lia. rewrite Z.pow_add_r by lia.
    apply Z.mul_le_mono_nonneg_r; lia. }
  assert (Hsq : 2 ^ 64 * 2 ^ (62 - 2 * s) = 2 ^ (63 - s) * 2 ^ (63 - s))
    by (rewrite <- !Z.pow_add_r by lia; f_equal; lia).
  assert (0 < 2 ^ (63 - s)) by (apply Z.pow_pos_nonneg; lia).
  destruct (estimate n d d') as [Hlo Hhi]; [lia|lia| |].
  { apply Z.le_lt_trans with (n * (2 ^ (32 - s) - 1)); [apply Z.mul_le_mono_nonneg_l; lia|].
    apply Z.lt_le_trans with (2 ^ 64 * 2 ^ (62 - 2 * s)); [|rewrite Hsq; nia].
    assert (0 < 2 ^ (62 - 2 * s)) by (apply Z.pow_pos_nonneg; lia). nia. }
  pose proof (Z.div_mod n d ltac:(lia)) as E. pose proof (Z.mod_pos_bound n d ltac:(lia)) as B.
  assert (1 ≤ n / d) by (apply Z.div_le_lower_bound; lia).
  assert (n / d < 2 ^ 64) by (apply Z.div_lt_upper_bound; nia).
  set (q := n / d') in *. set (q0 := n / d) in *.
  assert (q = q0 ∨ q = q0 + 1) as [->| ->] by lia.
  - rewrite (u64_small (q0 - 1)) by lia. rewrite (u64_small ((q0 - 1) * d)) by nia.
    rewrite u64_small by nia. by assert (n - (q0 - 1) * d <? d = false) as -> by (apply Z.ltb_ge; nia).
  - replace (q0 + 1 - 1) with q0 by lia. rewrite (u64_small q0) by lia.
    rewrite (u64_small (q0 * d)) by nia. rewrite u64_small by nia.
    by assert (n - q0 * d <? d = true) as -> by (apply Z.ltb_lt; nia).
Qed.

Lemma udiv64_ok n d : 0 ≤ n < 2 ^ 64 → 0 < d < 2 ^ 64 → udiv64 n d = Ok (n / d).
Proof.
  intros Hn Hd. destruct (decide (d < 2 ^ 32)); [apply udiv64_short|apply udiv64_long]; lia.
Qed.

(** Division by zero reaches the 32-bit division and traps. *)
Lemma udiv64_zero n : udiv64 n 0 = Err Trap.
Proof. done. Qed.

Lemma abs_u64 n : - 2 ^ 63 ≤ n < 2 ^ 63 → (if 0 <=? n then u64 n else u64 (- u64 n)) = Z.abs n.
Proof.
  intros Hn. destruct (Z.leb_spec 0 n); [rewrite u64_small; lia|]. unfold u64.
  rewrite Z.abs_neq by lia.
  replace (n mod 2 ^ 64) with (n + 2 ^ 64) by (apply Z.mod_unique with (-1); lia).
  symmetry. apply Z.mod_unique with (-1); lia.
Qed.

Lemma i64_cong z k : i64 (z + k * 2 ^ 64) = i64 z.
Proof.
  unfold i64. replace (z + k * 2 ^ 64 + 2 ^ 63) with (z + 2 ^ 63 + k * 2 ^ 64) by lia.
  by rewrite Z.mod_add by lia.
Qed.

Lemma i64_repr z : ∃ k, i64 z = z + k * 2 ^ 64.
Proof.
  exists (- ((z + 2 ^ 63) / 2 ^ 64)). unfold i64.
  pose proof (Z.div_mod (z + 2 ^ 63) (2 ^ 64) ltac:(lia)). lia.
Qed.

Lemma i64_opp z : i64 (- i64 z) = i64 (- z).
Proof.
  destruct (i64_repr z) as [k ->]. replace (- (z + k * 2 ^ 64)) with (- z + - k * 2 ^ 64) by lia.
  apply i64_cong.
Qed.

(** ** Theorems *)

(** C12: [udiv64] of 64-bit operands never traps for a nonzero divisor and
    returns the quotient, on both of its branches. *)
Theorem udiv64_correct n d :
  0 ≤ n < 2 ^ 64 → 0 < d < 2 ^ 64 → udiv64 n d = Ok (n / d).
Proof. apply udiv64_ok. Qed.

(** [sdiv64] rounds toward zero; the one overflowing quotient wraps to the
    smallest integer. *)
Theorem sdiv64_correct n d :
  - 2 ^ 63 ≤ n < 2 ^ 63 → - 2 ^ 63 ≤ d < 2 ^ 63 → d ≠ 0 →
  sdiv64 n d = Ok (i64 (Z.quot n d)).
Proof.
  intros Hn Hd H0. unfold sdiv64. rewrite !abs_u64 by lia. rewrite udiv64_ok by lia.
  cbn [mbind res_bind]. f_equal. assert (Hq : 0 ≤ Z.abs n / Z.abs d ≤ 2 ^ 63).
  { split; [apply Z.div_pos; lia|]. apply Z.div_le_upper_bound; nia. }
  rewrite <- Z.quot_div_nonneg in * by lia.
  destruct (Z.ltb_spec n 0), (Z.ltb_spec d 0); cbn [eqb].
  - by rewrite !Z.abs_neq, Z.quot_opp_opp by lia.
  - rewrite Z.abs_neq, Z.abs_eq, Z.quot_opp_l, i64_opp by lia. f_equal. lia.
  - rewrite Z.abs_eq, Z.abs_neq, Z.quot_opp_r, i64_opp by lia. f_equal. lia.
  - by rewrite !Z.abs_eq by lia.
Qed.

(** [umod64] returns the remainder cut to its low 32 bits, so
    [__umoddi3] is the remainder exactly when that is below 2^32. *)
Theorem umod64_truncates n d :
  0 ≤ n < 2 ^ 64 → 0 < d < 2 ^ 64 →
  __umoddi3 n d = Ok ((n mod d) mod 2 ^ 32) ∧
  (__umoddi3 n d = Ok (n mod d) ↔ n mod d < 2 ^ 32).
Proof.
  intros Hn Hd. pose proof (Z.mod_pos_bound n d ltac:(lia)) as B.
  assert (E : __umoddi3 n d = Ok ((n mod d) mod 2 ^ 32)).
  { unfold __umoddi3, umod64. rewrite udiv64_ok by lia. cbn [mbind res_bind].
    pose proof (Z.div_mod n d ltac:(lia)). assert (0 ≤ n / d) by (apply Z.div_pos; lia).
    rewrite (u64_small (d * (n / d))) by nia. rewrite u64_small by lia.
    replace (n - d * (n / d)) with (n mod d) by lia. done. }
  split; [done|]. rewrite E. split.
  - intros [= H]. pose proof (Z.mod_pos_bound (n mod d) (2 ^ 32) ltac:(lia)). lia.
  - intros H. rewrite (Z.mod_small (n mod d)) by lia. done.
Qed.

(** ** Witnesses *)

Lemma udiv64_correct_witness : udiv64 (2 ^ 64 - 1) (2 ^ 32 + 1) = Ok 4294967295.
Proof. rewrite (udiv64_correct (2 ^ 64 - 1) (2 ^ 32 + 1)); [reflexivity|lia|lia]. Defined.

Lemma sdiv64_correct_witness : sdiv64 (-7) 2 = Ok (-3) ∧ sdiv64 (- 2 ^ 63) (-1) = Ok (- 2 ^ 63).
Proof.
  split; [rewrite (sdiv64_correct (-7) 2); [reflexivity|lia..]|reflexivity].
Defined.

Lemma umod64_truncates_witness : __umoddi3 (2 ^ 33 + 5) (2 ^ 40) = Ok 5.
Proof. destruct (umod64_truncates (2 ^ 33 + 5) (2 ^ 40)) as [H _]; [lia..|]. exact H. Defined.
End Arith.
