(* ===== verification/StringC.v ===== *)
(** lib/string.c: memory blocks and null-terminated strings.

    Memory maps addresses to bytes (0 to 255); reading or writing an address
    that is not mapped is [BadAddr].  Loops counted by a [size_t] recurse on
    the count; loops that end at a null byte carry one unit of fuel more than
    there are mapped bytes, which a walk over distinct addresses cannot use
    up. *)
From S2P Require Import Prelude.
Local Open Scope Z_scope.

Module StringC.

Abbreviation cmem := (gmap Z Z).

Definition get_byte (a : Z) : st cmem Z := λ m,
  match m !! a with Some c => Ok (c, m) | None => Err BadAddr end.
Definition set_byte (a v : Z) : st cmem unit := λ m,
  match m !! a with Some _ => Ok (tt, <[a := u8 v]> m) | None => Err BadAddr end.

Definition loop_fuel : st cmem nat := st_gets (λ m, S (size m)).

(** [ASSERT (p != NULL || size == 0)] *)
Definition assert_block (p size : Z) : st cmem unit :=
  ASSERT (negb (p =? NULL) || (size =? 0)).

(** ** Blocks *)

(** [while (size-- > 0) *dst++ = *src++;] *)
Fixpoint copy_forward (k : nat) (dst src : Z) : st cmem Z :=
  match k with
  | O => mret dst
  | S k => c ← get_byte src; set_byte dst c;; copy_forward k (dst + 1) (src + 1)
  end.

(** [while (size-- > 0) *--dst = *--src;] *)
Fixpoint copy_backward (k : nat) (dst src : Z) : st cmem Z :=
  match k with
  | O => mret dst
  | S k => let dst := dst - 1 in let src := src - 1 in
           c ← get_byte src; set_byte dst c;; copy_backward k dst src
  end.

Definition memcpy (dst_ src_ size : Z) : st cmem Z :=
  assert_block dst_ size;; assert_block src_ size;;
  copy_forward (Z.to_nat size) dst_ src_;;
  mret dst_.

(** The result is the local [dst], which the loops advance. *)
Definition memmove (dst_ src_ size : Z) : st cmem Z :=
  assert_block dst_ size;; assert_block src_ size;;
  if dst_ <? src_ then copy_forward (Z.to_nat size) dst_ src_
  else copy_backward (Z.to_nat size) (dst_ + size) (src_ + size).

Fixpoint memcmp_loop (k : nat) (a b : Z) : st cmem Z :=
  match k with
  | O => mret 0
  | S k =>
    x ← get_byte a; y ← get_byte b;
    if negb (x =? y) then mret (if y <? x then 1 else -1)
    else memcmp_loop k (a + 1) (b + 1)
  end.

Definition memcmp (a_ b_ size : Z) : st cmem Z :=
  assert_block a_ size;; assert_block b_ size;;
  memcmp_loop (Z.to_nat size) a_ b_.

Fixpoint memchr_loop (k : nat) (block ch : Z) : st cmem Z :=
  match k with
  | O => mret NULL
  | S k => x ← get_byte block;
           if x =? ch then mret block else memchr_loop k (block + 1) ch
  end.

Definition memchr (block_ ch_ size : Z) : st cmem Z :=
  assert_block block_ size;;
  memchr_loop (Z.to_nat size) block_ (u8 ch_).

Fixpoint memset_loop (k : nat) (dst value : Z) : st cmem unit :=
  match k with
  | O => mret tt
  | S k => set_byte dst value;; memset_loop k (dst + 1) value
  end.

Definition memset (dst_ value size : Z) : st cmem Z :=
  assert_block dst_ size;;
  memset_loop (Z.to_nat size) dst_ value;;
  mret dst_.

(** ** Strings *)

Fixpoint strcmp_loop (fuel : nat) (a b : Z) : st cmem Z :=
  match fuel with
  | O => st_err NoFuel
  | S fuel =>
    x ← get_byte a;
    if x =? 0 then
      y ← get_byte b; mret (if x <? y then -1 else if y <? x then 1 else 0)
    else
      y ← get_byte b;
      if x =? y then strcmp_loop fuel (a + 1) (b + 1)
      else mret (if x <? y then -1 else if y <? x then 1 else 0)
  end.

Definition strcmp (a_ b_ : Z) : st cmem Z :=
  ASSERT (negb (a_ =? NULL));; ASSERT (negb (b_ =? NULL));;
  n ← loop_fuel; strcmp_loop n a_ b_.

Fixpoint strchr_loop (fuel : nat) (string c : Z) : st cmem Z :=
  match fuel with
  | O => st_err NoFuel
  | S fuel =>
    x ← get_byte string;
    if x =? c then mret string
    else if x =? 0 then mret NULL
    else strchr_loop fuel (string + 1) c
  end.

Definition strchr (string c_ : Z) : st cmem Z :=
  ASSERT (negb (string =? NULL));;
  n ← loop_fuel; strchr_loop n string (u8 c_).

Fixpoint strlen_loop (fuel : nat) (p : Z) : st cmem Z :=
  match fuel with
  | O => st_err NoFuel
  | S fuel => x ← get_byte p; if x =? 0 then mret p else strlen_loop fuel (p + 1)
  end.

Definition strlen (string : Z) : st cmem Z :=
  ASSERT (negb (string =? NULL));;
  n ← loop_fuel; p ← strlen_loop n string; mret (p - string).

(** The byte at [maxlen] is read before the bound is tested. *)
Fixpoint strnlen_loop (fuel : nat) (string maxlen length : Z) : st cmem Z :=
  match fuel with
  | O => st_err NoFuel
  | S fuel =>
    x ← get_byte (string + length);
    if negb (x =? 0) && (length <? maxlen) then strnlen_loop fuel string maxlen (length + 1)
    else mret length
  end.

Definition strnlen (string maxlen : Z) : st cmem Z :=
  n ← loop_fuel; strnlen_loop n string maxlen 0.

(** [strspn] and [strcspn]: the loop ends at the first character whose
    membership in [set] is [stop]. *)
Fixpoint span_loop (fuel : nat) (stop : bool) (string set length : Z) : st cmem Z :=
  match fuel with
  | O => st_err NoFuel
  | S fuel =>
    x ← get_byte (string + length);
    if x =? 0 then mret length else
    p ← strchr set x;
    if eqb (negb (p =? NULL)) stop then mret length
    else span_loop fuel stop string set (length + 1)
  end.

Definition strcspn (string stop : Z) : st cmem Z :=
  n ← loop_fuel; span_loop n true string stop 0.

Definition strspn (string skip : Z) : st cmem Z :=
  n ← loop_fuel; span_loop n false string skip 0.

Fixpoint strpbrk_loop (fuel : nat) (string stop : Z) : st cmem Z :=
  match fuel with
  | O => st_err NoFuel
  | S fuel =>
    x ← get_byte string;
    if x =? 0 then mret NULL else
    p ← strchr stop x;
    if negb (p =? NULL) then mret string else strpbrk_loop fuel (string + 1) stop
  end.

Definition strpbrk (string stop : Z) : st cmem Z :=
  n ← loop_fuel; strpbrk_loop n string stop.

Fixpoint strrchr_loop (fuel : nat) (string c p : Z) : st cmem Z :=
  match fuel with
  | O => st_err NoFuel
  | S fuel =>
    x ← get_byte string;
    if x =? 0 then mret p
    else strrchr_loop fuel (string + 1) c (if x =? c then string else p)
  end.

Definition strrchr (string c_ : Z) : st cmem Z :=
  n ← loop_fuel; strrchr_loop n string (u8 c_) NULL.

(** [k] values of [i] are left. *)
Fixpoint strstr_loop (k : nat) (haystack needle needle_len i : Z) : st cmem Z :=
  match k with
  | O => mret NULL
  | S k =>
    c ← memcmp (haystack + i) needle needle_len;
    if c =? 0 then mret (haystack + i) else strstr_loop k haystack needle needle_len (i + 1)
  end.

Definition strstr (haystack needle : Z) : st cmem Z :=
  haystack_len ← strlen haystack; needle_len ← strlen needle;
  if needle_len <=? haystack_len
  then strstr_loop (Z.to_nat (haystack_len - needle_len + 1)) haystack needle needle_len 0
  else mret NULL.

Definition strlcpy (dst src size : Z) : st cmem Z :=
  ASSERT (negb (dst =? NULL));; ASSERT (negb (src =? NULL));;
  src_len ← strlen src;
  (if 0 <? size then
     let dst_len := size - 1 in
     let dst_len := if src_len <? dst_len then src_len else dst_len in
     memcpy dst src dst_len;; set_byte (dst + dst_len) 0
   else mret tt);;
  mret src_len.

Definition strlcat (dst src size : Z) : st cmem Z :=
  ASSERT (negb (dst =? NULL));; ASSERT (negb (src =? NULL));;
  src_len ← strlen src; dst_len ← strlen dst;
  (if (0 <? size) && (dst_len <? size) then
     let copy_cnt := size - dst_len - 1 in
     let copy_cnt := if src_len <? copy_cnt then src_len else copy_cnt in
     memcpy (dst + dst_len) src copy_cnt;; set_byte (dst + dst_len + copy_cnt) 0
   else mret tt);;
  mret (u64 (src_len + dst_len)).

(** ** Tokens

    [save_ptr] is a null pointer ([None]) or points to a variable whose value
    is given; the result is the token and the variable's new value. *)

(** Skips delimiters: the first character that is none, or [None] with the
    position of the terminator. *)
Fixpoint skip_delimiters (fuel : nat) (s delimiters : Z) : st cmem (option Z * Z) :=
  match fuel with
  | O => st_err NoFuel
  | S fuel =>
    x ← get_byte s; p ← strchr delimiters x;
    if negb (p =? NULL) then
      if x =? 0 then mret (None, s) else skip_delimiters fuel (s + 1) delimiters
    else mret (Some s, s)
  end.

Fixpoint skip_token (fuel : nat) (s delimiters : Z) : st cmem Z :=
  match fuel with
  | O => st_err NoFuel
  | S fuel =>
    x ← get_byte s; p ← strchr delimiters x;
    if p =? NULL then skip_token fuel (s + 1) delimiters else mret s
  end.

Definition strtok_r (s delimiters : Z) (save_ptr : option Z) : st cmem (Z * Z) :=
  ASSERT (negb (delimiters =? NULL));;
  ASSERT (negb (bool_decide (save_ptr = None)));;
  let s := if s =? NULL then default NULL save_ptr else s in
  ASSERT (negb (s =? NULL));;
  n ← loop_fuel;
  r ← skip_delimiters n s delimiters;
  match r with
  | (None, s) => mret (NULL, s)
  | (Some token, s) =>
    s ← skip_token n s delimiters;
    x ← get_byte s;
    if negb (x =? 0) then set_byte s 0;; mret (token, s + 1)
    else mret (token, s)
  end.

End StringC.
