(* ===== verification/StringTheorems.v ===== *)
(** lib/string.c: block operations move the bytes they say, string functions
    compute the function on character sequences their comments state. *)
From S2P Require Import Prelude StringC.
Import StringC.
Local Open Scope Z_scope.

Module StringTheorems.

Definition is_byte (c : Z) : Prop := 0 ≤ c < 256.

(** The bytes from [a] on are [bs]. *)
Definition bytes_at (m : cmem) (a : Z) (bs : list Z) : Prop :=
  ∀ i c, bs !! i = Some c → m !! (a + Z.of_nat i) = Some c.

(** A null-terminated string with characters [s] starts at [a]. *)
Record cstr (m : cmem) (a : Z) (s : list Z) : Prop := {
  cstr_pos : 0 < a;
  cstr_chars : Forall (λ c, is_byte c ∧ c ≠ 0) s;
  cstr_bytes : bytes_at m a (s ++ [0]) }.

Definition mapped (m : cmem) (a n : Z) : Prop :=
  ∀ i, 0 ≤ i < n → ∃ c, m !! (a + i) = Some c ∧ is_byte c.

(** [m'] is [m] with the [n] bytes at [dst] replaced by those [m] has at [src]. *)
Definition copied (m m' : cmem) (dst src n : Z) : Prop :=
  ∀ x, m' !! x = if decide (dst ≤ x < dst + n) then m !! (src + (x - dst)) else m !! x.

(** ** Memory *)

Lemma get_byte_ok {A} (k : Z → st cmem A) m a c :
  m !! a = Some c → (get_byte a ≫= k) m = k c m.
Proof. intros H. apply st_bind_ok. unfold get_byte. by rewrite H. Qed.

Lemma set_byte_ok {A} (k : unit → st cmem A) m a v :
  is_Some (m !! a) → (set_byte a v ≫= k) m = k tt (<[a := u8 v]> m).
Proof. intros [c H]. apply st_bind_ok. unfold set_byte. by rewrite H. Qed.

Lemma u8_byte c : is_byte c → u8 c = c.
Proof. intros. by apply u8_small. Qed.

Lemma bytes_at_nil m a : bytes_at m a [].
Proof. by intros i c. Qed.

Lemma bytes_at_cons m a c bs :
  bytes_at m a (c :: bs) ↔ m !! a = Some c ∧ bytes_at m (a + 1) bs.
Proof.
  split.
  - intros H. split; [specialize (H 0%nat c eq_refl); by rewrite Z.add_0_r in H|].
    intros i d Hi. specialize (H (S i) d Hi). rewrite <- H. f_equal. lia.
  - intros [H1 H2] [|i] d Hi.
    + simpl in Hi. rewrite Z.add_0_r. congruence.
    + specialize (H2 i d Hi). rewrite <- H2. f_equal. lia.
Qed.

Lemma bytes_at_app m a bs cs :
  bytes_at m a (bs ++ cs) ↔ bytes_at m a bs ∧ bytes_at m (a + Z.of_nat (length bs)) cs.
Proof.
  revert a. induction bs as [|c bs IH]; intros a; simpl.
  - rewrite Z.add_0_r. split; [by intros; split; [apply bytes_at_nil|]|by intros []].
  - rewrite !bytes_at_cons, IH. replace (a + 1 + Z.of_nat (length bs)) with (a + Z.of_nat (S (length bs))) by lia.
    tauto.
Qed.

(** Distinct addresses: a block is no longer than the memory. *)
Lemma bytes_at_size bs : ∀ m a, bytes_at m a bs → (length bs ≤ size m)%nat.
Proof.
  induction bs as [|c bs IH]; intros m a; simpl; [lia|].
  rewrite bytes_at_cons. intros [Hc Hb].
  assert (length bs ≤ size (delete a m))%nat.
  { apply (IH _ (a + 1)). intros i d Hi. rewrite lookup_delete_ne by lia. by apply Hb. }
  rewrite map_size_delete_Some in H by eauto.
  assert (size m ≠ 0%nat) by (apply map_size_ne_0_lookup; eauto). lia.
Qed.

Lemma cstr_fuel m a s : cstr m a s → (length s < size m)%nat.
Proof. intros [_ _ H]. apply bytes_at_size in H. rewrite length_app in H. simpl in H. lia. Qed.

Lemma with_fuel {A} (k : nat → st cmem A) m : (loop_fuel ≫= k) m = k (S (size m)) m.
Proof. done. Qed.

Lemma not_null {A} (k : unit → st cmem A) m p : 0 < p → (ASSERT (negb (p =? NULL)) ≫= k) m = k tt m.
Proof. intros H. apply st_bind_ok, ASSERT_true, negb_true_iff, Z.eqb_neq. unfold NULL. lia. Qed.

Lemma block_ok {A} (k : unit → st cmem A) m p n :
  0 < p ∨ n = 0 → (assert_block p n ≫= k) m = k tt m.
Proof.
  intros H. apply st_bind_ok, ASSERT_true, orb_true_iff. rewrite negb_true_iff, Z.eqb_neq, Z.eqb_eq.
  unfold NULL. lia.
Qed.

(** ** Copying *)

Lemma copy_forward_ok k : ∀ m dst src,
  mapped m dst (Z.of_nat k) → mapped m src (Z.of_nat k) →
  dst ≤ src ∨ src + Z.of_nat k ≤ dst →
  ∃ m', copy_forward k dst src m = Ok (dst + Z.of_nat k, m') ∧ copied m m' dst src (Z.of_nat k).
Proof.
  induction k as [|k IH]; intros m dst src Hd Hs Ho.
  { exists m. simpl. rewrite Z.add_0_r. split; [done|]. intros x. by rewrite decide_False by lia. }
  cbn [copy_forward]. destruct (Hs 0) as (c & Hc & Hb); [lia|]. rewrite Z.add_0_r in Hc.
  destruct (Hd 0) as (c' & Hc' & _); [lia|]. rewrite Z.add_0_r in Hc'.
  rewrite (get_byte_ok _ _ _ _ Hc), set_byte_ok, (u8_byte _ Hb) by eauto.
  assert (Hup : ∀ a, a ≠ dst → <[dst := c]> m !! a = m !! a) by (intros; by rewrite lookup_insert_ne).
  destruct (IH (<[dst := c]> m) (dst + 1) (src + 1)) as (m' & Hop & Hm').
  - intros i Hi. rewrite Hup by lia. destruct (Hd (i + 1)) as (d & Hd' & ?); [lia|].
    exists d. split; [|done]. rewrite <- Hd'. f_equal. lia.
  - intros i Hi. rewrite Hup by lia. destruct (Hs (i + 1)) as (d & Hd' & ?); [lia|].
    exists d. split; [|done]. rewrite <- Hd'. f_equal. lia.
  - lia.
  - exists m'. rewrite Hop. split; [do 2 f_equal; lia|]. intros x. rewrite Hm'.
    destruct (decide (x = dst)) as [->|Hx].
    + rewrite decide_False, decide_True by lia. rewrite lookup_insert_eq.
      by rewrite Z.sub_diag, Z.add_0_r.
    + repeat case_decide; try lia; rewrite Hup by lia; [f_equal; lia|done].
Qed.

Lemma copy_backward_ok k : ∀ m dst src,
  mapped m (dst - Z.of_nat k) (Z.of_nat k) → mapped m (src - Z.of_nat k) (Z.of_nat k) → src ≤ dst →
  ∃ m', copy_backward k dst src m = Ok (dst - Z.of_nat k, m') ∧
        copied m m' (dst - Z.of_nat k) (src - Z.of_nat k) (Z.of_nat k).
Proof.
  induction k as [|k IH]; intros m dst src Hd Hs Ho.
  { exists m. simpl. rewrite Z.sub_0_r. split; [done|]. intros x. by rewrite decide_False by lia. }
  cbn [copy_backward]. destruct (Hs (Z.of_nat k)) as (c & Hc & Hb); [lia|].
  destruct (Hd (Z.of_nat k)) as (c' & Hc' & _); [lia|].
  replace (src - Z.of_nat (S k) + Z.of_nat k) with (src - 1) in Hc by lia.
  replace (dst - Z.of_nat (S k) + Z.of_nat k) with (dst - 1) in Hc' by lia.
  cbv zeta. rewrite (get_byte_ok _ _ _ _ Hc), set_byte_ok, (u8_byte _ Hb) by eauto.
  assert (Hup : ∀ a, a ≠ dst - 1 → <[dst - 1 := c]> m !! a = m !! a) by (intros; by rewrite lookup_insert_ne).
  destruct (IH (<[dst - 1 := c]> m) (dst - 1) (src - 1)) as (m' & Hop & Hm').
  - intros i Hi. rewrite Hup by lia. destruct (Hd i) as (d & Hd' & ?); [lia|].
    exists d. split; [|done]. rewrite <- Hd'. f_equal. lia.
  - intros i Hi. rewrite Hup by lia. destruct (Hs i) as (d & Hd' & ?); [lia|].
    exists d. split; [|done]. rewrite <- Hd'. f_equal. lia.
  - lia.
  - exists m'. rewrite Hop. split; [do 2 f_equal; lia|]. intros x. rewrite Hm'.
    destruct (decide (x = dst - 1)) as [->|Hx].
    + rewrite decide_False, decide_True by lia. rewrite lookup_insert_eq, <- Hc. f_equal. lia.
    + repeat case_decide; try lia; rewrite Hup by lia; [f_equal; lia|done].
Qed.

Lemma memcpy_ok m dst src n :
  0 < dst → 0 < src → 0 ≤ n → mapped m dst n → mapped m src n → src + n ≤ dst ∨ dst + n ≤ src →
  ∃ m', memcpy dst src n m = Ok (dst, m') ∧ copied m m' dst src n.
Proof.
  intros H1 H2 Hn Hd Hs Ho. destruct (copy_forward_ok (Z.to_nat n) m dst src) as (m' & Hop & Hc);
    rewrite ?Z2Nat.id by done; try done; [lia|]. rewrite Z2Nat.id in Hc by done.
  exists m'. split; [|done]. unfold memcpy. rewrite !block_ok by lia.
  by rewrite (st_bind_ok _ _ _ _ _ Hop).
Qed.

Lemma memset_loop_ok k : ∀ m dst v,
  mapped m dst (Z.of_nat k) →
  ∃ m', memset_loop k dst v m = Ok (tt, m') ∧
    ∀ x, m' !! x = if decide (dst ≤ x < dst + Z.of_nat k) then Some (u8 v) else m !! x.
Proof.
  induction k as [|k IH]; intros m dst v Hd.
  { exists m. split; [done|]. intros x. by rewrite decide_False by lia. }
  cbn [memset_loop]. destruct (Hd 0) as (c & Hc & _); [lia|]. rewrite Z.add_0_r in Hc.
  rewrite set_byte_ok by eauto.
  destruct (IH (<[dst := u8 v]> m) (dst + 1) v) as (m' & Hop & Hm').
  { intros i Hi. rewrite lookup_insert_ne by lia. destruct (Hd (i + 1)) as (d & Hd' & ?); [lia|].
    exists d. split; [|done]. rewrite <- Hd'. f_equal. lia. }
  exists m'. split; [done|]. intros x. rewrite Hm'. destruct (decide (x = dst)) as [->|].
  - rewrite decide_False, decide_True by lia. by rewrite lookup_insert_eq.
  - rewrite lookup_insert_ne by done. repeat case_decide; lia || done.
Qed.

(** ** Comparison *)

(** [s] comes before [t] in the order of unsigned characters. *)
Inductive lex_lt : list Z → list Z → Prop :=
  | LexNil y t : lex_lt [] (y :: t)
  | LexHead x y s t : x < y → lex_lt (x :: s) (y :: t)
  | LexTail x s t : lex_lt s t → lex_lt (x :: s) (x :: t).

(** A strcmp()-type result. *)
Definition compares (s t : list Z) (r : Z) : Prop :=
  r = 0 ∧ s = t ∨ r = -1 ∧ lex_lt s t ∨ r = 1 ∧ lex_lt t s.

Lemma compares_cons x s t r : compares s t r → compares (x :: s) (x :: t) r.
Proof.
  intros [[-> ->]|[[-> H]|[-> H]]]; [left|right; left|right; right]; split; try done; by constructor.
Qed.

Lemma memcmp_loop_ok xs : ∀ m a b ys,
  length ys = length xs → bytes_at m a xs → bytes_at m b ys →
  ∃ r, memcmp_loop (length xs) a b m = Ok (r, m) ∧ compares xs ys r.
Proof.
  induction xs as [|x xs IH]; intros m a b [|y ys] Hl Ha Hb; try done.
  { exists 0. split; [done|]. by left. }
  cbn [length memcmp_loop]. apply bytes_at_cons in Ha as [Hx Ha], Hb as [Hy Hb].
  rewrite (get_byte_ok _ _ _ _ Hx), (get_byte_ok _ _ _ _ Hy).
  destruct (Z.eqb_spec x y) as [->|Hne]; cbn [negb].
  - destruct (IH m (a + 1) (b + 1) ys) as (r & Hr & Hc); [simpl in Hl; lia|done..|].
    exists r. split; [done|]. by apply compares_cons.
  - eexists. split; [done|]. destruct (Z.ltb_spec y x); [right; right|right; left];
      split; try done; constructor; lia.
Qed.

Lemma memcmp_ok m a b xs ys :
  0 < a → 0 < b → length ys = length xs → bytes_at m a xs → bytes_at m b ys →
  ∃ r, memcmp a b (Z.of_nat (length xs)) m = Ok (r, m) ∧ compares xs ys r.
Proof.
  intros Ha Hb Hl H1 H2. unfold memcmp. rewrite !block_ok, Nat2Z.id by lia.
  by apply memcmp_loop_ok.
Qed.

Lemma cstr_cons m a x s :
  cstr m a (x :: s) ↔ 0 < a ∧ m !! a = Some x ∧ (is_byte x ∧ x ≠ 0) ∧ cstr m (a + 1) s.
Proof.
  split.
  - intros [H1 H2 H3]. apply Forall_cons in H2 as [H2 Hs]. simpl in H3.
    apply bytes_at_cons in H3 as [H3 H4]. split; [done|]. split; [done|]. split; [done|].
    split; [lia|done..].
  - intros (H1 & H2 & H3 & [H4 H5 H6]). split; [done|by constructor|].
    simpl. by apply bytes_at_cons.
Qed.

Lemma cstr_nil m a : cstr m a [] ↔ 0 < a ∧ m !! a = Some 0.
Proof.
  split.
  - intros [H1 _ H3]. simpl in H3. by apply bytes_at_cons in H3 as [H3 _].
  - intros [H1 H2]. split; [done|done|]. simpl. apply bytes_at_cons.
    split; [done|apply bytes_at_nil].
Qed.

Lemma strcmp_loop_ok s : ∀ m a b t fuel,
  cstr m a s → cstr m b t → (length s < fuel)%nat →
  ∃ r, strcmp_loop fuel a b m = Ok (r, m) ∧ compares s t r.
Proof.
  induction s as [|x s IH]; intros m a b t [|fuel] Ha Hb Hf; simpl in Hf; try lia; cbn [strcmp_loop].
  - apply cstr_nil in Ha as [Ha Hx]. rewrite (get_byte_ok _ _ _ _ Hx), Z.eqb_refl.
    destruct t as [|y t].
    + apply cstr_nil in Hb as [Hb Hy]. rewrite (get_byte_ok _ _ _ _ Hy). exists 0. split; [done|by left].
    + apply cstr_cons in Hb as (Hb & Hy & [[? ?] ?] & _). rewrite (get_byte_ok _ _ _ _ Hy).
      exists (-1). split; [|right; left; split; [done|constructor]].
      by assert (0 <? y = true) as -> by (apply Z.ltb_lt; lia).
  - apply cstr_cons in Ha as (Ha & Hx & [Hxb Hx0] & Hs). rewrite (get_byte_ok _ _ _ _ Hx).
    apply Z.eqb_neq in Hx0 as Hx0'. rewrite Hx0'. destruct t as [|y t].
    + apply cstr_nil in Hb as [Hb Hy]. rewrite (get_byte_ok _ _ _ _ Hy), Hx0'.
      exists 1. split; [|right; right; split; [done|constructor]].
      destruct Hxb. assert (x <? 0 = false) as -> by (apply Z.ltb_ge; lia).
      by assert (0 <? x = true) as -> by (apply Z.ltb_lt; lia).
    + apply cstr_cons in Hb as (Hb & Hy & Hyb & Ht). rewrite (get_byte_ok _ _ _ _ Hy).
      destruct (Z.eqb_spec x y) as [->|Hne].
      * destruct (IH m (a + 1) (b + 1) t fuel) as (r & Hr & Hc); [done|done|lia|].
        exists r. split; [done|]. by apply compares_cons.
      * eexists. split; [done|]. destruct (Z.ltb_spec x y); [right; left; split; [done|by constructor]|].
        assert (y <? x = true) as -> by (apply Z.ltb_lt; lia).
        right; right; split; [done|]. constructor. lia.
Qed.

(** ** Searching *)

(** The first position of [s] at which [p] holds. *)
Fixpoint find_index (p : Z → bool) (s : list Z) : option nat :=
  match s with
  | [] => None
  | x :: s => if p x then Some O else S <$> find_index p s
  end.

Definition ptr (a : Z) (o : option nat) : Z :=
  match o with Some i => a + Z.of_nat i | None => NULL end.

Lemma ptr_S a o : ptr (a + 1) o = ptr a (S <$> o).
Proof. destruct o; simpl; [lia|done]. Qed.

Lemma find_index_none p s : find_index p s = None ↔ Forall (λ x, p x = false) s.
Proof.
  induction s as [|x s IH]; simpl; [by split|]. rewrite Forall_cons, <- IH.
  destruct (p x), (find_index p s); naive_solver.
Qed.

Lemma find_index_some p s i :
  find_index p s = Some i → (∃ x, s !! i = Some x ∧ p x = true) ∧
    (∀ j x, (j < i)%nat → s !! j = Some x → p x = false).
Proof.
  revert i. induction s as [|x s IH]; intros i; simpl; [done|]. destruct (p x) eqn:E.
  - intros [= <-]. split; [by exists x|lia].
  - destruct (find_index p s) as [k|]; [|done]. intros [= <-]. destruct (IH k eq_refl) as [H1 H2].
    split; [done|]. intros [|j] y Hj Hy; simpl in Hy; [congruence|]. apply (H2 j); [lia|done].
Qed.

Lemma strlen_loop_ok s : ∀ m a fuel,
  cstr m a s → (length s < fuel)%nat → strlen_loop fuel a m = Ok (a + Z.of_nat (length s), m).
Proof.
  induction s as [|x s IH]; intros m a [|fuel] Ha Hf; simpl in Hf; try lia; cbn [strlen_loop].
  - apply cstr_nil in Ha as [Ha Hx]. rewrite (get_byte_ok _ _ _ _ Hx), Z.eqb_refl.
    cbn [length]. by rewrite Z.add_0_r.
  - apply cstr_cons in Ha as (Ha & Hx & [_ Hx0] & Hs). rewrite (get_byte_ok _ _ _ _ Hx).
    apply Z.eqb_neq in Hx0 as ->. rewrite IH by (done || lia). cbn [length]. do 2 f_equal. lia.
Qed.

Lemma strlen_ok m a s : cstr m a s → strlen a m = Ok (Z.of_nat (length s), m).
Proof.
  intros H. pose proof (cstr_fuel _ _ _ H). unfold strlen. rewrite not_null, with_fuel by apply H.
  rewrite (st_bind_ok _ _ _ _ _ (strlen_loop_ok s m a (S (size m)) H ltac:(lia))).
  unfold mret, st_ret. do 2 f_equal. lia.
Qed.

Lemma strchr_loop_ok s : ∀ m a c fuel,
  cstr m a s → (length s < fuel)%nat →
  strchr_loop fuel a c m = Ok (ptr a (find_index (λ x, x =? c) (s ++ [0])), m).
Proof.
  induction s as [|x s IH]; intros m a c [|fuel] Ha Hf; simpl in Hf; try lia; cbn [strchr_loop].
  - apply cstr_nil in Ha as [Ha Hx]. rewrite (get_byte_ok _ _ _ _ Hx). cbn [app find_index].
    destruct (0 =? c); simpl; [by rewrite Z.add_0_r|done].
  - apply cstr_cons in Ha as (Ha & Hx & [_ Hx0] & Hs). rewrite (get_byte_ok _ _ _ _ Hx).
    cbn [app find_index]. destruct (x =? c); [simpl; by rewrite Z.add_0_r|].
    apply Z.eqb_neq in Hx0 as ->. rewrite IH, ptr_S by (done || lia). done.
Qed.

Lemma strchr_ok m a s c :
  cstr m a s → is_byte c →
  strchr a c m = Ok (ptr a (find_index (λ x, x =? c) (s ++ [0])), m).
Proof.
  intros H Hc. pose proof (cstr_fuel _ _ _ H). unfold strchr.
  rewrite not_null, with_fuel, u8_byte by (done || apply H). apply strchr_loop_ok; [done|lia].
Qed.

(** [strchr (set, x) != NULL]: membership, for a null byte always true. *)
Lemma strchr_null {A} (k : Z → st cmem A) m a s c :
  cstr m a s → is_byte c →
  ∃ p, (strchr a c ≫= k) m = k p m ∧ (p =? NULL) = negb (bool_decide (c ∈ s ++ [0])).
Proof.
  intros H Hc. eexists. split; [apply st_bind_ok; by apply strchr_ok|].
  destruct (find_index _ _) as [i|] eqn:E; simpl.
  - apply find_index_some in E as [(x & Hx & He) _]. apply Z.eqb_eq in He as ->.
    rewrite bool_decide_eq_true_2 by (by eapply list_elem_of_lookup_2). simpl.
    apply Z.eqb_neq. pose proof (cstr_pos _ _ _ H). unfold NULL. lia.
  - apply find_index_none in E. rewrite bool_decide_eq_false_2; [done|]. intros Hin.
    rewrite Forall_forall in E. specialize (E c Hin). simpl in E. by rewrite Z.eqb_refl in E.
Qed.

Definition in_set (set : list Z) (x : Z) : bool := bool_decide (x ∈ set).

Lemma in_set_ext set x : x ≠ 0 → bool_decide (x ∈ set ++ [0]) = in_set set x.
Proof.
  intros Hx. unfold in_set. apply bool_decide_ext. rewrite elem_of_app, list_elem_of_singleton. tauto.
Qed.

Section sets.
Context (m : cmem) (b : Z) (set : list Z) (Hset : cstr m b set).

Lemma span_loop_ok s : ∀ stop a n fuel,
  cstr m (a + Z.of_nat n) s → (length s < fuel)%nat →
  span_loop fuel stop a b (Z.of_nat n) m
  = Ok (Z.of_nat (n + default (length s) (find_index (λ x, eqb (in_set set x) stop) s)), m).
Proof using Hset.
  induction s as [|x s IH]; intros stop a n [|fuel] Ha Hf; simpl in Hf; try lia; cbn [span_loop].
  - apply cstr_nil in Ha as [Ha Hx]. rewrite (get_byte_ok _ _ _ _ Hx). simpl. by rewrite Nat.add_0_r.
  - apply cstr_cons in Ha as (Ha & Hx & [Hxb Hx0] & Hs). rewrite (get_byte_ok _ _ _ _ Hx).
    pose proof Hx0 as Hx1. apply Z.eqb_neq in Hx1 as ->.
    edestruct (λ k, strchr_null (A := Z) k m b set x Hset Hxb) as (p & -> & ->).
    rewrite negb_involutive, in_set_ext by done. cbn [find_index].
    destruct (eqb (in_set set x) stop); [simpl; by rewrite Nat.add_0_r|].
    replace (Z.of_nat n + 1) with (Z.of_nat (S n)) by lia.
    rewrite (IH stop a (S n)) by (lia || by replace (a + Z.of_nat (S n)) with (a + Z.of_nat n + 1) by lia).
    do 3 f_equal. destruct (find_index _ s); simpl; lia.
Qed.

Lemma strpbrk_loop_ok s : ∀ a fuel,
  cstr m a s → (length s < fuel)%nat →
  strpbrk_loop fuel a b m = Ok (ptr a (find_index (in_set set) s), m).
Proof using Hset.
  induction s as [|x s IH]; intros a [|fuel] Ha Hf; simpl in Hf; try lia; cbn [strpbrk_loop].
  - apply cstr_nil in Ha as [Ha Hx]. by rewrite (get_byte_ok _ _ _ _ Hx).
  - apply cstr_cons in Ha as (Ha & Hx & [Hxb Hx0] & Hs). rewrite (get_byte_ok _ _ _ _ Hx).
    pose proof Hx0 as Hx1. apply Z.eqb_neq in Hx1 as ->.
    edestruct (λ k, strchr_null (A := Z) k m b set x Hset Hxb) as (p & -> & ->).
    rewrite negb_involutive, in_set_ext by done. cbn [find_index].
    destruct (in_set set x); [simpl; by rewrite Z.add_0_r|]. by rewrite IH, ptr_S by (done || lia).
Qed.

(** Skipping delimiters and tokens. *)
Lemma skip_delimiters_ok s : ∀ a fuel,
  cstr m a s → (length s < fuel)%nat →
  skip_delimiters fuel a b m
  = Ok (match find_index (λ x, negb (in_set set x)) s with
        | Some i => (Some (a + Z.of_nat i), a + Z.of_nat i)
        | None => (None, a + Z.of_nat (length s)) end, m).
Proof using Hset.
  induction s as [|x s IH]; intros a [|fuel] Ha Hf; simpl in Hf; try lia; cbn [skip_delimiters].
  - apply cstr_nil in Ha as [Ha Hx]. rewrite (get_byte_ok _ _ _ _ Hx).
    edestruct (λ k, strchr_null (A := option Z * Z) k m b set 0 Hset) as (p & -> & ->); [by split|].
    rewrite bool_decide_eq_true_2 by (rewrite elem_of_app, list_elem_of_singleton; by right).
    simpl. by rewrite Z.add_0_r.
  - apply cstr_cons in Ha as (Ha & Hx & [Hxb Hx0] & Hs). rewrite (get_byte_ok _ _ _ _ Hx).
    edestruct (λ k, strchr_null (A := option Z * Z) k m b set x Hset Hxb) as (p & -> & ->).
    rewrite negb_involutive, in_set_ext by done. cbn [find_index]. apply Z.eqb_neq in Hx0 as ->.
    destruct (in_set set x); simpl; [|by rewrite Z.add_0_r].
    rewrite IH by (done || lia). destruct (find_index _ s); simpl; repeat first [lia|f_equal].
Qed.

Lemma skip_token_ok s : ∀ a fuel,
  cstr m a s → (length s < fuel)%nat →
  skip_token fuel a b m = Ok (a + Z.of_nat (default (length s) (find_index (in_set set) s)), m).
Proof using Hset.
  induction s as [|x s IH]; intros a [|fuel] Ha Hf; simpl in Hf; try lia; cbn [skip_token].
  - apply cstr_nil in Ha as [Ha Hx]. rewrite (get_byte_ok _ _ _ _ Hx).
    edestruct (λ k, strchr_null (A := Z) k m b set 0 Hset) as (p & -> & ->); [by split|].
    rewrite bool_decide_eq_true_2 by (rewrite elem_of_app, list_elem_of_singleton; by right).
    simpl. by rewrite Z.add_0_r.
  - apply cstr_cons in Ha as (Ha & Hx & [Hxb Hx0] & Hs). rewrite (get_byte_ok _ _ _ _ Hx).
    edestruct (λ k, strchr_null (A := Z) k m b set x Hset Hxb) as (p & -> & ->).
    rewrite in_set_ext by done. cbn [find_index].
    destruct (in_set set x); simpl; [by rewrite Z.add_0_r|].
    rewrite IH by (done || lia). do 2 f_equal. destruct (find_index _ s); simpl; lia.
Qed.
End sets.

(** The last position of [c]. *)
Fixpoint last_index (c : Z) (s : list Z) : option nat :=
  match s with
  | [] => None
  | x :: s => match last_index c s with
              | Some i => Some (S i)
              | None => if x =? c then Some O else None
              end
  end.

Lemma strrchr_loop_ok s : ∀ m a c p fuel,
  cstr m a s → (length s < fuel)%nat →
  strrchr_loop fuel a c p m
  = Ok (match last_index c s with Some i => a + Z.of_nat i | None => p end, m).
Proof.
  induction s as [|x s IH]; intros m a c p [|fuel] Ha Hf; simpl in Hf; try lia; cbn [strrchr_loop].
  - apply cstr_nil in Ha as [Ha Hx]. by rewrite (get_byte_ok _ _ _ _ Hx).
  - apply cstr_cons in Ha as (Ha & Hx & [_ Hx0] & Hs). rewrite (get_byte_ok _ _ _ _ Hx).
    apply Z.eqb_neq in Hx0 as ->. rewrite IH by (done || lia). cbn [last_index].
    destruct (last_index c s); [do 2 f_equal; lia|]. destruct (x =? c); [|done]. by rewrite Z.add_0_r.
Qed.

(** ** Substrings *)

Lemma lex_lt_irrefl s t : lex_lt s t → s ≠ t.
Proof. induction 1; [done|intros [= -> ->]; lia|intros [= ->]; done]. Qed.

Lemma compares_zero s t r : compares s t r → (r =? 0) = bool_decide (s = t).
Proof.
  intros [[-> ->]|[[-> H]|[-> H]]]; [by rewrite bool_decide_eq_true_2|..];
    apply lex_lt_irrefl in H; rewrite bool_decide_eq_false_2; done.
Qed.

Lemma bytes_at_sub m a s i n :
  bytes_at m a s → bytes_at m (a + Z.of_nat i) (take n (drop i s)).
Proof.
  intros H k c Hk. rewrite lookup_take in Hk. case_decide; [|done]. rewrite lookup_drop in Hk.
  apply H in Hk. rewrite <- Hk. f_equal. lia.
Qed.

Definition occurs_at (needle hay : list Z) (i : nat) : Prop :=
  (i + length needle ≤ length hay)%nat ∧ take (length needle) (drop i hay) = needle.

Lemma strstr_loop_ok m a b hay needle k : ∀ i,
  cstr m a hay → cstr m b needle → (i + length needle + k = length hay + 1)%nat →
  ∃ r, strstr_loop k a b (Z.of_nat (length needle)) (Z.of_nat i) m = Ok (r, m) ∧
    ((∃ j, r = a + Z.of_nat j ∧ occurs_at needle hay j ∧ ∀ j', (i ≤ j' < j)%nat → ¬ occurs_at needle hay j')
     ∨ r = NULL ∧ ∀ j, (i ≤ j)%nat → ¬ occurs_at needle hay j).
Proof.
  induction k as [|k IH]; intros i Ha Hb Hk.
  { exists NULL. split; [done|]. right. split; [done|]. intros j Hj [? _]. lia. }
  cbn [strstr_loop].
  assert (Hsub : bytes_at m (a + Z.of_nat i) (take (length needle) (drop i hay))).
  { apply bytes_at_sub. by apply cstr_bytes in Ha; apply bytes_at_app in Ha as [Ha _]. }
  assert (Hlen : length (take (length needle) (drop i hay)) = length needle)
    by (rewrite length_take, length_drop; lia).
  pose proof (cstr_pos _ _ _ Ha). pose proof (cstr_pos _ _ _ Hb).
  destruct (memcmp_ok m (a + Z.of_nat i) b _ needle ltac:(lia) ltac:(lia) (eq_sym Hlen) Hsub) as (r & Hr & Hc).
  { by apply cstr_bytes in Hb; apply bytes_at_app in Hb as [Hb _]. }
  rewrite Hlen in Hr. rewrite (st_bind_ok _ _ _ _ _ Hr), (compares_zero _ _ _ Hc).
  case_bool_decide as He.
  - eexists. split; [done|]. left. exists i. split_and!; [done|split; [lia|done]|lia].
  - destruct (IH (S i) Ha Hb) as (r' & Hr' & Hs); [lia|].
    replace (Z.of_nat i + 1) with (Z.of_nat (S i)) by lia. exists r'. split; [done|].
    assert (Hno : ¬ occurs_at needle hay i) by by intros [_ ?].
    destruct Hs as [(j & -> & Ho & Hj)|[-> Hj]]; [left; exists j|right]; split; try done; [split; [done|]|];
      intros j' Hj'; (destruct (decide (j' = i)) as [->|]; [done|apply Hj; lia]).
Qed.

(** ** Strings under changes of memory *)

Lemma bytes_at_agree m m' a bs :
  bytes_at m a bs → (∀ x, a ≤ x < a + Z.of_nat (length bs) → m' !! x = m !! x) → bytes_at m' a bs.
Proof.
  intros H He i c Hi. rewrite He; [by apply H|]. apply lookup_lt_Some in Hi. lia.
Qed.

Lemma cstr_agree m m' a s :
  cstr m a s → (∀ x, a ≤ x ≤ a + Z.of_nat (length s) → m' !! x = m !! x) → cstr m' a s.
Proof.
  intros [H1 H2 H3] He. split; [done..|]. eapply bytes_at_agree; [done|].
  intros x Hx. apply He. rewrite length_app in Hx. simpl in Hx. lia.
Qed.

Lemma cstr_drop m a s i : cstr m a s → (i ≤ length s)%nat → cstr m (a + Z.of_nat i) (drop i s).
Proof.
  intros [H1 H2 H3] Hi. split; [lia|by apply Forall_drop|].
  rewrite <- (take_drop i s), <- app_assoc in H3. apply bytes_at_app in H3 as [_ H3].
  by rewrite length_take, Nat.min_l in H3 by lia.
Qed.

(** Writing a terminator behind [n] characters. *)
Lemma bytes_at_terminate m a s :
  bytes_at m a s → bytes_at (<[a + Z.of_nat (length s) := 0]> m) a (s ++ [0]).
Proof.
  intros H. apply bytes_at_app. split.
  - eapply bytes_at_agree; [done|]. intros x Hx. rewrite lookup_insert_ne by lia. done.
  - apply bytes_at_cons. split; [by rewrite lookup_insert_eq|apply bytes_at_nil].
Qed.

Lemma cstr_cut m a s n :
  cstr m a s → (n ≤ length s)%nat → cstr (<[a + Z.of_nat n := 0]> m) a (take n s).
Proof.
  intros [H1 H2 H3] Hn. split; [done|by apply Forall_take|].
  assert (Hl : length (take n s) = n) by (rewrite length_take; lia). rewrite <- Hl at 1.
  apply bytes_at_terminate. apply bytes_at_app in H3 as [H3 _].
  pose proof (bytes_at_sub m a s 0 n H3) as Hs. by rewrite Z.add_0_r, drop_0 in Hs.
Qed.

Lemma cstr_mapped m a s n : cstr m a s → n ≤ Z.of_nat (length s) + 1 → mapped m a n.
Proof.
  intros [H1 H2 H3] Hn i Hi.
  destruct (lookup_lt_is_Some_2 (s ++ [0]) (Z.to_nat i)) as [c Hc]; [rewrite length_app; simpl; lia|].
  exists c. apply H3 in Hc as Hm. rewrite Z2Nat.id in Hm by lia. split; [done|].
  apply list_elem_of_lookup_2 in Hc. rewrite elem_of_app, list_elem_of_singleton in Hc.
  destruct Hc as [Hc| ->]; [|done]. rewrite Forall_forall in H2. by apply H2.
Qed.

(** [memcpy] of [n] characters of a string, then a terminator. *)
Lemma copy_string m dst src s n :
  0 < dst → cstr m src s → (n ≤ length s)%nat → mapped m dst (Z.of_nat n + 1) →
  src + Z.of_nat (length s) < dst ∨ dst + Z.of_nat n < src →
  ∃ m', (memcpy dst src (Z.of_nat n);; set_byte (dst + Z.of_nat n) 0) m = Ok (tt, m') ∧
    cstr m' dst (take n s) ∧
    (∀ x, ¬ (dst ≤ x ≤ dst + Z.of_nat n) → m' !! x = m !! x).
Proof.
  intros Hd Hs Hn Hmap Ho. pose proof (cstr_pos _ _ _ Hs).
  destruct (memcpy_ok m dst src (Z.of_nat n)) as (m1 & Hop & Hc); try lia.
  { intros i Hi. apply Hmap. lia. }
  { eapply cstr_mapped; [done|lia]. }
  exists (<[dst + Z.of_nat n := 0]> m1). rewrite (st_bind_ok _ _ _ _ _ Hop). split_and!.
  - unfold set_byte. rewrite Hc, decide_False by lia.
    destruct (Hmap (Z.of_nat n)) as (c & -> & _); [lia|done].
  - destruct Hs as [H1 H2 H3]. split; [done|by apply Forall_take|].
    assert (Hl : length (take n s) = n) by (rewrite length_take; lia). rewrite <- Hl at 1.
    apply bytes_at_terminate. intros i c Hi. rewrite Hc.
    assert (i < n)%nat by (apply lookup_lt_Some in Hi; lia). rewrite decide_True by lia.
    rewrite lookup_take_lt in Hi by done. replace (src + (dst + Z.of_nat i - dst)) with (src + Z.of_nat i) by lia.
    apply bytes_at_app in H3 as [H3 _]. by apply H3.
  - intros x Hx. rewrite lookup_insert_ne by lia. rewrite Hc, decide_False by lia. done.
Qed.

(** ** Tokens *)

(** The maximal runs of characters outside [set]; [split_words] returns the
    run at the beginning apart. *)
Fixpoint split_words (set s : list Z) : list Z * list (list Z) :=
  match s with
  | [] => ([], [])
  | x :: s =>
    let '(w, ws) := split_words set s in
    if in_set set x then ([], match w with [] => ws | _ => w :: ws end) else (x :: w, ws)
  end.

Definition words (set s : list Z) : list (list Z) :=
  let '(w, ws) := split_words set s in match w with [] => ws | _ => w :: ws end.

Lemma words_delim set x s : in_set set x = true → words set (x :: s) = words set s.
Proof. intros H. unfold words. simpl. destruct (split_words set s) as [w ws]. by rewrite H. Qed.

Lemma split_words_token set s :
  let n := default (length s) (find_index (in_set set) s) in
  split_words set s = (take n s, words set (drop (S n) s)).
Proof.
  induction s as [|x s IH]; [done|]. cbn [split_words find_index]. cbv zeta in IH. rewrite IH.
  destruct (in_set set x) eqn:E.
  - cbn [default take drop]. f_equal. symmetry. unfold words at 1. by rewrite drop_0, IH.
  - destruct (find_index (in_set set) s); done.
Qed.

Lemma words_skip set s :
  words set s = match find_index (λ x, negb (in_set set x)) s with
                | None => []
                | Some i =>
                  let t := drop i s in
                  let n := default (length t) (find_index (in_set set) t) in
                  take n t :: words set (drop (S n) t)
                end.
Proof.
  induction s as [|x s IH]; [done|]. cbn [find_index]. destruct (in_set set x) eqn:E; cbn [negb].
  - rewrite words_delim, IH by done. destruct (find_index _ s); done.
  - cbv zeta. rewrite drop_0. unfold words at 1. rewrite split_words_token. cbn [find_index]. rewrite E.
    destruct (find_index (in_set set) s); done.
Qed.

Lemma find_index_lt p s i : find_index p s = Some i → (i < length s)%nat.
Proof. intros H. apply find_index_some in H as [(x & Hx & _) _]. by eapply lookup_lt_Some. Qed.

Section tokens.
Context (d : Z) (set : list Z).

(** A call that starts at [a], given as the string or as the saved position. *)
Lemma strtok_start m a s0 sv :
  cstr m d set → 0 < a → (if s0 =? NULL then sv else s0) = a →
  strtok_r s0 d (Some sv) m = strtok_r a d (Some 0) m.
Proof.
  intros Hd Ha He. unfold strtok_r. rewrite !not_null by apply Hd.
  rewrite (st_bind_ok (ASSERT (negb (bool_decide (Some sv = None)))) _ _ tt m) by done.
  rewrite (st_bind_ok (ASSERT (negb (bool_decide (Some 0 = None)))) _ _ tt m) by done. cbv zeta.
  change (default NULL (Some sv)) with sv.
  assert (a =? NULL = false) as -> by (apply Z.eqb_neq; unfold NULL; lia). by rewrite He.
Qed.

Lemma strtok_step m a s :
  cstr m a s → cstr m d set →
  match find_index (λ x, negb (in_set set x)) s with
  | None => strtok_r a d (Some 0) m = Ok ((NULL, a + Z.of_nat (length s)), m)
  | Some i =>
    let t := drop i s in
    let n := default (length t) (find_index (in_set set) t) in
    ∃ p m', strtok_r a d (Some 0) m = Ok ((a + Z.of_nat i, p), m') ∧
      a + Z.of_nat (i + n) ≤ p ≤ a + Z.of_nat (length s) ∧
      cstr m' (a + Z.of_nat i) (take n t) ∧ cstr m' p (drop (S n) t) ∧
      p + Z.of_nat (length (drop (S n) t)) = a + Z.of_nat (length s) ∧
      (∀ x, ¬ (a ≤ x < a + Z.of_nat (length s)) → m' !! x = m !! x) ∧
      (drop (S n) t ≠ [] → a + Z.of_nat (i + n) < p)
  end.
Proof.
  intros Ha Hd. pose proof (cstr_pos _ _ _ Ha). pose proof (cstr_fuel _ _ _ Ha).
  unfold strtok_r. rewrite !not_null by apply Hd. rewrite (st_bind_ok _ _ _ tt m) by done.
  assert (a =? NULL = false) as E by (apply Z.eqb_neq; unfold NULL; lia). rewrite E.
  rewrite not_null, with_fuel by done.
  rewrite (st_bind_ok _ _ _ _ _ (skip_delimiters_ok m d set Hd s a (S (size m)) Ha ltac:(lia))).
  destruct (find_index (λ x, negb (in_set set x)) s) as [i|] eqn:Ei; [|done].
  apply find_index_lt in Ei. cbv zeta. set (t := drop i s).
  set (n := default (length t) (find_index (in_set set) t)).
  assert (Ht : cstr m (a + Z.of_nat i) t) by (apply cstr_drop; [done|lia]).
  assert (Hlt : (length t = length s - i)%nat) by (unfold t; by rewrite length_drop).
  assert (Hfuel : (length t < S (size m))%nat) by lia.
  rewrite (st_bind_ok _ _ _ _ _ (skip_token_ok m d set Hd t _ (S (size m)) Ht Hfuel)). fold n.
  destruct (find_index (in_set set) t) as [k|] eqn:Ek; simpl in n; subst n.
  - apply find_index_lt in Ek as Hk. destruct (lookup_lt_is_Some_2 t k Hk) as [c Hc].
    assert (Hmc : m !! (a + Z.of_nat i + Z.of_nat k) = Some c)
      by (apply (cstr_bytes _ _ _ Ht); by apply lookup_app_l_Some).
    assert (Hc0 : c =? 0 = false).
    { apply Z.eqb_neq. by apply (Forall_lookup_1 _ _ _ _ (cstr_chars _ _ _ Ht) Hc). }
    rewrite (get_byte_ok _ _ _ _ Hmc), Hc0. cbn [negb]. rewrite set_byte_ok by eauto.
    eexists _, _. split; [done|]. change (u8 0) with 0.
    assert (Hlen : length (drop (S k) t) = (length t - S k)%nat) by by rewrite length_drop.
    split; [lia|]. split; [apply cstr_cut; [done|lia]|]. split_and!.
    + eapply cstr_agree; [|intros x Hx; rewrite lookup_insert_ne; [done|lia]].
      replace (a + Z.of_nat i + Z.of_nat k + 1) with (a + Z.of_nat i + Z.of_nat (S k)) by lia.
      apply cstr_drop; [done|lia].
    + rewrite Hlen. lia.
    + intros x Hx. rewrite lookup_insert_ne by lia. done.
    + lia.
  - assert (Hm0 : m !! (a + Z.of_nat i + Z.of_nat (length t)) = Some 0).
    { apply (cstr_bytes _ _ _ Ht). by rewrite lookup_app_r, Nat.sub_diag by lia. }
    cbn [default]. rewrite (get_byte_ok _ _ _ _ Hm0). cbn [Z.eqb negb].
    eexists _, m. split; [done|]. rewrite drop_ge by lia. rewrite take_ge by lia. cbn [length].
    split; [lia|]. split; [done|]. split_and!; [|lia|done|done].
    apply cstr_nil. split; [lia|done].
Qed.

(** The loop of the function's documentation: call until no token is left. *)
Fixpoint tokenize (fuel : nat) (s save : Z) : st cmem (list Z) :=
  match fuel with
  | O => st_err NoFuel
  | S fuel =>
    r ← strtok_r s d (Some save);
    let '(token, save) := r in
    if token =? NULL then mret [] else
    ts ← tokenize fuel NULL save; mret (token :: ts)
  end.

Lemma tokenize_ok fuel : ∀ m a s s0 sv,
  cstr m a s → cstr m d set →
  d + Z.of_nat (length set) < a ∨ a + Z.of_nat (length s) < d →
  (if s0 =? NULL then sv else s0) = a → (length s < fuel)%nat →
  ∃ ts m', tokenize fuel s0 sv m = Ok (ts, m') ∧
    Forall2 (cstr m') ts (words set s) ∧
    (∀ x, ¬ (a ≤ x < a + Z.of_nat (length s)) → m' !! x = m !! x).
Proof.
  induction fuel as [|fuel IH]; intros m a s s0 sv Ha Hd Hsep He Hf; [lia|].
  pose proof (cstr_pos _ _ _ Ha). pose proof (strtok_step m a s Ha Hd) as Hst.
  cbn [tokenize]. rewrite words_skip.
  destruct (find_index _ s) as [i|] eqn:Ei.
  - cbv zeta in Hst |- *. set (t := drop i s) in *.
    set (n := default (length t) (find_index (in_set set) t)) in *.
    destruct Hst as (p & m1 & Hop & Hp & Ht1 & Ht2 & Hpl & Hfr & Hpn).
    apply find_index_lt in Ei.
    rewrite (st_bind_ok _ _ _ (a + Z.of_nat i, p) m1) by (rewrite strtok_start with (a := a); done).
    assert (a + Z.of_nat i =? NULL = false) as -> by (apply Z.eqb_neq; unfold NULL; lia).
    assert (Hd1 : cstr m1 d set) by (eapply cstr_agree; [done|intros; apply Hfr; lia]).
    assert (Hn : (length (take n t) = n)%nat).
    { rewrite length_take, Nat.min_l; [done|]. unfold n.
      destruct (find_index (in_set set) t) eqn:Ek; [apply find_index_lt in Ek|]; simpl; lia. }
    destruct (IH m1 p (drop (S n) t) NULL p Ht2 Hd1) as (ts & m2 & Hop2 & Hall & Hfr2).
    + lia.
    + done.
    + rewrite length_drop. unfold t. rewrite length_drop. lia.
    + exists ((a + Z.of_nat i) :: ts), m2. rewrite (st_bind_ok _ _ _ _ _ Hop2). split_and!; [done| |].
      * constructor; [|done]. eapply cstr_agree; [done|]. rewrite Hn. intros x Hx. apply Hfr2.
        destruct (drop (S n) t) eqn:Er; [simpl; lia|].
        assert (a + Z.of_nat (i + n) < p) by by apply Hpn. lia.
      * intros x Hx. rewrite Hfr2 by lia. apply Hfr. lia.
  - rewrite (st_bind_ok _ _ _ (NULL, a + Z.of_nat (length s)) m) by (rewrite strtok_start with (a := a); done).
    exists [], m. split_and!; [done|constructor|done].
Qed.
End tokens.

(** ** Theorems *)

(** C14: [memmove] copies as if through a temporary buffer, also when the blocks
    overlap, and changes nothing else.  Its result is [dst] when it copied
    backward, but one past the end of the destination when it copied forward. *)
Theorem memmove_overlap m dst src n :
  0 < dst → 0 < src → 0 ≤ n → mapped m dst n → mapped m src n →
  ∃ m', memmove dst src n m = Ok (if dst <? src then dst + n else dst, m') ∧ copied m m' dst src n.
Proof.
  intros Hd Hs Hn Md Ms. unfold memmove. do 2 (setoid_rewrite block_ok; [|lia]).
  destruct (Z.ltb_spec dst src).
  - destruct (copy_forward_ok (Z.to_nat n) m dst src) as (m' & Hop & Hc);
      rewrite ?Z2Nat.id by done; try done; [lia|]. rewrite Z2Nat.id in * by done. by exists m'.
  - destruct (copy_backward_ok (Z.to_nat n) m (dst + n) (src + n)) as (m' & Hop & Hc);
      rewrite ?Z2Nat.id, ?Z.add_simpl_r in * by done; try done; [lia|]. by exists m'.
Qed.

(** [strcmp] of two strings returns; the result is zero exactly for equal
    strings and otherwise tells which one comes first in the order of unsigned
    characters. *)
Theorem strcmp_orders m a b s t :
  cstr m a s → cstr m b t →
  ∃ r, strcmp a b m = Ok (r, m) ∧ compares s t r ∧ (r = 0 ↔ s = t).
Proof.
  intros Ha Hb. pose proof (cstr_fuel _ _ _ Ha).
  destruct (strcmp_loop_ok s m a b t (S (size m)) Ha Hb ltac:(lia)) as (r & Hr & Hc).
  exists r. unfold strcmp. rewrite !not_null, with_fuel by (apply Ha || apply Hb). split; [done|]. split; [done|]. split.
  - intros ->. apply compares_zero in Hc. symmetry in Hc. by apply bool_decide_eq_true in Hc.
  - intros ->. apply compares_zero in Hc. rewrite bool_decide_eq_true_2 in Hc by done.
    by apply Z.eqb_eq.
Qed.

(** [strlcpy] into a buffer of [size] bytes apart from the source writes the
    first [size - 1] characters and a terminator, never outside the buffer, and
    returns the length of the source. *)
Theorem strlcpy_truncates m dst src size s :
  0 < dst → cstr m src s → 0 ≤ size → mapped m dst size →
  src + Z.of_nat (length s) < dst ∨ dst + size ≤ src →
  ∃ m', strlcpy dst src size m = Ok (Z.of_nat (length s), m') ∧
    (0 < size → cstr m' dst (take (Z.to_nat (size - 1)) s)) ∧
    cstr m' src s ∧ (∀ x, ¬ (dst ≤ x < dst + size) → m' !! x = m !! x).
Proof.
  intros Hd Hs Hsz Hmap Ho. pose proof (cstr_pos _ _ _ Hs). unfold strlcpy.
  do 2 (setoid_rewrite not_null; [|done]). setoid_rewrite (st_bind_ok _ _ _ _ _ (strlen_ok m src s Hs)).
  destruct (Z.ltb_spec 0 size) as [Hp|Hp]; [|exists m; split_and!; try done; lia].
  cbv zeta. set (n := Nat.min (Z.to_nat (size - 1)) (length s)).
  assert ((if Z.of_nat (length s) <? size - 1 then Z.of_nat (length s) else size - 1) = Z.of_nat n) as ->
    by (unfold n; destruct (Z.ltb_spec (Z.of_nat (length s)) (size - 1)); lia).
  destruct (copy_string m dst src s n) as (m' & Hop & Hc & Hf); [done|done|lia| |lia|].
  { intros i Hi. apply Hmap. lia. }
  exists m'. rewrite (st_bind_ok _ _ _ _ _ Hop).
  assert (Hfr : ∀ x, ¬ (dst ≤ x < dst + size) → m' !! x = m !! x) by (intros; apply Hf; lia).
  split; [done|]. split; [|split; [|done]].
  - intros _. destruct (decide (length s ≤ Z.to_nat (size - 1))%nat).
    + rewrite take_ge in Hc |- * by lia. done.
    + replace n with (Z.to_nat (size - 1)) in Hc by lia. done.
  - eapply cstr_agree; [done|]. intros; apply Hfr; lia.
Qed.

(** [strstr] returns the first position at which the needle occurs in the
    haystack, and a null pointer when it occurs nowhere. *)
Theorem strstr_first m a b hay needle :
  cstr m a hay → cstr m b needle →
  ∃ r, strstr a b m = Ok (r, m) ∧
    ((∃ j, r = a + Z.of_nat j ∧ occurs_at needle hay j ∧
           ∀ j', (j' < j)%nat → ¬ occurs_at needle hay j')
     ∨ r = NULL ∧ ∀ j, ¬ occurs_at needle hay j).
Proof.
  intros Ha Hb. unfold strstr.
  setoid_rewrite (st_bind_ok _ _ _ _ _ (strlen_ok m a hay Ha)).
  setoid_rewrite (st_bind_ok _ _ _ _ _ (strlen_ok m b needle Hb)).
  destruct (Z.leb_spec (Z.of_nat (length needle)) (Z.of_nat (length hay))) as [Hle|Hle].
  - destruct (strstr_loop_ok m a b hay needle (S (length hay - length needle)) 0 Ha Hb) as (r & Hr & Hs); [lia|].
    exists r. replace (Z.to_nat _) with (S (length hay - length needle)) by lia. split; [done|].
    destruct Hs as [(j & -> & Ho & Hj)|[-> Hj]]; [left; exists j|right]; split_and!; try done;
      intros; apply Hj; lia.
  - exists NULL. split; [done|]. right. split; [done|]. intros j [? _]. lia.
Qed.

(** Calling [strtok_r] until it returns a null pointer yields exactly the
    maximal runs of non-delimiters of the string, in order, each as a
    null-terminated string, and writes only inside the string. *)
Theorem strtok_r_words m a d s set :
  cstr m a s → cstr m d set →
  d + Z.of_nat (length set) < a ∨ a + Z.of_nat (length s) < d →
  ∃ ts m', tokenize d (S (length s)) a 0 m = Ok (ts, m') ∧
    Forall2 (cstr m') ts (words set s) ∧
    (∀ x, ¬ (a ≤ x < a + Z.of_nat (length s)) → m' !! x = m !! x).
Proof.
  intros Ha Hd Hsep. apply tokenize_ok; try done; [|lia].
  pose proof (cstr_pos _ _ _ Ha). by assert (a =? NULL = false) as -> by (apply Z.eqb_neq; unfold NULL; lia).
Qed.

(** ** Witnesses: the strings "a-bc" at 100 and "-" at 200, a buffer at 300. *)

Definition demo : cmem :=
  list_to_map ((λ p, (100 + Z.of_nat p.1, p.2)) <$> imap (λ i c, (i, c)) [97; 45; 98; 99; 0])
  ∪ list_to_map [(200, 45); (201, 0); (300, 1); (301, 1); (302, 1)].

Lemma demo_s : cstr demo 100 [97; 45; 98; 99].
Proof.
  split; [lia|repeat constructor; unfold is_byte; lia|].
  intros [|[|[|[|[|i]]]]] c Hi; vm_compute in Hi; try congruence; injection Hi as <-; vm_compute; reflexivity.
Qed.

Lemma demo_d : cstr demo 200 [45].
Proof.
  split; [lia|repeat constructor; unfold is_byte; lia|].
  intros [|[|i]] c Hi; vm_compute in Hi; try congruence; injection Hi as <-; vm_compute; reflexivity.
Qed.

Lemma memmove_overlap_witness : ∃ m', memmove 100 101 3 demo = Ok (103, m') ∧ copied demo m' 100 101 3.
Proof.
  apply (memmove_overlap demo 100 101 3); [lia..| |].
  - apply (cstr_mapped _ _ _ _ demo_s). simpl. lia.
  - intros i Hi. destruct (cstr_mapped _ _ _ 5 demo_s) with (i := i + 1) as (c & Hc & Hb); [simpl; lia|lia|].
    exists c. split; [|done]. rewrite <- Hc. f_equal. lia.
Defined.

Lemma strcmp_orders_witness : ∃ r, strcmp 100 200 demo = Ok (r, demo) ∧ r ≠ 0.
Proof.
  destruct (strcmp_orders demo 100 200 _ _ demo_s demo_d) as (r & Hr & _ & He).
  exists r. split; [exact Hr|]. intros H0. apply He in H0. discriminate H0.
Defined.

Lemma strlcpy_truncates_witness :
  ∃ m', strlcpy 300 100 3 demo = Ok (4, m') ∧ cstr m' 300 [97; 45].
Proof.
  destruct (strlcpy_truncates demo 300 100 3 _ ltac:(lia) demo_s ltac:(lia)) as (m' & H1 & H2 & _).
  - intros i Hi. exists 1. assert (i = 0 ∨ i = 1 ∨ i = 2) as [->|[->| ->]] by lia; split; (reflexivity || unfold is_byte; lia).
  - simpl. lia.
  - exists m'. split; [exact H1|]. exact (H2 ltac:(lia)).
Defined.

Lemma strstr_first_witness : ∃ r, strstr 100 200 demo = Ok (r, demo) ∧ r = 101.
Proof.
  destruct (strstr_first demo 100 200 _ _ demo_s demo_d) as (r & Hr & _).
  exists r. split; [exact Hr|]. vm_compute in Hr. congruence.
Defined.

Lemma strtok_r_words_witness :
  ∃ ts m', tokenize 200 5 100 0 demo = Ok (ts, m') ∧ Forall2 (cstr m') ts [[97]; [98; 99]].
Proof.
  destruct (strtok_r_words demo 100 200 _ _ demo_s demo_d) as (ts & m' & H1 & H2 & _); [simpl; lia|].
  exists ts, m'. split; [exact H1|exact H2].
Defined.
End StringTheorems.
