(* ===== verification/StdlibC.v ===== *)
(** lib/stdlib.c: [atoi], the heap sort behind [sort] and [qsort], and binary
    search.

    The array being sorted is its sequence of bytes; element [i] (counted from
    one, as the code does) is the [size] bytes from offset [(i - 1) * size] on.
    A comparison function is a function of the two elements' bytes. *)
From S2P Require Import Prelude StringC.
Import StringC.
Local Open Scope Z_scope.

Module StdlibC.

(** ** include/lib/ctype.h *)

Definition isdigit (c : Z) : bool := (48 <=? c) && (c <=? 57).
Definition isspace (c : Z) : bool :=
  (c =? 32) || (c =? 12) || (c =? 10) || (c =? 13) || (c =? 9) || (c =? 11).

(** A [char], which is signed, as an [int]. *)
Definition char_int (c : Z) : Z := if c <? 128 then c else c - 256.

(** ** atoi *)

Fixpoint skip_space (fuel : nat) (s : Z) : st cmem Z :=
  match fuel with
  | O => st_err NoFuel
  | S fuel => c ← get_byte s; if isspace c then skip_space fuel (s + 1) else mret s
  end.

Fixpoint parse_digits (fuel : nat) (s value : Z) : st cmem Z :=
  match fuel with
  | O => st_err NoFuel
  | S fuel =>
    c ← get_byte s;
    if isdigit (char_int c) then parse_digits fuel (s + 1) (i32 (i32 (value * 10) - (c - 48)))
    else mret value
  end.

Definition atoi (s : Z) : st cmem Z :=
  ASSERT (negb (s =? NULL));;
  n ← loop_fuel;
  s ← skip_space n s;
  c ← get_byte s;
  let '(negative, s) := if c =? 43 then (false, s + 1)
                        else if c =? 45 then (true, s + 1) else (false, s) in
  value ← parse_digits n s 0;
  mret (if negative then value else i32 (- value)).

(** ** Sorting *)

Abbreviation bytes := (list Z).

Definition get_at (i : Z) : st bytes Z := λ a,
  match a !! Z.to_nat i with Some c => Ok (c, a) | None => Err BadAddr end.
Definition set_at (i c : Z) : st bytes unit := λ a,
  if decide (Z.to_nat i < length a)%nat then Ok (tt, <[Z.to_nat i := c]> a) else Err BadAddr.

(** [k] bytes are left, the next one is [i]; [a] and [b] are offsets. *)
Fixpoint swap_loop (k : nat) (a b i : Z) : st bytes unit :=
  match k with
  | O => mret tt
  | S k =>
    t ← get_at (a + i);
    x ← get_at (b + i); set_at (a + i) x;;
    set_at (b + i) t;;
    swap_loop k a b (i + 1)
  end.

Definition do_swap (a_idx b_idx size : Z) : st bytes unit :=
  swap_loop (Z.to_nat size) ((a_idx - 1) * size) ((b_idx - 1) * size) 0.

(** The [size] bytes at an offset. *)
Definition element (ofs size : Z) (a : bytes) : bytes :=
  take (Z.to_nat size) (drop (Z.to_nat ofs) a).

Definition compare_func : Type := bytes → bytes → Z.

Definition do_compare (a_idx b_idx size : Z) (compare : compare_func) : st bytes Z :=
  st_gets (λ a, compare (element ((a_idx - 1) * size) size a) (element ((b_idx - 1) * size) size a)).

Fixpoint heapify (fuel : nat) (i cnt size : Z) (compare : compare_func) : st bytes unit :=
  match fuel with
  | O => st_err NoFuel
  | S fuel =>
    let left := u64 (2 * i) in
    let right := u64 (2 * i + 1) in
    let max := i in
    max ← (if left <=? cnt then
             c ← do_compare left max size compare; mret (if 0 <? c then left else max)
           else mret max);
    max ← (if right <=? cnt then
             c ← do_compare right max size compare; mret (if 0 <? c then right else max)
           else mret max);
    if max =? i then mret tt
    else do_swap i max size;; heapify fuel max cnt size compare
  end.

(** The index at least doubles, so [cnt] iterations are more than enough. *)
Definition heapify_fuel (cnt : Z) : nat := S (Z.to_nat cnt).

(** [for (i = cnt / 2; i > 0; i--)] *)
Fixpoint build_loop (i : nat) (cnt size : Z) (compare : compare_func) : st bytes unit :=
  match i with
  | O => mret tt
  | S i' => heapify (heapify_fuel cnt) (Z.of_nat i) cnt size compare;;
            build_loop i' cnt size compare
  end.

(** [for (i = cnt; i > 1; i--)] *)
Fixpoint sort_loop (i : nat) (size : Z) (compare : compare_func) : st bytes unit :=
  match i with
  | O => mret tt
  | S i' =>
    if (1 <? i)%nat then
      do_swap 1 (Z.of_nat i) size;;
      heapify (heapify_fuel (Z.of_nat i')) 1 (Z.of_nat i') size compare;;
      sort_loop i' size compare
    else mret tt
  end.

(** [compare] is a function here, so never a null pointer. *)
Definition sort (array cnt size : Z) (compare : compare_func) : st bytes unit :=
  ASSERT (negb (array =? NULL) || (cnt =? 0));;
  ASSERT (0 <? size);;
  build_loop (Z.to_nat (cnt / 2)) cnt size compare;;
  sort_loop (Z.to_nat cnt) size compare.

Definition compare_thunk (compare : compare_func) : compare_func := λ a b, compare a b.

Definition qsort (array cnt size : Z) (compare : compare_func) : st bytes unit :=
  sort array cnt size (compare_thunk compare).

(** ** Searching *)

Fixpoint search_loop (fuel : nat) (key : bytes) (array first last size : Z)
    (compare : compare_func) : st bytes Z :=
  match fuel with
  | O => st_err NoFuel
  | S fuel =>
    if first <? last then
      let range := (last - first) / size in
      let middle := first + (range / 2) * size in
      cmp ← st_gets (λ a, compare key (element (middle - array) size a));
      if cmp <? 0 then search_loop fuel key array first middle size compare
      else if 0 <? cmp then search_loop fuel key array (middle + size) last size compare
      else mret middle
    else mret NULL
  end.

Definition binary_search (key : bytes) (array cnt size : Z) (compare : compare_func) : st bytes Z :=
  search_loop (S (Z.to_nat cnt)) key array array (array + size * cnt) size compare.

Definition bsearch (key : bytes) (array cnt size : Z) (compare : compare_func) : st bytes Z :=
  binary_search key array cnt size (compare_thunk compare).

End StdlibC.
