(* ===== verification/StdlibTheorems.v ===== *)
(** lib/stdlib.c: [sort] leaves a sorted permutation of the elements,
    [binary_search] finds a match in a sorted array, [atoi] returns the number
    written. *)
From S2P Require Import Prelude StringC StringTheorems StdlibC.
Import StringC StringTheorems StdlibC.
Local Open Scope Z_scope.

Module StdlibTheorems.

(** ** Arrays of fixed-size elements *)

Section elements.
Context (n : nat) (Hn : (0 < n)%nat).

(** The bytes [a] are the elements [es], of [n] bytes each. *)
Definition elems (a : bytes) (es : list bytes) : Prop :=
  a = concat es ∧ Forall (λ e : bytes, length e = n) es.

(** Element number [i], from one. *)
Definition elt (es : list bytes) (i : nat) : bytes := es !!! (i - 1)%nat.

Definition exchange (es : list bytes) (i j : nat) : list bytes :=
  <[(j - 1)%nat := elt es i]> (<[(i - 1)%nat := elt es j]> es).

Lemma concat_length es : Forall (λ e : bytes, length e = n) es → length (concat es) = (length es * n)%nat.
Proof. induction 1 as [|e es He _ IH]; [done|]. simpl. rewrite length_app, IH. lia. Qed.

Lemma concat_lookup es x :
  Forall (λ e : bytes, length e = n) es →
  concat es !! x = e ← es !! (x / n)%nat; e !! (x mod n)%nat.
Proof using Hn.
  intros H. revert x. induction H as [|e es He _ IH]; intros x; [done|]. simpl.
  destruct (decide (x < n)%nat).
  - rewrite Nat.div_small, Nat.mod_small, lookup_app_l by lia. done.
  - rewrite lookup_app_r by lia. rewrite IH, He.
    assert (Hx : x = (x - n + 1 * n)%nat) by lia.
    assert (x / n = S ((x - n) / n))%nat as -> by (rewrite Hx at 1; rewrite Nat.div_add by lia; lia).
    assert (x mod n = (x - n) mod n)%nat as -> by (rewrite Hx at 1; by rewrite Nat.Div0.mod_add).
    done.
Qed.

Lemma concat_drop es k :
  Forall (λ e : bytes, length e = n) es → drop (k * n) (concat es) = concat (drop k es).
Proof.
  intros H. revert k. induction H as [|e es He _ IH]; intros [|k]; simpl; try done.
  { by rewrite drop_nil. }
  rewrite drop_app_ge by lia. rewrite <- IH. f_equal. lia.
Qed.

Lemma element_ok a es i :
  elems a es → (1 ≤ i ≤ length es)%nat →
  element ((Z.of_nat i - 1) * Z.of_nat n) (Z.of_nat n) a = elt es i.
Proof.
  intros [-> Hf] Hi. unfold element, elt.
  replace (Z.to_nat ((Z.of_nat i - 1) * Z.of_nat n)) with ((i - 1) * n)%nat
    by (rewrite <- (Nat2Z.id ((i - 1) * n)); f_equal; nia).
  rewrite Nat2Z.id, concat_drop by done.
  destruct (lookup_lt_is_Some_2 es (i - 1)) as [e He]; [lia|].
  rewrite (list_lookup_total_correct _ _ _ He), (drop_S _ _ _ He). simpl.
  apply take_app_length'. symmetry. apply (Forall_lookup_1 _ _ _ _ Hf He).
Qed.

(** ** Swapping *)

Definition swapped (a a' : bytes) (p q i k : nat) : Prop :=
  length a' = length a ∧
  ∀ x, a' !! x = if decide (p + i ≤ x < p + i + k)%nat then a !! (q + (x - p))%nat
                 else if decide (q + i ≤ x < q + i + k)%nat then a !! (p + (x - q))%nat
                 else a !! x.

Lemma swap_loop_ok k : ∀ a p q i,
  (p + i + k ≤ q ∨ q + i + k ≤ p)%nat → (p + i + k ≤ length a)%nat → (q + i + k ≤ length a)%nat →
  ∃ a', swap_loop k (Z.of_nat p) (Z.of_nat q) (Z.of_nat i) a = Ok (tt, a') ∧ swapped a a' p q i k.
Proof.
  induction k as [|k IH]; intros a p q i Hpq Hp Hq.
  { exists a. split; [done|]. split; [done|]. intros x. by rewrite !decide_False by lia. }
  cbn [swap_loop]. rewrite <- !Nat2Z.inj_add. unfold get_at, set_at, mbind, st_bind.
  rewrite !Nat2Z.id.
  destruct (lookup_lt_is_Some_2 a (p + i)) as [x Hx]; [lia|].
  destruct (lookup_lt_is_Some_2 a (q + i)) as [y Hy]; [lia|]. rewrite Hx, Hy.
  rewrite !decide_True by (rewrite ?length_insert; lia).
  replace (Z.of_nat i + 1) with (Z.of_nat (S i)) by lia.
  destruct (IH (<[(q + i)%nat := x]> (<[(p + i)%nat := y]> a)) p q (S i)) as (a' & Hop & Hl & Ha);
    rewrite ?length_insert; [lia..|].
  exists a'. split; [done|]. rewrite !length_insert in Hl. split; [done|]. intros z. rewrite Ha.
  destruct (decide (z = p + i)%nat) as [->|].
  { rewrite !decide_False by lia. rewrite decide_True by lia.
    rewrite list_lookup_insert_ne, list_lookup_insert_eq by lia. rewrite <- Hy. f_equal. lia. }
  destruct (decide (z = q + i)%nat) as [->|].
  { rewrite !decide_False by lia. rewrite decide_True by lia.
    rewrite list_lookup_insert_eq by (rewrite length_insert; lia). rewrite <- Hx. f_equal. lia. }
  repeat case_decide; try lia; rewrite !list_lookup_insert_ne by lia; done.
Qed.

Lemma do_swap_ok a es i j :
  elems a es → (1 ≤ i ≤ length es)%nat → (1 ≤ j ≤ length es)%nat → i ≠ j →
  ∃ a', do_swap (Z.of_nat i) (Z.of_nat j) (Z.of_nat n) a = Ok (tt, a') ∧ elems a' (exchange es i j).
Proof using Hn.
  intros [-> Hf] Hi Hj Hij. unfold do_swap. pose proof (concat_length es Hf) as Hlen.
  replace ((Z.of_nat i - 1) * Z.of_nat n) with (Z.of_nat ((i - 1) * n)) by nia.
  replace ((Z.of_nat j - 1) * Z.of_nat n) with (Z.of_nat ((j - 1) * n)) by nia. rewrite Nat2Z.id.
  destruct (swap_loop_ok n (concat es) ((i - 1) * n) ((j - 1) * n) 0) as (a' & Hop & Hl & Ha); [nia..|].
  exists a'. split; [done|].
  destruct (lookup_lt_is_Some_2 es (i - 1)) as [x Hx]; [lia|].
  destruct (lookup_lt_is_Some_2 es (j - 1)) as [y Hy]; [lia|].
  assert (Hf' : Forall (λ e : bytes, length e = n) (exchange es i j)).
  { unfold exchange, elt. rewrite (list_lookup_total_correct _ _ _ Hx), (list_lookup_total_correct _ _ _ Hy).
    apply Forall_insert; [apply Forall_insert; [done|]|]; rewrite Forall_lookup in Hf; eauto. }
  split; [|done]. apply list_eq. intros z. rewrite Ha, !concat_lookup by done.
  pose proof (Nat.div_mod_eq z n). pose proof (Nat.mod_upper_bound z n ltac:(lia)).
  assert (Hblock : ∀ k, (k * n + 0 ≤ z < k * n + 0 + n)%nat ↔ (z / n = k)%nat) by (intros; nia).
  assert (Hshift : ∀ k p, (z / n = k)%nat → ((p * n + (z - k * n)) / n = p ∧ (p * n + (z - k * n)) mod n = z mod n)%nat).
  { intros k p Hk. assert (z - k * n = z mod n)%nat as -> by nia.
    rewrite Nat.add_comm, Nat.div_add, Nat.Div0.mod_add by lia.
    rewrite (Nat.div_small (z mod n)), Nat.Div0.mod_mod by lia. done. }
  unfold exchange, elt. rewrite (list_lookup_total_correct _ _ _ Hx), (list_lookup_total_correct _ _ _ Hy).
  destruct (decide (z / n = i - 1)%nat) as [Ei|Ei].
  { rewrite decide_True by (by apply Hblock). destruct (Hshift _ (j - 1)%nat Ei) as [-> ->].
    rewrite Ei, Hy, list_lookup_insert_ne, list_lookup_insert_eq by lia. done. }
  rewrite decide_False by (rewrite Hblock; done).
  destruct (decide (z / n = j - 1)%nat) as [Ej|Ej].
  { rewrite decide_True by (by apply Hblock). destruct (Hshift _ (i - 1)%nat Ej) as [-> ->].
    rewrite Ej, Hx, list_lookup_insert_eq by (rewrite length_insert; lia). done. }
  rewrite decide_False by (rewrite Hblock; done). by rewrite !list_lookup_insert_ne by lia.
Qed.

End elements.

Lemma elt_exchange es i j k :
  (1 ≤ i ≤ length es)%nat → (1 ≤ j ≤ length es)%nat → (1 ≤ k)%nat →
  elt (exchange es i j) k = if decide (k = j) then elt es i else if decide (k = i) then elt es j else elt es k.
Proof.
  intros Hi Hj Hk. unfold elt at 1. unfold exchange. destruct (decide (k = j)) as [->|].
  { by rewrite list_lookup_total_insert_eq by (rewrite length_insert; lia). }
  rewrite list_lookup_total_insert_ne by lia. destruct (decide (k = i)) as [->|].
  { by rewrite list_lookup_total_insert_eq by lia. }
  by rewrite list_lookup_total_insert_ne by lia.
Qed.

Lemma exchange_perm es i j c :
  (1 ≤ i ≤ c)%nat → (1 ≤ j ≤ c)%nat → (c ≤ length es)%nat →
  take c (exchange es i j) ≡ₚ take c es ∧ drop c (exchange es i j) = drop c es.
Proof.
  intros Hi Hj Hc. unfold exchange. split.
  - rewrite !take_insert_lt by lia.
    destruct (lookup_lt_is_Some_2 es (i - 1)) as [x Hx]; [lia|].
    destruct (lookup_lt_is_Some_2 es (j - 1)) as [y Hy]; [lia|].
    unfold elt. rewrite (list_lookup_total_correct _ _ _ Hx), (list_lookup_total_correct _ _ _ Hy).
    apply Permutation_insert_swap; by rewrite lookup_take_lt by lia.
  - by rewrite !drop_insert_lt by lia.
Qed.

Lemma length_exchange es i j : length (exchange es i j) = length es.
Proof. unfold exchange. by rewrite !length_insert. Qed.

(** ** The heap *)

(** What the comment of [sort] asks of a comparison: a strcmp()-type result
    that orders the elements. *)
Class Comparison (compare : compare_func) : Prop := {
  compare_opp x y : 0 < compare x y ↔ compare y x < 0;
  compare_trans x y z : compare x y ≤ 0 → compare y z ≤ 0 → compare x z ≤ 0 }.

Section heap.
Context (compare : compare_func) `{!Comparison compare}.

Definition le (x y : bytes) : Prop := compare x y ≤ 0.

Lemma compare_total x y : 0 < compare x y → compare y x ≤ 0.
Proof using Comparison0. rewrite compare_opp. lia. Qed.

Lemma le_refl x : le x x.
Proof using Comparison0.
  unfold le. destruct (decide (compare x x ≤ 0)); [done|]. apply compare_total. lia.
Qed.

(** No element from [lo] on is smaller than its children, ... *)
Definition heap (es : list bytes) (lo cnt : nat) : Prop :=
  ∀ j, (2 ≤ j ≤ cnt)%nat → (lo ≤ j / 2)%nat → le (elt es j) (elt es (j / 2)).

(** ... except perhaps [i], whose children are not larger than its parent. *)
Definition heap_hole (es : list bytes) (lo cnt i : nat) : Prop :=
  (∀ j, (2 ≤ j ≤ cnt)%nat → (lo ≤ j / 2)%nat → (j / 2 ≠ i)%nat → le (elt es j) (elt es (j / 2))) ∧
  (∀ j, (2 ≤ j ≤ cnt)%nat → (j / 2 = i)%nat → (lo ≤ i / 2)%nat → le (elt es j) (elt es (i / 2))).

(** [m] is the index of the largest among [i] and its children. *)
Definition largest (es : list bytes) (cnt i m : nat) : Prop :=
  (m = i ∨ (m ≤ cnt)%nat ∧ (m / 2 = i)%nat) ∧ le (elt es i) (elt es m) ∧
  ∀ j, (2 ≤ j ≤ cnt)%nat → (j / 2 = i)%nat → le (elt es j) (elt es m).

Lemma half_cases i j : (j / 2 = i → j = 2 * i ∨ j = 2 * i + 1)%nat.
Proof. intros H. pose proof (Nat.div_mod_eq j 2). pose proof (Nat.mod_upper_bound j 2). lia. Qed.

Lemma half_even i : (2 * i / 2 = i)%nat.
Proof. rewrite Nat.mul_comm. by apply Nat.div_mul. Qed.

Lemma half_odd i : ((2 * i + 1) / 2 = i)%nat.
Proof. rewrite Nat.mul_comm, Nat.div_add_l by lia. simpl. lia. Qed.

Lemma heap_done es lo cnt i : heap_hole es lo cnt i → largest es cnt i i → heap es lo cnt.
Proof.
  intros [H1 _] (_ & _ & H2) j Hj Hlo. destruct (decide (j / 2 = i)%nat) as [He|He].
  - rewrite He. by apply H2.
  - by apply H1.
Qed.

Lemma heap_sift es lo cnt i m :
  (1 ≤ lo ≤ i)%nat → (cnt ≤ length es)%nat → (i ≤ cnt)%nat →
  heap_hole es lo cnt i → largest es cnt i m → m ≠ i →
  (i < m ≤ cnt)%nat ∧ heap_hole (exchange es i m) lo cnt m.
Proof.
  intros Hlo Hl Hi [H1 H2] ([->|[Hm Hp]] & Him & Hc) Hne; [done|].
  assert (Hlt : (i < m)%nat) by (destruct (half_cases _ _ Hp); lia). split; [lia|].
  assert (Hhalf : ∀ k, (2 ≤ k → 1 ≤ k / 2 < k)%nat)
    by (intros k ?; pose proof (Nat.div_mod_eq k 2); pose proof (Nat.mod_upper_bound k 2); lia).
  split.
  - intros j Hj Hj2 Hjm. pose proof (Hhalf j ltac:(lia)). rewrite !elt_exchange by lia.
    rewrite (decide_False (P := (j / 2)%nat = m)) by done.
    destruct (decide (j = m)) as [->|]; [by rewrite (decide_True (P := (m / 2)%nat = i)) by done|].
    destruct (decide (j = i)) as [->|].
    { rewrite (decide_False (P := (i / 2)%nat = i)) by lia. apply H2; [lia|done..]. }
    destruct (decide ((j / 2)%nat = i)) as [He|He]; [by apply Hc|by apply H1].
  - intros j Hj Hj2 Hj3. pose proof (Hhalf j ltac:(lia)). rewrite Hp in *. rewrite !elt_exchange by lia.
    rewrite (decide_False (P := j = m)), (decide_False (P := j = i)), (decide_False (P := i = m)),
      (decide_True (P := i = i)) by lia.
    rewrite <- Hj2. apply H1; lia.
Qed.
End heap.

Section sorting.
Context (compare : compare_func) `{!Comparison compare}.
Context (n : nat) (Hn : (0 < n)%nat).

Abbreviation le := (le compare).

Lemma do_compare_ok {A} (k : Z → st bytes A) a es i j :
  elems n a es → (1 ≤ i ≤ length es)%nat → (1 ≤ j ≤ length es)%nat →
  (do_compare (Z.of_nat i) (Z.of_nat j) (Z.of_nat n) compare ≫= k) a = k (compare (elt es i) (elt es j)) a.
Proof using Hn.
  intros Ha Hi Hj. apply st_bind_ok. unfold do_compare, st_gets.
  by rewrite !(element_ok n) with (es := es) by done.
Qed.

(** One of the two tests of the loop body: [j] replaces [m] when it is larger. *)
Lemma pick_ok {A} (k : Z → st bytes A) a es cnt m j :
  elems n a es → (cnt ≤ length es)%nat → (1 ≤ m ≤ cnt)%nat → (1 ≤ j)%nat →
  ∃ m', ((if Z.of_nat j <=? Z.of_nat cnt then
            c ← do_compare (Z.of_nat j) (Z.of_nat m) (Z.of_nat n) compare;
            mret (if 0 <? c then Z.of_nat j else Z.of_nat m)
          else mret (Z.of_nat m)) ≫= k) a = k (Z.of_nat m') a ∧
    (m' = m ∨ m' = j ∧ (j ≤ cnt)%nat) ∧ le (elt es m) (elt es m') ∧
    ((j ≤ cnt)%nat → le (elt es j) (elt es m')).
Proof using Hn Comparison0.
  intros Ha Hc Hm Hj. destruct (Z.leb_spec (Z.of_nat j) (Z.of_nat cnt)).
  - destruct (decide (0 < compare (elt es j) (elt es m))) as [Hgt|Hle].
    + exists j. split; [|split_and!; [right; lia|by apply compare_total|intros; by apply le_refl]].
      rewrite st_bind_assoc. rewrite (do_compare_ok _ a es) by (done || lia).
      by apply Z.ltb_lt in Hgt as ->.
    + exists m. split; [|split_and!; [by left|by apply le_refl|intros; unfold StdlibTheorems.le; lia]].
      rewrite st_bind_assoc. rewrite (do_compare_ok _ a es) by (done || lia).
      by assert (0 <? compare (elt es j) (elt es m) = false) as -> by (apply Z.ltb_ge; lia).
  - exists m. split; [done|]. split_and!; [by left|by apply le_refl|lia].
Qed.

(** The elements before [cnt] are permuted, the others stay. *)
Definition reordered (cnt : nat) (es es' : list bytes) : Prop :=
  take cnt es' ≡ₚ take cnt es ∧ drop cnt es' = drop cnt es ∧ length es' = length es.

Lemma reordered_trans cnt es1 es2 es3 :
  reordered cnt es1 es2 → reordered cnt es2 es3 → reordered cnt es1 es3.
Proof. intros (H1 & H2 & H3) (H4 & H5 & H6). split_and!; [by rewrite H4|congruence|congruence]. Qed.

Lemma exchange_reordered cnt es i j :
  (1 ≤ i ≤ cnt)%nat → (1 ≤ j ≤ cnt)%nat → (cnt ≤ length es)%nat → reordered cnt es (exchange es i j).
Proof.
  intros Hi Hj Hc. destruct (exchange_perm es i j cnt) as [H1 H2]; [done..|].
  split_and!; [done|done|apply length_exchange].
Qed.

Lemma heapify_ok fuel : ∀ a es lo cnt i,
  elems n a es → (cnt ≤ length es)%nat → Z.of_nat cnt < 2 ^ 62 → (1 ≤ lo ≤ i)%nat → (i ≤ cnt)%nat →
  heap_hole compare es lo cnt i → (cnt - i < fuel)%nat →
  ∃ a' es', heapify fuel (Z.of_nat i) (Z.of_nat cnt) (Z.of_nat n) compare a = Ok (tt, a') ∧
    elems n a' es' ∧ heap compare es' lo cnt ∧ reordered cnt es es'.
Proof using Hn Comparison0.
  induction fuel as [|fuel IH]; intros a es lo cnt i Ha Hc Hmax Hlo Hi Hh Hf; [lia|].
  cbn [heapify]. cbv zeta.
  replace (u64 (2 * Z.of_nat i)) with (Z.of_nat (2 * i)) by (rewrite u64_small; lia).
  replace (u64 (2 * Z.of_nat i + 1)) with (Z.of_nat (2 * i + 1)) by (rewrite u64_small; lia).
  edestruct (λ k, pick_ok (A := unit) k a es cnt i (2 * i) Ha Hc) as (m1 & -> & Hm1 & Hle1 & Hc1); [lia..|].
  edestruct (λ k, pick_ok (A := unit) k a es cnt m1 (2 * i + 1) Ha Hc) as (m & -> & Hm & Hle & Hc2); [lia..|].
  assert (Hlarge : largest compare es cnt i m).
  { split_and!.
    - destruct Hm as [->|[-> ?]]; [destruct Hm1 as [->|[-> ?]]|].
      + by left.
      + right. split; [done|apply half_even].
      + right. split; [done|apply half_odd].
    - eapply compare_trans; [exact Hle1|exact Hle].
    - intros j Hj Hjp. apply half_cases in Hjp as [->| ->].
      + eapply compare_trans; [apply Hc1; lia|exact Hle].
      + apply Hc2; lia. }
  destruct (Z.eqb_spec (Z.of_nat m) (Z.of_nat i)) as [He|Hne].
  - assert (m = i) as -> by lia. exists a, es. split_and!; [done|done|by eapply heap_done|done].
  - destruct (heap_sift compare es lo cnt i m) as [Hlt Hh']; [done..|lia|].
    destruct (do_swap_ok n Hn a es i m Ha) as (a1 & Hop & Ha1); [lia..|].
    rewrite (st_bind_ok _ _ _ _ _ Hop).
    destruct (IH a1 (exchange es i m) lo cnt m Ha1) as (a2 & es2 & Hop2 & Ha2 & Hheap & Hr);
      rewrite ?length_exchange; [done|done|lia|lia|done|lia|].
    exists a2, es2. split_and!; [done|done|done|]. eapply reordered_trans; [|done].
    apply exchange_reordered; lia.
Qed.

Lemma build_loop_ok k : ∀ a es cnt,
  elems n a es → (cnt ≤ length es)%nat → Z.of_nat cnt < 2 ^ 62 → (k ≤ cnt)%nat →
  heap compare es (S k) cnt →
  ∃ a' es', build_loop k (Z.of_nat cnt) (Z.of_nat n) compare a = Ok (tt, a') ∧
    elems n a' es' ∧ heap compare es' 1 cnt ∧ reordered cnt es es'.
Proof using Hn Comparison0.
  induction k as [|k IH]; intros a es cnt Ha Hc Hmax Hk Hh.
  { exists a, es. split_and!; done. }
  cbn [build_loop].
  destruct (heapify_ok (heapify_fuel (Z.of_nat cnt)) a es (S k) cnt (S k)) as (a1 & es1 & Hop & Ha1 & Hh1 & Hr1).
  { done. } { done. } { done. } { lia. } { done. }
  { split; [intros j Hj Hlo Hne; apply Hh; lia|]. intros j _ _ Hlo.
    pose proof (Nat.div_mod_eq (S k) 2). lia. }
  { unfold heapify_fuel. lia. }
  rewrite (st_bind_ok _ _ _ _ _ Hop). destruct Hr1 as (Hp1 & Hd1 & Hl1).
  destruct (IH a1 es1 cnt Ha1) as (a2 & es2 & Hop2 & Ha2 & Hh2 & Hr2); [lia|done|lia|done|].
  exists a2, es2. split_and!; [done|done|done|]. by eapply reordered_trans.
Qed.

(** The root is the largest element of the heap. *)
Lemma heap_root es cnt : heap compare es 1 cnt → ∀ p, (1 ≤ p ≤ cnt)%nat → le (elt es p) (elt es 1).
Proof using Hn Comparison0.
  intros Hh p. induction p as [p IH] using lt_wf_ind. intros Hp.
  destruct (decide (p = 1%nat)) as [->|]; [by apply le_refl|].
  pose proof (Nat.div_mod_eq p 2). pose proof (Nat.mod_upper_bound p 2).
  eapply compare_trans; [apply (Hh p)|apply IH]; lia.
Qed.

Lemma elem_take_elt es cnt x :
  (cnt ≤ length es)%nat → x ∈ take cnt es → ∃ p, (1 ≤ p ≤ cnt)%nat ∧ x = elt es p.
Proof.
  intros Hc Hx. apply list_elem_of_lookup in Hx as [p Hp]. pose proof (lookup_lt_Some _ _ _ Hp) as Hlt.
  rewrite length_take in Hlt. rewrite lookup_take_lt in Hp by lia.
  exists (S p). split; [lia|]. unfold elt. replace (S p - 1)%nat with p by lia.
  by rewrite (list_lookup_total_correct _ _ _ Hp).
Qed.

(** The part behind [i] is sorted and not smaller than the part before. *)
Definition partial_sorted (es : list bytes) (i : nat) : Prop :=
  StronglySorted le (drop i es) ∧ ∀ x y, x ∈ take i es → y ∈ drop i es → le x y.

Lemma drop_elt es i : (S i ≤ length es)%nat → drop i es = elt es (S i) :: drop (S i) es.
Proof.
  intros H. destruct (lookup_lt_is_Some_2 es i) as [e He]; [lia|].
  rewrite (drop_S _ _ _ He). unfold elt. replace (S i - 1)%nat with i by lia.
  by rewrite (list_lookup_total_correct _ _ _ He).
Qed.

(** Moving the root behind the heap. *)
Lemma move_root es i :
  (1 ≤ i)%nat → (S i ≤ length es)%nat → heap compare es 1 (S i) → partial_sorted es (S i) →
  partial_sorted (exchange es 1 (S i)) i ∧ heap_hole compare (exchange es 1 (S i)) 1 i 1.
Proof using Hn Comparison0.
  intros Hi Hl Hh [Hs Hle]. set (es1 := exchange es 1 (S i)).
  destruct (exchange_perm es 1 (S i) (S i)) as [Hp Hd]; [lia..|]. fold es1 in Hp, Hd.
  assert (Hlast : elt es1 (S i) = elt es 1) by (unfold es1; rewrite elt_exchange by lia; by rewrite decide_True).
  assert (Hdrop : drop i es1 = elt es 1 :: drop (S i) es)
    by (rewrite drop_elt by (unfold es1; rewrite length_exchange; lia); by rewrite Hlast, Hd).
  assert (Hroot : elt es 1 ∈ take (S i) es).
  { apply list_elem_of_lookup_2 with 0%nat. rewrite lookup_take_lt by lia.
    unfold elt. simpl. by apply list_lookup_lookup_total_lt; lia. }
  split; [split|split].
  - rewrite Hdrop. constructor; [done|]. apply Forall_forall. intros y Hy. by apply Hle.
  - intros x y Hx. rewrite Hdrop, elem_of_cons.
    assert (Hx' : x ∈ take (S i) es).
    { rewrite <- Hp, <- (take_drop i (take (S i) es1)), take_take, Nat.min_l by lia.
      apply elem_of_app. by left. }
    intros [->|Hy]; [|by apply Hle]. destruct (elem_take_elt es (S i) x Hl Hx') as (p & Hp' & ->).
    by apply (heap_root es (S i)).
  - intros j Hj Hlo Hne. pose proof (Nat.div_mod_eq j 2). pose proof (Nat.mod_upper_bound j 2).
    unfold es1. rewrite !elt_exchange by lia. rewrite !decide_False by lia. apply Hh; lia.
  - intros j _ _ Hlo. simpl in Hlo. lia.
Qed.

Lemma heap_sort_loop_ok i : ∀ a es,
  elems n a es → (i ≤ length es)%nat → Z.of_nat (length es) < 2 ^ 62 →
  heap compare es 1 i → partial_sorted es i →
  ∃ a' es', sort_loop i (Z.of_nat n) compare a = Ok (tt, a') ∧
    elems n a' es' ∧ StronglySorted le es' ∧ es' ≡ₚ es.
Proof using Hn Comparison0.
  induction i as [|i IH]; intros a es Ha Hi Hmax Hh Hps.
  { exists a, es. destruct Hps as [Hs _]. by rewrite drop_0 in Hs. }
  cbn [sort_loop]. destruct (Nat.ltb_spec 1 (S i)) as [H1|H1].
  - destruct (do_swap_ok n Hn a es 1 (S i) Ha) as (a1 & Hop & Ha1); [lia..|].
    change (Z.of_nat 1) with 1 in Hop. rewrite (st_bind_ok _ _ _ _ _ Hop).
    destruct (move_root es i) as [Hps1 Hh1]; [lia|done..|].
    destruct (heapify_ok (heapify_fuel (Z.of_nat i)) a1 (exchange es 1 (S i)) 1 i 1)
      as (a2 & es2 & Hop2 & Ha2 & Hh2 & Hp2 & Hd2 & Hl2); rewrite ?length_exchange; try (done || lia).
    { unfold heapify_fuel. lia. }
    change (Z.of_nat 1) with 1 in Hop2. rewrite (st_bind_ok _ _ _ _ _ Hop2). rewrite length_exchange in Hl2.
    destruct (IH a2 es2) as (a3 & es3 & Hop3 & Ha3 & Hs3 & Hp3); [done|lia|by rewrite Hl2|done| |].
    { destruct Hps1 as [Hs1 Hle1]. split; rewrite Hd2; [done|]. intros x y. rewrite Hp2. apply Hle1. }
    exists a3, es3. split_and!; [done..|].
    assert (He : es2 ≡ₚ exchange es 1 (S i)).
    { rewrite <- (take_drop i es2), <- (take_drop i (exchange es 1 (S i))), Hp2, Hd2. done. }
    rewrite Hp3, He. destruct (exchange_perm es 1 (S i) (S i)) as [Hp Hd]; [lia..|].
    rewrite <- (take_drop (S i) es) at 2. rewrite <- Hp, <- Hd. by rewrite take_drop.
  - assert (i = 0%nat) as -> by lia. exists a, es. split_and!; [done..| |done].
    destruct Hps as [Hs Hle], es as [|e es]; [simpl in Hi; lia|]. simpl in Hs, Hle. rewrite drop_0 in Hs, Hle.
    constructor; [done|]. apply Forall_forall. intros y Hy. apply Hle; [left|done].
Qed.

Lemma sort_ok array a es :
  array ≠ NULL → elems n a es → Z.of_nat (length es) < 2 ^ 62 →
  ∃ a' es', sort array (Z.of_nat (length es)) (Z.of_nat n) compare a = Ok (tt, a') ∧
    elems n a' es' ∧ StronglySorted le es' ∧ es' ≡ₚ es.
Proof using Hn Comparison0.
  intros Hnull Ha Hmax. unfold sort.
  rewrite (st_bind_ok _ _ _ tt a) by (apply ASSERT_true; by apply Z.eqb_neq in Hnull as ->).
  rewrite (st_bind_ok _ _ _ tt a) by (apply ASSERT_true, Z.ltb_lt; lia).
  replace (Z.to_nat (Z.of_nat (length es) / 2)) with (length es / 2)%nat
    by (change 2 with (Z.of_nat 2); by rewrite <- Nat2Z.inj_div, Nat2Z.id).
  pose proof (Nat.div_mod_eq (length es) 2). pose proof (Nat.mod_upper_bound (length es) 2).
  destruct (build_loop_ok (length es / 2) a es (length es)) as (a1 & es1 & Hop1 & Ha1 & Hh1 & Hp1 & _ & Hl1);
    [done|lia|done|lia| |].
  { intros j Hj Hlo. pose proof (Nat.Div0.div_le_mono j (length es) 2). lia. }
  rewrite (st_bind_ok _ _ _ _ _ Hop1), Nat2Z.id.
  destruct (heap_sort_loop_ok (length es) a1 es1) as (a2 & es2 & Hop2 & Ha2 & Hs2 & Hp2); [done|lia|by rewrite Hl1|done| |].
  { unfold partial_sorted. rewrite drop_ge by lia. split; [constructor|]. intros x y _ Hy. inversion Hy. }
  exists a2, es2. split_and!; [done..|]. rewrite Hp2. by rewrite !take_ge in Hp1 by lia.
Qed.

(** ** Binary search *)

Section search.
Context (key : bytes) (array : Z) (a : bytes) (es : list bytes).
Hypothesis Ha : elems n a es.
Hypothesis Hs : StronglySorted le es.

Lemma sorted_elt p q : (1 ≤ p ≤ q)%nat → (q ≤ length es)%nat → le (elt es p) (elt es q).
Proof using Hn Hs Comparison0.
  intros Hpq Hq. destruct (decide (p = q)) as [->|]; [by apply le_refl|].
  assert (elt es p ∈ take p es ∧ elt es q ∈ drop p es) as [H1 H2].
  { split.
    - apply list_elem_of_lookup_2 with (p - 1)%nat. rewrite lookup_take_lt by lia.
      unfold elt. apply list_lookup_lookup_total_lt. lia.
    - apply list_elem_of_lookup_2 with (q - 1 - p)%nat. rewrite lookup_drop.
      replace (p + (q - 1 - p))%nat with (q - 1)%nat by lia. unfold elt. apply list_lookup_lookup_total_lt. lia. }
  rewrite <- (take_drop p es) in Hs. by eapply StronglySorted_app_1_elem_of.
Qed.

Lemma key_below x y : compare key x < 0 → le x y → compare key y < 0.
Proof using Hn Comparison0.
  intros Hx Hxy. destruct (decide (compare key y < 0)) as [|Hy]; [done|]. exfalso.
  assert (compare y key ≤ 0) by (destruct (decide (0 < compare y key)) as [H|]; [apply compare_opp in H|]; lia).
  apply compare_opp in Hx. pose proof (compare_trans x y key Hxy). lia.
Qed.

Lemma key_above x y : 0 < compare key y → le x y → 0 < compare key x.
Proof using Hn Comparison0.
  intros Hy Hxy. destruct (decide (0 < compare key x)) as [|Hx]; [done|]. exfalso.
  assert (Hkx : compare key x ≤ 0) by lia. pose proof (compare_trans key x y Hkx Hxy). lia.
Qed.

Lemma search_loop_ok fuel : ∀ lo hi,
  (lo ≤ hi ≤ length es)%nat → (hi - lo < fuel)%nat →
  (∀ p, (1 ≤ p ≤ lo)%nat → 0 < compare key (elt es p)) →
  (∀ p, (hi < p ≤ length es)%nat → compare key (elt es p) < 0) →
  ∃ r, search_loop fuel key array (array + Z.of_nat lo * Z.of_nat n) (array + Z.of_nat hi * Z.of_nat n)
         (Z.of_nat n) compare a = Ok (r, a) ∧
    ((∃ p, (1 ≤ p ≤ length es)%nat ∧ r = array + (Z.of_nat p - 1) * Z.of_nat n ∧ compare key (elt es p) = 0)
     ∨ r = NULL ∧ ∀ p, (1 ≤ p ≤ length es)%nat → compare key (elt es p) ≠ 0).
Proof using Hs Ha Hn Comparison0.
  induction fuel as [|fuel IH]; intros lo hi Hlh Hf Hlo Hhi; [lia|]. cbn [search_loop].
  destruct (Z.ltb_spec (array + Z.of_nat lo * Z.of_nat n) (array + Z.of_nat hi * Z.of_nat n)) as [Hlt|Hge].
  - assert (lo < hi)%nat by nia. cbv zeta.
    replace (array + Z.of_nat hi * Z.of_nat n - (array + Z.of_nat lo * Z.of_nat n))
      with (Z.of_nat (hi - lo) * Z.of_nat n) by nia.
    rewrite Z.div_mul by lia. change 2 with (Z.of_nat 2). rewrite <- Nat2Z.inj_div.
    pose proof (Nat.div_mod_eq (hi - lo) 2). pose proof (Nat.mod_upper_bound (hi - lo) 2).
    set (k := ((hi - lo) / 2)%nat) in *. set (p := (lo + k + 1)%nat).
    replace (array + Z.of_nat lo * Z.of_nat n + Z.of_nat k * Z.of_nat n)
      with (array + (Z.of_nat p - 1) * Z.of_nat n) by nia.
    assert (He : element (array + (Z.of_nat p - 1) * Z.of_nat n - array) (Z.of_nat n) a = elt es p).
    { replace (array + (Z.of_nat p - 1) * Z.of_nat n - array) with ((Z.of_nat p - 1) * Z.of_nat n) by lia.
      apply element_ok; [done..|]. unfold p. lia. }
    assert (Hp : (lo < p ≤ hi)%nat) by (unfold p; lia).
    rewrite (st_bind_ok _ _ _ (compare key (elt es p)) a) by (unfold st_gets; by rewrite He).
    destruct (Z.ltb_spec (compare key (elt es p)) 0) as [Hc|Hc].
    + replace (array + (Z.of_nat p - 1) * Z.of_nat n) with (array + Z.of_nat (lo + k) * Z.of_nat n) by nia.
      apply IH; [lia|lia|done|]. intros q Hq. apply (key_below (elt es p)); [done|]. apply sorted_elt; lia.
    + destruct (Z.ltb_spec 0 (compare key (elt es p))) as [Hc'|Hc'].
      * replace (array + (Z.of_nat p - 1) * Z.of_nat n + Z.of_nat n) with (array + Z.of_nat p * Z.of_nat n) by nia.
        apply IH; [lia|lia| |done]. intros q Hq. apply (key_above _ (elt es p)); [done|]. apply sorted_elt; lia.
      * eexists. split; [done|]. left. exists p. split; [lia|]. split; [done|lia].
  - assert (lo = hi) as -> by nia. exists NULL. split; [done|]. right. split; [done|]. intros p Hp.
    destruct (decide (p ≤ hi)%nat); [pose proof (Hlo p)|pose proof (Hhi p)]; lia.
Qed.
End search.
End sorting.

(** ** atoi *)

(** The number written by decimal digits. *)
Definition decimal (ds : list Z) : Z := fold_left (λ v d, v * 10 + (d - 48)) ds 0.

Definition decimal_from (v : Z) (ds : list Z) : Z := fold_left (λ v d, v * 10 + (d - 48)) ds v.

Definition digit (c : Z) : Prop := 48 ≤ c ≤ 57.

Lemma isdigit_true c : digit c → isdigit (char_int c) = true.
Proof.
  intros [H1 H2]. unfold isdigit, char_int. assert (c <? 128 = true) as -> by (apply Z.ltb_lt; lia).
  apply andb_true_iff. split; apply Z.leb_le; lia.
Qed.

Lemma isdigit_false c : is_byte c → ¬ digit c → isdigit (char_int c) = false.
Proof.
  intros [H1 H2] Hd. unfold isdigit, char_int. apply andb_false_iff. unfold digit in Hd.
  destruct (Z.ltb_spec c 128); rewrite !Z.leb_gt; lia.
Qed.

Lemma decimal_from_ge ds : ∀ v, Forall digit ds → 0 ≤ v → v ≤ decimal_from v ds.
Proof.
  induction ds as [|d ds IH]; intros v Hd Hv; [done|]. apply Forall_cons in Hd as [[? ?] Hd].
  unfold decimal_from in *. simpl. specialize (IH (v * 10 + (d - 48)) Hd ltac:(lia)). lia.
Qed.

Lemma skip_space_ok ws : ∀ m a s c fuel,
  Forall (λ c, isspace c = true) ws → bytes_at m a (ws ++ c :: s) → isspace c = false →
  (length ws < fuel)%nat → skip_space fuel a m = Ok (a + Z.of_nat (length ws), m).
Proof.
  induction ws as [|w ws IH]; intros m a s c [|fuel] Hw Hb Hc Hf; simpl in Hf; try lia; cbn [skip_space];
    simpl in Hb; apply bytes_at_cons in Hb as [Hx Hb]; rewrite (get_byte_ok _ _ _ _ Hx).
  - rewrite Hc. simpl. by rewrite Z.add_0_r.
  - apply Forall_cons in Hw as [-> Hw]. rewrite (IH m (a + 1) s c) by (done || lia).
    cbn [length]. do 2 f_equal. lia.
Qed.

Lemma parse_digits_ok ds : ∀ m a s c v fuel,
  Forall digit ds → bytes_at m a (ds ++ c :: s) → is_byte c → ¬ digit c →
  0 ≤ v → decimal_from v ds ≤ 2 ^ 31 → (length ds < fuel)%nat →
  parse_digits fuel a (- v) m = Ok (- decimal_from v ds, m).
Proof.
  induction ds as [|d ds IH]; intros m a s c v [|fuel] Hd Hb Hc Hnd Hv Hmax Hf; simpl in Hf; try lia;
    cbn [parse_digits]; simpl in Hb; apply bytes_at_cons in Hb as [Hx Hb]; rewrite (get_byte_ok _ _ _ _ Hx).
  - by rewrite isdigit_false.
  - apply Forall_cons in Hd as [Hdd Hd]. rewrite isdigit_true by done. destruct Hdd as [Hd1 Hd2].
    pose proof (decimal_from_ge ds (v * 10 + (d - 48)) Hd ltac:(lia)) as Hge.
    change (decimal_from v (d :: ds)) with (decimal_from (v * 10 + (d - 48)) ds) in *.
    assert (v * 10 + (d - 48) ≤ 2 ^ 31) by lia.
    rewrite (i32_small (- v * 10)) by lia. rewrite i32_small by lia.
    replace (- v * 10 - (d - 48)) with (- (v * 10 + (d - 48))) by lia.
    by apply IH with s c; try lia.
Qed.

Lemma atoi_ok m a ws sg ds rest :
  cstr m a (ws ++ sg ++ ds ++ rest) →
  Forall (λ c, isspace c = true) ws → sg = [] ∨ sg = [43] ∨ sg = [45] →
  ds ≠ [] → Forall digit ds → (∀ c, head rest = Some c → ¬ digit c) →
  let v := if decide (sg = [45]) then - decimal ds else decimal ds in
  - 2 ^ 31 ≤ v < 2 ^ 31 → atoi a m = Ok (v, m).
Proof.
  intros Hs Hws Hsg Hne Hds Hrest v Hv. pose proof (cstr_fuel _ _ _ Hs) as Hf.
  rewrite !length_app in Hf. pose proof (cstr_bytes _ _ _ Hs) as Hb. rewrite <- !app_assoc in Hb.
  destruct ds as [|d ds]; [done|]. pose proof Hds as [Hd _]%Forall_cons.
  assert (Hdec : 0 ≤ decimal (d :: ds)) by (apply (decimal_from_ge (d :: ds) 0 Hds); lia).
  assert (Htail : ∃ c t, rest ++ [0] = c :: t ∧ is_byte c ∧ ¬ digit c).
  { destruct rest as [|c t]; [exists 0, []; split_and!; [done|done|unfold digit; lia]|].
    exists c, (t ++ [0]). split_and!; [done| |by apply Hrest].
    destruct Hs as [_ Hc _]. rewrite !Forall_app in Hc. destruct Hc as (_ & _ & _ & Hc).
    by apply Forall_cons in Hc as [[? _] _]. }
  destruct Htail as (c & t & Ht & Hcb & Hcd). rewrite Ht in Hb.
  assert (Hdig : isspace d = false) by (unfold isspace, digit in *; repeat (apply orb_false_iff; split); apply Z.eqb_neq; lia).
  assert (Hparse : ∀ b, bytes_at m b ((d :: ds) ++ c :: t) →
    parse_digits (S (size m)) b 0 m = Ok (- decimal (d :: ds), m)).
  { intros b Hbb. change 0 with (- 0) at 1. eapply parse_digits_ok; try done; [|lia].
    change (decimal_from 0 (d :: ds)) with (decimal (d :: ds)). unfold v in Hv. case_decide; lia. }
  unfold atoi. rewrite not_null, with_fuel by apply Hs.
  apply bytes_at_app in Hb as [Hbw Hb]. set (b := a + Z.of_nat (length ws)) in *.
  assert (Hskip : skip_space (S (size m)) a m = Ok (b, m)).
  { destruct Hsg as [->|[->| ->]];
      (eapply skip_space_ok; [done|by apply bytes_at_app; split; [exact Hbw|exact Hb]|done|lia]). }
  rewrite (st_bind_ok _ _ _ _ _ Hskip). subst v.
  destruct Hsg as [->|[->| ->]]; simpl in Hb.
  - pose proof Hb as [Hx _]%bytes_at_cons. rewrite (get_byte_ok _ _ _ _ Hx). unfold digit in Hd.
    assert (d =? 43 = false) as -> by (apply Z.eqb_neq; lia).
    assert (d =? 45 = false) as -> by (apply Z.eqb_neq; lia).
    rewrite (st_bind_ok _ _ _ _ _ (Hparse b Hb)), decide_False in * by done.
    rewrite Z.opp_involutive. unfold mret, st_ret. by rewrite i32_small.
  - apply bytes_at_cons in Hb as [Hx Hb]. rewrite (get_byte_ok _ _ _ _ Hx). simpl (43 =? 43). cbv iota beta.
    rewrite (st_bind_ok _ _ _ _ _ (Hparse (b + 1) Hb)), decide_False in * by done.
    rewrite Z.opp_involutive. unfold mret, st_ret. by rewrite i32_small.
  - apply bytes_at_cons in Hb as [Hx Hb]. rewrite (get_byte_ok _ _ _ _ Hx). simpl (45 =? 43). simpl (45 =? 45). cbv iota beta.
    rewrite (st_bind_ok _ _ _ _ _ (Hparse (b + 1) Hb)), decide_True by done. done.
Qed.

(** ** Theorems *)

(** C11: [sort] of any array, of elements of any size and with any strcmp()-type
    comparison, terminates without leaving the array and leaves a sorted
    permutation of its elements. *)
Theorem sort_sorted_permutation compare n array a es :
  Comparison compare → (0 < n)%nat → array ≠ NULL → elems n a es → Z.of_nat (length es) < 2 ^ 62 →
  ∃ a' es', sort array (Z.of_nat (length es)) (Z.of_nat n) compare a = Ok (tt, a') ∧
    elems n a' es' ∧ StronglySorted (le compare) es' ∧ es' ≡ₚ es.
Proof. intros Hc Hn. by apply sort_ok. Qed.

(** [binary_search] in a sorted array returns; the result points to an
    element that compares equal to the key, and is null exactly when there is
    none. *)
Theorem binary_search_finds compare n key array a es :
  Comparison compare → (0 < n)%nat → elems n a es → StronglySorted (le compare) es →
  ∃ r, binary_search key array (Z.of_nat (length es)) (Z.of_nat n) compare a = Ok (r, a) ∧
    ((∃ p, (1 ≤ p ≤ length es)%nat ∧ r = array + (Z.of_nat p - 1) * Z.of_nat n ∧ compare key (elt es p) = 0)
     ∨ r = NULL ∧ ∀ p, (1 ≤ p ≤ length es)%nat → compare key (elt es p) ≠ 0).
Proof.
  intros Hc Hn Ha Hs. unfold binary_search. rewrite Nat2Z.id.
  rewrite (Z.mul_comm (Z.of_nat n)).
  pose proof (search_loop_ok compare n Hn key array a es Ha Hs (S (length es)) 0 (length es)) as H.
  rewrite Z.add_0_r in H. apply H; lia.
Qed.

(** [atoi] of white space, an optional sign and decimal digits that denote
    an [int] returns that number, the smallest [int] included. *)
Theorem atoi_reads_decimal m a ws sg ds rest :
  cstr m a (ws ++ sg ++ ds ++ rest) →
  Forall (λ c, isspace c = true) ws → sg = [] ∨ sg = [43] ∨ sg = [45] →
  ds ≠ [] → Forall digit ds → (∀ c, head rest = Some c → ¬ digit c) →
  let v := if decide (sg = [45]) then - decimal ds else decimal ds in
  - 2 ^ 31 ≤ v < 2 ^ 31 → atoi a m = Ok (v, m).
Proof. apply atoi_ok. Qed.

(** ** Witnesses: one-byte elements compared by value; the string "  -42x". *)

Definition compare_bytes (x y : bytes) : Z := default 0 (head x) - default 0 (head y).

Lemma compare_bytes_ok : Comparison compare_bytes.
Proof. split; unfold compare_bytes; lia. Qed.

Lemma demo_elems bs : elems 1 bs ((λ b, [b]) <$> bs).
Proof.
  split; [induction bs as [|b bs IH]; [done|]; simpl; by f_equal|].
  apply Forall_fmap, Forall_true. done.
Qed.

Lemma sort_sorted_permutation_witness :
  ∃ a' es', sort 4096 4 1 compare_bytes [3; 1; 2; 1] = Ok (tt, a') ∧ elems 1 a' es' ∧
    StronglySorted (le compare_bytes) es' ∧ es' ≡ₚ [[3]; [1]; [2]; [1]].
Proof.
  apply (sort_sorted_permutation compare_bytes 1 4096 [3; 1; 2; 1] [[3]; [1]; [2]; [1]]
    compare_bytes_ok ltac:(lia) ltac:(done) (demo_elems [3; 1; 2; 1])). reflexivity.
Defined.

Lemma binary_search_finds_witness :
  ∃ r, binary_search [2] 4096 3 1 compare_bytes [1; 2; 5] = Ok (r, [1; 2; 5]) ∧ r = 4097.
Proof.
  destruct (binary_search_finds compare_bytes 1 [2] 4096 [1; 2; 5] [[1]; [2]; [5]]
    compare_bytes_ok ltac:(lia) (demo_elems [1; 2; 5])) as (r & Hr & _).
  - repeat constructor; unfold le, compare_bytes; simpl; lia.
  - exists r. split; [exact Hr|]. vm_compute in Hr. congruence.
Defined.

Definition demo_number : cmem :=
  list_to_map [(100, 32); (101, 32); (102, 45); (103, 52); (104, 50); (105, 120); (106, 0)].

Lemma demo_number_ok : cstr demo_number 100 ([32; 32] ++ [45] ++ [52; 50] ++ [120]).
Proof.
  split; [lia|repeat constructor; unfold is_byte; lia|].
  intros [|[|[|[|[|[|[|i]]]]]]] c Hi; vm_compute in Hi; try congruence; injection Hi as <-; vm_compute; reflexivity.
Qed.

Lemma atoi_reads_decimal_witness : atoi 100 demo_number = Ok (-42, demo_number).
Proof.
  apply (atoi_reads_decimal demo_number 100 [32; 32] [45] [52; 50] [120] demo_number_ok).
  - repeat constructor.
  - by right; right.
  - done.
  - repeat constructor; lia.
  - intros c [= <-]. unfold digit. lia.
  - vm_compute. by split.
Defined.
End StdlibTheorems.
