(* ===== verification/Hash.v ===== *)
(** lib/kernel/hash.c: hash tables with chaining.

    A bucket, an intrusive list, is the sequence of addresses of its hash
    elements; [KListOps] shows that the list operations implement those on
    sequences.  The table's callbacks [hash] and [less] (with their [aux])
    are parameters, and so is whether [malloc] succeeds. *)
From S2P Require Import Prelude StringC.
Import StringC.
Local Open Scope Z_scope.

Module Hash.

(** [struct hash] without the callbacks. *)
Record table := Table { elem_cnt : Z; bucket_cnt : Z; buckets : list (list Z) }.

Definition BEST_ELEMS_PER_BUCKET : Z := 2.

Definition turn_off_least_1bit (x : Z) : Z := Z.land x (u64 (x - 1)).

Definition is_power_of_2 (x : Z) : bool := negb (x =? 0) && (turn_off_least_1bit x =? 0).

(** [while (!is_power_of_2 (n)) n = turn_off_least_1bit (n);] *)
Fixpoint round_down_loop (fuel : nat) (n : Z) : res Z :=
  match fuel with
  | O => Err NoFuel
  | S fuel => if is_power_of_2 n then Ok n else round_down_loop fuel (turn_off_least_1bit n)
  end.

(** The bucket count [rehash] aims for. *)
Definition ideal_bucket_cnt (n : Z) : res Z :=
  let new_bucket_cnt := n / BEST_ELEMS_PER_BUCKET in
  let new_bucket_cnt := if new_bucket_cnt <? 4 then 4 else new_bucket_cnt in
  round_down_loop (S (Z.to_nat new_bucket_cnt)) new_bucket_cnt.

Section callbacks.
Context (hash : Z → Z) (less : Z → Z → bool).

(** Index of the bucket. *)
Definition find_bucket (h : table) (e : Z) : nat :=
  Z.to_nat (Z.land (hash e) (u64 (bucket_cnt h - 1))).

(** A null pointer is [None]. *)
Fixpoint find_elem (bucket : list Z) (e : Z) : option Z :=
  match bucket with
  | [] => None
  | hi :: bucket => if negb (less hi e) && negb (less e hi) then Some hi else find_elem bucket e
  end.

(** [list_push_front (&h->buckets[b], e)] *)
Definition push_bucket (b : nat) (e : Z) (bs : list (list Z)) : list (list Z) :=
  alter (cons e) b bs.

Definition insert_elem (b : nat) (e : Z) (h : table) : table :=
  Table (u64 (elem_cnt h + 1)) (bucket_cnt h) (push_bucket b e (buckets h)).

(** [list_remove]: off the list it is on. *)
Definition remove_elem (e : Z) (h : table) : table :=
  Table (u64 (elem_cnt h - 1)) (bucket_cnt h) (filter (λ x, x ≠ e) <$> buckets h).

(** The inner loop of [rehash]: the elements of one old bucket, in order. *)
Definition move_bucket (h : table) (old : list Z) : table :=
  fold_left (λ h e, Table (elem_cnt h) (bucket_cnt h) (push_bucket (find_bucket h e) e (buckets h))) old h.

(** [mem]: whether [malloc] returns memory. *)
Definition rehash (mem : bool) (h : table) : res table :=
  new_bucket_cnt ← ideal_bucket_cnt (elem_cnt h);
  if new_bucket_cnt =? bucket_cnt h then Ok h
  else if negb mem then Ok h
  else
    let new := Table (elem_cnt h) new_bucket_cnt (replicate (Z.to_nat new_bucket_cnt) []) in
    Ok (fold_left move_bucket (buckets h) new).

Definition hash_insert (mem : bool) (new : Z) (h : table) : res (option Z * table) :=
  let bucket := find_bucket h new in
  let old := find_elem (buckets h !!! bucket) new in
  let h := match old with None => insert_elem bucket new h | Some _ => h end in
  h ← rehash mem h; Ok (old, h).

Definition hash_replace (mem : bool) (new : Z) (h : table) : res (option Z * table) :=
  let bucket := find_bucket h new in
  let old := find_elem (buckets h !!! bucket) new in
  let h := match old with Some o => remove_elem o h | None => h end in
  h ← rehash mem (insert_elem bucket new h); Ok (old, h).

Definition hash_find (e : Z) (h : table) : option Z :=
  find_elem (buckets h !!! find_bucket h e) e.

Definition hash_delete (mem : bool) (e : Z) (h : table) : res (option Z * table) :=
  match find_elem (buckets h !!! find_bucket h e) e with
  | None => Ok (None, h)
  | Some found => h ← rehash mem (remove_elem found h); Ok (Some found, h)
  end.

(** [destructor]: null, or called for each element in order; [A] is the state
    the callback works on. *)
Definition hash_clear {A} (destructor : option (Z → A → A)) (h : table) (a : A) : table * A :=
  let a := match destructor with
           | None => a
           | Some d => fold_left (λ a b, fold_left (λ a e, d e a) b a) (buckets h) a
           end in
  (Table 0 (bucket_cnt h) ((λ _, []) <$> buckets h), a).

(** The buckets are returned to the allocator. *)
Definition hash_destroy {A} (destructor : option (Z → A → A)) (h : table) (a : A) : A :=
  match destructor with None => a | Some _ => (hash_clear destructor h a).2 end.

(** [mem]: whether [malloc] returns memory, of four uninitialised lists. *)
Definition hash_init (mem : bool) : bool * table :=
  let h := Table 0 4 (replicate 4 []) in
  if mem then (true, (hash_clear (A := unit) None h tt).1) else (false, h).

Definition hash_apply {A} (action : Z → A → A) (h : table) (a : A) : A :=
  fold_left (λ a b, fold_left (λ a e, action e a) b a) (buckets h) a.

Definition hash_size (h : table) : Z := elem_cnt h.
Definition hash_empty (h : table) : bool := elem_cnt h =? 0.

(** ** Iteration

    [struct hash_iterator]: the index of the bucket and the element, which
    before the first [hash_next] is the bucket list's head and at the end a
    null pointer. *)
Inductive cursor := AtHead | AtElem (e : Z) | AtNull.
Record iterator := Iterator { it_bucket : nat; it_elem : cursor }.

Definition hash_first (h : table) : iterator := Iterator 0 AtHead.

(** [list_next]: the element after the cursor in its bucket, [None] for the
    list's tail. *)
Fixpoint after (e : Z) (b : list Z) : option Z :=
  match b with [] => None | x :: b => if x =? e then head b else after e b end.

(** At a null pointer the ASSERT of [list_next] fails. *)
Definition cursor_next (c : cursor) (b : list Z) : res (option Z) :=
  match c with AtHead => Ok (head b) | AtElem e => Ok (after e b) | AtNull => Err AssertFail end.

(** [while (elem == list_end (bucket))]; [k] buckets follow. *)
Fixpoint next_loop (k : nat) (h : table) (b : nat) (elem : option Z) : iterator :=
  match elem with
  | Some e => Iterator b (AtElem e)
  | None =>
    match k with
    | O => Iterator (S b) AtNull
    | S k => next_loop k h (S b) (head (buckets h !!! S b))
    end
  end.

Definition hash_next (h : table) (i : iterator) : res iterator :=
  elem ← cursor_next (it_elem i) (buckets h !!! it_bucket i);
  Ok (next_loop (Z.to_nat (bucket_cnt h) - S (it_bucket i)) h (it_bucket i) elem).

Definition hash_cur (i : iterator) : option Z :=
  match it_elem i with AtElem e => Some e | _ => None end.
End callbacks.

(** ** Hash functions *)

Definition FNV_32_PRIME : Z := 16777619.
Definition FNV_32_BASIS : Z := 2166136261.

Definition fnv (hash c : Z) : Z := Z.lxor (u32 (hash * FNV_32_PRIME)) c.

Fixpoint hash_bytes_loop (k : nat) (buf hash : Z) : st cmem Z :=
  match k with
  | O => mret hash
  | S k => c ← get_byte buf; hash_bytes_loop k (buf + 1) (fnv hash c)
  end.

Definition hash_bytes (buf size : Z) : st cmem Z :=
  ASSERT (negb (buf =? NULL));;
  hash_bytes_loop (Z.to_nat size) buf FNV_32_BASIS.

Fixpoint hash_string_loop (fuel : nat) (s hash : Z) : st cmem Z :=
  match fuel with
  | O => st_err NoFuel
  | S fuel => c ← get_byte s; if c =? 0 then mret hash else hash_string_loop fuel (s + 1) (fnv hash c)
  end.

Definition hash_string (s : Z) : st cmem Z :=
  ASSERT (negb (s =? NULL));;
  n ← loop_fuel; hash_string_loop n s FNV_32_BASIS.

(** The four bytes of the argument, lowest first. *)
Definition hash_int (i : Z) : Z :=
  fold_left fnv [u8 i; u8 (Z.shiftr i 8); u8 (Z.shiftr i 16); u8 (Z.shiftr i 24)] FNV_32_BASIS.

End Hash.
