(* ===== verification/HashTheorems.v ===== *)
(** lib/kernel/hash.c: a hash table is a set of elements that are pairwise
    different under the table's order, whatever the allocator does. *)
From S2P Require Import Prelude StringC Hash.
Import Hash.
Local Open Scope Z_scope.

Module HashTheorems.

(** ** Bucket counts *)

Lemma turn_off_lt x : 0 < x < 2 ^ 64 → 0 ≤ turn_off_least_1bit x < x.
Proof.
  intros Hx. unfold turn_off_least_1bit. rewrite u64_small by lia.
  assert (H0 : 0 ≤ Z.land x (x - 1)) by (apply Z.land_nonneg; lia). split; [done|].
  apply Z.le_lt_trans with (x - 1); [|lia]. apply Z.ldiff_le; [lia|].
  rewrite Z.land_comm, Z.ldiff_land, <- Z.land_assoc, Z.land_comm. apply Z.bits_inj'. intros n Hn.
  rewrite !Z.land_spec, Z.lnot_spec, Z.bits_0 by done. destruct (Z.testbit (x - 1) n), (Z.testbit x n); done.
Qed.

Lemma pow2_pos k : 0 ≤ k → 0 < 2 ^ k.
Proof. intros. apply Z.pow_pos_nonneg; lia. Qed.

(** Turning off the lowest bit keeps the highest one, unless it is the same. *)
Lemma turn_off_high x :
  0 < x < 2 ^ 64 → x ≠ 2 ^ Z.log2 x → Z.testbit (turn_off_least_1bit x) (Z.log2 x) = true.
Proof.
  intros Hx Hne. unfold turn_off_least_1bit. rewrite u64_small by lia.
  pose proof (Z.log2_spec x ltac:(lia)) as [Hlo Hhi]. pose proof (Z.log2_nonneg x) as H0.
  pose proof (pow2_pos _ H0). rewrite Z.land_spec, Z.bit_log2 by lia. simpl.
  replace (Z.log2 x) with (Z.log2 (x - 1)) by (apply Z.log2_unique; lia). apply Z.bit_log2. lia.
Qed.

Lemma is_power_of_2_iff x : 0 < x < 2 ^ 64 → is_power_of_2 x = true ↔ x = 2 ^ Z.log2 x.
Proof.
  intros Hx. unfold is_power_of_2. rewrite andb_true_iff, negb_true_iff, Z.eqb_neq, Z.eqb_eq.
  pose proof (Z.log2_nonneg x) as H0. split.
  - intros [_ Hl]. destruct (decide (x = 2 ^ Z.log2 x)) as [|Hne]; [done|].
    pose proof (turn_off_high x Hx Hne) as Hb. by rewrite Hl, Z.bits_0 in Hb.
  - intros He. split; [lia|]. unfold turn_off_least_1bit. rewrite u64_small by lia.
    rewrite He at 2. replace (2 ^ Z.log2 x - 1) with (Z.ones (Z.log2 x)) by (rewrite Z.ones_equiv; lia).
    rewrite Z.land_ones by done. rewrite He at 1. apply Z.mod_same. pose proof (pow2_pos _ H0). lia.
Qed.

Lemma round_down_ok fuel : ∀ n,
  0 < n < 2 ^ 64 → (Z.to_nat n < fuel)%nat → round_down_loop fuel n = Ok (2 ^ Z.log2 n).
Proof.
  induction fuel as [|fuel IH]; intros n Hn Hf; [lia|]. cbn [round_down_loop].
  destruct (is_power_of_2 n) eqn:E.
  - apply is_power_of_2_iff in E; [by rewrite <- E|done].
  - assert (Hne : n ≠ 2 ^ Z.log2 n) by (intros He; apply is_power_of_2_iff in He; congruence).
    pose proof (turn_off_lt n Hn) as Hlt. pose proof (turn_off_high n Hn Hne) as Hb.
    assert (turn_off_least_1bit n ≠ 0) by (intros H0; by rewrite H0, Z.bits_0 in Hb).
    rewrite IH by lia. do 2 f_equal. pose proof (Z.log2_nonneg n).
    apply Z.le_antisymm; [apply Z.log2_le_mono; lia|].
    destruct (decide (Z.log2 n ≤ Z.log2 (turn_off_least_1bit n))) as [|Hl]; [done|].
    rewrite Z.bits_above_log2 in Hb; [done|lia|lia].
Qed.

(** The largest power of two that is at most half the number of elements, and
    at least four. *)
Lemma ideal_ok n :
  0 ≤ n < 2 ^ 64 → ∃ k, 2 ≤ k < 63 ∧ ideal_bucket_cnt n = Ok (2 ^ k) ∧ 2 ^ k ≤ Z.max 4 (n / 2) < 2 ^ (k + 1).
Proof.
  intros Hn. unfold ideal_bucket_cnt, BEST_ELEMS_PER_BUCKET.
  assert (0 ≤ n / 2 < 2 ^ 63) by (split; [apply Z.div_pos|apply Z.div_lt_upper_bound]; lia).
  replace (if n / 2 <? 4 then 4 else n / 2) with (Z.max 4 (n / 2)) by (destruct (Z.ltb_spec (n / 2) 4); lia).
  set (c := Z.max 4 (n / 2)). assert (4 ≤ c < 2 ^ 63) by lia. exists (Z.log2 c).
  pose proof (Z.log2_spec c ltac:(lia)). cbv zeta. rewrite round_down_ok by lia. split_and!; try done; try lia.
  - apply Z.log2_le_mono with (a := 4). lia.
  - apply Z.log2_lt_pow2; lia.
Qed.

(** ** Callbacks *)

(** Neither is less than the other. *)
Definition equiv (less : Z → Z → bool) (a b : Z) : Prop := less a b = false ∧ less b a = false.

(** What hash.h asks of the callbacks: [less] orders the elements and equal
    elements have equal hash values, which are unsigned. *)
Class Callbacks (hash : Z → Z) (less : Z → Z → bool) : Prop := {
  hash_range e : 0 ≤ hash e < 2 ^ 32;
  hash_equal a b : equiv less a b → hash a = hash b;
  less_irrefl a : less a a = false;
  equiv_trans a b c : equiv less a b → equiv less b c → equiv less a c }.

Section table.
Context (hash : Z → Z) (less : Z → Z → bool) `{!Callbacks hash less}.

Abbreviation equiv := (equiv less).

Lemma equiv_refl a : equiv a a.
Proof using Callbacks0. split; apply less_irrefl. Qed.

Lemma equiv_sym a b : equiv a b → equiv b a.
Proof. by intros []. Qed.

Definition elements (h : table) : list Z := concat (buckets h).

(** No two equal elements. *)
Definition distinct (l : list Z) : Prop := NoDup l ∧ ∀ x y, x ∈ l → y ∈ l → equiv x y → x = y.

(** Every element is in the bucket its hash value selects. *)
Definition placed (h : table) : Prop :=
  ∀ i b e, buckets h !! i = Some b → e ∈ b → find_bucket hash h e = i.

Record shape (h : table) : Prop := {
  shape_cnt : ∃ k, 0 ≤ k < 63 ∧ bucket_cnt h = 2 ^ k;
  shape_len : Z.of_nat (length (buckets h)) = bucket_cnt h;
  shape_placed : placed h }.

Record inv (h : table) : Prop := {
  inv_shape : shape h;
  inv_elem_cnt : elem_cnt h = Z.of_nat (length (elements h));
  inv_distinct : distinct (elements h) }.

Lemma distinct_perm l l' : l ≡ₚ l' → distinct l → distinct l'.
Proof.
  intros Hp [H1 H2]. split; [by rewrite <- Hp|]. intros x y. rewrite <- Hp. apply H2.
Qed.

Lemma distinct_cons e l : distinct l → (∀ x, x ∈ l → ¬ equiv x e) → distinct (e :: l).
Proof using Callbacks0.
  intros [H1 H2] He. split.
  - constructor; [|done]. intros Hin. by apply (He e Hin), equiv_refl.
  - intros x y. rewrite !elem_of_cons. intros [->|Hx] [->|Hy] Hxy; try done.
    + by destruct (He y Hy); apply equiv_sym.
    + by destruct (He x Hx).
    + by apply H2.
Qed.

Lemma find_bucket_lt h e : shape h → (find_bucket hash h e < length (buckets h))%nat.
Proof using Callbacks0.
  intros [(k & Hk & Hc) Hl _]. unfold find_bucket. pose proof (pow2_pos k ltac:(lia)).
  assert (2 ^ k < 2 ^ 63) by (apply Z.pow_lt_mono_r; lia).
  rewrite Hc, u64_small by lia. replace (2 ^ k - 1) with (Z.ones k) by (rewrite Z.ones_equiv; lia).
  rewrite Z.land_ones by lia. pose proof (Z.mod_pos_bound (hash e) (2 ^ k)). lia.
Qed.

(** ** Searching *)

Lemma find_elem_some b e x : find_elem less b e = Some x → x ∈ b ∧ equiv x e.
Proof.
  induction b as [|y b IH]; simpl; [done|]. destruct (negb (less y e) && negb (less e y)) eqn:E.
  - intros [= ->]. apply andb_true_iff in E as [E1%negb_true_iff E2%negb_true_iff]. split; [left|done].
  - intros H. destruct (IH H). split; [by right|done].
Qed.

Lemma find_elem_none b e x : find_elem less b e = None → x ∈ b → ¬ equiv x e.
Proof.
  induction b as [|y b IH]; simpl; [by intros _ ?%elem_of_nil|].
  destruct (negb (less y e) && negb (less e y)) eqn:E; [done|]. intros H.
  rewrite elem_of_cons. intros [->|Hx]; [|by apply IH]. intros [H1 H2]. by rewrite H1, H2 in E.
Qed.

Lemma bucket_sub h i x : x ∈ buckets h !!! i → x ∈ elements h.
Proof.
  intros Hx. destruct (buckets h !! i) as [b|] eqn:E.
  - rewrite (list_lookup_total_correct _ _ _ E) in Hx. apply list_elem_of_In, in_concat.
    exists b. split; apply list_elem_of_In; [by eapply list_elem_of_lookup_2|done].
  - rewrite list_lookup_total_alt, E in Hx. by apply elem_of_nil in Hx.
Qed.

Lemma elem_bucket h x : shape h → x ∈ elements h → x ∈ buckets h !!! find_bucket hash h x.
Proof.
  intros Hs Hx. apply list_elem_of_In, in_concat in Hx as (b & Hb & Hx).
  apply list_elem_of_In in Hb, Hx. apply list_elem_of_lookup in Hb as [i Hi].
  rewrite (shape_placed _ Hs i b x Hi Hx). by rewrite (list_lookup_total_correct _ _ _ Hi).
Qed.

Lemma find_bucket_equiv h a b : equiv a b → find_bucket hash h a = find_bucket hash h b.
Proof using Callbacks0. intros H. unfold find_bucket. by rewrite (hash_equal a b H). Qed.

(** [hash_find] decides membership up to equality. *)
Lemma hash_find_some h e x : hash_find hash less e h = Some x → x ∈ elements h ∧ equiv x e.
Proof. intros [H1 H2]%find_elem_some. split; [by eapply bucket_sub|done]. Qed.

Lemma hash_find_none h e x : shape h → hash_find hash less e h = None → x ∈ elements h → ¬ equiv x e.
Proof using Callbacks0.
  intros Hs Hf Hx He. eapply find_elem_none in Hf; [by apply Hf|].
  rewrite <- (find_bucket_equiv h x e He). by apply elem_bucket.
Qed.

(** ** Filling buckets *)

Lemma push_bucket_elements b e bs :
  (b < length bs)%nat → concat (push_bucket b e bs) ≡ₚ e :: concat bs.
Proof.
  revert b. induction bs as [|x bs IH]; intros [|b] Hb; simpl in *; try lia; [done|].
  unfold push_bucket in *. simpl. rewrite IH by lia. by rewrite Permutation_middle.
Qed.

Lemma push_bucket_shape h e :
  shape h →
  shape (Table (elem_cnt h) (bucket_cnt h) (push_bucket (find_bucket hash h e) e (buckets h))).
Proof.
  intros [H1 H2 H3]. split; simpl; [done|by unfold push_bucket; rewrite length_alter|].
  intros i b x Hi Hx. unfold push_bucket in Hi. simpl in Hi. rewrite list_lookup_alter in Hi.
  change (find_bucket hash h x = i).
  destruct (decide (find_bucket hash h e = i)) as [He|He]; simplify_eq; [|by eapply H3].
  destruct (buckets h !! find_bucket hash h e) as [b'|] eqn:E; [|done]. simpl in Hi. simplify_eq.
  apply elem_of_cons in Hx as [->|Hx]; [done|by eapply H3].
Qed.

Lemma shape_cnt_irrel c c' n bs : shape (Table c n bs) → shape (Table c' n bs).
Proof. intros [H1 H2 H3]. by split. Qed.

Lemma move_bucket_ok old : ∀ h,
  shape h → let h' := move_bucket hash h old in
  shape h' ∧ elements h' ≡ₚ old ++ elements h ∧ elem_cnt h' = elem_cnt h ∧ bucket_cnt h' = bucket_cnt h.
Proof using Callbacks0.
  induction old as [|e old IH]; intros h Hs; [done|]. simpl.
  destruct (IH _ (push_bucket_shape h e Hs)) as (H1 & H2 & H3 & H4). split_and!; try done.
  unfold move_bucket in H2. rewrite H2. unfold elements at 1. simpl.
  rewrite push_bucket_elements by (by apply find_bucket_lt). by rewrite Permutation_middle.
Qed.

Lemma move_buckets_ok olds : ∀ h,
  shape h → let h' := fold_left (move_bucket hash) olds h in
  shape h' ∧ elements h' ≡ₚ concat olds ++ elements h ∧ elem_cnt h' = elem_cnt h.
Proof using Callbacks0.
  induction olds as [|b olds IH]; intros h Hs; [done|]. simpl.
  destruct (move_bucket_ok b h Hs) as (H1 & H2 & H3 & _). destruct (IH _ H1) as (H4 & H5 & H6).
  split_and!; [done| |congruence]. rewrite H5, H2. rewrite !app_assoc. f_equiv. by rewrite (Permutation_app_comm b).
Qed.

Lemma concat_replicate_nil n : concat (replicate n ([] : list Z)) = [].
Proof. by induction n. Qed.

Lemma empty_shape k c : 0 ≤ k < 63 → shape (Table c (2 ^ k) (replicate (Z.to_nat (2 ^ k)) [])).
Proof.
  intros Hk. pose proof (pow2_pos k ltac:(lia)). split; simpl.
  - by exists k.
  - rewrite length_replicate. lia.
  - intros i b e Hi Hx. apply lookup_replicate in Hi as [-> _]. by apply elem_of_nil in Hx.
Qed.

(** Rehashing moves elements between buckets only, whether or not there is
    memory. *)
Lemma rehash_ok mem h :
  shape h → 0 ≤ elem_cnt h < 2 ^ 64 →
  ∃ h', rehash hash mem h = Ok h' ∧ shape h' ∧ elements h' ≡ₚ elements h ∧ elem_cnt h' = elem_cnt h.
Proof using Callbacks0.
  intros Hs Hc. unfold rehash. destruct (ideal_ok (elem_cnt h) Hc) as (k & Hk & Hi & _). rewrite Hi.
  cbn [mbind res_bind]. destruct (2 ^ k =? bucket_cnt h); [by exists h|]. destruct mem; [|by exists h].
  destruct (move_buckets_ok (buckets h) _ (empty_shape k (elem_cnt h) ltac:(lia))) as (H1 & H2 & H3).
  eexists. split; [done|]. split_and!; [done| |done]. rewrite H2. unfold elements at 1. simpl.
  by rewrite concat_replicate_nil, app_nil_r.
Qed.

(** ** Operations *)

Lemma insert_elem_ok h e :
  inv h → (∀ x, x ∈ elements h → ¬ equiv x e) → elem_cnt h + 1 < 2 ^ 64 →
  let h' := insert_elem (find_bucket hash h e) e h in
  inv h' ∧ elements h' ≡ₚ e :: elements h ∧ elem_cnt h' = elem_cnt h + 1.
Proof using Callbacks0.
  intros [Hs Hc Hd] Hne Hmax h'. assert (Hp : elements h' ≡ₚ e :: elements h).
  { unfold h', elements. simpl. apply push_bucket_elements. by apply find_bucket_lt. }
  assert (elem_cnt h' = elem_cnt h + 1) by (unfold h'; simpl; rewrite u64_small; lia).
  split_and!; try done. split.
  - unfold h', insert_elem. eapply shape_cnt_irrel, push_bucket_shape, Hs.
  - apply Permutation_length in Hp. cbn [length] in Hp. lia.
  - eapply distinct_perm; [symmetry; exact Hp|]. by apply distinct_cons.
Qed.

Lemma concat_filter e (bs : list (list Z)) :
  concat (filter (λ x, x ≠ e) <$> bs) = filter (λ x, x ≠ e) (concat bs).
Proof. induction bs as [|b bs IH]; [done|]. rewrite fmap_cons. cbn [concat]. by rewrite filter_app, IH. Qed.

Lemma filter_absent (e : Z) (l : list Z) : e ∉ l → filter (λ x, x ≠ e) l = l.
Proof.
  induction l as [|x l IH]; [done|]. rewrite not_elem_of_cons. intros [Hx Hl].
  rewrite filter_cons_True by congruence. by rewrite IH.
Qed.

Lemma filter_perm (e : Z) (l : list Z) : NoDup l → e ∈ l → e :: filter (λ x, x ≠ e) l ≡ₚ l.
Proof.
  induction 1 as [|x l Hx Hn IH]; [by intros ?%elem_of_nil|]. rewrite elem_of_cons, filter_cons.
  destruct (decide (x = e)) as [->|Hne].
  - intros _. rewrite decide_False by tauto. f_equiv. by rewrite filter_absent.
  - intros [->|Hin]; [done|]. rewrite decide_True by done. rewrite Permutation_swap. f_equiv. by apply IH.
Qed.

Lemma remove_elem_ok h e :
  inv h → e ∈ elements h → elem_cnt h < 2 ^ 64 →
  let h' := remove_elem e h in
  inv h' ∧ e :: elements h' ≡ₚ elements h ∧ elem_cnt h' = elem_cnt h - 1.
Proof.
  intros [Hs Hc [Hd1 Hd2]] Hin Hmax h'. assert (He : elements h' = filter (λ x, x ≠ e) (elements h)).
  { unfold h', elements. simpl. apply concat_filter. }
  assert (Hp : e :: elements h' ≡ₚ elements h) by (rewrite He; by apply filter_perm).
  apply Permutation_length in Hp as Hl. simpl in Hl.
  assert (elem_cnt h' = elem_cnt h - 1) by (unfold h'; simpl; rewrite u64_small; lia).
  split_and!; try done. split.
  - destruct Hs as [H1 H2 H3]. split; simpl; [done|by rewrite length_fmap|].
    intros i b x Hi Hx. simpl in Hi. rewrite list_lookup_fmap in Hi.
    destruct (buckets h !! i) as [b'|] eqn:E; [|done]. simpl in Hi. simplify_eq.
    apply list_elem_of_filter in Hx as [_ Hx]. by apply (H3 i b' x).
  - lia.
  - rewrite He. split; [by apply NoDup_filter|]. intros x y [_ Hx]%list_elem_of_filter [_ Hy]%list_elem_of_filter.
    by apply Hd2.
Qed.

(** The invariant only speaks of the elements up to order. *)
Lemma inv_rehash mem h :
  inv h → elem_cnt h < 2 ^ 64 →
  ∃ h', rehash hash mem h = Ok h' ∧ inv h' ∧ elements h' ≡ₚ elements h ∧ elem_cnt h' = elem_cnt h.
Proof using Callbacks0.
  intros [Hs Hc Hd] Hmax. destruct (rehash_ok mem h Hs) as (h' & Hr & Hs' & Hp & Hc'); [lia|].
  exists h'. split_and!; try done. split; [done|by rewrite Hc', Hp|].
  eapply distinct_perm; [symmetry; exact Hp|done].
Qed.

(** ** The table as a set *)

Inductive op := Insert (e : Z) | Replace (e : Z) | Delete (e : Z) | Find (e : Z).

Definition do_op (mem : bool) (o : op) (h : table) : res (option Z * table) :=
  match o with
  | Insert e => hash_insert hash less mem e h
  | Replace e => hash_replace hash less mem e h
  | Delete e => hash_delete hash less mem e h
  | Find e => Ok (hash_find hash less e h, h)
  end.

(** The specification: a set kept as a list of elements in any order. *)
Definition spec_op (o : op) (l : list Z) : option Z * list Z :=
  match o with
  | Insert e => match find_elem less l e with Some x => (Some x, l) | None => (None, e :: l) end
  | Replace e =>
    match find_elem less l e with
    | Some x => (Some x, e :: filter (λ y, y ≠ x) l) | None => (None, e :: l)
    end
  | Delete e =>
    match find_elem less l e with
    | Some x => (Some x, filter (λ y, y ≠ x) l) | None => (None, l)
    end
  | Find e => (find_elem less l e, l)
  end.

Definition sim (h : table) (l : list Z) : Prop := inv h ∧ elements h ≡ₚ l.

Lemma find_agree h l e : sim h l → hash_find hash less e h = find_elem less l e.
Proof using Callbacks0.
  intros [[Hs _ [_ Hd]] Hp]. destruct (hash_find hash less e h) as [x|] eqn:E1, (find_elem less l e) as [y|] eqn:E2; try done.
  - apply hash_find_some in E1 as [Hx Hxe]. apply find_elem_some in E2 as [Hy Hye]. rewrite <- Hp in Hy.
    f_equal. apply Hd; try done. eapply equiv_trans; [done|by apply equiv_sym].
  - apply hash_find_some in E1 as [Hx Hxe]. rewrite Hp in Hx. by apply (find_elem_none _ _ x) in E2.
  - apply find_elem_some in E2 as [Hy Hye]. rewrite <- Hp in Hy. by apply (hash_find_none _ _ y) in E1.
Qed.

Lemma sim_insert h l e :
  sim h l → (∀ x, x ∈ l → ¬ equiv x e) → elem_cnt h + 1 < 2 ^ 64 →
  sim (insert_elem (find_bucket hash h e) e h) (e :: l) ∧
  elem_cnt (insert_elem (find_bucket hash h e) e h) = elem_cnt h + 1.
Proof using Callbacks0.
  intros [Hi Hp] Hne Hmax.
  destruct (insert_elem_ok h e Hi) as (H1 & H2 & H3); [intros x; rewrite Hp; apply Hne|done|].
  split; [|done]. split; [done|]. by rewrite H2, Hp.
Qed.

Lemma sim_remove h l x :
  sim h l → x ∈ l → elem_cnt h < 2 ^ 64 →
  sim (remove_elem x h) (filter (λ y, y ≠ x) l) ∧ elem_cnt (remove_elem x h) = elem_cnt h - 1.
Proof.
  intros [Hi Hp] Hx Hmax. assert (Hx' : x ∈ elements h) by (by rewrite Hp).
  destruct (remove_elem_ok h x Hi Hx' Hmax) as (H1 & H2 & H3). split; [|done]. split; [done|].
  unfold remove_elem, elements. simpl. rewrite concat_filter. by rewrite Hp.
Qed.

Lemma sim_rehash mem h l :
  sim h l → elem_cnt h < 2 ^ 64 → ∃ h', rehash hash mem h = Ok h' ∧ sim h' l ∧ elem_cnt h' = elem_cnt h.
Proof using Callbacks0.
  intros [Hi Hp] Hmax. destruct (inv_rehash mem h Hi Hmax) as (h' & Hr & Hi' & Hp' & Hc).
  exists h'. split; [done|]. split; [|done]. split; [done|]. by rewrite Hp'.
Qed.

(** The element replaced was the only one equal to the new one. *)
Lemma others_differ h l e x :
  sim h l → x ∈ l → equiv x e → ∀ y, y ∈ filter (λ y, y ≠ x) l → ¬ equiv y e.
Proof using Callbacks0.
  intros [[_ _ [_ Hd]] Hp] Hx Hxe y [Hne Hy]%list_elem_of_filter Hye. apply Hne, Hd; [by rewrite Hp..|].
  eapply equiv_trans; [done|by apply equiv_sym].
Qed.

Lemma do_op_ok mem o h l :
  sim h l → elem_cnt h + 1 < 2 ^ 64 →
  ∃ h', do_op mem o h = Ok ((spec_op o l).1, h') ∧ sim h' (spec_op o l).2 ∧
        elem_cnt h' ≤ elem_cnt h + 1.
Proof using Callbacks0.
  intros Hsim Hmax. destruct o as [e|e|e|e]; simpl.
  - unfold hash_insert. change (find_elem less (buckets h !!! find_bucket hash h e) e) with (hash_find hash less e h).
    rewrite (find_agree h l e Hsim). destruct (find_elem less l e) as [x|] eqn:E.
    + destruct (sim_rehash mem h l Hsim) as (h' & -> & Hs & Hc); [lia|]. exists h'. split; [done|]. split; [done|lia].
    + destruct (sim_insert h l e Hsim) as [Hs Hc]; [intros x; by apply find_elem_none|done|].
      destruct (sim_rehash mem _ _ Hs) as (h' & -> & Hs' & Hc'); [lia|]. exists h'. split; [done|]. split; [done|lia].
  - unfold hash_replace. change (find_elem less (buckets h !!! find_bucket hash h e) e) with (hash_find hash less e h).
    rewrite (find_agree h l e Hsim). destruct (find_elem less l e) as [x|] eqn:E.
    + apply find_elem_some in E as [Hx Hxe]. destruct (sim_remove h l x Hsim Hx) as [Hs Hc]; [lia|].
      change (find_bucket hash h e) with (find_bucket hash (remove_elem x h) e).
      destruct (sim_insert _ _ e Hs) as [Hs1 Hc1]; [by eapply others_differ|lia|].
      destruct (sim_rehash mem _ _ Hs1) as (h' & -> & Hs' & Hc'); [lia|]. exists h'. split; [done|]. split; [done|lia].
    + destruct (sim_insert h l e Hsim) as [Hs Hc]; [intros x; by apply find_elem_none|done|].
      destruct (sim_rehash mem _ _ Hs) as (h' & -> & Hs' & Hc'); [lia|]. exists h'. split; [done|]. split; [done|lia].
  - unfold hash_delete. change (find_elem less (buckets h !!! find_bucket hash h e) e) with (hash_find hash less e h).
    rewrite (find_agree h l e Hsim). destruct (find_elem less l e) as [x|] eqn:E.
    + apply find_elem_some in E as [Hx Hxe]. destruct (sim_remove h l x Hsim Hx) as [Hs Hc]; [lia|].
      destruct (sim_rehash mem _ _ Hs) as (h' & -> & Hs' & Hc'); [lia|]. exists h'. split; [done|]. split; [done|lia].
    + exists h. split; [done|]. split; [done|lia].
  - rewrite (find_agree h l e Hsim). exists h. split; [done|]. split; [done|lia].
Qed.

(** A sequence of operations, each with its allocation outcome. *)
Fixpoint run_ops (os : list (bool * op)) (h : table) : res (list (option Z) * table) :=
  match os with
  | [] => Ok ([], h)
  | (mem, o) :: os =>
    '(r, h) ← do_op mem o h; '(rs, h) ← run_ops os h; Ok (r :: rs, h)
  end.

Fixpoint spec_ops (os : list (bool * op)) (l : list Z) : list (option Z) * list Z :=
  match os with
  | [] => ([], l)
  | (_, o) :: os => let '(r, l) := spec_op o l in let '(rs, l) := spec_ops os l in (r :: rs, l)
  end.

Lemma run_ops_ok os : ∀ h l,
  sim h l → elem_cnt h + Z.of_nat (length os) < 2 ^ 64 →
  ∃ h', run_ops os h = Ok ((spec_ops os l).1, h') ∧ sim h' (spec_ops os l).2.
Proof using Callbacks0.
  induction os as [|[mem o] os IH]; intros h l Hsim Hmax; cbn [length] in Hmax; [by exists h|].
  cbn [run_ops spec_ops]. destruct (do_op_ok mem o h l Hsim) as (h1 & -> & Hs1 & Hc1); [lia|].
  destruct (spec_op o l) as [r l1]. simpl in Hs1. cbn [mbind res_bind].
  destruct (IH h1 l1 Hs1) as (h2 & -> & Hs2); [lia|]. destruct (spec_ops os l1) as [rs l2]. by exists h2.
Qed.

Lemma init_sim : sim (hash_init true).2 [].
Proof.
  split; [|done]. split; [|done|by split; [constructor|intros x y ?%elem_of_nil]].
  split; simpl; [exists 2; lia|done|]. intros i b e Hi Hx. simpl in Hi.
  destruct i as [|[|[|[|i]]]]; simpl in Hi; simplify_eq; by apply elem_of_nil in Hx.
Qed.

(** ** Iteration *)

Section iteration.
Context (h : table) (Hs : shape h).

(** Where the iteration continues after bucket [b] from [rest] of it. *)
Definition remaining (b : nat) (rest : list Z) : list Z := rest ++ concat (drop (S b) (buckets h)).

Lemma next_loop_ok k : ∀ b pre rest,
  (b + S k = length (buckets h))%nat → buckets h !!! b = pre ++ rest →
  match remaining b rest with
  | [] => ∃ b', next_loop k h b (head rest) = Iterator b' AtNull
  | e :: l => ∃ b' pre' rest', next_loop k h b (head rest) = Iterator b' (AtElem e) ∧
      (b' < length (buckets h))%nat ∧ buckets h !!! b' = pre' ++ e :: rest' ∧ l = remaining b' rest'
  end.
Proof.
  induction k as [|k IH]; intros b pre rest Hb Hrest.
  - unfold remaining at 1. rewrite drop_ge, app_nil_r by lia. destruct rest as [|e rest]; simpl; [by eexists|].
    exists b, pre, rest. split_and!; [done|lia|done|]. unfold remaining. by rewrite drop_ge, app_nil_r by lia.
  - destruct rest as [|e rest]; [|simpl; exists b, pre, rest; split_and!; try done; lia].
    cbn [head next_loop]. destruct (lookup_lt_is_Some_2 (buckets h) (S b)) as [c Hc]; [lia|].
    rewrite (list_lookup_total_correct _ _ _ Hc).
    assert (remaining b [] = remaining (S b) c) as -> by (unfold remaining; simpl; by rewrite (drop_S _ _ _ Hc)).
    apply (IH (S b) []); [lia|]. by rewrite (list_lookup_total_correct _ _ _ Hc).
Qed.

Lemma after_ok (e : Z) (l r : list Z) : e ∉ l → after e (l ++ e :: r) = head r.
Proof.
  induction l as [|x l IH]; simpl; [by rewrite Z.eqb_refl|]. rewrite not_elem_of_cons. intros [Hx Hl].
  assert (x =? e = false) as -> by (apply Z.eqb_neq; congruence). by apply IH.
Qed.

(** The documented loop: call [hash_next] and use [hash_cur] until the end. *)
Fixpoint iterate (fuel : nat) (i : iterator) : res (list Z) :=
  match fuel with
  | O => Err NoFuel
  | S fuel =>
    i ← hash_next h i;
    match hash_cur i with
    | None => Ok []
    | Some e => l ← iterate fuel i; Ok (e :: l)
    end
  end.

Lemma bucket_nodup b : NoDup (elements h) → NoDup (buckets h !!! b).
Proof.
  intros Hn. destruct (buckets h !! b) as [c|] eqn:E.
  - rewrite (list_lookup_total_correct _ _ _ E). unfold elements in Hn.
    rewrite <- (take_drop_middle _ _ _ E), concat_app in Hn. cbn [concat] in Hn.
    apply NoDup_app in Hn as (_ & _ & Hn). by apply NoDup_app in Hn as (Hn & _ & _).
  - rewrite list_lookup_total_alt, E. constructor.
Qed.

Lemma iterate_ok fuel : ∀ b pre rest c,
  NoDup (elements h) → (b < length (buckets h))%nat → buckets h !!! b = pre ++ rest →
  cursor_next c (buckets h !!! b) = Ok (head rest) → (length (remaining b rest) < fuel)%nat →
  iterate fuel (Iterator b c) = Ok (remaining b rest).
Proof using Hs.
  induction fuel as [|fuel IH]; intros b pre rest c Hn Hb Hr Hc Hf; [lia|].
  cbn [iterate]. unfold hash_next. cbn [it_bucket it_elem]. rewrite Hc. cbn [mbind res_bind].
  assert (Hk : (b + S (Z.to_nat (bucket_cnt h) - S b) = length (buckets h))%nat)
    by (pose proof (shape_len _ Hs); lia).
  pose proof (next_loop_ok _ b pre rest Hk Hr) as Hl.
  destruct (remaining b rest) as [|e l]; [by destruct Hl as (b' & ->)|].
  destruct Hl as (b' & pre' & rest' & -> & Hb' & Hr' & ->). cbn [hash_cur it_elem].
  rewrite (IH b' (pre' ++ [e]) rest'); try done.
  - by rewrite <- app_assoc.
  - cbn [cursor_next]. rewrite Hr', after_ok; [done|]. pose proof (bucket_nodup b' Hn) as Hnd.
    rewrite Hr' in Hnd. apply NoDup_app in Hnd as (_ & Hnd & _). intros He. apply (Hnd e He). left.
  - simpl in Hf. lia.
Qed.
End iteration.
End table.

(** ** Theorems *)

(** C15: for every sequence of insertions, replacements, deletions and lookups
    and every sequence of allocation outcomes, a hash table returns what a
    plain set of elements would, and holds exactly that set's elements, each in
    the bucket its hash value selects. *)
Theorem hash_refines_set hash less os :
  Callbacks hash less → Z.of_nat (length os) < 2 ^ 64 →
  ∃ h, run_ops hash less os (hash_init true).2 = Ok ((spec_ops less os []).1, h) ∧
    inv hash less h ∧ elements h ≡ₚ (spec_ops less os []).2 ∧
    hash_size h = Z.of_nat (length (spec_ops less os []).2).
Proof.
  intros Hc Hl. destruct (run_ops_ok hash less os (hash_init true).2 [] (init_sim hash less)) as (h & Hr & Hi & Hp); [done|].
  exists h. split_and!; try done. unfold hash_size. by rewrite (inv_elem_cnt _ _ _ Hi), Hp.
Qed.

(** The documented iteration visits every element of a well-formed table
    exactly once and then ends. *)
Theorem hash_iteration_complete hash less h :
  inv hash less h → iterate h (S (length (elements h))) (hash_first h) = Ok (elements h).
Proof.
  intros [Hs _ [Hn _]]. destruct (buckets h) as [|b bs] eqn:E.
  { destruct Hs as [(k & Hk & Hc) Hl _]. rewrite E, Hc in Hl. pose proof (pow2_pos k ltac:(lia)). simpl in Hl. lia. }
  assert (Hr : remaining h 0 b = elements h) by (unfold remaining, elements; by rewrite E).
  rewrite <- Hr at 2. unfold hash_first.
  apply (iterate_ok hash h Hs) with []; rewrite ?E, ?Hr; simpl; try done; lia.
Qed.

(** [rehash] chooses the largest power of two that is at most half the
    number of elements, but at least four. *)
Theorem rehash_bucket_count n :
  0 ≤ n < 2 ^ 64 →
  ∃ k, ideal_bucket_cnt n = Ok (2 ^ k) ∧ 2 ≤ k < 63 ∧ 2 ^ k ≤ Z.max 4 (n / 2) < 2 ^ (k + 1).
Proof. intros Hn. destruct (ideal_ok n Hn) as (k & H1 & H2 & H3). by exists k. Qed.

(** ** Witnesses: integers as elements, equal when equal modulo 100. *)

Definition demo_hash (e : Z) : Z := e mod 100.
Definition demo_less (a b : Z) : bool := a mod 100 <? b mod 100.

Lemma demo_callbacks : Callbacks demo_hash demo_less.
Proof.
  assert (He : ∀ a b, equiv demo_less a b ↔ a mod 100 = b mod 100)
    by (intros; unfold equiv, demo_less; rewrite !Z.ltb_ge; lia).
  split.
  - intros e. unfold demo_hash. pose proof (Z.mod_pos_bound e 100). lia.
  - intros a b. rewrite He. done.
  - intros a. apply Z.ltb_irrefl.
  - intros a b c. rewrite !He. lia.
Qed.

Definition demo_ops : list (bool * op) :=
  (λ e, (true, Insert e)) <$> [1; 2; 3; 4; 5; 6; 7; 8; 9; 10; 11; 12; 13; 14; 15; 16; 17].

Lemma hash_refines_set_witness :
  ∃ h, run_ops demo_hash demo_less (demo_ops ++ [(false, Replace 103); (true, Find 3); (true, Delete 203)])
         (hash_init true).2 = Ok (replicate 17 None ++ [Some 3; Some 103; Some 103], h) ∧ hash_size h = 16.
Proof.
  destruct (hash_refines_set demo_hash demo_less
    (demo_ops ++ [(false, Replace 103); (true, Find 3); (true, Delete 203)]) demo_callbacks) as (h & H1 & _ & _ & H2);
    [reflexivity|].
  exists h. split; [exact H1|exact H2].
Defined.

Lemma hash_iteration_complete_witness :
  ∃ h, iterate h (S (length (elements h))) (hash_first h) = Ok (elements h) ∧ hash_size h = 17.
Proof.
  destruct (run_ops_ok demo_hash demo_less (Callbacks0 := demo_callbacks) demo_ops (hash_init true).2 []
    (init_sim demo_hash demo_less)) as (h & _ & Hi & Hp); [reflexivity|].
  exists h. split; [exact (hash_iteration_complete demo_hash demo_less h Hi)|].
  unfold hash_size. rewrite (inv_elem_cnt _ _ _ Hi), Hp. reflexivity.
Defined.

Lemma rehash_bucket_count_witness : ∃ k, ideal_bucket_cnt 100 = Ok (2 ^ k).
Proof. destruct (rehash_bucket_count 100) as (k & H & _); [lia|]. exists k. exact H. Defined.
End HashTheorems.
