(* ===== verification/Stdio.v ===== *)
(** lib/stdio.c: formatted output.

    A format or string argument is the sequence of bytes from its address on,
    terminator included; reading past what is mapped is [BadAddr].  The output
    callback only ever receives characters, so the formatting functions return
    the characters they output; [vsnprintf] feeds them to its helper one by
    one.  A [va_list] is the sequence of remaining arguments. *)
From S2P Require Import Prelude StringC StdlibC.
From Stdlib Require Import Ascii.
Import StringC StdlibC.
Local Open Scope Z_scope.

Module Stdio.

(** A C string literal: its characters and the terminator. *)
Fixpoint chars (s : string) : list Z :=
  match s with
  | EmptyString => []
  | String.String c s => Z.of_N (Ascii.N_of_ascii c) :: chars s
  end.
Definition lit (s : string) : list Z := chars s ++ [0].

(** An integer argument as the 64-bit slot it is passed in, or a string
    ([None] for a null pointer). *)
Inductive arg := Int (v : Z) | Str (s : option (list Z)).

Definition va_arg (args : list arg) : res (Z * list arg) :=
  match args with Int v :: args => Ok (v, args) | _ => Err BadAddr end.
Definition va_arg_str (args : list arg) : res (option (list Z) * list arg) :=
  match args with Str s :: args => Ok (s, args) | _ => Err BadAddr end.

(** ** Conversions *)

Definition MINUS : Z := 1.
Definition PLUS : Z := 2.
Definition SPACE : Z := 4.
Definition POUND : Z := 8.
Definition ZERO : Z := 16.
Definition GROUP : Z := 32.

Inductive arg_type := CHAR | SHORT | INT | INTMAX | LONG | LONGLONG | PTRDIFFT | SIZET.

Record printf_conversion := Conversion {
  flags : Z; width : Z; precision : Z; type : arg_type }.

Record integer_base := Base { base : Z; digits : list Z; base_x_char : Z; group : Z }.

Definition base_d : integer_base := Base 10 (chars "0123456789") 0 3.
Definition base_o : integer_base := Base 8 (chars "01234567") 0 3.
Definition base_x : integer_base := Base 16 (chars "0123456789abcdef") 120 4.
Definition base_X : integer_base := Base 16 (chars "0123456789ABCDEF") 88 4.

Definition has (fl f : Z) : bool := negb (Z.land fl f =? 0).
Definition without (fl f : Z) : Z := Z.land fl (Z.lnot f).

(** The characters of the flags, and the first that is none. *)
Fixpoint parse_flags (fl : Z) (format : list Z) : res (Z * list Z) :=
  match format with
  | [] => Err BadAddr
  | c :: rest =>
    if c =? 45 then parse_flags (Z.lor fl MINUS) rest
    else if c =? 43 then parse_flags (Z.lor fl PLUS) rest
    else if c =? 32 then parse_flags (Z.lor fl SPACE) rest
    else if c =? 35 then parse_flags (Z.lor fl POUND) rest
    else if c =? 48 then parse_flags (Z.lor fl ZERO) rest
    else if c =? 39 then parse_flags (Z.lor fl GROUP) rest
    else Ok (fl, format)
  end.

(** Decimal digits of a width or precision. *)
Fixpoint parse_number (v : Z) (format : list Z) : res (Z * list Z) :=
  match format with
  | [] => Err BadAddr
  | c :: rest =>
    if isdigit (char_int c) then parse_number (i32 (i32 (i32 (v * 10) + c) - 48)) rest
    else Ok (v, format)
  end.

Definition peek (format : list Z) : res Z :=
  match format with [] => Err BadAddr | c :: _ => Ok c end.

Definition parse_type (format : list Z) : res (arg_type * list Z) :=
  c ← peek format;
  let rest := tail format in
  if c =? 104 then
    c2 ← peek rest; Ok (if c2 =? 104 then (CHAR, tail rest) else (SHORT, rest))
  else if c =? 106 then Ok (INTMAX, rest)
  else if c =? 108 then
    c2 ← peek rest; Ok (if c2 =? 108 then (LONGLONG, tail rest) else (LONG, rest))
  else if c =? 116 then Ok (PTRDIFFT, rest)
  else if c =? 122 then Ok (SIZET, rest)
  else Ok (INT, format).

Definition parse_conversion (format : list Z) (args : list arg)
    : res (printf_conversion * list Z * list arg) :=
  '(fl, format) ← parse_flags 0 format;
  let fl := if has fl MINUS then without fl ZERO else fl in
  let fl := if has fl PLUS then without fl SPACE else fl in
  (* Field width. *)
  c ← peek format;
  '(w, format, args) ←
    (if c =? 42 then '(v, args) ← va_arg args; Ok (i32 v, tail format, args)
     else '(v, format) ← parse_number 0 format; Ok (v, format, args));
  let '(w, fl) := if w <? 0 then (i32 (- w), Z.lor fl MINUS) else (w, fl) in
  (* Precision. *)
  c ← peek format;
  '(p, format, args) ←
    (if c =? 46 then
       c2 ← peek (tail format);
       '(p, format, args) ←
         (if c2 =? 42 then '(v, args) ← va_arg args; Ok (i32 v, tail (tail format), args)
          else '(v, format) ← parse_number 0 (tail format); Ok (v, format, args));
       Ok (if p <? 0 then -1 else p, format, args)
     else Ok (-1, format, args));
  let fl := if 0 <=? p then without fl ZERO else fl in
  '(t, format) ← parse_type format;
  Ok (Conversion fl w p t, format, args).

(** ** Integers *)

(** [char buf[64]] and [cp], kept as the characters written so far, last one
    first. *)
Definition put (ch : Z) (buf : list Z) : res (list Z) :=
  if (length buf <? 64)%nat then Ok (ch :: buf) else Err BadAddr.

(** [while (value > 0)]: digits from the lowest on. *)
Fixpoint digits_loop (fuel : nat) (c : printf_conversion) (b : integer_base)
    (value digit_cnt : Z) (buf : list Z) : res (list Z) :=
  match fuel with
  | O => Err NoFuel
  | S fuel =>
    if 0 <? value then
      buf ← (if has (flags c) GROUP && (0 <? digit_cnt) && (digit_cnt mod group b =? 0)
             then put 44 buf else Ok buf);
      match digits b !! Z.to_nat (value mod base b) with
      | None => Err BadAddr
      | Some d =>
        buf ← put d buf;
        digits_loop fuel c b (value / base b) (digit_cnt + 1) buf
      end
    else Ok buf
  end.

(** [while (cp - buf < precision && cp < buf + sizeof buf - 1) *cp++ = '0';],
    [k] iterations at most. *)
Fixpoint zeros_loop (k : nat) (prec : Z) (buf : list Z) : res (list Z) :=
  match k with
  | O => Ok buf
  | S k =>
    if (Z.of_nat (length buf) <? prec) && (length buf <? 63)%nat
    then buf ← put 48 buf; zeros_loop k prec buf
    else Ok buf
  end.

Definition output_dup (ch cnt : Z) : list Z := replicate (Z.to_nat cnt) ch.

(** The sign character, or 0. *)
Definition sign_char (fl : Z) (is_signed negative : bool) : Z :=
  if is_signed then
    if has fl PLUS then if negative then 45 else 43
    else if has fl SPACE then if negative then 45 else 32
    else if negative then 45 else 0
  else 0.

Definition format_integer (value : Z) (is_signed negative : bool) (b : integer_base)
    (c : printf_conversion) : res (list Z) :=
  let sign := sign_char (flags c) is_signed negative in
  let x := if has (flags c) POUND && negb (value =? 0) then base_x_char b else 0 in
  buf ← digits_loop 65 c b value 0 [];
  let prec := if precision c <? 0 then 1 else precision c in
  buf ← zeros_loop 64 prec buf;
  buf ← (if has (flags c) POUND && (base b =? 8)
            && match buf with [] => true | d :: _ => negb (d =? 48) end
         then put 48 buf else Ok buf);
  let pad_cnt := width c - Z.of_nat (length buf) - (if x =? 0 then 0 else 2)
                 - (if sign =? 0 then 0 else 1) in
  let pad_cnt := if pad_cnt <? 0 then 0 else pad_cnt in
  Ok ((if Z.land (flags c) (Z.lor MINUS ZERO) =? 0 then output_dup 32 pad_cnt else [])
      ++ (if sign =? 0 then [] else [sign])
      ++ (if x =? 0 then [] else [48; x])
      ++ (if has (flags c) ZERO then output_dup 48 pad_cnt else [])
      ++ buf
      ++ (if has (flags c) MINUS then output_dup 32 pad_cnt else [])).

(** ** Strings *)

(** [strnlen], on the bytes of the string: the byte is read before the bound is
    tested. *)
Fixpoint strnlen_bytes (s : list Z) (maxlen : Z) : res nat :=
  match s with
  | [] => Err BadAddr
  | c :: s => if negb (c =? 0) && (0 <? maxlen) then n ← strnlen_bytes s (maxlen - 1); Ok (S n) else Ok O
  end.

Definition format_string (string : list Z) (len : nat) (c : printf_conversion) : list Z :=
  let pad := output_dup 32 (width c - Z.of_nat len) in
  let wide := Z.of_nat len <? width c in
  (if wide && negb (has (flags c) MINUS) then pad else [])
  ++ take len string
  ++ (if wide && has (flags c) MINUS then pad else []).

(** ** __vprintf *)

(** The argument of a signed conversion. *)
Definition signed_value (t : arg_type) (v : Z) : Z :=
  match t with
  | CHAR => (v + 2 ^ 7) mod 2 ^ 8 - 2 ^ 7
  | SHORT => (v + 2 ^ 15) mod 2 ^ 16 - 2 ^ 15
  | INT => i32 v
  | INTMAX | LONG | LONGLONG | PTRDIFFT => i64 v
  | SIZET => let value := i64 v in
             if 2147483647 <? value then i64 (value - 4294967295 - 1) else value
  end.

(** The argument of an unsigned conversion; [PTRDIFF_MAX] is [INT32_MAX]. *)
Definition unsigned_value (t : arg_type) (v : Z) : Z :=
  match t with
  | CHAR => u8 v
  | SHORT => u16 v
  | INT => u32 v
  | INTMAX | LONG | LONGLONG | SIZET => u64 v
  | PTRDIFFT => Z.land (u64 v) (Z.lor (Z.shiftl 2147483647 1) 1)
  end.

Definition unsigned_base (ch : Z) : integer_base :=
  if ch =? 111 then base_o else if ch =? 117 then base_d else if ch =? 120 then base_x else base_X.

Definition one_of (ch : Z) (l : list Z) : bool := bool_decide (ch ∈ l).

(** [fuel] bounds the number of format characters and of nested calls. *)
Fixpoint __vprintf (fuel : nat) (format : list Z) (args : list arg) : res (list Z) :=
  match fuel with
  | O => Err NoFuel
  | S fuel =>
    ch ← peek format;
    if ch =? 0 then Ok [] else
    if negb (ch =? 37) then out ← __vprintf fuel (tail format) args; Ok (ch :: out) else
    let format := tail format in
    ch ← peek format;
    if ch =? 37 then out ← __vprintf fuel (tail format) args; Ok (37 :: out) else
    '(c, format, args) ← parse_conversion format args;
    ch ← peek format;
    '(out, args) ←
      (if one_of ch [100; 105] then
         '(v, args) ← va_arg args;
         let value := signed_value (type c) v in
         out ← format_integer (u64 (if value <? 0 then i64 (- value) else value)) true (value <? 0) base_d c;
         Ok (out, args)
       else if one_of ch [111; 117; 120; 88] then
         '(v, args) ← va_arg args;
         out ← format_integer (unsigned_value (type c) v) false false (unsigned_base ch) c;
         Ok (out, args)
       else if ch =? 99 then
         '(v, args) ← va_arg args; Ok (format_string [u8 v] 1 c, args)
       else if ch =? 115 then
         '(s, args) ← va_arg_str args;
         let s := default (lit "(null)") s in
         n ← strnlen_bytes s (u64 (precision c)); Ok (format_string s n c, args)
       else if ch =? 112 then
         '(v, args) ← va_arg args;
         out ← format_integer (u64 v) false false base_x (Conversion POUND (width c) (precision c) (type c));
         Ok (out, args)
       else if one_of ch [102; 101; 69; 103; 71; 110] then
         out ← __vprintf fuel (lit "<<no %%%c in kernel>>") [Int ch]; Ok (out, args)
       else
         out ← __vprintf fuel (lit "<<no %%%c conversion>>") [Int ch]; Ok (out, args));
    rest ← __vprintf fuel (tail format) args; Ok (out ++ rest)
  end.

(** Enough for every format character and one nested call. *)
Definition vprintf_fuel (format : list Z) : nat := (32 + length format)%nat.

Definition __printf (format : list Z) (args : list arg) : res (list Z) :=
  __vprintf (vprintf_fuel format) format args.

(** ** Output into a buffer *)

Record vsnprintf_aux := Aux { p : Z; aux_length : Z; max_length : Z }.

Definition vsnprintf_helper (aux : vsnprintf_aux) (ch : Z) : st cmem vsnprintf_aux :=
  let aux' := Aux (p aux) (i32 (aux_length aux + 1)) (max_length aux) in
  if aux_length aux <? max_length aux
  then set_byte (p aux) ch;; mret (Aux (p aux + 1) (aux_length aux') (max_length aux))
  else mret aux'.

Fixpoint helper_loop (out : list Z) (aux : vsnprintf_aux) : st cmem vsnprintf_aux :=
  match out with
  | [] => mret aux
  | ch :: out => aux ← vsnprintf_helper aux ch; helper_loop out aux
  end.

Definition vsnprintf (buffer buf_size : Z) (format : list Z) (args : list arg) : st cmem Z :=
  let aux := Aux buffer 0 (i32 (if 0 <? buf_size then buf_size - 1 else 0)) in
  match __printf format args with
  | Err e => st_err e
  | Ok out =>
    aux ← helper_loop out aux;
    (if 0 <? buf_size then set_byte (p aux) 0 else mret tt);;
    mret (aux_length aux)
  end.

Definition snprintf (buffer buf_size : Z) (format : list Z) (args : list arg) : st cmem Z :=
  vsnprintf buffer buf_size format args.

(** The characters [printf] sends to the console. *)
Definition printf (format : list Z) (args : list arg) : res (list Z) := __printf format args.

(** ** hex_dump *)

Definition isprint (c : Z) : bool := (32 <=? c) && (c <? 127).

(** [k] calls of [f] at consecutive positions from [i] on. *)
Fixpoint for_each (k : nat) (i : Z) (f : Z → res (list Z)) : res (list Z) :=
  match k with
  | O => Ok []
  | S k => a ← f i; b ← for_each k (i + 1) f; Ok (a ++ b)
  end.

Definition get_buf (buf : list Z) (i : Z) : res Z :=
  match buf !! Z.to_nat i with Some c => Ok c | None => Err BadAddr end.

(** One line: the bytes [start] to [stop] of a row of 16. *)
Definition hex_line (ofs : Z) (buf : list Z) (start stop : Z) (ascii : bool) : res (list Z) :=
  let per_line := 16 in
  a ← printf (lit "%016llx  ") [Int (ofs / per_line * per_line)];
  b ← for_each (Z.to_nat start) 0 (λ _, printf (lit "   ") []);
  c ← for_each (Z.to_nat (stop - start)) start (λ i,
        v ← get_buf buf (i - start);
        printf (lit "%02hhx%c") [Int v; Int (if i =? per_line / 2 - 1 then 45 else 32)]);
  d ← (if ascii then
         e ← for_each (Z.to_nat (per_line - stop)) stop (λ _, printf (lit "   ") []);
         f ← printf (lit "|") [];
         g ← for_each (Z.to_nat start) 0 (λ _, printf (lit " ") []);
         h ← for_each (Z.to_nat (stop - start)) start (λ i,
               v ← get_buf buf (i - start);
               printf (lit "%c") [Int (if isprint v then v else 46)]);
         j ← for_each (Z.to_nat (per_line - stop)) stop (λ _, printf (lit " ") []);
         k ← printf (lit "|") [];
         Ok (e ++ f ++ g ++ h ++ j ++ k)
       else Ok []);
  Ok (a ++ b ++ c ++ d ++ [10]).

Fixpoint hex_dump_loop (fuel : nat) (ofs : Z) (buf : list Z) (size : Z) (ascii : bool) : res (list Z) :=
  match fuel with
  | O => Err NoFuel
  | S fuel =>
    if 0 <? size then
      let start := ofs mod 16 in
      let stop := if size <? 16 - start then start + size else 16 in
      let n := stop - start in
      a ← hex_line ofs buf start stop ascii;
      b ← hex_dump_loop fuel (u64 (ofs + n)) (drop (Z.to_nat n) buf) (size - n) ascii;
      Ok (a ++ b)
    else Ok []
  end.

(** Every line takes at least one byte. *)
Definition hex_dump (ofs : Z) (buf : list Z) (size : Z) (ascii : bool) : res (list Z) :=
  hex_dump_loop (S (Z.to_nat size)) ofs buf size ascii.

End Stdio.
