(* ===== verification/StdioTheorems.v ===== *)
(** lib/stdio.c: integer conversions stay inside their buffer, [snprintf]
    inside the caller's, and printing an [int] is undone by [atoi]. *)

From S2P Require Import Prelude StringC StringTheorems StdlibC StdlibTheorems Stdio.
Import StringC StringTheorems StdlibC StdlibTheorems Stdio.
Local Open Scope Z_scope.

Module StdioTheorems.

(** ** The buffer of format_integer *)

(** The four bases of the source: at least octal, one digit per value. *)
Definition base_ok (b : integer_base) : Prop :=
  8 ≤ base b ∧ Z.of_nat (length (digits b)) = base b.

Lemma bases_ok : base_ok base_d ∧ base_ok base_o ∧ base_ok base_x ∧ base_ok base_X.
Proof. unfold base_ok. simpl. lia. Qed.

Lemma put_ok ch buf : (length buf < 64)%nat → put ch buf = Ok (ch :: buf).
Proof. intros H. unfold put. by apply Nat.ltb_lt in H as ->. Qed.

(** A digit and perhaps a separator per division. *)
Lemma digits_loop_fits k : ∀ fuel c b value n buf,
  base_ok b → 0 ≤ value < 8 ^ Z.of_nat k → (k < fuel)%nat → (length buf + 2 * k ≤ 64)%nat →
  ∃ buf', digits_loop fuel c b value n buf = Ok buf' ∧ (length buf' ≤ length buf + 2 * k)%nat.
Proof.
  induction k as [|k IH]; intros [|fuel] c b value n buf Hb Hv Hf Hl; try lia; cbn [digits_loop].
  - simpl in Hv. assert (0 <? value = false) as -> by (apply Z.ltb_ge; lia). exists buf. split; [done|lia].
  - destruct Hb as [Hb1 Hb2]. destruct (Z.ltb_spec 0 value); [|exists buf; split; [done|lia]].
    assert (Hdig : ∃ d, digits b !! Z.to_nat (value mod base b) = Some d).
    { apply lookup_lt_is_Some_2. pose proof (Z.mod_pos_bound value (base b)). lia. }
    destruct Hdig as [d Hd].
    assert (Hdiv : 0 ≤ value / base b < 8 ^ Z.of_nat k).
    { split; [apply Z.div_pos; lia|]. apply Z.div_lt_upper_bound; [lia|].
      rewrite Nat2Z.inj_succ, Z.pow_succ_r in Hv by lia. nia. }
    destruct (has (flags c) GROUP && (0 <? n) && (n mod group b =? 0)).
    + rewrite put_ok by lia. cbn [mbind res_bind]. rewrite Hd, put_ok by (simpl; lia). cbn [mbind res_bind].
      destruct (IH fuel c b (value / base b) (n + 1) (d :: 44 :: buf)) as (buf' & Hr & Hl');
        [done|done|lia|simpl; lia|]. exists buf'. split; [done|]. simpl in Hl'. lia.
    + cbn [mbind res_bind]. rewrite Hd, put_ok by lia. cbn [mbind res_bind].
      destruct (IH fuel c b (value / base b) (n + 1) (d :: buf)) as (buf' & Hr & Hl');
        [done|done|lia|simpl; lia|]. exists buf'. split; [done|]. simpl in Hl'. lia.
Qed.

Lemma zeros_loop_fits k : ∀ prec buf,
  (length buf ≤ 63)%nat → ∃ buf', zeros_loop k prec buf = Ok buf' ∧ (length buf' ≤ 63)%nat.
Proof.
  induction k as [|k IH]; intros prec buf Hl; cbn [zeros_loop]; [by exists buf|].
  destruct (_ <? prec), (Nat.ltb_spec (length buf) 63); cbn [andb]; try by exists buf.
  rewrite put_ok by lia. apply IH. simpl. lia.
Qed.

Lemma format_integer_short value is_signed negative b c :
  base_ok b → 0 ≤ value < 2 ^ 64 →
  ∃ out, format_integer value is_signed negative b c = Ok out ∧ (length out ≤ 3 * Z.to_nat (width c) + 67)%nat.
Proof.
  intros Hb Hv. unfold format_integer.
  destruct (digits_loop_fits 22 65 c b value 0 []) as (b1 & -> & H1); [done|lia|lia|simpl; lia|].
  cbn [mbind res_bind]. destruct (zeros_loop_fits 64 (if precision c <? 0 then 1 else precision c) b1) as (b2 & -> & H2);
    [simpl in H1; lia|]. cbn [mbind res_bind].
  assert (∃ b3, (if has (flags c) POUND && (base b =? 8) && match b2 with [] => true | d :: _ => negb (d =? 48) end then put 48 b2 else Ok b2) = Ok b3
    ∧ (length b3 ≤ 64)%nat) as (b3 & -> & H3).
  { destruct (has (flags c) POUND && _ && _); [rewrite put_ok by lia|]; eexists; (split; [done|]); simpl; lia. }
  cbn [mbind res_bind]. eexists. split; [done|]. unfold output_dup.
  repeat match goal with |- context [if ?x then _ else _] => destruct x end; rewrite ?length_app, ?length_replicate; simpl; rewrite ?length_app, ?length_replicate; simpl; lia.
Qed.

Lemma format_integer_ok value is_signed negative b c :
  base_ok b → 0 ≤ value < 2 ^ 64 → ∃ out, format_integer value is_signed negative b c = Ok out.
Proof. intros Hb Hv. destruct (format_integer_short value is_signed negative b c Hb Hv) as (out & H & _). by exists out. Qed.

(** ** Decimal text *)

Definition plain : printf_conversion := Conversion 0 0 (-1) INT.

Lemma decimal_snoc ds d : decimal (ds ++ [d]) = decimal ds * 10 + (d - 48).
Proof. unfold decimal. by rewrite fold_left_app. Qed.

Lemma digit_d v : 0 ≤ v < 10 → digits base_d !! Z.to_nat v = Some (48 + v).
Proof.
  intros Hv. assert (v = 0 ∨ v = 1 ∨ v = 2 ∨ v = 3 ∨ v = 4 ∨ v = 5 ∨ v = 6 ∨ v = 7 ∨ v = 8 ∨ v = 9) as H by lia.
  repeat (destruct H as [->|H]; [reflexivity|]). subst. reflexivity.
Qed.

Lemma digits_loop_decimal k : ∀ fuel value n buf,
  0 ≤ value < 10 ^ Z.of_nat k → (k < fuel)%nat → (length buf + k ≤ 64)%nat →
  ∃ ds, digits_loop fuel plain base_d value n buf = Ok (ds ++ buf) ∧
    Forall digit ds ∧ decimal ds = value ∧ (length ds ≤ k)%nat ∧ (0 < value → ds ≠ []).
Proof.
  induction k as [|k IH]; intros [|fuel] value n buf Hv Hf Hl; try lia; cbn [digits_loop].
  - simpl in Hv. assert (0 <? value = false) as -> by (apply Z.ltb_ge; lia). exists []. change (decimal []) with 0. split_and!; try done; lia.
  - destruct (Z.ltb_spec 0 value); [|exists []; change (decimal []) with 0; split_and!; try done; simpl; lia].
    change (has (flags plain) GROUP) with false. cbn [andb mbind res_bind].
    pose proof (Z.mod_pos_bound value 10 ltac:(lia)) as Hm. cbn [base base_d] in *.
    rewrite (digit_d (value mod 10)), put_ok by lia. cbn [mbind res_bind].
    assert (0 ≤ value / 10 < 10 ^ Z.of_nat k).
    { split; [apply Z.div_pos; lia|]. apply Z.div_lt_upper_bound; [lia|].
      rewrite Nat2Z.inj_succ, Z.pow_succ_r in Hv by lia. lia. }
    destruct (IH fuel (value / 10) (n + 1) ((48 + value mod 10) :: buf)) as (ds & Hr & Hd & Hdec & Hlen & _);
      [done|lia|simpl; lia|].
    exists (ds ++ [48 + value mod 10]). rewrite <- app_assoc. split_and!; [done| | | |].
    + apply Forall_app. split; [done|]. repeat constructor; unfold digit; lia.
    + rewrite decimal_snoc, Hdec. pose proof (Z.div_mod value 10). lia.
    + rewrite length_app. simpl. lia.
    + intros _ Hnil. by apply app_nil in Hnil as [_ ?].
Qed.

Lemma no_pad ch z : z ≤ 0 → output_dup ch (if z <? 0 then 0 else z) = [].
Proof. intros H. destruct (Z.ltb_spec z 0); [done|]. by replace z with 0 by lia. Qed.

(** What [%d] prints: a sign for negative numbers and decimal digits. *)
Lemma format_plain v neg :
  0 ≤ v < 2 ^ 64 →
  ∃ ds, format_integer v true neg base_d plain = Ok ((if neg then [45] else []) ++ ds) ∧
    ds ≠ [] ∧ Forall digit ds ∧ decimal ds = v ∧ (length ds ≤ 20)%nat.
Proof.
  intros Hv. unfold format_integer.
  destruct (digits_loop_decimal 20 65 v 0 []) as (ds & -> & Hd & Hdec & Hlen & Hne); [lia|lia|simpl; lia|].
  rewrite app_nil_r. cbn [mbind res_bind plain precision flags width has POUND Z.land negb andb Z.eqb].
  change (-1 <? 0) with true. cbv iota.
  destruct ds as [|d ds].
  - assert (v = 0) as -> by (destruct (decide (0 < v)); [by destruct Hne|unfold decimal in Hdec; simpl in Hdec; lia]).
    exists [48]. split_and!; [by destruct neg|done|repeat constructor; lia|done|simpl; lia].
  - exists (d :: ds). split_and!; try done.
    assert (zeros_loop 64 1 (d :: ds) = Ok (d :: ds)) as ->.
    { cbn [zeros_loop]. by assert (Z.of_nat (length (d :: ds)) <? 1 = false) as -> by (apply Z.ltb_ge; simpl; lia). }
    cbn [mbind res_bind]. unfold sign_char.
    change (has 0 POUND) with false. change (has 0 PLUS) with false. change (has 0 SPACE) with false.
    change (has 0 ZERO) with false. change (has 0 MINUS) with false. cbn [andb mbind res_bind].
    destruct neg; cbn [Z.eqb app]; rewrite no_pad, ?app_nil_r by (simpl; lia); done.
Qed.

(** ** Output into a buffer *)

(** [m'] is [m] with the bytes from [a] on replaced by [bs]. *)
Definition written (m m' : cmem) (a : Z) (bs : list Z) : Prop :=
  ∀ x, m' !! x = if decide (a ≤ x < a + Z.of_nat (length bs)) then bs !! Z.to_nat (x - a) else m !! x.

Lemma written_bytes m m' a bs : written m m' a bs → bytes_at m' a bs.
Proof.
  intros H i c Hi. apply lookup_lt_Some in Hi as Hlt. rewrite H, decide_True by lia.
  by replace (Z.to_nat (a + Z.of_nat i - a)) with i by lia.
Qed.

Lemma written_cons m m' a c bs : written (<[a := c]> m) m' (a + 1) bs → written m m' a (c :: bs).
Proof.
  intros H x. rewrite H. cbn [length]. destruct (decide (x = a)) as [->|].
  - rewrite decide_False, decide_True by lia. rewrite lookup_insert_eq. by rewrite Z.sub_diag.
  - rewrite lookup_insert_ne by done. repeat case_decide; try lia; [|done].
    replace (Z.to_nat (x - a)) with (S (Z.to_nat (x - (a + 1)))) by lia. done.
Qed.

Lemma written_snoc m m' a bs c :
  written m m' a bs → written m (<[a + Z.of_nat (length bs) := c]> m') a (bs ++ [c]).
Proof.
  intros H x. rewrite length_app. cbn [length]. destruct (decide (x = a + Z.of_nat (length bs))) as [->|].
  - rewrite lookup_insert_eq, decide_True by lia. rewrite lookup_app_r by lia.
    by replace (Z.to_nat _ - length bs)%nat with 0%nat by lia.
  - rewrite lookup_insert_ne, H by done. repeat case_decide; try lia; [|done].
    by rewrite lookup_app_l by lia.
Qed.

Lemma helper_loop_ok out : ∀ m a n mx,
  Forall is_byte out → 0 ≤ n → n + Z.of_nat (length out) < 2 ^ 31 →
  let k := Nat.min (length out) (Z.to_nat (mx - n)) in
  mapped m a (Z.of_nat k) →
  ∃ m', helper_loop out (Aux a n mx) m
        = Ok (Aux (a + Z.of_nat k) (n + Z.of_nat (length out)) mx, m') ∧ written m m' a (take k out).
Proof.
  induction out as [|ch out IH]; intros m a n mx Hb Hn Hmax k Hmap.
  { exists m. unfold k. simpl. rewrite !Z.add_0_r. split; [done|]. intros x. by rewrite decide_False by (simpl; lia). }
  apply Forall_cons in Hb as [Hch Hb]. cbn [length] in Hmax. cbn [helper_loop]. unfold vsnprintf_helper. cbn [p aux_length max_length].
  rewrite i32_small by lia. destruct (Z.ltb_spec n mx).
  - assert (Hk : k = S (Nat.min (length out) (Z.to_nat (mx - (n + 1))))) by (unfold k; cbn [length]; lia).
    destruct (Hmap 0) as (c & Hc & _); [lia|]. rewrite Z.add_0_r in Hc.
    rewrite st_bind_assoc, set_byte_ok by eauto. rewrite u8_byte by done. unfold mret, st_ret at 1.
    destruct (IH (<[a := ch]> m) (a + 1) (n + 1) mx Hb) as (m' & Hop & Hw); [lia|lia| |].
    { intros i Hi. rewrite lookup_insert_ne by lia. destruct (Hmap (i + 1)) as (d & Hd & ?); [lia|].
      exists d. split; [|done]. rewrite <- Hd. f_equal. lia. }
    exists m'. rewrite Hk. cbn [take]. split; [|by apply written_cons].
    erewrite st_bind_ok; [|reflexivity]. rewrite Hop. do 2 f_equal. cbn [length]. f_equal; lia.
  - assert (Hk : k = 0%nat) by (unfold k; lia).
    destruct (IH m a (n + 1) mx Hb) as (m' & Hop & Hw); [lia|lia|intros i Hi; lia|].
    replace (Nat.min (length out) (Z.to_nat (mx - (n + 1)))) with 0%nat in * by lia.
    exists m'. rewrite Hk. split; [|done]. erewrite st_bind_ok; [|reflexivity].
    rewrite Hop. cbn [length]. do 2 f_equal. f_equal; lia.
Qed.

Lemma vsnprintf_ok m buffer size format args out :
  __printf format args = Ok out → Forall is_byte out → Z.of_nat (length out) < 2 ^ 31 →
  0 < size < 2 ^ 31 → mapped m buffer size →
  ∃ m', vsnprintf buffer size format args m = Ok (Z.of_nat (length out), m') ∧
        written m m' buffer (take (Z.to_nat (size - 1)) out ++ [0]).
Proof.
  intros Hp Hb Hl Hs Hmap. unfold vsnprintf. assert (0 <? size = true) as -> by (apply Z.ltb_lt; lia).
  rewrite Hp, i32_small by lia. set (k := Nat.min (length out) (Z.to_nat (size - 1))).
  destruct (helper_loop_ok out m buffer 0 (size - 1)) as (m1 & Hop & Hw); [done|lia|lia| |].
  { intros i Hi. apply Hmap. lia. }
  rewrite Z.sub_0_r, Z.add_0_l in *. fold k in Hop, Hw.
  assert (Ht : take (Z.to_nat (size - 1)) out = take k out).
  { destruct (decide (length out ≤ Z.to_nat (size - 1))%nat); [rewrite !take_ge by lia|]; [done|]. f_equal. lia. }
  assert (Hlen : length (take k out) = k) by (rewrite length_take; lia).
  exists (<[buffer + Z.of_nat k := 0]> m1). rewrite (st_bind_ok _ _ _ _ _ Hop). cbn [p aux_length].
  rewrite set_byte_ok.
  - split; [done|]. rewrite Ht, <- Hlen at 1. by apply written_snoc.
  - rewrite Hw, decide_False by lia. destruct (Hmap (Z.of_nat k)) as (c & Hc & _); [lia|eauto].
Qed.

(** [printf] of the format "%d". *)
Lemma printf_d n :
  - 2 ^ 31 ≤ n < 2 ^ 31 →
  ∃ ds, __printf (lit "%d") [Int n] = Ok ((if n <? 0 then [45] else []) ++ ds) ∧
    ds ≠ [] ∧ Forall digit ds ∧ decimal ds = Z.abs n ∧ (length ds ≤ 20)%nat.
Proof.
  intros Hn. assert (Habs : u64 (if n <? 0 then i64 (- n) else n) = Z.abs n).
  { destruct (Z.ltb_spec n 0); [rewrite i64_small by lia|]; rewrite u64_small; lia. }
  destruct (format_plain (Z.abs n) (n <? 0)) as (ds & Hf & Hne & Hd & Hdec & Hlen); [lia|].
  exists ds. split; [|done]. unfold __printf.
  transitivity (out ← format_integer (u64 (if i32 n <? 0 then i64 (- i32 n) else i32 n)) true (i32 n <? 0) base_d plain;
                Ok (out ++ [])).
  { lazy -[format_integer u64 i32 i64]. 
    match goal with |- context [format_integer ?a ?b ?c ?d ?e] => by destruct (format_integer a b c d e) end. }
  rewrite !i32_small by done. rewrite Habs, Hf. cbn [mbind res_bind]. by rewrite app_nil_r.
Qed.

(** ** Theorems *)

(** C19: printing any [int] with "%d" into a large enough buffer and reading it
    back with [atoi] yields the same number, the smallest one included. *)
Theorem snprintf_atoi_roundtrip m buffer size n :
  - 2 ^ 31 ≤ n < 2 ^ 31 → 0 < buffer → 22 ≤ size < 2 ^ 31 → mapped m buffer size →
  ∃ len m', snprintf buffer size (lit "%d") [Int n] m = Ok (len, m') ∧ atoi buffer m' = Ok (n, m').
Proof.
  intros Hn Hb Hs Hmap. destruct (printf_d n Hn) as (ds & Hp & Hne & Hd & Hdec & Hlen).
  set (sg := if n <? 0 then [45] else []) in *.
  assert (Hsg : (length sg ≤ 1)%nat) by (unfold sg; destruct (n <? 0); simpl; lia).
  assert (Hchars : Forall (λ c, is_byte c ∧ c ≠ 0) (sg ++ ds)).
  { apply Forall_app. split; [unfold sg; destruct (n <? 0); repeat constructor; unfold is_byte; lia|].
    eapply Forall_impl; [done|]. unfold digit, is_byte. simpl. lia. }
  destruct (vsnprintf_ok m buffer size (lit "%d") [Int n] (sg ++ ds)) as (m' & Hop & Hw);
    [done|eapply Forall_impl; [done|by intros c []]|rewrite length_app; lia|lia|done|].
  exists (Z.of_nat (length (sg ++ ds))), m'. split; [done|].
  rewrite take_ge in Hw by (rewrite length_app; lia). apply written_bytes in Hw.
  replace n with (if decide (sg = [45]) then - decimal ds else decimal ds) at 1.
  - apply (atoi_ok m' buffer [] sg ds []); rewrite ?app_nil_r; try done.
    + unfold sg. destruct (n <? 0); tauto.
    + unfold sg. rewrite Hdec. destruct (Z.ltb_spec n 0); case_decide; try done; lia.
  - unfold sg. rewrite Hdec. destruct (Z.ltb_spec n 0); case_decide; try done; lia.
Qed.

(** [vsnprintf] writes the output cut to [size - 1] characters and a
    terminator at the start of the buffer, changes no other byte, and returns
    the length of the whole output. *)
Theorem vsnprintf_truncates m buffer size format args out :
  __printf format args = Ok out → Forall is_byte out → Z.of_nat (length out) < 2 ^ 31 →
  0 < size < 2 ^ 31 → mapped m buffer size →
  ∃ m', vsnprintf buffer size format args m = Ok (Z.of_nat (length out), m') ∧
    bytes_at m' buffer (take (Z.to_nat (size - 1)) out ++ [0]) ∧
    ∀ x, ¬ (buffer ≤ x < buffer + size) → m' !! x = m !! x.
Proof.
  intros Hp Hb Hl Hs Hmap. destruct (vsnprintf_ok m buffer size format args out) as (m' & Hop & Hw); [done..|].
  exists m'. split_and!; [done|by eapply written_bytes|]. intros x Hx. rewrite Hw, decide_False; [done|].
  rewrite length_app, length_take. simpl. lia.
Qed.

(** For every 64-bit value, base, flags, width and precision,
    [format_integer] stays inside its 64-byte buffer and its digit table. *)
Theorem format_integer_fits value is_signed negative b c :
  b = base_d ∨ b = base_o ∨ b = base_x ∨ b = base_X → 0 ≤ value < 2 ^ 64 →
  ∃ out, format_integer value is_signed negative b c = Ok out.
Proof.
  intros Hb. apply format_integer_ok. pose proof bases_ok. naive_solver.
Qed.

(** A format that ends in a lone percent sign is read past its end. *)
Theorem printf_trailing_percent args : printf (lit "%") args = Err BadAddr.
Proof. reflexivity. Qed.

(** ** Witnesses *)

Definition demo_buffer : cmem := list_to_map ((λ i, (Z.of_nat i + 100, 0)) <$> seq 0 32).

Lemma demo_buffer_mapped : mapped demo_buffer 100 32.
Proof.
  assert (H : forallb (λ i, bool_decide (demo_buffer !! (100 + Z.of_nat i) = Some 0)) (seq 0 32) = true) by (vm_compute; reflexivity).
  intros i Hi. exists 0. rewrite forallb_forall in H. specialize (H (Z.to_nat i)).
  rewrite in_seq, Z2Nat.id, bool_decide_eq_true in H by lia. split; [apply H; lia|unfold is_byte; lia].
Qed.

Lemma snprintf_atoi_roundtrip_witness :
  ∃ len m', snprintf 100 32 (lit "%d") [Int (- 2 ^ 31)] demo_buffer = Ok (len, m') ∧ atoi 100 m' = Ok (- 2 ^ 31, m').
Proof. apply (snprintf_atoi_roundtrip demo_buffer 100 32 (- 2 ^ 31)); [lia..|exact demo_buffer_mapped]. Defined.

Lemma vsnprintf_truncates_witness :
  ∃ m', vsnprintf 100 4 (lit "<%5x>") [Int 255] demo_buffer = Ok (7, m') ∧ bytes_at m' 100 [60; 32; 32; 0].
Proof.
  destruct (vsnprintf_truncates demo_buffer 100 4 (lit "<%5x>") [Int 255] (chars "<   ff>")) as (m' & H1 & H2 & _).
  - vm_compute. reflexivity.
  - vm_compute. repeat constructor; intros H; discriminate H.
  - reflexivity.
  - lia.
  - intros i Hi. apply demo_buffer_mapped. lia.
  - exists m'. split; [exact H1|exact H2].
Defined.

Lemma format_integer_fits_witness :
  ∃ out, format_integer (2 ^ 64 - 1) false false base_o (Conversion (Z.lor POUND GROUP) 0 80 INTMAX) = Ok out.
Proof. apply (format_integer_fits (2 ^ 64 - 1) false false base_o); [by right; left|lia]. Defined.
End StdioTheorems.

(** lib/stdio.c: [__vprintf] conversion by conversion. *)
Import StdioTheorems.
Local Open Scope Z_scope.

Module PrintfFacts.

(** A format of which the output has at most [n] characters, with the fuel and
    arguments that are left. *)
Definition prints (fuel : nat) (format : list Z) (args : list Stdio.arg) (n : nat) : Prop :=
  ∃ out, Stdio.__vprintf fuel format args = Ok out ∧ (length out ≤ n)%nat.

Lemma prints_end fuel args : prints (S fuel) [0] args 0.
Proof. by exists []. Qed.

Lemma prints_char ch fuel rest args n : ch ≠ 0 → ch ≠ 37 → prints fuel rest args n → prints (S fuel) (ch :: rest) args (S n).
Proof.
  intros H0 H37 (out & Ho & Hl). exists (ch :: out). split; [|simpl; lia]. cbn [Stdio.__vprintf Stdio.peek mbind res_bind tail].
  apply Z.eqb_neq in H0, H37. rewrite H0, H37. cbn [negb]. by rewrite Ho.
Qed.

(** The step from a percent sign to the formatted argument: the conversion is [c],
    its last character heads [format]. *)
Ltac convert c format args :=
  cbn [Stdio.__vprintf Stdio.peek mbind res_bind tail Z.eqb Pos.eqb negb];
  replace (Stdio.parse_conversion _ _) with (Ok (c, format, args)) by reflexivity;
  cbn [mbind res_bind Stdio.peek Stdio.va_arg Stdio.va_arg_str Stdio.type tail default id];
  repeat match goal with |- context [Stdio.one_of ?a ?l] => let b := eval vm_compute in (Stdio.one_of a l) in change (Stdio.one_of a l) with b end;
  cbn [Z.eqb Pos.eqb mbind res_bind].

(** %d *)
Lemma prints_d v fuel rest args n : prints fuel rest args n → prints (S fuel) (37 :: 100 :: rest) (Stdio.Int v :: args) (67 + n).
Proof.
  intros (out & Ho & Hl). set (value := Stdio.signed_value Stdio.INT v).
  destruct (format_integer_short (u64 (if value <? 0 then i64 (- value) else value)) true (value <? 0) Stdio.base_d (Stdio.Conversion 0 0 (-1) Stdio.INT))
    as (o & Hf & Hlo); [apply bases_ok|apply u64_range|]. exists (o ++ out). split; [|rewrite length_app; simpl in Hlo; lia].
  transitivity (out1 ← Stdio.format_integer (u64 (if value <? 0 then i64 (- value) else value)) true (value <? 0) Stdio.base_d (Stdio.Conversion 0 0 (-1) Stdio.INT);
    out2 ← Stdio.__vprintf fuel rest args; Ok (out1 ++ out2)); [|by rewrite Hf; cbn [mbind res_bind]; rewrite Ho].
  convert (Stdio.Conversion 0 0 (-1) Stdio.INT) (100 :: rest) (Stdio.Int v :: args). fold value. by destruct (Stdio.format_integer _ _ _ _ _).
Qed.

(** %02hhx *)
Lemma prints_02hhx v fuel rest args n : prints fuel rest args n → prints (S fuel) (37 :: 48 :: 50 :: 104 :: 104 :: 120 :: rest) (Stdio.Int v :: args) (73 + n).
Proof.
  intros (out & Ho & Hl). set (value := Stdio.unsigned_value Stdio.CHAR v).
  assert (Hv : 0 ≤ value < 2 ^ 64) by (unfold value; cbn [Stdio.unsigned_value]; pose proof (u8_range v); lia).
  destruct (format_integer_short value false false Stdio.base_x (Stdio.Conversion Stdio.ZERO 2 (-1) Stdio.CHAR))
    as (o & Hf & Hlo); [apply bases_ok|done|]. exists (o ++ out). split; [|rewrite length_app; simpl in Hlo; lia].
  transitivity (out1 ← Stdio.format_integer value false false Stdio.base_x (Stdio.Conversion Stdio.ZERO 2 (-1) Stdio.CHAR);
    out2 ← Stdio.__vprintf fuel rest args; Ok (out1 ++ out2)); [|by rewrite Hf; cbn [mbind res_bind]; rewrite Ho].
  convert (Stdio.Conversion Stdio.ZERO 2 (-1) Stdio.CHAR) (120 :: rest) (Stdio.Int v :: args). fold value. by destruct (Stdio.format_integer _ _ _ _ _).
Qed.

(** %c *)
Lemma prints_c v fuel rest args n : prints fuel rest args n → prints (S fuel) (37 :: 99 :: rest) (Stdio.Int v :: args) (1 + n).
Proof.
  intros (out & Ho & Hl). exists (u8 v :: out). split; [|simpl; lia].
  convert (Stdio.Conversion 0 0 (-1) Stdio.INT) (99 :: rest) (Stdio.Int v :: args). by rewrite Ho.
Qed.

(** %s *)
Lemma prints_s s fuel rest args n : Forall (λ c, c ≠ 0) s → Z.of_nat (length s) < 2 ^ 32 → prints fuel rest args n →
  prints (S fuel) (37 :: 115 :: rest) (Stdio.Str (Some (s ++ [0])) :: args) (length s + n).
Proof.
  intros Hs Hlen (out & Ho & Hl). exists (s ++ out). split; [|rewrite length_app; lia].
  assert (Hn : ∀ m, Z.of_nat (length s) < m → Stdio.strnlen_bytes (s ++ [0]) m = Ok (length s)).
  { clear Hlen. induction Hs as [|c s Hc Hs IH]; intros m Hm; [done|]. simpl in *. apply Z.eqb_neq in Hc. rewrite Hc. simpl.
    rewrite (proj2 (Z.ltb_lt 0 m)) by lia. by rewrite IH by lia. }
  convert (Stdio.Conversion 0 0 (-1) Stdio.INT) (115 :: rest) (Stdio.Str (Some (s ++ [0])) :: args).
  change (u64 (Stdio.precision (Stdio.Conversion 0 0 (-1) Stdio.INT))) with (2 ^ 64 - 1). rewrite Hn by lia. cbn [mbind res_bind]. rewrite Ho. cbn [mbind res_bind]. unfold Stdio.format_string. cbn [Stdio.width].
  rewrite (proj2 (Z.ltb_ge (Z.of_nat (length s)) 0)) by lia. simpl. by rewrite app_nil_r, take_app_length.
Qed.

Lemma prints_text format args n : prints (Stdio.vprintf_fuel format) format args n → Z.of_nat n < 2 ^ 31 →
  ∃ text, Stdio.__printf format args = Ok text ∧ Z.of_nat (length text) < 2 ^ 31.
Proof. intros (text & Ht & Hl) Hn. exists text. split; [exact Ht|lia]. Qed.

#[global] Opaque prints.

(** Goes through a format whose characters are known. *)
Ltac format_steps :=
  repeat first [apply prints_end|apply prints_d|apply prints_02hhx|apply prints_c|apply prints_s; [assumption|lia|]|apply prints_char; [discriminate|discriminate|]].
Ltac format_ok :=
  match goal with |- ∃ text, Stdio.__printf ?f ?a = _ ∧ _ =>
    let l := eval vm_compute in f in let n := eval vm_compute in (Stdio.vprintf_fuel f) in
    eapply (prints_text f a); [change (Stdio.vprintf_fuel f) with n; change f with l; format_steps|] end.

End PrintfFacts.
