(* ===== verification/Vaddr.v ===== *)
(** include/threads/vaddr.h and include/threads/pte.h: virtual addresses and
    page-table entries as bit fields; and the interface the page allocator
    (threads/palloc.c) offers to its clients. *)
From S2P Require Import Prelude.
Local Open Scope Z_scope.

Module Vaddr.

(** ** vaddr.h *)

Definition PGSIZE : Z := 4096.
Definition PGMASK : Z := 4095.
Definition KERN_BASE : Z := 0x8004000000.

Definition pg_ofs (va : Z) : Z := Z.land va PGMASK.
Definition pg_no (va : Z) : Z := Z.shiftr va 12.
Definition pg_round_up (va : Z) : Z := Z.land (u64 (va + PGSIZE - 1)) (u64 (Z.lnot PGMASK)).
Definition pg_round_down (va : Z) : Z := Z.land va (u64 (Z.lnot PGMASK)).

Definition is_kernel_vaddr (va : Z) : bool := KERN_BASE <=? va.
Definition is_user_vaddr (va : Z) : bool := negb (is_kernel_vaddr va).

Definition ptov (paddr : Z) : Z := u64 (paddr + KERN_BASE).
Definition vtop (va : Z) : res Z :=
  assert_res (is_kernel_vaddr va);; Ok (va - KERN_BASE).

(** ** pte.h *)

Definition PML4 (la : Z) : Z := Z.land (Z.shiftr la 39) 0x1FF.
Definition PDPE (la : Z) : Z := Z.land (Z.shiftr la 30) 0x1FF.
Definition PDX (la : Z) : Z := Z.land (Z.shiftr la 21) 0x1FF.
Definition PTX (la : Z) : Z := Z.land (Z.shiftr la 12) 0x1FF.
Definition PTE_ADDR (pte : Z) : Z := Z.land pte (u64 (Z.lnot 0xFFF)).

Definition PTE_P : Z := 0x1.
Definition PTE_W : Z := 0x2.
Definition PTE_U : Z := 0x4.
Definition PTE_A : Z := 0x20.
Definition PTE_D : Z := 0x40.

(** ** Arithmetic of the macros *)

Lemma pg_ofs_mod va : pg_ofs va = va mod PGSIZE.
Proof. unfold pg_ofs, PGMASK, PGSIZE. change 4095 with (Z.ones 12). by rewrite Z.land_ones. Qed.

Lemma pg_no_div va : pg_no va = va / PGSIZE.
Proof. unfold pg_no. by rewrite Z.shiftr_div_pow2. Qed.

Lemma land_page_mask x : 0 ≤ x < 2 ^ 64 → Z.land x (u64 (Z.lnot 0xFFF)) = x - x mod PGSIZE.
Proof.
  intros Hx. assert (E : Z.land x (u64 (Z.lnot 0xFFF)) = Z.ldiff x (Z.ones 12)).
  { apply Z.bits_inj'. intros n Hn. unfold u64. rewrite Z.land_spec, Z.ldiff_spec.
    destruct (decide (n < 64)).
    - rewrite Z.mod_pow2_bits_low, Z.lnot_spec by lia. by change 0xFFF with (Z.ones 12).
    - rewrite Z.mod_pow2_bits_high by lia. rewrite andb_false_r.
      destruct (Z.testbit x n) eqn:Hb; [|done]. exfalso.
      destruct (decide (x = 0)) as [->|]; [by rewrite Z.bits_0 in Hb|].
      rewrite Z.bits_above_log2 in Hb; [done|lia|]. apply Z.lt_le_trans with 64; [|lia].
      apply Z.log2_lt_pow2; lia. }
  rewrite E, Z.ldiff_ones_r by lia. rewrite Z.shiftr_div_pow2, Z.shiftl_mul_pow2 by lia.
  change (2 ^ 12) with PGSIZE. pose proof (Z.div_mod x PGSIZE). unfold PGSIZE in *. lia.
Qed.

Lemma PTE_ADDR_eq x : 0 ≤ x < 2 ^ 64 → PTE_ADDR x = x - x mod PGSIZE.
Proof. apply land_page_mask. Qed.

Lemma pg_round_down_eq x : 0 ≤ x < 2 ^ 64 → pg_round_down x = x - x mod PGSIZE.
Proof. apply land_page_mask. Qed.

(** The index of a level is a 9-bit field. *)
Lemma index_range x : 0 ≤ Z.land x 0x1FF < 512.
Proof. change 0x1FF with (Z.ones 9). rewrite Z.land_ones by lia. apply Z.mod_pos_bound. lia. Qed.

Lemma vtop_ok va : KERN_BASE ≤ va → vtop va = Ok (va - KERN_BASE).
Proof. intros H. unfold vtop, is_kernel_vaddr. by apply Z.leb_le in H as ->. Qed.

Lemma ptov_vtop va : KERN_BASE ≤ va < 2 ^ 64 → ptov (va - KERN_BASE) = va.
Proof. intros H. unfold ptov, KERN_BASE in *. rewrite u64_small; lia. Qed.

(** ** The page allocator's interface

    [held a p]: page [p] of the kernel pool has been handed out; [avail] is the
    number of pages that are left; [valid] is the allocator's own invariant. *)
Class PageAlloc (A : Type) := {
  get_page : A → option Z * A;
  free_page : Z → A → res A;
  valid : A → Prop;
  held : A → Z → Prop;
  avail : A → nat }.

Class PageAllocLaws (A : Type) `{PageAlloc A} : Prop := {
  get_some a p a' :
    valid a → get_page a = (Some p, a') →
    valid a' ∧ KERN_BASE ≤ p < 2 ^ 64 - PGSIZE ∧ p mod PGSIZE = 0 ∧
    ¬ held a p ∧ held a' p ∧ (∀ q, q ≠ p → held a' q ↔ held a q) ∧ avail a = S (avail a');
  get_none a a' :
    valid a → get_page a = (None, a') → avail a = O ∧ valid a' ∧ ∀ q, held a' q ↔ held a q;
  free_ok a p :
    valid a → held a p →
    ∃ a', free_page p a = Ok a' ∧ valid a' ∧ ¬ held a' p ∧
          (∀ q, q ≠ p → held a' q ↔ held a q) ∧ avail a' = S (avail a) }.

End Vaddr.
