(* ===== verification/Palloc.v ===== *)
(** threads/palloc.c: the page allocator, two pools of pages over bitmaps.

    A pool is its lock, the address of its bitmap and the address of its first
    page.  [bitmaps] is the memory that holds the bitmaps, [memsets] the fills
    of pages that were made, last one first, as (address, byte, length).  The
    functions run in one thread: a lock is free or held by that thread, and
    acquiring a held one fails the ASSERT of [lock_acquire]; what happens
    between threads is the matter of the thread model.  The firmware's memory
    map is the list of its entries. *)
From S2P Require Import Prelude Bitmap Vaddr.
Import Bitmap Vaddr.
Local Open Scope Z_scope.

Module Palloc.

Definition PAL_ASSERT : Z := 1.
Definition PAL_ZERO : Z := 2.
Definition PAL_USER : Z := 4.

Record pool := Pool { lock_held : bool; used_map : Z; base : Z }.

Record palloc := Palloc {
  kernel_pool : pool;
  user_pool : pool;
  bitmaps : bmem;
  memsets : list (Z * Z * Z) }.

(** Which of the two pools a [struct pool *] points to. *)
Inductive which := KernelPool | UserPool.

Definition get_pool (w : which) (s : palloc) : pool :=
  match w with KernelPool => kernel_pool s | UserPool => user_pool s end.
Definition set_pool (w : which) (p : pool) (s : palloc) : palloc :=
  match w with
  | KernelPool => Palloc p (user_pool s) (bitmaps s) (memsets s)
  | UserPool => Palloc (kernel_pool s) p (bitmaps s) (memsets s)
  end.

(** A bitmap operation inside the allocator. *)
Definition on_bitmaps {B} (op : st bmem B) : st palloc B := λ s,
  match op (bitmaps s) with
  | Ok (b, m) => Ok (b, Palloc (kernel_pool s) (user_pool s) m (memsets s))
  | Err e => Err e
  end.

Definition set_lock (w : which) (h : bool) (s : palloc) : palloc :=
  let p := get_pool w s in set_pool w (Pool h (used_map p) (base p)) s.

Definition pool_lock_acquire (w : which) : st palloc unit :=
  p ← st_gets (get_pool w); ASSERT (negb (lock_held p));; st_modify (set_lock w true).
Definition pool_lock_release (w : which) : st palloc unit :=
  p ← st_gets (get_pool w); ASSERT (lock_held p);; st_modify (set_lock w false).

Definition fill_pages (dst value size : Z) : st palloc unit :=
  st_modify (λ s, Palloc (kernel_pool s) (user_pool s) (bitmaps s) ((dst, value, size) :: memsets s)).

Definition flag (flags bit : Z) : bool := negb (Z.land flags bit =? 0).

(** ** Allocation *)

Definition palloc_get_multiple (flags page_cnt : Z) : st palloc Z :=
  let w := if flag flags PAL_USER then UserPool else KernelPool in
  pool_lock_acquire w;;
  p ← st_gets (get_pool w);
  page_idx ← on_bitmaps (bitmap_scan_and_flip (used_map p) 0 page_cnt false);
  pool_lock_release w;;
  let pages := if negb (page_idx =? BITMAP_ERROR) then u64 (base p + u64 (PGSIZE * page_idx)) else NULL in
  if negb (pages =? NULL) then
    (if flag flags PAL_ZERO then fill_pages pages 0 (u64 (PGSIZE * page_cnt)) else mret tt);;
    mret pages
  else if flag flags PAL_ASSERT then st_err PanicCall else mret pages.

Definition palloc_get_page (flags : Z) : st palloc Z := palloc_get_multiple flags 1.

Definition page_from_pool (w : which) (page : Z) : st palloc bool :=
  p ← st_gets (get_pool w);
  n ← on_bitmaps (bitmap_size (used_map p));
  let page_no := pg_no page in
  let start_page := pg_no (base p) in
  let end_page := u64 (start_page + n) in
  mret ((start_page <=? page_no) && (page_no <? end_page)).

(** The choice between the pools; [NOT_REACHED] panics. *)
Definition pool_of_page (page : Z) : st palloc which :=
  k ← page_from_pool KernelPool page;
  if k : bool then mret KernelPool else
  u ← page_from_pool UserPool page;
  if u : bool then mret UserPool else st_err PanicCall.

Definition palloc_free_multiple (pages page_cnt : Z) : st palloc unit :=
  ASSERT (pg_ofs pages =? 0);;
  if (pages =? NULL) || (page_cnt =? 0) then mret tt else
  w ← pool_of_page pages;
  p ← st_gets (get_pool w);
  let page_idx := u64 (pg_no pages - pg_no (base p)) in
  fill_pages pages 0xcc (u64 (PGSIZE * page_cnt));;
  pool_lock_acquire w;;
  all ← on_bitmaps (bitmap_all (used_map p) page_idx page_cnt);
  ASSERT all;;
  on_bitmaps (bitmap_set_multiple (used_map p) page_idx page_cnt false);;
  pool_lock_release w.

Definition palloc_free_page (page : Z) : st palloc unit := palloc_free_multiple page 1.

(** ** Start-up *)

Record e820_entry := E820 { mem_lo : Z; mem_hi : Z; len_lo : Z; len_hi : Z; type : Z }.
Record area := Area { start : Z; end_ : Z; size : Z }.

Definition BASE_MEM_THRESHOLD : Z := 0x100000.
Definition USABLE : Z := 1.
Definition ACPI_RECLAIMABLE : Z := 2.
Definition APPEND_HILO (hi lo : Z) : Z := u64 (u64 (Z.shiftl hi 32) + lo).

Definition extend (st end_0 sz : Z) (a : area) : area :=
  if size a =? 0 then Area st end_0 sz
  else Area (if st <? start a then st else start a) (if end_ a <? end_0 then end_0 else end_ a)
            (u64 (size a + sz)).

(** The loop over the memory map, of the pair ([base_mem], [ext_mem]); the
    test of the entry's type ends in [|| 1]. *)
Fixpoint resolve_area_info (entries : list e820_entry) (base_mem ext_mem : area) : area * area :=
  match entries with
  | [] => (base_mem, ext_mem)
  | entry :: entries =>
    let st := APPEND_HILO (mem_hi entry) (mem_lo entry) in
    let sz := APPEND_HILO (len_hi entry) (len_lo entry) in
    let end_0 := u64 (st + sz) in
    if st <? BASE_MEM_THRESHOLD
    then resolve_area_info entries (extend st end_0 sz base_mem) ext_mem
    else resolve_area_info entries base_mem (extend st end_0 sz ext_mem)
  end.

Section boot.
(** The words that memory holds before it is used, the linker's [_end], and
    [user_page_limit]. *)
Context (ram : Z → Z) (_end user_page_limit : Z).

Definition DIV_ROUND_UP (x step : Z) : Z := u64 (x + step - 1) / step.

(** Returns the new [*bm_base]. *)
Definition init_pool (w : which) (bm_base start end_0 : Z) : st palloc Z :=
  let pgcnt := u64 (end_0 - start) / PGSIZE in
  let bm_pages := u64 (DIV_ROUND_UP (bitmap_buf_size pgcnt) PGSIZE * PGSIZE) in
  let words := (λ i, ram (bm_base + 16 + 8 * Z.of_nat i)) <$> seq 0 (Z.to_nat (elem_cnt pgcnt)) in
  map ← on_bitmaps (bitmap_create_in_buf pgcnt bm_base bm_pages words);
  st_modify (set_pool w (Pool false map start));;
  on_bitmaps (bitmap_set_all map true);;
  mret (u64 (bm_base + bm_pages)).

Inductive pool_state := KERN_START | KERN | USER_START | USER.

(** The variables of the first loop of [populate_pools]. *)
Record claim := Claim {
  state : pool_state; rem : Z; region_start : Z; end_of_last : Z; free_start : Z }.

Definition usable (entry : e820_entry) : bool :=
  (type entry =? ACPI_RECLAIMABLE) || (type entry =? USABLE).

(** One entry: [start], [size] and [end] are of the usable entry. *)
Definition claim_entry (user_pages start size : Z) (c : claim) : st palloc claim :=
  let end_0 := u64 (start + size) in
  let size_in_pg := size / PGSIZE in
  let '(st, region) := match state c with KERN_START => (KERN, start) | st => (st, region_start c) end in
  match st with
  | KERN_START => st_err PanicCall
  | KERN =>
    if size_in_pg <? rem c then mret (Claim KERN (rem c - size_in_pg) region end_0 (free_start c)) else
    let stop := u64 (start + u64 (rem c * PGSIZE)) in
    free ← init_pool KernelPool (free_start c) region stop;
    mret (if rem c =? size_in_pg then Claim USER_START user_pages region end_0 free
          else Claim USER (u64 (u64 (user_pages - size_in_pg) + rem c)) stop end_0 free)
  | USER_START => mret (Claim USER (rem c) start end_0 (free_start c))
  | USER =>
    if size_in_pg <? rem c then mret (Claim USER (rem c - size_in_pg) region end_0 (free_start c)) else
    ASSERT (rem c =? size);; mret (Claim USER (rem c) region end_0 (free_start c))
  end.

Fixpoint claim_loop (entries : list e820_entry) (user_pages : Z) (c : claim) : st palloc claim :=
  match entries with
  | [] => mret c
  | entry :: entries =>
    if usable entry then
      c ← claim_entry user_pages (ptov (APPEND_HILO (mem_hi entry) (mem_lo entry)))
                      (APPEND_HILO (len_hi entry) (len_lo entry)) c;
      claim_loop entries user_pages c
    else claim_loop entries user_pages c
  end.

(** The code between [split] and [goto split]; a region reaches from the
    kernel pool into the user pool at most, so three rounds are enough. *)
Fixpoint split (fuel : nat) (start end_0 : Z) : st palloc unit :=
  match fuel with
  | O => st_err NoFuel
  | S fuel =>
    w ← pool_of_page start;
    p ← st_gets (get_pool w);
    n ← on_bitmaps (bitmap_size (used_map p));
    let pool_end := u64 (base p + u64 (n * PGSIZE)) in
    let page_idx := u64 (pg_no start - pg_no (base p)) in
    if pool_end <? end_0 then
      on_bitmaps (bitmap_set_multiple (used_map p) page_idx (u64 (pool_end - start) / PGSIZE) false);;
      split fuel pool_end end_0
    else
      on_bitmaps (bitmap_set_multiple (used_map p) page_idx (u64 (end_0 - start) / PGSIZE) false)
  end.

Fixpoint usable_loop (entries : list e820_entry) (usable_bound : Z) : st palloc unit :=
  match entries with
  | [] => mret tt
  | entry :: entries =>
    (if usable entry then
       let start := ptov (APPEND_HILO (mem_hi entry) (mem_lo entry)) in
       let end_0 := u64 (start + APPEND_HILO (len_hi entry) (len_lo entry)) in
       if end_0 <? usable_bound then mret tt
       else split 3 (pg_round_up (if usable_bound <=? start then start else usable_bound)) end_0
     else mret tt);;
    usable_loop entries usable_bound
  end.

Definition populate_pools (entries : list e820_entry) (base_mem ext_mem : area) : st palloc unit :=
  let total_pages := u64 (size base_mem + size ext_mem) / PGSIZE in
  let user_pages := if user_page_limit <? total_pages / 2 then user_page_limit else total_pages / 2 in
  let kern_pages := total_pages - user_pages in
  c ← claim_loop entries user_pages (Claim KERN_START kern_pages 0 0 (pg_round_up _end));
  free ← init_pool UserPool (free_start c) (region_start c) (end_of_last c);
  usable_loop entries free.

(** Returns the end of the extended memory; the messages are not modelled. *)
Definition palloc_init (entries : list e820_entry) : st palloc Z :=
  let '(base_mem, ext_mem) := resolve_area_info entries (Area 0 0 0) (Area 0 0 0) in
  populate_pools entries base_mem ext_mem;;
  mret (end_ ext_mem).
End boot.

(** The statics before [palloc_init]. *)
Definition unset : palloc := Palloc (Pool false NULL 0) (Pool false NULL 0) ∅ [].

End Palloc.
