(* ===== verification/PallocTheorems.v ===== *)
(** threads/palloc.c: allocation is first fit in the chosen pool, freeing
    undoes it, misuse is caught, and the kernel pool implements the page
    allocator's interface. *)
From S2P Require Import Prelude Bitmap BitmapTheorems Vaddr Palloc.
Import Bitmap BitmapTheorems Vaddr Palloc.
Local Open Scope Z_scope.

Module PallocTheorems.

#[export] Instance which_eq_dec : EqDecision which.
Proof. solve_decision. Defined.

(** ** The pools as sequences of bits *)

Definition pool_bits (w : which) (s : palloc) : list bool :=
  match bitmaps s !! used_map (get_pool w s) with Some bm => bits_of (bit_cnt bm) (bits bm) | None => [] end.

Lemma bits_of_rep bm l : rep bm l → bits_of (bit_cnt bm) (bits bm) = l.
Proof.
  intros R. pose proof (rep_len _ _ R) as Hl. unfold bits_of. apply list_eq. intros i.
  rewrite <- Hl, Nat2Z.id. destruct (decide (i < length l)%nat).
  - destruct (l !! i) as [v|] eqn:Hv; [|apply lookup_ge_None in Hv; lia].
    rewrite list_lookup_fmap, lookup_seq_lt by done. simpl. destruct bm as [n w]. simpl in *.
    pose proof (rep_bits _ _ R i) as Hb. rewrite Hv in Hb. naive_solver.
  - rewrite !lookup_ge_None_2; [done|lia|]. rewrite length_fmap, length_seq. lia.
Qed.

Lemma pool_bits_at w s l : bitmap_at (bitmaps s) (used_map (get_pool w s)) l → pool_bits w s = l.
Proof. intros (_ & bm & Hm & R). unfold pool_bits. rewrite Hm. by apply bits_of_rep. Qed.

Definition pages (w : which) (s : palloc) : Z := Z.of_nat (length (pool_bits w s)).
Definition pool_end (w : which) (s : palloc) : Z := base (get_pool w s) + PGSIZE * pages w s.

(** A pool between two calls. *)
Record pool_ok (w : which) (s : palloc) : Prop := {
  ok_lock : lock_held (get_pool w s) = false;
  ok_map : bitmap_at (bitmaps s) (used_map (get_pool w s)) (pool_bits w s);
  ok_aligned : base (get_pool w s) mod PGSIZE = 0;
  ok_base : KERN_BASE ≤ base (get_pool w s);
  ok_end : pool_end w s < 2 ^ 64 - PGSIZE;
  ok_pages : pages w s < BITMAP_ERROR }.

Definition pools_ok (s : palloc) : Prop :=
  (∀ w, pool_ok w s) ∧ used_map (kernel_pool s) ≠ used_map (user_pool s) ∧
  (pool_end KernelPool s ≤ base (user_pool s) ∨ pool_end UserPool s ≤ base (kernel_pool s)).

(** The state after the bits of pool [w] became [l]. *)
Record changed (w : which) (l : list bool) (s s' : palloc) : Prop := {
  ch_ok : pools_ok s';
  ch_bits : pool_bits w s' = l;
  ch_other w' : w' ≠ w → pool_bits w' s' = pool_bits w' s;
  ch_pools w' : get_pool w' s' = get_pool w' s }.

Definition with_bitmaps (m : bmem) (fills : list (Z * Z * Z)) (s : palloc) : palloc :=
  Palloc (kernel_pool s) (user_pool s) m fills.

Lemma changed_ok w l s bm fills :
  pools_ok s → rep bm l → length l = length (pool_bits w s) →
  changed w l s (with_bitmaps (<[used_map (get_pool w s) := bm]> (bitmaps s)) fills s).
Proof.
  intros (Hp & Hne & Hd) R Hl. set (s' := with_bitmaps _ _ _).
  assert (Hpools : ∀ w', get_pool w' s' = get_pool w' s) by (by intros []).
  assert (Hb : pool_bits w s' = l).
  { apply pool_bits_at. rewrite Hpools. destruct (ok_map _ _ (Hp w)) as [Hn _].
    split; [done|]. exists bm. split; [apply lookup_insert_eq|done]. }
  assert (Hm : ∀ w', w' ≠ w → bitmaps s' !! used_map (get_pool w' s) = bitmaps s !! used_map (get_pool w' s)).
  { intros w' Hw. apply lookup_insert_ne. destruct w, w'; simpl; congruence. }
  assert (Ho : ∀ w', w' ≠ w → pool_bits w' s' = pool_bits w' s).
  { intros w' Hw. unfold pool_bits. by rewrite Hpools, Hm. }
  assert (Hlen : ∀ w', length (pool_bits w' s') = length (pool_bits w' s)).
  { intros w'. destruct (decide (w' = w)) as [->|]; [by rewrite Hb|by rewrite Ho]. }
  assert (He : ∀ w', pool_end w' s' = pool_end w' s).
  { intros w'. unfold pool_end, pages. by rewrite Hlen, Hpools. }
  split; [|done..]. split; [|split; [done|]].
  - intros w'. destruct (Hp w') as [H1 H2 H3 H4 H5 H6]. split; rewrite ?Hpools, ?He; try done.
    + destruct (decide (w' = w)) as [->|Hw].
      * rewrite Hb. destruct H2 as [Hn _]. split; [done|]. exists bm. split; [apply lookup_insert_eq|done].
      * rewrite Ho by done. destruct H2 as [Hn (bm' & Hm' & R')]. split; [done|]. exists bm'. by rewrite Hm.
    + unfold pages. by rewrite Hlen.
  - rewrite !He. done.
Qed.

(** ** Allocation *)

Definition pool_for (flags : Z) : which := if flag flags PAL_USER then UserPool else KernelPool.

Definition page_at (w : which) (s : palloc) (i : nat) : Z := base (get_pool w s) + PGSIZE * Z.of_nat i.

Lemma page_at_bounds w s i :
  pool_ok w s → (i ≤ length (pool_bits w s))%nat →
  KERN_BASE ≤ page_at w s i < 2 ^ 64 - PGSIZE ∧ page_at w s i mod PGSIZE = 0 ∧
  u64 (base (get_pool w s) + u64 (PGSIZE * Z.of_nat i)) = page_at w s i.
Proof.
  intros [H1 H2 H3 H4 H5 H6] Hi. unfold pool_end, pages, page_at in *.
  unfold KERN_BASE, BITMAP_ERROR, PGSIZE in *. split_and!; [lia|lia| |].
  - rewrite Z.mul_comm, Z_mod_plus_full. done.
  - rewrite (u64_small (4096 * _)) by lia. apply u64_small. lia.
Qed.

Lemma get_multiple_ok s flags (cnt : nat) :
  pools_ok s →
  let w := pool_for flags in
  ∃ r, scan_result 0 cnt false (pool_bits w s) r ∧
    if r =? BITMAP_ERROR then
      if flag flags PAL_ASSERT then palloc_get_multiple flags (Z.of_nat cnt) s = Err PanicCall
      else ∃ s', palloc_get_multiple flags (Z.of_nat cnt) s = Ok (NULL, s') ∧
                 changed w (pool_bits w s) s s' ∧ memsets s' = memsets s
    else
      ∃ s', palloc_get_multiple flags (Z.of_nat cnt) s = Ok (page_at w s (Z.to_nat r), s') ∧
            changed w (fill (Z.to_nat r) cnt true (pool_bits w s)) s s' ∧
            memsets s' = if flag flags PAL_ZERO
                         then (page_at w s (Z.to_nat r), 0, u64 (PGSIZE * Z.of_nat cnt)) :: memsets s
                         else memsets s.
Proof.
  intros Hok w. pose proof (proj1 Hok w) as Hw. destruct (ok_map _ _ Hw) as (Hn & bm & Hm & R).
  destruct (scan_and_flip_ok _ Hn (bitmaps s) bm _ Hm R 0 cnt false ltac:(lia) (ok_pages _ _ Hw))
    as (r & Hr & bm' & Hop & R'). exists r. split; [done|].
  assert (Hcode : palloc_get_multiple flags (Z.of_nat cnt) s =
    (let pages := if negb (r =? BITMAP_ERROR) then u64 (base (get_pool w s) + u64 (PGSIZE * r)) else NULL in
     (if negb (pages =? NULL) then
        (if flag flags PAL_ZERO then fill_pages pages 0 (u64 (PGSIZE * Z.of_nat cnt)) else mret tt);; mret pages
      else if flag flags PAL_ASSERT then st_err PanicCall else mret pages)
       (with_bitmaps (<[used_map (get_pool w s) := bm']> (bitmaps s)) (memsets s) s))).
  { unfold palloc_get_multiple. fold w. destruct s as [[hk mk bk] [hu mu bu] bms ms].
    pose proof (ok_lock _ _ Hw) as Hl. unfold w, pool_for in *. change 0 with (Z.of_nat 0) in *.
    destruct (flag flags PAL_USER); simpl in *; subst;
    unfold pool_lock_acquire, pool_lock_release, on_bitmaps, mbind, st_bind, st_gets, st_modify, set_lock; simpl in *;
    by rewrite Hop. }
  rewrite Hcode. clear Hcode Hop. destruct Hr as [i _ [Hi _] _|Hnone].
  - destruct (page_at_bounds w s i Hw) as (Hpr & _ & Hpe); [lia|].
    assert (Z.of_nat i =? BITMAP_ERROR = false) as Ei.
    { apply Z.eqb_neq. pose proof (ok_pages _ _ Hw). unfold pages in *. lia. }
    rewrite Ei in *. cbn [negb]. rewrite Hpe, Nat2Z.id in *.
    assert (page_at w s i =? NULL = false) as ->.
    { apply Z.eqb_neq. unfold KERN_BASE, NULL in *. lia. }
    cbn [negb]. assert (Hl : length (fill i cnt true (pool_bits w s)) = length (pool_bits w s)) by (by apply length_fill).
    destruct (flag flags PAL_ZERO);
      [eexists (with_bitmaps _ ((page_at w s i, 0, u64 (PGSIZE * Z.of_nat cnt)) :: memsets s) s)|eexists (with_bitmaps _ (memsets s) s)];
      (split; [done|]; split; [by apply changed_ok|done]).
  - rewrite Z.eqb_refl in *. cbn [negb]. rewrite Z.eqb_refl. cbn [negb]. destruct (flag flags PAL_ASSERT); [done|].
    eexists (with_bitmaps _ (memsets s) s). split; [done|]. split; [by apply changed_ok|done].
Qed.

(** ** Freeing *)

Lemma page_no w s i :
  pool_ok w s → pg_no (page_at w s i) = pg_no (base (get_pool w s)) + Z.of_nat i.
Proof.
  intros Hw. rewrite !pg_no_div. unfold page_at. rewrite Z.add_comm, Z.mul_comm.
  rewrite Z.div_add_l by done. lia.
Qed.

Lemma base_page w s : pool_ok w s → PGSIZE * pg_no (base (get_pool w s)) = base (get_pool w s).
Proof.
  intros Hw. pose proof (ok_aligned _ _ Hw) as Ha. rewrite pg_no_div.
  pose proof (Z.div_mod (base (get_pool w s)) PGSIZE). unfold PGSIZE in *. lia.
Qed.

Lemma page_from_pool_ok w s x :
  pool_ok w s → 0 ≤ x → x mod PGSIZE = 0 →
  page_from_pool w x s = Ok (bool_decide (base (get_pool w s) ≤ x < pool_end w s), s).
Proof.
  intros Hw Hx Ha. pose proof (base_page w s Hw) as Hb. destruct (ok_map _ _ Hw) as (Hn & bm & Hm & R).
  pose proof (ok_pages _ _ Hw) as Hpg. pose proof (ok_end _ _ Hw) as He. pose proof (ok_base _ _ Hw) as Hk.
  unfold page_from_pool. rewrite (st_bind_ok _ _ _ (get_pool w s) s) by done.
  rewrite (st_bind_ok _ _ _ (pages w s) s).
  - unfold mret, st_ret. do 2 f_equal. unfold pool_end in *. rewrite (pg_no_div x).
    pose proof (Z.div_mod x PGSIZE). unfold PGSIZE, KERN_BASE, pages, BITMAP_ERROR in *.
    rewrite u64_small by lia. case_bool_decide as Hd.
    + apply andb_true_iff. split; [apply Z.leb_le|apply Z.ltb_lt]; lia.
    + apply andb_false_iff. destruct (decide (base (get_pool w s) ≤ x)); [right; apply Z.ltb_ge|left; apply Z.leb_gt]; lia.
  - unfold on_bitmaps. rewrite (size_ok _ _ _ Hm), <- (rep_len _ _ R). by destruct s.
Qed.

Lemma pool_of_page_ok w s x :
  pools_ok s → x mod PGSIZE = 0 → base (get_pool w s) ≤ x < pool_end w s → pool_of_page x s = Ok (w, s).
Proof.
  intros (Hp & _ & Hd) Ha Hx. pose proof (ok_base _ _ (Hp w)). unfold KERN_BASE in *. unfold pool_of_page.
  rewrite (st_bind_ok _ _ _ _ _ (page_from_pool_ok KernelPool s x (Hp _) ltac:(lia) Ha)). destruct w.
  - by rewrite bool_decide_eq_true_2.
  - simpl in *. rewrite bool_decide_eq_false_2 by lia.
    rewrite (st_bind_ok _ _ _ _ _ (page_from_pool_ok UserPool s x (Hp _) ltac:(lia) Ha)). simpl.
    by rewrite bool_decide_eq_true_2.
Qed.

(** What [palloc_free_multiple] computes on [cnt] pages from page [i] of a
    pool on: the ASSERT on the bits, then the bits become false. *)
Lemma free_multiple_ok w s i (cnt : nat) :
  pools_ok s → (cnt ≠ 0)%nat → (i + cnt ≤ length (pool_bits w s))%nat →
  if decide (false ∈ range i cnt (pool_bits w s)) then
    palloc_free_multiple (page_at w s i) (Z.of_nat cnt) s = Err AssertFail
  else
    ∃ s', palloc_free_multiple (page_at w s i) (Z.of_nat cnt) s = Ok (tt, s') ∧
          changed w (fill i cnt false (pool_bits w s)) s s' ∧
          memsets s' = (page_at w s i, 0xcc, u64 (PGSIZE * Z.of_nat cnt)) :: memsets s.
Proof.
  intros Hok Hc Hi. pose proof (proj1 Hok w) as Hw. destruct (ok_map _ _ Hw) as (Hn & bm & Hm & R).
  destruct (page_at_bounds w s i Hw) as (Hr & Ha & _); [lia|].
  assert (Hin : base (get_pool w s) ≤ page_at w s i < pool_end w s)
    by (unfold page_at, pool_end, pages, PGSIZE; lia).
  pose proof (ok_pages _ _ Hw) as Hpg. unfold pages, BITMAP_ERROR in Hpg.
  pose proof (contains_ok _ Hn _ bm _ Hm R i cnt false Hi) as Hcon.
  assert (Hidx : u64 (pg_no (page_at w s i) - pg_no (base (get_pool w s))) = Z.of_nat i).
  { rewrite page_no by done. rewrite u64_small by lia. lia. }
  unfold palloc_free_multiple.
  rewrite (st_bind_ok _ _ _ tt s) by (apply ASSERT_true; rewrite pg_ofs_mod; by apply Z.eqb_eq).
  assert ((page_at w s i =? NULL) || (Z.of_nat cnt =? 0) = false) as ->.
  { apply orb_false_iff. unfold KERN_BASE, NULL in *. split; apply Z.eqb_neq; lia. }
  rewrite (st_bind_ok _ _ _ _ _ (pool_of_page_ok w s _ Hok Ha Hin)).
  rewrite (st_bind_ok _ _ _ (get_pool w s) s) by done. rewrite Hidx.
  pose proof (ok_lock _ _ Hw) as Hl.
  set (x := page_at w s i) in *. clearbody x. set (big := u64 (PGSIZE * Z.of_nat cnt)). clearbody big.
  remember (pool_bits w s) as l eqn:El.
  destruct (set_multiple_ok _ Hn _ bm l i cnt false Hm R Hi) as (bm' & Hset & R').
  assert (Hall : bitmap_all (used_map (get_pool w s)) (Z.of_nat i) (Z.of_nat cnt) (bitmaps s)
                 = Ok (negb (bool_decide (false ∈ range i cnt l)), bitmaps s)).
  { unfold bitmap_all. by rewrite (st_bind_ok _ _ _ _ _ Hcon). }
  case_decide as Hd.
  - rewrite bool_decide_eq_true_2 in Hall by done.
    destruct s as [[hk mk bk] [hu mu bu] bms ms]. destruct w; simpl in *; subst;
    unfold pool_lock_acquire, pool_lock_release, on_bitmaps, fill_pages, mbind, st_bind, st_gets, st_modify, set_lock; simpl in *;
    by rewrite Hall.
  - rewrite bool_decide_eq_false_2 in Hall by done.
    exists (with_bitmaps (<[used_map (get_pool w s) := bm']> (bitmaps s)) ((x, 0xcc, big) :: memsets s) s).
    split; [|split; [|done]].
    + destruct s as [[hk mk bk] [hu mu bu] bms ms]. destruct w; simpl in *; subst;
      unfold pool_lock_acquire, pool_lock_release, on_bitmaps, fill_pages, mbind, st_bind, st_gets, st_modify, set_lock; simpl in *;
      rewrite Hall; simpl; by rewrite Hset.
    + apply changed_ok; [done|done|]. rewrite length_fill by done. by rewrite El.
Qed.

(** ** Blocks in use *)

(** A block is its address and its number of pages. *)
Definition block : Type := Z * nat.

Definition disjoint (b1 b2 : block) : Prop :=
  b1.1 + PGSIZE * Z.of_nat b1.2 ≤ b2.1 ∨ b2.1 + PGSIZE * Z.of_nat b2.2 ≤ b1.1.

(** All pages of the block are marked as used in one pool; a block of no pages
    is at the start of its pool. *)
Definition marked (s : palloc) (b : block) : Prop :=
  ∃ w i, b.1 = page_at w s i ∧ (b.2 = O → i = O) ∧ (i + b.2 ≤ length (pool_bits w s))%nat ∧
         ∀ j, (i ≤ j < i + b.2)%nat → pool_bits w s !! j = Some true.

Definition apart (live : list block) : Prop :=
  ∀ k1 k2 b1 b2, k1 ≠ k2 → live !! k1 = Some b1 → live !! k2 = Some b2 → disjoint b1 b2.

Definition blocks_ok (s : palloc) (live : list block) : Prop :=
  pools_ok s ∧ Forall (marked s) live ∧ apart live.

Lemma page_at_changed w w' l s s' i : changed w l s s' → page_at w' s' i = page_at w' s i.
Proof. intros Hc. unfold page_at. by rewrite (ch_pools _ _ _ _ Hc). Qed.

(** Blocks of the two pools are disjoint; blocks of one pool are when they
    share no page. *)
Lemma blocks_disjoint s w1 w2 i1 i2 c1 c2 :
  pools_ok s → (c1 = O → i1 = O) → (c2 = O → i2 = O) →
  (i1 + c1 ≤ length (pool_bits w1 s))%nat → (i2 + c2 ≤ length (pool_bits w2 s))%nat →
  (w1 = w2 → ∀ j, (i1 ≤ j < i1 + c1)%nat → ¬ (i2 ≤ j < i2 + c2)%nat) →
  disjoint (page_at w1 s i1, c1) (page_at w2 s i2, c2).
Proof.
  intros (Hp & _ & Hd) H1 H2 Hl1 Hl2 Hj. unfold disjoint, page_at, PGSIZE, pool_end, pages in *. simpl.
  destruct (decide (w1 = w2)) as [<-|Hne].
  - specialize (Hj eq_refl). assert (i1 + c1 ≤ i2 ∨ i2 + c2 ≤ i1)%nat; [|lia].
    destruct (decide (c1 = O)) as [E|]; [rewrite (H1 E), E; lia|]. destruct (decide (c2 = O)) as [E|]; [rewrite (H2 E), E; lia|].
    destruct (decide (i1 + c1 ≤ i2)%nat); [by left|right]. destruct (decide (i2 + c2 ≤ i1)%nat); [done|].
    destruct (Hj (i1 `max` i2)%nat); lia.
  - unfold PGSIZE in Hd. destruct w1, w2; try done; simpl in *; lia.
Qed.

Lemma disjoint_sym b1 b2 : disjoint b1 b2 → disjoint b2 b1.
Proof. unfold disjoint. tauto. Qed.

Lemma disjoint_indices s w i1 i2 c1 c2 j :
  disjoint (page_at w s i1, c1) (page_at w s i2, c2) → (i1 ≤ j < i1 + c1)%nat → ¬ (i2 ≤ j < i2 + c2)%nat.
Proof. unfold disjoint, page_at, PGSIZE. simpl. lia. Qed.

(** A block stays marked while its bits do. *)
Lemma marked_changed w l s s' b :
  changed w l s s' → length l = length (pool_bits w s) → marked s b →
  (∀ i j, b.1 = page_at w s i → (i ≤ j < i + b.2)%nat → pool_bits w s !! j = Some true → l !! j = Some true) →
  marked s' b.
Proof.
  intros Hc Hl (w' & i & Hb & Hc0 & Hi & Hbits) Hkeep. exists w', i.
  rewrite (page_at_changed _ _ _ _ _ _ Hc). destruct (decide (w' = w)) as [->|Hne].
  - rewrite (ch_bits _ _ _ _ Hc), Hl. split_and!; try done. intros j Hj. eapply Hkeep; eauto.
  - rewrite (ch_other _ _ _ _ Hc) by done. done.
Qed.

Lemma group_bits i cnt v l j : group i cnt v l → (i ≤ j < i + cnt)%nat → l !! j = Some v.
Proof.
  intros [Hl Hr] Hj. unfold range in Hr. replace j with (i + (j - i))%nat by lia.
  rewrite <- lookup_drop, <- (lookup_take_lt _ cnt) by lia. rewrite Hr. apply lookup_replicate. split; [done|lia].
Qed.

(** The pool of a request has no [cnt] consecutive free pages. *)
Definition no_room (flags : Z) (cnt : nat) (s : palloc) : Prop :=
  ∀ i, ¬ group i cnt false (pool_bits (pool_for flags) s).

(** Allocating adds a block, or there is no group of free pages. *)
Lemma get_block s live flags cnt :
  blocks_ok s live →
  (∃ p s', palloc_get_multiple flags (Z.of_nat cnt) s = Ok (p, s') ∧
           (p = NULL → no_room flags cnt s) ∧
           blocks_ok s' (if p =? NULL then live else (p, cnt) :: live)) ∨
  (flag flags PAL_ASSERT = true ∧ no_room flags cnt s ∧ palloc_get_multiple flags (Z.of_nat cnt) s = Err PanicCall).
Proof.
  intros (Hok & Hm & Ha). set (w := pool_for flags).
  destruct (get_multiple_ok s flags cnt Hok) as (r & Hr & Hop). fold w in Hr, Hop.
  destruct Hr as [i _ Hg Hmin|Hn].
  - left. pose proof Hg as [Hgl _]. pose proof (proj1 Hok w) as Hw. assert (Z.of_nat i =? BITMAP_ERROR = false) as Ei.
    { apply Z.eqb_neq. pose proof (ok_pages _ _ Hw). unfold pages in *. lia. }
    rewrite Ei, Nat2Z.id in Hop. destruct Hop as (s' & Hop & Hch & _). exists (page_at w s i), s'. split; [done|].
    assert (Hc : cnt = O → i = O).
    { intros ->. destruct i as [|i]; [done|]. destruct (Hmin O); [lia|]. split; [lia|done]. }
    destruct (page_at_bounds w s i Hw) as (Hr & _); [lia|].
    split; [intros E; unfold KERN_BASE, NULL in *; lia|].
    assert (page_at w s i =? NULL = false) as -> by (apply Z.eqb_neq; unfold KERN_BASE, NULL in *; lia).
    assert (Hl : length (fill i cnt true (pool_bits w s)) = length (pool_bits w s)) by (by apply length_fill).
    split; [by apply (ch_ok _ _ _ _ Hch)|]. split; [apply Forall_cons; split|].
    + exists w, i. simpl. rewrite (page_at_changed _ _ _ _ _ _ Hch), (ch_bits _ _ _ _ Hch), Hl.
      split_and!; try done. intros j Hj. rewrite fill_lookup by done. by rewrite decide_True.
    + eapply Forall_impl; [exact Hm|]. intros b Hb. eapply marked_changed; [done..|]. intros i' j _ _ Hj.
      rewrite fill_lookup by done. by case_decide.
    + assert (Hnew : ∀ k b, live !! k = Some b → disjoint (page_at w s i, cnt) b).
      { intros k [p c] Hb. rewrite Forall_lookup in Hm. destruct (Hm k _ Hb) as (w' & i' & Hp & Hc' & Hi' & Hbits).
        simpl in *. subst p. apply blocks_disjoint; try done. intros <- j Hj Hj'.
        pose proof (group_bits _ _ _ _ _ Hg Hj). specialize (Hbits j Hj'). congruence. }
      intros [|k1] [|k2] b1 b2 Hk Hb1 Hb2; simpl in *; simplify_eq; [by eapply Hnew|by apply disjoint_sym; eapply Hnew|].
      eapply (Ha k1 k2); [congruence|done..].
  - assert (Hno : no_room flags cnt s) by (intros i; apply Hn; lia). rewrite Z.eqb_refl in Hop.
    destruct (flag flags PAL_ASSERT); [by right|left]. destruct Hop as (s' & Hop & Hch & _). exists NULL, s'. split; [done|].
    split; [done|]. rewrite Z.eqb_refl. split; [by apply (ch_ok _ _ _ _ Hch)|]. split; [|done].
    eapply Forall_impl; [exact Hm|]. intros b Hb. by eapply marked_changed.
Qed.

(** Freeing pages that are all in use, if any. *)
Lemma free_pages_ok w s i c :
  pools_ok s → (i + c ≤ length (pool_bits w s))%nat →
  (∀ j, (i ≤ j < i + c)%nat → pool_bits w s !! j = Some true) →
  ∃ s', palloc_free_multiple (page_at w s i) (Z.of_nat c) s = Ok (tt, s') ∧
        changed w (fill i c false (pool_bits w s)) s s'.
Proof.
  intros Hok Hi Hbits. destruct (decide (c = O)) as [->|Hc].
  - pose proof (proj1 Hok w) as Hw. destruct (page_at_bounds w s i Hw) as (_ & Ha & _); [lia|]. exists s. split.
    + unfold palloc_free_multiple. rewrite (st_bind_ok _ _ _ tt s) by (apply ASSERT_true; rewrite pg_ofs_mod; by apply Z.eqb_eq).
      by rewrite orb_true_r.
    + assert (fill i 0 false (pool_bits w s) = pool_bits w s) as ->.
      { unfold fill. simpl. by rewrite Nat.add_0_r, take_drop. }
      by split.
  - pose proof (free_multiple_ok w s i c Hok Hc Hi) as Hop. rewrite decide_False in Hop.
    2: { intros (j & Hj)%list_elem_of_lookup. unfold range in Hj. apply lookup_take_Some in Hj as [Hj ?].
         rewrite lookup_drop in Hj. rewrite Hbits in Hj by lia. done. }
    destruct Hop as (s' & Hop & Hch & _). by exists s'.
Qed.

(** Freeing a block in use. *)
Lemma free_block s live k b :
  blocks_ok s live → live !! k = Some b →
  ∃ s', palloc_free_multiple b.1 (Z.of_nat b.2) s = Ok (tt, s') ∧ blocks_ok s' (delete k live).
Proof.
  intros (Hok & Hm & Ha) Hk. destruct b as [p c]. pose proof Hm as Hm'. rewrite Forall_lookup in Hm'.
  destruct (Hm' k _ Hk) as (w & i & Hp & Hc & Hi & Hbits). simpl in *. subst p.
  assert (Hop : ∃ s', palloc_free_multiple (page_at w s i) (Z.of_nat c) s = Ok (tt, s') ∧ changed w (fill i c false (pool_bits w s)) s s')
    by (by apply free_pages_ok).
  destruct Hop as (s' & Hop & Hch). exists s'. split; [done|].
  assert (Hdel : ∀ j b, delete k live !! j = Some b → ∃ j', j' ≠ k ∧ live !! j' = Some b ∧ (j' = if decide (j < k)%nat then j else S j)).
  { intros j b Hj. destruct (decide (j < k)%nat).
    - rewrite list_lookup_delete_lt in Hj by done. exists j. split; [lia|done].
    - rewrite list_lookup_delete_ge in Hj by lia. exists (S j). split; [lia|done]. }
  split; [by apply (ch_ok _ _ _ _ Hch)|]. split.
  - apply Forall_lookup. intros j b Hj. destruct (Hdel j b Hj) as (j' & Hne & Hj' & _).
    eapply marked_changed; [done|by apply length_fill|by eapply Hm'|]. intros i' j0 Hb Hj0 Ht.
    rewrite fill_lookup by done. rewrite decide_False; [done|].
    eapply disjoint_indices; [|exact Hj0]. rewrite <- Hb. destruct b. by eapply (Ha j' k).
  - intros k1 k2 b1 b2 Hne Hb1 Hb2. destruct (Hdel _ _ Hb1) as (j1 & ? & ? & ->), (Hdel _ _ Hb2) as (j2 & ? & ? & ->).
    eapply Ha; [|done..]. repeat case_decide; lia.
Qed.

(** A client that allocates and frees. *)
Inductive client_op :=
  | Get (flags : Z) (cnt : nat)
  | Free (k : nat).

Definition client_step (op : client_op) (live : list block) : st palloc (list block) :=
  match op with
  | Get flags cnt =>
    p ← palloc_get_multiple flags (Z.of_nat cnt); mret (if p =? NULL then live else (p, cnt) :: live)
  | Free k =>
    match live !! k with
    | Some b => palloc_free_multiple b.1 (Z.of_nat b.2);; mret (delete k live)
    | None => mret live
    end
  end.

Fixpoint client (ops : list client_op) (live : list block) : st palloc (list block) :=
  match ops with [] => mret live | op :: ops => live ← client_step op live; client ops live end.

(** The run stopped at a request with PAL_ASSERT for which there was no room. *)
Definition out_of_pages (ops : list client_op) (live : list block) (s : palloc) : Prop :=
  ∃ ops1 flags cnt ops2 live1 s1, ops = ops1 ++ Get flags cnt :: ops2 ∧ client ops1 live s = Ok (live1, s1) ∧
    flag flags PAL_ASSERT = true ∧ no_room flags cnt s1.

Lemma client_step_blocks op s live :
  blocks_ok s live →
  (∃ live1 s1, client_step op live s = Ok (live1, s1) ∧ blocks_ok s1 live1) ∨
  (∃ flags cnt, op = Get flags cnt ∧ flag flags PAL_ASSERT = true ∧ no_room flags cnt s ∧ client_step op live s = Err PanicCall).
Proof.
  intros Hb. destruct op as [flags cnt|k]; simpl.
  - destruct (get_block s live flags cnt Hb) as [(p & s1 & H1 & _ & H2)|(H1 & H2 & H3)].
    + left. rewrite (st_bind_ok _ _ _ _ _ H1). by eexists _, s1.
    + right. exists flags, cnt. split_and!; try done. by apply st_bind_err.
  - left. destruct (live !! k) as [b|] eqn:Ek; [|by exists live, s].
    destruct (free_block s live k b Hb Ek) as (s1 & H1 & H2). rewrite (st_bind_ok _ _ _ _ _ H1). by eexists _, s1.
Qed.

Lemma client_blocks ops : ∀ s live,
  blocks_ok s live →
  (∃ live' s', client ops live s = Ok (live', s') ∧ blocks_ok s' live') ∨
  (client ops live s = Err PanicCall ∧ out_of_pages ops live s).
Proof.
  induction ops as [|op ops IH]; intros s live Hb; simpl; [left; by exists live, s|].
  destruct (client_step_blocks op s live Hb) as [(live1 & s1 & H1 & H2)|(flags & cnt & -> & Hf & Hn & He)].
  - rewrite (st_bind_ok _ _ _ _ _ H1). destruct (IH s1 live1 H2) as [?|(Hp & ops1 & flags & cnt & ops2 & live2 & s2 & -> & Hr & Hx)]; [by left|].
    right. split; [done|]. exists (op :: ops1), flags, cnt, ops2, live2, s2. split; [done|]. split; [|done].
    simpl. by rewrite (st_bind_ok _ _ _ _ _ H1).
  - right. split; [by apply st_bind_err|]. by exists [], flags, cnt, ops, live, s.
Qed.

(** ** The kernel pool implements the page allocator's interface *)

#[export] Instance palloc_pages : PageAlloc palloc := {
  get_page a := match palloc_get_page 0 a with
                | Ok (p, a') => (if p =? NULL then None else Some p, a')
                | Err _ => (None, a)
                end;
  free_page p a := match palloc_free_page p a with Ok (_, a') => Ok a' | Err e => Err e end;
  valid := pools_ok;
  held a p := ∃ i, pool_bits KernelPool a !! i = Some true ∧ p = page_at KernelPool a i;
  avail a := count_of false (pool_bits KernelPool a) }.

Lemma page_at_inj w s i j : page_at w s i = page_at w s j → i = j.
Proof. unfold page_at, PGSIZE. lia. Qed.

Lemma fill_one i v l : (i < length l)%nat → fill i 1 v l = <[i := v]> l.
Proof. intros Hi. rewrite insert_take_drop by done. unfold fill. by rewrite Nat.add_1_r. Qed.

Lemma count_flip i v l : l !! i = Some v → count_of v l = S (count_of v (<[i := negb v]> l)).
Proof.
  revert i. induction l as [|a l IH]; intros [|i] Hi; simplify_eq/=; unfold count_of in *.
  - rewrite filter_cons_True, filter_cons_False by (done || by destruct v). done.
  - destruct (decide (a = v)) as [->|Hne].
    + rewrite !filter_cons_True by done. simpl. by rewrite (IH i).
    + rewrite !filter_cons_False by done. by apply IH.
Qed.

(** Flipping one bit of the kernel pool moves one page in or out. *)
Lemma flip_held s s' i v :
  (i < length (pool_bits KernelPool s))%nat → changed KernelPool (<[i := v]> (pool_bits KernelPool s)) s s' →
  ∀ j, (held s' (page_at KernelPool s j) ↔ (if decide (j = i) then v = true else held s (page_at KernelPool s j))) ∧
       ∀ q, (∀ j, q ≠ page_at KernelPool s j) → held s' q ↔ held s q.
Proof.
  intros Hi Hc j. unfold held, palloc_pages. rewrite (ch_bits _ _ _ _ Hc). split.
  - split.
    + intros (k & Hk & He). rewrite (page_at_changed _ _ _ _ _ _ Hc) in He. apply page_at_inj in He as <-.
      case_decide as Hd; [subst; rewrite list_lookup_insert_eq in Hk by done; congruence|].
      rewrite list_lookup_insert_ne in Hk by done. by exists j.
    + case_decide as Hd.
      * subst. intros ->. exists i. rewrite list_lookup_insert_eq, (page_at_changed _ _ _ _ _ _ Hc); done.
      * intros (k & Hk & He). apply page_at_inj in He as <-. exists j.
        rewrite list_lookup_insert_ne, (page_at_changed _ _ _ _ _ _ Hc); done.
  - intros q Hq. split; intros (k & _ & He); rewrite ?(page_at_changed _ _ _ _ _ _ Hc) in He; by destruct (Hq k).
Qed.

Lemma held_changed s s' i v p :
  (i < length (pool_bits KernelPool s))%nat → changed KernelPool (<[i := v]> (pool_bits KernelPool s)) s s' →
  p ≠ page_at KernelPool s i → held s' p ↔ held s p.
Proof.
  intros Hi Hc Hp. destruct (flip_held s s' i v Hi Hc i) as [_ Hno]. split.
  - intros (k & Hk & ->). destruct (decide (k = i)) as [->|Hki].
    + destruct Hp. by rewrite (page_at_changed _ _ _ _ _ _ Hc).
    + destruct (flip_held s s' i v Hi Hc k) as [Hiff _]. rewrite decide_False in Hiff by done.
      rewrite (page_at_changed _ _ _ _ _ _ Hc). apply Hiff. exists k. by rewrite (page_at_changed _ _ _ _ _ _ Hc).
  - intros (k & Hk & ->). destruct (flip_held s s' i v Hi Hc k) as [Hiff _].
    rewrite decide_False in Hiff by congruence. apply Hiff. by exists k.
Qed.

Lemma count_none v l : (∀ j, l !! j ≠ Some v) → count_of v l = O.
Proof.
  unfold count_of. induction l as [|a l IH]; intros Hn; [done|].
  rewrite filter_cons_False by (intros ->; by apply (Hn O)). apply IH. intros j. apply (Hn (S j)).
Qed.

(** A single page: the first free one, or there is none. *)
Lemma get_page_cases a : pools_ok a →
  (∃ i a', palloc_get_page 0 a = Ok (page_at KernelPool a i, a') ∧ pool_bits KernelPool a !! i = Some false ∧
           changed KernelPool (<[i := true]> (pool_bits KernelPool a)) a a' ∧
           KERN_BASE ≤ page_at KernelPool a i < 2 ^ 64 - PGSIZE ∧ page_at KernelPool a i mod PGSIZE = 0 ∧
           (page_at KernelPool a i =? NULL) = false) ∨
  (∃ a', palloc_get_page 0 a = Ok (NULL, a') ∧ changed KernelPool (pool_bits KernelPool a) a a' ∧
         count_of false (pool_bits KernelPool a) = O).
Proof.
  intros Hok. destruct (get_multiple_ok a 0 1 Hok) as (r & Hr & Hop).
  change (pool_for 0) with KernelPool in *. destruct Hr as [i _ Hg _|Hn].
  - left. pose proof Hg as [Hgl _]. assert (Z.of_nat i =? BITMAP_ERROR = false) as Ei.
    { apply Z.eqb_neq. pose proof (ok_pages _ _ (proj1 Hok KernelPool)). unfold pages in *. lia. }
    rewrite Ei, Nat2Z.id in Hop. destruct Hop as (a' & Hop & Hch & _). exists i, a'.
    rewrite fill_one in Hch by lia.
    destruct (page_at_bounds KernelPool a i (proj1 Hok _)) as (Hr & Hal & _); [lia|].
    split_and!; try done; [by apply (group_bits _ _ _ _ _ Hg); lia|lia|lia|].
    apply Z.eqb_neq. unfold KERN_BASE, NULL in *. lia.
  - right. rewrite Z.eqb_refl in Hop. destruct Hop as (a' & Hop & Hch & _). exists a'. split_and!; [done..|].
    apply count_none. intros j Hj. apply (Hn j); [lia|]. split; [apply lookup_lt_Some in Hj; lia|].
    unfold range. by rewrite (drop_S _ _ _ Hj).
Qed.

Lemma palloc_get_some a p a' :
  pools_ok a → get_page a = (Some p, a') →
  pools_ok a' ∧ KERN_BASE ≤ p < 2 ^ 64 - PGSIZE ∧ p mod PGSIZE = 0 ∧
  ¬ held a p ∧ held a' p ∧ (∀ q, q ≠ p → held a' q ↔ held a q) ∧ avail a = S (avail a').
Proof.
  intros Hok Hp. cbn [get_page palloc_pages] in Hp.
  destruct (get_page_cases a Hok) as [(i & a1 & Hop & Hi & Hc & Hr & Hal & En)|(a1 & Hop & _)]; rewrite Hop in Hp; [|done].
  assert (Hlt : (i < length (pool_bits KernelPool a))%nat) by (by apply lookup_lt_Some in Hi).
  rewrite En in Hp. injection Hp as <- <-. destruct (flip_held a a1 i true Hlt Hc i) as [Hiff _].
  rewrite decide_True in Hiff by done. split; [by apply (ch_ok _ _ _ _ Hc)|]. split; [done|]. split; [done|].
  split; [|split; [by apply Hiff|split]].
  - intros (k & Hk & He). apply page_at_inj in He as <-. congruence.
  - intros q Hq. by apply (held_changed a a1 i true).
  - cbn [avail palloc_pages]. rewrite (ch_bits _ _ _ _ Hc). by apply (count_flip i false).
Qed.

Lemma palloc_get_none a a' :
  pools_ok a → get_page a = (None, a') → avail a = O ∧ pools_ok a' ∧ ∀ q, held a' q ↔ held a q.
Proof.
  intros Hok Hp. cbn [get_page palloc_pages] in Hp.
  destruct (get_page_cases a Hok) as [(i & a1 & Hop & _ & _ & _ & _ & En)|(a1 & Hop & Hc & Hav)]; rewrite Hop in Hp.
  - by rewrite En in Hp.
  - injection Hp as <-. split; [done|]. split; [by apply (ch_ok _ _ _ _ Hc)|]. intros q.
    cbn [held palloc_pages]. rewrite (ch_bits _ _ _ _ Hc).
    split; intros (k & Hk & ->); exists k; by rewrite (page_at_changed _ _ _ _ _ _ Hc).
Qed.

Lemma palloc_free_ok a p :
  pools_ok a → held a p →
  ∃ a', free_page p a = Ok a' ∧ pools_ok a' ∧ ¬ held a' p ∧
        (∀ q, q ≠ p → held a' q ↔ held a q) ∧ avail a' = S (avail a).
Proof.
  intros Hok (i & Hi & ->). cbn [free_page palloc_pages].
  assert (Hlt : (i < length (pool_bits KernelPool a))%nat) by (by apply lookup_lt_Some in Hi).
  pose proof (free_multiple_ok KernelPool a i 1 Hok ltac:(lia) ltac:(lia)) as Hop.
  rewrite decide_False in Hop.
  2: { unfold range. rewrite (drop_S _ _ _ Hi). simpl. by intros ?%list_elem_of_singleton. }
  destruct Hop as (a' & Hop & Hc & _). change (Z.of_nat 1) with 1 in Hop. unfold palloc_free_page. rewrite Hop.
  rewrite fill_one in Hc by done. destruct (flip_held a a' i false Hlt Hc i) as [Hiff _].
  rewrite decide_True in Hiff by done. exists a'. split; [done|]. split; [by apply (ch_ok _ _ _ _ Hc)|].
  split; [by rewrite Hiff|]. split; [intros q Hq; by apply (held_changed a a' i false)|].
  cbn [avail palloc_pages]. rewrite (ch_bits _ _ _ _ Hc).
  rewrite (count_flip i false (<[i := false]> _)) by (by apply list_lookup_insert_eq).
  rewrite list_insert_insert_eq. simpl. rewrite list_insert_id; done.
Qed.

#[export] Instance palloc_laws : PageAllocLaws palloc.
Proof. split; [apply palloc_get_some|apply palloc_get_none|apply palloc_free_ok]. Qed.

(** ** The loop of [populate_pools] that splits a region *)

Lemma pool_of_page_cases s x :
  pools_ok s → 0 ≤ x → x mod PGSIZE = 0 →
  pool_of_page x s = Err PanicCall ∧ (∀ w, ¬ base (get_pool w s) ≤ x < pool_end w s) ∨
  ∃ w, pool_of_page x s = Ok (w, s) ∧ base (get_pool w s) ≤ x < pool_end w s.
Proof.
  intros Hok Hx Ha.
  destruct (decide (base (kernel_pool s) ≤ x < pool_end KernelPool s)); [right; exists KernelPool; split; [by apply pool_of_page_ok|done]|].
  destruct (decide (base (user_pool s) ≤ x < pool_end UserPool s)); [right; exists UserPool; split; [by apply pool_of_page_ok|done]|].
  left. split; [|by intros []]. unfold pool_of_page.
  rewrite (st_bind_ok _ _ _ _ _ (page_from_pool_ok KernelPool s x (proj1 Hok _) Hx Ha)), bool_decide_eq_false_2 by done.
  rewrite (st_bind_ok _ _ _ _ _ (page_from_pool_ok UserPool s x (proj1 Hok _) Hx Ha)). simpl.
  by rewrite bool_decide_eq_false_2.
Qed.

(** Setting bits never runs out of fuel. *)
Lemma bitmap_set_fuel b i v m : bitmap_set b i v m ≠ Err NoFuel.
Proof.
  unfold bitmap_set, bitmap_size, bitmap_mark, bitmap_reset, get_elem, set_elem, get_bitmap, st_modify, st_of_option, ASSERT, mbind, st_bind, st_err, mret, st_ret.
  destruct (negb (b =? NULL)); [|done]. destruct (m !! b) as [bm|] eqn:Em; [|done].
  destruct (i <? bit_cnt bm); [|done]. destruct v; rewrite Em; destruct (bits bm !! Z.to_nat (elem_idx i)); rewrite ?Em; done.
Qed.

Lemma set_multiple_fuel b i c v m : bitmap_set_multiple b i c v m ≠ Err NoFuel.
Proof.
  unfold bitmap_set_multiple. assert (Hloop : ∀ k j m, set_multiple_loop k b i j v m ≠ Err NoFuel).
  { induction k as [|k IH]; intros j m'; [done|]. cbn [set_multiple_loop]. pose proof (bitmap_set_fuel b (u64 (i + j)) v m').
    unfold mbind, st_bind. by destruct (bitmap_set _ _ _ m') as [[]|[]]. }
  unfold assert_range, bitmap_size, get_bitmap, ASSERT, mbind, st_bind, st_err, mret, st_ret.
  destruct (negb (b =? NULL)); [|done]. destruct (m !! b) as [bm|]; [|done].
  destruct (i <=? bit_cnt bm); [|done]. destruct (u64 (i + c) <=? bit_cnt bm); [|done]. apply Hloop.
Qed.

(** One round from [x] in pool [w]: it ends, or it goes on at the pool's end. *)
Lemma split_round fuel s w x e :
  pools_ok s → x mod PGSIZE = 0 → base (get_pool w s) ≤ x < pool_end w s →
  split (S fuel) x e s ≠ Err NoFuel ∨
  ∃ l s', changed w l s s' ∧ length l = length (pool_bits w s) ∧
          split (S fuel) x e s = split fuel (pool_end w s) e s'.
Proof.
  intros Hok Ha Hx. pose proof (proj1 Hok w) as Hw. destruct (ok_map _ _ Hw) as (Hn & bm & Hm & R).
  pose proof (ok_base _ _ Hw) as Hb. pose proof (ok_end _ _ Hw) as He. pose proof (ok_pages _ _ Hw) as Hpg.
  unfold KERN_BASE, BITMAP_ERROR in *. assert (Hlt : pool_end w s < 2 ^ 64) by (unfold PGSIZE in He; lia).
  cbn [split]. rewrite (st_bind_ok _ _ _ _ _ (pool_of_page_ok w s x Hok Ha Hx)).
  rewrite (st_bind_ok _ _ _ (get_pool w s) s) by done. rewrite (st_bind_ok _ _ _ (pages w s) s).
  2: { unfold on_bitmaps. rewrite (size_ok _ _ _ Hm), <- (rep_len _ _ R). by destruct s. }
  assert (u64 (base (get_pool w s) + u64 (pages w s * PGSIZE)) = pool_end w s) as ->.
  { unfold pool_end, pages, PGSIZE in *. rewrite (u64_small (_ * _)), u64_small; lia. }
  destruct (pool_end w s <? e).
  - right. set (i := Z.to_nat ((x - base (get_pool w s)) / PGSIZE)). set (c := Z.to_nat ((pool_end w s - x) / PGSIZE)).
    pose proof (base_page w s Hw) as Hbp. pose proof (Z.div_mod x PGSIZE). rewrite pg_no_div in Hbp.
    assert (Hxi : x = base (get_pool w s) + PGSIZE * Z.of_nat i).
    { unfold i, PGSIZE in *.
      replace (x - base (get_pool w s)) with ((x / 4096 - base (get_pool w s) / 4096) * 4096) by lia.
      rewrite Z.div_mul by lia. lia. }
    assert (Hic : (i + c = length (pool_bits w s))%nat).
    { unfold c, pool_end, pages, PGSIZE in *. rewrite Hxi.
      replace (base (get_pool w s) + 4096 * Z.of_nat (length (pool_bits w s)) - (base (get_pool w s) + 4096 * Z.of_nat i))
        with ((Z.of_nat (length (pool_bits w s)) - Z.of_nat i) * 4096) by lia. rewrite Z.div_mul by lia. lia. }
    assert (u64 (pg_no x - pg_no (base (get_pool w s))) = Z.of_nat i) as ->.
    { fold (page_at w s i) in Hxi. rewrite Hxi, page_no by done. unfold pages in *. rewrite u64_small; lia. }
    assert (u64 (pool_end w s - x) / PGSIZE = Z.of_nat c) as ->.
    { unfold c. rewrite Z2Nat.id by (apply Z.div_pos; [lia|done]). by rewrite u64_small by lia. }
    destruct (set_multiple_ok _ Hn _ bm _ i c false Hm R ltac:(lia)) as (bm' & Hset & R').
    exists (fill i c false (pool_bits w s)), (with_bitmaps (<[used_map (get_pool w s) := bm']> (bitmaps s)) (memsets s) s).
    assert (Hl : length (fill i c false (pool_bits w s)) = length (pool_bits w s)) by (apply length_fill; lia).
    split; [by apply changed_ok|]. split; [done|]. erewrite st_bind_ok; [done|]. unfold on_bitmaps. by rewrite Hset.
  - left. unfold on_bitmaps. pose proof (set_multiple_fuel (used_map (get_pool w s))
      (u64 (pg_no x - pg_no (base (get_pool w s)))) (u64 (e - x) / PGSIZE) false (bitmaps s)).
    destruct (bitmap_set_multiple _ _ _ _ _) as [[[] m]|[]]; done.
Qed.

Lemma pool_end_changed w w' l s s' :
  changed w l s s' → length l = length (pool_bits w s) → pool_end w' s' = pool_end w' s.
Proof.
  intros Hc Hl. unfold pool_end, pages. rewrite (ch_pools _ _ _ _ Hc). destruct (decide (w' = w)) as [->|Hne].
  - by rewrite (ch_bits _ _ _ _ Hc), Hl.
  - by rewrite (ch_other _ _ _ _ Hc).
Qed.

Lemma pool_end_aligned w s : pool_ok w s → pool_end w s mod PGSIZE = 0.
Proof.
  intros Hw. unfold pool_end. pose proof (ok_aligned _ _ Hw). by rewrite Z.mul_comm, Z_mod_plus_full.
Qed.

(** ** A small machine *)

Definition pool_check (w : which) (s : palloc) : bool :=
  let p := get_pool w s in
  match bitmaps s !! used_map p with
  | None => false
  | Some bm =>
    negb (lock_held p) && negb (used_map p =? NULL) && (base p mod PGSIZE =? 0) && (KERN_BASE <=? base p) &&
    (base p + PGSIZE * bit_cnt bm <? 2 ^ 64 - PGSIZE) && (0 <=? bit_cnt bm) && (bit_cnt bm <? BITMAP_ERROR) &&
    (Z.of_nat (length (bits bm)) =? elem_cnt (bit_cnt bm)) && forallb (λ x, (0 <=? x) && (x <? 2 ^ 64)) (bits bm)
  end.

Lemma pool_check_ok w s : pool_check w s = true → pool_ok w s ∧
  ∃ bm, bitmaps s !! used_map (get_pool w s) = Some bm ∧ pool_end w s = base (get_pool w s) + PGSIZE * bit_cnt bm.
Proof.
  unfold pool_check. destruct (bitmaps s !! used_map (get_pool w s)) as [bm|] eqn:Hm; [|done].
  rewrite !andb_true_iff, !negb_true_iff, !Z.eqb_eq, !Z.leb_le, !Z.ltb_lt, Z.eqb_neq.
  intros ((((((((Hl & Hn) & Ha) & Hb) & He) & H0) & Hmax) & Hlen) & Hf). unfold BITMAP_ERROR in *.
  assert (R : rep bm (bits_of (bit_cnt bm) (bits bm))).
  { destruct bm as [n ws]. simpl in *. apply rep_of_words; [lia|done|]. apply Forall_forall. intros x Hx.
    rewrite forallb_forall in Hf. specialize (Hf x). rewrite andb_true_iff, Z.leb_le, Z.ltb_lt in Hf.
    apply Hf. by apply list_elem_of_In. }
  assert (Hat : bitmap_at (bitmaps s) (used_map (get_pool w s)) (bits_of (bit_cnt bm) (bits bm))).
  { split; [done|]. by exists bm. }
  assert (Hp : pages w s = bit_cnt bm).
  { unfold pages. rewrite (pool_bits_at _ _ _ Hat). apply (rep_len _ _ R). }
  split; [|exists bm; split; [done|]; unfold pool_end; by rewrite Hp].
  split; try done; unfold pool_end; rewrite ?Hp; try done. by rewrite (pool_bits_at _ _ _ Hat).
Qed.

Definition demo_map : list e820_entry :=
  [E820 0 0 0x9fc00 0 1; E820 0x9fc00 0 0x400 0 2; E820 0x100000 0 0x60000 0 1].

Definition demo_boot : res (Z * palloc) :=
  palloc_init (λ _, 0x5a5a) (KERN_BASE + 0x20120) 0xFFFFFFFF demo_map unset.

Definition demo : palloc := match demo_boot with Ok (_, s) => s | Err _ => unset end.

Lemma demo_ok : pools_ok demo.
Proof.
  destruct (pool_check_ok KernelPool demo) as [Hk (bk & Hbk & Hek)]; [vm_compute; reflexivity|].
  destruct (pool_check_ok UserPool demo) as [Hu _]; [vm_compute; reflexivity|].
  split; [by intros []|]. split; [vm_compute; congruence|]. left. rewrite Hek.
  vm_compute in Hbk. injection Hbk as <-. by vm_compute.
Qed.

(** ** Theorems *)



(** Freeing a block that is in use succeeds and freeing it once more
    fails the ASSERT on the bitmap; a page of neither pool is NOT_REACHED. *)
Theorem palloc_double_free s b :
  pools_ok s → marked s b → b.2 ≠ O →
  (∃ s', palloc_free_multiple b.1 (Z.of_nat b.2) s = Ok (tt, s') ∧
         palloc_free_multiple b.1 (Z.of_nat b.2) s' = Err AssertFail) ∧
  ∀ x, 0 < x → x mod PGSIZE = 0 → (∀ w, ¬ base (get_pool w s) ≤ x < pool_end w s) →
       palloc_free_page x s = Err PanicCall.
Proof.
  intros Hok (w & i & Hp & _ & Hi & Hbits) Hc. destruct b as [p c]. simpl in *. subst p. split.
  - pose proof (free_multiple_ok w s i c Hok Hc Hi) as Hop. rewrite decide_False in Hop.
    2: { intros (j & Hj)%list_elem_of_lookup. unfold range in Hj. apply lookup_take_Some in Hj as [Hj ?].
         rewrite lookup_drop in Hj. rewrite Hbits in Hj by lia. done. }
    destruct Hop as (s' & Hop & Hch & _). exists s'. split; [done|].
    assert (Hl : length (pool_bits w s') = length (pool_bits w s))
      by (rewrite (ch_bits _ _ _ _ Hch); by apply length_fill).
    pose proof (free_multiple_ok w s' i c (ch_ok _ _ _ _ Hch) Hc ltac:(lia)) as Hop'.
    rewrite (page_at_changed _ _ _ _ _ _ Hch), decide_True in Hop'; [done|].
    rewrite (ch_bits _ _ _ _ Hch). unfold range, fill. rewrite drop_app_length' by (rewrite length_take; lia).
    rewrite take_app_length' by (by rewrite length_replicate). by apply elem_of_replicate.
  - intros x Hx Ha Hno. unfold palloc_free_page, palloc_free_multiple.
    rewrite (st_bind_ok _ _ _ tt s) by (apply ASSERT_true; rewrite pg_ofs_mod; by apply Z.eqb_eq).
    assert ((x =? NULL) || (1 =? 0) = false) as -> by (apply orb_false_iff; split; apply Z.eqb_neq; unfold NULL; lia).
    apply st_bind_err. destruct (pool_of_page_cases s x Hok) as [[-> _]|(w' & _ & Hin)]; [lia|done|done|].
    by destruct (Hno w').
Qed.

Lemma palloc_double_free_witness :
  ∃ s', palloc_free_multiple (page_at KernelPool demo 0) (Z.of_nat 2) demo = Ok (tt, s') ∧
        palloc_free_multiple (page_at KernelPool demo 0) (Z.of_nat 2) s' = Err AssertFail.
Proof.
  apply (palloc_double_free demo (page_at KernelPool demo 0, 2%nat)); [apply demo_ok| |done].
  exists KernelPool, O. split; [done|]. split; [done|]. split; [vm_compute; lia|].
  intros [|[|j]] Hj; [vm_compute; reflexivity..|simpl in Hj; lia].
Defined.

(** C18: the [goto split] loop of [populate_pools] ends: three rounds are always
    enough, since a region can only run through one pool and then the other. *)
Theorem split_terminates s x e :
  pools_ok s → 0 ≤ x → x mod PGSIZE = 0 → split 3 x e s ≠ Err NoFuel.
Proof.
  intros Hok Hx Ha. destruct (pool_of_page_cases s x Hok Hx Ha) as [[Hp _]|(w & _ & Hin)].
  { cbn [split]. by rewrite (st_bind_err _ _ _ _ Hp). }
  destruct (split_round 2 s w x e Hok Ha Hin) as [?|(l & s1 & Hc & Hl & ->)]; [done|].
  pose proof (proj1 Hok w) as Hw. pose proof (ok_base _ _ Hw). unfold KERN_BASE in *.
  pose proof (pool_end_aligned w s Hw) as Ha1. pose proof (ch_ok _ _ _ _ Hc) as Hok1.
  destruct (pool_of_page_cases s1 (pool_end w s) Hok1 ltac:(lia) Ha1) as [[Hp _]|(w1 & _ & Hin1)].
  { cbn [split]. by rewrite (st_bind_err _ _ _ _ Hp). }
  destruct (split_round 1 s1 w1 _ e Hok1 Ha1 Hin1) as [?|(l1 & s2 & Hc1 & Hl1 & ->)]; [done|].
  pose proof (pool_end_aligned w1 s1 (proj1 Hok1 w1)) as Ha2. pose proof (ch_ok _ _ _ _ Hc1) as Hok2.
  destruct (pool_of_page_cases s2 (pool_end w1 s1) Hok2 ltac:(lia) Ha2) as [[Hp _]|(w2 & _ & Hin2)].
  { cbn [split]. by rewrite (st_bind_err _ _ _ _ Hp). }
  exfalso. rewrite (pool_end_changed _ _ _ _ _ Hc1 Hl1), (ch_pools _ _ _ _ Hc1) in Hin2.
  rewrite !(pool_end_changed _ _ _ _ _ Hc Hl), !(ch_pools _ _ _ _ Hc) in *.
  destruct w, w1, w2; lia.
Qed.

Lemma split_terminates_witness : split 3 (KERN_BASE + 0x30000) (KERN_BASE + 0x90000) demo ≠ Err NoFuel.
Proof. apply split_terminates; [apply demo_ok|unfold KERN_BASE; lia|reflexivity]. Defined.

(** A memory map of three page-aligned usable regions makes [palloc_init]
    fail: when the last region exactly completes the user pool,
    [populate_pools] compares its size in bytes with the remaining number of
    pages. *)
Theorem palloc_init_aligned_map_fails :
  palloc_init (λ _, 0) (KERN_BASE + 0x20120) 0xFFFFFFFF
    [E820 0 0 0xa0000 0 1; E820 0x100000 0 0x40000 0 1; E820 0x140000 0 0x20000 0 1] unset = Err AssertFail.
Proof. vm_compute. reflexivity. Qed.

End PallocTheorems.
