(* ===== verification/Malloc.v ===== *)
(** threads/malloc.c: blocks of memory of any size on top of the page
    allocator.

    A descriptor keeps its block size, the number of blocks per arena, the
    sequence of its free blocks and its lock; [arenas] maps the address of a
    page that is an arena to the arena's header.  What memory holds is not
    modelled but for the headers: [memory_ops] lists the fills and copies that
    were made, last one first. *)
From S2P Require Import Prelude Vaddr Palloc.
Import Vaddr Palloc.
Local Open Scope Z_scope.

Module Malloc.

Record desc := Desc { d_size : Z; per_arena : Z; free_list : list Z; d_lock : bool }.

Definition ARENA_MAGIC : Z := 0x9a548eed.

(** [a_desc] is the index of the owning descriptor in [descs]. *)
Record arena := Arena { a_magic : Z; a_desc : option nat; free_cnt : Z }.

Inductive memory_op := Memset (dst value size : Z) | Memcpy (dst src size : Z).

Record heap := Heap {
  descs : list desc; arenas : gmap Z arena; pages_of : palloc; memory_ops : list memory_op }.

(** [sizeof (struct arena)] *)
Definition ARENA_SIZE : Z := 24.

Definition set_descs (l : list desc) (h : heap) : heap := Heap l (arenas h) (pages_of h) (memory_ops h).
Definition set_arenas (m : gmap Z arena) (h : heap) : heap := Heap (descs h) m (pages_of h) (memory_ops h).
Definition log (m : memory_op) : st heap unit :=
  st_modify (λ h, Heap (descs h) (arenas h) (pages_of h) (m :: memory_ops h)).

Definition on_palloc {B} (op : st palloc B) : st heap B := λ h,
  match op (pages_of h) with
  | Ok (b, s) => Ok (b, Heap (descs h) (arenas h) s (memory_ops h))
  | Err e => Err e
  end.

Definition get_desc (k : nat) : st heap desc := λ h,
  match descs h !! k with Some d => Ok (d, h) | None => Err BadAddr end.
Definition put_desc (k : nat) (d : desc) : st heap unit := st_modify (λ h, set_descs (<[k := d]> (descs h)) h).

(** A page that is no arena does not hold the magic number. *)
Definition get_arena (a : Z) : st heap arena := λ h,
  match arenas h !! a with Some ar => Ok (ar, h) | None => Err AssertFail end.
Definition put_arena (a : Z) (ar : arena) : st heap unit := st_modify (λ h, set_arenas (<[a := ar]> (arenas h)) h).

Definition set_free (l : list Z) (d : desc) : desc := Desc (d_size d) (per_arena d) l (d_lock d).
Definition set_dlock (b : bool) (d : desc) : desc := Desc (d_size d) (per_arena d) (free_list d) b.

Definition desc_lock_acquire (k : nat) : st heap unit :=
  d ← get_desc k; ASSERT (negb (d_lock d));; put_desc k (set_dlock true d).
Definition desc_lock_release (k : nat) : st heap unit :=
  d ← get_desc k; ASSERT (d_lock d);; put_desc k (set_dlock false d).

(** ** Initialization: ten descriptors are enough for the seven sizes *)

Fixpoint init_loop (fuel : nat) (block_size : Z) (l : list desc) : res (list desc) :=
  match fuel with
  | O => Err NoFuel
  | S fuel =>
    if block_size <? PGSIZE / 2 then
      assert_res (Z.of_nat (length l) + 1 <=? 10);;
      init_loop fuel (block_size * 2) (l ++ [Desc block_size ((PGSIZE - ARENA_SIZE) / block_size) [] false])
    else Ok l
  end.

Definition malloc_init (h : heap) : res heap :=
  l ← init_loop 12 16 []; Ok (set_descs l h).

(** ** Blocks and arenas *)

Definition block_to_arena (b : Z) : st heap Z :=
  let a := pg_round_down b in
  ASSERT (negb (a =? NULL));;
  ar ← get_arena a;
  ASSERT (a_magic ar =? ARENA_MAGIC);;
  match a_desc ar with
  | Some k => d ← get_desc k; ASSERT (u64 (pg_ofs b - ARENA_SIZE) mod d_size d =? 0)
  | None => ASSERT (pg_ofs b =? ARENA_SIZE)
  end;;
  mret a.

Definition arena_to_block (a idx : Z) : st heap Z :=
  ASSERT (negb (a =? NULL));;
  ar ← get_arena a;
  ASSERT (a_magic ar =? ARENA_MAGIC);;
  match a_desc ar with
  | Some k => d ← get_desc k; ASSERT (idx <? per_arena d);; mret (u64 (a + ARENA_SIZE + idx * d_size d))
  | None => st_err BadAddr
  end.

(** ** Allocation *)

Fixpoint find_desc (l : list desc) (size : Z) (k : nat) : option nat :=
  match l with [] => None | d :: l => if size <=? d_size d then Some k else find_desc l size (S k) end.

(** [for (i = 0; i < d->blocks_per_arena; i++)]: [n] iterations are left. *)
Fixpoint add_blocks (n : nat) (a : Z) (k : nat) (i : Z) : st heap unit :=
  match n with
  | O => mret tt
  | S n =>
    b ← arena_to_block a i;
    d ← get_desc k; put_desc k (set_free (free_list d ++ [b]) d);;
    add_blocks n a k (i + 1)
  end.

Definition malloc (size : Z) : st heap Z :=
  if size =? 0 then mret NULL else
  ds ← st_gets descs;
  match find_desc ds size 0 with
  | None =>
    let page_cnt := DIV_ROUND_UP (u64 (size + ARENA_SIZE)) PGSIZE in
    a ← on_palloc (palloc_get_multiple 0 page_cnt);
    if a =? NULL then mret NULL else
    put_arena a (Arena ARENA_MAGIC None page_cnt);;
    mret (u64 (a + ARENA_SIZE))
  | Some k =>
    desc_lock_acquire k;;
    d ← get_desc k;
    ok ← (if bool_decide (free_list d = []) then
            a ← on_palloc (palloc_get_page 0);
            if a =? NULL then mret false else
            put_arena a (Arena ARENA_MAGIC (Some k) (per_arena d));;
            add_blocks (Z.to_nat (per_arena d)) a k 0;; mret true
          else mret true);
    if negb ok then desc_lock_release k;; mret NULL else
    d ← get_desc k;
    match free_list d with
    | [] => st_err AssertFail
    | b :: l =>
      put_desc k (set_free l d);;
      a ← block_to_arena b;
      ar ← get_arena a;
      put_arena a (Arena (a_magic ar) (a_desc ar) (u64 (free_cnt ar - 1)));;
      desc_lock_release k;;
      mret b
    end
  end.

Definition calloc (a b : Z) : st heap Z :=
  let size := u64 (a * b) in
  if (size <? a) || (size <? b) then mret NULL else
  p ← malloc size;
  (if negb (p =? NULL) then log (Memset p 0 size) else mret tt);;
  mret p.

Definition block_size (block : Z) : st heap Z :=
  a ← block_to_arena block;
  ar ← get_arena a;
  match a_desc ar with
  | Some k => d ← get_desc k; mret (d_size d)
  | None => mret (u64 (u64 (PGSIZE * free_cnt ar) - pg_ofs block))
  end.

(** ** Freeing *)

(** [list_remove (&b->free_elem)] for the blocks of an arena. *)
Fixpoint remove_blocks (n : nat) (a : Z) (k : nat) (i : Z) : st heap unit :=
  match n with
  | O => mret tt
  | S n =>
    b ← arena_to_block a i;
    d ← get_desc k;
    (if bool_decide (b ∈ free_list d) then put_desc k (set_free (filter (λ x, x ≠ b) (free_list d)) d)
     else st_err BadAddr);;
    remove_blocks n a k (i + 1)
  end.

Definition free (p : Z) : st heap unit :=
  if p =? NULL then mret tt else
  a ← block_to_arena p;
  ar ← get_arena a;
  match a_desc ar with
  | Some k =>
    d ← get_desc k;
    log (Memset p 0xcc (d_size d));;
    desc_lock_acquire k;;
    d ← get_desc k;
    put_desc k (set_free (p :: free_list d) d);;
    let n := u64 (free_cnt ar + 1) in
    put_arena a (Arena (a_magic ar) (a_desc ar) n);;
    (if per_arena d <=? n then
       ASSERT (n =? per_arena d);;
       remove_blocks (Z.to_nat (per_arena d)) a k 0;;
       on_palloc (palloc_free_page a);;
       st_modify (λ h, set_arenas (delete a (arenas h)) h)
     else mret tt);;
    desc_lock_release k
  | None =>
    on_palloc (palloc_free_multiple a (free_cnt ar));;
    st_modify (λ h, set_arenas (delete a (arenas h)) h)
  end.

Definition realloc (old_block new_size : Z) : st heap Z :=
  if new_size =? 0 then free old_block;; mret NULL else
  new_block ← malloc new_size;
  (if negb (old_block =? NULL) && negb (new_block =? NULL) then
     old_size ← block_size old_block;
     let min_size := if new_size <? old_size then new_size else old_size in
     log (Memcpy new_block old_block min_size);;
     free old_block
   else mret tt);;
  mret new_block.

End Malloc.
