(* ===== verification/MallocTheorems.v ===== *)
(** threads/malloc.c: whatever is allocated and freed, no ASSERT fails and the
    blocks in use do not overlap. *)
From S2P Require Import Prelude Bitmap BitmapTheorems Vaddr Palloc PallocTheorems Malloc.
Import Vaddr Palloc PallocTheorems Malloc.
Local Open Scope Z_scope.

Module MallocTheorems.

(** ** Descriptors and the blocks of an arena *)

Record desc_ok (d : desc) : Prop := {
  dk_size : 0 < d_size d;
  dk_per : 1 ≤ per_arena d;
  dk_fits : ARENA_SIZE + per_arena d * d_size d ≤ PGSIZE }.

Definition block_at (d : desc) (a i : Z) : Z := a + ARENA_SIZE + i * d_size d.

(** A page of the kernel's memory. *)
Definition page_addr (a : Z) : Prop := KERN_BASE ≤ a < 2 ^ 64 - 2 * PGSIZE ∧ a mod PGSIZE = 0.

Lemma block_bounds d i : desc_ok d → 0 ≤ i < per_arena d → 0 ≤ i * d_size d ∧ (i + 1) * d_size d ≤ PGSIZE - ARENA_SIZE.
Proof. intros [H1 H2 H3] Hi. unfold PGSIZE, ARENA_SIZE in *. nia. Qed.

Lemma block_facts d a i :
  desc_ok d → page_addr a → 0 ≤ i < per_arena d →
  u64 (a + ARENA_SIZE + i * d_size d) = block_at d a i ∧ pg_round_down (block_at d a i) = a ∧
  pg_ofs (block_at d a i) = ARENA_SIZE + i * d_size d ∧ block_at d a i ≠ NULL.
Proof.
  intros Hd [Ha Hal] Hi. pose proof (block_bounds d i Hd Hi) as [Hb1 Hb2]. pose proof (dk_size _ Hd).
  unfold block_at, PGSIZE, KERN_BASE, ARENA_SIZE, NULL in *.
  assert (Hm : (a + 24 + i * d_size d) mod 4096 = 24 + i * d_size d).
  { replace (a + 24 + i * d_size d) with (24 + i * d_size d + (a / 4096) * 4096) by (pose proof (Z.div_mod a 4096); lia).
    rewrite Z_mod_plus_full. apply Z.mod_small. lia. }
  split_and!.
  - apply u64_small. lia.
  - rewrite pg_round_down_eq by lia. unfold PGSIZE. lia.
  - rewrite pg_ofs_mod. unfold PGSIZE. lia.
  - lia.
Qed.

Lemma block_at_inj d a a' i i' :
  desc_ok d → page_addr a → page_addr a' → 0 ≤ i < per_arena d → 0 ≤ i' < per_arena d →
  block_at d a i = block_at d a' i' → a = a' ∧ i = i'.
Proof.
  intros Hd Ha Ha' Hi Hi' He. destruct (block_facts d a i Hd Ha Hi) as (_ & H1 & _ & _).
  destruct (block_facts d a' i' Hd Ha' Hi') as (_ & H2 & _ & _). rewrite He in H1.
  assert (a = a') as <- by congruence. split; [done|]. unfold block_at in He. pose proof (dk_size _ Hd). nia.
Qed.

(** The blocks of an arena from index [i] on. *)
Definition blocks_from (d : desc) (a i : Z) (n : nat) : list Z := (λ j, block_at d a (i + Z.of_nat j)) <$> seq 0 n.

Lemma blocks_from_S d a i n : blocks_from d a i (S n) = block_at d a i :: blocks_from d a (i + 1) n.
Proof.
  unfold blocks_from. cbn [seq fmap list_fmap]. f_equal; [f_equal; lia|]. rewrite <- fmap_S_seq, <- list_fmap_compose.
  apply list_fmap_ext. intros j x _. simpl. f_equal. lia.
Qed.

Lemma elem_blocks d a i n b : b ∈ blocks_from d a i n ↔ ∃ j, i ≤ j < i + Z.of_nat n ∧ b = block_at d a j.
Proof.
  unfold blocks_from. rewrite list_elem_of_fmap. split.
  - intros (j & -> & Hj%elem_of_seq). exists (i + Z.of_nat j). split; [lia|done].
  - intros (j & Hj & ->). exists (Z.to_nat (j - i)). split; [f_equal; lia|]. apply elem_of_seq. lia.
Qed.

Lemma filter_id (P : Z → Prop) `{∀ x, Decision (P x)} (l : list Z) : (∀ x, x ∈ l → P x) → filter P l = l.
Proof.
  induction l as [|x l IH]; intros Hl; [done|]. rewrite filter_cons_True by (apply Hl; left).
  f_equal. apply IH. intros y Hy. apply Hl. by right.
Qed.

(** ** States *)

Definition upd (k : nat) (d : desc) (h : heap) : heap := set_descs (<[k := d]> (descs h)) h.

Lemma upd_upd k d d' h : upd k d' (upd k d h) = upd k d' h.
Proof. unfold upd. simpl. by rewrite list_insert_insert_eq. Qed.

Lemma get_desc_ok {B} (f : desc → st heap B) k d h : descs h !! k = Some d → (get_desc k ≫= f) h = f d h.
Proof. intros Hd. apply st_bind_ok. unfold get_desc. by rewrite Hd. Qed.

Lemma get_arena_ok {B} (f : arena → st heap B) a ar h : arenas h !! a = Some ar → (get_arena a ≫= f) h = f ar h.
Proof. intros Hd. apply st_bind_ok. unfold get_arena. by rewrite Hd. Qed.

Lemma upd_lookup k d d' h : descs h !! k = Some d → descs (upd k d' h) !! k = Some d'.
Proof. intros Hd. unfold upd. simpl. apply list_lookup_insert_eq. by apply lookup_lt_Some in Hd. Qed.

Section arena.
Context (h : heap) (a : Z) (ar : arena) (k : nat) (d : desc).
Hypothesis Ha : arenas h !! a = Some ar.
Hypothesis Hm : a_magic ar = ARENA_MAGIC.
Hypothesis Hp : page_addr a.
Hypothesis Hk : a_desc ar = Some k.
Hypothesis Hd : descs h !! k = Some d.
Hypothesis Hok : desc_ok d.

Lemma arena_not_null : (a =? NULL) = false.
Proof using Hp. apply Z.eqb_neq. destruct Hp as [H _]. unfold KERN_BASE, NULL in *. lia. Qed.

Lemma to_block_ok i : 0 ≤ i < per_arena d → arena_to_block a i h = Ok (block_at d a i, h).
Proof using All.
  intros Hi. unfold arena_to_block. rewrite (st_bind_ok _ _ _ tt h) by (apply ASSERT_true; by rewrite arena_not_null).
  rewrite (get_arena_ok _ _ _ _ Ha), (st_bind_ok _ _ _ tt h) by (apply ASSERT_true, Z.eqb_eq, Hm).
  rewrite Hk, (get_desc_ok _ _ _ _ Hd), (st_bind_ok _ _ _ tt h) by (apply ASSERT_true, Z.ltb_lt; lia).
  destruct (block_facts d a i Hok Hp Hi) as (Hu & _). by rewrite Hu.
Qed.

Lemma to_arena_ok i : 0 ≤ i < per_arena d → block_to_arena (block_at d a i) h = Ok (a, h).
Proof using All.
  intros Hi. destruct (block_facts d a i Hok Hp Hi) as (_ & Hr & Ho & _). unfold block_to_arena. rewrite Hr, Ho.
  rewrite (st_bind_ok _ _ _ tt h) by (apply ASSERT_true; by rewrite arena_not_null).
  rewrite (get_arena_ok _ _ _ _ Ha), (st_bind_ok _ _ _ tt h) by (apply ASSERT_true, Z.eqb_eq, Hm).
  rewrite Hk. rewrite (st_bind_ok _ _ _ tt h); [done|]. rewrite (get_desc_ok _ _ _ _ Hd). apply ASSERT_true, Z.eqb_eq.
  pose proof (block_bounds d i Hok Hi). pose proof (dk_size _ Hok). unfold PGSIZE, ARENA_SIZE in *.
  replace (24 + i * d_size d - 24) with (i * d_size d) by lia. rewrite u64_small by nia. by apply Z.mod_mul; lia.
Qed.
End arena.

Lemma add_blocks_ok n : ∀ h a ar k d i,
  arenas h !! a = Some ar → a_magic ar = ARENA_MAGIC → page_addr a → a_desc ar = Some k → descs h !! k = Some d →
  desc_ok d → 0 ≤ i → i + Z.of_nat n ≤ per_arena d →
  add_blocks n a k i h = Ok (tt, upd k (set_free (free_list d ++ blocks_from d a i n) d) h).
Proof.
  induction n as [|n IH]; intros h a ar k d i Ha Hm Hp Hk Hd Hok Hi Hn; cbn [add_blocks].
  { unfold upd, blocks_from. simpl. rewrite app_nil_r. rewrite list_insert_id; [by destruct h|]. rewrite Hd. by destruct d. }
  rewrite (st_bind_ok _ _ _ _ _ (to_block_ok h a ar k d Ha Hm Hp Hk Hd Hok i ltac:(lia))).
  rewrite (get_desc_ok _ _ _ _ Hd). set (d1 := set_free (free_list d ++ [block_at d a i]) d).
  rewrite (st_bind_ok _ _ _ tt (upd k d1 h)) by done.
  rewrite (IH (upd k d1 h) a ar k d1 (i + 1)); try done; [|by apply (upd_lookup k d)|by destruct Hok|lia|simpl; lia].
  rewrite upd_upd. do 3 f_equal. unfold d1, set_free. simpl. rewrite blocks_from_S, <- app_assoc. done.
Qed.

Lemma remove_blocks_ok n : ∀ h a ar k d i,
  arenas h !! a = Some ar → a_magic ar = ARENA_MAGIC → page_addr a → a_desc ar = Some k → descs h !! k = Some d →
  desc_ok d → 0 ≤ i → i + Z.of_nat n ≤ per_arena d → (∀ b, b ∈ blocks_from d a i n → b ∈ free_list d) →
  remove_blocks n a k i h = Ok (tt, upd k (set_free (filter (λ b, b ∉ blocks_from d a i n) (free_list d)) d) h).
Proof.
  induction n as [|n IH]; intros h a ar k d i Ha Hm Hp Hk Hd Hok Hi Hn Hin; cbn [remove_blocks].
  { assert (filter (λ b, b ∉ blocks_from d a i 0) (free_list d) = free_list d) as ->.
    { apply filter_id. intros b _. apply not_elem_of_nil. }
    unfold upd. rewrite list_insert_id; [by destruct h|]. rewrite Hd. by destruct d. }
  rewrite (st_bind_ok _ _ _ _ _ (to_block_ok h a ar k d Ha Hm Hp Hk Hd Hok i ltac:(lia))).
  rewrite (get_desc_ok _ _ _ _ Hd). set (d1 := set_free (filter (λ x, x ≠ block_at d a i) (free_list d)) d).
  rewrite (st_bind_ok _ _ _ tt (upd k d1 h)).
  2: { rewrite bool_decide_eq_true_2; [done|]. apply Hin. rewrite blocks_from_S. left. }
  rewrite (IH (upd k d1 h) a ar k d1 (i + 1)); try done; [|by apply (upd_lookup k d)|by destruct Hok|lia|simpl; lia|].
  - rewrite upd_upd. do 3 f_equal. unfold d1, set_free. simpl. f_equal. rewrite list_filter_filter.
    apply list_filter_iff. intros b. rewrite blocks_from_S, not_elem_of_cons. change (blocks_from _ a (i + 1) n) with (blocks_from d a (i + 1) n). tauto.
  - intros b Hb. change (blocks_from d1 a (i + 1) n) with (blocks_from d a (i + 1) n) in Hb.
    unfold d1. simpl. apply list_elem_of_filter. split; [|apply Hin; rewrite blocks_from_S; by right].
    apply elem_blocks in Hb as (j & Hj & ->). intros He. apply block_at_inj in He; try done; lia.
Qed.

(** ** The invariant *)

(** The free blocks of an arena. *)
Definition free_in (a : Z) (l : list Z) : nat := length (filter (λ b, pg_round_down b = a) l).

Definition arena_ok (h : heap) (pgs : list block) (a : Z) (ar : arena) : Prop :=
  page_addr a ∧ a_magic ar = ARENA_MAGIC ∧
  match a_desc ar with
  | Some k => (a, 1%nat) ∈ pgs ∧ ∃ d, descs h !! k = Some d ∧ free_cnt ar = Z.of_nat (free_in a (free_list d))
  | None => ∃ n, n ≠ O ∧ free_cnt ar = Z.of_nat n ∧ (a, n) ∈ pgs
  end.

Definition small (h : heap) (k : nat) (d : desc) (b : Z) : Prop :=
  ∃ a ar i, arenas h !! a = Some ar ∧ a_desc ar = Some k ∧ 0 ≤ i < per_arena d ∧ b = block_at d a i.

Definition live_small (h : heap) (p n : Z) : Prop :=
  ∃ k d, descs h !! k = Some d ∧ small h k d p ∧ p ∉ free_list d ∧ n = d_size d.
Definition live_big (h : heap) (p n : Z) : Prop :=
  ∃ a ar, arenas h !! a = Some ar ∧ a_desc ar = None ∧ p = a + ARENA_SIZE ∧ n = PGSIZE * free_cnt ar - ARENA_SIZE.

(** Blocks of at least one page. *)
Definition pages_ok (s : palloc) (pgs : list block) : Prop := blocks_ok s pgs ∧ Forall (λ b, b.2 ≠ O) pgs.

(** [pgs] are the blocks of pages that are arenas, [live] the blocks in use
    with their sizes. *)
Record inv (h : heap) (pgs : list block) (live : list (Z * Z)) : Prop := {
  iv_pages : pages_ok (pages_of h) pgs;
  iv_arena a ar : arenas h !! a = Some ar → arena_ok h pgs a ar;
  iv_desc k d : descs h !! k = Some d → desc_ok d ∧ NoDup (free_list d) ∧ ∀ b, b ∈ free_list d → small h k d b;
  iv_live p n : (p, n) ∈ live → live_small h p n ∨ live_big h p n;
  iv_nodup : NoDup live.*1 }.

Lemma pgs_bounds s pgs a n : pages_ok s pgs → (a, n) ∈ pgs → page_addr a ∧ a + PGSIZE * Z.of_nat n < 2 ^ 64 - PGSIZE ∧ n ≠ O.
Proof.
  intros [(Hok & Hm & _) Hne] Hin. rewrite Forall_forall in Hm, Hne. specialize (Hne _ Hin).
  destruct (Hm _ Hin) as (w & i & Ha & _ & Hi & _). simpl in *.
  destruct (page_at_bounds w s i (proj1 Hok w)) as (Hb & Hal & _); [lia|].
  destruct (page_at_bounds w s (i + n) (proj1 Hok w)) as (Hb2 & _ & _); [lia|].
  unfold page_addr, page_at, PGSIZE in *. rewrite Ha. split_and!; try done; lia.
Qed.

(** Different entries are different pages. *)
Lemma pgs_disjoint s pgs a n a' n' :
  pages_ok s pgs → (a, n) ∈ pgs → (a', n') ∈ pgs → (a, n) ≠ (a', n') → disjoint (a, n) (a', n').
Proof.
  intros [(_ & _ & Ha) _] H1 H2 Hne. apply list_elem_of_lookup in H1 as [k1 H1], H2 as [k2 H2].
  apply (Ha k1 k2); [|done..]. intros ->. congruence.
Qed.

Lemma pgs_unique s pgs a n n' : pages_ok s pgs → (a, n) ∈ pgs → (a, n') ∈ pgs → n = n'.
Proof.
  intros Hb H1 H2. destruct (decide (n = n')) as [|Hne]; [done|].
  destruct (pgs_bounds _ _ _ _ Hb H1) as (_ & _ & Hn). destruct (pgs_bounds _ _ _ _ Hb H2) as (_ & _ & Hn').
  pose proof (pgs_disjoint _ _ a n a n' Hb H1 H2 ltac:(congruence)) as Hd. unfold disjoint, PGSIZE in Hd. simpl in Hd. lia.
Qed.

Lemma arena_pgs h pgs live a ar : inv h pgs live → arenas h !! a = Some ar → ∃ n, (a, n) ∈ pgs.
Proof.
  intros I Ha. destruct (iv_arena _ _ _ I a ar Ha) as (_ & _ & Hd).
  destruct (a_desc ar); [by exists 1%nat; destruct Hd|]. destruct Hd as (n & _ & _ & Hin). by exists n.
Qed.

(** A block that has just been allocated is no arena yet. *)
Lemma fresh_page h pgs live s' a n :
  inv h pgs live → pages_ok s' ((a, n) :: pgs) → arenas h !! a = None.
Proof.
  intros I Hb. destruct (arenas h !! a) as [ar|] eqn:Ea; [|done]. destruct (arena_pgs _ _ _ _ _ I Ea) as [m Hm].
  apply list_elem_of_lookup in Hm as [j Hj]. destruct (pgs_bounds _ _ a n Hb ltac:(left)) as (_ & _ & Hn).
  destruct (pgs_bounds _ _ a m Hb) as (_ & _ & Hn'); [right; by eapply list_elem_of_lookup_2|].
  destruct Hb as [(_ & _ & Hap) _]. pose proof (Hap 0%nat (S j) _ _ ltac:(done) eq_refl Hj) as Hd.
  unfold disjoint, PGSIZE in Hd. simpl in Hd. lia.
Qed.

Lemma small_round h pgs live k d b :
  inv h pgs live → descs h !! k = Some d → small h k d b →
  ∃ ar, arenas h !! pg_round_down b = Some ar ∧ a_desc ar = Some k ∧ b ≠ NULL.
Proof.
  intros I Hd (a & ar & i & Ha & Hk & Hi & ->). destruct (iv_arena _ _ _ I a ar Ha) as (Hp & _).
  destruct (iv_desc _ _ _ I k d Hd) as (Hok & _). destruct (block_facts d a i Hok Hp Hi) as (_ & Hr & _ & Hn).
  exists ar. by rewrite Hr.
Qed.

Lemma big_round h pgs live p n :
  inv h pgs live → live_big h p n →
  ∃ ar, arenas h !! pg_round_down p = Some ar ∧ a_desc ar = None ∧ p = pg_round_down p + ARENA_SIZE ∧ p ≠ NULL ∧
        pg_ofs p = ARENA_SIZE ∧ n = PGSIZE * free_cnt ar - ARENA_SIZE.
Proof.
  intros I (a & ar & Ha & Hk & -> & ->). destruct (iv_arena _ _ _ I a ar Ha) as ((Hp & Hal) & _).
  unfold KERN_BASE, PGSIZE, ARENA_SIZE, NULL in *.
  assert (Hm : (a + 24) mod 4096 = 24).
  { rewrite Z.add_mod, Hal by lia. done. }
  assert (pg_round_down (a + 24) = a) as -> by (rewrite pg_round_down_eq by lia; unfold PGSIZE; lia).
  exists ar. split_and!; try done; [lia|]. rewrite pg_ofs_mod. done.
Qed.

(** A descriptor whose lock changes. *)
Lemma inv_lock h pgs live k d b :
  inv h pgs live → descs h !! k = Some d → inv (upd k (set_dlock b d) h) pgs live.
Proof.
  intros I Hd. assert (Hlook : ∀ j x, descs (upd k (set_dlock b d) h) !! j = Some x →
    ∃ y, descs h !! j = Some y ∧ d_size x = d_size y ∧ per_arena x = per_arena y ∧ free_list x = free_list y).
  { intros j x Hj. destruct (decide (j = k)) as [->|Hne].
    - rewrite (upd_lookup k d) in Hj by done. injection Hj as <-. by exists d.
    - unfold upd in Hj. simpl in Hj. rewrite list_lookup_insert_ne in Hj by done. by exists x. }
  assert (Hback : ∀ j y, descs h !! j = Some y → ∃ x, descs (upd k (set_dlock b d) h) !! j = Some x ∧
    d_size x = d_size y ∧ per_arena x = per_arena y ∧ free_list x = free_list y).
  { intros j y Hj. destruct (decide (j = k)) as [->|Hne].
    - exists (set_dlock b d). rewrite (upd_lookup k d) by done. by simplify_eq.
    - exists y. unfold upd. simpl. by rewrite list_lookup_insert_ne. }
  assert (Hsm : ∀ j x y p, d_size x = d_size y → per_arena x = per_arena y → small h j y p → small h j x p).
  { intros j x y p H1 H2 (a & ar & i & ? & ? & ? & ->). exists a, ar, i. unfold block_at. rewrite H1, H2. done. }
  split; try apply I.
  - intros a ar Ha. destruct (iv_arena _ _ _ I a ar Ha) as (H1 & H2 & H3). split; [done|]. split; [done|].
    destruct (a_desc ar) as [j|]; [|done]. destruct H3 as (H3 & y & Hy & Hf). split; [done|].
    destruct (Hback j y Hy) as (x & Hx & _ & _ & Hfl). exists x. by rewrite Hfl.
  - intros j x Hj. destruct (Hlook j x Hj) as (y & Hy & H1 & H2 & H3).
    destruct (iv_desc _ _ _ I j y Hy) as ([? ? ?] & Hnd & Hs). rewrite H3. split; [split; congruence|]. split; [done|].
    intros p Hp. apply (Hsm j x y p H1 H2). by apply Hs.
  - intros p n Hp. destruct (iv_live _ _ _ I p n Hp) as [(j & y & Hy & Hs & Hf & ->)|Hb]; [left|by right].
    destruct (Hback j y Hy) as (x & Hx & H1 & H2 & H3). exists j, x. rewrite H3, H1. split_and!; try done. by apply (Hsm j x y).
Qed.

(** ** Changing one arena of a descriptor, or adding or dropping it *)

Section update.
Context (h h' : heap) (pgs pgs' : list block) (live live' : list (Z * Z)).
Context (k : nat) (d : desc) (l' : list Z) (a : Z) (oar : option arena).
Hypothesis I : inv h pgs live.
Hypothesis Hd : descs h !! k = Some d.
Hypothesis Hds : descs h' = <[k := set_free l' d]> (descs h).
Hypothesis Has : ∀ x, arenas h' !! x = if decide (x = a) then oar else arenas h !! x.
Hypothesis Hold : ∀ ar, arenas h !! a = Some ar → a_desc ar = Some k.
Hypothesis Hpages : pages_ok (pages_of h') pgs'.
Hypothesis Hpgs : ∀ x n, x ≠ a → (x, n) ∈ pgs → (x, n) ∈ pgs'.
Hypothesis Hnew : ∀ ar, oar = Some ar →
  page_addr a ∧ a_magic ar = ARENA_MAGIC ∧ a_desc ar = Some k ∧ (a, 1%nat) ∈ pgs' ∧ free_cnt ar = Z.of_nat (free_in a l').
Hypothesis Hcnt : ∀ x, x ≠ a → free_in x l' = free_in x (free_list d).
Hypothesis Hnd : NoDup l'.
Hypothesis Hfree : ∀ b, b ∈ l' → (b ∈ free_list d ∧ pg_round_down b ≠ a) ∨ small h' k d b ∧ pg_round_down b = a.
Hypothesis Hlive : ∀ p n, (p, n) ∈ live' → (p, n) ∈ live ∧ pg_round_down p ≠ a ∨ live_small h' p n.
Hypothesis Hlnd : NoDup live'.*1.

Lemma update_desc j : descs h' !! j = if decide (j = k) then Some (set_free l' d) else descs h !! j.
Proof using Hd Hds.
  rewrite Hds. case_decide as Hj; [subst; apply list_lookup_insert_eq; by apply lookup_lt_Some in Hd|].
  by rewrite list_lookup_insert_ne.
Qed.

(** Blocks of other arenas stay what they are. *)
Lemma update_small j y b : descs h !! j = Some y → small h j y b → pg_round_down b ≠ a → small h' j y b.
Proof using I Has.
  intros Hy (x & ar & i & Hx & Hj & Hi & ->) Hne. exists x, ar, i. split_and!; try done; try lia.
  destruct (iv_arena _ _ _ I x ar Hx) as (Hp & _). destruct (iv_desc _ _ _ I j y Hy) as (Hok & _).
  destruct (block_facts y x i Hok Hp Hi) as (_ & Hr & _). rewrite Has, decide_False by congruence. done.
Qed.

Lemma inv_update : inv h' pgs' live'.
Proof using All.
  destruct (iv_desc _ _ _ I k d Hd) as (Hok & _ & Hsm).
  assert (Hno : ∀ j y, j ≠ k → descs h !! j = Some y → ∀ b, small h j y b → pg_round_down b ≠ a).
  { intros j y Hj Hy b Hb He. destruct (small_round _ _ _ _ _ _ I Hy Hb) as (ar & Har & Had & _).
    rewrite He in Har. rewrite (Hold ar Har) in Had. congruence. }
  split; [done| | | |done].
  - intros x ar Hx. rewrite Has in Hx. case_decide as Hxa.
    + subst x. destruct (Hnew ar Hx) as (H1 & H2 & H3 & H4 & H5). split; [done|]. split; [done|]. rewrite H3.
      split; [done|]. exists (set_free l' d). rewrite update_desc. by rewrite decide_True.
    + destruct (iv_arena _ _ _ I x ar Hx) as (H1 & H2 & H3). split; [done|]. split; [done|]. destruct (a_desc ar) as [j|].
      * destruct H3 as (H3 & y & Hy & Hf). split; [by apply Hpgs|]. rewrite update_desc. case_decide as Hj; [|by exists y].
        subst j. exists (set_free l' d). split; [done|]. simpl. rewrite Hcnt by done. congruence.
      * destruct H3 as (n & Hn & Hf & Hin). exists n. split_and!; try done. by apply Hpgs.
  - intros j y. rewrite update_desc. case_decide as Hj.
    + intros [= <-]. subst j. simpl. split; [by destruct Hok|]. split; [done|]. intros b Hb.
      change (small h' k (set_free l' d) b) with (small h' k d b).
      destruct (Hfree b Hb) as [[Hb1 Hb2]|[Hb1 _]]; [|done]. apply update_small; [done|by apply Hsm|done].
    + intros Hy. destruct (iv_desc _ _ _ I j y Hy) as (H1 & H2 & H3). split; [done|]. split; [done|]. intros b Hb.
      apply update_small; [done|by apply H3|]. eapply Hno; [done..|]. by apply H3.
  - intros p n Hp. destruct (Hlive p n Hp) as [[Hin Hne]|Hs]; [|by left].
    destruct (iv_live _ _ _ I p n Hin) as [(j & y & Hy & Hs & Hf & ->)|Hbig].
    + left. destruct (decide (j = k)) as [->|Hjk].
      * simplify_eq. exists k, (set_free l' d). rewrite update_desc, decide_True by done. split; [done|].
        split; [by apply (update_small k d)|]. split; [|done]. simpl. intros Hin'.
        destruct (Hfree p Hin') as [[? _]|[_ ?]]; done.
      * exists j, y. rewrite update_desc, decide_False by done. split_and!; try done. by apply (update_small j y).
    + right. destruct (big_round _ _ _ _ _ I Hbig) as (ar & Har & Hk & Hpe & _ & _ & Hn).
      exists (pg_round_down p), ar. rewrite Has, decide_False by done. done.
Qed.
End update.

(** ** Counting *)

Lemma free_in_cons a b l : free_in a (b :: l) = if decide (pg_round_down b = a) then S (free_in a l) else free_in a l.
Proof. unfold free_in. case_decide; [by rewrite filter_cons_True|by rewrite filter_cons_False]. Qed.

Lemma free_in_blocks d a i n x :
  desc_ok d → page_addr a → 0 ≤ i → i + Z.of_nat n ≤ per_arena d →
  free_in x (blocks_from d a i n) = if decide (x = a) then n else O.
Proof.
  intros Hok Hp. revert i. induction n as [|n IH]; intros i Hi Hn; [by case_decide|].
  rewrite blocks_from_S, free_in_cons, IH by lia.
  destruct (block_facts d a i Hok Hp ltac:(lia)) as (_ & Hr & _). rewrite Hr. repeat case_decide; congruence.
Qed.

Lemma blocks_nodup d a i n :
  desc_ok d → page_addr a → 0 ≤ i → i + Z.of_nat n ≤ per_arena d → NoDup (blocks_from d a i n).
Proof.
  intros Hok Hp. revert i. induction n as [|n IH]; intros i Hi Hn; [constructor|]. rewrite blocks_from_S.
  constructor; [|apply IH; lia]. intros (j & Hj & He)%elem_blocks. apply block_at_inj in He; try done; lia.
Qed.

(** A set of free blocks of an arena has at most all of them, and then it is
    all of them. *)
Lemma free_in_bound d a l :
  desc_ok d → page_addr a → NoDup l →
  (∀ b, b ∈ l → pg_round_down b = a → ∃ i, 0 ≤ i < per_arena d ∧ b = block_at d a i) →
  (Z.of_nat (free_in a l) ≤ per_arena d) ∧
  (per_arena d ≤ Z.of_nat (free_in a l) → ∀ i, 0 ≤ i < per_arena d → block_at d a i ∈ l).
Proof.
  intros Hok Hp Hnd Hin. pose proof (dk_per _ Hok) as Hper.
  set (all := blocks_from d a 0 (Z.to_nat (per_arena d))).
  set (l1 := filter (λ b, pg_round_down b = a) l).
  assert (Hnd1 : NoDup l1) by (by apply NoDup_filter).
  assert (Hsub : l1 ⊆ all).
  { intros b Hb. apply list_elem_of_filter in Hb as [Hr Hb]. destruct (Hin b Hb Hr) as (i & Hi & ->).
    apply elem_blocks. exists i. split; [lia|done]. }
  assert (Hall : length all = Z.to_nat (per_arena d)) by (unfold all, blocks_from; by rewrite length_fmap, length_seq).
  assert (Hle : (length l1 ≤ length all)%nat) by (by apply submseteq_length, NoDup_submseteq).
  unfold free_in. fold l1. split; [lia|]. intros Hge i Hi.
  assert (Hperm : l1 ≡ₚ all) by (apply submseteq_length_Permutation; [by apply NoDup_submseteq|lia]).
  assert (Hb : block_at d a i ∈ l1).
  { rewrite Hperm. apply elem_blocks. exists i. split; [lia|done]. }
  by apply list_elem_of_filter in Hb as [_ ?].
Qed.

(** ** Allocation *)

(** Which descriptor's lock is held. *)
Definition locked (o : option nat) (h : heap) : Prop :=
  ∀ j d, descs h !! j = Some d → d_lock d = bool_decide (o = Some j).

Lemma locked_upd o h k d b :
  locked o h → descs h !! k = Some d → o = None ∨ o = Some k →
  locked (if b : bool then Some k else None) (upd k (set_dlock b d) h).
Proof.
  intros Hl Hd Ho j y Hj. destruct (decide (j = k)) as [->|Hne].
  - rewrite (upd_lookup k d) in Hj by done. injection Hj as <-. simpl. destruct b; case_bool_decide; congruence.
  - unfold upd in Hj. simpl in Hj. rewrite list_lookup_insert_ne in Hj by done. rewrite (Hl j y Hj).
    destruct Ho as [-> | ->]; destruct b; repeat case_bool_decide; congruence.
Qed.

Lemma locked_free o h k d l : locked o h → descs h !! k = Some d → locked o (upd k (set_free l d) h).
Proof.
  intros Hl Hd j y Hj. destruct (decide (j = k)) as [->|Hne].
  - rewrite (upd_lookup k d) in Hj by done. injection Hj as <-. simpl. by apply Hl.
  - unfold upd in Hj. simpl in Hj. rewrite list_lookup_insert_ne in Hj by done. by apply Hl.
Qed.

Lemma acquire_ok {B} (f : unit → st heap B) h k d :
  descs h !! k = Some d → d_lock d = false → (desc_lock_acquire k ≫= f) h = f tt (upd k (set_dlock true d) h).
Proof.
  intros Hd Hl. rewrite (st_bind_ok _ _ _ tt (upd k (set_dlock true d) h)); [done|].
  unfold desc_lock_acquire. rewrite (get_desc_ok _ _ _ _ Hd), Hl. done.
Qed.

Lemma release_ok h k d :
  descs h !! k = Some d → d_lock d = true → desc_lock_release k h = Ok (tt, upd k (set_dlock false d) h).
Proof. intros Hd Hl. unfold desc_lock_release. rewrite (get_desc_ok _ _ _ _ Hd), Hl. done. Qed.

Definition with_pages (s : palloc) (h : heap) : heap := Heap (descs h) (arenas h) s (memory_ops h).

Lemma inv_pages h pgs live s : inv h pgs live → pages_ok s pgs → inv (with_pages s h) pgs live.
Proof. intros [] Hb. by split. Qed.

(** The blocks of one arena. *)
Lemma small_at h pgs live k d b :
  inv h pgs live → descs h !! k = Some d → small h k d b →
  ∃ ar i, arenas h !! pg_round_down b = Some ar ∧ a_desc ar = Some k ∧ 0 ≤ i < per_arena d ∧
          b = block_at d (pg_round_down b) i.
Proof.
  intros I Hd (a & ar & i & Ha & Hk & Hi & ->). destruct (iv_arena _ _ _ I a ar Ha) as (Hp & _).
  destruct (iv_desc _ _ _ I k d Hd) as (Hok & _). destruct (block_facts d a i Hok Hp Hi) as (_ & Hr & _).
  exists ar, i. by rewrite Hr.
Qed.

Lemma live_at h pgs live k d p n ar :
  inv h pgs live → descs h !! k = Some d → (p, n) ∈ live → arenas h !! pg_round_down p = Some ar → a_desc ar = Some k →
  small h k d p ∧ p ∉ free_list d ∧ n = d_size d.
Proof.
  intros I Hd Hin Har Hk. destruct (iv_live _ _ _ I p n Hin) as [(j & y & Hy & Hs & Hf & ->)|Hbig].
  - destruct (small_round _ _ _ _ _ _ I Hy Hs) as (ar2 & Har2 & Hk2 & _).
    assert (j = k) as -> by congruence. by simplify_eq.
  - destruct (big_round _ _ _ _ _ I Hbig) as (ar2 & Har2 & Hk2 & _). congruence.
Qed.

Lemma small_keep h h' pgs live k d b ar' :
  inv h pgs live → descs h !! k = Some d → small h k d b →
  arenas h' !! pg_round_down b = Some ar' → a_desc ar' = Some k → small h' k d b.
Proof.
  intros I Hd Hs Ha Hk. destruct (small_at _ _ _ _ _ _ I Hd Hs) as (ar & i & _ & _ & Hi & He).
  exists (pg_round_down b), ar', i. done.
Qed.

(** At most all the blocks of an arena are free. *)
Lemma free_bound h pgs live k d a ar :
  inv h pgs live → descs h !! k = Some d → arenas h !! a = Some ar →
  0 ≤ Z.of_nat (free_in a (free_list d)) ≤ per_arena d ∧ per_arena d ≤ PGSIZE.
Proof.
  intros I Hd Ha. destruct (iv_arena _ _ _ I a ar Ha) as (Hp & _).
  destruct (iv_desc _ _ _ I k d Hd) as (Hok & Hnd & Hsm).
  destruct (free_in_bound d a (free_list d) Hok Hp Hnd) as [Hb _].
  { intros b Hb <-. destruct (small_at _ _ _ _ _ _ I Hd (Hsm b Hb)) as (_ & i & _ & _ & Hi & He). by exists i. }
  split; [lia|]. destruct Hok. unfold PGSIZE, ARENA_SIZE in *. nia.
Qed.

(** The state with the descriptor's free list and the arena's count changed. *)
Definition recount (k : nat) (d : desc) (l : list Z) (a : Z) (ar : arena) (n : Z) (h : heap) : heap :=
  set_arenas (<[a := Arena (a_magic ar) (a_desc ar) n]> (arenas h)) (upd k (set_free l d) h).

Section recount.
Context (h : heap) (pgs : list block) (live : list (Z * Z)) (k : nat) (d : desc) (l : list Z) (a : Z) (ar : arena).
Hypothesis I : inv h pgs live.
Hypothesis Hd : descs h !! k = Some d.
Hypothesis Ha : arenas h !! a = Some ar.
Hypothesis Hk : a_desc ar = Some k.
Let h' := recount k d l a ar (Z.of_nat (free_in a l)) h.

Lemma recount_arenas x : arenas h' !! x
  = if decide (x = a) then Some (Arena (a_magic ar) (a_desc ar) (Z.of_nat (free_in a l))) else arenas h !! x.
Proof using All. unfold h', recount. simpl. case_decide; [subst; by rewrite lookup_insert_eq|by rewrite lookup_insert_ne]. Qed.

Lemma recount_small b : small h k d b → small h' k d b.
Proof using All.
  intros Hs. destruct (small_at _ _ _ _ _ _ I Hd Hs) as (ar1 & i & Har1 & Hk1 & Hi & He).
  destruct (decide (pg_round_down b = a)) as [Hb|Hb].
  - eapply (small_keep h h'); [done..|by rewrite recount_arenas, decide_True|done].
  - eapply (small_keep h h'); [done..|by rewrite recount_arenas, decide_False by done|done].
Qed.

Lemma recount_inv live' :
  NoDup l → (∀ x, x ≠ a → free_in x l = free_in x (free_list d)) → (∀ b, b ∈ l → small h k d b) →
  (∀ b, b ∈ l → pg_round_down b ≠ a → b ∈ free_list d) →
  (∀ p n, (p, n) ∈ live' → ((p, n) ∈ live ∧ (pg_round_down p = a → p ∉ l)) ∨
                           (small h k d p ∧ p ∉ l ∧ n = d_size d)) →
  NoDup live'.*1 → inv h' pgs live'.
Proof using All.
  intros Hnd Hcnt Hsm Hfree Hlive Hlnd. destruct (iv_arena _ _ _ I a ar Ha) as (Hp & Hm & Har). rewrite Hk in Har.
  destruct Har as (Hpg & _).
  assert (Hd' : descs h' !! k = Some (set_free l d)) by (by apply (upd_lookup k d)).
  eapply (inv_update h h' pgs pgs live live' k d l a _); try done.
  - intros x. apply recount_arenas.
  - intros ar0 Har0. congruence.
  - apply I.
  - intros ar0 [= <-]. done.
  - intros b Hb. destruct (decide (pg_round_down b = a)); [right; split; [by apply recount_small, Hsm|done]|left; auto].
  - intros p n Hpn. destruct (Hlive p n Hpn) as [[Hin Hnl]|(Hs & Hnl & ->)].
    + destruct (decide (pg_round_down p = a)) as [Hpa|Hpa]; [right|by left].
      destruct (live_at _ _ _ k d p n ar I Hd Hin) as (Hs & _ & ->); [by rewrite Hpa|done|].
      exists k, (set_free l d). split_and!; try done; [by apply recount_small|by apply Hnl].
    + right. exists k, (set_free l d). split_and!; try done. by apply recount_small.
Qed.

Lemma recount_locked o : locked o h → locked o h'.
Proof using All. intros Hl j y Hj. by apply (locked_free o h k d l Hl Hd). Qed.
End recount.

(** Taking the first free block. *)
Lemma pop_ok h pgs live k d b l :
  inv h pgs live → locked (Some k) h → descs h !! k = Some d → free_list d = b :: l →
  ∃ h', (put_desc k (set_free l d);;
         a ← block_to_arena b;
         ar ← get_arena a;
         put_arena a (Arena (a_magic ar) (a_desc ar) (u64 (free_cnt ar - 1)));;
         desc_lock_release k;;
         mret b) h = Ok (b, h') ∧ inv h' pgs ((b, d_size d) :: live) ∧ locked None h' ∧ b ≠ NULL.
Proof.
  intros I Hlk Hd Hl. destruct (iv_desc _ _ _ I k d Hd) as (Hok & Hnd & Hsm). rewrite Hl in Hnd, Hsm.
  apply NoDup_cons in Hnd as [Hb Hnd]. assert (Hsb := Hsm b ltac:(left)).
  destruct (small_at _ _ _ _ _ _ I Hd Hsb) as (ar & i & Ha & Hk & Hi & Hbe).
  set (a := pg_round_down b) in *. destruct (iv_arena _ _ _ I a ar Ha) as (Hp & Hm & Har). rewrite Hk in Har.
  destruct Har as (Hpg & d0 & Hd0 & Hfc). simplify_eq. destruct (free_bound _ _ _ _ _ _ _ I Hd Ha) as [Hbound Hper].
  rewrite Hl, free_in_cons, decide_True in Hfc, Hbound by done.
  destruct (block_facts d a i Hok Hp Hi) as (_ & _ & _ & Hnn). rewrite <- Hbe in Hnn.
  set (h1 := recount k d l a ar (Z.of_nat (free_in a l)) h).
  assert (Hd1 : descs h1 !! k = Some (set_free l d)) by (by apply (upd_lookup k d)).
  exists (upd k (set_dlock false (set_free l d)) h1). split_and!; [| | |done].
  - rewrite (st_bind_ok _ _ _ tt (upd k (set_free l d) h)) by done.
    rewrite (st_bind_ok _ _ _ a (upd k (set_free l d) h)).
    2: { rewrite Hbe. apply (to_arena_ok (upd k (set_free l d) h) a ar k (set_free l d)); try done. by destruct Hok. }
    rewrite (get_arena_ok _ _ ar) by done. rewrite Hfc, u64_small by (unfold PGSIZE in *; lia).
    replace (Z.of_nat (S (free_in a l)) - 1) with (Z.of_nat (free_in a l)) by lia.
    rewrite (st_bind_ok _ _ _ tt h1) by done. rewrite (st_bind_ok _ _ _ tt (upd k (set_dlock false (set_free l d)) h1)); [done|].
    apply release_ok; [done|]. simpl. rewrite (Hlk k d Hd). by apply bool_decide_eq_true_2.
  - apply inv_lock; [|done]. apply (recount_inv h pgs live); try done.
    + intros x Hx. rewrite Hl, free_in_cons. by rewrite decide_False by (intros Hax; apply Hx; by rewrite <- Hax).
    + intros x Hx. apply Hsm. by right.
    + intros x Hx _. rewrite Hl. by right.
    + intros p n [Hpn|Hpn]%elem_of_cons; [injection Hpn as -> ->; by right|left]. split; [done|]. intros Hpa Hpl.
      destruct (live_at _ _ _ k d p n ar I Hd Hpn) as (_ & Hf & _); [by rewrite Hpa|done|]. apply Hf. rewrite Hl. by right.
    + simpl. apply NoDup_cons. split; [|apply I]. intros ([p n] & Hpe & Hin)%list_elem_of_fmap. simpl in Hpe. subst p.
      destruct (live_at _ _ _ k d b n ar I Hd Hin) as (_ & Hf & _); [done..|]. apply Hf. rewrite Hl. left.
  - apply (locked_upd (Some k) h1 k (set_free l d) false); [|done|by right]. by apply (recount_locked h pgs live).
Qed.

(** A new arena for a descriptor without free blocks. *)
Lemma new_arena_ok h pgs live k d a s :
  inv h pgs live → descs h !! k = Some d → free_list d = [] → pages_ok s ((a, 1%nat) :: pgs) →
  let h1 := set_arenas (<[a := Arena ARENA_MAGIC (Some k) (per_arena d)]> (arenas h)) (with_pages s h) in
  let h2 := upd k (set_free (blocks_from d a 0 (Z.to_nat (per_arena d))) d) h1 in
  add_blocks (Z.to_nat (per_arena d)) a k 0 h1 = Ok (tt, h2) ∧ inv h2 ((a, 1%nat) :: pgs) live.
Proof.
  intros I Hd Hl Hb h1 h2. destruct (iv_desc _ _ _ I k d Hd) as (Hok & _). pose proof (dk_per _ Hok) as Hper.
  destruct (pgs_bounds _ _ a 1 Hb ltac:(left)) as (Hp & _). pose proof (fresh_page _ _ _ _ _ _ I Hb) as Hfresh.
  assert (Hx : ∀ x, arenas h2 !! x = if decide (x = a) then Some (Arena ARENA_MAGIC (Some k) (per_arena d)) else arenas h !! x).
  { intros x. unfold h2, h1. simpl. case_decide; [subst; by rewrite lookup_insert_eq|by rewrite lookup_insert_ne]. }
  split.
  - assert (Hadd := add_blocks_ok (Z.to_nat (per_arena d)) h1 a (Arena ARENA_MAGIC (Some k) (per_arena d)) k d 0).
    rewrite Hl in Hadd. apply Hadd; try done; [|lia]. unfold h1. simpl. by rewrite lookup_insert_eq.
  - assert (Hcount : ∀ x, free_in x (blocks_from d a 0 (Z.to_nat (per_arena d))) = if decide (x = a) then Z.to_nat (per_arena d) else O)
      by (intros x; apply free_in_blocks; done || lia).
    eapply (inv_update h h2 pgs _ live live k d _ a); try done.
    + intros ar Har. by rewrite Hfresh in Har.
    + intros x n _ Hin. by right.
    + intros ar [= <-]. rewrite Hcount, decide_True by done. split_and!; try done; [left|simpl; lia].
    + intros x Hne. rewrite Hcount, decide_False, Hl by done. done.
    + apply blocks_nodup; done || lia.
    + intros b (j & Hj & ->)%elem_blocks. right. destruct (block_facts d a j Hok Hp ltac:(lia)) as (_ & Hr & _).
      split; [|done]. exists a, (Arena ARENA_MAGIC (Some k) (per_arena d)), j. rewrite Hx, decide_True by done. split_and!; done || lia.
    + intros p n Hin. left. split; [done|]. intros He.
      destruct (iv_live _ _ _ I p n Hin) as [(j & y & Hy & Hs & _)|Hbig].
      * destruct (small_round _ _ _ _ _ _ I Hy Hs) as (ar & Har & _). congruence.
      * destruct (big_round _ _ _ _ _ I Hbig) as (ar & Har & _). congruence.
    + apply I.
Qed.

Lemma find_desc_some l size j k :
  find_desc l size j = Some k → (j ≤ k)%nat ∧ ∃ d, l !! (k - j)%nat = Some d ∧ size ≤ d_size d.
Proof.
  revert j. induction l as [|d l IH]; intros j Hf; simplify_eq/=. destruct (Z.leb_spec size (d_size d)).
  - injection Hf as <-. split; [lia|]. exists d. by rewrite Nat.sub_diag.
  - destruct (IH (S j) Hf) as (Hle & d' & Hd & Hs). split; [lia|]. exists d'. replace (k - j)%nat with (S (k - S j)) by lia. done.
Qed.

Definition good (h : heap) (live : list (Z * Z)) : Prop := (∃ pgs, inv h pgs live) ∧ locked None h.

(** Getting pages inside the heap. *)
Lemma get_pages h pgs live (n : nat) :
  inv h pgs live → n ≠ O →
  ∃ a s, on_palloc (palloc_get_multiple 0 (Z.of_nat n)) h = Ok (a, with_pages s h) ∧
         pages_ok s (if a =? NULL then pgs else (a, n) :: pgs).
Proof.
  intros I Hn. destruct (iv_pages _ _ _ I) as [Hb0 Hne].
  destruct (get_block (pages_of h) pgs 0 n Hb0) as [(a & s & Hop & _ & Hb)|[Hf _]]; [|done].
  exists a, s. split; [unfold on_palloc; by rewrite Hop|]. split; [done|]. destruct (a =? NULL); [done|by constructor].
Qed.

(** Giving pages back. *)
Lemma free_pages s pgs i a n :
  pages_ok s pgs → pgs !! i = Some (a, n) →
  ∃ s', palloc_free_multiple a (Z.of_nat n) s = Ok (tt, s') ∧ pages_ok s' (delete i pgs).
Proof.
  intros [Hb Hne] Hi. destruct (free_block s pgs i (a, n) Hb Hi) as (s' & Hop & Hb'). exists s'. split; [done|].
  split; [done|]. by apply Forall_delete.
Qed.

(** What an allocation promises. *)
Definition alloc_result (size : Z) (live : list (Z * Z)) (p : Z) (h' : heap) : Prop :=
  p = NULL ∧ good h' live ∨ p ≠ NULL ∧ ∃ n, size ≤ n ∧ good h' ((p, n) :: live).

Lemma malloc_small h live size k d :
  good h live → descs h !! k = Some d → size ≤ d_size d → find_desc (descs h) size 0 = Some k → size ≠ 0 →
  ∃ p h', malloc size h = Ok (p, h') ∧ alloc_result size live p h'.
Proof.
  intros [[pgs I] Hlk] Hd Hs Hf H0. unfold malloc. destruct (Z.eqb_spec size 0); [done|].
  rewrite (st_bind_ok _ _ _ (descs h) h) by done. rewrite Hf.
  rewrite (acquire_ok _ _ _ _ Hd) by (by rewrite (Hlk k d Hd)). set (h1 := upd k (set_dlock true d) h).
  assert (I1 : inv h1 pgs live) by (by apply inv_lock).
  assert (Hlk1 : locked (Some k) h1) by (apply (locked_upd None h k d true); [done|done|by left]).
  assert (Hd1 : descs h1 !! k = Some (set_dlock true d)) by (by apply (upd_lookup k d)).
  rewrite (get_desc_ok _ _ _ _ Hd1). cbn [set_dlock free_list per_arena].
  assert (Hpop : ∀ h2 pgs2 d2, inv h2 pgs2 live → locked (Some k) h2 → descs h2 !! k = Some d2 → d_size d2 = d_size d →
    free_list d2 ≠ [] → ∃ p h', (d ← get_desc k;
      match free_list d with
      | [] => st_err AssertFail
      | b :: l =>
        put_desc k (set_free l d);;
        a ← block_to_arena b;
        ar ← get_arena a;
        put_arena a (Arena (a_magic ar) (a_desc ar) (u64 (free_cnt ar - 1)));;
        desc_lock_release k;;
        mret b
      end) h2 = Ok (p, h') ∧ alloc_result size live p h').
  { intros h2 pgs2 d2 I2 Hlk2 Hd2 Hsz Hne. rewrite (get_desc_ok _ _ _ _ Hd2). destruct (free_list d2) as [|b l] eqn:El; [done|].
    destruct (pop_ok h2 pgs2 live k d2 b l I2 Hlk2 Hd2 El) as (h' & Hop & I' & Hlk' & Hn).
    exists b, h'. split; [done|]. right. split; [done|]. exists (d_size d2). split; [lia|]. split; [by exists pgs2|done]. }
  destruct (decide (free_list d = [])) as [El|El].
  - rewrite bool_decide_eq_true_2 by done.
    destruct (get_pages h1 pgs live 1 I1 ltac:(done)) as (a & s & Hop & Hb).
    unfold palloc_get_page. rewrite st_bind_assoc, (st_bind_ok _ _ _ _ _ Hop).
    destruct (Z.eqb_spec a NULL) as [Ea|Ea].
    + rewrite (st_bind_ok _ _ _ false (with_pages s h1)) by done. cbn [negb].
      exists NULL, (upd k (set_dlock false (set_dlock true d)) (with_pages s h1)).
      rewrite (st_bind_ok _ _ _ tt (upd k (set_dlock false (set_dlock true d)) (with_pages s h1))) by (by apply release_ok).
      split; [done|]. left. split; [done|]. split; [exists pgs; apply inv_lock; [by apply inv_pages|done]|].
      apply (locked_upd (Some k) (with_pages s h1) k (set_dlock true d) false); [done|done|by right].
    + destruct (new_arena_ok h1 pgs live k (set_dlock true d) a s I1 Hd1 El Hb) as [Hadd I2].
      set (h2 := set_arenas _ _) in Hadd, I2. rewrite st_bind_assoc, (st_bind_ok _ _ _ tt h2) by done.
      rewrite st_bind_assoc, (st_bind_ok _ _ _ _ _ Hadd). rewrite (st_bind_ok _ _ _ true _ eq_refl). cbn [negb].
      eapply Hpop; [exact I2|by apply (locked_free (Some k) h2)|by apply (upd_lookup k (set_dlock true d))|done|].
      simpl. destruct (iv_desc _ _ _ I k d Hd) as (Hok & _). pose proof (dk_per _ Hok) as Hper.
      replace (Z.to_nat (per_arena d)) with (S (Z.to_nat (per_arena d - 1))) by lia. by rewrite blocks_from_S.
  - rewrite bool_decide_eq_false_2 by done. rewrite (st_bind_ok _ _ _ true h1) by done. cbn [negb].
    by apply (Hpop h1 pgs (set_dlock true d)).
Qed.

(** ** Big blocks *)

Section big.
Context (h h' : heap) (pgs pgs' : list block) (live live' : list (Z * Z)) (a : Z) (oar : option arena).
Hypothesis I : inv h pgs live.
Hypothesis Hds : descs h' = descs h.
Hypothesis Has : ∀ x, arenas h' !! x = if decide (x = a) then oar else arenas h !! x.
Hypothesis Hold : ∀ ar, arenas h !! a = Some ar → a_desc ar = None.
Hypothesis Hpages : pages_ok (pages_of h') pgs'.
Hypothesis Hpgs : ∀ x n, x ≠ a → (x, n) ∈ pgs → (x, n) ∈ pgs'.
Hypothesis Hnew : ∀ ar, oar = Some ar → ∃ n, n ≠ O ∧ ar = Arena ARENA_MAGIC None (Z.of_nat n) ∧ (a, n) ∈ pgs'.
Hypothesis Hlive : ∀ p n, (p, n) ∈ live' → (p, n) ∈ live ∧ pg_round_down p ≠ a ∨ live_big h' p n.
Hypothesis Hlnd : NoDup live'.*1.

Lemma big_small k d b : descs h !! k = Some d → small h k d b → small h' k d b.
Proof using I Has Hold.
  intros Hd (x & ar & i & Hx & Hk & Hi & ->). exists x, ar, i. split_and!; try done; try lia.
  rewrite Has, decide_False; [done|]. intros ->. by rewrite (Hold ar Hx) in Hk.
Qed.

Lemma inv_big : inv h' pgs' live'.
Proof using All.
  split; [done| | | |done].
  - intros x ar. rewrite Has. case_decide as Hx.
    + intros Har. subst x. destruct (Hnew ar Har) as (n & Hn & -> & Hin). destruct (pgs_bounds _ _ _ _ Hpages Hin) as (Hp & _).
      split; [done|]. split; [done|]. by exists n.
    + intros Har. destruct (iv_arena _ _ _ I x ar Har) as (H1 & H2 & H3). split; [done|]. split; [done|]. rewrite Hds.
      destruct (a_desc ar); [destruct H3; split; [by apply Hpgs|done]|]. destruct H3 as (n & ? & ? & ?). exists n. auto.
  - intros k d. rewrite Hds. intros Hd. destruct (iv_desc _ _ _ I k d Hd) as (H1 & H2 & H3). split; [done|]. split; [done|].
    intros b Hb. apply big_small; [done|by apply H3].
  - intros p n Hp. destruct (Hlive p n Hp) as [[Hin Hne]|Hb]; [|by right].
    destruct (iv_live _ _ _ I p n Hin) as [(k & d & Hd & Hs & Hf & ->)|Hbig].
    + left. exists k, d. rewrite Hds. split_and!; try done. by apply big_small.
    + right. destruct (big_round _ _ _ _ _ I Hbig) as (ar & Har & Hk & Hpe & _ & _ & Hn).
      exists (pg_round_down p), ar. rewrite Has, decide_False by done. done.
Qed.
End big.

Lemma live_arena h pgs live p n : inv h pgs live → (p, n) ∈ live → ∃ ar, arenas h !! pg_round_down p = Some ar.
Proof.
  intros I Hin. destruct (iv_live _ _ _ I p n Hin) as [(k & d & Hd & Hs & _)|Hbig].
  - destruct (small_round _ _ _ _ _ _ I Hd Hs) as (ar & Har & _). by exists ar.
  - destruct (big_round _ _ _ _ _ I Hbig) as (ar & Har & _). by exists ar.
Qed.

Lemma malloc_big h live size :
  good h live → find_desc (descs h) size 0 = None → 0 < size < 2 ^ 64 - 2 * PGSIZE →
  ∃ p h', malloc size h = Ok (p, h') ∧ alloc_result size live p h'.
Proof.
  intros [[pgs I] Hlk] Hf Hs. unfold malloc. destruct (Z.eqb_spec size 0) as [?|_]; [lia|].
  rewrite (st_bind_ok _ _ _ (descs h) h) by done. rewrite Hf.
  set (n := Z.to_nat ((size + ARENA_SIZE + PGSIZE - 1) / PGSIZE)).
  assert (Hn : DIV_ROUND_UP (u64 (size + ARENA_SIZE)) PGSIZE = Z.of_nat n ∧ size + ARENA_SIZE ≤ PGSIZE * Z.of_nat n ∧ n ≠ O).
  { unfold DIV_ROUND_UP, n, ARENA_SIZE, PGSIZE in *. rewrite (u64_small (size + 24)), u64_small by lia.
    pose proof (Z.div_mod (size + 24 + 4096 - 1) 4096). pose proof (Z.mod_pos_bound (size + 24 + 4096 - 1) 4096).
    assert (1 ≤ (size + 24 + 4096 - 1) / 4096) by (apply Z.div_le_lower_bound; lia).
    rewrite Z2Nat.id by lia. split_and!; [done|lia|lia]. }
  destruct Hn as (-> & Hbig & Hn0).
  destruct (get_pages h pgs live n I Hn0) as (a & s & Hop & Hb). rewrite (st_bind_ok _ _ _ _ _ Hop).
  destruct (Z.eqb_spec a NULL) as [Ea|Ea].
  { exists NULL, (with_pages s h). split; [done|]. left. split; [done|]. split; [|done]. exists pgs. by apply inv_pages. }
  set (h' := set_arenas (<[a := Arena ARENA_MAGIC None (Z.of_nat n)]> (arenas h)) (with_pages s h)).
  destruct (pgs_bounds _ _ a n Hb ltac:(left)) as ((Hpa & Hal) & Hend & _).
  pose proof (fresh_page _ _ _ _ _ _ I Hb) as Hfresh. unfold KERN_BASE in Hpa.
  exists (a + ARENA_SIZE), h'. split.
  { rewrite (st_bind_ok _ _ _ tt h') by done. rewrite u64_small; [done|]. unfold PGSIZE, ARENA_SIZE in *. lia. }
  right. split; [unfold ARENA_SIZE, NULL; lia|]. exists (PGSIZE * Z.of_nat n - ARENA_SIZE). split; [lia|]. split; [|done].
  exists ((a, n) :: pgs).
  assert (Hx : ∀ x, arenas h' !! x = if decide (x = a) then Some (Arena ARENA_MAGIC None (Z.of_nat n)) else arenas h !! x).
  { intros x. unfold h'. simpl. case_decide; [subst; by rewrite lookup_insert_eq|by rewrite lookup_insert_ne]. }
  assert (Hl : ∀ p m, (p, m) ∈ live → pg_round_down p ≠ a).
  { intros p m Hin He. destruct (live_arena _ _ _ _ _ I Hin) as [ar Har]. congruence. }
  assert (Hr : pg_round_down (a + ARENA_SIZE) = a).
  { unfold ARENA_SIZE, PGSIZE in *. assert ((a + 24) mod 4096 = 24) by (rewrite Z.add_mod, Hal by lia; done).
    rewrite pg_round_down_eq by lia. unfold PGSIZE. lia. }
  eapply (inv_big h h' pgs _ live _ a); try done.
  - intros ar Har. congruence.
  - intros x m _ Hin. by right.
  - intros ar [= <-]. exists n. split_and!; try done. left.
  - intros p m [Hpm|Hpm]%elem_of_cons; [right|left; split; [done|by eapply Hl]]. injection Hpm as -> ->.
    exists a, (Arena ARENA_MAGIC None (Z.of_nat n)). rewrite Hx, decide_True by done. done.
  - simpl. apply NoDup_cons. split; [|apply I]. intros ([p m] & Hpe & Hin)%list_elem_of_fmap. simpl in Hpe. subst p.
    by apply (Hl _ _ Hin).
Qed.

Lemma malloc_ok h live size :
  good h live → 0 ≤ size < 2 ^ 64 - 2 * PGSIZE → ∃ p h', malloc size h = Ok (p, h') ∧ alloc_result size live p h'.
Proof.
  intros Hg Hs. destruct (decide (size = 0)) as [->|H0].
  { exists NULL, h. split; [done|]. by left. }
  destruct (find_desc (descs h) size 0) as [k|] eqn:Ef.
  - destruct (find_desc_some _ _ _ _ Ef) as (_ & d & Hd & Hle). rewrite Nat.sub_0_r in Hd. by eapply malloc_small.
  - apply malloc_big; [done|done|lia].
Qed.

(** ** Freeing *)

Lemma pgs_delete (pgs : list block) j a n : pgs !! j = Some (a, n) → ∀ x m, x ≠ a → (x, m) ∈ pgs → (x, m) ∈ delete j pgs.
Proof.
  intros Hj x m Hne Hin. rewrite (delete_Permutation pgs j (a, n) Hj) in Hin. apply elem_of_cons in Hin as [?|?]; congruence || done.
Qed.

(** The rest of the blocks in use when one is taken out. *)
Lemma live_delete (live : list (Z * Z)) j p n :
  live !! j = Some (p, n) → NoDup live.*1 →
  NoDup (delete j live).*1 ∧ ∀ q m, (q, m) ∈ delete j live → (q, m) ∈ live ∧ q ≠ p.
Proof.
  intros Hj Hnd. pose proof (delete_Permutation live j (p, n) Hj) as Hp. rewrite Hp in Hnd. simpl in Hnd.
  apply NoDup_cons in Hnd as [Hnp Hnd]. split; [done|]. intros q m Hin. split.
  - rewrite Hp. by right.
  - intros ->. apply Hnp. apply list_elem_of_fmap. by exists (p, m).
Qed.

Lemma free_big h live j p n pgs :
  inv h pgs live → locked None h → live !! j = Some (p, n) → live_big h p n →
  ∃ h', free p h = Ok (tt, h') ∧ good h' (delete j live).
Proof.
  intros I Hlk Hj Hbig. destruct (live_delete live j p n Hj (iv_nodup _ _ _ I)) as [Hnd Hdel].
  destruct (big_round _ _ _ _ _ I Hbig) as (ar & Har & Hk & Hpe & Hnn & Hofs & Hn). set (a := pg_round_down p) in *.
  destruct (iv_arena _ _ _ I a ar Har) as (Hp & Hm & Hpg). rewrite Hk in Hpg. destruct Hpg as (c & Hc & Hfc & Hin).
  apply list_elem_of_lookup in Hin as [i Hi].
  destruct (free_pages (pages_of h) pgs i a c (iv_pages _ _ _ I) Hi) as (s & Hop & Hb).
  exists (set_arenas (delete a (arenas h)) (with_pages s h)). split.
  - unfold free. destruct (Z.eqb_spec p NULL); [done|]. rewrite (st_bind_ok _ _ _ a h).
    2: { unfold block_to_arena. fold a.
         rewrite (st_bind_ok _ _ _ tt h) by (apply ASSERT_true; by rewrite (arena_not_null a Hp)).
         rewrite (get_arena_ok _ _ _ _ Har), (st_bind_ok _ _ _ tt h) by (apply ASSERT_true, Z.eqb_eq, Hm).
         rewrite Hk. by rewrite (st_bind_ok _ _ _ tt h) by (apply ASSERT_true, Z.eqb_eq, Hofs). }
    rewrite (get_arena_ok _ _ _ _ Har), Hk, Hfc.
    rewrite (st_bind_ok _ _ _ tt (with_pages s h)) by (unfold on_palloc; by rewrite Hop). done.
  - split; [|done]. exists (delete i pgs). eapply (inv_big h _ pgs _ live _ a None); try done.
    + intros x. simpl. case_decide as Hxa; [rewrite Hxa; by rewrite lookup_delete_eq|by rewrite lookup_delete_ne].
    + intros ar0 Har0. congruence.
    + by apply (pgs_delete pgs i a c).
    + intros q m Hqm. left. destruct (Hdel q m Hqm) as [Hqin Hqp]. split; [done|]. intros Hqa.
      destruct (iv_live _ _ _ I q m Hqin) as [(k & d & Hd & Hs & _)|Hqb].
      * destruct (small_round _ _ _ _ _ _ I Hd Hs) as (ar2 & Har2 & Hk2 & _). rewrite Hqa in Har2. congruence.
      * destruct (big_round _ _ _ _ _ I Hqb) as (ar2 & _ & _ & Hqe & _). apply Hqp. rewrite Hqe, Hpe. by rewrite Hqa.
Qed.

Lemma inv_ops h pgs live ops : inv h pgs live → inv (Heap (descs h) (arenas h) (pages_of h) ops) pgs live.
Proof. intros []. by split. Qed.

(** An arena whose blocks are all free is given back. *)
Lemma drop_arena_ok h pgs live k d a ar :
  inv h pgs live → descs h !! k = Some d → arenas h !! a = Some ar → a_desc ar = Some k →
  per_arena d ≤ Z.of_nat (free_in a (free_list d)) →
  ∃ h' pgs' l, (remove_blocks (Z.to_nat (per_arena d)) a k 0;;
              on_palloc (palloc_free_page a);;
              st_modify (λ h, set_arenas (delete a (arenas h)) h)) h = Ok (tt, h') ∧ inv h' pgs' live ∧
    descs h' = <[k := set_free l d]> (descs h).
Proof.
  intros I Hd Ha Hk Hfull. destruct (iv_desc _ _ _ I k d Hd) as (Hok & Hnd & Hsm). pose proof (dk_per _ Hok) as Hper.
  destruct (iv_arena _ _ _ I a ar Ha) as (Hp & Hm & Hpg). rewrite Hk in Hpg. destruct Hpg as (Hpg & _).
  set (all := blocks_from d a 0 (Z.to_nat (per_arena d))).
  assert (Hat : ∀ b, b ∈ free_list d → pg_round_down b = a → ∃ i, 0 ≤ i < per_arena d ∧ b = block_at d a i).
  { intros b Hb <-. destruct (small_at _ _ _ _ _ _ I Hd (Hsm b Hb)) as (_ & i & _ & _ & Hi & He). by exists i. }
  destruct (free_in_bound d a (free_list d) Hok Hp Hnd Hat) as [_ Hall]. specialize (Hall Hfull).
  assert (Hround : ∀ b, b ∈ all → pg_round_down b = a).
  { intros b (j & Hj & ->)%elem_blocks. by destruct (block_facts d a j Hok Hp ltac:(lia)) as (_ & ? & _). }
  set (l := filter (λ b, b ∉ all) (free_list d)). set (h1 := upd k (set_free l d) h).
  apply list_elem_of_lookup in Hpg as [i Hi].
  destruct (free_pages (pages_of h) pgs i a 1 (iv_pages _ _ _ I) Hi) as (s & Hop & Hb). change (Z.of_nat 1) with 1 in Hop.
  exists (set_arenas (delete a (arenas h1)) (with_pages s h1)), (delete i pgs), l. split; [|split; [|done]].
  - rewrite (st_bind_ok _ _ _ tt h1).
    + rewrite (st_bind_ok _ _ _ tt (with_pages s h1)); [done|]. unfold on_palloc, palloc_free_page. change (pages_of h1) with (pages_of h). by rewrite Hop.
    + apply (remove_blocks_ok (Z.to_nat (per_arena d)) h a ar k d 0); try done; [lia|].
      intros b (j & Hj & ->)%elem_blocks. apply Hall. lia.
  - eapply (inv_update h _ pgs _ live live k d l a None); try done.
    + intros x. simpl. case_decide as Hx; [rewrite Hx; by rewrite lookup_delete_eq|by rewrite lookup_delete_ne].
    + intros ar0 Har0. congruence.
    + by apply (pgs_delete pgs i a 1).
    + intros x Hx. unfold free_in, l. f_equal. rewrite list_filter_filter. apply list_filter_iff.
      intros b. split; [by intros [? _]|]. intros Hbx. split; [done|]. intros Hin. apply Hx. rewrite <- Hbx. by apply Hround.
    + by apply NoDup_filter.
    + intros b [Hn Hin]%list_elem_of_filter. left. split; [done|]. intros Hr. destruct (Hat b Hin Hr) as (j & Hj & ->).
      apply Hn. apply elem_blocks. exists j. split; [lia|done].
    + intros p n Hin. left. split; [done|]. intros Hr.
      destruct (live_at _ _ _ k d p n ar I Hd Hin) as (Hs & Hnf & _); [by rewrite Hr|done|].
      destruct (small_at _ _ _ _ _ _ I Hd Hs) as (_ & j & _ & _ & Hj & He). apply Hnf. rewrite He, Hr. by apply Hall.
    + apply I.
Qed.

(** Putting a block in use on the free list of its descriptor. *)
Lemma push_ok h pgs live j k d p n ar :
  inv h pgs live → descs h !! k = Some d → live !! j = Some (p, n) → small h k d p → p ∉ free_list d →
  arenas h !! pg_round_down p = Some ar → a_desc ar = Some k →
  u64 (free_cnt ar + 1) = Z.of_nat (free_in (pg_round_down p) (p :: free_list d)) ∧
  inv (recount k d (p :: free_list d) (pg_round_down p) ar (u64 (free_cnt ar + 1)) h) pgs (delete j live).
Proof.
  intros I Hd Hj Hs Hnf Ha Hk. destruct (live_delete live j p _ Hj (iv_nodup _ _ _ I)) as [Hnd Hdel].
  destruct (iv_arena _ _ _ I _ ar Ha) as (Hp & Hm & Hpg). rewrite Hk in Hpg. destruct Hpg as (_ & d0 & Hd0 & Hfc).
  simplify_eq. destruct (iv_desc _ _ _ I k d Hd) as (_ & Hndf & Hsm). destruct (free_bound _ _ _ _ _ _ _ I Hd Ha) as [Hbd Hper].
  assert (Hcnt : u64 (free_cnt ar + 1) = Z.of_nat (free_in (pg_round_down p) (p :: free_list d))).
  { rewrite free_in_cons, decide_True by done. rewrite u64_small by (unfold PGSIZE in *; lia). lia. }
  split; [done|]. rewrite Hcnt. apply (recount_inv h pgs live); try done.
  - by apply NoDup_cons.
  - intros x Hx. rewrite free_in_cons. by rewrite decide_False by done.
  - intros b [-> |Hb]%elem_of_cons; [done|by apply Hsm].
  - intros b [-> |Hb]%elem_of_cons Hr; [done|done].
  - intros q m Hqm. destruct (Hdel q m Hqm) as [Hqin Hqp]. left. split; [done|]. intros Hqa [?|Hqf]%elem_of_cons; [done|].
    destruct (live_at _ _ _ k d q m ar I Hd Hqin) as (_ & Hqn & _); [by rewrite Hqa|done|done].
Qed.

(** The end of [free]: the arena is given back when it is full, and the lock
    is released. *)
Lemma free_end h pgs live k d a ar :
  inv h pgs live → locked (Some k) h → descs h !! k = Some d → arenas h !! a = Some ar → a_desc ar = Some k →
  ∃ h', ((if per_arena d <=? free_cnt ar then
            ASSERT (free_cnt ar =? per_arena d);;
            remove_blocks (Z.to_nat (per_arena d)) a k 0;;
            on_palloc (palloc_free_page a);;
            st_modify (λ h, set_arenas (delete a (arenas h)) h)
          else mret tt);;
         desc_lock_release k) h = Ok (tt, h') ∧ good h' live.
Proof.
  intros I Hlk Hd Ha Hk. destruct (iv_arena _ _ _ I a ar Ha) as (_ & _ & Hpg). rewrite Hk in Hpg.
  destruct Hpg as (_ & d0 & Hd0 & Hfc). simplify_eq. destruct (free_bound _ _ _ _ _ _ _ I Hd Ha) as [Hbd _].
  assert (Hend : ∀ h1 pgs1 d1, inv h1 pgs1 live → locked (Some k) h1 → descs h1 !! k = Some d1 →
    ∃ h', desc_lock_release k h1 = Ok (tt, h') ∧ good h' live).
  { intros h1 pgs1 d1 I1 Hlk1 Hd1. exists (upd k (set_dlock false d1) h1). split.
    - apply release_ok; [done|]. rewrite (Hlk1 k d1 Hd1). by apply bool_decide_eq_true_2.
    - split; [exists pgs1; by apply inv_lock|]. apply (locked_upd (Some k) h1 k d1 false); [done|done|by right]. }
  destruct (Z.leb_spec (per_arena d) (free_cnt ar)) as [Hfull|Hfull].
  - destruct (drop_arena_ok h pgs live k d a ar I Hd Ha Hk ltac:(lia)) as (h1 & pgs1 & l & Hop & I1 & Hds).
    destruct (Hend h1 pgs1 (set_free l d) I1) as (h' & Hrel & Hg).
    + intros x y Hxy. rewrite Hds in Hxy. by apply (locked_free (Some k) h k d l Hlk Hd).
    + rewrite Hds. apply list_lookup_insert_eq. by apply lookup_lt_Some in Hd.
    + exists h'. split; [|done]. rewrite st_bind_assoc, (st_bind_ok _ _ _ tt h) by (apply ASSERT_true, Z.eqb_eq; lia).
      by rewrite (st_bind_ok _ _ _ _ _ Hop).
  - destruct (Hend h pgs d I Hlk Hd) as (h' & Hrel & Hg). exists h'. split; [|done]. by rewrite (st_bind_ok _ _ _ tt h).
Qed.

Lemma free_small h live j p n pgs :
  inv h pgs live → locked None h → live !! j = Some (p, n) → live_small h p n →
  ∃ h', free p h = Ok (tt, h') ∧ good h' (delete j live).
Proof.
  intros I Hlk Hj (k & d & Hd & Hs & Hnf & ->).
  destruct (small_at _ _ _ _ _ _ I Hd Hs) as (ar & i & Ha & Hk & Hi & Hpe). set (a := pg_round_down p) in *.
  destruct (iv_arena _ _ _ I a ar Ha) as (Hp & Hm & _). destruct (iv_desc _ _ _ I k d Hd) as (Hok & _).
  destruct (small_round _ _ _ _ _ _ I Hd Hs) as (_ & _ & _ & Hnn).
  set (h0 := Heap (descs h) (arenas h) (pages_of h) (Memset p 0xcc (d_size d) :: memory_ops h)).
  set (d1 := set_dlock true d). set (h1 := upd k d1 h0).
  assert (I1 : inv h1 pgs live) by (apply inv_lock; [by apply inv_ops|done]).
  assert (Hlk1 : locked (Some k) h1) by (apply (locked_upd None h0 k d true); [done|done|by left]).
  assert (Hd1 : descs h1 !! k = Some d1) by (by apply (upd_lookup k d)).
  assert (Hs1 : small h1 k d1 p) by (destruct Hs as (x & arx & y & ?); by exists x, arx, y).
  destruct (push_ok h1 pgs live j k d1 p (d_size d) ar I1 Hd1 Hj Hs1 Hnf Ha Hk) as [_ I2]. fold a in I2.
  set (n := u64 (free_cnt ar + 1)) in *. set (h2 := recount k d1 (p :: free_list d1) a ar n h1) in *.
  destruct (free_end h2 pgs (delete j live) k (set_free (p :: free_list d1) d1) a (Arena (a_magic ar) (a_desc ar) n))
    as (h' & Hop & Hg).
  - exact I2.
  - intros x y Hxy. by apply (locked_free (Some k) h1 k d1 (p :: free_list d1) Hlk1 Hd1).
  - by apply (upd_lookup k d1).
  - unfold h2, recount. simpl. by rewrite lookup_insert_eq.
  - exact Hk.
  - exists h'. split; [|done]. unfold free. destruct (Z.eqb_spec p NULL); [done|].
    rewrite (st_bind_ok _ _ _ a h) by (rewrite Hpe; by apply (to_arena_ok h a ar k d)).
    rewrite (get_arena_ok _ _ _ _ Ha), Hk, (get_desc_ok _ _ _ _ Hd). rewrite (st_bind_ok _ _ _ tt h0) by done.
    rewrite (acquire_ok _ h0 k d Hd) by (by rewrite (Hlk k d Hd)). fold d1 h1. rewrite (get_desc_ok _ _ _ _ Hd1).
    rewrite (st_bind_ok _ _ _ tt (upd k (set_free (p :: free_list d1) d1) h1)) by done. fold n. rewrite <- Hk.
    rewrite (st_bind_ok _ _ _ tt h2) by done. exact Hop.
Qed.

Lemma free_ok h live j p n :
  good h live → live !! j = Some (p, n) → ∃ h', free p h = Ok (tt, h') ∧ good h' (delete j live).
Proof.
  intros [[pgs I] Hlk] Hj. destruct (iv_live _ _ _ I p n) as [Hs|Hb]; [by eapply list_elem_of_lookup_2| |].
  - by eapply free_small.
  - by eapply free_big.
Qed.

(** ** [block_size], [realloc] and [calloc] *)

Lemma block_size_ok h live p n : good h live → (p, n) ∈ live → block_size p h = Ok (n, h) ∧ p ≠ NULL.
Proof.
  intros [[pgs I] Hlk] Hin. destruct (iv_live _ _ _ I p n Hin) as [(k & d & Hd & Hs & Hnf & ->)|Hbig].
  - destruct (small_round _ _ _ _ _ _ I Hd Hs) as (_ & _ & _ & Hnn).
    destruct (small_at _ _ _ _ _ _ I Hd Hs) as (ar & i & Ha & Hk & Hi & Hpe). set (a := pg_round_down p) in *.
    destruct (iv_arena _ _ _ I a ar Ha) as (Hp & Hm & _). destruct (iv_desc _ _ _ I k d Hd) as (Hok & _).
    split; [|done]. unfold block_size. rewrite (st_bind_ok _ _ _ a h) by (rewrite Hpe; by apply (to_arena_ok h a ar k d)).
    by rewrite (get_arena_ok _ _ _ _ Ha), Hk, (get_desc_ok _ _ _ _ Hd).
  - destruct (big_round _ _ _ _ _ I Hbig) as (ar & Har & Hk & Hpe & Hnn & Hofs & Hn). set (a := pg_round_down p) in *.
    destruct (iv_arena _ _ _ I a ar Har) as (Hp & Hm & Hpg). rewrite Hk in Hpg. destruct Hpg as (c & Hc & Hfc & Hcin).
    destruct (pgs_bounds _ _ _ _ (iv_pages _ _ _ I) Hcin) as ((Hlo & _) & Hhi & _).
    split; [|done]. unfold block_size. rewrite (st_bind_ok _ _ _ a h).
    2: { unfold block_to_arena. fold a.
         rewrite (st_bind_ok _ _ _ tt h) by (apply ASSERT_true; by rewrite (arena_not_null a Hp)).
         rewrite (get_arena_ok _ _ _ _ Har), (st_bind_ok _ _ _ tt h) by (apply ASSERT_true, Z.eqb_eq, Hm).
         rewrite Hk. by rewrite (st_bind_ok _ _ _ tt h) by (apply ASSERT_true, Z.eqb_eq, Hofs). }
    rewrite (get_arena_ok _ _ _ _ Har), Hk, Hofs, Hn, Hfc. unfold KERN_BASE, PGSIZE, ARENA_SIZE in *.
    rewrite (u64_small (4096 * Z.of_nat c)) by lia. rewrite u64_small by lia. done.
Qed.

Lemma good_log h live m : good h live → good (Heap (descs h) (arenas h) (pages_of h) (m :: memory_ops h)) live.
Proof. intros [[pgs I] Hlk]. split; [exists pgs; by apply inv_ops|done]. Qed.

(** [realloc] leaves the old block alone when there is no memory. *)
Lemma realloc_ok h live j p n size :
  good h live → live !! j = Some (p, n) → 0 ≤ size < 2 ^ 64 - 2 * PGSIZE →
  ∃ q h', realloc p size h = Ok (q, h') ∧
    if decide (size = 0) then q = NULL ∧ good h' (delete j live) else alloc_result size (if q =? NULL then live else delete j live) q h'.
Proof.
  intros Hg Hj Hs. unfold realloc. case_decide as H0.
  { subst size. simpl. destruct (free_ok h live j p n Hg Hj) as (h' & Hf & Hg'). exists NULL, h'.
    by rewrite (st_bind_ok _ _ _ _ _ Hf). }
  destruct (Z.eqb_spec size 0); [done|]. destruct (malloc_ok h live size Hg Hs) as (q & h1 & Hm & Hr).
  rewrite (st_bind_ok _ _ _ _ _ Hm).
  destruct (block_size_ok h live p n Hg ltac:(by eapply list_elem_of_lookup_2)) as [_ Hpn].
  destruct Hr as [[-> Hg1]|(Hq & m & Hsm & Hg1)].
  { exists NULL, h1. simpl. rewrite andb_false_r. rewrite (st_bind_ok _ _ _ tt h1) by done. split; [done|]. by left. }
  destruct (block_size_ok h1 _ p n Hg1) as [Hbs _]; [right; by eapply list_elem_of_lookup_2|].
  set (k := Memcpy q p (if size <? n then size else n)).
  destruct (free_ok _ _ (S j) p n (good_log h1 _ k Hg1) Hj) as (h2 & Hf & Hg2).
  exists q, h2. rewrite (proj2 (Z.eqb_neq p NULL) Hpn), (proj2 (Z.eqb_neq q NULL) Hq). cbn [negb andb]. split.
  - rewrite st_bind_assoc, (st_bind_ok _ _ _ _ _ Hbs). fold k. rewrite st_bind_assoc, (st_bind_ok _ _ _ tt _ (eq_refl : log k h1 = _)).
    by rewrite (st_bind_ok _ _ _ _ _ Hf).
  - right. split; [done|]. by exists m.
Qed.

Lemma calloc_ok h live a b :
  good h live → 0 ≤ a → 0 ≤ b → a * b < 2 ^ 64 - 2 * PGSIZE →
  ∃ p h', calloc a b h = Ok (p, h') ∧ alloc_result (a * b) live p h'.
Proof.
  intros Hg Ha Hb Hab. unfold calloc. assert (0 ≤ a * b) by nia. rewrite u64_small by (unfold PGSIZE in *; lia).
  destruct (_ || _). { exists NULL, h. split; [done|]. by left. }
  destruct (malloc_ok h live (a * b) Hg ltac:(lia)) as (p & h1 & Hm & Hr). rewrite (st_bind_ok _ _ _ _ _ Hm).
  destruct Hr as [[-> Hg1]|(Hp & m & Hsm & Hg1)].
  - exists NULL, h1. simpl. split; [done|]. by left.
  - exists p. eexists. rewrite (proj2 (Z.eqb_neq p NULL) Hp). cbn [negb].
    rewrite (st_bind_ok _ _ _ tt _ (eq_refl : log (Memset p 0 (a * b)) h1 = _)). split; [reflexivity|].
    right. split; [done|]. exists m. split; [done|]. by apply good_log.
Qed.

(** ** Blocks in use do not overlap *)

(** The pages a block lies in. *)
Lemma live_span h pgs live p n :
  inv h pgs live → (p, n) ∈ live →
  ∃ c, (pg_round_down p, c) ∈ pgs ∧ pg_round_down p ≤ p ∧ p + n ≤ pg_round_down p + PGSIZE * Z.of_nat c.
Proof.
  intros I Hin. destruct (iv_live _ _ _ I p n Hin) as [(k & d & Hd & Hs & Hnf & ->)|Hbig].
  - destruct (small_at _ _ _ _ _ _ I Hd Hs) as (ar & i & Ha & Hk & Hi & Hpe). set (a := pg_round_down p) in *.
    destruct (iv_arena _ _ _ I a ar Ha) as (Hp & Hm & Hpg). rewrite Hk in Hpg. destruct Hpg as [Hpg _].
    destruct (iv_desc _ _ _ I k d Hd) as (Hok & _). pose proof (block_bounds d i Hok Hi). exists 1%nat.
    unfold block_at in Hpe. unfold ARENA_SIZE, PGSIZE in *. split; [done|]. lia.
  - destruct (big_round _ _ _ _ _ I Hbig) as (ar & Har & Hk & Hpe & Hnn & Hofs & ->). set (a := pg_round_down p) in *.
    destruct (iv_arena _ _ _ I a ar Har) as (Hp & Hm & Hpg). rewrite Hk in Hpg. destruct Hpg as (c & Hc & -> & Hcin).
    exists c. unfold ARENA_SIZE, PGSIZE in *. split; [done|]. lia.
Qed.

Definition bytes_disjoint (b1 b2 : Z * Z) : Prop := b1.1 + b1.2 ≤ b2.1 ∨ b2.1 + b2.2 ≤ b1.1.

Lemma live_apart h pgs live p n q m :
  inv h pgs live → (p, n) ∈ live → (q, m) ∈ live → p ≠ q → bytes_disjoint (p, n) (q, m).
Proof.
  intros I Hp Hq Hpq. destruct (decide (pg_round_down p = pg_round_down q)) as [He|Hne].
  2: { destruct (live_span _ _ _ _ _ I Hp) as (c1 & Hi1 & Hl1 & Hh1), (live_span _ _ _ _ _ I Hq) as (c2 & Hi2 & Hl2 & Hh2).
       pose proof (pgs_disjoint _ _ _ _ _ _ (iv_pages _ _ _ I) Hi1 Hi2 ltac:(congruence)) as Hd.
       unfold disjoint in Hd. unfold bytes_disjoint. simpl in *. lia. }
  destruct (iv_live _ _ _ I p n Hp) as [(k1 & d1 & Hd1 & Hs1 & _ & ->)|Hb1],
    (iv_live _ _ _ I q m Hq) as [(k2 & d2 & Hd2 & Hs2 & _ & ->)|Hb2].
  - destruct (small_at _ _ _ _ _ _ I Hd1 Hs1) as (ar1 & i1 & Ha1 & Hk1 & Hi1 & Hpe1).
    destruct (small_at _ _ _ _ _ _ I Hd2 Hs2) as (ar2 & i2 & Ha2 & Hk2 & Hi2 & Hpe2). rewrite <- He in Ha2, Hpe2.
    assert (k1 = k2) as <- by congruence. assert (d1 = d2) as <- by congruence.
    destruct (iv_desc _ _ _ I _ _ Hd1) as ([Hsz _ _] & _). unfold block_at in *. set (a := pg_round_down p) in *.
    assert (i1 ≠ i2) by (intros ->; congruence). unfold bytes_disjoint. simpl. rewrite Hpe1, Hpe2. nia.
  - destruct (small_round _ _ _ _ _ _ I Hd1 Hs1) as (? & ? & ? & _), (big_round _ _ _ _ _ I Hb2) as (? & ? & ? & _). congruence.
  - destruct (small_round _ _ _ _ _ _ I Hd2 Hs2) as (? & ? & ? & _), (big_round _ _ _ _ _ I Hb1) as (? & ? & ? & _). congruence.
  - destruct (big_round _ _ _ _ _ I Hb1) as (_ & _ & _ & H1 & _), (big_round _ _ _ _ _ I Hb2) as (_ & _ & _ & H2 & _).
    exfalso. apply Hpq. rewrite H1, H2. by rewrite He.
Qed.

(** ** Clients *)

(** A client keeps the blocks it was given with the sizes it asked for. *)
Inductive heap_op :=
  | Alloc (size : Z)
  | Zalloc (a b : Z)
  | Resize (k : nat) (size : Z)
  | Release (k : nat).

Definition keep (p size : Z) (asked : list (Z * Z)) : list (Z * Z) :=
  if p =? NULL then asked else (p, size) :: asked.

Definition heap_step (op : heap_op) (asked : list (Z * Z)) : st heap (list (Z * Z)) :=
  match op with
  | Alloc size => p ← malloc size; mret (keep p size asked)
  | Zalloc a b => p ← calloc a b; mret (keep p (a * b) asked)
  | Resize k size =>
    match asked !! k with
    | Some r =>
      q ← realloc r.1 size;
      mret (if size =? 0 then delete k asked else if q =? NULL then asked else (q, size) :: delete k asked)
    | None => mret asked
    end
  | Release k =>
    match asked !! k with
    | Some r => free r.1;; mret (delete k asked)
    | None => mret asked
    end
  end.

Fixpoint heap_client (ops : list heap_op) (asked : list (Z * Z)) : st heap (list (Z * Z)) :=
  match ops with [] => mret asked | op :: ops => asked ← heap_step op asked; heap_client ops asked end.

(** Sizes that [size + sizeof *a] does not wrap. *)
Definition heap_op_ok (op : heap_op) : Prop :=
  match op with
  | Alloc size | Resize _ size => 0 ≤ size < 2 ^ 64 - 2 * PGSIZE
  | Zalloc a b => 0 ≤ a ∧ 0 ≤ b ∧ a * b < 2 ^ 64 - 2 * PGSIZE
  | Release _ => True
  end.

(** The blocks are at least as large as what was asked for. *)
Definition covers (live asked : list (Z * Z)) : Prop := Forall2 (λ b r : Z * Z, b.1 = r.1 ∧ r.2 ≤ b.2) live asked.

Definition client_inv (h : heap) (asked : list (Z * Z)) : Prop := ∃ live, good h live ∧ covers live asked.

Lemma covers_lookup live asked k r : covers live asked → asked !! k = Some r → ∃ n, live !! k = Some (r.1, n) ∧ r.2 ≤ n.
Proof. intros Hc Hk. destruct (Forall2_lookup_r _ _ _ _ _ Hc Hk) as ([p n] & Hl & Hp & Hn). simpl in *. subst. by exists n. Qed.

Lemma keep_ok h size live asked p :
  covers live asked → alloc_result size live p h → client_inv h (keep p size asked).
Proof.
  intros Hc [[-> Hg]|(Hp & n & Hn & Hg)]; unfold keep; [by exists live|].
  rewrite (proj2 (Z.eqb_neq p NULL) Hp). exists ((p, n) :: live). split; [done|]. by constructor.
Qed.

Lemma heap_step_ok h op asked :
  client_inv h asked → heap_op_ok op → ∃ asked' h', heap_step op asked h = Ok (asked', h') ∧ client_inv h' asked'.
Proof.
  intros (live & Hg & Hc) Hop. destruct op as [size|a b|k size|k]; simpl in *.
  - destruct (malloc_ok h live size Hg Hop) as (p & h' & Hm & Hr). rewrite (st_bind_ok _ _ _ _ _ Hm).
    eexists _, h'. split; [done|]. by eapply keep_ok.
  - destruct Hop as (Ha & Hb & Hab). destruct (calloc_ok h live a b Hg Ha Hb Hab) as (p & h' & Hm & Hr).
    rewrite (st_bind_ok _ _ _ _ _ Hm). eexists _, h'. split; [done|]. by eapply keep_ok.
  - destruct (asked !! k) as [r|] eqn:Ek; [|by exists asked, h; split; [|exists live]].
    destruct (covers_lookup _ _ _ _ Hc Ek) as (n & Hl & _).
    destruct (realloc_ok h live k r.1 n size Hg Hl Hop) as (q & h' & Hr & Hcase). rewrite (st_bind_ok _ _ _ _ _ Hr).
    eexists _, h'. split; [done|]. destruct (Z.eqb_spec size 0) as [H0|H0].
    + rewrite decide_True in Hcase by done. destruct Hcase as [_ Hg']. exists (delete k live). split; [done|]. by apply Forall2_delete.
    + rewrite decide_False in Hcase by done.
      assert (Hk := keep_ok h' size (if q =? NULL then live else delete k live) (if q =? NULL then asked else delete k asked) q).
      unfold keep in Hk. destruct (Z.eqb_spec q NULL); apply Hk; try done. by apply Forall2_delete.
  - destruct (asked !! k) as [r|] eqn:Ek; [|by exists asked, h; split; [|exists live]].
    destruct (covers_lookup _ _ _ _ Hc Ek) as (n & Hl & _). destruct (free_ok h live k r.1 n Hg Hl) as (h' & Hf & Hg').
    rewrite (st_bind_ok _ _ _ _ _ Hf). eexists _, h'. split; [done|]. exists (delete k live). split; [done|]. by apply Forall2_delete.
Qed.

Lemma heap_client_ok ops : ∀ h asked,
  client_inv h asked → Forall heap_op_ok ops →
  ∃ asked' h', heap_client ops asked h = Ok (asked', h') ∧ client_inv h' asked'.
Proof.
  induction ops as [|op ops IH]; intros h asked Hc Hops; simpl; [by exists asked, h|].
  apply Forall_cons in Hops as [Hop Hops]. destruct (heap_step_ok h op asked Hc Hop) as (a1 & h1 & H1 & Hc1).
  rewrite (st_bind_ok _ _ _ _ _ H1). by apply IH.
Qed.

(** Blocks of different clients' requests share no byte. *)
Definition blocks_apart (l : list (Z * Z)) : Prop :=
  ∀ i j r1 r2, i ≠ j → l !! i = Some r1 → l !! j = Some r2 → bytes_disjoint r1 r2.

Lemma client_apart h asked : client_inv h asked → blocks_apart asked.
Proof.
  intros (live & [[pgs I] _] & Hc) i j [p n] [q m] Hij Hi Hj.
  destruct (covers_lookup _ _ _ _ Hc Hi) as (n' & Hi' & Hn), (covers_lookup _ _ _ _ Hc Hj) as (m' & Hj' & Hm). simpl in *.
  assert (p ≠ q).
  { intros ->. apply Hij. apply (NoDup_lookup live.*1 i j q); [apply I| |]; by rewrite list_lookup_fmap, ?Hi', ?Hj'. }
  pose proof (live_apart _ _ _ p n' q m' I) as Hd. unfold bytes_disjoint in *. simpl in *.
  destruct Hd; [by eapply list_elem_of_lookup_2..|done| |]; lia.
Qed.

(** ** Initialization *)

Lemma init_descs_ok l k d :
  init_loop 12 16 [] = Ok l → l !! k = Some d → desc_ok d ∧ free_list d = [] ∧ d_lock d = false.
Proof.
  vm_compute. intros [= <-] Hk. do 7 (destruct k as [|k]; [injection Hk as <-; split_and!; try done; by split; vm_compute|]). done.
Qed.

Lemma malloc_init_good h h' :
  malloc_init h = Ok h' → arenas h = ∅ → pools_ok (pages_of h) → good h' [].
Proof.
  unfold malloc_init. destruct (init_loop 12 16 []) as [l|] eqn:El; [|done]. intros [= <-] Ha Hp. split.
  - exists []. split; simpl.
    + split; [|constructor]. split; [done|]. split; [constructor|]. by intros ???? _ Hx.
    + intros a ar Har. rewrite Ha in Har. by apply lookup_empty_Some in Har.
    + intros k d Hk. destruct (init_descs_ok _ _ _ El Hk) as (Hok & Hf & _). rewrite Hf.
      split; [done|]. split; [constructor|]. by intros b Hb%not_elem_of_nil.
    + by intros p n Hx%not_elem_of_nil.
    + constructor.
  - intros k d Hk. simpl in Hk. destruct (init_descs_ok _ _ _ El Hk) as (_ & _ & ->). done.
Qed.

(** C23: once [malloc_init] has run on a good page allocator, whatever a client
    does with [malloc], [calloc], [realloc] and [free] (sizes below 2 to the 64
    less two pages), no ASSERT fails, no lock is left held, and the blocks it
    holds, each taken with the size that was asked for, share no byte. *)
Theorem malloc_blocks_apart h h0 ops :
  arenas h = ∅ → pools_ok (pages_of h) → malloc_init h = Ok h0 → Forall heap_op_ok ops →
  ∃ asked h', heap_client ops [] h0 = Ok (asked, h') ∧ blocks_apart asked ∧
              (∀ p, p ∈ asked.*1 → p ≠ NULL) ∧ ∀ k d, descs h' !! k = Some d → d_lock d = false.
Proof.
  intros Ha Hp Hi Hops. pose proof (malloc_init_good h h0 Hi Ha Hp) as Hg.
  destruct (heap_client_ok ops h0 []) as (asked & h' & Hr & Hc); [by exists []; split; [|constructor]|done|].
  exists asked, h'. split; [done|]. split; [by eapply client_apart|]. destruct Hc as (live & Hgl & Hc). split.
  - intros p (r & -> & Hin)%list_elem_of_fmap. apply list_elem_of_lookup in Hin as [k Hk].
    destruct (covers_lookup _ _ _ _ Hc Hk) as (n & Hl & _). apply (block_size_ok h' live r.1 n Hgl). by eapply list_elem_of_lookup_2.
  - intros k d Hk. destruct Hgl as [_ Hlk]. rewrite (Hlk k d Hk). done.
Qed.

Definition demo_heap : heap := Heap [] ∅ demo [].
Definition demo_init : heap := match malloc_init demo_heap with Ok h => h | Err _ => demo_heap end.

Lemma malloc_blocks_apart_witness :
  ∃ asked h', heap_client [Alloc 100; Alloc 5000; Zalloc 3 8; Resize 1 2000; Release 1] [] demo_init = Ok (asked, h') ∧
    blocks_apart asked ∧ (∀ p, p ∈ asked.*1 → p ≠ NULL) ∧ ∀ k d, descs h' !! k = Some d → d_lock d = false.
Proof.
  apply (malloc_blocks_apart demo_heap); [reflexivity|apply demo_ok|reflexivity|].
  repeat constructor; vm_compute; congruence.
Defined.

(** [malloc] adds the size of an arena header to the size without a check:
    a request of 2 to the 64 less 1 bytes is given one page. *)
Theorem malloc_size_wraps :
  ∃ p h', malloc (2 ^ 64 - 1) demo_init = Ok (p, h') ∧ p ≠ NULL ∧ block_size p h' = Ok (PGSIZE - ARENA_SIZE, h').
Proof.
  destruct (malloc (2 ^ 64 - 1) demo_init) as [[p h']|] eqn:E; [|by vm_compute in E].
  exists p, h'. split; [done|]. vm_compute in E. injection E as <- <-. split; [done|]. by vm_compute.
Qed.

End MallocTheorems.
