(* ===== verification/Mmu.v ===== *)
(** threads/mmu.c: four-level page tables.

    Memory maps the kernel virtual address of each 64-bit word to its value.
    Pages come from a page allocator given by its interface ([PageAlloc]); the
    statics are [base_pml4], the processor's CR3 and the pages whose
    translation has been invalidated, last one first. *)
From S2P Require Import Prelude Vaddr.
Import Vaddr.
Local Open Scope Z_scope.

Module Mmu.

Section mmu.
Context {A : Type} `{PageAlloc A}.

Record mmu := Mmu {
  alloc : A;
  words : gmap Z Z;
  base_pml4 : Z;
  cr3 : Z;
  flushed : list Z }.

Definition set_words (f : gmap Z Z → gmap Z Z) (s : mmu) : mmu :=
  Mmu (alloc s) (f (words s)) (base_pml4 s) (cr3 s) (flushed s).
Definition set_alloc (a : A) (s : mmu) : mmu :=
  Mmu a (words s) (base_pml4 s) (cr3 s) (flushed s).

Definition get_word (a : Z) : st mmu Z := λ s,
  match words s !! a with Some w => Ok (w, s) | None => Err BadAddr end.
Definition set_word (a v : Z) : st mmu unit := λ s,
  match words s !! a with Some _ => Ok (tt, set_words <[a := v]> s) | None => Err BadAddr end.

Definition lift {B} (r : res B) : st mmu B := λ s,
  match r with Ok b => Ok (b, s) | Err e => Err e end.

(** The addresses of the words of a page. *)
Definition page_words (p : Z) : list Z := (λ i, p + 8 * Z.of_nat i) <$> seq 0 512.

(** [memset (p, 0, PGSIZE)] *)
Definition zero_page (p : Z) (m : gmap Z Z) : gmap Z Z :=
  foldr (λ a m, <[a := 0]> m) m (page_words p).

(** [palloc_get_page (PAL_ASSERT | PAL_ZERO)] *)
Definition palloc_get_page_zero : st mmu Z := λ s,
  match get_page (alloc s) with
  | (None, _) => Err PanicCall
  | (Some p, a) => Ok (p, set_words (zero_page p) (set_alloc a s))
  end.

Definition palloc_free_page (p : Z) : st mmu unit := λ s,
  match free_page p (alloc s) with Ok a => Ok (tt, set_alloc a s) | Err e => Err e end.

Definition present (e : Z) : bool := negb (Z.land e PTE_P =? 0).

(** [vtop (new_page) | PTE_U | PTE_W | PTE_P] *)
Definition table_entry (pa : Z) : Z := Z.lor (Z.lor (Z.lor pa PTE_U) PTE_W) PTE_P.

(** ** Walking the tables; a null pointer is [NULL] *)

Definition pgdir_walk (pdp va : Z) (create : bool) : st mmu Z :=
  let idx := PDX va in
  if pdp =? NULL then mret NULL else
  pte ← get_word (pdp + 8 * idx);
  if negb (present pte) then
    if create then
      new_page ← palloc_get_page_zero;
      (if negb (new_page =? NULL) then
         pa ← lift (vtop new_page); set_word (pdp + 8 * idx) (table_entry pa)
       else mret tt);;
      e ← get_word (pdp + 8 * idx); mret (ptov (PTE_ADDR e + 8 * PTX va))
    else mret NULL
  else
    e ← get_word (pdp + 8 * idx); mret (ptov (PTE_ADDR e + 8 * PTX va)).

(** [pdpe_walk] and [pml4e_walk] differ in the index and the next level. *)
Definition table_walk (next : Z → Z → bool → st mmu Z) (idx : Z) (table va : Z) (create : bool)
    : st mmu Z :=
  if table =? NULL then mret NULL else
  e ← get_word (table + 8 * idx);
  if negb (present e) && negb create then mret NULL else
  allocated ←
    (if negb (present e) then
       new_page ← palloc_get_page_zero;
       if negb (new_page =? NULL) then
         pa ← lift (vtop new_page); set_word (table + 8 * idx) (table_entry pa);; mret true
       else mret false
     else mret false);
  e ← get_word (table + 8 * idx);
  pte ← next (ptov (PTE_ADDR e)) va create;
  (if (pte =? NULL) && allocated then
     e ← get_word (table + 8 * idx); palloc_free_page (PTE_ADDR e);;
     set_word (table + 8 * idx) 0
   else mret tt);;
  mret pte.

Definition pdpe_walk (pdpe va : Z) (create : bool) : st mmu Z :=
  table_walk pgdir_walk (PDPE va) pdpe va create.

Definition pml4e_walk (pml4e va : Z) (create : bool) : st mmu Z :=
  table_walk pdpe_walk (PML4 va) pml4e va create.

(** ** Mappings *)

(** [palloc_get_page (0)], then the copy of [base_pml4]. *)
Definition pml4_create : st mmu Z := λ s,
  match get_page (alloc s) with
  | (None, a) => Ok (NULL, set_alloc a s)
  | (Some p, a) =>
    let copy m := foldr (λ i m, match words s !! (base_pml4 s + 8 * Z.of_nat i) with
                                | Some w => <[p + 8 * Z.of_nat i := w]> m | None => m end) m (seq 0 512) in
    Ok (p, set_words copy (set_alloc a s))
  end.

Definition pml4_activate (pml4 : Z) : st mmu unit := λ s,
  match vtop (if pml4 =? NULL then base_pml4 s else pml4) with
  | Ok pa => Ok (tt, Mmu (alloc s) (words s) (base_pml4 s) pa (flushed s))
  | Err e => Err e
  end.

Definition pml4_get_page (pml4 uaddr : Z) : st mmu Z :=
  ASSERT (is_user_vaddr uaddr);;
  pte ← pml4e_walk pml4 uaddr false;
  if pte =? NULL then mret NULL else
  e ← get_word pte;
  mret (if present e then u64 (ptov (PTE_ADDR e) + pg_ofs uaddr) else NULL).

(** [vtop (kpage) | PTE_P | (rw ? PTE_W : 0) | PTE_U] *)
Definition page_entry (pa : Z) (rw : bool) : Z :=
  Z.lor (Z.lor (Z.lor pa PTE_P) (if rw then PTE_W else 0)) PTE_U.

Definition pml4_set_page (pml4 upage kpage : Z) (rw : bool) : st mmu bool :=
  ASSERT (pg_ofs upage =? 0);;
  ASSERT (pg_ofs kpage =? 0);;
  ASSERT (is_user_vaddr upage);;
  base ← st_gets base_pml4;
  ASSERT (negb (pml4 =? base));;
  pte ← pml4e_walk pml4 upage true;
  (if negb (pte =? NULL) then pa ← lift (vtop kpage); set_word pte (page_entry pa rw) else mret tt);;
  mret (negb (pte =? NULL)).

(** [if (rcr3 () == vtop (pml4)) invlpg (vpage)] *)
Definition flush (pml4 vpage : Z) : st mmu unit := λ s,
  match vtop pml4 with
  | Err e => Err e
  | Ok pa => Ok (tt, if cr3 s =? pa
                     then Mmu (alloc s) (words s) (base_pml4 s) (cr3 s) (vpage :: flushed s) else s)
  end.

Definition pml4_clear_page (pml4 upage : Z) : st mmu unit :=
  ASSERT (pg_ofs upage =? 0);;
  ASSERT (is_user_vaddr upage);;
  pte ← pml4e_walk pml4 upage false;
  if pte =? NULL then mret tt else
  e ← get_word pte;
  if present e then
    set_word pte (Z.land e (u64 (Z.lnot PTE_P)));; flush pml4 upage
  else mret tt.

(** The bit tests and updates of the dirty and accessed bits. *)
Definition is_bit (bit pml4 vpage : Z) : st mmu bool :=
  pte ← pml4e_walk pml4 vpage false;
  if pte =? NULL then mret false else
  e ← get_word pte; mret (negb (Z.land e bit =? 0)).

(** The complement is taken in 32 bits and widened with zeros. *)
Definition set_bit (bit pml4 vpage : Z) (v : bool) : st mmu unit :=
  pte ← pml4e_walk pml4 vpage false;
  if pte =? NULL then mret tt else
  e ← get_word pte;
  set_word pte (if v then Z.lor e bit else Z.land e (u32 (Z.lnot bit)));;
  flush pml4 vpage.

Definition pml4_is_dirty : Z → Z → st mmu bool := is_bit PTE_D.
Definition pml4_set_dirty : Z → Z → bool → st mmu unit := set_bit PTE_D.
Definition pml4_is_accessed : Z → Z → st mmu bool := is_bit PTE_A.
Definition pml4_set_accessed : Z → Z → bool → st mmu unit := set_bit PTE_A.

(** ** Traversals *)

(** The loop over the 512 entries of a table: the body is run on [ptov] of
    every present entry. *)
Fixpoint for_entries (k : nat) (i : Z) (table : Z) (body : Z → st mmu unit) : st mmu unit :=
  match k with
  | O => mret tt
  | S k =>
    e ← get_word (table + 8 * i);
    (if negb (Z.land (ptov e) PTE_P =? 0) then body (ptov e) else mret tt);;
    for_entries k (i + 1) table body
  end.

Definition pgdir_for_each (pdp : Z) (func : Z → st mmu unit) : st mmu unit :=
  for_entries 512 0 pdp func.
Definition pdpe_for_each (pdpe : Z) (func : Z → st mmu unit) : st mmu unit :=
  for_entries 512 0 pdpe (λ pde, pgdir_for_each (PTE_ADDR pde) func).
Definition pml4_for_each (pml4 : Z) (func : Z → st mmu unit) : st mmu unit :=
  for_entries 512 0 pml4 (λ pdpe, pdpe_for_each (PTE_ADDR pdpe) func).

Definition pgdir_destroy (pdp : Z) : st mmu unit :=
  for_entries 512 0 pdp (λ pte, palloc_free_page (PTE_ADDR pte));;
  palloc_free_page (PTE_ADDR pdp).

Definition pdpe_destroy (pdpe : Z) : st mmu unit :=
  for_entries 512 0 pdpe (λ pde, pgdir_destroy (PTE_ADDR pde));;
  palloc_free_page (PTE_ADDR pdpe).

Definition pml4_destroy (pml4 : Z) : st mmu unit :=
  if pml4 =? NULL then mret tt else
  base ← st_gets base_pml4;
  ASSERT (negb (pml4 =? base));;
  e ← get_word pml4;
  (if negb (Z.land (ptov e) PTE_P =? 0) then pdpe_destroy (PTE_ADDR (ptov e)) else mret tt);;
  palloc_free_page pml4.

(** ** threads/init.c, paging_init

    [for (pa = 0; pa < mem_end; pa += PGSIZE)]: [k] pages from [pa] on;
    [start] and [end_text] are the linker's symbols. *)
Fixpoint paging_loop (k : nat) (pml4 pa start end_text : Z) : st mmu unit :=
  match k with
  | O => mret tt
  | S k =>
    let va := ptov pa in
    let perm := Z.lor PTE_P PTE_W in
    let perm := if (start <=? va) && (va <? end_text) then Z.land perm (Z.lnot PTE_W) else perm in
    pte ← pml4e_walk pml4 va true;
    (if negb (pte =? NULL) then set_word pte (Z.lor pa perm) else mret tt);;
    paging_loop k pml4 (pa + PGSIZE) start end_text
  end.

Definition paging_init (mem_end start end_text : Z) : st mmu unit :=
  pml4 ← palloc_get_page_zero;
  st_modify (λ s, Mmu (alloc s) (words s) pml4 (cr3 s) (flushed s));;
  paging_loop (Z.to_nat ((mem_end + PGSIZE - 1) / PGSIZE)) pml4 0 start end_text;;
  pml4_activate NULL.

End mmu.
Arguments mmu A : clear implicits.
End Mmu.
