(* ===== verification/MmuTheorems.v ===== *)
(** threads/mmu.c: the page tables of a process form a tree of distinct pages;
    walking them finds or creates exactly the wanted table, and a mapping that
    is set is the one that is read back. *)
From S2P Require Import Prelude Vaddr Palloc PallocTheorems Mmu.
Import Vaddr Palloc PallocTheorems Mmu.
Local Open Scope Z_scope.

Module MmuTheorems.

(** ** Entries *)

Lemma lor_low pa f : pa mod PGSIZE = 0 → 0 ≤ f < PGSIZE → Z.lor pa f = pa + f.
Proof.
  intros Hp Hf. assert (Hl : Z.land pa f = 0).
  { apply Z.bits_inj'. intros n Hn. rewrite Z.land_spec, Z.bits_0. unfold PGSIZE in *.
    destruct (decide (n < 12)).
    - assert (Z.testbit pa n = false) as ->; [|done]. change 4096 with (2 ^ 12) in Hp.
      rewrite <- (Z.mod_pow2_bits_low pa 12 n), Hp by done. apply Z.bits_0.
    - assert (Z.testbit f n = false) as ->; [|apply andb_false_r].
      destruct (decide (f = 0)) as [->|]; [apply Z.bits_0|]. apply Z.bits_above_log2; [lia|].
      apply Z.lt_le_trans with 12; [|lia]. apply Z.log2_lt_pow2; lia. }
  rewrite <- Z.lxor_lor by done. symmetry. by apply Z.add_nocarry_lxor.
Qed.

(** An entry: a page-aligned physical address and flags that include [PTE_P]. *)
Lemma entry_decode pa f :
  pa mod PGSIZE = 0 → 0 ≤ pa < 2 ^ 64 - PGSIZE → 0 ≤ f < PGSIZE → f mod 2 = 1 →
  present (pa + f) = true ∧ PTE_ADDR (pa + f) = pa ∧ 0 ≤ pa + f < 2 ^ 64.
Proof.
  intros Hp Hr Hf Ho. unfold PGSIZE in *. assert (Hm : (pa + f) mod 4096 = f).
  { rewrite Z.add_mod, Hp, Z.add_0_l, Z.mod_mod, Z.mod_small by lia. done. }
  split_and!; try lia.
  - unfold present, PTE_P. change 1 with (Z.ones 1). rewrite Z.land_ones by lia. change (2 ^ 1) with 2.
    assert ((pa + f) mod 2 = 1) as ->; [|done].
    rewrite <- (Z.mod_mod_divide (pa + f) 4096 2), Hm by (exists 2048; lia). done.
  - rewrite PTE_ADDR_eq by lia. unfold PGSIZE. lia.
Qed.

Lemma table_entry_eq pa : pa mod PGSIZE = 0 → table_entry pa = pa + 7.
Proof.
  intros Hp. unfold table_entry, PTE_U, PTE_W, PTE_P. rewrite <- !Z.lor_assoc.
  apply lor_low; [done|]. unfold PGSIZE. by split.
Qed.

Lemma page_entry_eq pa rw : pa mod PGSIZE = 0 → page_entry pa rw = pa + (if rw then 7 else 5).
Proof.
  intros Hp. unfold page_entry, PTE_U, PTE_W, PTE_P. rewrite <- !Z.lor_assoc.
  destruct rw; (apply lor_low; [done|]; unfold PGSIZE; by split).
Qed.

Lemma vtop_aligned q : q mod PGSIZE = 0 → (q - KERN_BASE) mod PGSIZE = 0.
Proof. intros H. rewrite Zminus_mod, H. reflexivity. Qed.

(** ** Pages and tables *)

(** [p] is a page of 512 words. *)
Definition is_page (m : gmap Z Z) (p : Z) : Prop :=
  KERN_BASE ≤ p < 2 ^ 64 - PGSIZE ∧ p mod PGSIZE = 0 ∧
  ∀ i, 0 ≤ i < 512 → ∃ e, m !! (p + 8 * i) = Some e ∧ 0 ≤ e < 2 ^ 64.

(** Different pages share no word. *)
Lemma pages_disjoint p q i j :
  p mod PGSIZE = 0 → q mod PGSIZE = 0 → 0 ≤ i < 512 → 0 ≤ j < 512 →
  p + 8 * i = q + 8 * j → p = q ∧ i = j.
Proof.
  unfold PGSIZE. intros Hp Hq Hi Hj He.
  pose proof (Z.div_mod p 4096). pose proof (Z.div_mod q 4096). lia.
Qed.

Definition child (m : gmap Z Z) (p i : Z) : option Z :=
  match m !! (p + 8 * i) with
  | Some e => if present e then Some (ptov (PTE_ADDR e)) else None
  | None => None
  end.

(** The table reached from [p] by a path of indices. *)
Fixpoint descend (m : gmap Z Z) (p : Z) (path : list Z) : option Z :=
  match path with
  | [] => Some p
  | i :: path => match child m p i with Some q => descend m q path | None => None end
  end.

Definition indices (path : list Z) : Prop := Forall (λ i, 0 ≤ i < 512) path.

Lemma descend_app m p path1 path2 :
  descend m p (path1 ++ path2) = match descend m p path1 with Some q => descend m q path2 | None => None end.
Proof.
  revert p. induction path1 as [|i path1 IH]; intros p; simpl; [done|]. destruct (child m p i); [apply IH|done].
Qed.

Lemma zero_fold (x : Z) (l : list Z) (m : gmap Z Z) :
  foldr (λ a m, <[a := 0]> m) m l !! x = if decide (x ∈ l) then Some 0 else m !! x.
Proof.
  induction l as [|a l IH]; simpl; [done|]. destruct (decide (x = a)) as [->|Hne].
  - rewrite lookup_insert_eq, decide_True by left. done.
  - rewrite lookup_insert_ne, IH by done. apply decide_ext. rewrite elem_of_cons. naive_solver.
Qed.

Lemma zero_page_in q m i : 0 ≤ i < 512 → zero_page q m !! (q + 8 * i) = Some 0.
Proof.
  intros Hi. unfold zero_page. rewrite zero_fold, decide_True; [done|]. unfold page_words.
  apply list_elem_of_fmap. exists (Z.to_nat i). rewrite Z2Nat.id by lia. split; [done|]. apply elem_of_seq. lia.
Qed.

Lemma zero_page_out q m x : (∀ i, 0 ≤ i < 512 → x ≠ q + 8 * i) → zero_page q m !! x = m !! x.
Proof.
  intros H. unfold zero_page. rewrite zero_fold, decide_False; [done|]. unfold page_words.
  intros (n & -> & Hn)%list_elem_of_fmap. apply elem_of_seq in Hn. apply (H (Z.of_nat n)); [lia|done].
Qed.

Section tables.
Context {A : Type} `{PageAllocLaws A}.
Implicit Types s : mmu A.

(** The tables under [root], to depth three, are distinct pages that the
    allocator has handed out. *)
Record pt_ok (s : mmu A) (root : Z) : Prop := {
  pt_valid : valid (alloc s);
  pt_page path p :
    (length path ≤ 3)%nat → indices path → descend (words s) root path = Some p →
    is_page (words s) p ∧ held (alloc s) p;
  pt_inj path1 path2 p :
    (length path1 ≤ 3)%nat → (length path2 ≤ 3)%nat → indices path1 → indices path2 →
    descend (words s) root path1 = Some p → descend (words s) root path2 = Some p → path1 = path2 }.

(** The state after [palloc_get_page_zero] returned [q] and the entry [i] of
    table [p] was set to it. *)
Definition linked (s : mmu A) (a' : A) (p i q : Z) : mmu A :=
  set_words <[p + 8 * i := table_entry (q - KERN_BASE)]> (set_words (zero_page q) (set_alloc a' s)).

Section link.
Context (s : mmu A) (root : Z) (path : list Z) (p i q : Z) (a' : A).
Hypothesis I : pt_ok s root.
Hypothesis Hlen : (length path ≤ 2)%nat.
Hypothesis Hpath : indices path.
Hypothesis Hp : descend (words s) root path = Some p.
Hypothesis Hi : 0 ≤ i < 512.
Hypothesis Hnone : child (words s) p i = None.
Hypothesis Hget : get_page (alloc s) = (Some q, a').

Let s' := linked s a' p i q.

Lemma fresh : valid a' ∧ KERN_BASE ≤ q < 2 ^ 64 - PGSIZE ∧ q mod PGSIZE = 0 ∧
  ¬ held (alloc s) q ∧ held a' q ∧ (∀ r, r ≠ q → held a' r ↔ held (alloc s) r) ∧
  avail (alloc s) = S (avail a').
Proof using H0 I Hget. eapply get_some; [apply (pt_valid _ _ I)|done]. Qed.

(** Words of a page handed out before change only at the new entry. *)
Lemma linked_old r j :
  r mod PGSIZE = 0 → held (alloc s) r → 0 ≤ j < 512 → (r ≠ p ∨ j ≠ i) →
  words s' !! (r + 8 * j) = words s !! (r + 8 * j).
Proof using All.
  intros Hr Hh Hj Hne. destruct fresh as (_ & _ & Hq & Hnh & _).
  destruct (pt_page _ _ I path p) as [(_ & Hpa & _) _]; [lia|done..|].
  unfold s', linked, set_words. cbn [words]. rewrite lookup_insert_ne.
  - apply zero_page_out. intros k Hk He. by apply pages_disjoint in He as [-> _].
  - intros He. apply pages_disjoint in He as [-> ->]; try done. destruct Hne; done.
Qed.

Lemma linked_new j : 0 ≤ j < 512 → words s' !! (q + 8 * j) = Some 0.
Proof using All.
  intros Hj. destruct fresh as (_ & _ & Hq & Hnh & _).
  destruct (pt_page _ _ I path p) as [(_ & Hpa & _) Hph]; [lia|done..|].
  unfold s', linked, set_words. cbn [words]. rewrite lookup_insert_ne; [by apply zero_page_in|].
  intros He. by apply pages_disjoint in He as [-> _].
Qed.

Lemma linked_entry : child (words s') p i = Some q.
Proof using All.
  destruct fresh as (_ & Hqr & Hq & _). unfold child, s', linked, set_words. cbn [words].
  rewrite lookup_insert_eq. rewrite table_entry_eq by (by apply vtop_aligned).
  destruct (entry_decode (q - KERN_BASE) 7) as (-> & -> & _).
  - by apply vtop_aligned.
  - unfold KERN_BASE, PGSIZE in *. lia.
  - unfold PGSIZE. lia.
  - done.
  - f_equal. apply ptov_vtop. unfold PGSIZE in *. lia.
Qed.

Lemma linked_child r j :
  r mod PGSIZE = 0 → held (alloc s) r → 0 ≤ j < 512 → (r ≠ p ∨ j ≠ i) →
  child (words s') r j = child (words s) r j.
Proof using All. intros. unfold child. by rewrite linked_old. Qed.

Lemma path_none : descend (words s) root (path ++ [i]) = None.
Proof using Hp Hnone. rewrite descend_app, Hp. simpl. by rewrite Hnone. Qed.

(** The new table is reached by the new path; all others stay where they are. *)
Lemma linked_descend_from rest : ∀ pre r,
  (length pre + length rest ≤ 3)%nat → indices pre → indices rest → descend (words s) root pre = Some r →
  descend (words s') r rest = if decide (pre ++ rest = path ++ [i]) then Some q else descend (words s) r rest.
Proof using All.
  induction rest as [|j rest IH]; intros pre r Hl Hpre Hrest Hr.
  { rewrite app_nil_r, decide_False; [done|]. intros ->. by rewrite path_none in Hr. }
  apply Forall_cons in Hrest as [Hj Hrest]. cbn [length] in Hl.
  destruct (pt_page _ _ I pre r) as [(Hrr & Hra & _) Hrh]; [lia|done..|]. cbn [descend].
  destruct (decide (r = p ∧ j = i)) as [[-> ->]|Hne].
  - assert (pre = path) as -> by (eapply (pt_inj _ _ I); [..|exact Hr|exact Hp]; done || lia).
    rewrite linked_entry, Hnone. destruct rest as [|k rest].
    + by rewrite decide_True.
    + cbn [descend]. unfold child at 1. apply Forall_cons in Hrest as [Hk _]. rewrite linked_new by done.
      rewrite decide_False; [done|]. intros He. apply app_inv_head in He. done.
  - rewrite linked_child by (done || destruct (decide (r = p)); naive_solver).
    destruct (child (words s) r j) as [r'|] eqn:Ec.
    + assert (Hd : descend (words s) root (pre ++ [j]) = Some r').
      { rewrite descend_app, Hr. simpl. by rewrite Ec. }
      rewrite (IH (pre ++ [j]) r'); [by rewrite <- app_assoc|rewrite length_app; simpl; lia| |done|done].
      apply Forall_app. split; [done|by apply Forall_singleton].
    + rewrite decide_False; [done|]. intros He.
      assert (Hpre' : pre `prefix_of` path ∨ pre = path ++ [i]).
      { destruct rest as [|k rest].
        - apply app_inj_2 in He as [-> _]; [|done]. by left.
        - left. assert (Hle : (length pre ≤ length path)%nat).
          { apply (f_equal length) in He. rewrite !length_app in He. simpl in He. lia. }
          exists (drop (length pre) path).
          rewrite <- (take_drop (length pre) path) at 1. f_equal.
          apply (f_equal (take (length pre))) in He. rewrite take_app_length in He.
          by rewrite take_app_le in He by done. }
      destruct Hpre' as [[suf ->]| ->]; [|by rewrite path_none in Hr].
      rewrite <- app_assoc in He. apply app_inv_head in He. destruct suf as [|k suf]; simpl in He.
      * injection He as -> _. rewrite app_nil_r in Hp. rewrite Hp in Hr. apply Hne. split; congruence.
      * injection He as -> _. rewrite descend_app, Hr in Hp. simpl in Hp. by rewrite Ec in Hp.
Qed.

Lemma linked_descend path' :
  (length path' ≤ 3)%nat → indices path' →
  descend (words s') root path' = if decide (path' = path ++ [i]) then Some q else descend (words s) root path'.
Proof using All. intros Hl Hix. apply (linked_descend_from path' [] root); [simpl; lia|constructor|done|done]. Qed.

Lemma linked_page r : is_page (words s) r → held (alloc s) r → is_page (words s') r.
Proof using All.
  intros (Hr & Ha & Hw) Hh. split; [done|]. split; [done|]. intros j Hj.
  destruct (decide (r = p ∧ j = i)) as [[-> ->]|Hne].
  - destruct fresh as (_ & Hqr & Hq & _).
    exists (q - KERN_BASE + 7). unfold s', linked, set_words. cbn [words]. rewrite lookup_insert_eq.
    rewrite table_entry_eq by (by apply vtop_aligned). unfold KERN_BASE, PGSIZE in *. split; [done|lia].
  - rewrite linked_old by (done || destruct (decide (r = p)); naive_solver). by apply Hw.
Qed.

Lemma linked_ok : pt_ok s' root.
Proof using All.
  destruct fresh as (Hv & Hqr & Hqa & Hqn & Hqh & Hother & _). split; [done|..].
  - intros path' r Hl Hix. rewrite linked_descend by done. case_decide.
    + intros [= <-]. split; [|done]. split; [done|]. split; [done|]. intros j Hj.
      exists 0. rewrite linked_new by done. split; [done|lia].
    + intros Hr. destruct (pt_page _ _ I _ _ Hl Hix Hr) as [Hr1 Hr2]. split; [by apply linked_page|].
      apply Hother; [|done]. by intros ->.
  - assert (Hnq : ∀ path', (length path' ≤ 3)%nat → indices path' → descend (words s) root path' ≠ Some q).
    { intros path' Hl Hix Hd. by destruct (pt_page _ _ I _ _ Hl Hix Hd) as [_ ?]. }
    intros path1 path2 r Hl1 Hl2 Hx1 Hx2. rewrite !linked_descend by done.
    repeat case_decide; try congruence.
    + intros [= <-] Hd. by apply Hnq in Hd.
    + intros Hd [= <-]. by apply Hnq in Hd.
    + apply (pt_inj _ _ I); done.
Qed.
End link.

(** ** Translations *)

Definition vpath (va : Z) : list Z := [PML4 va; PDPE va; PDX va].

Lemma vpath_indices va : indices (vpath va).
Proof. repeat constructor; apply index_range. Qed.

(** The entry of a virtual page, zero when there is no table for it. *)
Definition pte_of (m : gmap Z Z) (root va : Z) : Z :=
  match descend m root (vpath va) with Some t => default 0 (m !! (t + 8 * PTX va)) | None => 0 end.

(** [s'] has the tables of [s] and perhaps more, and the same entries. *)
Record grows (root : Z) (s s' : mmu A) : Prop := {
  grows_ok : pt_ok s' root;
  grows_keep path p : (length path ≤ 3)%nat → indices path →
    descend (words s) root path = Some p → descend (words s') root path = Some p;
  grows_pte va : pte_of (words s') root va = pte_of (words s) root va;
  grows_regs : base_pml4 s' = base_pml4 s ∧ cr3 s' = cr3 s ∧ flushed s' = flushed s }.

Lemma mmu_grows_refl root s : pt_ok s root → grows root s s.
Proof. by split. Qed.

Lemma mmu_grows_trans root s1 s2 s3 : grows root s1 s2 → grows root s2 s3 → grows root s1 s3.
Proof.
  intros [A1 A2 A3 A4] [B1 B2 B3 B4]. split; [done|auto|by intros; rewrite B3|].
  destruct A4 as (? & ? & ?), B4 as (? & ? & ?). split_and!; congruence.
Qed.

Lemma linked_grows s root path p i q a' :
  pt_ok s root → (length path ≤ 2)%nat → indices path → descend (words s) root path = Some p →
  0 ≤ i < 512 → child (words s) p i = None → get_page (alloc s) = (Some q, a') →
  grows root s (linked s a' p i q) ∧ descend (words (linked s a' p i q)) root (path ++ [i]) = Some q.
Proof using H0.
  intros I Hl Hix Hp Hi Hn Hg.
  assert (Hd := linked_descend s root path p i q a' I Hl Hix Hp Hi Hn Hg).
  assert (Hnone := path_none s root path p i Hp Hn).
  assert (Hix' : indices (path ++ [i])) by (apply Forall_app; split; [done|by apply Forall_singleton]).
  split; [|rewrite Hd by (rewrite ?length_app; simpl; done || lia); by rewrite decide_True].
  split; [by eapply linked_ok| | |done].
  - intros path' r Hl' Hx' Hr. rewrite Hd by done. case_decide; [|done]. subst. by rewrite Hnone in Hr.
  - intros va. unfold pte_of. rewrite Hd by (done || apply vpath_indices).
    pose proof (index_range (Z.shiftr va 12)) as Hx. fold (PTX va) in Hx. case_decide as He.
    + rewrite He, Hnone. by rewrite (linked_new s root path p i q a' I Hl Hix Hp Hi Hn Hg).
    + destruct (descend (words s) root (vpath va)) as [t|] eqn:Et; [|done].
      destruct (pt_page _ _ I (vpath va) t) as [(_ & Hta & _) Hth]; [done|apply vpath_indices|done|].
      rewrite (linked_old s root path p i q a' I Hl Hix Hp Hi Hn Hg); try done. left. intros ->.
      assert (vpath va = path) as <- by (eapply (pt_inj _ _ I); [..|exact Et|exact Hp]; done || (simpl; lia) || apply vpath_indices).
      simpl in Hl. lia.
Qed.

(** ** Walking *)

Lemma get_word_ok {B} (k : Z → st (mmu A) B) s a w :
  words s !! a = Some w → (get_word a ≫= k) s = k w s.
Proof. intros Hw. apply st_bind_ok. unfold get_word. by rewrite Hw. Qed.

Lemma entry_ok s root path p i :
  pt_ok s root → (length path ≤ 3)%nat → indices path → descend (words s) root path = Some p → 0 ≤ i < 512 →
  ∃ e, words s !! (p + 8 * i) = Some e ∧ 0 ≤ e < 2 ^ 64 ∧
       child (words s) p i = if present e then Some (ptov (PTE_ADDR e)) else None.
Proof.
  intros I Hl Hix Hp Hi. destruct (pt_page _ _ I path p Hl Hix Hp) as [(_ & _ & Hw) _].
  destruct (Hw i Hi) as (e & He & Hr). exists e. split; [done|]. split; [done|]. unfold child. by rewrite He.
Qed.

Lemma table_pos s root path p :
  pt_ok s root → (length path ≤ 3)%nat → indices path → descend (words s) root path = Some p →
  KERN_BASE ≤ p < 2 ^ 64 - PGSIZE ∧ (p =? NULL) = false.
Proof.
  intros I Hl Hix Hp. destruct (pt_page _ _ I path p Hl Hix Hp) as [(Hr & _) _]. split; [done|].
  apply Z.eqb_neq. unfold KERN_BASE, NULL in *. lia.
Qed.

(** Allocating a table and entering it: out of memory, or the linked state. *)
Lemma alloc_entry {B} s root path p i (k1 k2 : st (mmu A) B) :
  pt_ok s root → (length path ≤ 2)%nat → indices path → descend (words s) root path = Some p → 0 ≤ i < 512 →
  child (words s) p i = None →
  let code := new_page ← palloc_get_page_zero;
              if negb (new_page =? NULL)
              then (pa ← lift (vtop new_page); set_word (p + 8 * i) (table_entry pa));; k1 else k2 in
  code s = Err PanicCall ∧ avail (alloc s) = O ∨
  ∃ q a', get_page (alloc s) = (Some q, a') ∧ code s = k1 (linked s a' p i q) ∧
          words (linked s a' p i q) !! (p + 8 * i) = Some (table_entry (q - KERN_BASE)).
Proof using H0.
  intros I Hl Hix Hp Hi Hn code. unfold code, palloc_get_page_zero, mbind, st_bind.
  destruct (get_page (alloc s)) as [[q|] a'] eqn:Hg;
    [|left; split; [done|by eapply get_none; [apply (pt_valid _ _ I)|]]]. right. exists q, a'. split; [done|].
  destruct (fresh s root q a' I Hg) as (_ & Hqr & Hqa & Hqn & _).
  assert (q =? NULL = false) as -> by (apply Z.eqb_neq; unfold KERN_BASE, NULL in *; lia). cbn [negb].
  unfold lift. rewrite vtop_ok by lia. unfold set_word.
  assert (He : ∃ e, words (set_words (zero_page q) (set_alloc a' s)) !! (p + 8 * i) = Some e).
  { destruct (entry_ok s root path p i) as (e & He & _); [done|lia|done..|]. exists e.
    unfold set_words. cbn [words]. rewrite zero_page_out; [done|]. intros j Hj Hpj.
    destruct (pt_page _ _ I path p) as [(_ & Hpa & _) Hph]; [lia|done..|].
    by apply pages_disjoint in Hpj as [-> _]. }
  destruct He as [e ->]. split; [done|]. unfold linked, set_words. cbn [words]. by rewrite lookup_insert_eq.
Qed.

(** What a function that walks the remaining indices [idxs] promises. *)
Definition walker (next : Z → Z → bool → st (mmu A) Z) (idxs : Z → list Z) : Prop :=
  ∀ s root path p va,
    pt_ok s root → (length path + length (idxs va) = 3)%nat → indices path → indices (idxs va) →
    descend (words s) root path = Some p →
    next p va false s
      = Ok (match descend (words s) p (idxs va) with Some t => t + 8 * PTX va | None => NULL end, s) ∧
    (next p va true s = Err PanicCall ∧ (avail (alloc s) < length (idxs va))%nat ∨
     ∃ s' t, next p va true s = Ok (t + 8 * PTX va, s') ∧ grows root s s' ∧
             descend (words s') root (path ++ idxs va) = Some t ∧
             (avail (alloc s) ≤ avail (alloc s') + length (idxs va))%nat).

Lemma ptov_exact x : 0 ≤ x < 2 ^ 64 → KERN_BASE ≤ ptov x → ptov x = x + KERN_BASE.
Proof.
  intros Hx Hp. unfold ptov, u64, KERN_BASE in *.
  destruct (decide (x + 0x8004000000 < 2 ^ 64)); [apply Z.mod_small; lia|].
  rewrite <- (Z.mod_unique (x + 0x8004000000) (2 ^ 64) 1 (x + 0x8004000000 - 2 ^ 64)) in Hp by lia. lia.
Qed.

Lemma leaf_address e va :
  0 ≤ e < 2 ^ 64 → KERN_BASE ≤ ptov (PTE_ADDR e) < 2 ^ 64 - PGSIZE →
  ptov (PTE_ADDR e + 8 * PTX va) = ptov (PTE_ADDR e) + 8 * PTX va.
Proof.
  intros He Hp. pose proof (index_range (Z.shiftr va 12)) as Hx. fold (PTX va) in Hx.
  rewrite PTE_ADDR_eq in * by done. pose proof (Z.mod_pos_bound e PGSIZE). pose proof (Z.mod_le e PGSIZE).
  rewrite (ptov_exact (e - e mod PGSIZE)) in * by (unfold PGSIZE in *; lia).
  unfold ptov, PGSIZE, KERN_BASE in *. rewrite u64_small; lia.
Qed.

Lemma linked_leaf q :
  KERN_BASE ≤ q < 2 ^ 64 - PGSIZE → q mod PGSIZE = 0 →
  0 ≤ table_entry (q - KERN_BASE) < 2 ^ 64 ∧ ptov (PTE_ADDR (table_entry (q - KERN_BASE))) = q.
Proof.
  intros Hq Ha. rewrite table_entry_eq by (by apply vtop_aligned).
  destruct (entry_decode (q - KERN_BASE) 7) as (_ & -> & Hr); [by apply vtop_aligned|..|done|].
  - unfold KERN_BASE, PGSIZE in *. lia.
  - unfold PGSIZE. lia.
  - split; [done|]. apply ptov_vtop. unfold PGSIZE in *. lia.
Qed.

Lemma pgdir_walker : walker pgdir_walk (λ va, [PDX va]).
Proof using H0.
  intros s root path p va I Hlen Hix Hidx Hp. cbn [length] in Hlen. assert (Hi : 0 ≤ PDX va < 512) by apply index_range.
  destruct (table_pos s root path p) as [Hpr Hp0]; [done|lia|done..|].
  destruct (entry_ok s root path p (PDX va)) as (e & He & Her & Hc); [done|lia|done..|].
  unfold pgdir_walk. rewrite Hp0, !(get_word_ok _ _ _ _ He). cbn [descend]. rewrite Hc.
  destruct (present e) eqn:Epr; cbn [negb].
  - assert (Hd : descend (words s) root (path ++ [PDX va]) = Some (ptov (PTE_ADDR e)))
      by (rewrite descend_app, Hp; simpl; by rewrite Hc).
    destruct (table_pos s root (path ++ [PDX va]) (ptov (PTE_ADDR e))) as [Hr _];
      [done|rewrite length_app; simpl; lia|by apply Forall_app|done|].
    rewrite !(get_word_ok _ _ _ _ He). rewrite leaf_address by done. split; [done|].
    right. exists s, (ptov (PTE_ADDR e)). split; [done|]. split; [by apply mmu_grows_refl|]. split; [done|lia].
  - split; [done|].
    destruct (alloc_entry s root path p (PDX va)
      (e ← get_word (p + 8 * PDX va); mret (ptov (PTE_ADDR e + 8 * PTX va)))
      (e ← get_word (p + 8 * PDX va); mret (ptov (PTE_ADDR e + 8 * PTX va)))) as [[Herr Hav]|(q & a' & Hg & Hop & Hw)];
      [done|lia|done|done|done|done| |].
    + left. split; [|rewrite Hav; simpl; lia]. rewrite <- Herr. unfold mbind, st_bind. destruct (palloc_get_page_zero s) as [[q s1]|]; [|done].
      by destruct (q =? NULL).
    + right. destruct (linked_grows s root path p (PDX va) q a') as [Hgr Hd]; [done|lia|done..|].
      destruct (fresh s root q a' I Hg) as (_ & Hqr & Hqa & _ & _ & _ & Hav).
      destruct (linked_leaf q Hqr Hqa) as [Her' Hpt].
      exists (linked s a' p (PDX va) q), q. split; [|split; [done|]; split; [done|cbn [alloc linked set_words set_alloc length]; lia]].
      transitivity (Ok (ptov (PTE_ADDR (table_entry (q - KERN_BASE)) + 8 * PTX va), linked s a' p (PDX va) q)).
      * rewrite (get_word_ok _ _ _ _ Hw) in Hop. unfold mret, st_ret in Hop. rewrite <- Hop.
        unfold mbind, st_bind. destruct (palloc_get_page_zero s) as [[q' s1]|]; [|done]. by destruct (q' =? NULL).
      * rewrite leaf_address by (rewrite ?Hpt; done). by rewrite Hpt.
Qed.

(** A found or created leaf entry is not null, so nothing is given back. *)
Lemma walk_end s s' root path t va table idx allocated (pre : st (mmu A) Z) :
  pt_ok s' root → (length path ≤ 3)%nat → indices path → descend (words s') root path = Some t →
  pre s = Ok (t + 8 * PTX va, s') →
  (pte ← pre;
   (if (pte =? NULL) && allocated then
      e ← get_word (table + 8 * idx); palloc_free_page (PTE_ADDR e);; set_word (table + 8 * idx) 0
    else mret tt);;
   mret pte) s = Ok (t + 8 * PTX va, s').
Proof.
  intros I Hl Hix Ht Hpre. rewrite (st_bind_ok _ _ _ _ _ Hpre).
  destruct (table_pos s' root path t I Hl Hix Ht) as [Hr _].
  pose proof (index_range (Z.shiftr va 12)) as Hx. fold (PTX va) in Hx.
  assert (t + 8 * PTX va =? NULL = false) as -> by (apply Z.eqb_neq; unfold KERN_BASE, NULL in *; lia). done.
Qed.

(** The end of [table_walk]: the next level, and giving back a new table when
    that fails. *)
Definition walk_tail (next : Z → Z → bool → st (mmu A) Z) (p idx r va : Z) (create allocated : bool)
    : st (mmu A) Z :=
  pte ← next r va create;
  (if (pte =? NULL) && allocated then
     e ← get_word (p + 8 * idx); palloc_free_page (PTE_ADDR e);; set_word (p + 8 * idx) 0
   else mret tt);;
  mret pte.

Lemma table_walk_present next s p idx va create e :
  (p =? NULL) = false → words s !! (p + 8 * idx) = Some e → present e = true →
  table_walk next idx p va create s = next (ptov (PTE_ADDR e)) va create s.
Proof.
  intros Hp He Hpr. unfold table_walk. rewrite Hp, (get_word_ok _ _ _ _ He), Hpr. cbn [negb andb].
  rewrite (st_bind_ok _ _ _ false s), (get_word_ok _ _ _ _ He) by done.
  unfold mbind, st_bind. destruct (next _ va create s) as [[pte s']|]; [|done]. by rewrite andb_false_r.
Qed.

Lemma table_walk_absent next s root path p idx va :
  pt_ok s root → (length path ≤ 2)%nat → indices path → descend (words s) root path = Some p → 0 ≤ idx < 512 →
  child (words s) p idx = None →
  table_walk next idx p va true s = Err PanicCall ∧ avail (alloc s) = O ∨
  ∃ q a', get_page (alloc s) = (Some q, a') ∧
    table_walk next idx p va true s = walk_tail next p idx q va true true (linked s a' p idx q).
Proof using H0.
  intros I Hl Hix Hp Hi Hc.
  destruct (table_pos s root path p) as [_ Hp0]; [done|lia|done..|].
  destruct (entry_ok s root path p idx) as (e & He & _ & Hce); [done|lia|done..|].
  assert (Hpr : present e = false) by (rewrite Hce in Hc; by destruct (present e)).
  set (rest := λ allocated, (e ← get_word (p + 8 * idx);
    walk_tail next p idx (ptov (PTE_ADDR e)) va true allocated) : st (mmu A) Z).
  assert (Hsame : table_walk next idx p va true s = (new_page ← palloc_get_page_zero;
    if negb (new_page =? NULL)
    then (pa ← lift (vtop new_page); set_word (p + 8 * idx) (table_entry pa));; rest true else rest false) s).
  { unfold table_walk. rewrite Hp0, (get_word_ok _ _ _ _ He), Hpr. cbn [negb andb]. unfold mbind, st_bind.
    destruct (palloc_get_page_zero s) as [[q' s2]|]; [|done]. destruct (q' =? NULL); [done|]. cbn [negb].
    destruct (lift (vtop q') s2) as [[pa s3]|]; [|done]. by destruct (set_word _ _ s3) as [[[] s4]|]. }
  destruct (alloc_entry s root path p idx (rest true) (rest false)) as [[Herr Hav]|(q & a' & Hg & Hop & Hw)];
    [done..|left; by rewrite Hsame|].
  right. exists q, a'. split; [done|]. rewrite Hsame, Hop. unfold rest. rewrite (get_word_ok _ _ _ _ Hw).
  destruct (fresh s root q a' I Hg) as (_ & Hqr & Hqa & _). by destruct (linked_leaf q Hqr Hqa) as [_ ->].
Qed.

Lemma table_walker next (f : Z → Z) idxs :
  (∀ va, 0 ≤ f va < 512) → walker next idxs →
  walker (λ p va, table_walk next (f va) p va) (λ va, f va :: idxs va).
Proof using H0.
  intros Hf Hnext s root path p va I Hlen Hix Hidx Hp. cbn [length] in Hlen.
  apply Forall_cons in Hidx as [Hi Hidx].
  destruct (table_pos s root path p) as [Hpr Hp0]; [done|lia|done..|].
  destruct (entry_ok s root path p (f va)) as (e & He & Her & Hc); [done|lia|done..|].
  assert (Hix' : indices (path ++ [f va])) by (by apply Forall_app; split; [|apply Forall_singleton]).
  assert (Hl' : (length (path ++ [f va]) + length (idxs va) = 3)%nat) by (rewrite length_app; simpl; lia).
  assert (Happ : path ++ f va :: idxs va = (path ++ [f va]) ++ idxs va) by (by rewrite <- app_assoc).
  rewrite Happ. cbn [descend]. rewrite Hc. destruct (present e) eqn:Epr.
  - rewrite !(table_walk_present next s p (f va) va _ e Hp0 He Epr).
    destruct (Hnext s root (path ++ [f va]) (ptov (PTE_ADDR e)) va) as [Hf0 Hf1]; try done.
    { rewrite descend_app, Hp. simpl. by rewrite Hc. }
    split; [done|]. destruct Hf1 as [[? ?]|(s' & t & ? & ? & ? & ?)]; [left; split; [done|simpl; lia]|right].
    exists s', t. split_and!; [done..|simpl; lia].
  - split.
    { unfold table_walk. by rewrite Hp0, (get_word_ok _ _ _ _ He), Epr. }
    destruct (table_walk_absent next s root path p (f va) va) as [[-> ->]|(q & a' & Hg & ->)];
      [done|lia|done..|left; simpl; split; [done|lia]|].
    destruct (fresh s root q a' I Hg) as (_ & _ & _ & _ & _ & _ & Hav).
    destruct (linked_grows s root path p (f va) q a') as [Hgr Hd]; [done|lia|done..|].
    destruct (Hnext (linked s a' p (f va) q) root (path ++ [f va]) q va (grows_ok _ _ _ Hgr))
      as [_ [[Herr Hlt]|(s' & t & Hop & Hgr' & Ht & Hle)]];
      [done..|left; split; [by apply st_bind_err|simpl in *; lia]|right].
    exists s', t. split; [|split_and!; [by eapply mmu_grows_trans|done|cbn [alloc linked set_words set_alloc length] in *; lia]].
    eapply walk_end; [apply (grows_ok _ _ _ Hgr')|..|exact Ht|done]; [rewrite length_app; lia|].
    by apply Forall_app.
Qed.

Lemma pdpe_walker : walker pdpe_walk (λ va, [PDPE va; PDX va]).
Proof using H0. apply (table_walker pgdir_walk PDPE); [intros; apply index_range|apply pgdir_walker]. Qed.

Lemma pml4e_walker : walker pml4e_walk vpath.
Proof using H0. apply (table_walker pdpe_walk PML4); [intros; apply index_range|apply pdpe_walker]. Qed.

(** ** Mappings *)

(** A virtual page below 2^48 is its four indices. *)
Lemma page_indices va :
  0 ≤ va < 2 ^ 48 →
  va / PGSIZE = PML4 va * 2 ^ 27 + PDPE va * 2 ^ 18 + PDX va * 2 ^ 9 + PTX va.
Proof.
  intros Hv. unfold PML4, PDPE, PDX, PTX, PGSIZE. change 0x1FF with (Z.ones 9). rewrite !Z.land_ones by lia.
  rewrite !Z.shiftr_div_pow2 by lia.
  replace (va / 2 ^ 39) with (va / 2 ^ 12 / 2 ^ 27) by (rewrite Z.div_div by lia; done).
  replace (va / 2 ^ 30) with (va / 2 ^ 12 / 2 ^ 18) by (rewrite Z.div_div by lia; done).
  replace (va / 2 ^ 21) with (va / 2 ^ 12 / 2 ^ 9) by (rewrite Z.div_div by lia; done).
  change 4096 with (2 ^ 12). assert (0 ≤ va / 2 ^ 12 < 2 ^ 36) by (split; [apply Z.div_pos|apply Z.div_lt_upper_bound]; lia).
  set (n := va / 2 ^ 12) in *. clearbody n.
  pose proof (Z.div_mod n (2 ^ 9)). pose proof (Z.div_mod (n / 2 ^ 9) (2 ^ 9)) as E2. rewrite Z.div_div in E2 by lia.
  pose proof (Z.div_mod (n / 2 ^ 18) (2 ^ 9)) as E3. rewrite Z.div_div in E3 by lia.
  change (2 ^ 9 * 2 ^ 9) with (2 ^ 18) in E2. change (2 ^ 18 * 2 ^ 9) with (2 ^ 27) in E3.
  assert (0 ≤ n / 2 ^ 27 < 2 ^ 9) by (split; [apply Z.div_pos|apply Z.div_lt_upper_bound]; lia).
  rewrite (Z.mod_small (n / 2 ^ 27)) by lia. lia.
Qed.

Lemma same_entry u v :
  0 ≤ u < 2 ^ 48 → 0 ≤ v < 2 ^ 48 → vpath u = vpath v → PTX u = PTX v → u / PGSIZE = v / PGSIZE.
Proof. intros Hu Hv [= H1 H2 H3] H4. rewrite !page_indices by done. congruence. Qed.

Lemma vpath_page u v : u / PGSIZE = v / PGSIZE → vpath u = vpath v ∧ PTX u = PTX v.
Proof.
  intros He. unfold vpath, PML4, PDPE, PDX, PTX. rewrite !Z.shiftr_div_pow2 by lia.
  replace (u / 2 ^ 39) with (u / 2 ^ 12 / 2 ^ 27) by (rewrite Z.div_div by lia; done).
  replace (v / 2 ^ 39) with (v / 2 ^ 12 / 2 ^ 27) by (rewrite Z.div_div by lia; done).
  replace (u / 2 ^ 30) with (u / 2 ^ 12 / 2 ^ 18) by (rewrite Z.div_div by lia; done).
  replace (v / 2 ^ 30) with (v / 2 ^ 12 / 2 ^ 18) by (rewrite Z.div_div by lia; done).
  replace (u / 2 ^ 21) with (u / 2 ^ 12 / 2 ^ 9) by (rewrite Z.div_div by lia; done).
  replace (v / 2 ^ 21) with (v / 2 ^ 12 / 2 ^ 9) by (rewrite Z.div_div by lia; done).
  change (2 ^ 12) with PGSIZE. by rewrite He.
Qed.

(** Changing the entry of one page: the tables stay, and so do the entries of
    all other pages. *)
Section set_entry.
Context (s : mmu A) (root va t w : Z).
Hypothesis I : pt_ok s root.
Hypothesis Ht : descend (words s) root (vpath va) = Some t.
Hypothesis Hw : 0 ≤ w < 2 ^ 64.

Let s' := set_words <[t + 8 * PTX va := w]> s.

Lemma entry_other path p j :
  (length path ≤ 3)%nat → indices path → descend (words s) root path = Some p →
  0 ≤ j < 512 → path ≠ vpath va ∨ j ≠ PTX va → words s' !! (p + 8 * j) = words s !! (p + 8 * j).
Proof using I Ht.
  intros Hl Hix Hp Hj Hne. destruct (pt_page _ _ I path p Hl Hix Hp) as [(_ & Hpa & _) _].
  destruct (pt_page _ _ I (vpath va) t) as [(_ & Hta & _) _]; [done|apply vpath_indices|done|].
  unfold s', set_words. cbn [words]. rewrite lookup_insert_ne; [done|]. intros He.
  apply pages_disjoint in He as [-> <-]; try done; [|apply index_range].
  destruct Hne as [Hne|]; [|done]. apply Hne.
  eapply (pt_inj _ _ I); [..|exact Hp|exact Ht]; done || apply vpath_indices.
Qed.

Lemma entry_descend_from rest : ∀ pre p,
  (length pre + length rest ≤ 3)%nat → indices pre → indices rest →
  descend (words s) root pre = Some p → descend (words s') p rest = descend (words s) p rest.
Proof using I Ht.
  induction rest as [|j rest IH]; intros pre p Hl Hpre Hrest Hp; [done|]. cbn [length] in Hl.
  apply Forall_cons in Hrest as [Hj Hrest]. cbn [descend].
  assert (Hc : child (words s') p j = child (words s) p j).
  { unfold child. rewrite (entry_other pre); try done; [lia|]. left. intros ->. simpl in Hl. lia. }
  rewrite Hc. destruct (child (words s) p j) as [q|] eqn:Ec; [|done]. apply (IH (pre ++ [j])); try done.
  - rewrite length_app. simpl. lia.
  - apply Forall_app. split; [done|by apply Forall_singleton].
  - rewrite descend_app, Hp. simpl. by rewrite Ec.
Qed.

Lemma entry_descend path :
  (length path ≤ 3)%nat → indices path → descend (words s') root path = descend (words s) root path.
Proof using I Ht.
  intros Hl Hix. apply (entry_descend_from path []); [simpl; lia|constructor|done|done].
Qed.

Lemma entry_pt_ok : pt_ok s' root.
Proof using I Ht Hw.
  split; [apply (pt_valid _ _ I)|..].
  - intros path p Hl Hix. rewrite entry_descend by done. intros Hp.
    destruct (pt_page _ _ I path p Hl Hix Hp) as [(Hr & Ha & Hwd) Hh]. split; [|done].
    split; [done|]. split; [done|]. intros j Hj. unfold s', set_words. cbn [words].
    destruct (decide (p + 8 * j = t + 8 * PTX va)) as [He|He].
    + rewrite He. exists w. by rewrite lookup_insert_eq.
    + rewrite lookup_insert_ne by done. by apply Hwd.
  - intros path1 path2 p Hl1 Hl2 Hx1 Hx2. rewrite !entry_descend by done. by apply (pt_inj _ _ I).
Qed.

Lemma entry_pte v :
  pte_of (words s') root v
  = if decide (vpath v = vpath va ∧ PTX v = PTX va) then w else pte_of (words s) root v.
Proof using I Ht.
  unfold pte_of. rewrite entry_descend by (done || apply vpath_indices). case_decide as He.
  - destruct He as [-> ->]. rewrite Ht. unfold s', set_words. cbn [words]. by rewrite lookup_insert_eq.
  - destruct (descend (words s) root (vpath v)) as [tv|] eqn:Etv; [|done].
    rewrite (entry_other (vpath v)); try done; [apply vpath_indices|apply index_range|].
    destruct (decide (vpath v = vpath va)); [right; intros ?; by apply He|by left].
Qed.
End set_entry.

(** Reading a mapping. *)
Definition mapping (s : mmu A) (root v : Z) : Z :=
  let e := pte_of (words s) root v in
  if present e then u64 (ptov (PTE_ADDR e) + pg_ofs v) else NULL.

Lemma leaf_word s root va t :
  pt_ok s root → descend (words s) root (vpath va) = Some t →
  words s !! (t + 8 * PTX va) = Some (pte_of (words s) root va) ∧
  (t + 8 * PTX va =? NULL) = false ∧ 0 ≤ pte_of (words s) root va < 2 ^ 64.
Proof.
  intros I Ht. pose proof (vpath_indices va) as Hix.
  destruct (entry_ok s root (vpath va) t (PTX va)) as (e & He & Hr & _); try done; [apply index_range|].
  destruct (table_pos s root (vpath va) t) as [Hp _]; try done.
  assert (Hpte : pte_of (words s) root va = e) by (unfold pte_of; by rewrite Ht, He). rewrite Hpte.
  split; [done|]. split; [|done]. pose proof (index_range (Z.shiftr va 12)) as Hx. fold (PTX va) in Hx.
  apply Z.eqb_neq. unfold KERN_BASE, NULL in *. lia.
Qed.

Lemma walk_read s root va :
  pt_ok s root →
  pml4e_walk root va false s
  = Ok (match descend (words s) root (vpath va) with Some t => t + 8 * PTX va | None => NULL end, s).
Proof using H0.
  intros I. by apply (pml4e_walker s root [] root va I eq_refl ltac:(constructor) (vpath_indices va) eq_refl).
Qed.

Lemma walk_create s root va :
  pt_ok s root →
  pml4e_walk root va true s = Err PanicCall ∧ (avail (alloc s) < 3)%nat ∨
  ∃ s' t, pml4e_walk root va true s = Ok (t + 8 * PTX va, s') ∧ grows root s s' ∧
          descend (words s') root (vpath va) = Some t ∧ (avail (alloc s) ≤ avail (alloc s') + 3)%nat.
Proof using H0.
  intros I. by apply (pml4e_walker s root [] root va I eq_refl ltac:(constructor) (vpath_indices va) eq_refl).
Qed.

Lemma get_page_ok s root v :
  pt_ok s root → is_user_vaddr v = true → pml4_get_page root v s = Ok (mapping s root v, s).
Proof using H0.
  intros I Hu. unfold pml4_get_page. rewrite (st_bind_ok _ _ _ tt s) by (by apply ASSERT_true).
  rewrite (st_bind_ok _ _ _ _ _ (walk_read s root v I)). unfold mapping.
  destruct (descend (words s) root (vpath v)) as [t|] eqn:Et.
  - destruct (leaf_word s root v t I Et) as (Hw & -> & _). by rewrite (get_word_ok _ _ _ _ Hw).
  - unfold pte_of. rewrite Et. done.
Qed.

Lemma mapping_set s s' root upage e :
  0 ≤ upage < KERN_BASE →
  (∀ v, pte_of (words s') root v
        = if decide (vpath v = vpath upage ∧ PTX v = PTX upage) then e else pte_of (words s) root v) →
  ∀ v, 0 ≤ v < KERN_BASE →
  mapping s' root v = if decide (v / PGSIZE = upage / PGSIZE)
                      then (if present e then u64 (ptov (PTE_ADDR e) + pg_ofs v) else NULL)
                      else mapping s root v.
Proof.
  intros Hu He v Hv. unfold mapping. rewrite He. unfold KERN_BASE in *.
  destruct (decide (v / PGSIZE = upage / PGSIZE)) as [Hd|Hd].
  - rewrite decide_True; [done|]. by apply vpath_page.
  - rewrite decide_False; [done|]. intros [Hp Hx]. apply Hd. apply same_entry; done || lia.
Qed.

Lemma set_word_ok (s : mmu A) a e w : words s !! a = Some e → set_word a w s = Ok (tt, set_words <[a := w]> s).
Proof. intros He. unfold set_word. by rewrite He. Qed.

(** [pml4_set_page] with three pages to spare. *)
Lemma set_page_ok s root upage kpage rw :
  pt_ok s root → base_pml4 s ≠ root → (3 ≤ avail (alloc s))%nat →
  0 ≤ upage < KERN_BASE → upage mod PGSIZE = 0 →
  KERN_BASE ≤ kpage < 2 ^ 64 - PGSIZE → kpage mod PGSIZE = 0 →
  ∃ s', pml4_set_page root upage kpage rw s = Ok (true, s') ∧ pt_ok s' root ∧ base_pml4 s' = base_pml4 s ∧
    (avail (alloc s) ≤ avail (alloc s') + 3)%nat ∧
    ∀ v, 0 ≤ v < KERN_BASE →
      mapping s' root v = if decide (v / PGSIZE = upage / PGSIZE) then kpage + v mod PGSIZE else mapping s root v.
Proof using H0.
  intros I Hb Hav Hu Hua Hk Hka. unfold pml4_set_page.
  rewrite (st_bind_ok _ _ _ tt s) by (apply ASSERT_true; rewrite pg_ofs_mod; by apply Z.eqb_eq).
  rewrite (st_bind_ok _ _ _ tt s) by (apply ASSERT_true; rewrite pg_ofs_mod; by apply Z.eqb_eq).
  rewrite (st_bind_ok _ _ _ tt s) by (apply ASSERT_true; unfold is_user_vaddr, is_kernel_vaddr; apply negb_true_iff, Z.leb_gt; lia).
  rewrite (st_bind_ok _ _ _ (base_pml4 s) s) by done.
  rewrite (st_bind_ok _ _ _ tt s) by (apply ASSERT_true; apply negb_true_iff, Z.eqb_neq; congruence).
  destruct (walk_create s root upage I) as [[_ ?]|(s1 & t & Hw & Hg & Ht & Hle)]; [lia|].
  rewrite (st_bind_ok _ _ _ _ _ Hw). pose proof (grows_ok _ _ _ Hg) as I1.
  destruct (leaf_word s1 root upage t I1 Ht) as (Hword & Hnz & _). rewrite Hnz. cbn [negb].
  assert (Hpe := page_entry_eq (kpage - KERN_BASE) rw (vtop_aligned _ Hka)).
  destruct (entry_decode (kpage - KERN_BASE) (if rw then 7 else 5)) as (Hpr & Had & Hr);
    [by apply vtop_aligned|unfold KERN_BASE, PGSIZE in *; lia|by destruct rw|by destruct rw|].
  exists (set_words <[t + 8 * PTX upage := page_entry (kpage - KERN_BASE) rw]> s1).
  rewrite <- Hpe in Hpr, Had, Hr. split_and!.
  - unfold mbind, st_bind, lift. rewrite vtop_ok by lia. by rewrite (set_word_ok _ _ _ _ Hword).
  - by apply entry_pt_ok.
  - apply (grows_regs _ _ _ Hg).
  - done.
  - intros v Hv. rewrite (mapping_set s _ root upage (page_entry (kpage - KERN_BASE) rw)); [|done| |done].
    + case_decide; [|done]. rewrite Hpr, Had, ptov_vtop, pg_ofs_mod by (unfold PGSIZE in *; lia).
      apply u64_small. unfold PGSIZE, KERN_BASE in *. pose proof (Z.mod_pos_bound v 4096). lia.
    + intros v'. rewrite entry_pte by done. by rewrite (grows_pte _ _ _ Hg).
Qed.

Lemma land_range e m : 0 ≤ e < 2 ^ 64 → 0 ≤ Z.land e m < 2 ^ 64.
Proof.
  intros He. replace (Z.land e m) with (Z.land e m mod 2 ^ 64); [by apply Z.mod_pos_bound|].
  rewrite <- Z.land_ones, <- Z.land_assoc, (Z.land_comm m), Z.land_assoc by lia.
  by rewrite (Z.land_ones e), Z.mod_small by lia.
Qed.

Lemma not_present_cleared e : present (Z.land e (u64 (Z.lnot PTE_P))) = false.
Proof.
  unfold present. rewrite <- Z.land_assoc. change (Z.land (u64 (Z.lnot PTE_P)) PTE_P) with 0.
  by rewrite Z.land_0_r.
Qed.

Lemma flush_ok s root vpage :
  pt_ok s root → ∃ s', flush root vpage s = Ok (tt, s') ∧ alloc s' = alloc s ∧ words s' = words s ∧
    base_pml4 s' = base_pml4 s ∧
    flushed s' = if cr3 s =? root - KERN_BASE then vpage :: flushed s else flushed s.
Proof.
  intros I. destruct (table_pos s root [] root I) as [Hr _]; [simpl; lia|constructor|done|].
  unfold flush. rewrite vtop_ok by lia. eexists. split; [done|]. by destruct (cr3 s =? _).
Qed.

Lemma pt_ok_ext s s' root : alloc s' = alloc s → words s' = words s → pt_ok s root → pt_ok s' root.
Proof. intros Ha Hw [I1 I2 I3]. split; rewrite ?Ha, ?Hw; done. Qed.

Lemma clear_page_ok s root upage :
  pt_ok s root → 0 ≤ upage < KERN_BASE → upage mod PGSIZE = 0 →
  ∃ s', pml4_clear_page root upage s = Ok (tt, s') ∧ pt_ok s' root ∧ base_pml4 s' = base_pml4 s ∧
    alloc s' = alloc s ∧
    (∀ v, 0 ≤ v < KERN_BASE →
      mapping s' root v = if decide (v / PGSIZE = upage / PGSIZE) then NULL else mapping s root v).
Proof using H0.
  intros I Hu Hua. unfold pml4_clear_page.
  rewrite (st_bind_ok _ _ _ tt s) by (apply ASSERT_true; rewrite pg_ofs_mod; by apply Z.eqb_eq).
  rewrite (st_bind_ok _ _ _ tt s) by (apply ASSERT_true; unfold is_user_vaddr, is_kernel_vaddr; apply negb_true_iff, Z.leb_gt; lia).
  rewrite (st_bind_ok _ _ _ _ _ (walk_read s root upage I)).
  assert (Hsame : present (pte_of (words s) root upage) = false → ∀ v, 0 ≤ v < KERN_BASE →
    mapping s root v = if decide (v / PGSIZE = upage / PGSIZE) then NULL else mapping s root v).
  { intros Hn v Hv. case_decide as Hd; [|done]. apply vpath_page in Hd as [Hp Hx].
    unfold mapping, pte_of. rewrite Hp, Hx. fold (pte_of (words s) root upage). by rewrite Hn. }
  destruct (descend (words s) root (vpath upage)) as [t|] eqn:Et.
  - destruct (leaf_word s root upage t I Et) as (Hw & -> & Hr). rewrite (get_word_ok _ _ _ _ Hw).
    destruct (present (pte_of (words s) root upage)) eqn:Hpr.
    + set (w := Z.land (pte_of (words s) root upage) (u64 (Z.lnot PTE_P))).
      assert (Hwr : 0 ≤ w < 2 ^ 64) by (by apply land_range).
      rewrite (st_bind_ok _ _ _ _ _ (set_word_ok _ _ _ _ Hw)).
      set (s1 := set_words <[t + 8 * PTX upage := w]> s).
      assert (I1 : pt_ok s1 root) by (by apply entry_pt_ok).
      destruct (flush_ok s1 root upage I1) as (s' & Hf & Ha & Hws & Hb & _).
      exists s'. split_and!; [done|by apply (pt_ok_ext s1)|by rewrite Hb|by rewrite Ha|].
      intros v Hv. rewrite (mapping_set s _ root upage w); [|done| |done].
      * by rewrite (not_present_cleared _ : present w = false).
      * intros v'. rewrite Hws. by apply entry_pte.
    + exists s. split_and!; try done. auto.
  - exists s. split_and!; try done. apply Hsame. unfold pte_of. by rewrite Et.
Qed.

(** ** Address spaces as finite maps *)

Inductive map_op :=
  | SetPage (upage kpage : Z) (rw : bool)
  | ClearPage (upage : Z).

Definition op_ok (op : map_op) : Prop :=
  match op with
  | SetPage upage kpage _ =>
    0 ≤ upage < KERN_BASE ∧ upage mod PGSIZE = 0 ∧ KERN_BASE ≤ kpage < 2 ^ 64 - PGSIZE ∧ kpage mod PGSIZE = 0
  | ClearPage upage => 0 ≤ upage < KERN_BASE ∧ upage mod PGSIZE = 0
  end.

Definition run_op (root : Z) (op : map_op) : st (mmu A) unit :=
  match op with
  | SetPage upage kpage rw => ok ← pml4_set_page root upage kpage rw; ASSERT ok
  | ClearPage upage => pml4_clear_page root upage
  end.

Fixpoint run_ops (root : Z) (ops : list map_op) : st (mmu A) unit :=
  match ops with [] => mret tt | op :: ops => run_op root op;; run_ops root ops end.

(** The specification: user page number to kernel page. *)
Definition spec_op (op : map_op) (m : gmap Z Z) : gmap Z Z :=
  match op with
  | SetPage upage kpage _ => <[upage / PGSIZE := kpage]> m
  | ClearPage upage => delete (upage / PGSIZE) m
  end.

Definition translate (m : gmap Z Z) (v : Z) : Z :=
  match m !! (v / PGSIZE) with Some kpage => kpage + v mod PGSIZE | None => NULL end.

Definition space (s : mmu A) (root : Z) (m : gmap Z Z) : Prop :=
  pt_ok s root ∧ base_pml4 s ≠ root ∧ ∀ v, 0 ≤ v < KERN_BASE → mapping s root v = translate m v.

Lemma run_op_ok s root m op :
  space s root m → op_ok op → (3 ≤ avail (alloc s))%nat →
  ∃ s', run_op root op s = Ok (tt, s') ∧ space s' root (spec_op op m) ∧
        (avail (alloc s) ≤ avail (alloc s') + 3)%nat.
Proof using H0.
  intros (I & Hb & Hm) Hop Hav. destruct op as [upage kpage rw|upage]; simpl in Hop.
  - destruct Hop as (? & ? & ? & ?).
    destruct (set_page_ok s root upage kpage rw) as (s' & Hs & I' & Hb' & Hle & Hm'); try done.
    exists s'. split; [by unfold run_op; rewrite (st_bind_ok _ _ _ _ _ Hs)|]. split; [|done].
    split; [done|]. split; [by rewrite Hb'|].
    intros v Hv. rewrite Hm' by done. unfold translate, spec_op. case_decide as Hd.
    + by rewrite Hd, lookup_insert_eq.
    + rewrite lookup_insert_ne by done. by apply Hm.
  - destruct Hop as (? & ?).
    destruct (clear_page_ok s root upage) as (s' & Hs & I' & Hb' & Ha & Hm'); try done.
    exists s'. split; [done|]. split; [|rewrite Ha; lia]. split; [done|]. split; [by rewrite Hb'|].
    intros v Hv. rewrite Hm' by done. unfold translate, spec_op. case_decide as Hd.
    + by rewrite Hd, lookup_delete_eq.
    + rewrite lookup_delete_ne by done. by apply Hm.
Qed.

Lemma run_ops_space s root m ops :
  space s root m → Forall op_ok ops → (3 * length ops ≤ avail (alloc s))%nat →
  ∃ s', run_ops root ops s = Ok (tt, s') ∧ space s' root (foldl (λ m op, spec_op op m) m ops).
Proof using H0.
  revert s m. induction ops as [|op ops IH]; intros s m Hs Hops Hav; simpl; [by exists s|].
  apply Forall_cons in Hops as [Hop Hops]. simpl in Hav.
  destruct (run_op_ok s root m op) as (s1 & H1 & Hs1 & Hle); [done|done|lia|].
  destruct (IH s1 (spec_op op m)) as (s2 & H2 & Hs2); [done|done|lia|].
  exists s2. split; [|done]. by rewrite (st_bind_ok _ _ _ _ _ H1).
Qed.

(** ** New address spaces *)

Lemma copy_lookup (m0 m : gmap Z Z) (b q x : Z) (l : list nat) :
  (∀ i, i ∈ l → is_Some (m0 !! (b + 8 * Z.of_nat i))) →
  foldr (λ i m, match m0 !! (b + 8 * Z.of_nat i) with
                | Some w => <[q + 8 * Z.of_nat i := w]> m | None => m end) m l !! x
  = if decide (x ∈ (λ i, q + 8 * Z.of_nat i) <$> l) then m0 !! (b + (x - q)) else m !! x.
Proof.
  induction l as [|i l IH]; intros Hs; simpl; [done|].
  assert (Hi : is_Some (m0 !! (b + 8 * Z.of_nat i))) by (apply Hs; left). destruct Hi as [w Hw]. rewrite Hw.
  destruct (decide (x = q + 8 * Z.of_nat i)) as [->|Hne].
  - rewrite lookup_insert_eq, decide_True by left. rewrite <- Hw. f_equal. lia.
  - rewrite lookup_insert_ne, IH by (done || (intros; apply Hs; by right)). apply decide_ext.
    rewrite elem_of_cons. naive_solver.
Qed.

Section create.
Context (s : mmu A) (q : Z) (a' : A).
Let root := base_pml4 s.
Hypothesis I : pt_ok s root.
Hypothesis Hget : get_page (alloc s) = (Some q, a').

Definition created : mmu A :=
  set_words (λ m, foldr (λ i m, match words s !! (base_pml4 s + 8 * Z.of_nat i) with
                                | Some w => <[q + 8 * Z.of_nat i := w]> m | None => m end) m (seq 0 512))
            (set_alloc a' s).

Lemma create_run : pml4_create s = Ok (q, created).
Proof using Hget. unfold pml4_create. by rewrite Hget. Qed.

Lemma created_words x :
  words created !! x = if decide (x ∈ page_words q) then words s !! (root + (x - q)) else words s !! x.
Proof using I.
  unfold created, set_words. cbn [words]. apply copy_lookup. intros i Hi%elem_of_seq.
  destruct (pt_page _ _ I [] root) as [(_ & _ & Hw) _]; [simpl; lia|constructor|done|].
  destruct (Hw (Z.of_nat i) ltac:(lia)) as (e & He & _). by exists e.
Qed.

Lemma created_root i : 0 ≤ i < 512 → words created !! (q + 8 * i) = words s !! (root + 8 * i).
Proof using I.
  intros Hi. rewrite created_words, decide_True; [f_equal; lia|]. unfold page_words.
  apply list_elem_of_fmap. exists (Z.to_nat i). rewrite Z2Nat.id by lia. split; [done|]. apply elem_of_seq. lia.
Qed.

Lemma created_old r j : r mod PGSIZE = 0 → held (alloc s) r → 0 ≤ j < 512 →
  words created !! (r + 8 * j) = words s !! (r + 8 * j).
Proof using H0 I Hget.
  intros Hr Hh Hj. rewrite created_words, decide_False; [done|]. unfold page_words.
  intros (n & He & Hn)%list_elem_of_fmap. apply elem_of_seq in Hn.
  destruct (fresh s root q a' I Hget) as (_ & _ & Hq & Hnh & _).
  apply pages_disjoint in He as [-> _]; try done. lia.
Qed.

Lemma created_descend_from rest : ∀ pre r,
  (length pre + length rest ≤ 3)%nat → indices pre → indices rest → descend (words s) root pre = Some r →
  descend (words created) r rest = descend (words s) r rest.
Proof using H0 I Hget.
  induction rest as [|j rest IH]; intros pre r Hl Hpre Hrest Hr; [done|].
  apply Forall_cons in Hrest as [Hj Hrest]. cbn [length] in Hl.
  destruct (pt_page _ _ I pre r) as [(_ & Hra & _) Hrh]; [lia|done..|]. cbn [descend]. unfold child.
  rewrite created_old by done. destruct (words s !! (r + 8 * j)) as [e|] eqn:Ee; [|done].
  destruct (present e) eqn:Ep; [|done]. apply (IH (pre ++ [j])); [rewrite length_app; simpl; lia| |done|].
  - apply Forall_app. split; [done|by apply Forall_singleton].
  - rewrite descend_app, Hr. simpl. unfold child. by rewrite Ee, Ep.
Qed.

Lemma created_descend path : (length path ≤ 3)%nat → indices path → path ≠ [] →
  descend (words created) q path = descend (words s) root path.
Proof using H0 I Hget.
  intros Hl Hix Hne. destruct path as [|i path]; [done|]. apply Forall_cons in Hix as [Hi Hix].
  cbn [descend]. unfold child. rewrite created_root by done.
  destruct (words s !! (root + 8 * i)) as [e|] eqn:Ee; [|done]. destruct (present e) eqn:Ep; [|done].
  apply (created_descend_from path [i]); [simpl in *; lia|by apply Forall_singleton|done|].
  cbn [descend]. unfold child. by rewrite Ee, Ep.
Qed.

Lemma created_pt_ok : pt_ok created q.
Proof using H0 I Hget.
  destruct (fresh s root q a' I Hget) as (Hv & Hqr & Hqa & Hqn & Hqh & Hother & _).
  assert (Hroot := pt_page _ _ I [] root ltac:(simpl; lia) ltac:(constructor) eq_refl).
  split; [done|..].
  - intros path p Hl Hix Hp. destruct (decide (path = [])) as [->|Hne].
    + injection Hp as <-. split; [|done]. split; [done|]. split; [done|]. intros i Hi.
      rewrite created_root by done. destruct Hroot as [(_ & _ & Hw) _]. by apply Hw.
    + rewrite created_descend in Hp by done. destruct (pt_page _ _ I path p Hl Hix Hp) as [(Hr & Ha & Hw) Hh].
      split; [|apply Hother; [by intros ->|done]]. split; [done|]. split; [done|]. intros j Hj.
      rewrite created_old by done. by apply Hw.
  - intros path1 path2 p Hl1 Hl2 Hx1 Hx2. destruct (decide (path1 = [])) as [->|H1], (decide (path2 = [])) as [->|H2];
      [done|..].
    + intros [= <-] Hp. rewrite created_descend in Hp by done. by destruct (pt_page _ _ I path2 q Hl2 Hx2 Hp) as [_ ?].
    + intros Hp [= <-]. rewrite created_descend in Hp by done. by destruct (pt_page _ _ I path1 q Hl1 Hx1 Hp) as [_ ?].
    + rewrite !created_descend by done. by apply (pt_inj _ _ I).
Qed.

Lemma created_mapping v : mapping created q v = mapping s root v.
Proof using H0 I Hget.
  unfold mapping, pte_of. rewrite created_descend by (done || apply vpath_indices).
  destruct (descend (words s) root (vpath v)) as [t|] eqn:Et; [|done].
  destruct (pt_page _ _ I (vpath v) t) as [(_ & Hta & _) Hth]; [done|apply vpath_indices|done|].
  by rewrite created_old by (done || apply index_range).
Qed.

Lemma created_base : q ≠ root.
Proof using H0 I Hget.
  destruct (fresh s root q a' I Hget) as (_ & _ & _ & Hqn & _). intros ->. apply Hqn.
  by destruct (pt_page _ _ I [] root ltac:(simpl; lia) ltac:(constructor) eq_refl).
Qed.
End create.

(** A new table of zeros, as [paging_init] starts from. *)
Lemma empty_root_ok s q a' :
  valid (alloc s) → get_page (alloc s) = (Some q, a') →
  let s' := set_words (zero_page q) (set_alloc a' s) in
  pt_ok s' q ∧ ∀ v, mapping s' q v = NULL.
Proof using H0.
  intros Hv Hg s'. destruct (get_some _ _ _ Hv Hg) as (Hv' & Hqr & Hqa & _ & Hqh & _).
  assert (Hz : ∀ i, 0 ≤ i < 512 → words s' !! (q + 8 * i) = Some 0) by (intros; by apply zero_page_in).
  assert (Hd : ∀ i path, 0 ≤ i < 512 → descend (words s') q (i :: path) = None).
  { intros i path Hi. cbn [descend]. unfold child. by rewrite Hz. }
  split; [split; [done|..]|].
  - intros [|i path] p Hl Hix.
    + intros [= <-]. split; [|done]. split; [done|]. split; [done|]. intros i Hi. exists 0. rewrite Hz by done. done.
    + apply Forall_cons in Hix as [Hi _]. by rewrite Hd.
  - intros [|i1 path1] [|i2 path2] p Hl1 Hl2 Hx1 Hx2; [done|..];
      try (apply Forall_cons in Hx1 as [Hx1 _]); try (apply Forall_cons in Hx2 as [Hx2 _]); by rewrite ?Hd.
  - intros v. unfold mapping, pte_of, vpath. by rewrite Hd by apply index_range.
Qed.

(** ** The dirty and accessed bits *)

Lemma is_bit_ok s root va t bit :
  pt_ok s root → descend (words s) root (vpath va) = Some t →
  is_bit bit root va s = Ok (negb (Z.land (pte_of (words s) root va) bit =? 0), s).
Proof using H0.
  intros I Ht. unfold is_bit. rewrite (st_bind_ok _ _ _ _ _ (walk_read s root va I)), Ht.
  destruct (leaf_word s root va t I Ht) as (Hw & -> & _). by rewrite (get_word_ok _ _ _ _ Hw).
Qed.

Lemma set_bit_ok s root va t bit v :
  pt_ok s root → descend (words s) root (vpath va) = Some t → 0 ≤ bit < 2 ^ 12 →
  let e := pte_of (words s) root va in
  ∃ s', set_bit bit root va v s = Ok (tt, s') ∧ pt_ok s' root ∧
    descend (words s') root (vpath va) = Some t ∧
    pte_of (words s') root va = (if v then Z.lor e bit else Z.land e (u32 (Z.lnot bit))) ∧
    flushed s' = if cr3 s =? root - KERN_BASE then va :: flushed s else flushed s.
Proof using H0.
  intros I Ht Hbit e. unfold set_bit. rewrite (st_bind_ok _ _ _ _ _ (walk_read s root va I)), Ht.
  destruct (leaf_word s root va t I Ht) as (Hw & -> & Hr). rewrite (get_word_ok _ _ _ _ Hw). fold e in Hw, Hr |- *.
  set (w := if v then Z.lor e bit else Z.land e (u32 (Z.lnot bit))).
  assert (Hwr : 0 ≤ w < 2 ^ 64).
  { unfold w. destruct v; [|by apply land_range]. split; [apply Z.lor_nonneg; lia|].
    destruct (decide (Z.lor e bit = 0)) as [->|Hnz]; [done|]. apply Z.log2_lt_pow2; [pose proof (Z.lor_nonneg e bit); lia|].
    rewrite Z.log2_lor by lia. apply Z.max_lub_lt.
    - destruct (decide (e = 0)) as [->|]; [done|]. apply Z.log2_lt_pow2; lia.
    - destruct (decide (bit = 0)) as [->|]; [done|]. apply Z.log2_lt_pow2; lia. }
  rewrite (st_bind_ok _ _ _ _ _ (set_word_ok _ _ _ _ Hw)).
  set (s1 := set_words <[t + 8 * PTX va := w]> s). assert (I1 : pt_ok s1 root) by (by apply entry_pt_ok).
  destruct (flush_ok s1 root va I1) as (s' & Hf & Ha & Hws & _ & Hfl). exists s'. rewrite Hws.
  split_and!; [done|by apply (pt_ok_ext s1)| | |done].
  - unfold s1. rewrite entry_descend by (done || apply vpath_indices). done.
  - unfold s1. rewrite entry_pte by done. by rewrite decide_True.
Qed.

(** ** Theorems *)

(** C17: an address space is a finite map from user pages to kernel pages.
    After [pml4_create] and any sequence of [pml4_set_page] and
    [pml4_clear_page] calls (three free pages per call are enough for the
    tables), all calls have succeeded and [pml4_get_page] of every user
    address returns what the map says, a null pointer for unmapped pages. *)
Theorem pml4_refines_map s ops :
  pt_ok s (base_pml4 s) → (∀ v, 0 ≤ v < KERN_BASE → mapping s (base_pml4 s) v = NULL) →
  Forall op_ok ops → (1 + 3 * length ops ≤ avail (alloc s))%nat →
  ∃ root s', (root ← pml4_create; run_ops root ops;; mret root) s = Ok (root, s') ∧
    ∀ v, 0 ≤ v < KERN_BASE →
      pml4_get_page root v s' = Ok (translate (foldl (λ m op, spec_op op m) ∅ ops) v, s').
Proof using H0.
  intros I Hempty Hops Hav. destruct (get_page (alloc s)) as [[q|] a'] eqn:Hg;
    [|destruct (get_none _ _ (pt_valid _ _ I) Hg); lia].
  destruct (fresh s _ q a' I Hg) as (_ & _ & _ & _ & _ & _ & Hav').
  destruct (run_ops_space (created s q a') q ∅ ops) as (s' & Hrun & Is' & _ & Hmap).
  - split; [by apply created_pt_ok|]. split; [by apply not_eq_sym, (created_base s q a')|].
    intros v Hv. rewrite (created_mapping s q a' I Hg). unfold translate. rewrite lookup_empty. by apply Hempty.
  - done.
  - cbn [alloc created set_words set_alloc]. lia.
  - exists q, s'. split.
    + rewrite (st_bind_ok _ _ _ _ _ (create_run s q a' Hg)). by rewrite (st_bind_ok _ _ _ _ _ Hrun).
    + intros v Hv. rewrite get_page_ok, Hmap; [done|done|done|].
      unfold is_user_vaddr, is_kernel_vaddr. apply negb_true_iff, Z.leb_gt. lia.
Qed.

(** Setting the dirty bit of a page that has a table is seen by
    [pml4_is_dirty] and keeps the mapping; clearing it is seen too, but since
    the mask is a 32-bit complement it also clears the upper half of the
    entry, so the frame address is reduced modulo 4 GB. *)
Theorem pml4_set_dirty_truncates s root va t :
  pt_ok s root → descend (words s) root (vpath va) = Some t →
  (∃ s', pml4_set_dirty root va true s = Ok (tt, s') ∧ pml4_is_dirty root va s' = Ok (true, s') ∧
         mapping s' root va = mapping s root va) ∧
  (∃ s', pml4_set_dirty root va false s = Ok (tt, s') ∧ pml4_is_dirty root va s' = Ok (false, s') ∧
         PTE_ADDR (pte_of (words s') root va) = PTE_ADDR (pte_of (words s) root va) mod 2 ^ 32).
Proof using H0.
  intros I Ht. set (e := pte_of (words s) root va). split.
  - destruct (set_bit_ok s root va t PTE_D true I Ht) as (s' & Hop & I' & Ht' & Hpte & _); [unfold PTE_D; lia|].
    fold e in Hpte. exists s'. split; [done|]. split.
    + unfold pml4_is_dirty. rewrite (is_bit_ok s' root va t PTE_D I' Ht'), Hpte, Z.land_lor_distr_l, Z.land_diag.
      assert (Z.lor (Z.land e PTE_D) PTE_D =? 0 = false) as ->; [|done].
      apply Z.eqb_neq. intros [_ ?]%Z.lor_eq_0_iff. done.
    + unfold mapping, present, PTE_ADDR. rewrite Hpte. fold e. rewrite !Z.land_lor_distr_l.
      change (Z.land PTE_D PTE_P) with 0. change (Z.land PTE_D (u64 (Z.lnot 0xFFF))) with 0. by rewrite !Z.lor_0_r.
  - destruct (set_bit_ok s root va t PTE_D false I Ht) as (s' & Hop & I' & Ht' & Hpte & _); [unfold PTE_D; lia|].
    fold e in Hpte. exists s'. split; [done|]. split.
    + unfold pml4_is_dirty. rewrite (is_bit_ok s' root va t PTE_D I' Ht'), Hpte, <- Z.land_assoc.
      change (Z.land (u32 (Z.lnot PTE_D)) PTE_D) with 0. by rewrite Z.land_0_r.
    + rewrite Hpte. unfold PTE_ADDR. rewrite <- Z.land_ones by lia. rewrite <- !Z.land_assoc. by f_equal.
Qed.
End tables.

(** ** A small machine: an empty [base_pml4] on the pages [palloc_init] left *)

Definition demo_page : Z := match (get_page demo).1 with Some q => q | None => NULL end.

Definition demo_mmu : mmu palloc :=
  set_words (zero_page demo_page) (Mmu (get_page demo).2 ∅ demo_page 0 []).

Lemma demo_mmu_ok : pt_ok demo_mmu demo_page ∧ ∀ v, mapping demo_mmu demo_page v = NULL.
Proof.
  destruct (get_page demo) as [[q|] a'] eqn:Hg.
  - unfold demo_mmu, demo_page. rewrite Hg. cbn [fst snd].
    apply (empty_root_ok (Mmu demo ∅ q 0 []) q a'); [apply demo_ok|done].
  - exfalso. destruct (palloc_get_none demo a' demo_ok Hg) as [Hav _]. vm_compute in Hav. done.
Qed.

Lemma demo_avail : (7 ≤ avail (alloc demo_mmu))%nat.
Proof. apply Nat.leb_le. vm_compute. reflexivity. Qed.

Lemma pml4_refines_map_witness :
  let ops := [SetPage 0x400000 (KERN_BASE + 0x30000) true; ClearPage 0x5000] in
  ∃ root s', (root ← pml4_create; run_ops root ops;; mret root) demo_mmu = Ok (root, s') ∧
    ∀ v, 0 ≤ v < KERN_BASE →
      pml4_get_page root v s' = Ok (translate (foldl (λ m op, spec_op op m) ∅ ops) v, s').
Proof.
  intros ops. apply pml4_refines_map.
  - apply demo_mmu_ok.
  - intros v _. apply demo_mmu_ok.
  - repeat constructor; done.
  - apply demo_avail.
Defined.

Lemma demo_leaf :
  ∃ s t, pt_ok s demo_page ∧ descend (words s) demo_page (vpath 0x400000) = Some t.
Proof.
  destruct (walk_create demo_mmu demo_page 0x400000 (proj1 demo_mmu_ok)) as [[_ Hlt]|(s & t & _ & Hg & Ht & _)].
  - pose proof demo_avail. lia.
  - exists s, t. split; [apply (grows_ok _ _ _ Hg)|done].
Qed.

Lemma pml4_set_dirty_truncates_witness :
  ∃ s s' : mmu palloc, pml4_set_dirty demo_page 0x400000 false s = Ok (tt, s') ∧
    pml4_is_dirty demo_page 0x400000 s' = Ok (false, s').
Proof.
  destruct demo_leaf as (s & t & I & Ht). exists s.
  destruct (proj2 (pml4_set_dirty_truncates s demo_page 0x400000 t I Ht)) as (s' & H1 & H2 & _).
  exists s'. exact (conj H1 H2).
Defined.

End MmuTheorems.
