(* ===== verification/Inode.v ===== *)
(** filesys/inode.c: the data of inodes on the file system disk.

    The file system's state: the disk as its sequence of sectors of bytes, the
    structures that live in kernel memory by their addresses, the list of open
    inodes, the free map's bitmap and file, and the allocator.  Of [malloc],
    [calloc] and [free] the file system relies on one thing: an allocation
    returns a null pointer or a block that nothing else uses.  [outcomes] says
    which of the next allocations succeed (all, when it runs out) and [brk] is
    the address of the next block. *)
From S2P Require Import Prelude Bitmap.
Import Bitmap.
Local Open Scope Z_scope.

Module Inode.

Definition DISK_SECTOR_SIZE : Z := 512.
Definition INODE_MAGIC : Z := 0x494e4f44.

Record inode_disk := InodeDisk { i_start : Z; i_length : Z; i_magic : Z }.

Record inode := MkInode {
  sector : Z; open_cnt : Z; removed : bool; deny_write_cnt : Z; data : inode_disk }.

Record file := File { f_inode : Z; f_pos : Z; deny_write : bool }.
Record dir := Dir { d_inode : Z; d_pos : Z }.

Record fs := Fs {
  disk : list (list Z);
  inodes : gmap Z inode;
  open_inodes : list Z;
  files : gmap Z file;
  dirs : gmap Z dir;
  bitmaps : bmem;
  free_map : Z;
  free_map_file : Z;
  outcomes : list bool;
  brk : Z }.

Definition set_disk (d : list (list Z)) (s : fs) : fs :=
  Fs d (inodes s) (open_inodes s) (files s) (dirs s) (bitmaps s) (free_map s) (free_map_file s) (outcomes s) (brk s).
Definition set_inodes (m : gmap Z inode) (l : list Z) (s : fs) : fs :=
  Fs (disk s) m l (files s) (dirs s) (bitmaps s) (free_map s) (free_map_file s) (outcomes s) (brk s).
Definition set_alloc (o : list bool) (b : Z) (s : fs) : fs :=
  Fs (disk s) (inodes s) (open_inodes s) (files s) (dirs s) (bitmaps s) (free_map s) (free_map_file s) o b.

(** An allocation. *)
Definition malloc : st fs Z := λ s,
  match outcomes s with
  | false :: o => Ok (NULL, set_alloc o (brk s) s)
  | o => Ok (brk s, set_alloc (tail o) (brk s + 1) s)
  end.

(** ** The disk: [disk_read] and [disk_write] ASSERT that the sector exists *)

Definition disk_read (sec_no : Z) : st fs (list Z) := λ s,
  match disk s !! Z.to_nat sec_no with Some b => Ok (b, s) | None => Err AssertFail end.

Definition disk_write (sec_no : Z) (buffer : list Z) : st fs unit := λ s,
  match disk s !! Z.to_nat sec_no with
  | Some _ => Ok (tt, set_disk (<[Z.to_nat sec_no := buffer]> (disk s)) s)
  | None => Err AssertFail
  end.

(** ** Reading and writing *)

Definition get_inode (p : Z) : st fs inode := λ s,
  match inodes s !! p with Some i => Ok (i, s) | None => Err BadAddr end.
Definition put_inode (p : Z) (i : inode) : st fs unit :=
  st_modify (λ s, set_inodes (<[p := i]> (inodes s)) (open_inodes s) s).

Definition bytes_to_sectors (size : Z) : Z :=
  u64 (Z.quot (i32 (size + DISK_SECTOR_SIZE - 1)) DISK_SECTOR_SIZE).

Definition byte_to_sector (i : inode) (pos : Z) : Z :=
  if pos <? i_length (data i) then u32 (i_start (data i) + Z.quot pos DISK_SECTOR_SIZE) else u32 (-1).

Definition inode_length (p : Z) : st fs Z := i ← get_inode p; mret (i_length (data i)).

(** [n] bytes of [buf] at [ofs]; a copy that leaves the buffer is a bad access. *)
Definition slice (buf : list Z) (ofs n : Z) : st fs (list Z) :=
  if (0 <=? ofs) && (ofs + n <=? Z.of_nat (length buf))
  then mret (take (Z.to_nat n) (drop (Z.to_nat ofs) buf)) else st_err BadAddr.

(** [memcpy (dst + ofs, src, n)] for the [n] bytes [src]. *)
Definition overwrite (dst : list Z) (ofs : Z) (src : list Z) : list Z :=
  take (Z.to_nat ofs) dst ++ src ++ drop (Z.to_nat ofs + length src) dst.

(** The chunk of one iteration: sector offset, bytes left in the sector and
    bytes to copy. *)
Definition chunk_of (i : inode) (size offset : Z) : Z * Z * Z :=
  let sector_ofs := Z.rem offset DISK_SECTOR_SIZE in
  let inode_left := i32 (i_length (data i) - offset) in
  let sector_left := DISK_SECTOR_SIZE - sector_ofs in
  let min_left := if inode_left <? sector_left then inode_left else sector_left in
  (sector_ofs, sector_left, if size <? min_left then size else min_left).

(** [if (bounce == NULL) bounce = malloc (DISK_SECTOR_SIZE)] *)
Definition get_bounce (bounce : bool) : st fs bool :=
  if bounce then mret true else p ← malloc; mret (negb (p =? NULL)).

(** [buf] is what has been copied to the caller's buffer; every iteration
    reads at least one byte. *)
Fixpoint read_loop (fuel : nat) (p size offset : Z) (bounce : bool) (buf : list Z) : st fs (list Z) :=
  match fuel with
  | O => st_err NoFuel
  | S fuel =>
    if size <=? 0 then mret buf else
    ASSERT (negb (p =? NULL));;
    i ← get_inode p;
    let sector_idx := byte_to_sector i offset in
    let '(sector_ofs, _, chunk_size) := chunk_of i size offset in
    if chunk_size <=? 0 then mret buf else
    if (sector_ofs =? 0) && (chunk_size =? DISK_SECTOR_SIZE) then
      bytes ← disk_read sector_idx;
      read_loop fuel p (size - chunk_size) (i32 (offset + chunk_size)) bounce (buf ++ bytes)
    else
      ok ← get_bounce bounce;
      if negb ok then mret buf else
      bytes ← disk_read sector_idx;
      bytes ← slice bytes sector_ofs chunk_size;
      read_loop fuel p (size - chunk_size) (i32 (offset + chunk_size)) true (buf ++ bytes)
  end.

(** The bytes read; their number is what the function returns. *)
Definition inode_read_at (p size offset : Z) : st fs (list Z) :=
  read_loop (S (Z.to_nat size)) p size offset false [].

Fixpoint write_loop (fuel : nat) (p : Z) (buffer : list Z) (size offset : Z) (bounce : bool)
    (bytes_written : Z) : st fs Z :=
  match fuel with
  | O => st_err NoFuel
  | S fuel =>
    if size <=? 0 then mret bytes_written else
    ASSERT (negb (p =? NULL));;
    i ← get_inode p;
    let sector_idx := byte_to_sector i offset in
    let '(sector_ofs, sector_left, chunk_size) := chunk_of i size offset in
    if chunk_size <=? 0 then mret bytes_written else
    if (sector_ofs =? 0) && (chunk_size =? DISK_SECTOR_SIZE) then
      bytes ← slice buffer bytes_written chunk_size;
      disk_write sector_idx bytes;;
      write_loop fuel p buffer (size - chunk_size) (i32 (offset + chunk_size)) bounce (bytes_written + chunk_size)
    else
      ok ← get_bounce bounce;
      if negb ok then mret bytes_written else
      old ← (if (0 <? sector_ofs) || (chunk_size <? sector_left) then disk_read sector_idx
             else mret (replicate 512 0));
      bytes ← slice buffer bytes_written chunk_size;
      disk_write sector_idx (overwrite old sector_ofs bytes);;
      write_loop fuel p buffer (size - chunk_size) (i32 (offset + chunk_size)) true (bytes_written + chunk_size)
  end.

Definition inode_write_at (p : Z) (buffer : list Z) (size offset : Z) : st fs Z :=
  i ← get_inode p;
  if negb (deny_write_cnt i =? 0) then mret 0 else
  write_loop (S (Z.to_nat size)) p buffer size offset false 0.

(** ** Openers *)

Definition inode_reopen (p : Z) : st fs Z :=
  if negb (p =? NULL) then
    i ← get_inode p;
    put_inode p (MkInode (sector i) (i32 (open_cnt i + 1)) (removed i) (deny_write_cnt i) (data i));;
    mret p
  else mret p.

Definition inode_get_inumber (p : Z) : st fs Z := i ← get_inode p; mret (sector i).

Definition inode_remove (p : Z) : st fs unit :=
  ASSERT (negb (p =? NULL));;
  i ← get_inode p;
  put_inode p (MkInode (sector i) (open_cnt i) true (deny_write_cnt i) (data i)).

Definition inode_deny_write (p : Z) : st fs unit :=
  i ← get_inode p;
  let n := i32 (deny_write_cnt i + 1) in
  put_inode p (MkInode (sector i) (open_cnt i) (removed i) n (data i));;
  ASSERT (n <=? open_cnt i).

Definition inode_allow_write (p : Z) : st fs unit :=
  i ← get_inode p;
  ASSERT (0 <? deny_write_cnt i);;
  ASSERT (deny_write_cnt i <=? open_cnt i);;
  put_inode p (MkInode (sector i) (open_cnt i) (removed i) (deny_write_cnt i - 1) (data i)).

Definition inode_init : st fs unit := st_modify (λ s, set_inodes (inodes s) [] s).

(** ** The layout of [struct inode_disk] *)

Definition le32 (z : Z) : list Z := [u8 z; u8 (Z.shiftr z 8); u8 (Z.shiftr z 16); u8 (Z.shiftr z 24)].
Definition of_le (bytes : list Z) : Z := foldr (λ b acc, b + 256 * acc) 0 bytes.

Definition encode_inode (d : inode_disk) : list Z :=
  le32 (i_start d) ++ le32 (u32 (i_length d)) ++ le32 (i_magic d) ++ replicate 500 0.

Definition decode_inode (b : list Z) : inode_disk :=
  InodeDisk (of_le (take 4 b)) (i32 (of_le (take 4 (drop 4 b)))) (of_le (take 4 (drop 8 b))).

End Inode.
