(* ===== verification/InodeTheorems.v ===== *)
(** filesys/inode.c: the data of an inode is a sequence of bytes that
    [inode_read_at] reads and [inode_write_at] overwrites in place, across
    sector boundaries and up to the end of the file. *)
From S2P Require Import Prelude Bitmap Inode.
Import Inode.
Local Open Scope Z_scope.

Module InodeTheorems.

(** ** Overwriting a range of a sequence *)

Section splice.
Context {A : Type}.
Implicit Types l b : list A.

Definition splice l (n : nat) b : list A := take n l ++ b ++ drop (n + length b) l.

Lemma splice_lookup l n b j :
  (n + length b ≤ length l)%nat →
  splice l n b !! j = if decide (n ≤ j < n + length b)%nat then b !! (j - n)%nat else l !! j.
Proof.
  intros Hl. unfold splice. case_decide as Hj.
  - rewrite lookup_app_r by (rewrite length_take; lia). rewrite length_take, Nat.min_l by lia.
    by rewrite lookup_app_l by lia.
  - destruct (decide (j < n)%nat).
    + rewrite lookup_app_l by (rewrite length_take; lia). by rewrite lookup_take_lt.
    + rewrite !lookup_app_r by (rewrite ?length_take; lia). rewrite length_take, Nat.min_l, lookup_drop by lia. f_equal. lia.
Qed.

Lemma length_splice l n b : (n + length b ≤ length l)%nat → length (splice l n b) = length l.
Proof. intros. unfold splice. rewrite !length_app, length_take, length_drop. lia. Qed.

Lemma splice_nil l n : splice l n [] = l.
Proof. unfold splice. simpl. by rewrite Nat.add_0_r, take_drop. Qed.

(** Two adjacent ranges. *)
Lemma splice_app l n b1 b2 :
  (n + length b1 + length b2 ≤ length l)%nat →
  splice (splice l n b1) (n + length b1) b2 = splice l n (b1 ++ b2).
Proof.
  intros Hl. apply list_eq. intros j.
  rewrite splice_lookup by (rewrite length_splice; lia). rewrite (splice_lookup l n b1) by lia.
  rewrite splice_lookup by (rewrite length_app; lia). rewrite length_app.
  repeat case_decide; try lia.
  - rewrite lookup_app_r by lia. f_equal. lia.
  - by rewrite lookup_app_l by lia.
  - done.
Qed.

(** A range inside an aligned block. *)
Lemma splice_block l n c o b :
  (n + c ≤ length l)%nat → (o + length b ≤ c)%nat →
  splice l n (splice (take c (drop n l)) o b) = splice l (n + o) b.
Proof.
  intros Hl Ho. assert (Hc : length (take c (drop n l)) = c) by (rewrite length_take, length_drop; lia).
  assert (Hs : length (splice (take c (drop n l)) o b) = c) by (rewrite length_splice; lia).
  apply list_eq. intros j. rewrite splice_lookup by lia. rewrite (splice_lookup l) by lia. rewrite Hs.
  destruct (decide (n ≤ j < n + c)%nat) as [Hj|Hj].
  - rewrite splice_lookup by lia. rewrite lookup_take_lt, lookup_drop by lia.
    repeat case_decide; try lia; f_equal; lia.
  - by rewrite decide_False by lia.
Qed.

Lemma splice_range l n b : (n + length b ≤ length l)%nat → take (length b) (drop n (splice l n b)) = b.
Proof.
  intros Hl. unfold splice. rewrite drop_app_length' by (rewrite length_take; lia). by rewrite take_app_length.
Qed.

Lemma take_add (a c : nat) l : take a l ++ take c (drop a l) = take (a + c) l.
Proof. revert l. induction a as [|a IH]; intros [|x l]; simpl; rewrite ?take_nil; try done. by rewrite IH. Qed.
End splice.

(** ** The disk as one sequence of bytes *)

(** A sequence of blocks of [c] bytes. *)
Definition blocks (c : nat) (d : list (list Z)) : Prop := Forall (λ b, length b = c) d.

Lemma blocks_length c d : blocks c d → length (concat d) = (c * length d)%nat.
Proof. induction 1 as [|b d Hb _ IH]; [simpl; lia|]. cbn [concat]. rewrite length_app, Hb, IH. cbn [length]. lia. Qed.

Lemma block_bytes c d k b : blocks c d → d !! k = Some b → b = take c (drop (c * k) (concat d)).
Proof.
  intros Hd. revert k. induction Hd as [|b0 d Hb _ IH]; intros [|k] Hk; [done..| |].
  - injection Hk as <-. cbn [concat]. rewrite Nat.mul_0_r, drop_0. by rewrite take_app_length' by done.
  - rewrite (IH k Hk). cbn [concat]. rewrite drop_app_ge by lia. do 2 f_equal. lia.
Qed.

Lemma write_block c d k b :
  blocks c d → (k < length d)%nat → length b = c →
  blocks c (<[k := b]> d) ∧ concat (<[k := b]> d) = splice (concat d) (c * k) b.
Proof.
  intros Hd Hk Hb. split; [by apply Forall_insert|]. revert k Hk.
  induction Hd as [|b0 d Hb0 Hd IH]; intros [|k] Hk; cbn [length] in Hk; try lia.
  - cbn [concat insert list_insert]. unfold splice. rewrite Nat.mul_0_r, take_0. simpl. rewrite Hb. by rewrite drop_app_length' by done.
  - change (<[S k := b]> (b0 :: d)) with (b0 :: <[k := b]> d). cbn [concat]. rewrite IH by lia. unfold splice.
    rewrite take_app_ge by lia. rewrite drop_app_ge by lia. rewrite <- app_assoc. do 2 f_equal; [f_equal; lia|].
    f_equal. f_equal. lia.
Qed.

Definition sectors_ok : list (list Z) → Prop := blocks 512.

(** ** Little-endian words *)

Lemma le32_decode sec : 0 ≤ sec < 2 ^ 32 → of_le (le32 sec) = sec.
Proof.
  intros Hs.  unfold of_le, le32, u8. cbn [foldr]. rewrite !Z.shiftr_div_pow2 by lia.
  pose proof (Z.div_mod sec (2 ^ 8)). pose proof (Z.div_mod (sec / 2 ^ 8) (2 ^ 8)) as E1.
  pose proof (Z.div_mod (sec / 2 ^ 16) (2 ^ 8)) as E2. rewrite Z.div_div in E1, E2 by lia.
  change (2 ^ 8 * 2 ^ 8) with (2 ^ 16) in E1. change (2 ^ 16 * 2 ^ 8) with (2 ^ 24) in E2.
  assert (0 ≤ sec / 2 ^ 24 < 2 ^ 8) by (split; [apply Z.div_pos|apply Z.div_lt_upper_bound]; lia).
  rewrite (Z.mod_small (sec / 2 ^ 24)) by done. change (2 ^ 8) with 256 in *. lia.
Qed.

(** ** Inodes whose sectors are on the disk *)

Record inode_ok (s : fs) (p : Z) (i : inode) : Prop := {
  io_at : inodes s !! p = Some i;
  io_ptr : p ≠ NULL;
  io_start : 0 ≤ i_start (data i);
  io_length : 0 ≤ i_length (data i) < 2 ^ 31 - 512;
  io_end : 512 * i_start (data i) + i_length (data i) ≤ 512 * Z.of_nat (length (disk s));
  io_disk : Z.of_nat (length (disk s)) < 2 ^ 32;
  io_sectors : sectors_ok (disk s) }.

(** Where the bytes of an inode start, and the bytes. *)
Definition first (i : inode) : nat := (512 * Z.to_nat (i_start (data i)))%nat.
Definition content (s : fs) (i : inode) : list Z :=
  take (Z.to_nat (i_length (data i))) (drop (first i) (concat (disk s))).

Lemma content_length s p i : inode_ok s p i → length (content s i) = Z.to_nat (i_length (data i)).
Proof.
  intros H. unfold content, first. rewrite length_take, length_drop, (blocks_length 512) by apply (io_sectors _ _ _ H).
  pose proof (io_start _ _ _ H). pose proof (io_length _ _ _ H). pose proof (io_end _ _ _ H). lia.
Qed.

(** One iteration: a chunk that is not empty lies in one sector of the file. *)
Lemma chunk_cases s p i size offset :
  inode_ok s p i → 0 < size → 0 ≤ offset < 2 ^ 31 →
  let '(ofs, rest, n) := chunk_of i size offset in
  i_length (data i) ≤ offset ∧ n ≤ 0 ∨
  ∃ k o : nat, offset < i_length (data i) ∧ byte_to_sector i offset = Z.of_nat k ∧ ofs = Z.of_nat o ∧
    rest = 512 - ofs ∧ (512 * k + o = first i + Z.to_nat offset)%nat ∧ (k < length (disk s))%nat ∧ (o < 512)%nat ∧
    0 < n ≤ rest ∧ n ≤ size ∧ n ≤ i_length (data i) - offset ∧
    (n < size → n < i_length (data i) - offset → n = rest) ∧ i32 (offset + n) = offset + n.
Proof.
  intros H Hs Ho. pose proof (io_start _ _ _ H). pose proof (io_length _ _ _ H). pose proof (io_end _ _ _ H).
  pose proof (io_disk _ _ _ H). unfold chunk_of, DISK_SECTOR_SIZE. rewrite i32_small by lia.
  rewrite Z.rem_mod_nonneg by lia. pose proof (Z.mod_pos_bound offset 512). pose proof (Z.div_mod offset 512).
  assert (0 ≤ offset / 512) by (apply Z.div_pos; lia).
  set (n := if size <? _ then _ else _).
  assert (Hn : n = Z.min size (Z.min (i_length (data i) - offset) (512 - offset mod 512))).
  { unfold n. destruct (Z.ltb_spec (i_length (data i) - offset) (512 - offset mod 512));
      match goal with |- context [size <? ?x] => destruct (Z.ltb_spec size x) end; lia. }
  destruct (decide (i_length (data i) ≤ offset)) as [Hge|Hlt]; [left; lia|right].
  exists (Z.to_nat (i_start (data i) + offset / 512)), (Z.to_nat (offset mod 512)).
  unfold byte_to_sector, DISK_SECTOR_SIZE, first.
  assert (offset <? i_length (data i) = true) as -> by (apply Z.ltb_lt; lia).
  rewrite Z.quot_div_nonneg by lia. assert (512 * (i_start (data i) + offset / 512) < 512 * Z.of_nat (length (disk s))) by lia.
  rewrite u32_small by lia. rewrite i32_small by lia. split_and!; lia.
Qed.

(** ** Reading *)

Lemma inode_ok_alloc s p i o b : inode_ok s p i → inode_ok (set_alloc o b s) p i.
Proof. by intros []. Qed.

Lemma get_inode_ok {B} (k : inode → st fs B) s p i :
  inode_ok s p i → (ASSERT (negb (p =? NULL));; i ← get_inode p; k i) s = k i s.
Proof.
  intros H. rewrite (st_bind_ok _ _ _ tt s) by (apply ASSERT_true, negb_true_iff, Z.eqb_neq, (io_ptr _ _ _ H)).
  apply st_bind_ok. unfold get_inode. by rewrite (io_at _ _ _ H).
Qed.

Lemma disk_read_ok s (k : nat) :
  sectors_ok (disk s) → (k < length (disk s))%nat →
  disk_read (Z.of_nat k) s = Ok (take 512 (drop (512 * k) (concat (disk s))), s).
Proof.
  intros Hd Hk. unfold disk_read. rewrite Nat2Z.id. destruct (lookup_lt_is_Some_2 _ _ Hk) as [b Hb]. rewrite Hb.
  by rewrite (block_bytes _ _ _ _ Hd Hb).
Qed.

Lemma slice_ok (l : list Z) (o n : nat) (s : fs) :
  (o + n ≤ length l)%nat → slice l (Z.of_nat o) (Z.of_nat n) s = Ok (take n (drop o l), s).
Proof.
  intros H. unfold slice. assert ((0 <=? Z.of_nat o) && (Z.of_nat o + Z.of_nat n <=? Z.of_nat (length l)) = true) as ->.
  { apply andb_true_iff. split; apply Z.leb_le; lia. } by rewrite !Nat2Z.id.
Qed.

Lemma get_bounce_ok s bounce :
  outcomes s = [] → 0 < brk s →
  ∃ b, get_bounce bounce s = Ok (true, set_alloc [] b s) ∧ brk s ≤ b.
Proof.
  intros Ho Hb. unfold get_bounce. destruct bounce.
  - exists (brk s). split; [|lia]. destruct s. simpl in *. by subst.
  - exists (brk s + 1). unfold mbind, st_bind, malloc. rewrite Ho. simpl.
    assert (brk s =? NULL = false) as -> by (apply Z.eqb_neq; unfold NULL; lia). split; [done|lia].
Qed.

Lemma set_alloc_id s : outcomes s = [] → s = set_alloc [] (brk s) s.
Proof. destruct s. simpl. by intros ->. Qed.

(** Both ways to read a chunk give its bytes. *)
Lemma read_chunk {B} (fail : st fs B) (k : bool → list Z → st fs B) s p i (n ofs : Z) (sec o : nat) bounce :
  inode_ok s p i → outcomes s = [] → 0 < brk s → ofs = Z.of_nat o → (sec < length (disk s))%nat →
  0 < n ≤ 512 - ofs →
  ∃ b bounce', brk s ≤ b ∧
    (if (ofs =? 0) && (n =? DISK_SECTOR_SIZE) then bytes ← disk_read (Z.of_nat sec); k bounce bytes
     else ok ← get_bounce bounce;
          if negb ok then fail else
          bytes ← disk_read (Z.of_nat sec); bytes ← slice bytes ofs n; k true bytes) s
    = k bounce' (take (Z.to_nat n) (drop (512 * sec + o) (concat (disk s)))) (set_alloc [] b s).
Proof.
  intros H Ho Hb -> Hsec Hn. pose proof (io_sectors _ _ _ H) as Hd.
  pose proof (blocks_length _ _ Hd) as Hlen.
  destruct ((Z.of_nat o =? 0) && (n =? DISK_SECTOR_SIZE)) eqn:E.
  - apply andb_true_iff in E as [E1%Z.eqb_eq E2%Z.eqb_eq]. unfold DISK_SECTOR_SIZE in *.
    exists (brk s), bounce. split; [done|]. rewrite (st_bind_ok _ _ _ _ _ (disk_read_ok s sec Hd Hsec)).
    rewrite <- set_alloc_id by done. assert (o = O) as -> by lia. rewrite Nat.add_0_r. by subst n.
  - destruct (get_bounce_ok s bounce Ho Hb) as (b & Hop & Hb'). exists b, true. split; [done|].
    rewrite (st_bind_ok _ _ _ _ _ Hop). cbn [negb].
    rewrite (st_bind_ok _ _ _ _ _ (disk_read_ok (set_alloc [] b s) sec Hd Hsec)).
    assert (Hs : length (take 512 (drop (512 * sec) (concat (disk s)))) = 512%nat)
      by (rewrite length_take, length_drop, Hlen; lia).
    replace n with (Z.of_nat (Z.to_nat n)) at 1 by lia. change (disk (set_alloc [] b s)) with (disk s).
    rewrite (st_bind_ok _ _ _ _ _ (slice_ok (take 512 (drop (512 * sec) (concat (disk s)))) o (Z.to_nat n) (set_alloc [] b s) ltac:(lia))).
    f_equal. rewrite skipn_firstn_comm, take_take, drop_drop, Nat.min_l by lia. done.
Qed.

(** How many bytes a transfer of [size] bytes at [offset] moves. *)
Definition moved (i : inode) (size offset : Z) : nat := Z.to_nat (Z.min size (i_length (data i) - offset)).

Lemma read_loop_ok fuel p i : ∀ s size offset bounce buf,
  inode_ok s p i → outcomes s = [] → 0 < brk s → 0 ≤ size < Z.of_nat fuel → 0 ≤ offset < 2 ^ 31 →
  ∃ b, brk s ≤ b ∧ read_loop fuel p size offset bounce buf s
    = Ok (buf ++ take (moved i size offset) (drop (first i + Z.to_nat offset) (concat (disk s))), set_alloc [] b s).
Proof.
  induction fuel as [|fuel IH]; intros s size offset bounce buf H Ho Hb Hf Hoff; [lia|]. cbn [read_loop].
  assert (Hend : moved i size offset = O → ∃ b, brk s ≤ b ∧ (mret buf : st fs (list Z)) s
    = Ok (buf ++ take (moved i size offset) (drop (first i + Z.to_nat offset) (concat (disk s))), set_alloc [] b s)).
  { intros ->. exists (brk s). split; [done|]. rewrite app_nil_r, <- set_alloc_id by done. done. }
  destruct (Z.leb_spec size 0); [apply Hend; unfold moved; lia|].
  rewrite (get_inode_ok _ _ _ i) by done. pose proof (chunk_cases s p i size offset H) as Hc.
  destruct (chunk_of i size offset) as [[ofs rest] n].
  destruct Hc as [[Hlen Hn]|(sec & o & Hlt & -> & Hofs & Hrest & Hpos & Hsec & Ho512 & Hn & Hn1 & Hn2 & Hn3 & Hi32)]; [lia|done|..].
  { destruct (Z.leb_spec n 0); [|lia]. apply Hend. unfold moved. lia. }
  destruct (Z.leb_spec n 0); [lia|].
  destruct (read_chunk (mret buf) (λ bounce bytes, read_loop fuel p (size - n) (i32 (offset + n)) bounce (buf ++ bytes))
    s p i n ofs sec o bounce) as (b & bounce' & Hb' & Hrun); try done; [lia|].
  rewrite Hrun, Hi32, Hpos.
  destruct (IH (set_alloc [] b s) (size - n) (offset + n) bounce'
    (buf ++ take (Z.to_nat n) (drop (first i + Z.to_nat offset) (concat (disk s))))) as (b2 & Hb2 & Hrun2);
    [by apply inode_ok_alloc|done|simpl; lia|lia|pose proof (io_length _ _ _ H); lia|].
  exists b2. split; [simpl in *; lia|]. rewrite Hrun2. do 2 f_equal. rewrite <- app_assoc. f_equal. simpl.
  assert (moved i size offset = Z.to_nat n + moved i (size - n) (offset + n))%nat as -> by (unfold moved; lia).
  rewrite <- take_add, drop_drop. do 3 f_equal. lia.
Qed.

(** [inode_read_at] returns the bytes of the file at the offset. *)
Lemma read_at_ok s p i size offset :
  inode_ok s p i → outcomes s = [] → 0 < brk s → 0 ≤ size → 0 ≤ offset < 2 ^ 31 →
  ∃ b, brk s ≤ b ∧ inode_read_at p size offset s
    = Ok (take (Z.to_nat size) (drop (Z.to_nat offset) (content s i)), set_alloc [] b s).
Proof.
  intros H Ho Hb Hs Hoff. destruct (read_loop_ok (S (Z.to_nat size)) p i s size offset false [] H Ho Hb) as (b & Hb' & Hr);
    [lia|done|]. exists b. split; [done|]. unfold inode_read_at. rewrite Hr. simpl. do 2 f_equal.
  unfold content, moved. rewrite skipn_firstn_comm, take_take, drop_drop. f_equal. lia.
Qed.

(** ** Writing *)

Definition set_bytes (s : fs) (d : list (list Z)) (b : Z) : fs := set_disk d (set_alloc [] b s).

Lemma inode_ok_disk s p i d b :
  inode_ok s p i → sectors_ok d → length d = length (disk s) → inode_ok (set_bytes s d b) p i.
Proof. intros [] Hd Hl. split; try done; simpl; by rewrite Hl. Qed.

Lemma disk_write_ok s (k : nat) b :
  (k < length (disk s))%nat → disk_write (Z.of_nat k) b s = Ok (tt, set_disk (<[k := b]> (disk s)) s).
Proof.
  intros Hk. unfold disk_write. rewrite Nat2Z.id. by destruct (lookup_lt_is_Some_2 _ _ Hk) as [x ->].
Qed.

(** Both ways to write a chunk overwrite its bytes. *)
Lemma write_chunk {B} (fail : st fs B) (k : bool → st fs B) s p i (n ofs rest w : Z) (sec o : nat) bounce buffer :
  inode_ok s p i → outcomes s = [] → 0 < brk s → ofs = Z.of_nat o → (sec < length (disk s))%nat →
  rest = 512 - ofs → 0 < n ≤ rest → 0 ≤ w → w + n ≤ Z.of_nat (length buffer) →
  ∃ d b bounce', brk s ≤ b ∧ sectors_ok d ∧ length d = length (disk s) ∧
    concat d = splice (concat (disk s)) (512 * sec + o) (take (Z.to_nat n) (drop (Z.to_nat w) buffer)) ∧
    (if (ofs =? 0) && (n =? DISK_SECTOR_SIZE) then
       bytes ← slice buffer w n; disk_write (Z.of_nat sec) bytes;; k bounce
     else
       ok ← get_bounce bounce;
       if negb ok then fail else
       old ← (if (0 <? ofs) || (n <? rest) then disk_read (Z.of_nat sec) else mret (replicate 512 0));
       bytes ← slice buffer w n;
       disk_write (Z.of_nat sec) (overwrite old ofs bytes);; k true) s
    = k bounce' (set_bytes s d b).
Proof.
  intros H Ho Hb -> Hsec -> Hn Hw Hwn. pose proof (io_sectors _ _ _ H) as Hd. pose proof (blocks_length _ _ Hd) as Hlen.
  set (bytes := take (Z.to_nat n) (drop (Z.to_nat w) buffer)).
  assert (Hbytes : length bytes = Z.to_nat n) by (unfold bytes; rewrite length_take, length_drop; lia).
  assert (Hslice : ∀ s, slice buffer w n s = Ok (bytes, s)).
  { intros s'. rewrite <- (slice_ok buffer (Z.to_nat w) (Z.to_nat n)) by lia. by rewrite !Z2Nat.id by lia. }
  set (old := take 512 (drop (512 * sec) (concat (disk s)))).
  assert (Hold : length old = 512%nat) by (unfold old; rewrite length_take, length_drop, Hlen; lia).
  destruct ((Z.of_nat o =? 0) && (n =? DISK_SECTOR_SIZE)) eqn:E.
  - apply andb_true_iff in E as [E1%Z.eqb_eq E2%Z.eqb_eq]. unfold DISK_SECTOR_SIZE in *.
    destruct (write_block 512 (disk s) sec bytes Hd Hsec ltac:(lia)) as [Hd' Hc].
    exists (<[sec := bytes]> (disk s)), (brk s), bounce. rewrite length_insert. split_and!; [done..| |].
    + rewrite Hc. f_equal. lia.
    + rewrite (st_bind_ok _ _ _ _ _ (Hslice s)), (st_bind_ok _ _ _ _ _ (disk_write_ok s sec bytes Hsec)).
      unfold set_bytes. by rewrite <- set_alloc_id by done.
  - destruct (get_bounce_ok s bounce Ho Hb) as (b & Hop & Hb').
    set (old' := if (0 <? Z.of_nat o) || (n <? 512 - Z.of_nat o) then old else replicate 512 0).
    assert (Hover : overwrite old' (Z.of_nat o) bytes = splice old o bytes).
    { unfold old', overwrite, splice. rewrite Nat2Z.id. destruct (Z.ltb_spec 0 (Z.of_nat o)); [done|].
      destruct (Z.ltb_spec n (512 - Z.of_nat o)); [done|]. cbn [orb]. assert (o = O) as -> by lia.
      rewrite !take_0, !drop_ge by (rewrite ?length_replicate; lia). done. }
    destruct (write_block 512 (disk s) sec (splice old o bytes) Hd Hsec) as [Hd' Hc]; [rewrite length_splice; lia|].
    exists (<[sec := splice old o bytes]> (disk s)), b, true. rewrite length_insert. split_and!; [done..| |].
    + rewrite Hc. unfold old. apply splice_block; lia.
    + rewrite (st_bind_ok _ _ _ _ _ Hop). cbn [negb]. rewrite (st_bind_ok _ _ _ old' (set_alloc [] b s)).
      * rewrite (st_bind_ok _ _ _ _ _ (Hslice _)), Hover.
        by rewrite (st_bind_ok _ _ _ _ _ (disk_write_ok (set_alloc [] b s) sec (splice old o bytes) Hsec)).
      * unfold old'. destruct (_ || _); [|done]. by rewrite disk_read_ok.
Qed.

Lemma write_loop_ok fuel p i buffer : ∀ s size offset bounce w,
  inode_ok s p i → outcomes s = [] → 0 < brk s → 0 ≤ size < Z.of_nat fuel → 0 ≤ offset < 2 ^ 31 →
  0 ≤ w → w + size ≤ Z.of_nat (length buffer) →
  ∃ d b, brk s ≤ b ∧ sectors_ok d ∧ length d = length (disk s) ∧
    concat d = splice (concat (disk s)) (first i + Z.to_nat offset)
                      (take (moved i size offset) (drop (Z.to_nat w) buffer)) ∧
    write_loop fuel p buffer size offset bounce w s = Ok (w + Z.of_nat (moved i size offset), set_bytes s d b).
Proof.
  induction fuel as [|fuel IH]; intros s size offset bounce w H Ho Hb Hf Hoff Hw Hwn; [lia|]. cbn [write_loop].
  assert (Hend : moved i size offset = O → ∃ d b, brk s ≤ b ∧ sectors_ok d ∧ length d = length (disk s) ∧
    concat d = splice (concat (disk s)) (first i + Z.to_nat offset)
                      (take (moved i size offset) (drop (Z.to_nat w) buffer)) ∧
    (mret w : st fs Z) s = Ok (w + Z.of_nat (moved i size offset), set_bytes s d b)).
  { intros ->. exists (disk s), (brk s). rewrite take_0, splice_nil, Z.add_0_r.
    split_and!; [done|apply (io_sectors _ _ _ H)|done|done|].
    unfold set_bytes. rewrite <- set_alloc_id by done. by destruct s. }
  destruct (Z.leb_spec size 0); [apply Hend; unfold moved; lia|].
  rewrite (get_inode_ok _ _ _ i) by done. pose proof (chunk_cases s p i size offset H) as Hc.
  destruct (chunk_of i size offset) as [[ofs rest] n].
  destruct Hc as [[Hlen Hn]|(sec & o & Hlt & -> & Hofs & Hrest & Hpos & Hsec & Ho512 & Hn & Hn1 & Hn2 & Hn3 & Hi32)]; [lia|done|..].
  { destruct (Z.leb_spec n 0); [|lia]. apply Hend. unfold moved. lia. }
  destruct (Z.leb_spec n 0); [lia|]. pose proof (io_length _ _ _ H) as Hil. pose proof (io_end _ _ _ H) as Hie.
  destruct (write_chunk (mret w) (λ bounce, write_loop fuel p buffer (size - n) (i32 (offset + n)) bounce (w + n))
    s p i n ofs rest w sec o bounce buffer) as (d1 & b1 & bounce' & Hb1 & Hd1 & Hl1 & Hc1 & Hrun); try done; [lia|].
  rewrite Hrun, Hi32.
  destruct (IH (set_bytes s d1 b1) (size - n) (offset + n) bounce' (w + n)) as (d & b & Hb2 & Hd & Hl & Hcat & Hrun2);
    [by apply inode_ok_disk|done|simpl; lia|lia..|].
  assert (Hm : moved i size offset = (Z.to_nat n + moved i (size - n) (offset + n))%nat) by (unfold moved; lia).
  exists d, b. split_and!; [simpl in *; lia|done|by rewrite Hl| |].
  - rewrite Hcat. cbn [set_bytes disk set_disk]. rewrite Hc1, Hpos, Hm.
    assert (Hn' : length (take (Z.to_nat n) (drop (Z.to_nat w) buffer)) = Z.to_nat n) by (rewrite length_take, length_drop; lia).
    replace (first i + Z.to_nat (offset + n))%nat
      with (first i + Z.to_nat offset + length (take (Z.to_nat n) (drop (Z.to_nat w) buffer)))%nat by lia.
    rewrite splice_app.
    + f_equal. rewrite <- take_add, drop_drop. do 3 f_equal. lia.
    + rewrite Hn', length_take, (blocks_length _ _ (io_sectors _ _ _ H)). unfold first, moved. pose proof (io_start _ _ _ H). lia.
  - rewrite Hrun2. f_equal. f_equal. lia.
Qed.

Lemma write_at_ok s p i buffer size offset :
  inode_ok s p i → deny_write_cnt i = 0 → outcomes s = [] → 0 < brk s → 0 ≤ size → 0 ≤ offset < 2 ^ 31 →
  size ≤ Z.of_nat (length buffer) →
  ∃ d b, brk s ≤ b ∧ sectors_ok d ∧ length d = length (disk s) ∧
    concat d = splice (concat (disk s)) (first i + Z.to_nat offset) (take (moved i size offset) buffer) ∧
    inode_write_at p buffer size offset s = Ok (Z.of_nat (moved i size offset), set_bytes s d b).
Proof.
  intros H Hdeny Ho Hb Hs Hoff Hlen. unfold inode_write_at.
  rewrite (st_bind_ok _ _ _ i s) by (unfold get_inode; by rewrite (io_at _ _ _ H)). rewrite Hdeny. cbn [Z.eqb negb].
  apply (write_loop_ok (S (Z.to_nat size)) p i buffer s size offset false 0); done || lia.
Qed.

(** The bytes of the file itself, and of one that does not overlap it. *)
Lemma content_written s p i d b size offset buffer :
  inode_ok s p i → 0 ≤ offset → size ≤ Z.of_nat (length buffer) →
  concat d = splice (concat (disk s)) (first i + Z.to_nat offset) (take (moved i size offset) buffer) →
  content (set_bytes s d b) i = splice (content s i) (Z.to_nat offset) (take (moved i size offset) buffer).
Proof.
  intros H Hoff Hlen Hc. pose proof (io_length _ _ _ H). pose proof (io_end _ _ _ H). pose proof (io_start _ _ _ H).
  pose proof (content_length s p i H) as Hcl. pose proof (blocks_length _ _ (io_sectors _ _ _ H)) as Hfl.
  destruct (decide (moved i size offset = O)) as [E|E].
  { rewrite E, take_0, splice_nil in *. unfold content. cbn [set_bytes disk set_disk]. by rewrite Hc. }
  assert (Hm : length (take (moved i size offset) buffer) = moved i size offset) by (rewrite length_take; unfold moved in *; lia).
  apply list_eq. intros j. rewrite splice_lookup by (unfold moved in *; lia). unfold content. cbn [set_bytes disk set_disk].
  destruct (decide (j < Z.to_nat (i_length (data i)))%nat) as [Hj|Hj].
  - rewrite !lookup_take_lt, !lookup_drop by done. rewrite Hc, splice_lookup by (unfold first, moved in *; lia).
    rewrite Hm. repeat case_decide; try lia; [f_equal; lia|].
    by rewrite lookup_take_lt, lookup_drop by done.
  - rewrite lookup_take_ge by lia. rewrite decide_False by (unfold moved in *; lia). by rewrite lookup_take_ge by lia.
Qed.

Definition apart (i j : inode) : Prop :=
  (first i + Z.to_nat (i_length (data i)) ≤ first j ∨ first j + Z.to_nat (i_length (data j)) ≤ first i)%nat.

Lemma content_apart s p i q j d b size offset buffer :
  inode_ok s p i → inode_ok s q j → apart i j → 0 ≤ offset → size ≤ Z.of_nat (length buffer) →
  concat d = splice (concat (disk s)) (first i + Z.to_nat offset) (take (moved i size offset) buffer) →
  content (set_bytes s d b) j = content s j.
Proof.
  intros H Hj Ha Hoff Hlen Hc. pose proof (io_length _ _ _ H). pose proof (io_end _ _ _ H). pose proof (io_start _ _ _ H).
  pose proof (blocks_length _ _ (io_sectors _ _ _ H)) as Hfl.
  destruct (decide (moved i size offset = O)) as [E|E].
  { rewrite E, take_0, splice_nil in *. unfold content. cbn [set_bytes disk set_disk]. by rewrite Hc. }
  assert (Hm : length (take (moved i size offset) buffer) = moved i size offset) by (rewrite length_take; unfold moved in *; lia).
  apply list_eq. intros k. unfold content. cbn [set_bytes disk set_disk].
  destruct (decide (k < Z.to_nat (i_length (data j)))%nat) as [Hk|Hk]; [|by rewrite !lookup_take_ge by lia].
  rewrite !lookup_take_lt, !lookup_drop by done. rewrite Hc, splice_lookup by (unfold first, moved in *; lia).
  rewrite decide_False; [done|]. unfold apart, first, moved in *. lia.
Qed.

(** ** What an operation may change *)

Lemma sector_byte (d : list (list Z)) n :
  sectors_ok d → concat d !! n = d !! (n / 512)%nat ≫= λ b, b !! (n mod 512)%nat.
Proof.
  intros Hd. revert n. induction Hd as [|b d Hb _ IH]; intros n; [done|]. cbn [concat].
  destruct (decide (n < 512)%nat) as [Hn|Hn].
  - rewrite lookup_app_l, Nat.div_small, Nat.mod_small by lia. done.
  - assert (∃ m, n = (m + 1 * 512)%nat) as [m ->] by (exists (n - 512)%nat; lia).
    rewrite lookup_app_r, Hb, Nat.div_add, Nat.Div0.mod_add, Nat.add_1_r by lia.
    replace (m + 1 * 512 - 512)%nat with m by lia. apply IH.
Qed.

(** The sectors of an inode's data. *)
Definition holds (i : inode) (k : nat) : Prop :=
  (first i ≤ 512 * k < first i + Z.to_nat (i_length (data i)))%nat.

(** From [s] to [s'] sectors in [R] may have changed, the free map's bits may
    have, and memory may have been allocated; nothing else. *)
Record frame (R : nat → Prop) (s s' : fs) : Prop := {
  fr_inodes : inodes s' = inodes s;
  fr_open : open_inodes s' = open_inodes s;
  fr_files : files s' = files s;
  fr_dirs : dirs s' = dirs s;
  fr_map : free_map s' = free_map s;
  fr_map_file : free_map_file s' = free_map_file s;
  fr_outcomes : outcomes s' = [];
  fr_brk : brk s ≤ brk s';
  fr_sectors : sectors_ok (disk s');
  fr_length : length (disk s') = length (disk s);
  fr_same : ∀ k, ¬ R k → disk s' !! k = disk s !! k }.

Lemma frame_weaken (R R' : nat → Prop) s s' : (∀ k, R k → R' k) → frame R s s' → frame R' s s'.
Proof. intros HR []. split; try done. eauto. Qed.

Lemma frame_then R s1 s2 s3 : frame R s1 s2 → frame R s2 s3 → frame R s1 s3.
Proof.
  intros [] []. split; try congruence; [lia|]. intros k Hk. rewrite fr_same1, fr_same0 by done. done.
Qed.

Lemma frame_alloc R s b : sectors_ok (disk s) → brk s ≤ b → frame R s (set_alloc [] b s).
Proof. intros. by split. Qed.

Lemma frame_inode R s s' q i : frame R s s' → inode_ok s q i → inode_ok s' q i.
Proof. intros [] []. split; try done; rewrite ?fr_length0, ?fr_inodes0; done. Qed.

Lemma frame_content R s s' q i :
  frame R s s' → inode_ok s q i → (∀ k, holds i k → ¬ R k) → content s' i = content s i.
Proof.
  intros Hf Hi HR. apply list_eq. intros j. unfold content.
  destruct (decide (j < Z.to_nat (i_length (data i)))%nat) as [Hj|Hj]; [|by rewrite !lookup_take_ge by lia].
  rewrite !lookup_take_lt, !lookup_drop by done.
  rewrite !sector_byte by (apply (fr_sectors _ _ _ Hf) || apply (io_sectors _ _ _ Hi)).
  rewrite (fr_same _ _ _ Hf); [done|]. apply HR. unfold holds, first.
  replace (512 * Z.to_nat (i_start (data i)) + j)%nat with (j + Z.to_nat (i_start (data i)) * 512)%nat by lia.
  rewrite Nat.div_add by lia. pose proof (Nat.div_mod_eq j 512). lia.
Qed.

(** A write changes only sectors of the file. *)
Lemma frame_write s q i d b size offset buffer :
  inode_ok s q i → brk s ≤ b → 0 ≤ offset → sectors_ok d → length d = length (disk s) → size ≤ Z.of_nat (length buffer) →
  concat d = splice (concat (disk s)) (first i + Z.to_nat offset) (take (moved i size offset) buffer) →
  frame (holds i) s (set_bytes s d b).
Proof.
  intros Hi Hb Ho Hd Hl Hs Hc. split; try done. intros k Hk. cbn [set_bytes set_disk disk].
  destruct (decide (k < length d)%nat) as [Hkd|]; [|by rewrite !lookup_ge_None_2 by lia].
  destruct (lookup_lt_is_Some_2 d k Hkd) as [x Hx]. destruct (lookup_lt_is_Some_2 (disk s) k) as [y Hy]; [lia|].
  rewrite Hx, Hy. f_equal. rewrite (block_bytes 512 d k x Hd Hx), (block_bytes 512 _ k y (io_sectors _ _ _ Hi) Hy), Hc.
  pose proof (blocks_length 512 _ (io_sectors _ _ _ Hi)). pose proof (io_end _ _ _ Hi). pose proof (io_start _ _ _ Hi).
  pose proof (io_length _ _ _ Hi). destruct (decide (moved i size offset = O)) as [E|E]; [by rewrite E, take_0, splice_nil|].
  assert (Hm : length (take (moved i size offset) buffer) = moved i size offset) by (rewrite length_take; unfold moved in *; lia).
  apply list_eq. intros j. destruct (decide (j < 512)%nat); [|by rewrite !lookup_take_ge by lia].
  rewrite !lookup_take_lt, !lookup_drop by done. rewrite splice_lookup by (unfold first, moved in *; lia).
  rewrite decide_False; [done|]. rewrite Hm. unfold holds, first, moved in *. lia.
Qed.

(** ** Theorems *)

(** C20: writing to an inode and reading it back.  With memory for the bounce
    buffer, [inode_write_at] at any offset returns the number of bytes that
    fit before the end of the file, leaves these bytes and no others of the
    file changed, and leaves every file on other sectors as it was;
    [inode_read_at] of any range then returns exactly the bytes of the file. *)
Theorem inode_write_read s p i buffer size offset :
  inode_ok s p i → deny_write_cnt i = 0 → outcomes s = [] → 0 < brk s →
  0 ≤ size ≤ Z.of_nat (length buffer) → 0 ≤ offset < 2 ^ 31 →
  ∃ n s', inode_write_at p buffer size offset s = Ok (Z.of_nat n, s') ∧
    n = Z.to_nat (Z.min size (i_length (data i) - offset)) ∧
    content s' i = splice (content s i) (Z.to_nat offset) (take n buffer) ∧
    (∀ q j, inode_ok s q j → apart i j → content s' j = content s j) ∧
    ∀ size' offset', 0 ≤ size' → 0 ≤ offset' < 2 ^ 31 →
      ∃ s'', inode_read_at p size' offset' s'
             = Ok (take (Z.to_nat size') (drop (Z.to_nat offset') (content s' i)), s'') ∧ disk s'' = disk s'.
Proof.
  intros H Hdeny Ho Hb Hs Hoff.
  destruct (write_at_ok s p i buffer size offset) as (d & b & Hb' & Hd & Hl & Hc & Hrun); [done..|lia|done|lia|].
  exists (moved i size offset), (set_bytes s d b). split_and!; [done|done|..].
  - apply (content_written s p); done || lia.
  - intros q j Hj Ha. apply (content_apart s p i q j d b size offset buffer); done || lia.
  - intros size' offset' Hs' Ho'.
    destruct (read_at_ok (set_bytes s d b) p i size' offset') as (b2 & _ & Hr); try done; [by apply inode_ok_disk|simpl; lia|].
    exists (set_alloc [] b2 (set_bytes s d b)). done.
Qed.

Definition demo_inode : inode := MkInode 3 1 false 0 (InodeDisk 4 1300 INODE_MAGIC).
Definition demo_fs : fs :=
  Fs (replicate 8 (replicate 512 7)) {[ 100 := demo_inode ]} [100] ∅ ∅ ∅ 0 0 [] 200.

Lemma demo_inode_ok : inode_ok demo_fs 100 demo_inode.
Proof.
  split; try done; simpl; try lia.
  repeat (apply Forall_cons; split; [done|]). constructor.
Qed.

Lemma inode_write_read_witness :
  ∃ n s', inode_write_at 100 (replicate 700 1) 700 500 demo_fs = Ok (Z.of_nat n, s') ∧ n = 700%nat ∧
    content s' demo_inode = splice (content demo_fs demo_inode) 500 (replicate 700 1).
Proof.
  destruct (inode_write_read demo_fs 100 demo_inode (replicate 700 1) 700 500 demo_inode_ok) as (n & s' & H1 & H2 & H3 & _);
    [done|done|done|rewrite length_replicate; lia|lia|].
  exists n, s'. split; [exact H1|]. split; [exact H2|]. rewrite H3, H2. reflexivity.
Defined.

End InodeTheorems.
