(* ===== verification/FileSys.v ===== *)
(** filesys/free-map.c, filesys/file.c and the rest of filesys/inode.c: the
    free map, the life of inodes, and open files; with the file input and
    output of lib/kernel/bitmap.c. *)
From S2P Require Import Prelude Bitmap Stdio Inode.
Import Bitmap Inode.
Local Open Scope Z_scope.

Module FileSys.

Definition FREE_MAP_SECTOR : Z := 0.
Definition ROOT_DIR_SECTOR : Z := 1.

Definition set_files (m : gmap Z file) (s : fs) : fs :=
  Fs (disk s) (inodes s) (open_inodes s) m (dirs s) (bitmaps s) (free_map s) (free_map_file s) (outcomes s) (brk s).
Definition set_free_map (b f : Z) (s : fs) : fs :=
  Fs (disk s) (inodes s) (open_inodes s) (files s) (dirs s) (bitmaps s) b f (outcomes s) (brk s).
Definition set_bitmaps (m : bmem) (s : fs) : fs :=
  Fs (disk s) (inodes s) (open_inodes s) (files s) (dirs s) m (free_map s) (free_map_file s) (outcomes s) (brk s).

Definition on_bitmaps {B} (op : st bmem B) : st fs B := λ s,
  match op (bitmaps s) with Ok (b, m) => Ok (b, set_bitmaps m s) | Err e => Err e end.

Definition get_file (p : Z) : st fs file := λ s,
  match files s !! p with Some f => Ok (f, s) | None => Err BadAddr end.
Definition put_file (p : Z) (f : file) : st fs unit := st_modify (λ s, set_files (<[p := f]> (files s)) s).

Definition free_file (p : Z) : st fs unit := st_modify (λ s, set_files (delete p (files s)) s).
Definition free_inode (p : Z) : st fs unit :=
  st_modify (λ s, set_inodes (delete p (inodes s)) (open_inodes s) s).

(** ** file.c: transfers *)

Definition file_read_at (p size file_ofs : Z) : st fs (list Z) :=
  f ← get_file p; inode_read_at (f_inode f) size file_ofs.

Definition file_write_at (p : Z) (buffer : list Z) (size file_ofs : Z) : st fs Z :=
  f ← get_file p; inode_write_at (f_inode f) buffer size file_ofs.

Definition file_read (p size : Z) : st fs (list Z) :=
  f ← get_file p;
  bytes ← inode_read_at (f_inode f) size (f_pos f);
  put_file p (File (f_inode f) (i32 (f_pos f + Z.of_nat (length bytes))) (deny_write f));;
  mret bytes.

Definition file_write (p : Z) (buffer : list Z) (size : Z) : st fs Z :=
  f ← get_file p;
  n ← inode_write_at (f_inode f) buffer size (f_pos f);
  put_file p (File (f_inode f) (i32 (f_pos f + n)) (deny_write f));;
  mret n.

(** ** bitmap.c: file input and output; words are stored little-endian *)

Definition le64 (w : Z) : list Z := le32 (u32 w) ++ le32 (Z.shiftr w 32).

Definition bytes_of (words : list Z) : list Z := concat (le64 <$> words).

Fixpoint words_of (n : nat) (bytes : list Z) : list Z :=
  match n with O => [] | S n => of_le (take 8 bytes) :: words_of n (drop 8 bytes) end.

Definition bitmap_file_size (b : Z) : st fs Z :=
  n ← on_bitmaps (bitmap_size b); mret (byte_cnt n).

Definition bitmap_write (b file : Z) : st fs bool :=
  bm ← on_bitmaps (get_bitmap b);
  let size := i32 (byte_cnt (bit_cnt bm)) in
  n ← file_write_at file (bytes_of (bits bm)) size 0;
  mret (n =? size).

Definition bitmap_read (b file : Z) : st fs bool :=
  bm ← on_bitmaps (get_bitmap b);
  if 0 <? bit_cnt bm then
    let size := i32 (byte_cnt (bit_cnt bm)) in
    bytes ← file_read_at file size 0;
    let words := words_of (length (bits bm)) (overwrite (bytes_of (bits bm)) 0 bytes) in
    on_bitmaps (st_modify (<[b := MkBitmap (bit_cnt bm) words]>));;
    let last := elem_cnt (bit_cnt bm) - 1 in
    w ← on_bitmaps (get_elem b last);
    on_bitmaps (set_elem b last (Z.land w (last_mask bm)));;
    mret (Z.of_nat (length bytes) =? size)
  else mret true.

(** What is printed. *)
Definition bitmap_dump (b : Z) : st fs (list Z) :=
  bm ← on_bitmaps (get_bitmap b);
  match Stdio.hex_dump 0 (bytes_of (bits bm)) (byte_cnt (bit_cnt bm)) false with Ok l => mret l | Err e => st_err e end.

(** ** free-map.c *)

(** Returns the sector, [None] for false. *)
Definition free_map_allocate (cnt : Z) : st fs (option Z) :=
  map ← st_gets free_map; file ← st_gets free_map_file;
  idx ← on_bitmaps (bitmap_scan_and_flip map 0 cnt false);
  let sector := u32 idx in
  if sector =? BITMAP_ERROR then mret None else
  ok ← (if file =? NULL then mret true else bitmap_write map file);
  if ok : bool then mret (Some sector)
  else on_bitmaps (bitmap_set_multiple map sector cnt false);; mret None.

Definition free_map_release (sector cnt : Z) : st fs unit :=
  map ← st_gets free_map; file ← st_gets free_map_file;
  all ← on_bitmaps (bitmap_all map sector cnt);
  ASSERT all;;
  on_bitmaps (bitmap_set_multiple map sector cnt false);;
  bitmap_write map file;; mret tt.

(** [bitmap_create] with the two allocations it makes. *)
Definition bitmap_new (n : Z) : st fs Z :=
  b ← malloc;
  if b =? NULL then mret NULL else
  block ← malloc;
  on_bitmaps (bitmap_create b (if block =? NULL then None else Some (replicate (Z.to_nat (elem_cnt n)) 0)) n).

Definition free_map_init : st fs unit :=
  n ← st_gets (λ s, Z.of_nat (length (disk s)));
  b ← bitmap_new n;
  f ← st_gets free_map_file;
  st_modify (set_free_map b f);;
  if b =? NULL then st_err PanicCall else
  on_bitmaps (bitmap_mark b FREE_MAP_SECTOR);;
  on_bitmaps (bitmap_mark b ROOT_DIR_SECTOR).

(** ** inode.c: creation, opening and closing *)

(** [for (i = 0; i < sectors; i++) disk_write (filesys_disk, start + i, zeros)] *)
Fixpoint zero_sectors (k : nat) (sec : Z) : st fs unit :=
  match k with
  | O => mret tt
  | S k => disk_write (u32 sec) (replicate 512 0);; zero_sectors k (sec + 1)
  end.

Definition inode_create (sector length : Z) : st fs bool :=
  ASSERT (0 <=? length);;
  p ← malloc;
  if p =? NULL then mret false else
  let sectors := bytes_to_sectors length in
  o ← free_map_allocate sectors;
  match o with
  | None => mret false
  | Some start =>
    disk_write sector (encode_inode (InodeDisk start length INODE_MAGIC));;
    zero_sectors (Z.to_nat sectors) start;;
    mret true
  end.

(** The loop over [open_inodes]. *)
Fixpoint find_open (l : list Z) (sec : Z) : st fs (option Z) :=
  match l with
  | [] => mret None
  | p :: l => i ← get_inode p; if sector i =? sec then mret (Some p) else find_open l sec
  end.

Definition inode_open (sec : Z) : st fs Z :=
  l ← st_gets open_inodes;
  o ← find_open l sec;
  match o with
  | Some p => inode_reopen p
  | None =>
    p ← malloc;
    if p =? NULL then mret NULL else
    st_modify (λ s, set_inodes (inodes s) (p :: open_inodes s) s);;
    bytes ← disk_read sec;
    put_inode p (MkInode sec 1 false 0 (decode_inode bytes));;
    mret p
  end.

Definition inode_close (p : Z) : st fs unit :=
  if p =? NULL then mret tt else
  i ← get_inode p;
  let n := i32 (open_cnt i - 1) in
  put_inode p (MkInode (sector i) n (removed i) (deny_write_cnt i) (data i));;
  if n =? 0 then
    st_modify (λ s, set_inodes (inodes s) (filter (λ q, q ≠ p) (open_inodes s)) s);;
    (if removed i then
       free_map_release (sector i) 1;;
       free_map_release (i_start (data i)) (bytes_to_sectors (i_length (data i)))
     else mret tt);;
    free_inode p
  else mret tt.

(** ** file.c: opening and closing *)

Definition file_open (inode : Z) : st fs Z :=
  p ← malloc;
  if negb (inode =? NULL) && negb (p =? NULL) then
    put_file p (File inode 0 false);; mret p
  else inode_close inode;; free_file p;; mret NULL.

Definition file_reopen (p : Z) : st fs Z :=
  f ← get_file p; i ← inode_reopen (f_inode f); file_open i.

Definition file_deny_write (p : Z) : st fs unit :=
  ASSERT (negb (p =? NULL));;
  f ← get_file p;
  if negb (deny_write f) then
    put_file p (File (f_inode f) (f_pos f) true);; inode_deny_write (f_inode f)
  else mret tt.

Definition file_allow_write (p : Z) : st fs unit :=
  ASSERT (negb (p =? NULL));;
  f ← get_file p;
  if deny_write f then
    put_file p (File (f_inode f) (f_pos f) false);; inode_allow_write (f_inode f)
  else mret tt.

Definition file_close (p : Z) : st fs unit :=
  if p =? NULL then mret tt else
  file_allow_write p;;
  f ← get_file p; inode_close (f_inode f);; free_file p.

Definition file_get_inode (p : Z) : st fs Z := f ← get_file p; mret (f_inode f).

Definition file_length (p : Z) : st fs Z :=
  ASSERT (negb (p =? NULL));; f ← get_file p; inode_length (f_inode f).

Definition file_seek (p new_pos : Z) : st fs unit :=
  ASSERT (negb (p =? NULL));; ASSERT (0 <=? new_pos);;
  f ← get_file p; put_file p (File (f_inode f) new_pos (deny_write f)).

Definition file_tell (p : Z) : st fs Z :=
  ASSERT (negb (p =? NULL));; f ← get_file p; mret (f_pos f).

(** ** free-map.c: the free map's file *)

Definition set_free_map_file (f : Z) : st fs unit := st_modify (λ s, set_free_map (free_map s) f s).

Definition free_map_open : st fs unit :=
  i ← inode_open FREE_MAP_SECTOR; f ← file_open i;
  set_free_map_file f;;
  if f =? NULL then st_err PanicCall else
  map ← st_gets free_map;
  ok ← bitmap_read map f;
  if ok : bool then mret tt else st_err PanicCall.

Definition free_map_close : st fs unit := f ← st_gets free_map_file; file_close f.

Definition free_map_create : st fs unit :=
  map ← st_gets free_map;
  size ← bitmap_file_size map;
  ok ← inode_create FREE_MAP_SECTOR (i32 size);
  if negb ok then st_err PanicCall else
  i ← inode_open FREE_MAP_SECTOR; f ← file_open i;
  set_free_map_file f;;
  if f =? NULL then st_err PanicCall else
  ok ← bitmap_write map f;
  if ok : bool then mret tt else st_err PanicCall.

End FileSys.
