(* ===== verification/FileSysTheorems.v ===== *)
(** filesys/free-map.c and filesys/file.c: the free map survives its way to
    disk and back, an inode is opened once however often it is opened, and a
    denied write changes nothing. *)
From S2P Require Import Prelude Bitmap BitmapTheorems Inode InodeTheorems FileSys.
Import Bitmap BitmapTheorems Inode InodeTheorems FileSys.
Local Open Scope Z_scope.

Module FileSysTheorems.

(** ** Words as bytes *)

Lemma of_le_cons b l : of_le (b :: l) = b + 256 * of_le l.
Proof. done. Qed.

Lemma of_le_app l1 l2 : of_le (l1 ++ l2) = of_le l1 + 256 ^ Z.of_nat (length l1) * of_le l2.
Proof.
  induction l1 as [|b l1 IH]; [unfold of_le; simpl; lia|]. cbn [app]. rewrite !of_le_cons, IH. cbn [length].
  rewrite Nat2Z.inj_succ, Z.pow_succ_r by lia. lia.
Qed.

Lemma of_le64 w : 0 ≤ w < 2 ^ 64 → of_le (le64 w) = w.
Proof.
  intros Hw. unfold le64. rewrite of_le_app. change (length (le32 (u32 w))) with 4%nat.
  rewrite (le32_decode (u32 w)) by apply u32_range. rewrite Z.shiftr_div_pow2 by lia.
  rewrite le32_decode by (split; [apply Z.div_pos|apply Z.div_lt_upper_bound]; lia).
  unfold u32. change (256 ^ Z.of_nat 4) with (2 ^ 32). pose proof (Z.div_mod w (2 ^ 32)). lia.
Qed.

Lemma bytes_length ws : length (bytes_of ws) = (8 * length ws)%nat.
Proof. induction ws as [|w ws IH]; [done|]. unfold bytes_of in *. cbn [fmap list_fmap concat]. rewrite length_app, IH. cbn [length]. change (length (le64 w)) with 8%nat. lia. Qed.

Lemma words_bytes ws rest :
  Forall (λ w, 0 ≤ w < 2 ^ 64) ws → words_of (length ws) (bytes_of ws ++ rest) = ws.
Proof.
  induction 1 as [|w ws Hw _ IH]; [done|]. unfold bytes_of in *. cbn [fmap list_fmap concat length words_of].
  rewrite <- app_assoc, take_app_length' by done. rewrite drop_app_length' by done. by rewrite of_le64, IH.
Qed.

(** ** Masking the bits after the last one *)

Lemma last_index (bm : bitmap) l i :
  rep bm l → (i < length l)%nat → (i / 64)%nat = Z.to_nat (elem_cnt (bit_cnt bm) - 1) →
  Z.testbit (last_mask bm) (Z.of_nat (i mod 64)) = true.
Proof.
  intros R Hi He. pose proof (rep_len _ _ R) as Hl. pose proof (rep_max _ _ R) as Hm. unfold last_mask, ELEM_BITS in *.
  unfold elem_cnt, ELEM_BITS in He. rewrite u64_small in He by lia.
  pose proof (Nat.mod_upper_bound i 64 ltac:(lia)) as Hi64. pose proof (Nat.div_mod_eq i 64) as Hid.
  pose proof (Z.div_mod (bit_cnt bm) 64) as Hd. pose proof (Z.mod_pos_bound (bit_cnt bm) 64).
  destruct (Z.eqb_spec (bit_cnt bm mod 64) 0) as [E|E].
  - change (u64 (-1)) with (Z.ones 64). apply Z.ones_spec_low. lia.
  - rewrite Z.shiftl_1_l, u64_small.
    + change (2 ^ (bit_cnt bm mod 64) - 1) with (Z.pred (2 ^ (bit_cnt bm mod 64))).
      rewrite <- Z.ones_equiv. apply Z.ones_spec_low. split; [lia|].
      replace (bit_cnt bm + 64 - 1) with (bit_cnt bm mod 64 - 1 + (bit_cnt bm / 64 + 1) * 64) in He by lia.
      rewrite Z.div_add, (Z.div_small (_ - 1)) in He by lia. lia.
    + assert (2 ^ (bit_cnt bm mod 64) ≤ 2 ^ 63) by (apply Z.pow_le_mono_r; lia).
      pose proof (Z.pow_pos_nonneg 2 (bit_cnt bm mod 64)). lia.
Qed.

Lemma rep_masked bm l w :
  rep bm l → 0 < bit_cnt bm → bits bm !! Z.to_nat (elem_cnt (bit_cnt bm) - 1) = Some w →
  rep (MkBitmap (bit_cnt bm) (<[Z.to_nat (elem_cnt (bit_cnt bm) - 1) := Z.land w (last_mask bm)]> (bits bm))) l.
Proof.
  intros R Hpos Hw. destruct (R) as [R1 R2 R3 R4 R5]. split; cbn [bits bit_cnt]; try done.
  - by rewrite length_insert.
  - apply Forall_insert; [done|]. rewrite Forall_lookup in R4. pose proof (R4 _ _ Hw) as Hr.
    split; [apply Z.land_nonneg; lia|].
    replace (Z.land w (last_mask bm)) with (Z.land w (last_mask bm) mod 2 ^ 64); [apply Z.mod_pos_bound; lia|].
    rewrite <- Z.land_ones, <- Z.land_assoc, (Z.land_comm (last_mask bm)), Z.land_assoc by lia.
    by rewrite (Z.land_ones w), Z.mod_small by lia.
  - intros i Hi. rewrite (R5 i Hi). f_equal. unfold word_bit. cbn [bits].
    destruct (decide ((i / 64)%nat = Z.to_nat (elem_cnt (bit_cnt bm) - 1))) as [E|E].
    + pose proof (last_index bm l i R Hi E) as Hmask. rewrite E.
      rewrite list_lookup_insert_eq by (by apply lookup_lt_Some in Hw). rewrite Hw. simpl default.
      by rewrite Z.land_spec, Hmask, andb_true_r.
    + by rewrite list_lookup_insert_ne by done.
Qed.

Lemma rep_byte_cnt bm l : rep bm l → byte_cnt (bit_cnt bm) = 8 * Z.of_nat (length (bits bm)).
Proof.
  intros R. rewrite (rep_elems _ _ R). unfold byte_cnt. apply u64_small. unfold elem_cnt, ELEM_BITS.
  pose proof (rep_max _ _ R). pose proof (rep_len _ _ R). rewrite u64_small by lia.
  pose proof (Z.div_mod (bit_cnt bm + 64 - 1) 64). pose proof (Z.mod_pos_bound (bit_cnt bm + 64 - 1) 64).
  assert (0 ≤ (bit_cnt bm + 64 - 1) / 64) by (apply Z.div_pos; lia). lia.
Qed.

Lemma rep_words_pos bm l : rep bm l → l ≠ [] → 0 < bit_cnt bm ∧ (0 < length (bits bm))%nat.
Proof.
  intros R Hl. pose proof (rep_len _ _ R). pose proof (rep_elems _ _ R) as He. pose proof (rep_max _ _ R).
  assert (0 < length l)%nat by (destruct l; simpl; [done|lia]). split; [lia|].
  unfold elem_cnt, ELEM_BITS in He. rewrite u64_small in He by lia.
  assert (1 ≤ (bit_cnt bm + 64 - 1) / 64) by (apply Z.div_le_lower_bound; lia). lia.
Qed.

Lemma file_write_run s f q pos dw buffer size ofs :
  files s !! f = Some (File q pos dw) → file_write_at f buffer size ofs s = inode_write_at q buffer size ofs s.
Proof. intros Hf. unfold file_write_at. rewrite (st_bind_ok _ _ _ (File q pos dw) s); [done|]. unfold get_file. by rewrite Hf. Qed.

Lemma file_read_run s f q pos dw size ofs :
  files s !! f = Some (File q pos dw) → file_read_at f size ofs s = inode_read_at q size ofs s.
Proof. intros Hf. unfold file_read_at. rewrite (st_bind_ok _ _ _ (File q pos dw) s); [done|]. unfold get_file. by rewrite Hf. Qed.

Lemma get_bitmap_run s b bm : bitmaps s !! b = Some bm → on_bitmaps (get_bitmap b) s = Ok (bm, s).
Proof. intros Hb. unfold on_bitmaps, get_bitmap. rewrite Hb. by destruct s. Qed.

(** Writing a bitmap: the disk afterwards. *)
Lemma bitmap_write_run s b f q pos dw i bm l :
  bitmaps s !! b = Some bm → rep bm l → files s !! f = Some (File q pos dw) → inode_ok s q i → deny_write_cnt i = 0 →
  outcomes s = [] → 0 < brk s → byte_cnt (bit_cnt bm) ≤ i_length (data i) →
  let size := 8 * Z.of_nat (length (bits bm)) in
  Z.of_nat (length (bytes_of (bits bm))) = size ∧ moved i size 0 = Z.to_nat size ∧
  ∃ d brk', brk s ≤ brk' ∧ sectors_ok d ∧ length d = length (disk s) ∧
    concat d = splice (concat (disk s)) (first i + Z.to_nat 0) (take (moved i size 0) (bytes_of (bits bm))) ∧
    bitmap_write b f s = Ok (true, set_bytes s d brk').
Proof.
  intros Hm R Hf Hi Hdeny Ho Hbrk Hsize size. rewrite (rep_byte_cnt bm l R) in Hsize. fold size in Hsize.
  pose proof (io_length _ _ _ Hi) as Hil.
  assert (Hbytes : length (bytes_of (bits bm)) = Z.to_nat size) by (rewrite bytes_length; unfold size; lia).
  assert (Hmv : moved i size 0 = Z.to_nat size) by (unfold moved; lia). split; [lia|]. split; [done|].
  destruct (write_at_ok s q i (bytes_of (bits bm)) size 0) as (d & brk1 & Hbrk1 & Hd & Hdl & Hcat & Hrun);
    [done..|lia|lia|rewrite Hbytes; lia|].
  exists d, brk1. do 4 (split; [done|]). rewrite Hmv in Hrun.
  unfold bitmap_write. rewrite (st_bind_ok _ _ _ _ _ (get_bitmap_run s b bm Hm)).
  rewrite (rep_byte_cnt bm l R). fold size. rewrite i32_small by lia.
  rewrite (st_bind_ok _ _ _ (Z.of_nat (Z.to_nat size)) (set_bytes s d brk1)) by (by rewrite (file_write_run _ _ _ _ _ _ _ _ Hf)).
  rewrite Z2Nat.id by lia. by rewrite Z.eqb_refl.
Qed.

Lemma bitmap_write_ok s b f q pos dw i bm l :
  bitmaps s !! b = Some bm → rep bm l → files s !! f = Some (File q pos dw) → inode_ok s q i → deny_write_cnt i = 0 →
  outcomes s = [] → 0 < brk s → byte_cnt (bit_cnt bm) ≤ i_length (data i) →
  ∃ d brk', brk s ≤ brk' ∧ bitmap_write b f s = Ok (true, set_bytes s d brk') ∧ inode_ok (set_bytes s d brk') q i ∧
    content (set_bytes s d brk') i = splice (content s i) 0 (bytes_of (bits bm)).
Proof.
  intros Hm R Hf Hi Hdeny Ho Hbrk Hsize.
  destruct (bitmap_write_run s b f q pos dw i bm l Hm R Hf Hi Hdeny Ho Hbrk Hsize)
    as (Hbytes & Hmv & d & brk1 & Hbrk1 & Hd & Hdl & Hcat & Hrun).
  exists d, brk1. split; [done|]. split; [done|]. split; [by apply inode_ok_disk|].
  rewrite (content_written s q i d brk1 (8 * Z.of_nat (length (bits bm))) 0 (bytes_of (bits bm)) Hi ltac:(lia) ltac:(lia) Hcat).
  by rewrite Hmv, take_ge by lia.
Qed.

(** Reading a bitmap from a file that starts with the words of [bm]. *)
Lemma bitmap_read_ok s b f q pos dw i bm bm' l rest w :
  bitmaps s !! b = Some bm' → bit_cnt bm' = bit_cnt bm → length (bits bm') = length (bits bm) →
  rep bm l → 0 < bit_cnt bm → bits bm !! Z.to_nat (elem_cnt (bit_cnt bm) - 1) = Some w →
  files s !! f = Some (File q pos dw) → inode_ok s q i → outcomes s = [] → 0 < brk s →
  content s i = bytes_of (bits bm) ++ rest →
  ∃ brk', bitmap_read b f s = Ok (true, set_bitmaps
    (<[b := MkBitmap (bit_cnt bm) (<[Z.to_nat (elem_cnt (bit_cnt bm) - 1) := Z.land w (last_mask bm)]> (bits bm))]> (bitmaps s))
    (set_alloc [] brk' s)).
Proof.
  intros Hm' Hcnt Hwl R Hpos Hw Hf Hi Ho Hbrk Hcont. pose proof (io_length _ _ _ Hi) as Hil.
  set (size := 8 * Z.of_nat (length (bits bm))).
  assert (Hbytes : length (bytes_of (bits bm)) = Z.to_nat size) by (rewrite bytes_length; unfold size; lia).
  assert (Hsize : size ≤ i_length (data i)).
  { pose proof (content_length s q i Hi) as Hcl. rewrite Hcont, length_app, Hbytes in Hcl. unfold size in *. lia. }
  destruct (read_at_ok s q i size 0 Hi Ho Hbrk) as (brk2 & Hbrk2 & Hrd); [lia|lia|].
  change (Z.to_nat 0) with O in Hrd. rewrite drop_0, Hcont, take_app_length' in Hrd by done.
  exists brk2. unfold bitmap_read. rewrite (st_bind_ok _ _ _ bm' s) by (by apply get_bitmap_run). rewrite Hcnt.
  destruct (Z.ltb_spec 0 (bit_cnt bm)); [|lia]. rewrite (rep_byte_cnt bm l R). fold size. rewrite i32_small by lia.
  rewrite (st_bind_ok _ _ _ (bytes_of (bits bm)) (set_alloc [] brk2 s)) by (by rewrite (file_read_run s f q pos dw size 0 Hf)).
  assert (Hnew : words_of (length (bits bm')) (overwrite (bytes_of (bits bm')) 0 (bytes_of (bits bm))) = bits bm).
  { unfold overwrite. change (Z.to_nat 0) with O. rewrite take_0, drop_ge by (rewrite !bytes_length; lia).
    rewrite Hwl. apply words_bytes, (rep_words _ _ R). }
  rewrite Hnew, Hbytes, Z2Nat.id, Z.eqb_refl by lia.
  unfold on_bitmaps, get_elem, set_elem, get_bitmap, st_modify, st_of_option, mbind, st_bind. cbn [bitmaps set_bitmaps set_alloc].
  rewrite !lookup_insert_eq. cbn [bits bit_cnt]. rewrite Hw. unfold mret, st_ret. cbn [bitmaps set_bitmaps].
  rewrite !lookup_insert_eq, insert_insert_eq. cbn [bits bit_cnt].
  assert (last_mask bm' = last_mask bm) as -> by (unfold last_mask; by rewrite Hcnt). done.
Qed.

(** ** Theorems *)

(** A bitmap written to a file that is large enough, with
    [bitmap_write], is what [bitmap_read] reads back into any bitmap of the
    same size, the unused bits of the last word masked. *)
Theorem bitmap_file_roundtrip s b f q pos dw i l :
  bitmap_at (bitmaps s) b l → l ≠ [] → files s !! f = Some (File q pos dw) → inode_ok s q i → deny_write_cnt i = 0 →
  outcomes s = [] → 0 < brk s → byte_cnt (Z.of_nat (length l)) ≤ i_length (data i) →
  ∃ s1, bitmap_write b f s = Ok (true, s1) ∧ bitmaps s1 = bitmaps s ∧
    ∀ m l', bitmap_at m b l' → length l' = length l →
      ∃ s2, bitmap_read b f (set_bitmaps m s1) = Ok (true, s2) ∧ bitmap_at (bitmaps s2) b l.
Proof.
  intros (Hb & bm & Hm & R) Hl Hf Hi Hdeny Ho Hbrk Hsize. rewrite (rep_len _ _ R) in Hsize.
  destruct (bitmap_write_ok s b f q pos dw i bm l) as (d & brk1 & Hbrk1 & Hrun & Hi1 & Hcont); [done..|].
  exists (set_bytes s d brk1). split; [done|]. split; [done|].
  intros m l' (_ & bm' & Hm' & R') Hll.
  assert (Hcnt : bit_cnt bm' = bit_cnt bm) by (rewrite <- (rep_len _ _ R), <- (rep_len _ _ R'); lia).
  assert (Hwl : length (bits bm') = length (bits bm)).
  { pose proof (rep_elems _ _ R). pose proof (rep_elems _ _ R'). rewrite Hcnt in *. lia. }
  destruct (rep_words_pos bm l R Hl) as [Hpos Hwp].
  assert (Hw : is_Some (bits bm !! Z.to_nat (elem_cnt (bit_cnt bm) - 1))).
  { apply lookup_lt_is_Some. rewrite <- (rep_elems _ _ R). lia. }
  destruct Hw as [w Hw].
  destruct (bitmap_read_ok (set_bitmaps m (set_bytes s d brk1)) b f q pos dw i bm bm' l
    (drop (length (bytes_of (bits bm))) (content s i)) w) as (brk2 & Hrd); try done; [by destruct Hi1|simpl; lia|].
  eexists. split; [exact Hrd|]. split; [done|]. eexists. split; [apply lookup_insert_eq|by apply rep_masked].
Qed.

Definition demo_bitmap : bitmap := MkBitmap 70 [5; 9].
Definition demo_files : fs :=
  Fs (replicate 8 (replicate 512 7)) {[ 100 := demo_inode ]} [100] {[ 300 := File 100 0 false ]} ∅ {[ 50 := demo_bitmap ]}
     50 300 [] 400.

Lemma demo_files_inode : inode_ok demo_files 100 demo_inode.
Proof. by destruct demo_inode_ok. Qed.

Lemma demo_bitmap_at : bitmap_at (bitmaps demo_files) 50 (bits_of 70 [5; 9]).
Proof.
  split; [done|]. exists demo_bitmap. split; [done|]. apply rep_of_words; [lia|done|]. repeat constructor; lia.
Qed.

Lemma bitmap_file_roundtrip_witness :
  ∃ s1, bitmap_write 50 300 demo_files = Ok (true, s1) ∧ bitmaps s1 = bitmaps demo_files ∧
    ∀ m l', bitmap_at m 50 l' → length l' = length (bits_of 70 [5; 9]) →
      ∃ s2, bitmap_read 50 300 (set_bitmaps m s1) = Ok (true, s2) ∧ bitmap_at (bitmaps s2) 50 (bits_of 70 [5; 9]).
Proof.
  apply (bitmap_file_roundtrip demo_files 50 300 100 0 false demo_inode); try done;
    [apply demo_bitmap_at|apply demo_files_inode].
Defined.

(** ** Opening an inode *)

(** Every open inode is in memory and has been opened. *)
Definition open_ok (s : fs) : Prop :=
  outcomes s = [] ∧ 0 < brk s ∧
  Forall (λ p, p ≠ NULL ∧ ∃ i, inodes s !! p = Some i ∧ 0 < open_cnt i < 2 ^ 31 - 2) (open_inodes s).

Fixpoint first_open (s : fs) (l : list Z) (sec : Z) : option Z :=
  match l with
  | [] => None
  | p :: l => match inodes s !! p with
              | Some i => if sector i =? sec then Some p else first_open s l sec
              | None => None end
  end.

Lemma find_open_ok s l sec :
  Forall (λ p, is_Some (inodes s !! p)) l → find_open l sec s = Ok (first_open s l sec, s).
Proof.
  induction 1 as [|p l [i Hi] _ IH]; [done|]. cbn [find_open first_open]. rewrite Hi.
  rewrite (st_bind_ok _ _ _ i s) by (unfold get_inode; by rewrite Hi). by destruct (sector i =? sec).
Qed.

Lemma first_open_some s l sec p :
  first_open s l sec = Some p → p ∈ l ∧ ∃ i, inodes s !! p = Some i ∧ sector i = sec.
Proof.
  induction l as [|q l IH]; simpl; [done|]. destruct (inodes s !! q) as [i|] eqn:Ei; [|done].
  destruct (Z.eqb_spec (sector i) sec).
  - intros [= ->]. split; [left|by exists i].
  - intros Hf. destruct (IH Hf) as [Hin ?]. split; [by right|done].
Qed.

(** The search does not depend on the counters. *)
Lemma first_open_update s l sec p i i' m :
  inodes s !! p = Some i → sector i' = sector i → m = <[p := i']> (inodes s) →
  ∀ o, first_open (set_inodes m o s) l sec = first_open s l sec.
Proof.
  intros Hp Hs -> o. induction l as [|q l IH]; [done|]. cbn [first_open set_inodes inodes] in *.
  destruct (decide (q = p)) as [->|Hne].
  - rewrite lookup_insert_eq, Hp, Hs. by destruct (sector i =? sec).
  - rewrite lookup_insert_ne by done. destruct (inodes s !! q); [|done]. by destruct (sector i0 =? sec).
Qed.

Definition bump (n : Z) (i : inode) : inode :=
  MkInode (sector i) (open_cnt i + n) (removed i) (deny_write_cnt i) (data i).

Lemma reopen_ok s p i :
  p ≠ NULL → inodes s !! p = Some i → 0 < open_cnt i < 2 ^ 31 - 1 →
  inode_reopen p s = Ok (p, set_inodes (<[p := bump 1 i]> (inodes s)) (open_inodes s) s).
Proof.
  intros Hp Hi Hc. unfold inode_reopen. destruct (Z.eqb_spec p NULL); [done|]. cbn [negb].
  rewrite (st_bind_ok _ _ _ i s) by (unfold get_inode; by rewrite Hi). rewrite i32_small by lia. done.
Qed.

(** Opening an inode that is open, and closing it again. *)
Lemma open_close_again s sec p i :
  Forall (λ p, is_Some (inodes s !! p)) (open_inodes s) → first_open s (open_inodes s) sec = Some p →
  inodes s !! p = Some i → p ≠ NULL → 0 < open_cnt i < 2 ^ 31 - 1 →
  let s' := set_inodes (<[p := bump 1 i]> (inodes s)) (open_inodes s) s in
  inode_open sec s = Ok (p, s') ∧ inodes s' !! p = Some (bump 1 i) ∧ inode_close p s' = Ok (tt, s).
Proof.
  intros Hall Hf Hi Hp Hc s'. split_and!.
  - unfold inode_open. rewrite (st_bind_ok _ _ _ (open_inodes s) s) by done.
    rewrite (st_bind_ok _ _ _ _ _ (find_open_ok s (open_inodes s) sec Hall)), Hf. by apply reopen_ok.
  - apply lookup_insert_eq.
  - unfold inode_close. destruct (Z.eqb_spec p NULL); [done|].
    rewrite (st_bind_ok _ _ _ (bump 1 i) s')
      by (unfold get_inode, s'; cbn [inodes set_inodes]; by rewrite lookup_insert_eq).
    cbn [open_cnt bump sector removed deny_write_cnt data]. replace (open_cnt i + 1 - 1) with (open_cnt i) by lia.
    rewrite i32_small by lia. destruct (Z.eqb_spec (open_cnt i) 0); [lia|]. unfold s', put_inode, st_modify, mbind, st_bind.
    cbn [inodes set_inodes open_inodes]. rewrite insert_insert_eq, insert_id; [by destruct s|]. rewrite Hi. by destruct i.
Qed.

(** Opening an inode that is not open. *)
Lemma open_new s sec bytes :
  Forall (λ p, is_Some (inodes s !! p)) (open_inodes s) → first_open s (open_inodes s) sec = None →
  outcomes s = [] → 0 < brk s → disk s !! Z.to_nat sec = Some bytes →
  inode_open sec s = Ok (brk s, set_inodes (<[brk s := MkInode sec 1 false 0 (decode_inode bytes)]> (inodes s))
                                  (brk s :: open_inodes s) (set_alloc [] (brk s + 1) s)).
Proof.
  intros Hall Ef Ho Hb Hbytes. unfold inode_open. rewrite (st_bind_ok _ _ _ (open_inodes s) s) by done.
  rewrite (st_bind_ok _ _ _ _ _ (find_open_ok s (open_inodes s) sec Hall)), Ef.
  rewrite (st_bind_ok _ _ _ (brk s) (set_alloc [] (brk s + 1) s)) by (unfold malloc; by rewrite Ho).
  destruct (Z.eqb_spec (brk s) NULL); [unfold NULL in *; lia|].
  unfold st_modify, disk_read, put_inode, mbind, st_bind. cbn [disk set_inodes set_alloc]. by rewrite Hbytes.
Qed.

(** An inode is in memory at most once.  After [inode_open] of an
    existing sector has returned [p], opening the sector again returns the same
    [p] and counts one more opener, and [inode_close] undoes exactly that. *)
Theorem inode_open_shares s sec :
  open_ok s → 0 ≤ sec < Z.of_nat (length (disk s)) →
  ∃ p s1 i, inode_open sec s = Ok (p, s1) ∧ inodes s1 !! p = Some i ∧ sector i = sec ∧
    ∃ s2, inode_open sec s1 = Ok (p, s2) ∧ inodes s2 !! p = Some (bump 1 i) ∧ inode_close p s2 = Ok (tt, s1).
Proof.
  intros Hok Hsec. pose proof Hok as (Ho & Hb & Hopen).
  assert (Hall : Forall (λ p, is_Some (inodes s !! p)) (open_inodes s)).
  { eapply Forall_impl; [exact Hopen|]. intros x (_ & j & Hj & _). by exists j. }
  destruct (first_open s (open_inodes s) sec) as [p|] eqn:Ef.
  - destruct (first_open_some _ _ _ _ Ef) as (Hin & i & Hi & Hs). rewrite Forall_forall in Hopen.
    destruct (Hopen p Hin) as (Hp & i0 & Hi0 & Hc). assert (i0 = i) as -> by congruence.
    destruct (open_close_again s sec p i Hall Ef Hi Hp ltac:(lia)) as (H1 & Hs1 & _).
    eexists p, _, (bump 1 i). split; [exact H1|]. split; [done|]. split; [done|]. eexists.
    apply open_close_again; [|by rewrite (first_open_update s _ sec p i (bump 1 i) _ Hi eq_refl eq_refl)|done|done|simpl; lia].
    eapply Forall_impl; [exact Hall|]. intros x [j Hj]. cbn [inodes set_inodes].
    destruct (decide (x = p)) as [->|]; [rewrite lookup_insert_eq|rewrite lookup_insert_ne by done]; by eexists.
  - destruct (lookup_lt_is_Some_2 (disk s) (Z.to_nat sec)) as [bytes Hbytes]; [lia|].
    set (i := MkInode sec 1 false 0 (decode_inode bytes)).
    set (s1 := set_inodes (<[brk s := i]> (inodes s)) (brk s :: open_inodes s) (set_alloc [] (brk s + 1) s)).
    exists (brk s), s1, i. split_and!; [|apply lookup_insert_eq|done|].
    + by apply open_new.
    + eexists. apply (open_close_again s1 sec (brk s) i); [| |apply lookup_insert_eq|unfold NULL; lia|simpl; lia].
      * unfold s1. cbn [inodes open_inodes set_inodes]. apply Forall_cons. split; [rewrite lookup_insert_eq; by eexists|]. eapply Forall_impl; [exact Hall|].
        intros x [j Hj].
        destruct (decide (x = brk s)) as [->|]; [rewrite lookup_insert_eq|rewrite lookup_insert_ne by done]; by eexists.
      * unfold s1. cbn [first_open open_inodes set_inodes inodes]. rewrite lookup_insert_eq. simpl. by rewrite Z.eqb_refl.
Qed.

Lemma inode_open_shares_witness :
  ∃ p s1 i, inode_open 2 demo_files = Ok (p, s1) ∧ inodes s1 !! p = Some i ∧ sector i = 2 ∧
    ∃ s2, inode_open 2 s1 = Ok (p, s2) ∧ inodes s2 !! p = Some (bump 1 i) ∧ inode_close p s2 = Ok (tt, s1).
Proof.
  apply inode_open_shares; [|vm_compute; split; congruence].
  split; [done|]. split; [done|]. repeat constructor; [done|]. exists demo_inode. split; [done|simpl; lia].
Defined.

End FileSysTheorems.
