(* ===== verification/Directory.v ===== *)
(** filesys/directory.c and filesys/filesys.c: directories as files of
    20-byte entries, and the operations on files by name.

    A name is the sequence of its characters, without the null byte.  [junk]
    is what an uninitialised [struct dir_entry] on the stack holds. *)
From S2P Require Import Prelude Bitmap Inode FileSys.
Import Inode FileSys.
Local Open Scope Z_scope.

Module Directory.

Definition NAME_MAX : Z := 14.
(** [sizeof (struct dir_entry)]: the sector, the name and [in_use]. *)
Definition ENTRY_SIZE : Z := 20.

Definition inode_sector (e : list Z) : Z := of_le (take 4 e).
Definition entry_name (e : list Z) : list Z := drop 4 e.
Definition in_use (e : list Z) : bool := negb (default 0 (e !! 19%nat) =? 0).

(** [!strcmp (name, e.name)] *)
Definition same_name (name e : list Z) : bool :=
  bool_decide (take (S (length name)) (entry_name e) = name ++ [0]).

(** The characters before the null byte. *)
Fixpoint cstring (l : list Z) : list Z :=
  match l with [] => [] | c :: l => if c =? 0 then [] else c :: cstring l end.

Definition get_dir (p : Z) : st fs dir := λ s,
  match dirs s !! p with Some d => Ok (d, s) | None => Err BadAddr end.
Definition set_dirs (m : gmap Z dir) (s : fs) : fs :=
  Fs (disk s) (inodes s) (open_inodes s) (files s) m (bitmaps s) (free_map s) (free_map_file s) (outcomes s) (brk s).
Definition put_dir (p : Z) (d : dir) : st fs unit := st_modify (λ s, set_dirs (<[p := d]> (dirs s)) s).
Definition free_dir (p : Z) : st fs unit := st_modify (λ s, set_dirs (delete p (dirs s)) s).

(** ** Opening and closing *)

Definition dir_create (sector entry_cnt : Z) : st fs bool :=
  inode_create sector (i32 (u64 (entry_cnt * ENTRY_SIZE))).

Definition dir_open (inode : Z) : st fs Z :=
  p ← malloc;
  if negb (inode =? NULL) && negb (p =? NULL) then put_dir p (Dir inode 0);; mret p
  else inode_close inode;; free_dir p;; mret NULL.

Definition dir_open_root : st fs Z := i ← inode_open ROOT_DIR_SECTOR; dir_open i.

Definition dir_reopen (p : Z) : st fs Z := d ← get_dir p; i ← inode_reopen (d_inode d); dir_open i.

Definition dir_close (p : Z) : st fs unit :=
  if p =? NULL then mret tt else d ← get_dir p; inode_close (d_inode d);; free_dir p.

Definition dir_get_inode (p : Z) : st fs Z := d ← get_dir p; mret (d_inode d).

(** ** Entries *)

Section entries.
Context (junk : list Z).

(** [inode_read_at (inode, &e, sizeof e, ofs) == sizeof e]: the new [e]. *)
Definition read_entry (i : Z) (e : list Z) (ofs : Z) : st fs (list Z * bool) :=
  bytes ← inode_read_at i ENTRY_SIZE (i32 ofs);
  mret (overwrite e 0 bytes, Z.of_nat (length bytes) =? ENTRY_SIZE).

(** Each iteration reads a whole entry of the file, so that its length is
    enough fuel. *)
Fixpoint lookup_loop (fuel : nat) (i : Z) (name e : list Z) (ofs : Z) : st fs (option (list Z * Z)) :=
  match fuel with
  | O => st_err NoFuel
  | S fuel =>
    '(e, full) ← read_entry i e ofs;
    if full : bool then
      if in_use e && same_name name e then mret (Some (e, ofs))
      else lookup_loop fuel i name e (ofs + ENTRY_SIZE)
    else mret None
  end.

Definition dir_fuel (i : Z) : st fs nat := n ← inode_length i; mret (S (Z.to_nat n)).

(** The entry and its offset. *)
Definition lookup (p : Z) (name : list Z) : st fs (option (list Z * Z)) :=
  ASSERT (negb (p =? NULL));;
  d ← get_dir p;
  fuel ← dir_fuel (d_inode d);
  lookup_loop fuel (d_inode d) name junk 0.

(** Returns [*inode], a null pointer for false. *)
Definition dir_lookup (p : Z) (name : list Z) : st fs Z :=
  ASSERT (negb (p =? NULL));;
  o ← lookup p name;
  match o with Some (e, _) => inode_open (inode_sector e) | None => mret NULL end.

(** The loop that looks for a free slot: the entry read last and the offset. *)
Fixpoint slot_loop (fuel : nat) (i : Z) (e : list Z) (ofs : Z) : st fs (list Z * Z) :=
  match fuel with
  | O => st_err NoFuel
  | S fuel =>
    '(e, full) ← read_entry i e ofs;
    if full : bool then
      if negb (in_use e) then mret (e, ofs) else slot_loop fuel i e (i32 (ofs + ENTRY_SIZE))
    else mret (e, ofs)
  end.

(** [e.in_use = true; strlcpy (e.name, name, sizeof e.name);
    e.inode_sector = inode_sector] *)
Definition fill_entry (e name : list Z) (sector : Z) : list Z :=
  let e := overwrite e 19 [1] in
  let e := overwrite e 4 (take 14 name ++ [0]) in
  overwrite e 0 (le32 sector).

Definition dir_add (p : Z) (name : list Z) (sector : Z) : st fs bool :=
  ASSERT (negb (p =? NULL));;
  if bool_decide (name = []) || (NAME_MAX <? Z.of_nat (length name)) then mret false else
  o ← lookup p name;
  match o with
  | Some _ => mret false
  | None =>
    d ← get_dir p;
    fuel ← dir_fuel (d_inode d);
    '(e, ofs) ← slot_loop fuel (d_inode d) junk 0;
    n ← inode_write_at (d_inode d) (fill_entry e name sector) ENTRY_SIZE ofs;
    mret (n =? ENTRY_SIZE)
  end.

Definition dir_remove (p : Z) (name : list Z) : st fs bool :=
  ASSERT (negb (p =? NULL));;
  o ← lookup p name;
  match o with
  | None => inode_close NULL;; mret false
  | Some (e, ofs) =>
    inode ← inode_open (inode_sector e);
    if inode =? NULL then inode_close NULL;; mret false else
    d ← get_dir p;
    n ← inode_write_at (d_inode d) (overwrite e 19 [0]) ENTRY_SIZE (i32 ofs);
    if negb (n =? ENTRY_SIZE) then inode_close inode;; mret false else
    inode_remove inode;;
    inode_close inode;; mret true
  end.

(** The name of the next entry in use, [None] for false. *)
Fixpoint readdir_loop (fuel : nat) (p i : Z) (e : list Z) : st fs (option (list Z)) :=
  match fuel with
  | O => st_err NoFuel
  | S fuel =>
    d ← get_dir p;
    '(e, full) ← read_entry i e (d_pos d);
    if full : bool then
      put_dir p (Dir (d_inode d) (i32 (d_pos d + ENTRY_SIZE)));;
      if in_use e then mret (Some (take 14 (cstring (entry_name e))))
      else readdir_loop fuel p i e
    else mret None
  end.

Definition dir_readdir (p : Z) : st fs (option (list Z)) :=
  d ← get_dir p; fuel ← dir_fuel (d_inode d); readdir_loop fuel p (d_inode d) junk.

(** ** filesys.c *)

Definition do_format : st fs unit :=
  free_map_create;;
  ok ← dir_create ROOT_DIR_SECTOR 16;
  if negb ok then st_err PanicCall else free_map_close.

(** [hdb] is the disk [disk_get (0, 1)] returns, by its sectors: [filesys_disk]
    from here on. *)
Definition filesys_init (hdb : option (list (list Z))) (format : bool) : st fs unit :=
  match hdb with None => st_err PanicCall | Some sectors => st_modify (set_disk sectors) end;;
  inode_init;;
  free_map_init;;
  (if format then do_format else mret tt);;
  free_map_open.

Definition filesys_done : st fs unit := free_map_close.

(** The conjunction stops at the first failure; the sector is 0 until it has
    been allocated. *)
Definition filesys_create (name : list Z) (initial_size : Z) : st fs bool :=
  dir ← dir_open_root;
  '(success, sec) ←
    (if dir =? NULL then mret (false, 0) else
     o ← free_map_allocate 1;
     match o with
     | None => mret (false, 0)
     | Some sec =>
       ok ← inode_create sec initial_size;
       if negb ok then mret (false, sec) else
       ok ← dir_add dir name sec; mret (ok, sec)
     end);
  (if negb success && negb (sec =? 0) then free_map_release sec 1 else mret tt);;
  dir_close dir;;
  mret success.

Definition filesys_open (name : list Z) : st fs Z :=
  dir ← dir_open_root;
  inode ← (if negb (dir =? NULL) then dir_lookup dir name else mret NULL);
  dir_close dir;;
  file_open inode.

Definition filesys_remove (name : list Z) : st fs bool :=
  dir ← dir_open_root;
  success ← (if negb (dir =? NULL) then dir_remove dir name else mret false);
  dir_close dir;;
  mret success.

End entries.
End Directory.
