(* ===== verification/DirectoryTheorems.v ===== *)
(** filesys/directory.c: entries, searches and changes of one entry; and
    filesys/filesys.c run on a small disk. *)
From S2P Require Import Prelude Bitmap Inode InodeTheorems FileSys Directory.
Import Inode InodeTheorems FileSys Directory.
Local Open Scope Z_scope.

Module DirectoryTheorems.

(** ** Entries *)

Definition valid_name (name : list Z) : Prop :=
  name ≠ [] ∧ (length name ≤ 14)%nat ∧ Forall (λ c, c ≠ 0) name.

Lemma overwrite_splice (l b : list Z) (n : nat) : overwrite l (Z.of_nat n) b = splice l n b.
Proof. unfold overwrite, splice. by rewrite Nat2Z.id. Qed.

Lemma overwrite_all (l b : list Z) : length b = length l → overwrite l 0 b = b.
Proof. intros H. unfold overwrite. simpl. by rewrite drop_ge, app_nil_r by lia. Qed.

Lemma length_overwrite (l b : list Z) (n : nat) :
  (n + length b ≤ length l)%nat → length (overwrite l (Z.of_nat n) b) = length l.
Proof. intros H. rewrite overwrite_splice. by apply length_splice. Qed.

Section fill.
Context (e name : list Z) (sec : Z).
Hypothesis He : length e = 20%nat.
Hypothesis Hn : valid_name name.
Hypothesis Hs : 0 ≤ sec < 2 ^ 32.

Let e1 := overwrite e 19 [1].
Let e2 := overwrite e1 4 (take 14 name ++ [0]).

Lemma fill_lengths : length e1 = 20%nat ∧ length e2 = 20%nat ∧ length (fill_entry e name sec) = 20%nat.
Proof using He Hn.
  destruct Hn as (_ & Hl & _).
  assert (H1 : length e1 = 20%nat) by (unfold e1; etransitivity; [apply (length_overwrite e [1] 19); simpl; lia|done]).
  assert (H2 : length e2 = 20%nat).
  { unfold e2. etransitivity; [apply (length_overwrite e1 (take 14 name ++ [0]) 4)|done].
    rewrite length_app, length_take, H1. cbn [length]. lia. }
  split; [done|]. split; [done|]. unfold fill_entry. fold e1 e2.
  etransitivity; [apply (length_overwrite e2 (le32 sec) 0); rewrite H2; cbn [length le32]; lia|done].
Qed.

Lemma fill_entry_lookup j :
  fill_entry e name sec !! j =
    if decide (j < 4)%nat then le32 sec !! j
    else if decide (j < 5 + length name)%nat then (name ++ [0]) !! (j - 4)%nat
    else if decide (j = 19)%nat then Some 1 else e !! j.
Proof using He Hn.
  destruct fill_lengths as (H1 & H2 & _). destruct Hn as (_ & Hl & _).
  unfold fill_entry. fold e1 e2. change (overwrite e2 0 (le32 sec)) with (splice e2 0 (le32 sec)).
  rewrite splice_lookup by (rewrite H2; cbn [length le32]; lia). unfold e2.
  change (overwrite e1 4 (take 14 name ++ [0])) with (splice e1 4 (take 14 name ++ [0])).
  rewrite splice_lookup by (rewrite length_app, length_take, H1; cbn [length]; lia).
  unfold e1 at 1. change (overwrite e 19 [1]) with (splice e 19 [1]). rewrite splice_lookup by (simpl; lia).
  rewrite (take_ge name) by lia. rewrite length_app. change (length (le32 sec)) with 4%nat. change (length [_]) with 1%nat.
  rewrite Nat.sub_0_r. repeat case_decide; try lia; try done. by replace (j - 19)%nat with O by lia.
Qed.

Lemma fill_in_use : in_use (fill_entry e name sec) = true.
Proof using He Hn.
  unfold in_use. rewrite fill_entry_lookup. destruct Hn as (_ & Hl & _).
  rewrite decide_False by lia. rewrite decide_False by lia. by rewrite decide_True.
Qed.

Lemma fill_sector : inode_sector (fill_entry e name sec) = sec.
Proof using He Hn Hs.
  unfold inode_sector. assert (take 4 (fill_entry e name sec) = le32 sec) as ->; [|by apply le32_decode].
  destruct fill_lengths as (_ & _ & H3). apply list_eq. intros j. destruct (decide (j < 4)%nat).
  - rewrite lookup_take_lt, fill_entry_lookup by done. by rewrite decide_True.
  - rewrite lookup_take_ge by lia. symmetry. apply lookup_ge_None. simpl. lia.
Qed.

Lemma fill_name name' : valid_name name' → same_name name' (fill_entry e name sec) = bool_decide (name' = name).
Proof using He Hn.
  intros (Hne' & Hl' & Hz'). destruct fill_lengths as (_ & _ & H3). destruct Hn as (Hne & Hl & Hz).
  unfold same_name, entry_name. apply bool_decide_ext.
  assert (Hpre : ∀ j, (j ≤ length name)%nat → drop 4 (fill_entry e name sec) !! j = (name ++ [0]) !! j).
  { intros j Hj. rewrite lookup_drop, fill_entry_lookup, decide_False, decide_True by lia. f_equal. lia. }
  split.
  - intros Heq.
    assert (Hj : ∀ j, (j ≤ length name')%nat → drop 4 (fill_entry e name sec) !! j = (name' ++ [0]) !! j).
    { intros j Hj. rewrite <- Heq. by rewrite lookup_take_lt by lia. }
    assert (Hlen : length name = length name').
    { destruct (Nat.lt_trichotomy (length name) (length name')) as [Hlt|[|Hlt]]; [exfalso|done|exfalso].
      - specialize (Hj (length name) ltac:(lia)). rewrite Hpre, lookup_app_r, Nat.sub_diag, lookup_app_l in Hj by lia.
        symmetry in Hj. rewrite Forall_lookup in Hz'. by apply Hz' in Hj.
      - specialize (Hj (length name') ltac:(lia)). rewrite Hpre, lookup_app_l, lookup_app_r, Nat.sub_diag in Hj by lia.
        rewrite Forall_lookup in Hz. by apply Hz in Hj. }
    apply list_eq. intros j. destruct (decide (j < length name)%nat).
    + specialize (Hj j ltac:(lia)). rewrite Hpre, !lookup_app_l in Hj by lia. done.
    + rewrite !lookup_ge_None_2 by lia. done.
  - intros ->. apply list_eq. intros j. destruct (decide (j ≤ length name)%nat).
    + rewrite lookup_take_lt by lia. by apply Hpre.
    + rewrite lookup_take_ge by lia. symmetry. apply lookup_ge_None. rewrite length_app. simpl. lia.
Qed.
End fill.

(** ** Directories *)

(** The first entry that satisfies [f], with its index, from index [k] on. *)
Fixpoint find_slot (f : list Z → bool) (es : list (list Z)) (k : nat) : option (list Z * nat) :=
  match es with [] => None | e :: es => if f e then Some (e, k) else find_slot f es (S k) end.

Definition matches (name e : list Z) : bool := in_use e && same_name name e.

(** The sector a name stands for. *)
Definition dir_find (es : list (list Z)) (name : list Z) : option Z :=
  (λ x, inode_sector x.1) <$> find_slot (matches name) es 0.

(** The directory at [p] holds the entries [es]; [rest] are the bytes after
    the last whole entry. *)
Record dir_at (s : fs) (p q : Z) (i : inode) (es : list (list Z)) (rest : list Z) : Prop := {
  da_dir : ∃ pos, dirs s !! p = Some (Dir q pos);
  da_ptr : p ≠ NULL;
  da_inode : inode_ok s q i;
  da_alloc : outcomes s = [] ∧ 0 < brk s;
  da_blocks : blocks 20 es;
  da_rest : (length rest < 20)%nat;
  da_content : content s i = concat es ++ rest }.

Lemma dir_at_alloc s p q i es rest b :
  dir_at s p q i es rest → brk s ≤ b → dir_at (set_alloc [] b s) p q i es rest.
Proof. intros [] Hb. split; try done; [by apply inode_ok_alloc|]. simpl. destruct da_alloc0. split; [done|lia]. Qed.

Lemma frame_dir R s s' p q i es rest :
  frame R s s' → dir_at s p q i es rest → (∀ k, holds i k → ¬ R k) → dir_at s' p q i es rest.
Proof.
  intros Hf H HR. pose proof (frame_content _ _ _ _ _ Hf (da_inode _ _ _ _ _ _ H) HR) as Hc. pose proof (fr_brk _ _ _ Hf).
  destruct H as [Hd Hp Hi [Ho Hb] Hbl Hr Hct]. split; try done; [by rewrite (fr_dirs _ _ _ Hf)|by eapply frame_inode| |congruence].
  split; [apply (fr_outcomes _ _ _ Hf)|lia].
Qed.


Lemma dir_length s p q i es rest :
  dir_at s p q i es rest → i_length (data i) = 20 * Z.of_nat (length es) + Z.of_nat (length rest).
Proof.
  intros H. pose proof (content_length _ _ _ (da_inode _ _ _ _ _ _ H)) as Hl.
  rewrite (da_content _ _ _ _ _ _ H), length_app, (blocks_length 20) in Hl by apply (da_blocks _ _ _ _ _ _ H).
  pose proof (io_length _ _ _ (da_inode _ _ _ _ _ _ H)). lia.
Qed.

(** Reading the entry with index [k]. *)
Lemma read_entry_ok s p q i es rest e k :
  dir_at s p q i es rest → length e = 20%nat → (k ≤ length es)%nat →
  ∃ b, brk s ≤ b ∧ read_entry q e (20 * Z.of_nat k) s
    = Ok (match es !! k with Some e' => (e', true) | None => (overwrite e 0 rest, false) end, set_alloc [] b s).
Proof.
  intros H He Hk. pose proof (dir_length _ _ _ _ _ _ H) as Hlen.
  pose proof (io_length _ _ _ (da_inode _ _ _ _ _ _ H)). destruct (da_alloc _ _ _ _ _ _ H) as [Ho Hb].
  pose proof (blocks_length 20 es (da_blocks _ _ _ _ _ _ H)) as Hc.
  destruct (read_at_ok s q i 20 (20 * Z.of_nat k)) as (b & Hb' & Hr);
    [apply (da_inode _ _ _ _ _ _ H)|done|done|lia|lia|].
  exists b. split; [done|]. unfold read_entry, ENTRY_SIZE. rewrite i32_small by lia.
  rewrite (st_bind_ok _ _ _ _ _ Hr), (da_content _ _ _ _ _ _ H).
  replace (Z.to_nat (20 * Z.of_nat k)) with (20 * k)%nat by lia. change (Z.to_nat 20) with 20%nat.
  unfold mret, st_ret. do 2 f_equal. destruct (es !! k) as [e'|] eqn:Ek.
  - apply lookup_lt_Some in Ek as Hlt. rewrite drop_app_le, take_app_le by (rewrite ?length_drop; lia).
    rewrite <- (block_bytes 20 es k e' (da_blocks _ _ _ _ _ _ H) Ek).
    assert (He' : length e' = 20%nat).
    { pose proof (da_blocks _ _ _ _ _ _ H) as Hbl. unfold blocks in Hbl. rewrite Forall_lookup in Hbl. by apply (Hbl k). }
    rewrite overwrite_all by lia. by rewrite He'.
  - apply lookup_ge_None in Ek. assert (k = length es) as -> by lia.
    rewrite drop_app_ge by lia. replace (20 * length es - length (concat es))%nat with O by lia. rewrite drop_0.
    rewrite take_ge by (pose proof (da_rest _ _ _ _ _ _ H); lia). f_equal.
    apply Z.eqb_neq. pose proof (da_rest _ _ _ _ _ _ H). lia.
Qed.

Lemma find_slot_drop f es k :
  find_slot f (drop k es) k = match es !! k with
                              | Some e => if f e then Some (e, k) else find_slot f (drop (S k) es) (S k)
                              | None => None end.
Proof.
  destruct (es !! k) as [e|] eqn:E; [by rewrite (drop_S _ _ _ E)|].
  apply lookup_ge_None in E. by rewrite drop_ge.
Qed.

(** [lookup] returns the first match. *)
Lemma lookup_loop_ok fuel p q i es rest name : ∀ s e k,
  dir_at s p q i es rest → length e = 20%nat → (k ≤ length es)%nat → (length es - k < fuel)%nat →
  ∃ b, brk s ≤ b ∧ lookup_loop fuel q name e (20 * Z.of_nat k) s
    = Ok ((λ x, (x.1, 20 * Z.of_nat x.2)) <$> find_slot (matches name) (drop k es) k, set_alloc [] b s).
Proof.
  induction fuel as [|fuel IH]; intros s e k H He Hk Hf; [lia|]. cbn [lookup_loop].
  destruct (read_entry_ok s p q i es rest e k H He Hk) as (b & Hb & Hr).
  rewrite (st_bind_ok _ _ _ _ _ Hr), find_slot_drop. destruct (es !! k) as [e'|] eqn:Ek; [|by exists b].
  fold (matches name e'). destruct (matches name e') eqn:Em; [by exists b|].
  apply lookup_lt_Some in Ek as Hlt.
  assert (He' : length e' = 20%nat).
  { pose proof (da_blocks _ _ _ _ _ _ H) as Hbl. unfold blocks in Hbl. rewrite Forall_lookup in Hbl. by apply (Hbl k). }
  destruct (IH (set_alloc [] b s) e' (S k)) as (b2 & Hb2 & Hr2); [by apply dir_at_alloc|done|lia|lia|].
  exists b2. split; [simpl in *; lia|]. unfold ENTRY_SIZE. replace (20 * Z.of_nat k + 20) with (20 * Z.of_nat (S k)) by lia.
  by rewrite Hr2.
Qed.

Lemma lookup_ok junk s p q i es rest name :
  dir_at s p q i es rest → length junk = 20%nat →
  ∃ b, brk s ≤ b ∧ Directory.lookup junk p name s
    = Ok ((λ x, (x.1, 20 * Z.of_nat x.2)) <$> find_slot (matches name) es 0, set_alloc [] b s).
Proof.
  intros H Hj. destruct (da_dir _ _ _ _ _ _ H) as [pos Hd]. pose proof (dir_length _ _ _ _ _ _ H) as Hl.
  destruct (lookup_loop_ok (S (Z.to_nat (i_length (data i)))) p q i es rest name s junk 0 H Hj) as (b & Hb & Hr); [lia|lia|].
  exists b. split; [done|]. unfold Directory.lookup.
  rewrite (st_bind_ok _ _ _ tt s) by (apply ASSERT_true, negb_true_iff, Z.eqb_neq, (da_ptr _ _ _ _ _ _ H)).
  rewrite (st_bind_ok _ _ _ (Dir q pos) s) by (unfold get_dir; by rewrite Hd).
  rewrite (st_bind_ok _ _ _ (S (Z.to_nat (i_length (data i)))) s); [exact Hr|].
  unfold dir_fuel, inode_length, get_inode, mbind, st_bind. simpl.
  by rewrite (io_at _ _ _ (da_inode _ _ _ _ _ _ H)).
Qed.

(** The slot a new entry goes to: the first free one, or the end. *)
Lemma slot_loop_ok fuel p q i es rest : ∀ s e k,
  dir_at s p q i es rest → length e = 20%nat → (k ≤ length es)%nat → (length es - k < fuel)%nat →
  ∃ b e', brk s ≤ b ∧ length e' = 20%nat ∧
    slot_loop fuel q e (20 * Z.of_nat k) s
    = Ok ((e', 20 * Z.of_nat (match find_slot (λ e, negb (in_use e)) (drop k es) k with
                              | Some (_, j) => j | None => length es end)), set_alloc [] b s).
Proof.
  induction fuel as [|fuel IH]; intros s e k H He Hk Hf; [lia|]. cbn [slot_loop].
  destruct (read_entry_ok s p q i es rest e k H He Hk) as (b & Hb & Hr).
  rewrite (st_bind_ok _ _ _ _ _ Hr), find_slot_drop. destruct (es !! k) as [e1|] eqn:Ek.
  - assert (He1 : length e1 = 20%nat).
    { pose proof (da_blocks _ _ _ _ _ _ H) as Hbl. unfold blocks in Hbl. rewrite Forall_lookup in Hbl. by apply (Hbl k). }
    destruct (negb (in_use e1)); [by exists b, e1|]. apply lookup_lt_Some in Ek as Hlt.
    destruct (IH (set_alloc [] b s) e1 (S k)) as (b2 & e2 & Hb2 & He2 & Hr2); [by apply dir_at_alloc|done|lia|lia|].
    exists b2, e2. split; [simpl in *; lia|]. split; [done|]. unfold ENTRY_SIZE.
    pose proof (io_length _ _ _ (da_inode _ _ _ _ _ _ H)). pose proof (dir_length _ _ _ _ _ _ H).
    rewrite i32_small by lia. replace (20 * Z.of_nat k + 20) with (20 * Z.of_nat (S k)) by lia. by rewrite Hr2.
  - apply lookup_ge_None in Ek. assert (k = length es) as -> by lia. exists b, (overwrite e 0 rest).
    split; [done|]. split; [|done].
    etransitivity; [apply (length_overwrite e rest 0)|done]. pose proof (da_rest _ _ _ _ _ _ H). lia.
Qed.

(** ** Changing one entry *)

Lemma find_slot_some f es j e k :
  find_slot f es j = Some (e, k) → (j ≤ k)%nat ∧ es !! (k - j)%nat = Some e ∧ f e = true.
Proof.
  revert j. induction es as [|a es IH]; intros j Hf; simplify_eq/=. destruct (f a) eqn:Ea.
  - injection Hf as <- <-. by rewrite Nat.sub_diag.
  - destruct (IH (S j) Hf) as (Hle & Hl & Hfe). split; [lia|]. split; [|done].
    replace (k - j)%nat with (S (k - S j)) by lia. done.
Qed.

(** Overwriting entry [k] of the directory's file. *)
Lemma write_entry_ok s p q i es rest e k :
  dir_at s p q i es rest → deny_write_cnt i = 0 → length e = 20%nat → (k < length es)%nat →
  ∃ s', inode_write_at q e ENTRY_SIZE (20 * Z.of_nat k) s = Ok (20, s') ∧ dir_at s' p q i (<[k := e]> es) rest ∧
    frame (holds i) s s' ∧ bitmaps s' = bitmaps s.
Proof.
  intros H Hd He Hk. pose proof (da_inode _ _ _ _ _ _ H) as Hi. pose proof (io_length _ _ _ Hi).
  pose proof (dir_length _ _ _ _ _ _ H) as Hl. destruct (da_alloc _ _ _ _ _ _ H) as [Ho Hb].
  pose proof (da_blocks _ _ _ _ _ _ H) as Hbl.
  destruct (write_at_ok s q i e 20 (20 * Z.of_nat k)) as (d & b & Hb' & Hds & Hdl & Hcat & Hrun); [done..|lia|lia|lia|].
  assert (Hm : moved i 20 (20 * Z.of_nat k) = 20%nat) by (unfold moved; lia). rewrite Hm in *.
  exists (set_bytes s d b). split; [done|].
  destruct (write_block 20 es k e Hbl Hk He) as [Hbl' Hes].
  split; [|split; [|done]];
    [|eapply (frame_write s q i d b 20 (20 * Z.of_nat k) e); try done; [lia|lia|by rewrite Hm]].
  split; try done; [apply (da_dir _ _ _ _ _ _ H)|apply (da_ptr _ _ _ _ _ _ H)|by apply inode_ok_disk|simpl; split; [done|lia]|
    apply (da_rest _ _ _ _ _ _ H)|].
  rewrite (content_written s q i d b 20 (20 * Z.of_nat k) e); [|done|lia|lia|by rewrite Hm].
  rewrite Hm, (take_ge e), (da_content _ _ _ _ _ _ H), Hes by lia.
  replace (Z.to_nat (20 * Z.of_nat k)) with (20 * k)%nat by lia. pose proof (blocks_length 20 es Hbl) as Hc.
  unfold splice. rewrite take_app_le, drop_app_le by lia. by rewrite <- !app_assoc.
Qed.

(** A write at the end of a full directory is short. *)
Lemma write_end_ok s p q i es rest e :
  dir_at s p q i es rest → deny_write_cnt i = 0 → length e = 20%nat →
  ∃ n s' rest', inode_write_at q e ENTRY_SIZE (20 * Z.of_nat (length es)) s = Ok (n, s') ∧ n < 20 ∧
    dir_at s' p q i es rest' ∧ frame (holds i) s s' ∧ bitmaps s' = bitmaps s.
Proof.
  intros H Hd He. pose proof (da_inode _ _ _ _ _ _ H) as Hi. pose proof (io_length _ _ _ Hi).
  pose proof (dir_length _ _ _ _ _ _ H) as Hl. destruct (da_alloc _ _ _ _ _ _ H) as [Ho Hb].
  pose proof (da_rest _ _ _ _ _ _ H) as Hr. pose proof (blocks_length 20 es (da_blocks _ _ _ _ _ _ H)) as Hc.
  destruct (write_at_ok s q i e 20 (20 * Z.of_nat (length es))) as (d & b & Hb' & Hds & Hdl & Hcat & Hrun); [done..|lia|lia|lia|].
  assert (Hm : moved i 20 (20 * Z.of_nat (length es)) = length rest) by (unfold moved; lia). rewrite Hm in *.
  exists (Z.of_nat (length rest)), (set_bytes s d b), (take (length rest) e). split; [done|]. split; [lia|].
  split; [|split; [|done]];
    [|eapply (frame_write s q i d b 20 (20 * Z.of_nat (length es)) e); try done; [lia|lia|by rewrite Hm]].
  split; try done; [apply (da_dir _ _ _ _ _ _ H)|apply (da_ptr _ _ _ _ _ _ H)|by apply inode_ok_disk|simpl; split; [done|lia]|
    apply (da_blocks _ _ _ _ _ _ H)|rewrite length_take; lia|].
  rewrite (content_written s q i d b 20 (20 * Z.of_nat (length es)) e); [|done|lia|lia|by rewrite Hm].
  rewrite Hm, (da_content _ _ _ _ _ _ H). unfold splice.
  replace (Z.to_nat (20 * Z.of_nat (length es))) with (length (concat es)) by lia.
  rewrite take_app_length. f_equal. rewrite drop_ge, app_nil_r; [done|].
  rewrite length_app, length_take. lia.
Qed.

Lemma find_free es j :
  find_slot (λ e, negb (in_use e)) es j = None ↔ existsb (λ e, negb (in_use e)) es = false.
Proof.
  revert j. induction es as [|e es IH]; intros j; simpl; [done|]. destruct (in_use e); simpl; [apply IH|]. by split.
Qed.

(** [dir_add] searches the name first. *)
Lemma dir_add_code junk s p q i es rest name sec :
  dir_at s p q i es rest → length junk = 20%nat → name ≠ [] → (length name ≤ 14)%nat →
  ∃ b, brk s ≤ b ∧ dir_add junk p name sec s =
    match find_slot (matches name) es 0 with
    | Some _ => Ok (false, set_alloc [] b s)
    | None => ('(e, ofs) ← slot_loop (S (Z.to_nat (i_length (data i)))) q junk 0;
               n ← inode_write_at q (fill_entry e name sec) ENTRY_SIZE ofs;
               mret (n =? ENTRY_SIZE)) (set_alloc [] b s)
    end.
Proof.
  intros H Hj Hne Hl. destruct (da_dir _ _ _ _ _ _ H) as [pos Hdir].
  destruct (lookup_ok junk s p q i es rest name H Hj) as (b & Hb & Hlk). exists b. split; [done|]. unfold dir_add.
  rewrite (st_bind_ok _ _ _ tt s) by (apply ASSERT_true, negb_true_iff, Z.eqb_neq, (da_ptr _ _ _ _ _ _ H)).
  rewrite bool_decide_eq_false_2 by done. cbn [orb]. unfold NAME_MAX.
  destruct (Z.ltb_spec 14 (Z.of_nat (length name))); [lia|]. rewrite (st_bind_ok _ _ _ _ _ Hlk).
  destruct (find_slot (matches name) es 0) as [[e k]|]; [done|]. cbn [fmap option_fmap option_map].
  rewrite (st_bind_ok _ _ _ (Dir q pos) (set_alloc [] b s)) by (unfold get_dir; simpl; by rewrite Hdir).
  rewrite (st_bind_ok _ _ _ (S (Z.to_nat (i_length (data i)))) (set_alloc [] b s)); [done|].
  unfold dir_fuel, inode_length, get_inode, mbind, st_bind. simpl. by rewrite (io_at _ _ _ (da_inode _ _ _ _ _ _ H)).
Qed.

(** The two outcomes of [dir_add]. *)
Lemma dir_add_ok junk s p q i es rest name sec :
  dir_at s p q i es rest → deny_write_cnt i = 0 → length junk = 20%nat → valid_name name →
  ∃ ok s' es' rest', dir_add junk p name sec s = Ok (ok, s') ∧ dir_at s' p q i es' rest' ∧
    frame (holds i) s s' ∧ bitmaps s' = bitmaps s ∧
    (ok = false ∧ es' = es ∧ (dir_find es name ≠ None ∨ existsb (λ e, negb (in_use e)) es = false) ∨
     ok = true ∧ dir_find es name = None ∧ existsb (λ e, negb (in_use e)) es = true ∧
       ∃ k old e, es !! k = Some old ∧ in_use old = false ∧ length e = 20%nat ∧ es' = <[k := fill_entry e name sec]> es).
Proof.
  intros H Hd Hj Hn. assert (Hsec := io_sectors _ _ _ (da_inode _ _ _ _ _ _ H)).
  destruct (dir_add_code junk s p q i es rest name sec H Hj) as (b & Hb & Hcode); [apply Hn..|].
  assert (H1 := dir_at_alloc _ _ _ _ _ _ b H Hb). rewrite Hcode. clear Hcode.
  destruct (find_slot (matches name) es 0) as [x|] eqn:Ef.
  { exists false, (set_alloc [] b s), es, rest. split; [done|]. split; [done|].
    split; [by apply frame_alloc|]. split; [done|]. left. split; [done|]. split; [done|].
    left. unfold dir_find. by rewrite Ef. }
  pose proof (dir_length _ _ _ _ _ _ H) as Hlen.
  destruct (slot_loop_ok (S (Z.to_nat (i_length (data i)))) p q i es rest (set_alloc [] b s) junk 0 H1 Hj)
    as (b2 & e & Hb2 & He & Hslot); [lia|lia|].
  rewrite (st_bind_ok _ _ _ _ _ Hslot). rewrite drop_0. assert (H2 := dir_at_alloc _ _ _ _ _ _ b2 H1 Hb2).
  destruct (fill_lengths e name sec He Hn) as (_ & _ & Hfe).
  assert (Hal : frame (holds i) s (set_alloc [] b2 (set_alloc [] b s))) by (split; simpl in *; done || lia).
  destruct (find_slot (λ e, negb (in_use e)) es 0) as [[old k]|] eqn:Efree.
  - apply find_slot_some in Efree as Hk. rewrite Nat.sub_0_r in Hk. destruct Hk as (_ & Hk & Hu%negb_true_iff).
    destruct (write_entry_ok _ p q i es rest (fill_entry e name sec) k H2 Hd Hfe) as (s' & Hw & H3 & Hfr & Hbm);
      [by apply lookup_lt_Some in Hk|].
    exists true, s', (<[k := fill_entry e name sec]> es), rest. rewrite (st_bind_ok _ _ _ _ _ Hw).
    split; [done|]. split; [done|]. split; [by apply (frame_then _ _ _ _ Hal)|]. split; [done|].
    right. split; [done|]. split; [unfold dir_find; by rewrite Ef|].
    split; [|by exists k, old, e]. destruct (existsb _ es) eqn:Ex; [done|]. apply (find_free es 0) in Ex. by rewrite Efree in Ex.
  - destruct (write_end_ok _ p q i es rest (fill_entry e name sec) H2 Hd Hfe) as (n & s' & rest' & Hw & Hn20 & H3 & Hfr & Hbm).
    exists false, s', es, rest'. rewrite (st_bind_ok _ _ _ _ _ Hw). unfold ENTRY_SIZE.
    destruct (Z.eqb_spec n 20); [lia|]. split; [done|]. split; [done|].
    split; [by apply (frame_then _ _ _ _ Hal)|]. split; [done|]. left. split; [done|]. split; [done|].
    right. by apply (find_free es 0).
Qed.

(** ** The whole file system on a small disk *)

Definition demo_junk : list Z := replicate 20 170.

Definition blank_disk : fs := Fs (replicate 64 (replicate 512 9)) ∅ [] ∅ ∅ ∅ 0 0 [] 1000.

(** Format, create two files, write and read one, remove the other. *)
Definition demo_session : st fs (Z * list Z * bool * Z) :=
  filesys_init (Some (disk blank_disk)) true;;
  filesys_create demo_junk [97; 98] 1000;;
  filesys_create demo_junk [97] 600;;
  f ← filesys_open demo_junk [97; 98];
  n ← file_write f (replicate 900 5) 900;
  file_seek f 890;;
  bytes ← file_read f 30;
  file_close f;;
  ok ← filesys_remove demo_junk [97];
  g ← filesys_open demo_junk [97];
  mret (n, bytes, ok, g).

Example demo_session_result :
  match demo_session blank_disk with
  | Ok (r, s) => r = (900, replicate 10 5 ++ replicate 20 0, true, NULL) ∧
                 Bitmap.bits <$> bitmaps s !! free_map s = Some [127]
  | Err _ => False
  end.
Proof. vm_compute. done. Qed.

End DirectoryTheorems.
