(* ===== verification/Volume.v ===== *)
(** filesys/directory.c, filesys/free-map.c and filesys/filesys.c together: a
    volume is a disk with its free map, the inodes in memory and a directory.
    A directory is a map from names to sectors under any sequence of
    [dir_add], [dir_remove] and [lookup]; a [filesys_create] that cannot add
    the name keeps the sectors of the file's data. *)
From S2P Require Import Prelude Bitmap BitmapTheorems Inode InodeTheorems FileSys FileSysTheorems Directory DirectoryTheorems.
Import Bitmap BitmapTheorems Inode InodeTheorems FileSys FileSysTheorems Directory DirectoryTheorems.
Local Open Scope Z_scope.

Module Volume.

(** ** The free map *)

(** The free map in memory has the bits [l], and its file is open. *)
Record map_at (s : fs) (fq : Z) (fi : inode) (l : list bool) : Prop := {
  ma_bits : bitmap_at (bitmaps s) (free_map s) l;
  ma_ptr : free_map_file s ≠ NULL;
  ma_file : ∃ pos dw, files s !! free_map_file s = Some (File fq pos dw);
  ma_inode : inode_ok s fq fi;
  ma_deny : deny_write_cnt fi = 0;
  ma_size : byte_cnt (Z.of_nat (length l)) ≤ i_length (data fi);
  ma_max : Z.of_nat (length l) < BITMAP_ERROR;
  ma_alloc : outcomes s = [] ∧ 0 < brk s }.

Lemma map_at_frame R s s' fq fi l :
  frame R s s' → bitmaps s' = bitmaps s → map_at s fq fi l → map_at s' fq fi l.
Proof.
  intros Hf Hb [H1 H2 H3 H4 H5 H6 H7 [H8 H9]]. pose proof (fr_brk _ _ _ Hf).
  split; rewrite ?Hb, ?(fr_map _ _ _ Hf), ?(fr_map_file _ _ _ Hf), ?(fr_files _ _ _ Hf); try done; [by eapply frame_inode|].
  split; [apply (fr_outcomes _ _ _ Hf)|lia].
Qed.

(** Changing bits in memory. *)
Lemma map_at_bits s fq fi l l' bm :
  map_at s fq fi l → rep bm l' → length l' = length l → map_at (set_bitmaps (<[free_map s := bm]> (bitmaps s)) s) fq fi l'.
Proof.
  intros [[Hn _] H2 H3 [] H5 H6 H7 H8] R Hl. split; rewrite ?Hl; try done.
  split; [done|]. exists bm. split; [apply lookup_insert_eq|done].
Qed.

Lemma map_write s fq fi l :
  map_at s fq fi l → ∃ s', bitmap_write (free_map s) (free_map_file s) s = Ok (true, s') ∧
    frame (holds fi) s s' ∧ map_at s' fq fi l.
Proof.
  intros H. destruct (ma_bits _ _ _ _ H) as (Hn & bm & Hbm & R). destruct (ma_file _ _ _ _ H) as (pos & dw & Hf).
  destruct (ma_alloc _ _ _ _ H) as [Ho Hb]. pose proof (ma_size _ _ _ _ H) as Hs. rewrite (rep_len _ _ R) in Hs.
  destruct (bitmap_write_run s _ _ fq pos dw fi bm l Hbm R Hf (ma_inode _ _ _ _ H) (ma_deny _ _ _ _ H) Ho Hb Hs)
    as (Hbytes & Hmv & d & brk' & Hb' & Hd & Hdl & Hcat & Hrun).
  assert (Hfr : frame (holds fi) s (set_bytes s d brk')).
  { eapply (frame_write s fq fi d brk' _ 0); [apply (ma_inode _ _ _ _ H)|done|done|done|done| |exact Hcat]. lia. }
  eexists. split; [exact Hrun|]. split; [done|]. by eapply map_at_frame.
Qed.

Lemma on_bitmaps_run {A} (op : st bmem A) s a m :
  op (bitmaps s) = Ok (a, m) → on_bitmaps op s = Ok (a, set_bitmaps m s).
Proof. intros H. unfold on_bitmaps. by rewrite H. Qed.

Lemma set_bitmaps_id s : set_bitmaps (bitmaps s) s = s.
Proof. by destruct s. Qed.

(** Bits that are all set can be released. *)
Lemma map_release_ok s fq fi l start n :
  map_at s fq fi l → group start n true l →
  ∃ s', free_map_release (Z.of_nat start) (Z.of_nat n) s = Ok (tt, s') ∧ frame (holds fi) s s' ∧
    map_at s' fq fi (fill start n false l).
Proof.
  intros H Hg. destruct (ma_bits _ _ _ _ H) as (Hn & bm & Hbm & R). pose proof Hg as [Hr _].
  destruct (set_multiple_ok _ Hn _ bm l start n false Hbm R Hr) as (bm' & Hset & R').
  destruct (map_write _ fq fi _ (map_at_bits s fq fi l _ bm' H R' (length_fill _ _ _ _ Hr))) as (s' & Hw & Hfr & Hm).
  exists s'. split; [|split; [by destruct Hfr|done]]. unfold free_map_release.
  rewrite (st_bind_ok _ _ _ (free_map s) s), (st_bind_ok _ _ _ (free_map_file s) s) by done.
  rewrite (st_bind_ok _ _ _ true s).
  - rewrite (st_bind_ok _ _ _ tt s) by done.
    rewrite (st_bind_ok _ _ _ _ _ (on_bitmaps_run _ s _ _ Hset)). rewrite (st_bind_ok _ _ _ true s') by exact Hw. done.
  - transitivity (Ok (true, set_bitmaps (bitmaps s) s)); [|by rewrite set_bitmaps_id]. apply on_bitmaps_run. unfold bitmap_all.
    rewrite (st_bind_ok _ _ _ _ _ (contains_ok _ Hn _ bm l Hbm R start n false Hr)).
    rewrite bool_decide_eq_false_2; [done|]. by apply (group_iff l start n true Hr).
Qed.

(** When there is a group of free sectors, the first one is allocated. *)
Lemma allocate_ok s fq fi l k n :
  map_at s fq fi l → group k n false l →
  ∃ start s', free_map_allocate (Z.of_nat n) s = Ok (Some (Z.of_nat start), s') ∧ (start ≤ k)%nat ∧
    group start n false l ∧ frame (holds fi) s s' ∧ map_at s' fq fi (fill start n true l).
Proof.
  intros H Hk. destruct (ma_bits _ _ _ _ H) as (Hn & bm & Hbm & R). pose proof (ma_max _ _ _ _ H) as Hmax.
  destruct (scan_and_flip_ok _ Hn _ bm l Hbm R 0 n false) as (r & Hr & bm' & Hop & R'); [lia|done|].
  destruct Hr as [start _ Hg Hfirst|Hno]; [|by destruct (Hno k); [lia|]]. pose proof Hg as [Hlen _].
  assert (E : Z.of_nat start =? BITMAP_ERROR = false) by (apply Z.eqb_neq; lia). rewrite E, Nat2Z.id in R'.
  assert (Hle : (start ≤ k)%nat) by (destruct (decide (start ≤ k)%nat); [done|]; destruct (Hfirst k); [lia|done]).
  destruct (map_write _ fq fi _ (map_at_bits s fq fi l _ bm' H R' (length_fill _ _ _ _ Hlen))) as (s' & Hw & Hfr & Hm).
  exists start, s'. split; [|split; [done|]; split; [done|]; split; [by destruct Hfr|done]].
  unfold free_map_allocate. rewrite (st_bind_ok _ _ _ (free_map s) s), (st_bind_ok _ _ _ (free_map_file s) s) by done.
  rewrite (st_bind_ok _ _ _ _ _ (on_bitmaps_run _ s _ _ Hop)).
  unfold BITMAP_ERROR in *. rewrite (u32_small (Z.of_nat start)) by lia. rewrite E.
  destruct (Z.eqb_spec (free_map_file s) NULL); [by destruct (ma_ptr _ _ _ _ H)|].
  rewrite (st_bind_ok _ _ _ true s') by exact Hw. done.
Qed.

(** ** Opening and closing inodes *)

(** No inode is above the allocator's next block. *)
Definition fresh (s : fs) : Prop := ∀ x j, inodes s !! x = Some j → x < brk s.

Lemma fresh_frame R s s' : frame R s s' → fresh s → fresh s'.
Proof. intros Hf H x j Hx. rewrite (fr_inodes _ _ _ Hf) in Hx. pose proof (fr_brk _ _ _ Hf). specialize (H _ _ Hx). lia. Qed.

Lemma open_ok_frame R s s' : frame R s s' → open_ok s → open_ok s'.
Proof.
  intros Hf (Ho & Hb & Hall). pose proof (fr_brk _ _ _ Hf). split; [apply (fr_outcomes _ _ _ Hf)|]. split; [lia|].
  by rewrite (fr_open _ _ _ Hf), (fr_inodes _ _ _ Hf).
Qed.

Lemma frame_set_inodes R m o s s' : frame R s s' → frame R (set_inodes m o s) (set_inodes m o s').
Proof. by intros []. Qed.

Lemma map_at_inodes s fq fi l m o : map_at s fq fi l → m !! fq = Some fi → map_at (set_inodes m o s) fq fi l.
Proof. intros [] Hm. split; try done. by destruct ma_inode0. Qed.

Lemma dir_at_inodes s p q i es rest m o :
  dir_at s p q i es rest → m !! q = Some i → dir_at (set_inodes m o s) p q i es rest.
Proof. intros [] Hm. split; try done. by destruct da_inode0. Qed.

(** The two ways [inode_open] succeeds. *)
Inductive opened (s : fs) (sec : Z) : Z → inode → fs → Prop :=
  | OpenedAgain q i :
      first_open s (open_inodes s) sec = Some q → q ∈ open_inodes s → inodes s !! q = Some i → sector i = sec → q ≠ NULL →
      0 < open_cnt i < 2 ^ 31 - 2 →
      opened s sec q (bump 1 i) (set_inodes (<[q := bump 1 i]> (inodes s)) (open_inodes s) s)
  | OpenedNew bytes :
      first_open s (open_inodes s) sec = None → disk s !! Z.to_nat sec = Some bytes →
      opened s sec (brk s) (MkInode sec 1 false 0 (decode_inode bytes))
        (set_inodes (<[brk s := MkInode sec 1 false 0 (decode_inode bytes)]> (inodes s)) (brk s :: open_inodes s)
           (set_alloc [] (brk s + 1) s)).

Lemma inode_open_ok s sec :
  open_ok s → 0 ≤ sec < Z.of_nat (length (disk s)) →
  ∃ q i s1, inode_open sec s = Ok (q, s1) ∧ opened s sec q i s1.
Proof.
  intros (Ho & Hb & Hopen) Hsec.
  assert (Hall : Forall (λ p, is_Some (inodes s !! p)) (open_inodes s)).
  { eapply Forall_impl; [exact Hopen|]. intros x (_ & j & Hj & _). by exists j. }
  destruct (first_open s (open_inodes s) sec) as [q|] eqn:Ef.
  - destruct (first_open_some _ _ _ _ Ef) as (Hin & i & Hi & Hs). rewrite Forall_forall in Hopen.
    destruct (Hopen q Hin) as (Hq & i0 & Hi0 & Hc). simplify_eq.
    destruct (open_close_again s (sector i) q i Hall Ef Hi Hq ltac:(lia)) as (H1 & _).
    eexists q, _, _. split; [exact H1|]. by constructor.
  - destruct (lookup_lt_is_Some_2 (disk s) (Z.to_nat sec)) as [bytes Hbytes]; [lia|].
    eexists _, _, _. split; [by apply open_new|]. by constructor.
Qed.

(** The address of a new inode. *)
Lemma new_inode s :
  open_ok s → fresh s → brk s ≠ NULL ∧ inodes s !! brk s = None ∧
    filter (λ y, y ≠ brk s) (brk s :: open_inodes s) = open_inodes s.
Proof.
  intros (_ & Hb & Hopen) Hfr. assert (Hn : inodes s !! brk s = None).
  { destruct (inodes s !! brk s) as [j|] eqn:E; [|done]. specialize (Hfr _ _ E). lia. }
  split; [unfold NULL; lia|]. split; [done|]. rewrite filter_cons_False by tauto.
  induction Hopen as [|y o (_ & j & Hj & _) _ IH]; [done|]. rewrite filter_cons_True by congruence. by rewrite IH.
Qed.

Lemma close_again s q i :
  inodes s !! q = Some i → q ≠ NULL → 1 < open_cnt i < 2 ^ 31 →
  inode_close q s = Ok (tt, set_inodes (<[q := bump (-1) i]> (inodes s)) (open_inodes s) s).
Proof.
  intros Hi Hq Hc. unfold inode_close. destruct (Z.eqb_spec q NULL); [done|].
  rewrite (st_bind_ok _ _ _ i s) by (unfold get_inode; by rewrite Hi). rewrite i32_small by lia.
  destruct (Z.eqb_spec (open_cnt i - 1) 0); [lia|]. done.
Qed.

(** The last opener of an inode that is still linked. *)
Lemma close_last s q i :
  inodes s !! q = Some i → q ≠ NULL → open_cnt i = 1 → removed i = false →
  inode_close q s = Ok (tt, set_inodes (delete q (inodes s)) (filter (λ x, x ≠ q) (open_inodes s)) s).
Proof.
  intros Hi Hq Hc Hr. unfold inode_close. destruct (Z.eqb_spec q NULL); [done|].
  rewrite (st_bind_ok _ _ _ i s) by (unfold get_inode; by rewrite Hi). rewrite Hc, Hr.
  unfold put_inode, free_inode, st_modify, mbind, st_bind.
  change (i32 (1 - 1)) with 0. cbn [Z.eqb inodes open_inodes set_inodes]. unfold mret, st_ret.
  cbn [inodes open_inodes set_inodes]. by rewrite delete_insert_eq.
Qed.

(** The last opener of a removed inode gives its sectors back. *)
Lemma close_removed s q i fq fi l k start n :
  map_at s fq fi l → inodes s !! q = Some i → q ≠ NULL → q ≠ fq → open_cnt i = 1 → removed i = true →
  sector i = Z.of_nat k → i_start (data i) = Z.of_nat start → bytes_to_sectors (i_length (data i)) = Z.of_nat n →
  group k 1 true l → group start n true (fill k 1 false l) →
  ∃ s', inode_close q s = Ok (tt, s') ∧
    frame (holds fi) (set_inodes (delete q (inodes s)) (filter (λ x, x ≠ q) (open_inodes s)) s) s' ∧
    map_at s' fq fi (fill start n false (fill k 1 false l)).
Proof.
  intros H Hi Hq Hne Hc Hr Hk Hst Hn Hg1 Hg2. set (o := filter (λ x, x ≠ q) (open_inodes s)).
  set (s1 := set_inodes (<[q := MkInode (sector i) 0 (removed i) (deny_write_cnt i) (data i)]> (inodes s)) o s).
  assert (H1 : map_at s1 fq fi l).
  { apply map_at_inodes; [done|]. rewrite lookup_insert_ne by done. apply (io_at _ _ _ (ma_inode _ _ _ _ H)). }
  destruct (map_release_ok s1 fq fi l k 1 H1 Hg1) as (s2 & Hrun2 & Hf2 & H2).
  destruct (map_release_ok s2 fq fi _ start n H2 Hg2) as (s3 & Hrun3 & Hf3 & H3).
  pose proof (frame_then _ _ _ _ Hf2 Hf3) as Hf.
  exists (set_inodes (delete q (inodes s3)) (open_inodes s3) s3). split_and!.
  - unfold inode_close. destruct (Z.eqb_spec q NULL); [done|].
    rewrite (st_bind_ok _ _ _ i s) by (unfold get_inode; by rewrite Hi). rewrite Hc. change (i32 (1 - 1)) with 0. cbn [Z.eqb].
    set (i' := MkInode (sector i) 0 (removed i) (deny_write_cnt i) (data i)) in *.
    rewrite (st_bind_ok _ _ _ tt (set_inodes (<[q := i']> (inodes s)) (open_inodes s) s)) by done.
    rewrite (st_bind_ok _ _ _ tt s1) by done. rewrite Hr, Hk, Hst, Hn.
    rewrite (st_bind_ok _ _ _ tt s3); [done|]. by rewrite (st_bind_ok _ _ _ tt s2) by exact Hrun2.
  - rewrite (fr_inodes _ _ _ Hf), (fr_open _ _ _ Hf). unfold s1. cbn [inodes open_inodes set_inodes].
    rewrite delete_insert_eq. by apply (frame_set_inodes _ (delete q (inodes s)) o) in Hf.
  - apply map_at_inodes; [done|]. rewrite lookup_delete_ne by done. apply (io_at _ _ _ (ma_inode _ _ _ _ H3)).
Qed.

(** ** The names in a directory *)

Definition no_null (name : list Z) : Prop := Forall (λ c, c ≠ 0) name.

(** The name and the sector of an entry in use. *)
Definition entry_of (e : list Z) : option (list Z * Z) :=
  if in_use e then Some (cstring (entry_name e), inode_sector e) else None.
Definition listing (es : list (list Z)) : list (list Z * Z) := omap entry_of es.

(** The name of an entry in use ends in a null byte. *)
Definition entry_ok (e : list Z) : Prop := in_use e = true → (length (cstring (entry_name e)) ≤ 14)%nat.

Lemma cstring_app name l : no_null name → cstring (name ++ 0 :: l) = name.
Proof. induction 1 as [|c name Hc _ IH]; [done|]. cbn [app cstring]. destruct (Z.eqb_spec c 0); [done|]. by rewrite IH. Qed.

Lemma cstring_split l : (length (cstring l) < length l)%nat → ∃ l', l = cstring l ++ 0 :: l'.
Proof.
  induction l as [|c l IH]; simpl; [lia|]. destruct (Z.eqb_spec c 0) as [->|Hc]; [by exists l|].
  intros H. destruct IH as [l' Hl']; [simpl in H; lia|]. exists l'. simpl. by f_equal.
Qed.

Lemma same_name_prefix name e : no_null name → same_name name e = true → cstring (entry_name e) = name.
Proof.
  intros Hn He%bool_decide_eq_true. rewrite <- (take_drop (S (length name)) (entry_name e)), He, <- app_assoc.
  by apply cstring_app.
Qed.

Lemma matches_entry name e :
  length e = 20%nat → entry_ok e → no_null name → matches name e = bool_decide (fst <$> entry_of e = Some name).
Proof.
  intros He Hok Hn. unfold matches, entry_of. unfold entry_ok in Hok. destruct (in_use e); [|by rewrite bool_decide_eq_false_2].
  cbn [andb fmap option_fmap option_map fst]. specialize (Hok eq_refl).
  destruct (cstring_split (entry_name e)) as [l' Hl']; [unfold entry_name in *; rewrite length_drop; lia|].
  destruct (same_name name e) eqn:E; symmetry.
  - apply bool_decide_eq_true_2. f_equal. by apply same_name_prefix.
  - apply bool_decide_eq_false_2. intros [= Heq]. rewrite Heq in Hl'. apply bool_decide_eq_false in E. apply E.
    rewrite Hl', cons_middle, app_assoc, take_app_length'; [done|]. rewrite length_app. simpl. lia.
Qed.

Lemma filled_entry e name sec :
  length e = 20%nat → valid_name name → 0 ≤ sec < 2 ^ 32 →
  entry_of (fill_entry e name sec) = Some (name, sec) ∧ entry_ok (fill_entry e name sec).
Proof.
  intros He Hn Hs. assert (Hc : cstring (entry_name (fill_entry e name sec)) = name).
  { apply same_name_prefix; [apply Hn|]. rewrite fill_name by done. by apply bool_decide_eq_true_2. }
  split; [|intros _; rewrite Hc; apply Hn]. unfold entry_of. by rewrite fill_in_use, Hc, fill_sector.
Qed.

Lemma cleared_entry e : length e = 20%nat → in_use (overwrite e 19 [0]) = false ∧ length (overwrite e 19 [0]) = 20%nat.
Proof.
  intros He. change (overwrite e 19 [0]) with (splice e 19 [0]). split; [|rewrite length_splice; simpl; lia].
  unfold in_use. rewrite splice_lookup by (simpl; lia). done.
Qed.

(** The directory lists exactly the map. *)
Record lists (es : list (list Z)) (m : gmap (list Z) Z) : Prop := {
  ls_blocks : blocks 20 es;
  ls_entries : Forall entry_ok es;
  ls_listing : listing es ≡ₚ map_to_list m }.

Lemma find_slot_none f es j : find_slot f es j = None → Forall (λ e, f e = false) es.
Proof.
  revert j. induction es as [|e es IH]; intros j; simpl; [by constructor|]. destruct (f e) eqn:E; [done|].
  intros H. constructor; [done|by eapply IH].
Qed.

Lemma lists_find es m name :
  lists es m → no_null name →
  match find_slot (matches name) es 0 with
  | Some (e, k) => es !! k = Some e ∧ entry_of e = Some (name, inode_sector e) ∧ m !! name = Some (inode_sector e)
  | None => m !! name = None
  end.
Proof.
  intros [Hb He Hl] Hn. unfold blocks in Hb. rewrite Forall_lookup in Hb, He.
  destruct (find_slot (matches name) es 0) as [[e k]|] eqn:Ef.
  - apply find_slot_some in Ef as (_ & Hk & Hm). rewrite Nat.sub_0_r in Hk.
    rewrite matches_entry in Hm by (by eapply He || by eapply Hb || done). apply bool_decide_eq_true in Hm.
    assert (Heq : entry_of e = Some (name, inode_sector e))
      by (revert Hm; unfold entry_of; destruct (in_use e); [by intros [= ->]|done]).
    split; [done|]. split; [done|]. apply elem_of_map_to_list. rewrite <- Hl. apply list_elem_of_omap.
    exists e. split; [by eapply list_elem_of_lookup_2|done].
  - apply find_slot_none in Ef. destruct (m !! name) as [sec|] eqn:Em; [|done]. exfalso.
    apply elem_of_map_to_list in Em. rewrite <- Hl in Em. apply list_elem_of_omap in Em as (e & Hin & Heq).
    apply list_elem_of_lookup in Hin as [k Hk]. rewrite Forall_lookup in Ef. specialize (Ef _ _ Hk).
    rewrite matches_entry in Ef by (by eapply He || by eapply Hb || done). rewrite Heq in Ef. by apply bool_decide_eq_false in Ef.
Qed.

Lemma lists_dir_find es m name : lists es m → no_null name → dir_find es name = m !! name.
Proof.
  intros H Hn. pose proof (lists_find es m name H Hn) as Hf. unfold dir_find.
  destruct (find_slot (matches name) es 0) as [[e k]|]; [by destruct Hf as (_ & _ & ->)|done].
Qed.

(** There is a free entry exactly when there are fewer names than entries. *)
Lemma lists_free es m :
  lists es m → existsb (λ e, negb (in_use e)) es = bool_decide (size m < length es)%nat.
Proof.
  intros [_ _ Hl]. apply Permutation_length in Hl. rewrite length_map_to_list in Hl. rewrite <- Hl. clear Hl m.
  assert (Hle : ∀ es, (length (listing es) ≤ length es)%nat).
  { induction es0 as [|e es0 IH]; simpl; [lia|]. destruct (entry_of e); simpl; lia. }
  induction es as [|e es IH]; [done|]. specialize (Hle es).
  assert (Hcons : length (listing (e :: es)) = ((if in_use e then 1 else 0) + length (listing es))%nat).
  { unfold listing. cbn [omap list_omap]. destruct (entry_of e) eqn:E; unfold entry_of in E; by destruct (in_use e). }
  rewrite Hcons. cbn [existsb length]. rewrite IH. destruct (in_use e); cbn [negb orb].
  - apply bool_decide_ext. lia.
  - symmetry. apply bool_decide_eq_true_2. lia.
Qed.

Lemma listing_split es k e :
  es !! k = Some e → ∃ l1 l2, ∀ e', listing (<[k := e']> es) = l1 ++ option_list (entry_of e') ++ l2.
Proof.
  intros Hk. exists (listing (take k es)), (listing (drop (S k) es)). intros e'. unfold listing.
  rewrite insert_take_drop by (by eapply lookup_lt_Some). rewrite omap_app. f_equal. cbn [omap list_omap].
  by destruct (entry_of e').
Qed.

Lemma listing_change es k e e' :
  es !! k = Some e →
  option_list (entry_of e) ++ listing (<[k := e']> es) ≡ₚ option_list (entry_of e') ++ listing es.
Proof.
  intros Hk. destruct (listing_split es k e Hk) as (l1 & l2 & Hl). rewrite Hl.
  rewrite <- (list_insert_id es k e Hk), Hl.
  rewrite (Permutation_app_swap_app (option_list (entry_of e)) l1), (Permutation_app_swap_app (option_list (entry_of e')) l1).
  apply Permutation_app_head, Permutation_app_swap_app.
Qed.

Lemma lists_add es m k old e name sec :
  lists es m → es !! k = Some old → in_use old = false → length e = 20%nat → valid_name name → 0 ≤ sec < 2 ^ 32 →
  m !! name = None → lists (<[k := fill_entry e name sec]> es) (<[name := sec]> m).
Proof.
  intros [Hb He Hl] Hk Ho Hle Hn Hs Hm. destruct (filled_entry e name sec Hle Hn Hs) as [Heq Hok]. split.
  - apply Forall_insert; [done|]. by destruct (fill_lengths e name sec Hle Hn) as (_ & _ & ?).
  - by apply Forall_insert.
  - pose proof (listing_change es k old (fill_entry e name sec) Hk) as Hc. rewrite Heq in Hc.
    unfold entry_of in Hc at 1. rewrite Ho in Hc. simpl in Hc. by rewrite Hc, Hl, map_to_list_insert.
Qed.

Lemma lists_remove es m k e name :
  lists es m → es !! k = Some e → entry_of e = Some (name, inode_sector e) → m !! name = Some (inode_sector e) →
  lists (<[k := overwrite e 19 [0]]> es) (delete name m).
Proof.
  intros [Hb He Hl] Hk Heq Hm. unfold blocks in Hb. destruct (cleared_entry e) as [Hc Hlen].
  { rewrite Forall_lookup in Hb. by apply (Hb k). }
  split; [by apply Forall_insert|apply Forall_insert; [done|]; intros Hu; congruence|].
  pose proof (listing_change es k e (overwrite e 19 [0]) Hk) as Hp. rewrite Heq in Hp.
  unfold entry_of in Hp at 1. rewrite Hc in Hp. simpl in Hp. rewrite Hl, <- (map_to_list_delete m name _ Hm) in Hp.
  by apply Permutation_cons_inv in Hp.
Qed.

(** ** Volumes *)

Lemma group_lookup start n (l : list bool) v :
  (start + n ≤ length l)%nat → (∀ x, (start ≤ x < start + n)%nat → l !! x = Some v) → group start n v l.
Proof.
  intros Hl Hx. apply group_iff; [done|]. intros [j Hj]%list_elem_of_lookup. unfold range in Hj.
  apply lookup_take_Some in Hj as [Hj Hjn]. rewrite lookup_drop, Hx in Hj by lia. injection Hj. by destruct v.
Qed.

(** The inode in a sector of the disk, and the sectors that it owns. *)
Definition inode_on (s : fs) (k : Z) : inode_disk := decode_inode (default [] (disk s !! Z.to_nat k)).
Definition data_start (s : fs) (k : Z) : nat := Z.to_nat (i_start (inode_on s k)).
Definition data_count (s : fs) (k : Z) : nat := Z.to_nat (bytes_to_sectors (i_length (inode_on s k))).
Definition file_data (s : fs) (k : Z) (x : nat) : Prop := (data_start s k ≤ x < data_start s k + data_count s k)%nat.
Definition owns (s : fs) (k : Z) (x : nat) : Prop := x = Z.to_nat k ∨ file_data s k x.

Lemma inode_on_same s s' k : disk s' !! Z.to_nat k = disk s !! Z.to_nat k → inode_on s' k = inode_on s k.
Proof. unfold inode_on. by intros ->. Qed.

Lemma owns_same s s' k x : inode_on s' k = inode_on s k → owns s' k x ↔ owns s k x.
Proof. unfold owns, file_data, data_start, data_count. by intros ->. Qed.

Lemma set_inodes_id s : set_inodes (inodes s) (open_inodes s) s = s.
Proof. by destruct s. Qed.

Section volume.
(** A directory at [p] on the inode [i] at [q], with [N] entries, and the
    free map's file on the inode [fi] at [fq]. *)
Context (p q : Z) (i : inode) (fq : Z) (fi : inode) (N : nat).

(** The inode of a file is in sector [k]: away from the directory and the free
    map, and all its sectors are marked as used. *)
Record file_ok (s : fs) (l : list bool) (k : Z) : Prop := {
  fo_sector : 0 ≤ k < 2 ^ 32;
  fo_other : k ≠ sector i ∧ k ≠ sector fi;
  fo_apart : ¬ (holds i (Z.to_nat k) ∨ holds fi (Z.to_nat k));
  fo_start : 0 ≤ i_start (inode_on s k);
  fo_length : 0 ≤ i_length (inode_on s k) < 2 ^ 31 - 512;
  fo_end : (data_start s k + data_count s k ≤ length l)%nat;
  fo_self : ¬ file_data s k (Z.to_nat k);
  fo_used : ∀ x, owns s k x → l !! x = Some true }.

(** A volume: [l] are the bits of the free map, the directory holds the names
    [m], and [F] are the sectors of the inodes of files. *)
Record volume (s : fs) (l : list bool) (m : gmap (list Z) Z) (F : gset Z) : Prop := {
  vo_dir : ∃ es rest, dir_at s p q i es rest ∧ lists es m ∧ length es = N;
  vo_map : map_at s fq fi l;
  vo_disk : length l = length (disk s);
  vo_deny : deny_write_cnt i = 0;
  vo_apart : ∀ k, holds i k → ¬ holds fi k;
  vo_open : open_ok s;
  vo_fresh : fresh s;
  vo_files : ∀ k, k ∈ F → file_ok s l k;
  vo_disjoint : ∀ k k' x, k ∈ F → k' ∈ F → k ≠ k' → owns s k x → ¬ owns s k' x;
  vo_linked : ∀ name sec, m !! name = Some sec → sec ∈ F;
  vo_once : ∀ n1 n2 sec, m !! n1 = Some sec → m !! n2 = Some sec → n1 = n2 }.

Definition meta (k : nat) : Prop := holds i k ∨ holds fi k.

(** A step that changes the directory, the free map and inodes in memory. *)
Lemma volume_step s l m F s' l' m' F' im o es rest :
  volume s l m F → frame meta (set_inodes im o s) s' → open_ok s' → fresh s' →
  dir_at s' p q i es rest → lists es m' → length es = N → map_at s' fq fi l' → length l' = length l → F' ⊆ F →
  (∀ k x, k ∈ F' → owns s k x → l' !! x = Some true) →
  (∀ name sec, m' !! name = Some sec → sec ∈ F') →
  (∀ n1 n2 sec, m' !! n1 = Some sec → m' !! n2 = Some sec → n1 = n2) →
  volume s' l' m' F'.
Proof.
  intros [] Hf Ho Hfr Hd Hl HN Hm Hll HF Hused Hlink Honce.
  assert (Hon : ∀ k, k ∈ F → inode_on s' k = inode_on s k).
  { intros k Hk. apply inode_on_same. rewrite (fr_same _ _ _ Hf); [done|]. apply (fo_apart _ _ _ (vo_files0 k Hk)). }
  split; try done; [by exists es, rest|rewrite Hll, vo_disk0; symmetry; apply (fr_length _ _ _ Hf)| |].
  - intros k Hk. destruct (vo_files0 k (HF k Hk)) as [? ? ? ? ? ? Hself ?]. specialize (Hon k (HF k Hk)).
    unfold file_data, data_start, data_count in *. split; unfold file_data, data_start, data_count in *; rewrite ?Hon, ?Hll; try done.
    intros x Hx. apply (Hused k x Hk). by apply (owns_same s s').
  - intros k k' x Hk Hk' Hne. rewrite !(owns_same s s') by eauto. eauto.
Qed.

Lemma volume_alloc s l m F b : volume s l m F → brk s ≤ b → volume (set_alloc [] b s) l m F.
Proof.
  intros H Hb. destruct (vo_dir _ _ _ _ H) as (es & rest & Hd & Hl & HN).
  assert (Hsec := io_sectors _ _ _ (da_inode _ _ _ _ _ _ Hd)). assert (Hf := frame_alloc meta s b Hsec Hb).
  apply (volume_step s l m F _ _ _ _ (inodes s) (open_inodes s) es rest); try done;
    [by eapply open_ok_frame, H|by eapply fresh_frame, H|by apply dir_at_alloc|by eapply map_at_frame, H|
     intros k x Hk; by apply (fo_used _ _ _ (vo_files _ _ _ _ H k Hk))|by apply (vo_linked _ _ _ _ H)|by apply (vo_once _ _ _ _ H)].
Qed.

(** *** Looking up and adding *)

Context (junk : list Z) (Hjunk : length junk = 20%nat).

Lemma volume_lookup s l m F name :
  volume s l m F → no_null name →
  ∃ r s', Directory.lookup junk p name s = Ok (r, s') ∧ (λ x, inode_sector x.1) <$> r = m !! name ∧ volume s' l m F.
Proof using Hjunk.
  intros H Hn. destruct (vo_dir _ _ _ _ H) as (es & rest & Hd & Hl & HN).
  destruct (lookup_ok junk s p q i es rest name Hd Hjunk) as (b & Hb & Hrun). eexists _, _. split; [exact Hrun|].
  split; [|by apply volume_alloc]. rewrite <- (lists_dir_find es m name Hl Hn). unfold dir_find.
  by destruct (find_slot (matches name) es 0) as [[]|].
Qed.

(** [dir_add] on names: what it returns and what the directory becomes. *)
Definition add_ok (m : gmap (list Z) Z) (name : list Z) : bool :=
  bool_decide (name ≠ [] ∧ (length name ≤ 14)%nat ∧ m !! name = None ∧ (size m < N)%nat).

Lemma dir_add_invalid s name sec :
  p ≠ NULL → ¬ (name ≠ [] ∧ (length name ≤ 14)%nat) → dir_add junk p name sec s = Ok (false, s).
Proof using Type.
  clear Hjunk.
  intros Hp Hn. unfold dir_add. rewrite (st_bind_ok _ _ _ tt s) by (by apply ASSERT_true, negb_true_iff, Z.eqb_neq).
  assert (bool_decide (name = []) || (NAME_MAX <? Z.of_nat (length name)) = true) as ->; [|done].
  unfold NAME_MAX. destruct (decide (name = [])); [by rewrite bool_decide_eq_true_2|].
  apply orb_true_iff. right. apply Z.ltb_lt. destruct (decide (length name ≤ 14)%nat); [tauto|lia].
Qed.

Lemma volume_add s l m F name sec :
  volume s l m F → no_null name → sec ∈ F → (∀ n, m !! n ≠ Some sec) →
  ∃ s', dir_add junk p name sec s = Ok (add_ok m name, s') ∧
    volume s' l (if add_ok m name then <[name := sec]> m else m) F.
Proof using Hjunk.
  intros H Hn Hsec Hnew. destruct (vo_dir _ _ _ _ H) as (es & rest & Hd & Hl & HN). unfold add_ok.
  destruct (decide (name ≠ [] ∧ (length name ≤ 14)%nat)) as [Hv|Hv].
  2:{ exists s. rewrite bool_decide_eq_false_2 by tauto. split; [|done]. apply dir_add_invalid; [by eapply da_ptr|done]. }
  assert (Hvn : valid_name name) by (split_and!; [apply Hv|apply Hv|done]).
  destruct (dir_add_ok junk s p q i es rest name sec Hd (vo_deny _ _ _ _ H) Hjunk Hvn)
    as (ok & s' & es' & rest' & Hrun & Hd' & Hf & Hb & Hcases).
  assert (Hf' : frame meta s s') by (eapply frame_weaken; [|exact Hf]; by left).
  assert (Hstep : ∀ m', lists es' m' → length es' = N → (∀ name sec, m' !! name = Some sec → sec ∈ F) →
    (∀ n1 n2 sec, m' !! n1 = Some sec → m' !! n2 = Some sec → n1 = n2) → volume s' l m' F).
  { intros m' Hl' HN' H1 H2. apply (volume_step s l m F _ _ _ _ (inodes s) (open_inodes s) es' rest'); try done;
      [by rewrite set_inodes_id|by eapply open_ok_frame, H|by eapply fresh_frame, H|by eapply map_at_frame, H|].
    intros k x Hk. by apply (fo_used _ _ _ (vo_files _ _ _ _ H k Hk)). }
  exists s'. rewrite (lists_dir_find es m name Hl Hn), (lists_free es m Hl), HN in Hcases.
  destruct Hcases as [(-> & -> & Hno)|(-> & Hm & Hs & k & old & e & Hk & Hu & He & ->)].
  - rewrite bool_decide_eq_false_2.
    + split; [done|]. apply Hstep; [done|done|apply H|apply H].
    + rewrite bool_decide_eq_false in Hno. intros (_ & _ & ? & ?). tauto.
  - apply bool_decide_eq_true in Hs. rewrite bool_decide_eq_true_2 by (split_and!; tauto). split; [done|].
    pose proof (fo_sector _ _ _ (vo_files _ _ _ _ H sec Hsec)).
    apply Hstep; [by eapply lists_add|by rewrite length_insert|..].
    + intros n k' [[<- <-]|[_ Hn']]%lookup_insert_Some; [done|]. by eapply vo_linked.
    + intros n1 n2 k' [[<- <-]|[? Hn1]]%lookup_insert_Some [[<- ?]|[? Hn2]]%lookup_insert_Some; try done; [naive_solver|naive_solver|].
      by eapply vo_once.
Qed.

(** *** Removing *)

Definition marked (j : inode) : inode := MkInode (sector j) (open_cnt j) true (deny_write_cnt j) (data j).

(** The part of [dir_remove] after the inode has been opened at [x], up to
    [inode_close]. *)
Lemma remove_marks s es rest l k e x j :
  dir_at s p q i es rest → map_at s fq fi l → deny_write_cnt i = 0 → es !! k = Some e →
  inodes s !! x = Some j → x ≠ q → x ≠ fq → x ≠ NULL →
  ∃ s', (d ← get_dir p;
         n ← inode_write_at (d_inode d) (overwrite e 19 [0]) ENTRY_SIZE (i32 (20 * Z.of_nat k));
         if negb (n =? ENTRY_SIZE) then inode_close x;; mret false else
         inode_remove x;; inode_close x;; mret true) s = (inode_close x;; mret true) s' ∧
    dir_at s' p q i (<[k := overwrite e 19 [0]]> es) rest ∧ map_at s' fq fi l ∧
    frame (holds i) (set_inodes (<[x := marked j]> (inodes s)) (open_inodes s) s) s'.
Proof.
  intros Hd Hm Hdeny Hk Hx Hxq Hxf Hx0. destruct (da_dir _ _ _ _ _ _ Hd) as [pos Hdir].
  pose proof (da_blocks _ _ _ _ _ _ Hd) as Hbl. unfold blocks in Hbl. rewrite Forall_lookup in Hbl.
  destruct (cleared_entry e (Hbl k e Hk)) as [_ Hlen]. apply lookup_lt_Some in Hk as Hlt.
  pose proof (dir_length _ _ _ _ _ _ Hd). pose proof (io_length _ _ _ (da_inode _ _ _ _ _ _ Hd)).
  destruct (write_entry_ok s p q i es rest (overwrite e 19 [0]) k Hd Hdeny Hlen Hlt) as (s1 & Hw & Hd1 & Hf & Hb).
  pose proof (map_at_frame _ _ _ _ _ _ Hf Hb Hm) as Hm1. pose proof (fr_inodes _ _ _ Hf) as Hin.
  exists (set_inodes (<[x := marked j]> (inodes s1)) (open_inodes s1) s1). split_and!.
  - rewrite (st_bind_ok _ _ _ (Dir q pos) s) by (unfold get_dir; by rewrite Hdir). cbn [d_inode].
    rewrite i32_small by lia. rewrite (st_bind_ok _ _ _ _ _ Hw). change (20 =? ENTRY_SIZE) with true. cbn [negb].
    unfold inode_remove. rewrite (st_bind_ok _ _ _ tt (set_inodes (<[x := marked j]> (inodes s1)) (open_inodes s1) s1)); [done|].
    rewrite (st_bind_ok _ _ _ tt s1) by (by apply ASSERT_true, negb_true_iff, Z.eqb_neq).
    rewrite (st_bind_ok _ _ _ j s1) by (unfold get_inode; by rewrite Hin, Hx). done.
  - apply dir_at_inodes; [done|]. rewrite lookup_insert_ne by done. apply (io_at _ _ _ (da_inode _ _ _ _ _ _ Hd1)).
  - apply map_at_inodes; [done|]. rewrite lookup_insert_ne by done. apply (io_at _ _ _ (ma_inode _ _ _ _ Hm1)).
  - rewrite Hin, (fr_open _ _ _ Hf). by apply frame_set_inodes.
Qed.

Lemma open_ok_insert s x j j' :
  open_ok s → fresh s → inodes s !! x = Some j → open_cnt j' = open_cnt j →
  let s' := set_inodes (<[x := j']> (inodes s)) (open_inodes s) s in open_ok s' ∧ fresh s'.
Proof.
  intros (Ho & Hb & Hall) Hfr Hx Hc s'. split.
  - split; [done|]. split; [done|]. eapply Forall_impl; [exact Hall|]. intros y (Hy & jy & Hjy & Hcy). split; [done|].
    unfold s'. cbn [inodes set_inodes]. destruct (decide (y = x)) as [->|]; [exists j'|exists jy].
    + rewrite lookup_insert_eq. split; [done|]. rewrite Hc. naive_solver.
    + by rewrite lookup_insert_ne.
  - intros y jy. unfold s'. cbn [inodes set_inodes]. intros [[<- _]|[_ Hy]]%lookup_insert_Some; by eapply Hfr.
Qed.

(** What a removed name leaves. *)
Lemma linked_delete s l m F name sec :
  volume s l m F → m !! name = Some sec →
  (∀ n k, delete name m !! n = Some k → k ∈ F ∖ {[sec]}) ∧
  (∀ n1 n2 k, delete name m !! n1 = Some k → delete name m !! n2 = Some k → n1 = n2).
Proof.
  intros H Hm. split.
  - intros n k [Hne Hn]%lookup_delete_Some. apply elem_of_difference. split; [by eapply vo_linked|].
    rewrite elem_of_singleton. intros ->. apply Hne. by eapply vo_once.
  - intros n1 n2 k [_ H1]%lookup_delete_Some [_ H2]%lookup_delete_Some. by eapply vo_once.
Qed.

(** The entry is cleared and the inode, which is open, only marked. *)
Lemma remove_open s l m F name es rest k e x j :
  volume s l m F → dir_at s p q i es rest → lists es m → length es = N → es !! k = Some e →
  entry_of e = Some (name, inode_sector e) → m !! name = Some (inode_sector e) →
  x ∈ open_inodes s → inodes s !! x = Some j → sector j = inode_sector e → x ≠ NULL → 0 < open_cnt j < 2 ^ 31 - 2 →
  ∃ s', (d ← get_dir p;
         n ← inode_write_at (d_inode d) (overwrite e 19 [0]) ENTRY_SIZE (i32 (20 * Z.of_nat k));
         if negb (n =? ENTRY_SIZE) then inode_close x;; mret false else
         inode_remove x;; inode_close x;; mret true) (set_inodes (<[x := bump 1 j]> (inodes s)) (open_inodes s) s) = Ok (true, s') ∧
    volume s' l (delete name m) (F ∖ {[inode_sector e]}) ∧ inodes s' = <[x := marked j]> (inodes s).
Proof.
  intros H Hd Hl HN Hk He Hm Hx Hj Hs Hx0 Hc. set (s2 := set_inodes _ _ s).
  pose proof (vo_files _ _ _ _ H _ (vo_linked _ _ _ _ H _ _ Hm)) as Hfile. destruct (fo_other _ _ _ Hfile) as [Hi Hfi].
  pose proof (io_at _ _ _ (da_inode _ _ _ _ _ _ Hd)) as Hq. pose proof (io_at _ _ _ (ma_inode _ _ _ _ (vo_map _ _ _ _ H))) as Hfq.
  assert (x ≠ q) by naive_solver. assert (x ≠ fq) by naive_solver.
  destruct (remove_marks s2 es rest l k e x (bump 1 j)) as (s4 & Hrun & Hd4 & Hm4 & Hf4);
    [apply dir_at_inodes; [done|by rewrite lookup_insert_ne]|apply map_at_inodes; [apply H|by rewrite lookup_insert_ne]|
     apply H|done|apply lookup_insert_eq|done..|].
  assert (Hin4 : inodes s4 = <[x := marked (bump 1 j)]> (inodes s))
    by (rewrite (fr_inodes _ _ _ Hf4); apply insert_insert_eq).
  assert (Hback : bump (-1) (marked (bump 1 j)) = marked j) by (unfold bump, marked; simpl; f_equal; lia).
  assert (Hclose := close_again s4 x (marked (bump 1 j))). rewrite Hin4, lookup_insert_eq, Hback, insert_insert_eq in Hclose.
  set (s5 := set_inodes _ _ s4) in Hclose. exists s5.
  rewrite Hrun, (st_bind_ok _ _ _ _ _ (Hclose eq_refl Hx0 ltac:(simpl; lia))). split; [done|]. split; [|done].
  destruct (linked_delete s l m F name _ H Hm) as [Hlink Honce].
  assert (Hf5 : frame meta (set_inodes (<[x := marked j]> (inodes s)) (open_inodes s) s) s5).
  { apply (frame_weaken (holds i)); [by left|]. unfold s5. rewrite (fr_open _ _ _ Hf4).
    exact (frame_set_inodes _ (<[x := marked j]> (inodes s)) (open_inodes s) _ _ Hf4). }
  destruct (open_ok_insert s x j (marked j)) as [Hok5 Hfr5]; [apply H|apply H|done|done|].
  eapply (volume_step s l m F _ l _ _ _ _ (<[k := overwrite e 19 [0]]> es) rest H Hf5); try done.
  - by eapply open_ok_frame.
  - by eapply fresh_frame.
  - apply dir_at_inodes; [exact Hd4|by rewrite lookup_insert_ne].
  - by apply lists_remove.
  - by rewrite length_insert.
  - apply map_at_inodes; [done|by rewrite lookup_insert_ne].
  - set_solver.
  - intros k' y Hk'. apply (fo_used _ _ _ (vo_files _ _ _ _ H k' ltac:(set_solver))).
Qed.

(** The free map without the sectors of a file. *)
Definition released (s : fs) (l : list bool) (k : Z) : list bool :=
  fill (data_start s k) (data_count s k) false (fill (Z.to_nat k) 1 false l).

Lemma file_groups s l k :
  file_ok s l k → group (Z.to_nat k) 1 true l ∧ group (data_start s k) (data_count s k) true (fill (Z.to_nat k) 1 false l).
Proof.
  intros H. pose proof (fo_used _ _ _ H) as Hu. assert (Hk : l !! Z.to_nat k = Some true) by (apply Hu; by left).
  apply lookup_lt_Some in Hk as Hlt. pose proof (fo_end _ _ _ H). split.
  - apply group_lookup; [lia|]. intros x Hx. by replace x with (Z.to_nat k) by lia.
  - apply group_lookup; [rewrite length_fill by lia; done|]. intros x Hx. rewrite fill_lookup by lia.
    rewrite decide_False; [apply Hu; by right|]. intros ?. apply (fo_self _ _ _ H).
    by replace (Z.to_nat k) with x by lia.
Qed.

Lemma released_others s l m F k :
  volume s l m F → k ∈ F → length (released s l k) = length l ∧
    ∀ k' x, k' ∈ F ∖ {[k]} → owns s k' x → released s l k !! x = Some true.
Proof.
  intros H Hk. destruct (file_groups s l k (vo_files _ _ _ _ H k Hk)) as [[Hl1 _] [Hl2 _]].
  unfold released. rewrite !length_fill by done. split; [done|]. intros k' x [Hk' Hne]%elem_of_difference Hx.
  rewrite elem_of_singleton in Hne. pose proof (vo_disjoint _ _ _ _ H k' k x Hk' Hk Hne Hx) as Hno.
  rewrite !fill_lookup by done. rewrite !decide_False; [by apply (fo_used _ _ _ (vo_files _ _ _ _ H k' Hk'))|..].
  - intros ?. apply Hno. left. lia.
  - intros ?. apply Hno. by right.
Qed.

Lemma data_count_eq s l k :
  file_ok s l k → i_start (inode_on s k) = Z.of_nat (data_start s k) ∧
    bytes_to_sectors (i_length (inode_on s k)) = Z.of_nat (data_count s k).
Proof.
  intros H. pose proof (fo_start _ _ _ H). unfold data_start, data_count. split; [lia|]. rewrite Z2Nat.id; [done|].
  unfold bytes_to_sectors, u64. apply Z.mod_pos_bound. lia.
Qed.

(** The inode is not open: it is opened, marked and closed, which gives its
    sectors back. *)
Lemma remove_closed s l m F name es rest k e bytes :
  volume s l m F → dir_at s p q i es rest → lists es m → length es = N → es !! k = Some e →
  entry_of e = Some (name, inode_sector e) → m !! name = Some (inode_sector e) →
  disk s !! Z.to_nat (inode_sector e) = Some bytes →
  let j := MkInode (inode_sector e) 1 false 0 (decode_inode bytes) in
  ∃ s', (d ← get_dir p;
         n ← inode_write_at (d_inode d) (overwrite e 19 [0]) ENTRY_SIZE (i32 (20 * Z.of_nat k));
         if negb (n =? ENTRY_SIZE) then inode_close (brk s);; mret false else
         inode_remove (brk s);; inode_close (brk s);; mret true)
        (set_inodes (<[brk s := j]> (inodes s)) (brk s :: open_inodes s) (set_alloc [] (brk s + 1) s)) = Ok (true, s') ∧
    volume s' (released s l (inode_sector e)) (delete name m) (F ∖ {[inode_sector e]}) ∧ inodes s' = inodes s.
Proof.
  intros H Hd Hl HN Hk He Hm Hbytes j. set (x := brk s). set (s2 := set_inodes _ _ (set_alloc _ _ s)).
  pose proof (vo_files _ _ _ _ H _ (vo_linked _ _ _ _ H _ _ Hm)) as Hfile. destruct (file_groups _ _ _ Hfile) as [Hg1 Hg2].
  destruct (data_count_eq _ _ _ Hfile) as [Hst Hcn]. unfold inode_on in Hst, Hcn. rewrite Hbytes in Hst, Hcn. cbn [default] in Hst, Hcn.
  pose proof (io_at _ _ _ (da_inode _ _ _ _ _ _ Hd)) as Hq. pose proof (io_at _ _ _ (ma_inode _ _ _ _ (vo_map _ _ _ _ H))) as Hfq.
  destruct (new_inode s (vo_open _ _ _ _ H) (vo_fresh _ _ _ _ H)) as (Hx0 & Hxn & Hxo). fold x in Hx0, Hxn, Hxo.
  assert (x ≠ q) by congruence. assert (x ≠ fq) by congruence.
  assert (Hsec := io_sectors _ _ _ (da_inode _ _ _ _ _ _ Hd)).
  assert (Hal : ∀ R, frame R s (set_alloc [] (x + 1) s)) by (intros R; apply frame_alloc; [done|unfold x; lia]).
  destruct (remove_marks s2 es rest l k e x j) as (s4 & Hrun & Hd4 & Hm4 & Hf4);
    [apply dir_at_inodes; [apply (frame_dir (λ _, False) s); [apply Hal|done|tauto]|by rewrite lookup_insert_ne]|
     apply map_at_inodes; [apply (map_at_frame meta s); [apply Hal|done|apply H]|by rewrite lookup_insert_ne]|
     apply H|done|apply lookup_insert_eq|done..|].
  pose proof (fr_inodes _ _ _ Hf4) as Hin4. pose proof (fr_open _ _ _ Hf4) as Ho4.
  change (inodes s4 = <[x := marked j]> (<[x := j]> (inodes s))) in Hin4. change (open_inodes s4 = x :: open_inodes s) in Ho4.
  rewrite insert_insert_eq in Hin4.
  destruct (close_removed s4 x (marked j) fq fi l (Z.to_nat (inode_sector e)) (data_start s (inode_sector e))
    (data_count s (inode_sector e))) as (s5 & Hclose & Hf5 & Hm5); try done;
    [rewrite Hin4; apply lookup_insert_eq|pose proof (fo_sector _ _ _ Hfile); simpl; lia|].
  rewrite Hin4, Ho4, delete_insert_eq, delete_id, Hxo in Hf5 by done.
  assert (Hf : frame meta s s5).
  { apply (frame_then _ _ _ _ (Hal meta)). rewrite <- (set_inodes_id (set_alloc [] (x + 1) s)).
    eapply frame_then; [eapply (frame_weaken (holds i)), (frame_set_inodes _ (inodes s) (open_inodes s) _ _ Hf4); by left|].
    eapply frame_weaken; [|exact Hf5]. by right. }
  exists s5. rewrite Hrun, (st_bind_ok _ _ _ _ _ Hclose). split; [done|]. split; [|apply (fr_inodes _ _ _ Hf)].
  destruct (linked_delete s l m F name _ H Hm) as [Hlink Honce].
  destruct (released_others s l m F _ H (vo_linked _ _ _ _ H _ _ Hm)) as [Hrl Hro].
  eapply (volume_step s l m F _ _ _ _ (inodes s) (open_inodes s) (<[k := overwrite e 19 [0]]> es) rest H); try done.
  - by rewrite set_inodes_id.
  - eapply open_ok_frame, H. exact Hf.
  - eapply fresh_frame, H. exact Hf.
  - eapply frame_dir; [exact Hf5|by apply dir_at_inodes|apply H].
  - by apply lists_remove.
  - by rewrite length_insert.
  - set_solver.
Qed.

(** The free map after a removal: the sectors of a file that is not open are
    free again. *)
Definition after_remove (s : fs) (l : list bool) (m : gmap (list Z) Z) (name : list Z) : list bool :=
  match m !! name with
  | Some sec => if first_open s (open_inodes s) sec then l else released s l sec
  | None => l
  end.

Lemma volume_remove s l m F name :
  volume s l m F → no_null name →
  ∃ s', dir_remove junk p name s = Ok (bool_decide (is_Some (m !! name)), s') ∧
    volume s' (after_remove s l m name) (delete name m) (F ∖ option_to_set (m !! name)).
Proof using Hjunk.
  intros H Hn. destruct (vo_dir _ _ _ _ H) as (es & rest & Hd & Hl & HN).
  destruct (lookup_ok junk s p q i es rest name Hd Hjunk) as (b & Hb & Hrun).
  pose proof (volume_alloc s l m F b H Hb) as H1. pose proof (dir_at_alloc _ _ _ _ _ _ b Hd Hb) as Hd1.
  set (s1 := set_alloc [] b s) in *. unfold dir_remove, after_remove.
  rewrite (st_bind_ok _ _ _ tt s) by (apply ASSERT_true, negb_true_iff, Z.eqb_neq, (da_ptr _ _ _ _ _ _ Hd)).
  rewrite (st_bind_ok _ _ _ _ _ Hrun). pose proof (lists_find es m name Hl Hn) as Hfind.
  destruct (find_slot (matches name) es 0) as [[e k]|]; cbn [fmap option_fmap option_map fst snd].
  2:{ rewrite Hfind, bool_decide_eq_false_2, delete_id by (done || by intros []). exists s1. split; [done|].
      assert (F ∖ option_to_set (None : option Z) = F) as ->; [set_solver|done]. }
  destruct Hfind as (Hk & He & Hm). rewrite Hm, bool_decide_eq_true_2 by done. cbn [option_to_set].
  pose proof (vo_linked _ _ _ _ H1 _ _ Hm) as HF. pose proof (vo_files _ _ _ _ H1 _ HF) as Hfile.
  assert (Hlt : 0 ≤ inode_sector e < Z.of_nat (length (disk s1))).
  { pose proof (fo_sector _ _ _ Hfile). rewrite <- (vo_disk _ _ _ _ H1).
    pose proof (lookup_lt_Some _ _ _ (fo_used _ _ _ Hfile (Z.to_nat (inode_sector e)) ltac:(by left))). lia. }
  destruct (inode_open_ok s1 (inode_sector e) (vo_open _ _ _ _ H1) Hlt) as (x & j & s2 & Hopen & Hop).
  rewrite (st_bind_ok _ _ _ _ _ Hopen). assert (Hfo : ∀ o sec, first_open s1 o sec = first_open s o sec).
  { intros o sec. induction o as [|y o IH]; [done|]. cbn [first_open]. by rewrite IH. }
  destruct Hop as [x j Hf Hin Hj Hs Hx0 Hc|bytes Hf Hbytes]; rewrite Hfo in Hf; change (open_inodes s1) with (open_inodes s) in Hf; rewrite Hf.
  - destruct (Z.eqb_spec x NULL); [done|].
    destruct (remove_open s1 l m F name es rest k e x j H1 Hd1 Hl HN Hk He Hm Hin Hj Hs Hx0 Hc) as (s' & Hr & Hv & _). by exists s'.
  - destruct (new_inode s1 (vo_open _ _ _ _ H1) (vo_fresh _ _ _ _ H1)) as (Hx0 & _). destruct (Z.eqb_spec (brk s1) NULL); [done|].
    destruct (remove_closed s1 l m F name es rest k e bytes H1 Hd1 Hl HN Hk He Hm Hbytes) as (s' & Hr & Hv & _). by exists s'.
Qed.

(** ** The directory as a map *)

Inductive dir_op := Add (name : list Z) (sec : Z) | Remove (name : list Z) | Find (name : list Z).
Inductive answer := Done (ok : bool) | Found (sec : option Z).

Definition run_op (op : dir_op) : st fs answer :=
  match op with
  | Add name sec => ok ← dir_add junk p name sec; mret (Done ok)
  | Remove name => ok ← dir_remove junk p name; mret (Done ok)
  | Find name => o ← Directory.lookup junk p name; mret (Found ((λ x, inode_sector x.1) <$> o))
  end.

Fixpoint run_ops (ops : list dir_op) : st fs (list answer) :=
  match ops with [] => mret [] | op :: ops => a ← run_op op; l ← run_ops ops; mret (a :: l) end.

(** The same operations on a map with room for [N] names, and the files that
    are left. *)
Definition spec_op (m : gmap (list Z) Z) (F : gset Z) (op : dir_op) : answer * gmap (list Z) Z * gset Z :=
  match op with
  | Add name sec => (Done (add_ok m name), if add_ok m name then <[name := sec]> m else m, F)
  | Remove name => (Done (bool_decide (is_Some (m !! name))), delete name m, F ∖ option_to_set (m !! name))
  | Find name => (Found (m !! name), m, F)
  end.

Fixpoint spec_ops (m : gmap (list Z) Z) (F : gset Z) (ops : list dir_op) : list answer * gmap (list Z) Z * gset Z :=
  match ops with
  | [] => ([], m, F)
  | op :: ops => let '(a, m, F) := spec_op m F op in let '(l, m, F) := spec_ops m F ops in (a :: l, m, F)
  end.

(** Names are C strings, and a sector that is added is that of a file that has
    no name yet. *)
Definition legal_op (m : gmap (list Z) Z) (F : gset Z) (op : dir_op) : Prop :=
  match op with
  | Add name sec => no_null name ∧ sec ∈ F ∧ map_Forall (λ _ k, k ≠ sec) m
  | Remove name | Find name => no_null name
  end.

Fixpoint legal (m : gmap (list Z) Z) (F : gset Z) (ops : list dir_op) : Prop :=
  match ops with
  | [] => True
  | op :: ops => legal_op m F op ∧ let '(_, m, F) := spec_op m F op in legal m F ops
  end.

#[local] Instance legal_op_dec m F op : Decision (legal_op m F op).
Proof. destruct op; unfold legal_op, no_null; apply _. Defined.
#[global] Instance legal_dec ops : ∀ m F, Decision (legal m F ops).
Proof.
  induction ops as [|op ops IH]; intros m F; cbn [legal]; [apply _|].
  destruct (spec_op m F op) as [[a m'] F']. apply _.
Defined.

Lemma dir_op_ok s l m F op :
  volume s l m F → legal_op m F op →
  ∃ s' l', run_op op s = Ok ((spec_op m F op).1.1, s') ∧ volume s' l' (spec_op m F op).1.2 (spec_op m F op).2.
Proof using Hjunk.
  intros H Hop. destruct op as [name sec|name|name]; cbn [run_op spec_op fst snd].
  - destruct Hop as (Hn & Hs & Hnew). destruct (volume_add s l m F name sec H Hn Hs) as (s' & Hr & Hv);
      [intros n Hm; by apply (Hnew n sec Hm)|].
    exists s', l. by rewrite (st_bind_ok _ _ _ _ _ Hr).
  - destruct (volume_remove s l m F name H Hop) as (s' & Hr & Hv). eexists s', _. by rewrite (st_bind_ok _ _ _ _ _ Hr).
  - destruct (volume_lookup s l m F name H Hop) as (r & s' & Hr & Heq & Hv). exists s', l.
    by rewrite (st_bind_ok _ _ _ _ _ Hr), Heq.
Qed.

Lemma dir_ops_ok ops : ∀ s l m F,
  volume s l m F → legal m F ops →
  ∃ s' l', run_ops ops s = Ok ((spec_ops m F ops).1.1, s') ∧ volume s' l' (spec_ops m F ops).1.2 (spec_ops m F ops).2.
Proof using Hjunk.
  induction ops as [|op ops IH]; intros s l m F H Hlegal; [by exists s, l|]. cbn [legal spec_ops run_ops] in *.
  destruct Hlegal as [Hop Hrest]. destruct (dir_op_ok s l m F op H Hop) as (s1 & l1 & Hr & H1).
  rewrite (st_bind_ok _ _ _ _ _ Hr). destruct (spec_op m F op) as [[a m1] F1]. cbn [fst snd] in *.
  destruct (IH s1 l1 m1 F1 H1 Hrest) as (s2 & l2 & Hr2 & H2). rewrite (st_bind_ok _ _ _ _ _ Hr2).
  destruct (spec_ops m1 F1 ops) as [[l' m2] F2]. by exists s2, l2.
Qed.

End volume.


(** *** A formatted disk with two files, and its root directory *)

(** The file in sector 8 has no name. *)
Definition setup : st fs Z :=
  filesys_init (Some (disk blank_disk)) true;;
  filesys_create demo_junk [97; 98] 600;;
  filesys_create demo_junk [99] 0;;
  free_map_allocate 1;; inode_create 8 100;;
  dir_open_root.

Definition demo_root : inode := MkInode 1 1 false 0 (InodeDisk 3 320 INODE_MAGIC).
Definition demo_map : inode := MkInode 0 1 false 0 (InodeDisk 2 8 INODE_MAGIC).
Definition demo_bits : list bool := replicate 10 true ++ replicate 54 false.
Definition demo_entries : list (list Z) :=
  fill_entry (replicate 20 0) [97; 98] 4 :: fill_entry (replicate 20 0) [99] 7 :: replicate 14 (replicate 20 0).
Definition demo_names : gmap (list Z) Z := {[ [97; 98] := 4; [99] := 7 ]}.

Definition demo : fs :=
  Fs (match setup blank_disk with Ok (_, s) => disk s | Err _ => [] end)
     {[ 1061 := demo_root; 1008 := demo_map ]} [1061; 1008] {[ 1009 := File 1008 0 false ]} {[ 1062 := Dir 1061 0 ]}
     {[ 1000 := MkBitmap 64 [1023] ]} 1000 1009 [] 1063.

Example demo_reached : setup blank_disk = Ok (1062, demo).
Proof. vm_compute. reflexivity. Qed.

Lemma demo_disk_ok : sectors_ok (disk demo).
Proof. unfold sectors_ok, blocks. apply (bool_decide_unpack _). vm_compute. done. Qed.

Lemma demo_root_ok : inode_ok demo 1061 demo_root.
Proof. split; [done|done|simpl; lia|simpl; lia|by vm_compute|by vm_compute|apply demo_disk_ok]. Qed.

Lemma demo_map_ok : inode_ok demo 1008 demo_map.
Proof. split; [done|done|simpl; lia|simpl; lia|by vm_compute|by vm_compute|apply demo_disk_ok]. Qed.

Lemma demo_map_at : map_at demo 1008 demo_map demo_bits.
Proof.
  split; [|done|by exists 0, false|apply demo_map_ok|done|done|done|done]. split; [done|]. exists (MkBitmap 64 [1023]). split; [done|].
  exact (rep_of_words 64 [1023] ltac:(lia) eq_refl ltac:(repeat constructor; lia)).
Qed.

Lemma demo_dir_ok : dir_at demo 1062 1061 demo_root demo_entries [].
Proof.
  split; [by exists 0|done|apply demo_root_ok|done| |simpl; lia|by vm_compute].
  unfold blocks. apply (bool_decide_unpack _). by vm_compute.
Qed.

Lemma demo_lists : lists demo_entries demo_names.
Proof.
  split; [apply (da_blocks _ _ _ _ _ _ demo_dir_ok)| |].
  - unfold entry_ok. apply (bool_decide_unpack _). by vm_compute.
  - vm_compute. apply perm_swap.
Qed.

Lemma demo_inodes :
  inode_on demo 4 = InodeDisk 5 600 INODE_MAGIC ∧ inode_on demo 7 = InodeDisk 0 0 INODE_MAGIC ∧
  inode_on demo 8 = InodeDisk 9 100 INODE_MAGIC.
Proof. by vm_compute. Qed.

Lemma demo_owns k x :
  k ∈ ({[4; 7; 8]} : gset Z) → owns demo k x ↔ (k = 4 ∧ (4 ≤ x ≤ 6)%nat ∨ k = 7 ∧ x = 7%nat ∨ k = 8 ∧ (8 ≤ x ≤ 9)%nat).
Proof.
  intros Hk. unfold owns, file_data, data_start, data_count. destruct demo_inodes as (H4 & H7 & H8).
  rewrite !elem_of_union, !elem_of_singleton in Hk. destruct Hk as [[->| ->]| ->]; rewrite ?H4, ?H7, ?H8; cbn [i_start i_length].
  - change (Z.to_nat (bytes_to_sectors 600)) with 2%nat. lia.
  - change (Z.to_nat (bytes_to_sectors 0)) with 0%nat. lia.
  - change (Z.to_nat (bytes_to_sectors 100)) with 1%nat. lia.
Qed.

Lemma demo_file k : k ∈ ({[4; 7; 8]} : gset Z) → file_ok demo_root demo_map demo demo_bits k.
Proof.
  intros Hk. pose proof (λ x, demo_owns k x Hk) as Howns. destruct demo_inodes as (H4 & H7 & H8).
  rewrite !elem_of_union, !elem_of_singleton in Hk.
  assert (Hlow : ∀ x, (x < 10)%nat → demo_bits !! x = Some true) by (intros x Hx; do 10 (destruct x; [done|]); lia).
  split; [lia|simpl; lia|..].
  - unfold holds, first. simpl. lia.
  - destruct Hk as [[->| ->]| ->]; rewrite ?H4, ?H7, ?H8; simpl; lia.
  - destruct Hk as [[->| ->]| ->]; rewrite ?H4, ?H7, ?H8; simpl; lia.
  - unfold data_start, data_count. destruct Hk as [[->| ->]| ->]; rewrite ?H4, ?H7, ?H8; apply Nat.leb_le; by vm_compute.
  - unfold file_data, data_start, data_count. destruct Hk as [[->| ->]| ->]; rewrite ?H4, ?H7, ?H8; cbn [i_start i_length];
      [change (Z.to_nat (bytes_to_sectors 600)) with 2%nat|change (Z.to_nat (bytes_to_sectors 0)) with 0%nat|
       change (Z.to_nat (bytes_to_sectors 100)) with 1%nat]; lia.
  - intros x Hx. apply Howns in Hx. apply Hlow. lia.
Qed.

Lemma demo_fresh : open_ok demo ∧ fresh demo.
Proof.
  split.
  - split; [done|]. split; [done|]. apply Forall_cons. split; [split; [done|]; by exists demo_root|].
    apply Forall_cons. split; [split; [done|]; by exists demo_map|constructor].
  - intros x j Hx. cbn [demo inodes brk] in *. apply lookup_insert_Some in Hx as [[<- _]|[_ Hx]]; [lia|].
    apply lookup_singleton_Some in Hx as [<- _]. lia.
Qed.

Lemma demo_volume : volume 1062 1061 demo_root 1008 demo_map 16 demo demo_bits demo_names {[4; 7; 8]}.
Proof.
  destruct demo_fresh. assert (Hm : ∀ n k, demo_names !! n = Some k → n = [97; 98] ∧ k = 4 ∨ n = [99] ∧ k = 7).
  { unfold demo_names. intros n k [[<- <-]|[_ [<- <-]%lookup_singleton_Some]]%lookup_insert_Some; auto. }
  split; [|apply demo_map_at|by vm_compute|done| |done|done|apply demo_file| | |].
  - exists demo_entries, []. split; [apply demo_dir_ok|]. split; [apply demo_lists|done].
  - intros k. unfold holds, first. simpl. lia.
  - intros k k' x Hk Hk'. rewrite !demo_owns by done. lia.
  - intros n k [[_ ->]|[_ ->]]%Hm; set_solver.
  - intros n1 n2 k [[-> ->]|[-> ->]]%Hm [[-> ?]|[-> ?]]%Hm; done.
Qed.

(** Sector 8 gets a name once "c" is free; the names that are too long, there
    already or gone are refused. *)
Definition demo_ops : list dir_op :=
  [Add (replicate 15 97) 8; Add [99] 8; Remove [99]; Remove [99]; Add [99] 8; Find [99]; Find [97; 98]; Remove [97; 98];
   Find [97; 98]].


(** ** Creating a file *)

Lemma write_sector s (k : nat) b :
  sectors_ok (disk s) → (k < length (disk s))%nat → length b = 512%nat → outcomes s = [] →
  frame (λ x, x = k) s (set_disk (<[k := b]> (disk s)) s).
Proof.
  intros Hd Hk Hb Ho. split; try done; simpl; [by apply Forall_insert|by rewrite length_insert|].
  intros x Hx. by rewrite list_lookup_insert_ne.
Qed.

Lemma zero_sectors_ok n : ∀ s (start : nat),
  sectors_ok (disk s) → (start + n ≤ length (disk s))%nat → Z.of_nat (length (disk s)) < 2 ^ 32 → outcomes s = [] →
  ∃ s', zero_sectors n (Z.of_nat start) s = Ok (tt, s') ∧ frame (λ x, (start ≤ x < start + n)%nat) s s' ∧ bitmaps s' = bitmaps s.
Proof.
  induction n as [|n IH]; intros s start Hd Hn Hl Ho; [by exists s|]. cbn [zero_sectors]. rewrite u32_small by lia.
  rewrite (st_bind_ok _ _ _ _ _ (disk_write_ok s start (replicate 512 0) ltac:(lia))).
  pose proof (write_sector s start (replicate 512 0) Hd ltac:(lia) eq_refl Ho) as Hf.
  pose proof (fr_length _ _ _ Hf) as Hlen.
  replace (Z.of_nat start + 1) with (Z.of_nat (S start)) by lia.
  destruct (IH _ (S start) (fr_sectors _ _ _ Hf)) as (s' & Hr & Hf' & Hb); [lia|lia|done|].
  exists s'. split; [done|]. split; [|done]. eapply frame_then; (eapply frame_weaken; [|eassumption]); simpl; lia.
Qed.

(** How many sectors the data of a file takes. *)
Definition sectors_of (size : Z) : nat := Z.to_nat (bytes_to_sectors size).

Lemma sectors_of_eq size : bytes_to_sectors size = Z.of_nat (sectors_of size).
Proof. unfold sectors_of. rewrite Z2Nat.id; [done|]. unfold bytes_to_sectors, u64. apply Z.mod_pos_bound. lia. Qed.

Lemma inode_create_ok s fq fi l (sec k : nat) size :
  map_at s fq fi l → length l = length (disk s) → 0 ≤ size → (sec < length l)%nat → group k (sectors_of size) false l →
  ∃ start s', inode_create (Z.of_nat sec) size s = Ok (true, s') ∧ group start (sectors_of size) false l ∧
    map_at s' fq fi (fill start (sectors_of size) true l) ∧
    frame (λ x, holds fi x ∨ x = sec ∨ (start ≤ x < start + sectors_of size)%nat) s s'.
Proof.
  intros Hm Hl Hs Hsec Hk. destruct (ma_alloc _ _ _ _ Hm) as [Ho Hb]. pose proof (ma_inode _ _ _ _ Hm) as Hi.
  pose proof (io_sectors _ _ _ Hi) as Hd. pose proof (io_disk _ _ _ Hi) as H32.
  assert (Hal := λ R, frame_alloc R s (brk s + 1) Hd ltac:(lia)). set (s1 := set_alloc [] (brk s + 1) s) in *.
  destruct (allocate_ok s1 fq fi l k (sectors_of size)) as (start & s2 & Hr2 & _ & Hg & Hf2 & Hm2);
    [by apply (map_at_frame (λ _, False) s)|done|]. pose proof (fr_length _ _ _ Hf2) as Hl2. pose proof Hg as [Hgl _].
  change (length (disk s1)) with (length (disk s)) in Hl2.
  pose proof (write_sector s2 sec (encode_inode (InodeDisk (Z.of_nat start) size INODE_MAGIC)) (fr_sectors _ _ _ Hf2) ltac:(lia)
    eq_refl (fr_outcomes _ _ _ Hf2)) as Hf3.
  set (s3 := set_disk _ s2) in Hf3. pose proof (fr_length _ _ _ Hf3) as Hl3.
  destruct (zero_sectors_ok (sectors_of size) s3 start (fr_sectors _ _ _ Hf3)) as (s4 & Hr4 & Hf4 & Hb4);
    [lia|lia|apply (fr_outcomes _ _ _ Hf3)|].
  exists start, s4. split_and!; [|done| |].
  - unfold inode_create. rewrite (st_bind_ok _ _ _ tt s) by (apply ASSERT_true, Z.leb_le; lia).
    rewrite (st_bind_ok _ _ _ (brk s) s1) by (unfold malloc; by rewrite Ho).
    destruct (Z.eqb_spec (brk s) NULL); [unfold NULL in *; lia|]. rewrite sectors_of_eq, (st_bind_ok _ _ _ _ _ Hr2).
    rewrite (st_bind_ok _ _ _ _ _ (disk_write_ok s2 sec _ ltac:(lia))), Nat2Z.id. fold s3. by rewrite (st_bind_ok _ _ _ _ _ Hr4).
  - eapply map_at_frame; [exact Hf4|done|]. eapply map_at_frame; [exact Hf3|done|done].
  - apply (frame_then _ _ s1); [apply Hal|]. apply (frame_then _ _ s2); [eapply frame_weaken; [|exact Hf2]; simpl; tauto|].
    apply (frame_then _ _ s3); (eapply frame_weaken; [|eassumption]; simpl; tauto).
Qed.

(** *** Opening and closing again *)

Lemma opened_at s sec q i s1 :
  opened s sec q i s1 → open_ok s → fresh s →
  q ≠ NULL ∧ ∃ im o b, s1 = set_inodes im o (set_alloc [] b s) ∧ brk s ≤ b ∧ im !! q = Some i ∧
    ∀ y j, inodes s !! y = Some j → sector j ≠ sec → im !! y = Some j.
Proof.
  intros Hop Hok Hfr. destruct (new_inode s Hok Hfr) as (Hn & Hnone & _). destruct Hok as (Ho & _ & _).
  destruct Hop as [q i _ _ Hi Hs Hq Hc|bytes _ Hb]; (split; [done|]).
  - eexists _, _, (brk s). split; [by rewrite <- set_alloc_id|]. split; [lia|]. split; [apply lookup_insert_eq|].
    intros y j Hy Hne. rewrite lookup_insert_ne; [done|]. congruence.
  - eexists _, _, (brk s + 1). split; [done|]. split; [lia|]. split; [apply lookup_insert_eq|].
    intros y j Hy _. rewrite lookup_insert_ne; [done|]. congruence.
Qed.

Lemma opened_closes s sec q i s1 s' :
  opened s sec q i s1 → open_ok s → fresh s → inodes s' = inodes s1 → open_inodes s' = open_inodes s1 →
  inode_close q s' = Ok (tt, set_inodes (inodes s) (open_inodes s) s').
Proof.
  intros Hop Hok Hfr Hin Ho. destruct (new_inode s Hok Hfr) as (Hn & Hnone & Hflt).
  destruct Hop as [q i _ _ Hi Hs Hq Hc|bytes _ Hb]; cbn [inodes open_inodes set_inodes] in *.
  - rewrite (close_again s' q (bump 1 i)); [|by rewrite Hin, lookup_insert_eq|done|simpl; lia].
    rewrite Hin, Ho, insert_insert_eq, insert_id; [done|]. rewrite Hi. f_equal. destruct i. unfold bump. simpl. f_equal. lia.
  - rewrite (close_last s' (brk s) (MkInode sec 1 false 0 (decode_inode bytes))); [|by rewrite Hin, lookup_insert_eq|done..].
    by rewrite Hin, Ho, delete_insert_eq, delete_id, Hflt.
Qed.

(** *** The root directory *)

(** The root directory's inode: in memory, or on the disk. *)
Definition root_inode (s : fs) : option inode :=
  match first_open s (open_inodes s) ROOT_DIR_SECTOR with
  | Some q => inodes s !! q
  | None => (λ b, MkInode ROOT_DIR_SECTOR 0 false 0 (decode_inode b)) <$> disk s !! Z.to_nat ROOT_DIR_SECTOR
  end.

(** A volume whose root directory has the inode [r] and the entries [es]. *)
Record rooted (s : fs) (fq : Z) (fi : inode) (l : list bool) (r : inode) (es : list (list Z)) (rest : list Z) : Prop := {
  ro_map : map_at s fq fi l;
  ro_disk : length l = length (disk s);
  ro_open : open_ok s;
  ro_fresh : fresh s;
  ro_root : root_inode s = Some r;
  ro_deny : deny_write_cnt r = 0;
  ro_start : 0 ≤ i_start (data r);
  ro_length : 0 ≤ i_length (data r) < 2 ^ 31 - 512;
  ro_end : 512 * i_start (data r) + i_length (data r) ≤ 512 * Z.of_nat (length (disk s));
  ro_blocks : blocks 20 es;
  ro_rest : (length rest < 20)%nat;
  ro_content : content s r = concat es ++ rest;
  ro_apart : ∀ k, holds r k → ¬ holds fi k;
  ro_used : ∀ k, holds r k ∨ holds fi k ∨ k = 0%nat ∨ k = 1%nat → l !! k = Some true;
  ro_sector : ¬ (holds r 1 ∨ holds fi 1);
  ro_other : sector fi ≠ ROOT_DIR_SECTOR }.

Lemma root_opens s fq fi l r es rest :
  rooted s fq fi l r es rest → ∃ q s1, inode_open ROOT_DIR_SECTOR s = Ok (q, s1) ∧ opened s ROOT_DIR_SECTOR q (bump 1 r) s1.
Proof.
  intros H. assert (Hu : l !! 1%nat = Some true) by (apply (ro_used _ _ _ _ _ _ _ H); tauto). apply lookup_lt_Some in Hu.
  destruct (inode_open_ok s ROOT_DIR_SECTOR (ro_open _ _ _ _ _ _ _ H)) as (q & i & s1 & Hr & Hop).
  { unfold ROOT_DIR_SECTOR. rewrite <- (ro_disk _ _ _ _ _ _ _ H). lia. }
  exists q, s1. split; [done|]. pose proof (ro_root _ _ _ _ _ _ _ H) as Hroot. unfold root_inode in Hroot.
  destruct Hop as [q i Hf Hin Hi Hs Hq Hc|bytes Hf Hb]; rewrite Hf in Hroot.
  - assert (i = r) as -> by congruence. by constructor.
  - rewrite Hb in Hroot. injection Hroot as <-. by constructor.
Qed.

(** [dir_open_root]: the directory that is returned. *)
Lemma root_dir_opens s fq fi l r es rest :
  rooted s fq fi l r es rest →
  ∃ p q s1 s2, dir_open_root s = Ok (p, s2) ∧ opened s ROOT_DIR_SECTOR q (bump 1 r) s1 ∧
    inodes s2 = inodes s1 ∧ open_inodes s2 = open_inodes s1 ∧ disk s2 = disk s ∧ brk s ≤ brk s2 ∧
    dir_at s2 p q (bump 1 r) es rest ∧ map_at s2 fq fi l.
Proof.
  intros H. destruct (root_opens _ _ _ _ _ _ _ H) as (q & s1 & Hr & Hop).
  pose proof (ro_map _ _ _ _ _ _ _ H) as Hm. pose proof (ma_inode _ _ _ _ Hm) as Hi. destruct (ma_alloc _ _ _ _ Hm) as [Ho Hb].
  destruct (opened_at _ _ _ _ _ Hop (ro_open _ _ _ _ _ _ _ H) (ro_fresh _ _ _ _ _ _ _ H)) as (Hq & im & o & b & -> & Hbb & Hqi & Hothers).
  eexists b, q, _, (set_dirs (<[b := Dir q 0]> (dirs s)) (set_inodes im o (set_alloc [] (b + 1) s))).
  split_and!; [|exact Hop|done|done|done|simpl; lia| |].
  - unfold dir_open_root. rewrite (st_bind_ok _ _ _ _ _ Hr). unfold dir_open.
    rewrite (st_bind_ok _ _ _ b (set_inodes im o (set_alloc [] (b + 1) s))) by done.
    destruct (Z.eqb_spec q NULL); [done|]. destruct (Z.eqb_spec b NULL); [unfold NULL in *; lia|]. done.
  - split; [exists 0; apply lookup_insert_eq|unfold NULL; lia| |split; [done|simpl; lia]|apply H|apply H|apply H].
    split; [done|done|apply H|apply H|apply H|apply (io_disk _ _ _ Hi)|apply (io_sectors _ _ _ Hi)].
  - destruct Hm as [H1 H2 H3 _ H5 H6 H7 _]. split; try done; [|simpl; split; [done|lia]].
    destruct Hi. split; try done. by apply Hothers, H.
Qed.

(** *** A file that cannot be added *)

(** Why [dir_add] refuses a name: it is empty or too long, there already, or
    all entries are in use. *)
Definition refused (es : list (list Z)) (name : list Z) : Prop :=
  name = [] ∨ (14 < length name)%nat ∨ dir_find es name ≠ None ∨ existsb (λ e, negb (in_use e)) es = false.

Lemma dir_add_refuses junk s p q i es rest name sec :
  dir_at s p q i es rest → deny_write_cnt i = 0 → length junk = 20%nat → no_null name → refused es name →
  ∃ s' rest', dir_add junk p name sec s = Ok (false, s') ∧ dir_at s' p q i es rest' ∧ frame (holds i) s s' ∧ bitmaps s' = bitmaps s.
Proof.
  intros H Hd Hj Hn Hr. destruct (decide (name ≠ [] ∧ (length name ≤ 14)%nat)) as [Hv|Hv].
  - destruct (dir_add_ok junk s p q i es rest name sec H Hd Hj) as (ok & s' & es' & rest' & Hrun & H' & Hf & Hb & Hc);
      [split_and!; [apply Hv|apply Hv|done]|].
    destruct Hc as [(-> & -> & _)|(_ & Hf1 & Hf2 & _)]; [by exists s', rest'|].
    destruct Hr as [?|[?|[?|?]]]; [tauto|lia|done|congruence].
  - exists s, rest. split; [apply dir_add_invalid; [apply (da_ptr _ _ _ _ _ _ H)|done]|]. split; [done|]. split; [|done].
    split; try done; [apply (da_alloc _ _ _ _ _ _ H)|apply (io_sectors _ _ _ (da_inode _ _ _ _ _ _ H))].
Qed.

Lemma group_at start n v (l : list bool) x : group start n v l → (start ≤ x < start + n)%nat → l !! x = Some v.
Proof.
  intros [Hl Hr] Hx. replace x with (start + (x - start))%nat by lia. rewrite <- lookup_drop.
  rewrite <- (lookup_take_lt _ n) by lia. fold (range start n l). rewrite Hr. apply lookup_replicate_2. lia.
Qed.

(** The sector of the inode is given back, those of the data are not. *)
Lemma fill_leak sec start n (l : list bool) :
  group sec 1 false l → group start n false (fill sec 1 true l) →
  group start n false l ∧ group sec 1 true (fill start n true (fill sec 1 true l)) ∧
  fill sec 1 false (fill start n true (fill sec 1 true l)) = fill start n true l.
Proof.
  intros H1 H2. pose proof H1 as [Hs _]. pose proof H2 as [Hn _]. rewrite length_fill in Hn by done.
  assert (Hout : ∀ x, (start ≤ x < start + n)%nat → x ≠ sec ∧ l !! x = Some false).
  { intros x Hx. pose proof (group_at _ _ _ _ x H2 Hx) as Hf. rewrite fill_lookup in Hf by done. case_decide; [done|]. split; [lia|done]. }
  assert (Hsec : ¬ (start ≤ sec < start + n)%nat) by (intros Hx; by destruct (Hout sec Hx)).
  split_and!; [apply group_lookup; [done|]; intros x Hx; by apply Hout|..].
  - apply group_lookup; rewrite ?length_fill by (rewrite ?length_fill; done); [done|]. intros x Hx.
    rewrite !fill_lookup by (rewrite ?length_fill; done). rewrite decide_False by lia. by rewrite decide_True by lia.
  - apply list_eq. intros x. rewrite !fill_lookup by (rewrite ?length_fill by (rewrite ?length_fill; done); done).
    destruct (decide (sec ≤ x < sec + 1)%nat); [|by case_decide]. rewrite decide_False by lia.
    symmetry. by apply (group_at sec 1).
Qed.

(** The body of [filesys_create] on the open root directory [p], and the
    release of the inode's sector. *)
Lemma create_refused junk s p q i es rest fq fi l k name size :
  dir_at s p q i es rest → map_at s fq fi l → length l = length (disk s) → deny_write_cnt i = 0 →
  (∀ x, holds i x → ¬ holds fi x) → (∀ x, holds i x ∨ x = 0%nat → l !! x = Some true) →
  length junk = 20%nat → no_null name → refused es name → 0 ≤ size → group k (S (sectors_of size)) false l →
  ∃ (sec start : nat) s1 s2 rest', (0 < sec)%nat ∧
    (o ← free_map_allocate 1;
     match o with
     | None => mret (false, 0)
     | Some sec => ok ← inode_create sec size;
                   if negb ok then mret (false, sec) else ok ← dir_add junk p name sec; mret (ok, sec)
     end) s = Ok ((false, Z.of_nat sec), s1) ∧
    free_map_release (Z.of_nat sec) 1 s1 = Ok (tt, s2) ∧ group start (sectors_of size) false l ∧
    frame (λ x, holds fi x ∨ holds i x ∨ l !! x = Some false) s s2 ∧ dir_at s2 p q i es rest' ∧
    map_at s2 fq fi (fill start (sectors_of size) true l).
Proof.
  intros Hd Hm Hl Hdeny Hap Hused Hj Hn Hr Hs Hk. set (n := sectors_of size) in *. pose proof Hk as [Hkl _].
  destruct (allocate_ok s fq fi l k 1 Hm) as (sec & s1 & Hr1 & Hle & Hg1 & Hf1 & Hm1).
  { apply group_lookup; [lia|]. intros x Hx. apply (group_at _ _ _ _ _ Hk). lia. }
  pose proof Hg1 as [Hsl _]. pose proof (group_at _ _ _ _ sec Hg1 ltac:(lia)) as Hsec.
  destruct (inode_create_ok s1 fq fi _ sec (S k) size Hm1) as (start & s2 & Hr2 & Hg2 & Hm2 & Hf2);
    [rewrite length_fill by done; rewrite Hl; symmetry; apply (fr_length _ _ _ Hf1)|done|rewrite length_fill; lia| |].
  { apply group_lookup; rewrite ?length_fill by done; [lia|]. intros x Hx. rewrite fill_lookup by done.
    rewrite decide_False by lia. apply (group_at _ _ _ _ _ Hk). lia. }
  fold n in Hg2, Hm2, Hf2. destruct (fill_leak sec start n l Hg1 Hg2) as (Hg & Hback & Hleak).
  assert (Hdata : ∀ x, holds i x → ¬ (holds fi x ∨ x = sec ∨ (start ≤ x < start + n)%nat)).
  { intros x Hx [Hfx|[->|Hin]]; [by apply (Hap x)|rewrite (Hused sec) in Hsec by tauto; done|].
    pose proof (group_at _ _ _ _ _ Hg Hin) as Hfx. rewrite (Hused x) in Hfx by tauto. done. }
  assert (Hd2 : dir_at s2 p q i es rest).
  { apply (frame_dir _ s1 s2 _ _ _ _ _ Hf2); [|done]. by apply (frame_dir _ s s1 _ _ _ _ _ Hf1). }
  destruct (dir_add_refuses junk s2 p q i es rest name (Z.of_nat sec) Hd2 Hdeny Hj Hn Hr) as (s3 & rest' & Hr3 & Hd3 & Hf3 & Hb3).
  destruct (map_release_ok s3 fq fi _ sec 1 (map_at_frame _ _ _ _ _ _ Hf3 Hb3 Hm2) Hback) as (s4 & Hr4 & Hf4 & Hm4).
  rewrite Hleak in Hm4. exists sec, start, s3, s4, rest'. split_and!; try done.
  - destruct sec; [|lia]. rewrite (Hused 0%nat) in Hsec by tauto. done.
  - rewrite (st_bind_ok _ _ _ _ _ Hr1), (st_bind_ok _ _ _ _ _ Hr2). cbn [negb]. by rewrite (st_bind_ok _ _ _ _ _ Hr3).
  - apply (frame_then _ _ s1); [eapply frame_weaken; [|exact Hf1]; simpl; tauto|].
    apply (frame_then _ _ s2); [eapply frame_weaken; [|exact Hf2]; simpl; intros x [?|[->|Hin]]; [tauto|tauto|]|].
    { right. right. by apply (group_at _ _ _ _ _ Hg). }
    apply (frame_then _ _ s3); (eapply frame_weaken; [|eassumption]; simpl; tauto).
  - by apply (frame_dir _ s3 s4 _ _ _ _ _ Hf4).
Qed.

Lemma first_open_ext s s' o sec : inodes s' = inodes s → first_open s' o sec = first_open s o sec.
Proof. intros H. induction o as [|p o IH]; [done|]. cbn [first_open]. by rewrite H, IH. Qed.

(** The volume once the root directory is closed again. *)
Lemma rooted_closed s fq fi l r es rest s2 s3 p q l' rest' :
  rooted s fq fi l r es rest → disk s2 = disk s → brk s ≤ brk s2 →
  frame (λ x, holds fi x ∨ holds r x ∨ l !! x = Some false) s2 s3 →
  dir_at s3 p q (bump 1 r) es rest' → map_at s3 fq fi l' → length l' = length l →
  (∀ x, l !! x = Some true → l' !! x = Some true) →
  rooted (set_dirs (delete p (dirs s3)) (set_inodes (inodes s) (open_inodes s) s3)) fq fi l' r es rest'.
Proof.
  intros [] Hdisk Hbrk Hf Hd Hm Hl Hkeep. set (s4 := set_dirs _ _). pose proof (fr_brk _ _ _ Hf). pose proof (fr_length _ _ _ Hf) as Hlen.
  assert (Hlen4 : length (disk s4) = length (disk s)) by (cbn; by rewrite Hlen, Hdisk). destruct ro_open0 as (Ho & Hb & Hall).
  split; try done.
  - destruct Hm as [H1 H2 H3 H4 H5 H6 H7 [H8 H9]]. split; try done. destruct H4. split; try done.
    apply (io_at _ _ _ (ma_inode _ _ _ _ ro_map0)).
  - by rewrite Hl, Hlen4.
  - split; [apply (fr_outcomes _ _ _ Hf)|]. split; [cbn; lia|done].
  - intros x j Hx. specialize (ro_fresh0 x j Hx). cbn. lia.
  - unfold root_inode. rewrite (first_open_ext s s4) by done. change (open_inodes s4) with (open_inodes s).
    assert (disk s4 !! Z.to_nat ROOT_DIR_SECTOR = disk s !! Z.to_nat ROOT_DIR_SECTOR) as ->; [|done].
    rewrite <- Hdisk. apply (fr_same _ _ _ Hf). change (Z.to_nat ROOT_DIR_SECTOR) with 1%nat. intros [?|[?|Hfree]]; [tauto|tauto|].
    rewrite ro_used0 in Hfree by tauto. done.
  - by rewrite Hlen4.
  - apply (da_rest _ _ _ _ _ _ Hd).
  - exact (da_content _ _ _ _ _ _ Hd).
  - intros x Hx. by apply Hkeep, ro_used0.
Qed.


Lemma demo_rooted : rooted demo 1008 demo_map demo_bits demo_root demo_entries [].
Proof.
  destruct demo_fresh. pose proof demo_root_ok as []. pose proof demo_dir_ok as [].
  split; [apply demo_map_at|by vm_compute|assumption|assumption|by vm_compute|reflexivity|assumption|assumption|assumption|assumption|
    assumption|assumption|unfold holds, first; simpl; lia| |unfold holds, first; simpl; lia|discriminate].
  intros k Hk. assert (k < 10)%nat by (unfold holds, first in Hk; simpl in Hk; lia). do 10 (destruct k; [done|]). lia.
Qed.


(** The same on a disk that has just been formatted, its root directory not
    open: the bits of the free map before and after. *)
Definition used (s : fs) : list Z := default [] (Bitmap.bits <$> bitmaps s !! free_map s).

Example leak_on_blank_disk :
  match (filesys_init (Some (disk blank_disk)) true;;
         before ← st_gets used;
         ok ← filesys_create demo_junk (replicate 15 97) 1000;
         after ← st_gets used;
         mret (before, ok, after)) blank_disk with
  | Ok (r, _) => r = ([15], false, [111])
  | Err _ => False
  end.
Proof. vm_compute. reflexivity. Qed.

End Volume.
