(* ===== verification/Random.v ===== *)
(** lib/random.c: the RC4-based generator of pseudo-random numbers.

    The statics are the array [s], the indices [s_i] and [s_j] and [inited].
    Indices are of type uint8_t, so that no access leaves the array. *)
From S2P Require Import Prelude.
Local Open Scope Z_scope.

Module Random.

Record prng := Prng { s : list Z; s_i : Z; s_j : Z; inited : bool }.

(** The byte of an array of 256 at an index of type uint8_t. *)
Definition at_ (l : list Z) (i : Z) : Z := default 0 (l !! Z.to_nat i).

Definition swap_byte (a b : Z) (l : list Z) : list Z :=
  let t := at_ l a in
  let l := <[Z.to_nat a := at_ l b]> l in
  <[Z.to_nat b := t]> l.

(** Byte [i] of the seed in memory. *)
Definition seedp (seed i : Z) : Z := u8 (Z.shiftr seed (8 * i)).

(** The second loop of [random_init]: [k] iterations are left. *)
Fixpoint key_loop (k : nat) (i j seed : Z) (l : list Z) : list Z :=
  match k with
  | O => l
  | S k =>
    let j := u8 (j + u8 (at_ l i + seedp seed (i mod 4))) in
    key_loop k (i + 1) j seed (swap_byte i j l)
  end.

Definition random_init (seed : Z) (g : prng) : prng :=
  Prng (key_loop 256 0 0 seed (Z.of_nat <$> seq 0 256)) 0 0 true.

(** One iteration of [random_bytes]: the byte and the new state. *)
Definition random_byte (g : prng) : Z * prng :=
  let i := u8 (s_i g + 1) in
  let j := u8 (s_j g + at_ (s g) i) in
  let l := swap_byte i j (s g) in
  let k := u8 (at_ l i + at_ l j) in
  (at_ l k, Prng l i j (inited g)).

Fixpoint bytes_loop (size : nat) (g : prng) : list Z * prng :=
  match size with
  | O => ([], g)
  | S size => let '(b, g) := random_byte g in
              let '(buf, g) := bytes_loop size g in (b :: buf, g)
  end.

Definition random_bytes (size : nat) (g : prng) : list Z * prng :=
  bytes_loop size (if inited g then g else random_init 0 g).

Definition random_ulong (g : prng) : Z * prng :=
  let '(buf, g) := random_bytes 8 g in (foldr (λ b acc, b + 256 * acc) 0 buf, g).

(** ** The array stays a permutation *)

Definition perm256 (l : list Z) : Prop := l ≡ₚ (Z.of_nat <$> seq 0 256).

Lemma perm256_length l : perm256 l → length l = 256%nat.
Proof. intros Hp. unfold perm256 in Hp. rewrite Hp. by rewrite length_fmap, length_seq. Qed.

Lemma delete_insert (l : list Z) i x : delete i (<[i := x]> l) = delete i l.
Proof. revert i. induction l as [|y l IH]; intros [|i]; simpl; [done..|by f_equal; apply IH]. Qed.

Lemma swap_perm (l : list Z) (a b : nat) x y :
  l !! a = Some x → l !! b = Some y → <[b := x]> (<[a := y]> l) ≡ₚ l.
Proof.
  intros Ha Hb. destruct (decide (a = b)) as [->|Hne].
  { rewrite list_insert_insert_eq, list_insert_id; [done|]. done. }
  assert (Hlt : (b < length l)%nat) by (by apply lookup_lt_Some in Hb).
  assert (Hlta : (a < length l)%nat) by (by apply lookup_lt_Some in Ha).
  assert (H1 : <[a := y]> l ≡ₚ y :: delete b (<[a := y]> l))
    by (apply delete_Permutation; by rewrite list_lookup_insert_ne).
  assert (H2 : <[a := y]> l ≡ₚ y :: delete a l).
  { rewrite <- (delete_insert l a y). apply delete_Permutation. by apply list_lookup_insert_eq. }
  rewrite (delete_Permutation (<[b := x]> (<[a := y]> l)) b x)
    by (apply list_lookup_insert_eq; by rewrite length_insert).
  rewrite delete_insert. transitivity (x :: delete a l); [apply perm_skip|symmetry; by apply delete_Permutation].
  apply (Permutation_cons_inv (a := y)). by rewrite <- H1.
Qed.

Lemma at_lookup l i : perm256 l → 0 ≤ i < 256 → l !! Z.to_nat i = Some (at_ l i) ∧ 0 ≤ at_ l i < 256.
Proof.
  intros Hp Hi. pose proof (perm256_length l Hp) as Hl.
  destruct (lookup_lt_is_Some_2 l (Z.to_nat i)) as [x Hx]; [lia|]. unfold at_. rewrite Hx. split; [done|]. simpl.
  apply list_elem_of_lookup_2 in Hx. unfold perm256 in Hp. rewrite Hp in Hx.
  apply list_elem_of_fmap in Hx as (n & -> & Hn%elem_of_seq). lia.
Qed.

Lemma swap_byte_perm l a b : perm256 l → 0 ≤ a < 256 → 0 ≤ b < 256 → perm256 (swap_byte a b l).
Proof.
  intros Hp Ha Hb. destruct (at_lookup l a Hp Ha) as [Hla _], (at_lookup l b Hp Hb) as [Hlb _].
  unfold perm256, swap_byte. by rewrite (swap_perm l _ _ _ _ Hla Hlb).
Qed.

Lemma key_loop_perm k : ∀ i j seed l,
  perm256 l → 0 ≤ i → i + Z.of_nat k ≤ 256 → perm256 (key_loop k i j seed l).
Proof.
  induction k as [|k IH]; intros i j seed l Hp Hi Hk; [done|]. cbn [key_loop]. apply IH; [|lia|lia].
  apply swap_byte_perm; [done|lia|apply u8_range].
Qed.

(** The state between two calls. *)
Definition prng_ok (g : prng) : Prop := (inited g = true → perm256 (s g)) ∧ 0 ≤ s_i g < 256 ∧ 0 ≤ s_j g < 256.

Lemma random_init_ok seed g : perm256 (s (random_init seed g)) ∧ prng_ok (random_init seed g).
Proof.
  assert (Hp : perm256 (s (random_init seed g))) by (apply key_loop_perm; [unfold perm256; reflexivity|lia|lia]).
  split; [done|]. split; [done|simpl; lia].
Qed.

Lemma random_byte_ok g :
  perm256 (s g) → let '(b, g') := random_byte g in
  0 ≤ b < 256 ∧ perm256 (s g') ∧ 0 ≤ s_i g' < 256 ∧ 0 ≤ s_j g' < 256 ∧ inited g' = inited g.
Proof.
  intros Hp. unfold random_byte. simpl. pose proof (u8_range (s_i g + 1)). pose proof (u8_range (s_j g + at_ (s g) (u8 (s_i g + 1)))).
  assert (Hs : perm256 (swap_byte (u8 (s_i g + 1)) (u8 (s_j g + at_ (s g) (u8 (s_i g + 1)))) (s g))).
  { apply swap_byte_perm; [done|lia|lia]. }
  split; [|done]. apply at_lookup; [done|apply u8_range].
Qed.

Lemma bytes_loop_ok n : ∀ g, perm256 (s g) → 0 ≤ s_i g < 256 → 0 ≤ s_j g < 256 →
  let '(buf, g') := bytes_loop n g in
  length buf = n ∧ Forall (λ b, 0 ≤ b < 256) buf ∧ perm256 (s g') ∧ 0 ≤ s_i g' < 256 ∧ 0 ≤ s_j g' < 256 ∧
  inited g' = inited g.
Proof.
  induction n as [|n IH]; intros g Hp Hi Hj; [done|]. cbn [bytes_loop].
  pose proof (random_byte_ok g Hp) as Hb. destruct (random_byte g) as [b g1].
  destruct Hb as (Hb & Hp1 & Hi1 & Hj1 & Hin). specialize (IH g1 Hp1 Hi1 Hj1).
  destruct (bytes_loop n g1) as [buf g2]. destruct IH as (Hlen & Hf & Hp2 & Hi2 & Hj2 & Hin2).
  simpl. split_and!; [by rewrite Hlen|by apply Forall_cons|done|lia..|congruence].
Qed.

(** ** Theorem *)

(** The generator's array of 256 bytes is a permutation of 0 to 255 after
    [random_init] and after every [random_bytes], whatever was asked of it
    before, so that all of its indices stay inside it; and [random_bytes]
    fills the whole buffer with bytes. *)
Theorem random_state_permutation g n :
  prng_ok g →
  let '(buf, g') := random_bytes n g in
  length buf = n ∧ Forall (λ b, 0 ≤ b < 256) buf ∧ perm256 (s g') ∧ prng_ok g'.
Proof.
  intros (Hp & Hi & Hj). unfold random_bytes. set (g0 := if inited g then g else random_init 0 g).
  assert (H0 : perm256 (s g0) ∧ 0 ≤ s_i g0 < 256 ∧ 0 ≤ s_j g0 < 256).
  { unfold g0. destruct (inited g); [by split; [apply Hp|]|]. destruct (random_init_ok 0 g) as (? & ? & ? & ?). done. }
  destruct H0 as (Hp0 & Hi0 & Hj0). pose proof (bytes_loop_ok n g0 Hp0 Hi0 Hj0) as H.
  destruct (bytes_loop n g0) as [buf g']. destruct H as (H1 & H2 & H3 & H4 & H5 & _). done.
Qed.

Lemma random_state_permutation_witness :
  let '(buf, g') := random_bytes 3 (Prng [] 0 0 false) in
  length buf = 3%nat ∧ Forall (λ b, 0 ≤ b < 256) buf ∧ perm256 (s g') ∧ prng_ok g'.
Proof. apply random_state_permutation. split; [done|simpl; lia]. Defined.

End Random.
