(* ===== verification/Intq.v ===== *)
(** devices/intq.c: the circular queue between kernel threads and interrupt
    handlers.

    Interrupts are off in every function but [intq_init] (its callers see to
    that, and the functions ASSERT it), so that each runs as one step up to the
    point where a thread sleeps in [wait].  A call is therefore a step: it
    returns, or it puts the calling thread [cur] to sleep with
    [thread_block] or in [lock_acquire], and goes on from there when it runs
    again.  [context] says whether the caller is an interrupt handler; [lock]
    is the thread that holds the queue's lock. *)
From S2P Require Import Prelude.
Local Open Scope Z_scope.

Module Intq.

Definition INTQ_BUFSIZE : Z := 64.

Record intq := Intq {
  lock : Z; not_full : Z; not_empty : Z; buf : list Z; head : Z; tail : Z }.

(** What a step does to threads: nothing, or it unblocks one. *)
Definition wakes : Type := list Z.

Definition intq_init (q : intq) : intq := Intq NULL NULL NULL (buf q) 0 0.

Definition next (pos : Z) : Z := Z.rem (pos + 1) INTQ_BUFSIZE.

Definition intq_empty (q : intq) : bool := head q =? tail q.
Definition intq_full (q : intq) : bool := next (head q) =? tail q.

(** [waiter] is [&q->not_empty] or [&q->not_full]. *)
Inductive waiter := NotEmpty | NotFull.

Definition get_waiter (w : waiter) (q : intq) : Z := match w with NotEmpty => not_empty q | NotFull => not_full q end.
Definition set_waiter (w : waiter) (t : Z) (q : intq) : intq :=
  match w with
  | NotEmpty => Intq (lock q) (not_full q) t (buf q) (head q) (tail q)
  | NotFull => Intq (lock q) t (not_empty q) (buf q) (head q) (tail q)
  end.
Definition set_lock (t : Z) (q : intq) : intq :=
  Intq t (not_full q) (not_empty q) (buf q) (head q) (tail q).

(** The condition of the ASSERT in [wait]; its negation in [signal]. *)
Definition must_wait (w : waiter) (q : intq) : bool :=
  match w with NotEmpty => intq_empty q | NotFull => intq_full q end.

(** [wait] up to [thread_block]. *)
Definition wait (w : waiter) (cur : Z) (context : bool) (q : intq) : res intq :=
  assert_res (negb context);;
  assert_res (must_wait w q);;
  Ok (set_waiter w cur q).

Definition signal (w : waiter) (q : intq) : res (wakes * intq) :=
  assert_res (negb (must_wait w q));;
  if negb (get_waiter w q =? NULL) then Ok ([get_waiter w q], set_waiter w NULL q) else Ok ([], q).

(** Where a thread is in the loop: before the test, inside [lock_acquire] (it
    goes on when the lock is free), or inside [wait] (it goes on when it has
    been woken, with [lock_release]). *)
Inductive place := Test | AtLock | Waiting.

Inductive outcome := Returned (byte : Z) (w : wakes) | Sleeps (p : place).

(** The loop [while (condition) { ... }] from a place on: the thread sleeps at
    the given place, or it leaves the loop. *)
Definition wait_loop (w : waiter) (p : place) (cur : Z) (context : bool) (q : intq) : res (option place * intq) :=
  match p with
  | AtLock => q ← wait w cur context (set_lock cur q); Ok (Some Waiting, q)
  | _ =>
    let q := match p with Waiting => set_lock NULL q | _ => q end in
    if must_wait w q then
      assert_res (negb context);;
      if lock q =? NULL then q ← wait w cur context (set_lock cur q); Ok (Some Waiting, q)
      else Ok (Some AtLock, q)
    else Ok (None, q)
  end.

Definition intq_getc (p : place) (cur : Z) (context : bool) (q : intq) : res (outcome * intq) :=
  '(o, q) ← wait_loop NotEmpty p cur context q;
  match o with
  | Some p => Ok (Sleeps p, q)
  | None =>
    match buf q !! Z.to_nat (tail q) with
    | None => Err BadAddr
    | Some byte =>
      let q := Intq (lock q) (not_full q) (not_empty q) (buf q) (head q) (next (tail q)) in
      '(w, q) ← signal NotFull q;
      Ok (Returned byte w, q)
    end
  end.

Definition intq_putc (byte : Z) (p : place) (cur : Z) (context : bool) (q : intq) : res (outcome * intq) :=
  '(o, q) ← wait_loop NotFull p cur context q;
  match o with
  | Some p => Ok (Sleeps p, q)
  | None =>
    match buf q !! Z.to_nat (head q) with
    | None => Err BadAddr
    | Some _ =>
      let q := Intq (lock q) (not_full q) (not_empty q) (<[Z.to_nat (head q) := byte]> (buf q)) (next (head q)) (tail q) in
      '(w, q) ← signal NotEmpty q;
      Ok (Returned byte w, q)
    end
  end.

(** ** The contents of the queue *)

Definition intq_ok (q : intq) : Prop := length (buf q) = 64%nat ∧ 0 ≤ head q < 64 ∧ 0 ≤ tail q < 64.

Definition count (q : intq) : nat := Z.to_nat ((head q - tail q) mod 64).

Definition contents (q : intq) : list Z :=
  (λ k, default 0 (buf q !! Z.to_nat ((tail q + Z.of_nat k) mod 64))) <$> seq 0 (count q).

Lemma next_mod pos : 0 ≤ pos → next pos = (pos + 1) mod 64.
Proof. intros H. unfold next, INTQ_BUFSIZE. by rewrite Z.rem_mod_nonneg by lia. Qed.

(** Small moduli by cases. *)
Lemma mod64_cases x : 0 ≤ x < 128 → x mod 64 = if decide (x < 64) then x else x - 64.
Proof.
  intros H. case_decide; [by apply Z.mod_small; lia|].
  symmetry. apply (Z.mod_unique_pos x 64 1); lia.
Qed.

Lemma mod64_neg x : -64 < x < 64 → x mod 64 = if decide (x < 0) then x + 64 else x.
Proof.
  intros H. case_decide; [|by apply Z.mod_small; lia].
  symmetry. apply (Z.mod_unique_pos x 64 (-1)); lia.
Qed.

Lemma next_cases pos : 0 ≤ pos < 64 → next pos = if decide (pos = 63) then 0 else pos + 1.
Proof.
  intros H. rewrite next_mod, mod64_cases by lia. repeat case_decide; lia.
Qed.

Lemma count_cases q : intq_ok q →
  Z.of_nat (count q) = (if decide (head q < tail q) then head q - tail q + 64 else head q - tail q) ∧ (count q < 64)%nat.
Proof.
  intros (_ & Hh & Ht). unfold count. rewrite mod64_neg by lia. repeat case_decide; lia.
Qed.

Lemma empty_iff q : intq_ok q → intq_empty q = bool_decide (contents q = []).
Proof.
  intros Hq. destruct (count_cases q Hq) as [Hc _]. destruct Hq as (_ & Hh & Ht). unfold intq_empty, contents.
  destruct (Z.eqb_spec (head q) (tail q)) as [E|E].
  - assert (count q = O) as -> by (case_decide; lia). done.
  - rewrite bool_decide_eq_false_2; [done|]. intros H%(f_equal length). rewrite length_fmap, length_seq in H.
    simpl in H. case_decide; lia.
Qed.

Lemma contents_length q : length (contents q) = count q.
Proof. unfold contents. by rewrite length_fmap, length_seq. Qed.

Lemma full_iff q : intq_ok q → intq_full q = bool_decide (length (contents q) = 63%nat).
Proof.
  intros Hq. rewrite contents_length. destruct (count_cases q Hq) as [Hc _]. destruct Hq as (_ & Hh & Ht).
  unfold intq_full. rewrite next_cases by done. repeat case_decide; case_bool_decide;
    match goal with |- (?a =? ?b) = _ => destruct (Z.eqb_spec a b) end; try done; lia.
Qed.

(** The bytes of the queue by position. *)
Lemma contents_lookup q k :
  contents q !! k = if decide (k < count q)%nat
                    then Some (default 0 (buf q !! Z.to_nat ((tail q + Z.of_nat k) mod 64))) else None.
Proof.
  unfold contents. rewrite list_lookup_fmap. case_decide as Hk.
  - by rewrite lookup_seq_lt.
  - by rewrite lookup_seq_ge by lia.
Qed.

Definition took (q : intq) : intq := Intq (lock q) (not_full q) (not_empty q) (buf q) (head q) (next (tail q)).
Definition added (byte : Z) (q : intq) : intq :=
  Intq (lock q) (not_full q) (not_empty q) (<[Z.to_nat (head q) := byte]> (buf q)) (next (head q)) (tail q).

Lemma took_ok q : intq_ok q → contents q ≠ [] →
  intq_ok (took q) ∧ ∃ b, buf q !! Z.to_nat (tail q) = Some b ∧ contents q = b :: contents (took q).
Proof.
  intros Hq Hne. destruct (count_cases q Hq) as [Hc Hc64].
  assert (Hn0 : count q ≠ O) by (rewrite <- contents_length; by destruct (contents q)).
  assert (Hq' : intq_ok (took q)).
  { destruct Hq as (Hl & Hh & Ht). split; [done|]. split; [done|]. cbn [took tail]. rewrite next_cases by done. repeat case_decide; lia. }
  split; [done|]. destruct (count_cases (took q) Hq') as [Hc' _]. destruct Hq as (Hl & Hh & Ht).
  destruct (lookup_lt_is_Some_2 (buf q) (Z.to_nat (tail q))) as [b Hb]; [lia|]. exists b. split; [done|].
  assert (Hcnt : count q = S (count (took q))).
  { cbn [took head tail] in Hc'. rewrite next_cases in Hc' by done. repeat case_decide; lia. }
  apply list_eq. intros [|k]; rewrite contents_lookup.
  - rewrite decide_True by lia. rewrite Z.add_0_r, Z.mod_small by lia. by rewrite Hb.
  - cbn [lookup list_lookup]. rewrite contents_lookup. cbn [took buf tail]. rewrite Hcnt.
    clear Hc Hc'. repeat case_decide; try lia; [|done]. do 4 f_equal. rewrite next_cases by done.
    rewrite !mod64_cases by (repeat case_decide; lia). repeat case_decide; lia.
Qed.

Lemma added_ok q byte : intq_ok q → length (contents q) ≠ 63%nat →
  intq_ok (added byte q) ∧ is_Some (buf q !! Z.to_nat (head q)) ∧ contents (added byte q) = contents q ++ [byte].
Proof.
  intros Hq Hne. rewrite contents_length in Hne. destruct (count_cases q Hq) as [Hc Hc64].
  assert (Hq' : intq_ok (added byte q)).
  { destruct Hq as (Hl & Hh & Ht). split; [simpl; by rewrite length_insert|]. split; [|done]. cbn [added head].
    rewrite next_cases by done. repeat case_decide; lia. }
  split; [done|]. destruct (count_cases (added byte q) Hq') as [Hc' _]. destruct Hq as (Hl & Hh & Ht).
  split; [apply lookup_lt_is_Some_2; lia|].
  assert (Hcnt : count (added byte q) = S (count q)).
  { cbn [added head tail] in Hc'. rewrite next_cases in Hc' by done. repeat case_decide; lia. }
  apply list_eq. intros k. rewrite contents_lookup, Hcnt. cbn [added buf tail].
  destruct (decide (k < count q)%nat).
  - rewrite lookup_app_l by (rewrite contents_length; lia). rewrite contents_lookup, !decide_True by lia.
    rewrite list_lookup_insert_ne; [done|]. rewrite mod64_cases by lia. repeat case_decide; lia.
  - rewrite lookup_app_r, contents_length by (rewrite contents_length; lia). destruct (decide (k = count q)) as [->|].
    + rewrite decide_True, Nat.sub_diag by lia. simpl.
      assert (Z.to_nat ((tail q + Z.of_nat (count q)) mod 64) = Z.to_nat (head q)) as ->.
      { rewrite mod64_cases by lia. repeat case_decide; lia. }
      by rewrite list_lookup_insert_eq by lia.
    + rewrite decide_False by lia. symmetry. apply lookup_ge_None. simpl. lia.
Qed.

Lemma contents_ext q q' : buf q' = buf q → head q' = head q → tail q' = tail q → contents q' = contents q.
Proof. intros H1 H2 H3. unfold contents, count. by rewrite H1, H2, H3. Qed.

Lemma must_wait_iff w q : intq_ok q →
  must_wait w q = match w with NotEmpty => bool_decide (contents q = []) | NotFull => bool_decide (length (contents q) = 63%nat) end.
Proof. intros Hq. destruct w; [by apply empty_iff|by apply full_iff]. Qed.

Lemma must_wait_lock w t q : must_wait w (set_lock t q) = must_wait w q.
Proof. by destruct w. Qed.

Definition other (w : waiter) : waiter := match w with NotEmpty => NotFull | NotFull => NotEmpty end.

(** The loop does not fail, for a thread inside [lock_acquire] if it still has
    to wait when it goes on. *)
Lemma wait_loop_ok w p cur q : intq_ok q → (p = AtLock → must_wait w q = true) →
  ∃ o q', wait_loop w p cur false q = Ok (o, q') ∧ intq_ok q' ∧ contents q' = contents q ∧
    get_waiter (other w) q' = get_waiter (other w) q ∧ (o = None ↔ must_wait w q = false).
Proof.
  intros Hq Hp. set (q1 := match p with Waiting => set_lock NULL q | _ => q end).
  assert (Hrun : wait_loop w p cur false q =
    if must_wait w q1 then
      if (lock q1 =? NULL) || match p with AtLock => true | _ => false end
      then q ← wait w cur false (set_lock cur q1); Ok (Some Waiting, q) else Ok (Some AtLock, q1)
    else Ok (None, q1)).
  { unfold q1. destruct p; simpl; rewrite ?orb_false_r, ?orb_true_r; try done. by rewrite Hp. }
  assert (Hq1 : intq_ok q1 ∧ contents q1 = contents q ∧ must_wait w q1 = must_wait w q ∧
    get_waiter (other w) q1 = get_waiter (other w) q) by (unfold q1; destruct p, w; done).
  destruct Hq1 as (Hok1 & Hc1 & Hm1 & Hw1). rewrite Hrun, <- Hm1.
  destruct (must_wait w q1) eqn:Em; [|by exists None, q1].
  destruct (_ || _); [|by exists (Some AtLock), q1].
  exists (Some Waiting), (set_waiter w cur (set_lock cur q1)). unfold wait. rewrite must_wait_lock, Em.
  split; [done|]. split; [by destruct w|]. split; [by rewrite <- Hc1; destruct w|]. split; [|done].
  rewrite <- Hw1. by destruct w.
Qed.

(** Without that, the ASSERT in [wait] fails. *)
Lemma wait_late w cur t q : must_wait w q = false → wait w cur false (set_lock t q) = Err AssertFail.
Proof. intros Hm. unfold wait. by rewrite must_wait_lock, Hm. Qed.

Lemma signal_ok w q : intq_ok q → must_wait w q = false →
  ∃ q', signal w q = Ok (if get_waiter w q =? NULL then [] else [get_waiter w q], q') ∧ intq_ok q' ∧
        contents q' = contents q.
Proof.
  intros Hq Hm. unfold signal. rewrite Hm. simpl. destruct (get_waiter w q =? NULL); simpl; eexists; (split; [done|]);
  by destruct w.
Qed.

(** ** The queue as a sequence *)

(** What a thread or handler does, from which place, and as which thread. *)
Inductive intq_op := Getc (p : place) (cur : Z) | Putc (byte : Z) (p : place) (cur : Z).

Definition op_place (op : intq_op) : place := match op with Getc p _ => p | Putc _ p _ => p end.

Definition run_intq_op (op : intq_op) (q : intq) : res (outcome * intq) :=
  match op with Getc p cur => intq_getc p cur false q | Putc byte p cur => intq_putc byte p cur false q end.

(** The bytes taken out and the bytes put in. *)
Fixpoint run_intq (ops : list intq_op) (q : intq) : res (list Z * list Z * intq) :=
  match ops with
  | [] => Ok ([], [], q)
  | op :: ops =>
    '(o, q) ← run_intq_op op q;
    '(outs, ins, q) ← run_intq ops q;
    Ok (match o, op with Returned b _, Getc _ _ => b :: outs | _, _ => outs end,
        match o, op with Returned b _, Putc _ _ _ => b :: ins | _, _ => ins end, q)
  end.

Lemma getc_ok p cur q : intq_ok q → (p = AtLock → contents q = []) →
  ∃ o q', intq_getc p cur false q = Ok (o, q') ∧ intq_ok q' ∧
    match contents q with
    | [] => (∃ p', o = Sleeps p') ∧ contents q' = []
    | b :: bs => o = Returned b (if not_full q =? NULL then [] else [not_full q]) ∧ contents q' = bs
    end.
Proof.
  intros Hq Hp. destruct (wait_loop_ok NotEmpty p cur q Hq) as (o & q1 & Hrun & Hq1 & Hc1 & Hw1 & Ho);
    [intros E; rewrite must_wait_iff by done; by apply bool_decide_eq_true_2, Hp|].
  unfold intq_getc. rewrite Hrun. simpl. rewrite (must_wait_iff NotEmpty q Hq) in Ho.
  destruct (contents q) as [|b bs] eqn:Ec.
  - destruct o as [p'|]; [|by destruct Ho as [Ho _]; specialize (Ho eq_refl)].
    eexists _, q1. split; [done|]. split; [done|]. split; [by eexists|done].
  - destruct o as [p'|]; [by destruct Ho as [_ Ho]; discriminate (Ho eq_refl)|].
    destruct (took_ok q1 Hq1) as (Hq2 & b' & Hb & Hc2); [by rewrite Hc1|].
    rewrite Hb. fold (took q1). rewrite Hc1 in Hc2. injection Hc2 as <- Hbs.
    destruct (signal_ok NotFull (took q1) Hq2) as (q3 & Hs & Hq3 & Hc3).
    { rewrite must_wait_iff by done. apply bool_decide_eq_false_2. rewrite <- Hbs.
      pose proof (count_cases q1 Hq1) as [_ Hlt]. rewrite <- contents_length, Hc1 in Hlt. simpl in Hlt. lia. }
    rewrite Hs. simpl. eexists _, q3. split; [done|]. split; [done|]. rewrite Hc3, <- Hbs. split; [|done].
    by rewrite <- (Hw1 : not_full q1 = not_full q).
Qed.

Lemma putc_ok byte p cur q : intq_ok q → (p = AtLock → length (contents q) = 63%nat) →
  ∃ o q', intq_putc byte p cur false q = Ok (o, q') ∧ intq_ok q' ∧
    if decide (length (contents q) = 63%nat) then (∃ p', o = Sleeps p') ∧ contents q' = contents q
    else o = Returned byte (if not_empty q =? NULL then [] else [not_empty q]) ∧ contents q' = contents q ++ [byte].
Proof.
  intros Hq Hp. destruct (wait_loop_ok NotFull p cur q Hq) as (o & q1 & Hrun & Hq1 & Hc1 & Hw1 & Ho);
    [intros E; rewrite must_wait_iff by done; by apply bool_decide_eq_true_2, Hp|].
  unfold intq_putc. rewrite Hrun. simpl. rewrite (must_wait_iff NotFull q Hq), bool_decide_eq_false in Ho. case_decide as Hd.
  - destruct o as [p'|]; [|by destruct Ho as [Ho _]; specialize (Ho eq_refl)].
    eexists _, q1. split; [done|]. split; [done|]. split; [by eexists|done].
  - destruct o as [p'|]; [by destruct Ho as [_ Ho]; discriminate (Ho Hd)|].
    destruct (added_ok q1 byte Hq1) as (Hq2 & [x Hx] & Hc2); [by rewrite Hc1|]. rewrite Hx. fold (added byte q1).
    destruct (signal_ok NotEmpty (added byte q1) Hq2) as (q3 & Hs & Hq3 & Hc3).
    { rewrite must_wait_iff by done. apply bool_decide_eq_false_2. rewrite Hc2. by destruct (contents q1). }
    rewrite Hs. simpl. eexists _, q3. split; [done|]. split; [done|]. rewrite Hc3, Hc2, Hc1. split; [|done].
    by rewrite <- (Hw1 : not_empty q1 = not_empty q).
Qed.

(** ** Theorems *)

(** C24: the circular buffer is a first-in first-out queue of up to 63 bytes.
    For every sequence of [intq_getc] and [intq_putc] steps by threads that
    are not inside [lock_acquire], no step fails, and the bytes taken out
    followed by the bytes still in the queue are the bytes that were in it
    followed by the bytes put in. *)
Theorem intq_fifo ops : ∀ q,
  intq_ok q → Forall (λ op, op_place op ≠ AtLock) ops →
  ∃ outs ins q', run_intq ops q = Ok (outs, ins, q') ∧ intq_ok q' ∧ (length (contents q') ≤ 63)%nat ∧
    outs ++ contents q' = contents q ++ ins.
Proof.
  induction ops as [|op ops IH]; intros q Hq Hops.
  { exists [], [], q. rewrite app_nil_r. split_and!; try done. rewrite contents_length. pose proof (count_cases q Hq). lia. }
  apply Forall_cons in Hops as [Hop Hops]. destruct op as [p cur|byte p cur]; cbn [run_intq run_intq_op].
  - destruct (getc_ok p cur q Hq) as (o & q1 & Hrun & Hq1 & Ho); [by intros E|]. rewrite Hrun. simpl.
    destruct (IH q1 Hq1 Hops) as (outs & ins & q' & Hrest & Hq' & Hlen & Hfifo). rewrite Hrest. simpl.
    destruct (contents q) as [|b bs]; [destruct Ho as [[p' ->] Hc]|destruct Ho as [-> Hc]];
      eexists _, _, q'; (split; [done|]); rewrite Hc in Hfifo; simpl; by rewrite ?Hfifo.
  - destruct (putc_ok byte p cur q Hq) as (o & q1 & Hrun & Hq1 & Ho); [by intros E|]. rewrite Hrun. simpl.
    destruct (IH q1 Hq1 Hops) as (outs & ins & q' & Hrest & Hq' & Hlen & Hfifo). rewrite Hrest. simpl.
    case_decide; [destruct Ho as [[p' ->] Hc]|destruct Ho as [-> Hc]];
      eexists _, _, q'; (split; [done|]); rewrite Hc in Hfifo; [done|]. by rewrite <- app_assoc in Hfifo.
Qed.

Definition demo_intq : intq := intq_init (Intq 0 0 0 (replicate 64 0) 0 0).

Lemma intq_fifo_witness :
  ∃ outs ins q', run_intq [Putc 65 Test 1; Getc Test 2; Getc Test 2; Putc 66 Test 1] demo_intq = Ok (outs, ins, q') ∧
    intq_ok q' ∧ (length (contents q') ≤ 63)%nat ∧ outs ++ contents q' = contents demo_intq ++ ins.
Proof. apply intq_fifo; [split; [done|simpl; lia]|]. repeat constructor; done. Defined.

(** Two threads that wait for input can bring the kernel down: the one
    that waits for the lock goes on with [wait] without testing again whether
    the queue is empty, and fails its ASSERT when more than one byte has
    arrived. *)
Theorem intq_second_reader_panics :
  ∃ q1 q2 q3 q4 q5,
    intq_getc Test 1 false demo_intq = Ok (Sleeps Waiting, q1) ∧
    intq_getc Test 2 false q1 = Ok (Sleeps AtLock, q2) ∧
    intq_putc 65 Test 9 true q2 = Ok (Returned 65 [1], q3) ∧
    intq_putc 66 Test 9 true q3 = Ok (Returned 66 [], q4) ∧
    intq_getc Waiting 1 false q4 = Ok (Returned 65 [], q5) ∧ lock q5 = NULL ∧
    intq_getc AtLock 2 false q5 = Err AssertFail.
Proof. do 5 eexists. repeat (split; [vm_compute; reflexivity|]). vm_compute. reflexivity. Qed.

End Intq.
