(* ===== verification/IntrTable.v ===== *)
(** threads/interrupt.c: the interrupt descriptor table, registration of
    handlers, the interrupt controller and the dispatch of [intr_handler]; and
    include/threads/io.h, access to ports.

    Devices are seen through their ports.  What they answer to the reads that
    are still to come is [inputs]; what the kernel wrote is [trace], the last
    write at the end. *)

From S2P Require Import Prelude KState Interrupt.
Import KState.
Local Open Scope Z_scope.

(** ** Ports *)

Module Ports.

Inductive port_write := Outb (port value : Z) | Outw (port value : Z).

Definition st_of_res {S A} (r : res A) : st S A := λ s, match r with Ok a => Ok (a, s) | Err e => Err e end.

Record ports := MkPorts { inputs : list Z; trace : list port_write }.

(** A device that gives no more answers is one the kernel waits for. *)
Definition inb (port : Z) : st ports Z := λ s,
  match inputs s with v :: l => Ok (u8 v, MkPorts l (trace s)) | [] => Err NoFuel end.

Definition outb (port value : Z) : st ports unit :=
  st_modify (λ s, MkPorts (inputs s) (trace s ++ [Outb port (u8 value)])).
Definition outw (port value : Z) : st ports unit :=
  st_modify (λ s, MkPorts (inputs s) (trace s ++ [Outw port (u16 value)])).

End Ports.

Module IntrTable.
Import Ports.

Definition INTR_CNT : nat := 256.
Definition SEL_KCSEG : Z := 0x08.

Record gate := Gate {
  off_15_0 : Z; ss : Z; ist : Z; rsv1 : Z; gate_type : Z; s_bit : Z; dpl : Z; present : Z;
  off_31_16 : Z; off_32_63 : Z; rsv2 : Z }.

(** [intr_handlers] holds the registered functions, by number. *)
Record intr_table := Table {
  idt : list gate; intr_handlers : list (option nat); intr_names : list string; idtr : bool }.

Definition make_gate (function d t : Z) : res gate :=
  assert_res (negb (function =? NULL));;
  assert_res ((0 <=? d) && (d <=? 3));;
  assert_res ((0 <=? t) && (t <=? 15));;
  Ok (Gate (Z.land function 0xffff) SEL_KCSEG 0 0 t 0 d 1
        (Z.land (Z.shiftr function 16) 0xffff) (Z.land (Z.shiftr function 32) 0xffffffff) 0).

Definition make_intr_gate (function d : Z) : res gate := make_gate function d 14.
Definition make_trap_gate (function d : Z) : res gate := make_gate function d 15.

Definition set_gate (v : nat) (g : gate) (t : intr_table) : intr_table :=
  Table (<[v := g]> (idt t)) (intr_handlers t) (intr_names t) (idtr t).
Definition set_name (v : nat) (n : string) (t : intr_table) : intr_table :=
  Table (idt t) (intr_handlers t) (<[v := n]> (intr_names t)) (idtr t).
Definition set_handler (v : nat) (h : option nat) (t : intr_table) : intr_table :=
  Table (idt t) (<[v := h]> (intr_handlers t)) (intr_names t) (idtr t).
Definition lidt (t : intr_table) : intr_table := Table (idt t) (intr_handlers t) (intr_names t) true.

Section stubs.
(** The addresses of the entry points in intr-stubs.S. *)
Context (intr_stubs : nat → Z).

Definition pic_init : st ports unit :=
  outb 0x21 0xff;; outb 0xa1 0xff;;
  outb 0x20 0x11;; outb 0x21 0x20;; outb 0x21 0x04;; outb 0x21 0x01;;
  outb 0xa0 0x11;; outb 0xa1 0x28;; outb 0xa1 0x02;; outb 0xa1 0x01;;
  outb 0x21 0x00;; outb 0xa1 0x00.

Definition pic_end_of_interrupt (irq : Z) : st ports unit :=
  ASSERT ((0x20 <=? irq) && (irq <? 0x30));;
  outb 0x20 0x20;;
  (if 0x28 <=? irq then outb 0xa0 0x20 else mret tt).

(** [for (i = 0; i < INTR_CNT; i++)]: [n] iterations are left. *)
Fixpoint idt_loop (n : nat) (i : nat) (t : intr_table) : res intr_table :=
  match n with
  | O => Ok t
  | S n => g ← make_intr_gate (intr_stubs i) 0; idt_loop n (S i) (set_name i "unknown" (set_gate i g t))
  end.

Definition exception_names : list (nat * string) := [
  (0, "#DE Divide Error"); (1, "#DB Debug Exception"); (2, "NMI Interrupt"); (3, "#BP Breakpoint Exception");
  (4, "#OF Overflow Exception"); (5, "#BR BOUND Range Exceeded Exception"); (6, "#UD Invalid Opcode Exception");
  (7, "#NM Device Not Available Exception"); (8, "#DF Double Fault Exception"); (9, "Coprocessor Segment Overrun");
  (10, "#TS Invalid TSS Exception"); (11, "#NP Segment Not Present"); (12, "#SS Stack Fault Exception");
  (13, "#GP General Protection Exception"); (14, "#PF Page-Fault Exception"); (16, "#MF x87 FPU Floating-Point Error");
  (17, "#AC Alignment Check Exception"); (18, "#MC Machine-Check Exception"); (19, "#XF SIMD Floating-Point Exception")]%nat%string.

Definition intr_init (t : intr_table) : st ports intr_table :=
  pic_init;;
  t ← st_of_res (idt_loop INTR_CNT 0 t);
  mret (foldl (λ t '(v, n), set_name v n t) (lidt t) exception_names).

(** [vec_no] is a [uint8_t]. *)
Definition register_handler (vec_no : nat) (d : Z) (level : intr_level) (handler : nat) (name : string)
    (t : intr_table) : res intr_table :=
  match intr_handlers t !! vec_no with
  | None => Err BadAddr
  | Some (Some _) => Err AssertFail
  | Some None =>
    g ← match level with
        | INTR_ON => make_trap_gate (intr_stubs vec_no) d
        | INTR_OFF => make_intr_gate (intr_stubs vec_no) d
        end;
    Ok (set_name vec_no name (set_handler vec_no (Some handler) (set_gate vec_no g t)))
  end.

Definition is_external (vec_no : nat) : bool := (0x20 <=? vec_no)%nat && (vec_no <=? 0x2f)%nat.

Definition intr_register_ext (vec_no : nat) (handler : nat) (name : string) (t : intr_table) : res intr_table :=
  assert_res (is_external vec_no);;
  register_handler vec_no 0 INTR_OFF handler name t.

Definition intr_register_int (vec_no : nat) (d : Z) (level : intr_level) (handler : nat) (name : string)
    (t : intr_table) : res intr_table :=
  assert_res (negb (is_external vec_no));;
  register_handler vec_no d level handler name t.

Definition intr_name (vec : nat) (t : intr_table) : option string := intr_names t !! vec.

(** Dispatch: the handler's code is [run] of its number.  A vector without a
    handler is ignored when it can be spurious and panics otherwise. *)
Definition invoke (run : nat → kstate → res kstate) (t : intr_table) (vec_no : nat) (s : kstate) : res kstate :=
  match intr_handlers t !! vec_no with
  | Some (Some h) => run h s
  | _ => if (vec_no =? 0x27)%nat || (vec_no =? 0x2f)%nat then Ok s else Err PanicCall
  end.

(** [intr_handler] whole: [Interrupt.intr_handler] is its frame for external
    interrupts, the end-of-interrupt command goes to the controller. *)
Definition handle_interrupt (run : nat → kstate → res kstate) (t : intr_table) (vec_no : nat)
    (s : kstate) : st ports kstate := λ io,
  if is_external vec_no then
    s ← Interrupt.intr_handler (invoke run t vec_no) s;
    '(_, io) ← pic_end_of_interrupt (Z.of_nat vec_no) io;
    Ok (s, io)
  else s ← invoke run t vec_no s; Ok (s, io).

(** devices/timer.c: the interval timer's divisor, and its handler, number
    0. *)
Definition TIMER_FREQ : Z := 100.

Definition timer_init (t : intr_table) : st ports intr_table :=
  let count := u16 ((1193180 + TIMER_FREQ ÷ 2) ÷ TIMER_FREQ) in
  outb 0x43 0x34;;
  outb 0x40 (Z.land count 0xff);;
  outb 0x40 (Z.shiftr count 8);;
  st_of_res (intr_register_ext 0x20 0 "8254 Timer" t).

End stubs.

(** Before [intr_init]: the BSS is zero. *)
Definition bss_table : intr_table :=
  Table (replicate INTR_CNT (Gate 0 0 0 0 0 0 0 0 0 0 0)) (replicate INTR_CNT None) (replicate INTR_CNT EmptyString) false.

(** ** Registrations *)

Inductive registration :=
  | RegExt (vec_no handler : nat) (name : string)
  | RegInt (vec_no : nat) (d : Z) (level : intr_level) (handler : nat) (name : string).

Definition reg_vec (r : registration) : nat := match r with RegExt v _ _ | RegInt v _ _ _ _ => v end.
Definition reg_fun (r : registration) : nat := match r with RegExt _ h _ | RegInt _ _ _ h _ => h end.

Definition do_register (intr_stubs : nat → Z) (r : registration) (t : intr_table) : res intr_table :=
  match r with
  | RegExt v h n => intr_register_ext intr_stubs v h n t
  | RegInt v d l h n => intr_register_int intr_stubs v d l h n t
  end.

Fixpoint do_registers (intr_stubs : nat → Z) (l : list registration) (t : intr_table) : res intr_table :=
  match l with [] => Ok t | r :: l => t ← do_register intr_stubs r t; do_registers intr_stubs l t end.

(** What the processor takes for the entry point of a gate. *)
Definition gate_offset (g : gate) : Z :=
  Z.lor (off_15_0 g) (Z.lor (Z.shiftl (off_31_16 g) 16) (Z.shiftl (off_32_63 g) 32)).

End IntrTable.

(** include/threads/io.h: the transfers that no driver of the kernel uses, the 32-bit ones
    and the string forms for bytes and 32-bit units.

    [Bus] is the processor's IN and OUT for a number of bytes.  A buffer is the list of
    its bytes, in the order of their addresses; the string instructions advance through
    it a unit at a time (the direction flag is cleared first), least significant byte
    first. *)
Local Open Scope Z_scope.

Module PortStrings.

Class Bus (W : Type) := { bus_in : nat → Z → st W Z; bus_out : nat → Z → Z → st W unit }.

(** The bytes of a unit of [size] bytes, and the unit of some bytes. *)
Fixpoint to_bytes (size : nat) (v : Z) : list Z :=
  match size with O => [] | S size => v mod 256 :: to_bytes size (v / 256) end.
Definition of_bytes (l : list Z) : Z := foldr (λ b acc, b + 256 * acc) 0 l.

Section ports.
Context {W : Type} `{!Bus W}.

(** INS and OUTS, repeated [cnt] times; the buffer of OUTS is read inside its end only. *)
Fixpoint ins (size : nat) (port : Z) (cnt : nat) : st W (list Z) :=
  match cnt with
  | O => mret []
  | S cnt => v ← bus_in size port; l ← ins size port cnt; mret (to_bytes size v ++ l)
  end.
Fixpoint outs (size : nat) (port : Z) (addr : list Z) (cnt : nat) : st W unit :=
  match cnt with
  | O => mret tt
  | S cnt =>
    if (length addr <? size)%nat then st_err BadAddr else
    bus_out size port (of_bytes (take size addr));; outs size port (drop size addr) cnt
  end.

Definition insb (port : Z) (cnt : nat) : st W (list Z) := ins 1 port cnt.
Definition outsb (port : Z) (addr : list Z) (cnt : nat) : st W unit := outs 1 port addr cnt.
Definition inl (port : Z) : st W Z := v ← bus_in 4 port; mret (u32 v).
Definition insl (port : Z) (cnt : nat) : st W (list Z) := ins 4 port cnt.
Definition outl (port data : Z) : st W unit := bus_out 4 port (u32 data).
Definition outsl (port : Z) (addr : list Z) (cnt : nat) : st W unit := outs 4 port addr cnt.

End ports.

(** ** A round trip through a device that returns what it was sent *)

#[export] Instance fifo : Bus (list Z) := {|
  bus_in _ _ := λ q, match q with v :: q => Ok (v, q) | [] => Ok (0, []) end;
  bus_out _ _ v := λ q, Ok (tt, q ++ [v]) |}.

Lemma to_of_bytes l : Forall (λ b, 0 ≤ b < 256) l → to_bytes (length l) (of_bytes l) = l.
Proof.
  induction 1 as [|b l Hb Hl IH]; [done|]. cbn [of_bytes foldr length to_bytes]. fold (of_bytes l). f_equal.
  - rewrite Z.mul_comm, Z_mod_plus_full. by apply Z.mod_small.
  - rewrite Z.mul_comm, Z_div_plus by lia. by rewrite (Z.div_small b), Z.add_0_l by lia.
Qed.

Lemma outs_fifo size port cnt : ∀ buf q, (size * cnt ≤ length buf)%nat →
  ∃ units, outs size port buf cnt q = Ok (tt, q ++ units) ∧ length units = cnt ∧
    (Forall (λ b, 0 ≤ b < 256) buf → concat (to_bytes size <$> units) = take (size * cnt) buf).
Proof.
  induction cnt as [|cnt IH]; intros buf q Hl; cbn [outs].
  { exists []. rewrite app_nil_r, Nat.mul_0_r. by split. }
  rewrite (proj2 (Nat.ltb_ge _ _)) by lia. rewrite (st_bind_ok _ _ _ tt (q ++ [of_bytes (take size buf)])) by done.
  destruct (IH (drop size buf) (q ++ [of_bytes (take size buf)])) as (us & H & Hn & Hb); [rewrite length_drop; lia|].
  exists (of_bytes (take size buf) :: us). rewrite H, <- app_assoc. split; [done|]. split; [simpl; lia|]. intros Hf. cbn [fmap list_fmap concat].
  fold (to_bytes size <$> us). rewrite Hb by (by apply Forall_drop).
  replace (to_bytes size (of_bytes (take size buf))) with (take size buf)
    by (symmetry; rewrite <- (to_of_bytes (take size buf)) at 2 by (by apply Forall_take); f_equal; rewrite length_take; lia).
  rewrite take_take_drop. f_equal. lia.
Qed.

Lemma ins_fifo size port units : ∀ q, ins size port (length units) (units ++ q) = Ok (concat (to_bytes size <$> units), q).
Proof. induction units as [|v us IH]; intros q; [done|]. cbn [ins length app]. rewrite (st_bind_ok _ _ _ v (us ++ q)) by done. by rewrite (st_bind_ok _ _ _ _ _ (IH q)). Qed.

(** A buffer sent with OUTS in units of any size comes back with INS byte for byte: the
    byte order of both is the same, and neither leaves the buffer. *)
Theorem string_transfer_roundtrip size port cnt buf : length buf = (size * cnt)%nat → Forall (λ b, 0 ≤ b < 256) buf →
  (outs size port buf cnt;; ins size port cnt) [] = Ok (buf, []).
Proof.
  intros Hl Hb. destruct (outs_fifo size port cnt buf [] ltac:(lia)) as (us & H & Hn & Hc). rewrite (st_bind_ok _ _ _ _ _ H). cbn [app].
  rewrite <- (app_nil_r us), <- Hn, ins_fifo, Hc by done. do 2 f_equal. apply take_ge. lia.
Qed.

End PortStrings.

(** threads/interrupt.c: every vector leads to its entry point, external
    vectors with interrupts off, and to the handler registered for it. *)
Import KState Ports IntrTable.
Local Open Scope Z_scope.

Module IntrTableTheorems.

Lemma st_of_res_ok {S A} (r : res A) a (s : S) : r = Ok a → st_of_res r s = Ok (a, s).
Proof. by intros ->. Qed.

(** The three ASSERTs together. *)
Lemma make_gate_eq f d t :
  make_gate f d t =
  if negb (f =? NULL) && ((0 <=? d) && (d <=? 3)) && ((0 <=? t) && (t <=? 15))
  then Ok (Gate (Z.land f 0xffff) SEL_KCSEG 0 0 t 0 d 1
             (Z.land (Z.shiftr f 16) 0xffff) (Z.land (Z.shiftr f 32) 0xffffffff) 0)
  else Err AssertFail.
Proof. unfold make_gate. by destruct (negb _), (0 <=? d), (d <=? 3), (0 <=? t), (t <=? 15). Qed.

(** The three parts of the offset are the address again. *)
Lemma make_gate_offset f d t g : 0 ≤ f < 2 ^ 64 → make_gate f d t = Ok g → gate_offset g = f.
Proof.
  intros Hf. rewrite make_gate_eq. destruct (_ && _ && _); [|discriminate]. intros [= <-]. unfold gate_offset. cbn [off_15_0 off_31_16 off_32_63].
  apply Z.bits_inj'. intros n Hn. rewrite !Z.lor_spec, !Z.shiftl_spec, !Z.land_spec by done.
  change 0xffff with (Z.ones 16). change 0xffffffff with (Z.ones 32).
  destruct (decide (n < 16)).
  - rewrite Z.ones_spec_low by lia. rewrite !(Z.testbit_neg_r _ (n - _)) by lia. by rewrite andb_true_r, orb_false_r.
  - rewrite (Z.ones_spec_high 16 n), andb_false_r by lia. simpl. destruct (decide (n < 32)).
    + rewrite Z.shiftr_spec, (Z.ones_spec_low 16) by lia. rewrite !(Z.testbit_neg_r _ (n - 32)) by lia.
      rewrite andb_true_r, orb_false_r. f_equal. lia.
    + rewrite (Z.ones_spec_high 16), andb_false_r by lia. simpl. destruct (decide (n < 64)).
      * rewrite Z.shiftr_spec, Z.ones_spec_low, andb_true_r by lia. f_equal. lia.
      * rewrite (Z.ones_spec_high 32), andb_false_r by lia. symmetry. apply (Z.bits_above_log2 f n); [lia|].
        destruct (decide (f = 0)) as [->|]; [simpl; lia|]. apply Z.log2_lt_pow2; [lia|].
        assert (2 ^ 64 ≤ 2 ^ n) by (apply Z.pow_le_mono_r; lia). lia.
Qed.

Section table.
Context (intr_stubs : nat → Z).
Hypothesis stubs_ok : ∀ i, 0 < intr_stubs i < 2 ^ 64.

(** A gate of the table: present, of ring 0 code, leading to the stub. *)
Definition gate_ok (v : nat) (g : gate) : Prop :=
  present g = 1 ∧ ss g = SEL_KCSEG ∧ gate_offset g = intr_stubs v ∧
  (is_external v = true → gate_type g = 14 ∧ dpl g = 0).

Record table_ok (regs : list (nat * nat)) (t : intr_table) : Prop := {
  tk_len : length (idt t) = INTR_CNT ∧ length (intr_handlers t) = INTR_CNT;
  tk_gates v g : idt t !! v = Some g → gate_ok v g;
  tk_handlers v : (v < INTR_CNT)%nat → intr_handlers t !! v = Some (list_to_map (M := gmap nat nat) regs !! v) }.

Lemma make_gate_ok v d t :
  0 ≤ d ≤ 3 → 14 ≤ t ≤ 15 → (is_external v = true → t = 14 ∧ d = 0) →
  ∃ g, make_gate (intr_stubs v) d t = Ok g ∧ gate_ok v g.
Proof using stubs_ok.
  intros Hd Ht Hx. pose proof (stubs_ok v) as Hv. destruct (make_gate (intr_stubs v) d t) as [g|] eqn:E.
  - exists g. split; [done|]. pose proof (make_gate_offset (intr_stubs v) d t g ltac:(lia) E) as Ho. rewrite make_gate_eq in E.
    destruct (_ && _ && _); [|discriminate]. injection E as <-. split_and!; done.
  - rewrite make_gate_eq in E. unfold NULL in E. destruct (Z.eqb_spec (intr_stubs v) 0); [lia|].
    rewrite !(proj2 (Z.leb_le _ _)) in E by lia. done.
Qed.

Lemma idt_loop_ok n : ∀ i t,
  (i + n)%nat = INTR_CNT → length (idt t) = INTR_CNT → (∀ v g, (v < i)%nat → idt t !! v = Some g → gate_ok v g) →
  ∃ t', idt_loop intr_stubs n i t = Ok t' ∧ length (idt t') = INTR_CNT ∧ intr_handlers t' = intr_handlers t ∧
        (∀ v g, idt t' !! v = Some g → gate_ok v g).
Proof using stubs_ok.
  induction n as [|n IH]; intros i t Hi Hl Hg; simpl.
  { exists t. split_and!; try done. intros v g Hv. apply Hg; [|done]. apply lookup_lt_Some in Hv. lia. }
  destruct (make_gate_ok i 0 14) as (g & Hm & Hok); [lia..|done|]. unfold make_intr_gate. rewrite Hm. simpl.
  destruct (IH (S i) (set_name i "unknown" (set_gate i g t))) as (t' & Hr & H1 & H2 & H3); [lia| | |].
  - simpl. by rewrite length_insert.
  - intros v x Hv Hx. simpl in Hx. destruct (decide (v = i)) as [->|Hne].
    + rewrite list_lookup_insert_eq in Hx by lia. by injection Hx as <-.
    + rewrite list_lookup_insert_ne in Hx by done. apply Hg; [lia|done].
  - by exists t'.
Qed.

Lemma names_idt l t :
  idt (foldl (λ t '(v, n), set_name v n t) t l) = idt t ∧
  intr_handlers (foldl (λ t '(v, n), set_name v n t) t l) = intr_handlers t.
Proof. revert t. induction l as [|[v n] l IH]; intros t; [done|]. simpl. destruct (IH (set_name v n t)) as [-> ->]. done. Qed.

Lemma intr_init_ok io :
  ∃ t io', intr_init intr_stubs bss_table io = Ok (t, io') ∧ table_ok [] t.
Proof using stubs_ok.
  destruct (idt_loop_ok INTR_CNT 0 bss_table) as (t & Hr & H1 & H2 & H3); [done|done|intros; lia|].
  unfold intr_init. eexists (foldl _ (lidt t) exception_names), _. split.
  - rewrite (st_bind_ok _ _ io tt _ eq_refl). rewrite (st_bind_ok _ _ _ t _ (st_of_res_ok _ _ _ Hr)). reflexivity.
  - destruct (names_idt exception_names (lidt t)) as [Hi Hh]. split; rewrite ?Hi, ?Hh; cbn [lidt idt intr_handlers]; rewrite ?H2.
    + by rewrite H1.
    + done.
    + intros v Hv. unfold bss_table. cbn [intr_handlers]. by apply lookup_replicate_2.
Qed.

(** What a registration needs: a vector of the right range, a level of
    privilege, and no earlier registration. *)
Definition reg_ok (r : registration) : Prop :=
  match r with
  | RegExt v _ _ => is_external v = true
  | RegInt v d _ _ _ => is_external v = false ∧ (v < INTR_CNT)%nat ∧ 0 ≤ d ≤ 3
  end.

Lemma register_ok v d level h n regs t :
  table_ok regs t → (v < INTR_CNT)%nat → 0 ≤ d ≤ 3 → (is_external v = true → level = INTR_OFF ∧ d = 0) →
  if decide (v ∈ regs.*1) then register_handler intr_stubs v d level h n t = Err AssertFail
  else ∃ t', register_handler intr_stubs v d level h n t = Ok t' ∧ table_ok ((v, h) :: regs) t'.
Proof using stubs_ok.
  intros [Hl Hg Hh] Hv Hd Hx. unfold register_handler. rewrite (Hh v Hv). case_decide as Hin.
  { destruct (list_to_map (M := gmap nat nat) regs !! v) eqn:E; [done|]. by apply not_elem_of_list_to_map in E. }
  rewrite not_elem_of_list_to_map_1 by done.
  assert (∃ g, match level with INTR_ON => make_trap_gate (intr_stubs v) d | INTR_OFF => make_intr_gate (intr_stubs v) d end
               = Ok g ∧ gate_ok v g) as (g & -> & Hok).
  { destruct level; unfold make_trap_gate, make_intr_gate; apply make_gate_ok; try lia; intros He;
      destruct (Hx He) as [? ?]; try done. }
  simpl. eexists. split; [done|]. split; simpl.
  - by rewrite !length_insert.
  - intros x gx Hgx. destruct (decide (x = v)) as [->|Hne].
    + rewrite list_lookup_insert_eq in Hgx by lia. by injection Hgx as <-.
    + rewrite list_lookup_insert_ne in Hgx by done. by apply Hg.
  - intros x Hx'. destruct (decide (x = v)) as [->|Hne].
    + rewrite list_lookup_insert_eq by lia. by rewrite lookup_insert_eq.
    + rewrite list_lookup_insert_ne by done. rewrite lookup_insert_ne by done. by apply Hh.
Qed.

Lemma is_external_lt v : is_external v = true → (v < INTR_CNT)%nat.
Proof. unfold is_external, INTR_CNT. intros [_ H%Nat.leb_le]%andb_true_iff. lia. Qed.

Lemma do_register_ok r regs t :
  table_ok regs t → reg_ok r →
  if decide (reg_vec r ∈ regs.*1) then do_register intr_stubs r t = Err AssertFail
  else ∃ t', do_register intr_stubs r t = Ok t' ∧ table_ok ((reg_vec r, reg_fun r) :: regs) t'.
Proof using stubs_ok.
  intros Ht Hr. destruct r as [v h n|v d l h n]; cbn [reg_ok reg_vec reg_fun do_register] in *.
  - unfold intr_register_ext. rewrite assert_res_ok by done. apply register_ok; [done|by apply is_external_lt|lia|done].
  - destruct Hr as (Hx & Hv & Hd). unfold intr_register_int. rewrite assert_res_ok by (by rewrite Hx).
    apply register_ok; [done|done|done|]. congruence.
Qed.

Lemma do_registers_ok l : ∀ regs t,
  table_ok regs t → Forall reg_ok l → NoDup (map reg_vec l) → (∀ v, v ∈ map reg_vec l → v ∉ regs.*1) →
  ∃ t', do_registers intr_stubs l t = Ok t' ∧ table_ok (reverse (map (λ r, (reg_vec r, reg_fun r)) l) ++ regs) t'.
Proof using stubs_ok.
  induction l as [|r l IH]; intros regs t Ht Hl Hnd Hdis; simpl; [by exists t|].
  apply Forall_cons in Hl as [Hr Hl]. apply NoDup_cons in Hnd as [Hni Hnd].
  pose proof (do_register_ok r regs t Ht Hr) as Hd. rewrite decide_False in Hd by (apply Hdis; left).
  destruct Hd as (t1 & -> & Ht1). simpl. destruct (IH ((reg_vec r, reg_fun r) :: regs) t1 Ht1 Hl Hnd) as (t' & Hr' & Ht').
  - intros v Hv. simpl. rewrite not_elem_of_cons. split; [by intros -> |]. apply Hdis. by right.
  - exists t'. split; [done|]. by rewrite reverse_cons, <- app_assoc.
Qed.

Lemma registered_lookup (l : list registration) r :
  NoDup (map reg_vec l) → r ∈ l →
  list_to_map (M := gmap nat nat) (reverse (map (λ r, (reg_vec r, reg_fun r)) l) ++ []) !! reg_vec r = Some (reg_fun r).
Proof.
  intros Hnd Hr. rewrite app_nil_r. apply elem_of_list_to_map_1.
  - rewrite fmap_reverse. rewrite reverse_Permutation, <- list_fmap_compose. exact Hnd.
  - rewrite elem_of_reverse. apply list_elem_of_fmap. by exists r.
Qed.

End table.

(** The acknowledgement of an external interrupt: to the first controller, and
    to the second when it has the line. *)
Definition eoi_writes (v : nat) : list port_write :=
  Outb 0x20 0x20 :: if decide (0x28 ≤ v)%nat then [Outb 0xa0 0x20] else [].

Lemma eoi_ok v io : is_external v = true →
  pic_end_of_interrupt (Z.of_nat v) io = Ok (tt, MkPorts (inputs io) (trace io ++ eoi_writes v)).
Proof.
  intros [H1%Nat.leb_le H2%Nat.leb_le]%andb_true_iff. unfold pic_end_of_interrupt.
  rewrite (st_bind_ok _ _ _ tt io) by (apply ASSERT_true; lia). rewrite (st_bind_ok _ _ io tt _ eq_refl).
  unfold eoi_writes. destruct (Z.leb_spec 0x28 (Z.of_nat v)); case_decide; try lia; [|done].
  unfold outb, st_modify. simpl. by rewrite <- app_assoc.
Qed.

Lemma handle_external run t v h s io :
  is_external v = true → (∀ s, invoke run t v s = run h s) →
  handle_interrupt run t v s io =
  match Interrupt.intr_handler (run h) s with
  | Ok s' => Ok (s', MkPorts (inputs io) (trace io ++ eoi_writes v))
  | Err e => Err e
  end.
Proof.
  intros Hx Hi. unfold handle_interrupt. rewrite Hx.
  assert (Interrupt.intr_handler (invoke run t v) s = Interrupt.intr_handler (run h) s) as ->.
  { unfold Interrupt.intr_handler. by rewrite Hi. }
  destruct (Interrupt.intr_handler (run h) s) as [s'|]; [|done]. simpl. by rewrite eoi_ok.
Qed.

(** ** Theorems *)

(** C29: after [intr_init] and registrations of distinct vectors in their
    ranges, none of which fails, every gate of the table is present and leads
    to the stub of its vector, the external vectors turn interrupts off on
    entry and are closed to user mode, each registered vector is dispatched to
    its handler, an external one inside the external-interrupt context and
    acknowledged afterwards to the controllers that have its line, any other
    vector to the panic unless it can be spurious, and to register a vector
    again fails the ASSERT. *)
Theorem intr_table_dispatch intr_stubs io l :
  (∀ i, 0 < intr_stubs i < 2 ^ 64) → Forall reg_ok l → NoDup (map reg_vec l) →
  ∃ t0 io' t, intr_init intr_stubs bss_table io = Ok (t0, io') ∧ do_registers intr_stubs l t0 = Ok t ∧
    (∀ v, (v < INTR_CNT)%nat → ∃ g, idt t !! v = Some g ∧ gate_ok intr_stubs v g) ∧
    (∀ r run s, r ∈ l → invoke run t (reg_vec r) s = run (reg_fun r) s) ∧
    (∀ r run s io, r ∈ l → is_external (reg_vec r) = true →
       handle_interrupt run t (reg_vec r) s io =
       match Interrupt.intr_handler (run (reg_fun r)) s with
       | Ok s' => Ok (s', MkPorts (inputs io) (trace io ++ eoi_writes (reg_vec r)))
       | Err e => Err e
       end) ∧
    (∀ v run s, (v < INTR_CNT)%nat → v ∉ map reg_vec l →
       invoke run t v s = if bool_decide (v = 0x27%nat ∨ v = 0x2f%nat) then Ok s else Err PanicCall) ∧
    (∀ r, reg_ok r → reg_vec r ∈ map reg_vec l → do_register intr_stubs r t = Err AssertFail).
Proof.
  intros Hst Hl Hnd. destruct (intr_init_ok intr_stubs Hst io) as (t0 & io' & Hi & Ht0).
  destruct (do_registers_ok intr_stubs Hst l [] t0 Ht0 Hl Hnd) as (t & Hd & Ht); [by intros v _ ?%not_elem_of_nil|].
  assert (Hvec : ∀ v, v ∈ (reverse (map (λ r, (reg_vec r, reg_fun r)) l) ++ []).*1 ↔ v ∈ map reg_vec l).
  { intros v. rewrite app_nil_r, fmap_reverse, elem_of_reverse, <- list_fmap_compose. done. }
  assert (Hinv : ∀ r run s, r ∈ l → invoke run t (reg_vec r) s = run (reg_fun r) s).
  { intros r run s Hr. unfold invoke. rewrite (tk_handlers _ _ _ Ht); [by rewrite registered_lookup|].
    rewrite Forall_forall in Hl. specialize (Hl r Hr). destruct r; [by apply is_external_lt|]. by destruct Hl as (_ & Hv & _). }
  exists t0, io', t. split; [done|]. split; [done|]. destruct (tk_len _ _ _ Ht) as [Hl1 Hl2]. split_and!.
  - intros v Hv. destruct (lookup_lt_is_Some_2 (idt t) v) as [g Hg]; [lia|]. exists g. split; [done|]. by apply (tk_gates _ _ _ Ht).
  - done.
  - intros r run s io1 Hr Hx. apply handle_external; [done|]. intros s1. by apply Hinv.
  - intros v run s Hv Hn. unfold invoke. rewrite (tk_handlers _ _ _ Ht) by done.
    rewrite not_elem_of_list_to_map_1 by (by rewrite Hvec).
    destruct (Nat.eqb_spec v 0x27), (Nat.eqb_spec v 0x2f); case_bool_decide; simpl; try done; naive_solver.
  - intros r Hr Hin. pose proof (do_register_ok intr_stubs Hst r _ t Ht Hr) as Hx. by rewrite decide_True in Hx by (by apply Hvec).
Qed.

Definition demo_stubs (i : nat) : Z := 0x8004200000 + 16 * (Z.of_nat i `mod` 256).

(** The registrations of timer.c, kbd.c and serial.c. *)
Definition boot_registrations : list registration :=
  [RegExt 0x20 0 "8254 Timer"; RegExt 0x21 1 "8042 Keyboard"; RegExt 0x24 2 "serial"].

Lemma intr_table_dispatch_witness :
  ∃ t0 io' t, intr_init demo_stubs bss_table (MkPorts [] []) = Ok (t0, io') ∧
    do_registers demo_stubs boot_registrations t0 = Ok t ∧
    (∀ v, (v < INTR_CNT)%nat → ∃ g, idt t !! v = Some g ∧ gate_ok demo_stubs v g) ∧
    (∀ r run s, r ∈ boot_registrations → invoke run t (reg_vec r) s = run (reg_fun r) s) ∧
    (∀ r run s io, r ∈ boot_registrations → is_external (reg_vec r) = true →
       handle_interrupt run t (reg_vec r) s io =
       match Interrupt.intr_handler (run (reg_fun r)) s with
       | Ok s' => Ok (s', MkPorts (inputs io) (trace io ++ eoi_writes (reg_vec r)))
       | Err e => Err e
       end) ∧
    (∀ v run s, (v < INTR_CNT)%nat → v ∉ map reg_vec boot_registrations →
       invoke run t v s = if bool_decide (v = 0x27%nat ∨ v = 0x2f%nat) then Ok s else Err PanicCall) ∧
    (∀ r, reg_ok r → reg_vec r ∈ map reg_vec boot_registrations → do_register demo_stubs r t = Err AssertFail).
Proof.
  apply intr_table_dispatch.
  - intros i. unfold demo_stubs. pose proof (Z.mod_pos_bound (Z.of_nat i) 256). lia.
  - repeat constructor.
  - by apply (bool_decide_unpack _); vm_compute.
Defined.

End IntrTableTheorems.
