(* ===== verification/Serial.v ===== *)
(** devices/serial.c and devices/input.c: the serial port, its transmit queue
    and the input buffer that keyboard and serial port share.

    The two files call each other: adding to or taking from the input buffer
    makes serial.c reconsider which interrupts it wants, and a serial interrupt
    adds what was received to the input buffer.  [irq_off] and [context] are
    the interrupt flag and the external-interrupt context, [cur] the running
    thread, [woken] the threads that were unblocked. *)
From S2P Require Import Prelude KState Interrupt Intq IntrTable.
Import Ports IntrTable Intq.
Local Open Scope Z_scope.

Module Serial.

Definition IO_BASE : Z := 0x3f8.
Definition RBR_REG : Z := IO_BASE + 0.
Definition THR_REG : Z := IO_BASE + 0.
Definition IER_REG : Z := IO_BASE + 1.
Definition LS_REG : Z := IO_BASE + 0.
Definition MS_REG : Z := IO_BASE + 1.
Definition IIR_REG : Z := IO_BASE + 2.
Definition FCR_REG : Z := IO_BASE + 2.
Definition LCR_REG : Z := IO_BASE + 3.
Definition MCR_REG : Z := IO_BASE + 4.
Definition LSR_REG : Z := IO_BASE + 5.
Definition IER_RECV : Z := 0x01.
Definition IER_XMIT : Z := 0x02.
Definition LCR_N81 : Z := 0x03.
Definition LCR_DLAB : Z := 0x80.
Definition MCR_OUT2 : Z := 0x08.
Definition LSR_DR : Z := 0x01.
Definition LSR_THRE : Z := 0x20.

Inductive serial_mode := UNINIT | POLL | QUEUE.

#[export] Instance serial_mode_eq_dec : EqDecision serial_mode.
Proof. solve_decision. Defined.

Record dev := Dev {
  irq_off : bool; context : bool; cur : Z; buffer : intq; txq : intq; mode : serial_mode;
  table : intr_table; io : ports; woken : list Z }.

Definition set_off (b : bool) (d : dev) : dev :=
  Dev b (context d) (cur d) (buffer d) (txq d) (mode d) (table d) (io d) (woken d).
Definition set_mode (m : serial_mode) (d : dev) : dev :=
  Dev (irq_off d) (context d) (cur d) (buffer d) (txq d) m (table d) (io d) (woken d).
Definition set_table (t : intr_table) (d : dev) : dev :=
  Dev (irq_off d) (context d) (cur d) (buffer d) (txq d) (mode d) t (io d) (woken d).
Definition set_io (p : ports) (d : dev) : dev :=
  Dev (irq_off d) (context d) (cur d) (buffer d) (txq d) (mode d) (table d) p (woken d).
Definition set_txq (q : intq) (d : dev) : dev :=
  Dev (irq_off d) (context d) (cur d) (buffer d) q (mode d) (table d) (io d) (woken d).
Definition set_buffer (q : intq) (d : dev) : dev :=
  Dev (irq_off d) (context d) (cur d) q (txq d) (mode d) (table d) (io d) (woken d).
Definition wake (w : wakes) : st dev unit := st_modify (λ d,
  Dev (irq_off d) (context d) (cur d) (buffer d) (txq d) (mode d) (table d) (io d) (woken d ++ w)).

Definition on_ports {A} (op : st ports A) : st dev A := λ d,
  match op (io d) with Ok (a, p) => Ok (a, set_io p d) | Err e => Err e end.

Definition dev_intr_disable : st dev bool := old ← st_gets irq_off; st_modify (set_off true);; mret old.
Definition dev_intr_set_level (off : bool) : st dev unit :=
  if off then st_modify (set_off true)
  else ctx ← st_gets context; ASSERT (negb ctx);; st_modify (set_off false).
Definition assert_off : st dev unit := off ← st_gets irq_off; ASSERT off.

(** ** The queues *)

Inductive which := Buffer | Txq.

Definition get_q (w : which) (d : dev) : intq := match w with Buffer => buffer d | Txq => txq d end.
Definition set_q (w : which) (q : intq) (d : dev) : dev := match w with Buffer => set_buffer q d | Txq => set_txq q d end.

Definition q_empty (w : which) : st dev bool := assert_off;; st_gets (λ d, intq_empty (get_q w d)).
Definition q_full (w : which) : st dev bool := assert_off;; st_gets (λ d, intq_full (get_q w d)).

Definition q_getc (w : which) (p : place) : st dev outcome :=
  assert_off;;
  d ← st_get;
  '(o, q) ← st_of_res (intq_getc p (cur d) (context d) (get_q w d));
  st_modify (set_q w q);; mret o.
Definition q_putc (w : which) (byte : Z) (p : place) : st dev outcome :=
  assert_off;;
  d ← st_get;
  '(o, q) ← st_of_res (intq_putc byte p (cur d) (context d) (get_q w d));
  st_modify (set_q w q);; mret o.

(** The result of a call that is made only when it cannot sleep. *)
Definition now (o : outcome) : st dev Z :=
  match o with Returned b w => wake w;; mret b | Sleeps _ => st_err NoFuel end.

(** ** serial.c, the part input.c calls *)

Definition input_full : st dev bool := assert_off;; q_full Buffer.

Definition write_ier : st dev unit :=
  assert_off;;
  e ← q_empty Txq;
  let ier := if negb e then Z.lor 0 IER_XMIT else 0 in
  f ← input_full;
  let ier := if negb f then Z.lor ier IER_RECV else ier in
  on_ports (outb IER_REG ier).

Definition serial_notify : st dev unit :=
  assert_off;;
  m ← st_gets mode;
  if bool_decide (m = QUEUE) then write_ier else mret tt.

(** ** input.c *)

Definition input_init : st dev unit := st_modify (λ d, set_buffer (intq_init (buffer d)) d).

Definition input_putc (key : Z) : st dev unit :=
  assert_off;;
  f ← q_full Buffer;
  ASSERT (negb f);;
  o ← q_putc Buffer key Test;
  _ ← now o;
  serial_notify.

(** The rest of [input_getc] from a place inside [intq_getc] on: the key, or
    the place where the thread sleeps. *)
Definition input_getc_from (old_level : bool) (p : place) : st dev (Z + place) :=
  o ← q_getc Buffer p;
  match o with
  | Sleeps p => mret (inr p)
  | Returned key w => wake w;; serial_notify;; dev_intr_set_level old_level;; mret (inl key)
  end.

Definition input_getc : st dev (Z + place) := old_level ← dev_intr_disable; input_getc_from old_level Test.

(** ** serial.c *)

Definition set_serial (bps : Z) : st dev unit :=
  let base_rate := 1843200 ÷ 16 in
  let divisor := u16 (base_rate ÷ bps) in
  ASSERT ((300 <=? bps) && (bps <=? 115200));;
  on_ports (outb LCR_REG (Z.lor LCR_N81 LCR_DLAB));;
  on_ports (outb LS_REG (Z.land divisor 0xff));;
  on_ports (outb MS_REG (Z.shiftr divisor 8));;
  on_ports (outb LCR_REG LCR_N81).

Definition init_poll : st dev unit :=
  m ← st_gets mode;
  ASSERT (bool_decide (m = UNINIT));;
  on_ports (outb IER_REG 0);;
  on_ports (outb FCR_REG 0);;
  set_serial 115200;;
  on_ports (outb MCR_REG MCR_OUT2);;
  st_modify (λ d, set_txq (intq_init (txq d)) d);;
  st_modify (set_mode POLL).

(** [while ((inb (LSR_REG) & LSR_THRE) == 0)], over the answers. *)
Fixpoint poll_ready (l : list Z) : option (list Z) :=
  match l with
  | [] => None
  | v :: l => if Z.land (u8 v) LSR_THRE =? 0 then poll_ready l else Some l
  end.

Definition putc_poll (byte : Z) : st dev unit :=
  assert_off;;
  on_ports (λ p, match poll_ready (inputs p) with Some l => Ok (tt, MkPorts l (trace p)) | None => Err NoFuel end);;
  on_ports (outb THR_REG byte).

Section stubs.
Context (intr_stubs : nat → Z).

(** Handler number 2 is [serial_interrupt]. *)
Definition serial_init_queue : st dev unit :=
  m ← st_gets mode;
  (if bool_decide (m = UNINIT) then init_poll else mret tt);;
  m ← st_gets mode;
  ASSERT (bool_decide (m = POLL));;
  t ← st_gets table;
  t ← st_of_res (intr_register_ext intr_stubs (0x20 + 4) 2 "serial" t);
  st_modify (set_table t);;
  st_modify (set_mode QUEUE);;
  old_level ← dev_intr_disable;
  write_ier;;
  dev_intr_set_level old_level.
End stubs.

(** The rest of [serial_putc] from [intq_putc] on; the place is where the
    thread sleeps. *)
Definition serial_putc_from (old_level : bool) (byte : Z) (p : place) : st dev (option place) :=
  o ← q_putc Txq byte p;
  match o with
  | Sleeps p => mret (Some p)
  | Returned _ w => wake w;; write_ier;; dev_intr_set_level old_level;; mret None
  end.

(** With interrupts off and a full queue, a byte is sent by polling. *)
Definition make_room (old_level : bool) : st dev unit :=
  f ← (if old_level then q_full Txq else mret false);
  if (f : bool) then o ← q_getc Txq Test; b ← now o; putc_poll b else mret tt.

Definition serial_putc (byte : Z) : st dev (option place) :=
  let byte := u8 byte in
  old_level ← dev_intr_disable;
  m ← st_gets mode;
  if bool_decide (m ≠ QUEUE) then
    (if bool_decide (m = UNINIT) then init_poll else mret tt);;
    putc_poll byte;;
    dev_intr_set_level old_level;; mret None
  else
    make_room old_level;;
    serial_putc_from old_level byte Test.

Fixpoint flush_loop (fuel : nat) : st dev unit :=
  match fuel with
  | O => st_err NoFuel
  | S fuel =>
    e ← q_empty Txq;
    if (e : bool) then mret tt else
    o ← q_getc Txq Test; b ← now o; putc_poll b;; flush_loop fuel
  end.

(** The queue holds at most 63 bytes. *)
Definition serial_flush : st dev unit :=
  old_level ← dev_intr_disable;
  flush_loop 64;;
  dev_intr_set_level old_level.

Fixpoint recv_loop (fuel : nat) : st dev unit :=
  match fuel with
  | O => st_err NoFuel
  | S fuel =>
    f ← input_full;
    if (f : bool) then mret tt else
    lsr ← on_ports (inb LSR_REG);
    if Z.land lsr LSR_DR =? 0 then mret tt else
    b ← on_ports (inb RBR_REG);
    input_putc b;; recv_loop fuel
  end.

Fixpoint xmit_loop (fuel : nat) : st dev unit :=
  match fuel with
  | O => st_err NoFuel
  | S fuel =>
    e ← q_empty Txq;
    if (e : bool) then mret tt else
    lsr ← on_ports (inb LSR_REG);
    if Z.land lsr LSR_THRE =? 0 then mret tt else
    o ← q_getc Txq Test; b ← now o;
    on_ports (outb THR_REG b);; xmit_loop fuel
  end.

Definition serial_interrupt : st dev unit :=
  iir ← on_ports (inb IIR_REG);
  recv_loop 64;;
  xmit_loop 64;;
  write_ier.

End Serial.
