(* ===== verification/SerialTheorems.v ===== *)
(** devices/serial.c and devices/input.c: every byte is sent once and in
    order, and the interrupts that are needed stay enabled. *)
From S2P Require Import Prelude KState Interrupt Intq IntrTable Serial.
Import Ports IntrTable IntrTableTheorems Intq Serial.
Local Open Scope Z_scope.

Module SerialTheorems.

(** ** The device: what it makes of the writes to its ports *)

Record uart_state := Uart { u_dlab : bool; u_sent : list Z; u_ier : Z }.

Definition uart_step (u : uart_state) (w : port_write) : uart_state :=
  match w with
  | Outb port v =>
    if port =? LCR_REG then Uart (Z.testbit v 7) (u_sent u) (u_ier u)
    else if u_dlab u then u
    else if port =? THR_REG then Uart false (u_sent u ++ [v]) (u_ier u)
    else if port =? IER_REG then Uart false (u_sent u) v
    else u
  | Outw _ _ => u
  end.

Definition uart (d : dev) : uart_state := foldl uart_step (Uart false [] 0) (trace (io d)).

(** The answers that show an empty transmitter. *)
Definition is_ready (v : Z) : Prop := Z.land (u8 v) LSR_THRE ≠ 0.
#[export] Instance is_ready_dec v : Decision (is_ready v).
Proof. unfold is_ready. apply _. Defined.
Definition ready (d : dev) : nat := length (filter is_ready (inputs (io d))).

(** Bytes sent and bytes still to be sent. *)
Definition flow (d : dev) : list Z := u_sent (uart d) ++ contents (txq d).

Record dev_ok (d : dev) : Prop := {
  dv_buffer : intq_ok (buffer d);
  dv_txq : intq_ok (txq d);
  dv_bytes : Forall (λ b, u8 b = b) (contents (txq d));
  dv_poll : mode d ≠ QUEUE → contents (txq d) = [];
  dv_dlab : u_dlab (uart d) = false }.

(** As long as there is something to send the transmit interrupt is enabled;
    the receive interrupt is enabled exactly when there is room. *)
Definition ier_ok (d : dev) : Prop :=
  (contents (txq d) ≠ [] → Z.testbit (u_ier (uart d)) 1 = true) ∧
  Z.testbit (u_ier (uart d)) 0 = negb (bool_decide (length (contents (buffer d)) = 63%nat)).

(** What an operation leaves as it is, having used up at most [k] answers that
    show an empty transmitter. *)
Record after (k : nat) (d d' : dev) : Prop := {
  af_ok : dev_ok d';
  af_off : irq_off d' = irq_off d;
  af_context : context d' = context d;
  af_cur : cur d' = cur d;
  af_mode : mode d' = QUEUE ↔ mode d = QUEUE;
  af_table : table d' = table d;
  af_lock : lock (txq d') = lock (txq d);
  af_ready : (ready d ≤ ready d' + k)%nat }.

Lemma after_trans k1 k2 d1 d2 d3 : after k1 d1 d2 → after k2 d2 d3 → after (k1 + k2) d1 d3.
Proof. intros [] []. split; try congruence; [tauto|lia]. Qed.

Lemma after_refl d : dev_ok d → after 0 d d.
Proof. intros H. split; try done. lia. Qed.

Lemma after_weaken k k' d d' : (k ≤ k')%nat → after k d d' → after k' d d'.
Proof. intros H []. split; try done. lia. Qed.

(** ** Ports *)

Definition put_trace (l : list Z) (w : list port_write) (d : dev) : dev := set_io (MkPorts l (trace (io d) ++ w)) d.

Lemma uart_put l w d : uart (put_trace l w d) = foldl uart_step (uart d) w.
Proof. unfold uart, put_trace. simpl. by rewrite foldl_app. Qed.

Lemma outb_ok {B} (f : unit → st dev B) p v d :
  (on_ports (outb p v) ≫= f) d = f tt (put_trace (inputs (io d)) [Outb p (u8 v)] d).
Proof. done. Qed.

Lemma inb_ok {B} (f : Z → st dev B) p d v l : inputs (io d) = v :: l →
  (on_ports (inb p) ≫= f) d = f (u8 v) (put_trace l [] d).
Proof. intros H. unfold mbind, st_bind, on_ports, inb. rewrite H. unfold put_trace. by rewrite app_nil_r. Qed.

Lemma off_ok {B} (f : unit → st dev B) d : irq_off d = true → (assert_off ≫= f) d = f tt d.
Proof. intros H. unfold assert_off, mbind, st_bind, st_gets. by rewrite H. Qed.

(** Writing to a register other than the line control one. *)
Lemma port_put_ok l p v d :
  dev_ok d → p ≠ LCR_REG → dev_ok (put_trace l [Outb p v] d).
Proof.
  intros [? ? ? ? Hd] Hp. split; try done. rewrite uart_put. cbn [foldl uart_step].
  rewrite (proj2 (Z.eqb_neq p LCR_REG) Hp), Hd. repeat case_match; done.
Qed.

Lemma read_ok l d : dev_ok d → dev_ok (put_trace l [] d).
Proof. intros [? ? ? ? Hd]. split; try done. by rewrite uart_put. Qed.

(** Sending a byte. *)
Lemma sent_put l b d : dev_ok d → u_sent (uart (put_trace l [Outb THR_REG b] d)) = u_sent (uart d) ++ [b].
Proof. intros [_ _ _ _ Hd]. rewrite uart_put. cbn [foldl uart_step]. by rewrite Hd. Qed.

(** ** The queues *)

Definition with_q (w : which) (q : intq) (wk : wakes) (d : dev) : dev :=
  Dev (irq_off d) (context d) (cur d) (match w with Buffer => q | Txq => buffer d end)
    (match w with Buffer => txq d | Txq => q end) (mode d) (table d) (io d) (woken d ++ wk).

(** The queue's lock is released when a thread that waited returns, and not
    touched otherwise. *)
Lemma wait_loop_lock w p c ctx q q' :
  wait_loop w p c ctx q = Ok (None, q') → lock q' = match p with Waiting => NULL | _ => lock q end.
Proof.
  unfold wait_loop, wait. rewrite ?must_wait_lock.
  destruct p, (must_wait w _), ctx; simpl; try done; try (by intros [= <-]); by destruct (_ =? NULL).
Qed.

Lemma signal_lock w q wk q' : signal w q = Ok (wk, q') → lock q' = lock q.
Proof. unfold signal. destruct (must_wait w q); [done|]. simpl. destruct (_ =? NULL); intros [= _ <-]; by destruct w. Qed.

Lemma putc_lock b p c ctx q r wk q' :
  intq_putc b p c ctx q = Ok (Returned r wk, q') → lock q' = match p with Waiting => NULL | _ => lock q end.
Proof.
  unfold intq_putc. destruct (wait_loop NotFull p c ctx q) as [[[?|] q1]|] eqn:Ew; try done. apply wait_loop_lock in Ew. simpl.
  destruct (buf q1 !! _); [|done]. destruct (signal _ _) as [[w q2]|] eqn:Es; [|done]. apply signal_lock in Es. simpl in *. intros [= _ _ <-].
  by rewrite Es.
Qed.

(** A thread that finds the lock free sleeps in [wait]. *)
Lemma putc_sleeps b c ctx q p q' : intq_putc b Test c ctx q = Ok (Sleeps p, q') → lock q = NULL → p = Waiting.
Proof.
  unfold intq_putc, wait_loop. intros H Hl. destruct (must_wait NotFull q).
  - destruct ctx; [done|]. simpl in H. rewrite Hl in H. simpl in H. destruct (wait _ _ _ _); simpl in H; [|done]. by injection H as <- _.
  - simpl in H. destruct (buf q !! _); [|done]. by destruct (signal _ _) as [[]|].
Qed.

Lemma getc_lock p c ctx q r wk q' :
  intq_getc p c ctx q = Ok (Returned r wk, q') → lock q' = match p with Waiting => NULL | _ => lock q end.
Proof.
  unfold intq_getc. destruct (wait_loop NotEmpty p c ctx q) as [[[?|] q1]|] eqn:Ew; try done. apply wait_loop_lock in Ew. simpl.
  destruct (buf q1 !! _); [|done]. destruct (signal _ _) as [[w q2]|] eqn:Es; [|done]. apply signal_lock in Es. simpl in *. intros [= _ _ <-].
  by rewrite Es.
Qed.

Lemma getc_context c ctx q b bs : intq_ok q → contents q = b :: bs →
  ∃ q' wk, intq_getc Test c ctx q = Ok (Returned b wk, q') ∧ intq_ok q' ∧ contents q' = bs ∧ lock q' = lock q.
Proof.
  intros Hq Hc. destruct (getc_ok Test c q Hq) as (o & q' & Hr & Hq' & Ho); [done|]. rewrite Hc in Ho. destruct Ho as [-> Hc'].
  exists q'. eexists. split; [|split; [done|split; [done|by apply (getc_lock _ _ _ _ _ _ _ Hr)]]].
  rewrite <- Hr. unfold intq_getc, wait_loop. rewrite must_wait_iff by done. by rewrite Hc.
Qed.

Lemma putc_context c ctx q b : intq_ok q → length (contents q) ≠ 63%nat →
  ∃ q' wk, intq_putc b Test c ctx q = Ok (Returned b wk, q') ∧ intq_ok q' ∧ contents q' = contents q ++ [b].
Proof.
  intros Hq Hc. destruct (putc_ok b Test c q Hq) as (o & q' & Hr & Hq' & Ho); [done|]. rewrite decide_False in Ho by done.
  destruct Ho as [-> Hc']. exists q'. eexists. split; [|done]. rewrite <- Hr. unfold intq_putc, wait_loop.
  rewrite must_wait_iff by done. by rewrite bool_decide_eq_false_2.
Qed.

Lemma take_byte {B} (f : Z → st dev B) w d b bs :
  irq_off d = true → intq_ok (get_q w d) → contents (get_q w d) = b :: bs →
  ∃ q wk, (o ← q_getc w Test; c ← now o; f c) d = f b (with_q w q wk d) ∧ intq_ok q ∧ contents q = bs ∧ lock q = lock (get_q w d).
Proof.
  intros Ho Hq Hc. destruct (getc_context (cur d) (context d) _ b bs Hq Hc) as (q & wk & Hr & Hq' & Hc').
  exists q, wk. split; [|done]. unfold q_getc. rewrite !st_bind_assoc, off_ok by done.
  unfold mbind, st_bind, st_get, st_of_res. rewrite Hr. by destruct w.
Qed.

Lemma q_putc_eq w b p d o q : irq_off d = true → intq_putc b p (cur d) (context d) (get_q w d) = Ok (o, q) →
  q_putc w b p d = Ok (o, set_q w q d).
Proof. intros Ho Hr. unfold q_putc. rewrite off_ok by done. unfold mbind, st_bind, st_get, st_of_res. by rewrite Hr. Qed.

Lemma q_getc_eq w p d o q : irq_off d = true → intq_getc p (cur d) (context d) (get_q w d) = Ok (o, q) →
  q_getc w p d = Ok (o, set_q w q d).
Proof. intros Ho Hr. unfold q_getc. rewrite off_ok by done. unfold mbind, st_bind, st_get, st_of_res. by rewrite Hr. Qed.

Lemma put_byte {B} (f : outcome → st dev B) w d b :
  irq_off d = true → intq_ok (get_q w d) → length (contents (get_q w d)) ≠ 63%nat →
  ∃ q wk, (q_putc w b Test ≫= f) d = f (Returned b wk) (set_q w q d) ∧ intq_ok q ∧ contents q = contents (get_q w d) ++ [b].
Proof.
  intros Ho Hq Hc. destruct (putc_context (cur d) (context d) _ b Hq Hc) as (q & wk & Hr & Hq' & Hc').
  exists q, wk. split; [|done]. unfold q_putc. rewrite !st_bind_assoc, off_ok by done.
  unfold mbind, st_bind, st_get, st_of_res. rewrite Hr. by destruct w.
Qed.

Lemma q_empty_ok {B} (f : bool → st dev B) w d : irq_off d = true → intq_ok (get_q w d) →
  (q_empty w ≫= f) d = f (bool_decide (contents (get_q w d) = [])) d.
Proof. intros Ho Hq. unfold q_empty. rewrite st_bind_assoc, off_ok by done. unfold mbind, st_bind, st_gets. by rewrite empty_iff. Qed.

Lemma q_full_ok {B} (f : bool → st dev B) w d : irq_off d = true → intq_ok (get_q w d) →
  (q_full w ≫= f) d = f (bool_decide (length (contents (get_q w d)) = 63%nat)) d.
Proof. intros Ho Hq. unfold q_full. rewrite st_bind_assoc, off_ok by done. unfold mbind, st_bind, st_gets. by rewrite full_iff. Qed.

Lemma input_full_ok {B} (f : bool → st dev B) d : irq_off d = true → intq_ok (buffer d) →
  (input_full ≫= f) d = f (bool_decide (length (contents (buffer d)) = 63%nat)) d.
Proof. intros Ho Hq. unfold input_full. by rewrite st_bind_assoc, off_ok, (q_full_ok _ Buffer). Qed.

(** ** The parts of the driver *)

Lemma write_ier_ok d : irq_off d = true → dev_ok d →
  ∃ d', write_ier d = Ok (tt, d') ∧ after 0 d d' ∧ flow d' = flow d ∧ ier_ok d' ∧
        contents (buffer d') = contents (buffer d) ∧ contents (txq d') = contents (txq d) ∧
        inputs (io d') = inputs (io d).
Proof.
  intros Ho Hok. unfold write_ier. rewrite off_ok, (q_empty_ok _ Txq), input_full_ok by (done || apply Hok). cbn [get_q].
  set (v := if negb _ then _ else _). set (d' := put_trace (inputs (io d)) [Outb IER_REG (u8 v)] d).
  exists d'. split; [reflexivity|]. assert (Hu : uart d' = Uart false (u_sent (uart d)) (u8 v)).
  { unfold d'. rewrite uart_put. cbn [foldl uart_step]. by rewrite (dv_dlab _ Hok). }
  assert (Hok' : dev_ok d') by (by apply port_put_ok). split; [split; try done; unfold ready, d'; simpl; lia|].
  split; [unfold flow; by rewrite Hu|]. split; [|done]. unfold ier_ok. rewrite Hu. cbn [u_ier].
  unfold v, d'. cbn [put_trace set_io txq buffer].
  destruct (decide (contents (txq d) = [])) as [E|E], (decide (length (contents (buffer d)) = 63%nat)) as [F|F];
    rewrite ?(bool_decide_eq_true_2 _ E), ?(bool_decide_eq_false_2 _ E), ?(bool_decide_eq_true_2 _ F), ?(bool_decide_eq_false_2 _ F);
    by vm_compute.
Qed.

Lemma poll_ready_ok l : (1 ≤ length (filter is_ready l))%nat →
  ∃ l', poll_ready l = Some l' ∧ length (filter is_ready l) = S (length (filter is_ready l')).
Proof.
  induction l as [|v l IH]; cbn [poll_ready]; [simpl; lia|]. rewrite filter_cons. case_decide as Hv.
  - intros _. exists l. unfold is_ready in Hv. by rewrite (proj2 (Z.eqb_neq _ _) Hv).
  - intros H. destruct (Z.eqb_spec (Z.land (u8 v) LSR_THRE) 0) as [_|Hne]; [by apply IH|done].
Qed.

(** Sending by polling the byte [b] that was taken out of the flow. *)
Lemma putc_poll_ok {B} (f : unit → st dev B) b d : irq_off d = true → dev_ok d → u8 b = b → (1 ≤ ready d)%nat →
  ∃ d', (putc_poll b ≫= f) d = f tt d' ∧ after 1 d d' ∧ u_sent (uart d') = u_sent (uart d) ++ [b] ∧
        buffer d' = buffer d ∧ txq d' = txq d ∧ u_ier (uart d') = u_ier (uart d) ∧ mode d' = mode d.
Proof.
  intros Ho Hok Hb Hr. destruct (poll_ready_ok (inputs (io d)) Hr) as (l & Hp & Hl).
  exists (put_trace l [Outb THR_REG b] d). unfold putc_poll. rewrite st_bind_assoc, off_ok, st_bind_assoc by done.
  rewrite (st_bind_ok _ _ d tt (set_io (MkPorts l (trace (io d))) d)) by (unfold on_ports; by rewrite Hp).
  rewrite outb_ok, Hb. split; [done|]. split; [split; try done; [by apply port_put_ok|unfold ready; simpl; lia]|].
  rewrite sent_put by done. split_and!; try done. rewrite uart_put. cbn [foldl uart_step]. by rewrite (dv_dlab _ Hok).
Qed.

Lemma after_with_txq d q wk : dev_ok d → intq_ok q → Forall (λ b, u8 b = b) (contents q) →
  (mode d ≠ QUEUE → contents q = []) → lock q = lock (txq d) → after 0 d (with_q Txq q wk d).
Proof. intros [] Hq Hf Hm Hl. split; try done. unfold ready. simpl. lia. Qed.

Lemma after_with_buffer d q wk : dev_ok d → intq_ok q → after 0 d (with_q Buffer q wk d).
Proof. intros [] Hq. split; try done. unfold ready. simpl. lia. Qed.

(** Taking the first byte of the transmit queue. *)
Lemma take_txq {B} (f : Z → st dev B) d b bs :
  irq_off d = true → dev_ok d → contents (txq d) = b :: bs →
  ∃ d', (o ← q_getc Txq Test; c ← now o; f c) d = f b d' ∧ after 0 d d' ∧ u8 b = b ∧ contents (txq d') = bs ∧
        uart d' = uart d ∧ buffer d' = buffer d ∧ mode d' = mode d ∧ inputs (io d') = inputs (io d).
Proof.
  intros Ho Hok Hc. destruct (take_byte f Txq d b bs Ho (dv_txq _ Hok) Hc) as (q & wk & Hr & Hq & Hcq & Hlq).
  pose proof (dv_bytes _ Hok) as Hb. rewrite Hc in Hb. apply Forall_cons in Hb as [Hb Hbs].
  exists (with_q Txq q wk d). split; [done|]. split; [|done]. apply after_with_txq; try done; [by rewrite Hcq|].
  intros Hm. pose proof (dv_poll _ Hok Hm) as He. rewrite Hc in He. done.
Qed.

Lemma serial_notify_ok d : irq_off d = true → dev_ok d →
  ∃ d', serial_notify d = Ok (tt, d') ∧ after 0 d d' ∧ flow d' = flow d ∧ (mode d = QUEUE → ier_ok d') ∧
        contents (buffer d') = contents (buffer d) ∧ contents (txq d') = contents (txq d) ∧
        inputs (io d') = inputs (io d).
Proof.
  intros Ho Hok. unfold serial_notify. rewrite off_ok by done. unfold mbind at 1, st_bind at 1, st_gets.
  case_bool_decide as Hm.
  - destruct (write_ier_ok d Ho Hok) as (d' & H1 & H2 & H3 & H4 & H5). by exists d'.
  - exists d. split; [done|]. split; [by apply after_refl|done].
Qed.

Lemma input_putc_ok key d : irq_off d = true → dev_ok d → length (contents (buffer d)) ≠ 63%nat →
  ∃ d', input_putc key d = Ok (tt, d') ∧ after 0 d d' ∧ flow d' = flow d ∧ (mode d = QUEUE → ier_ok d') ∧
        contents (buffer d') = contents (buffer d) ++ [key] ∧ contents (txq d') = contents (txq d) ∧
        inputs (io d') = inputs (io d).
Proof.
  intros Ho Hok Hn. unfold input_putc. rewrite off_ok, (q_full_ok _ Buffer) by (done || apply Hok). cbn [get_q].
  rewrite (st_bind_ok _ _ d tt d) by (apply ASSERT_true; by rewrite bool_decide_eq_false_2).
  destruct (put_byte (λ o, now o ≫= λ _, serial_notify) Buffer d key Ho (dv_buffer _ Hok) Hn) as (q & wk & Hr & Hq & Hc).
  rewrite Hr. cbn [now]. rewrite st_bind_assoc. set (d1 := with_q Buffer q wk d).
  rewrite (st_bind_ok _ _ _ tt d1) by done. pose proof (after_with_buffer d q wk Hok Hq) as Ha. fold d1 in Ha.
  destruct (serial_notify_ok d1 Ho (af_ok _ _ _ Ha)) as (d2 & H1 & H2 & H3 & H4 & H5 & H6 & H7).
  exists d2. rewrite (st_bind_ok _ _ d1 key d1) by done. split; [done|]. split; [by eapply (after_trans 0 0)|].
  split; [by rewrite H3|]. split; [done|]. rewrite H5, H6, H7. by cbn [get_q] in Hc.
Qed.

Lemma buffer_bound d : dev_ok d → (length (contents (buffer d)) ≤ 63)%nat.
Proof. intros H. rewrite contents_length. pose proof (count_cases _ (dv_buffer _ H)). lia. Qed.

Lemma txq_bound d : dev_ok d → (length (contents (txq d)) ≤ 63)%nat.
Proof. intros H. rewrite contents_length. pose proof (count_cases _ (dv_txq _ H)). lia. Qed.

(** A read of a register. *)
Lemma read_step {B} (f : Z → st dev B) p d : dev_ok d → (1 ≤ ready d)%nat →
  ∃ v d', (on_ports (inb p) ≫= f) d = f v d' ∧ after 1 d d' ∧ uart d' = uart d ∧ buffer d' = buffer d ∧ txq d' = txq d ∧
          mode d' = mode d ∧ ∃ v0, inputs (io d) = v0 :: inputs (io d') ∧ v = u8 v0.
Proof.
  intros Hok Hr. unfold ready in Hr. destruct (inputs (io d)) as [|v l] eqn:Ei; [simpl in Hr; lia|].
  exists (u8 v), (put_trace l [] d). rewrite (inb_ok _ _ _ _ _ Ei). split; [done|]. split; [|rewrite uart_put; eauto 10].
  split; try done; [by apply read_ok|]. unfold ready. rewrite Ei. simpl. rewrite filter_cons. case_decide; simpl; lia.
Qed.

Lemma recv_loop_ok fuel : ∀ d, irq_off d = true → dev_ok d →
  (63 < length (contents (buffer d)) + fuel)%nat → (2 * fuel ≤ ready d)%nat →
  ∃ d', recv_loop fuel d = Ok (tt, d') ∧ after (2 * fuel) d d' ∧ flow d' = flow d ∧
        (Forall is_ready (inputs (io d)) → Forall is_ready (inputs (io d'))).
Proof.
  induction fuel as [|fuel IH]; intros d Ho Hok Hf Hr; [pose proof (buffer_bound d Hok); lia|]. cbn [recv_loop].
  rewrite input_full_ok by (done || apply Hok). case_bool_decide as Hfull.
  { exists d. split; [done|]. split; [|done]. apply (after_weaken 0); [lia|by apply after_refl]. }
  match goal with |- context [(on_ports (inb LSR_REG) ≫= ?g) d] => destruct (read_step g LSR_REG d Hok ltac:(lia)) as (v & d1 & -> & A1 & U1 & B1 & T1 & _ & v0 & I1 & _) end.
  assert (F1 : flow d1 = flow d) by (unfold flow; by rewrite U1, T1). pose proof (af_ready _ _ _ A1).
  destruct (Z.land v LSR_DR =? 0).
  { exists d1. split; [done|]. split; [|split; [done|rewrite I1; by intros [_ ?]%Forall_cons]]. apply (after_weaken 1); [lia|done]. }
  match goal with |- context [(on_ports (inb RBR_REG) ≫= ?g) d1] => destruct (read_step g RBR_REG d1 (af_ok _ _ _ A1) ltac:(lia)) as (b & d2 & -> & A2 & U2 & B2 & T2 & _ & b0 & I2 & _) end.
  assert (F2 : flow d2 = flow d1) by (unfold flow; by rewrite U2, T2). pose proof (af_ready _ _ _ A2).
  assert (Ho2 : irq_off d2 = true) by (by rewrite (af_off _ _ _ A2), (af_off _ _ _ A1)).
  destruct (input_putc_ok b d2 Ho2 (af_ok _ _ _ A2)) as (d3 & H3 & A3 & F3 & _ & B3 & _ & I3); [by rewrite B2, B1|].
  rewrite (st_bind_ok _ _ _ _ _ H3). pose proof (af_ready _ _ _ A3).
  destruct (IH d3) as (d4 & H4 & A4 & F4 & I4); [by rewrite (af_off _ _ _ A3)|apply A3| |lia|].
  { rewrite B3, B2, B1, length_app. simpl. lia. }
  exists d4. split; [done|]. split; [|split; [congruence|rewrite I1, I2; intros [_ [_ ?]%Forall_cons]%Forall_cons; apply I4; by rewrite I3]].
  apply (after_weaken (1 + (1 + (0 + 2 * fuel)))); [lia|]. repeat (eapply after_trans; [eassumption|]). done.
Qed.

(** One byte from the queue to the port. *)
Lemma move_flow d d1 d2 b bs :
  contents (txq d) = b :: bs → uart d1 = uart d → contents (txq d1) = bs →
  u_sent (uart d2) = u_sent (uart d1) ++ [b] → txq d2 = txq d1 → flow d2 = flow d.
Proof. intros Hc Hu H1 H2 Ht. unfold flow. rewrite H2, Hu, Ht, H1, Hc. by rewrite <- app_assoc. Qed.

Lemma xmit_loop_ok fuel : ∀ d, irq_off d = true → dev_ok d →
  (length (contents (txq d)) < fuel)%nat → (fuel ≤ ready d)%nat →
  ∃ d', xmit_loop fuel d = Ok (tt, d') ∧ after fuel d d' ∧ flow d' = flow d ∧ buffer d' = buffer d ∧
        (Forall is_ready (inputs (io d)) → contents (txq d') = []).
Proof.
  induction fuel as [|fuel IH]; intros d Ho Hok Hf Hr; [lia|]. cbn [xmit_loop].
  rewrite (q_empty_ok _ Txq) by (done || apply Hok). cbn [get_q]. destruct (contents (txq d)) as [|b bs] eqn:Ec.
  { exists d. split; [done|]. split; [|done]. apply (after_weaken 0); [lia|by apply after_refl]. }
  rewrite bool_decide_eq_false_2 by done.
  match goal with |- context [(on_ports (inb LSR_REG) ≫= ?g) d] => destruct (read_step g LSR_REG d Hok ltac:(lia)) as (v & d1 & -> & A1 & U1 & B1 & T1 & _ & v0 & I1 & ->) end.
  assert (F1 : flow d1 = flow d) by (unfold flow; by rewrite U1, T1). pose proof (af_ready _ _ _ A1).
  destruct (Z.eqb_spec (Z.land (u8 v0) LSR_THRE) 0) as [Hv|Hv].
  { exists d1. split; [done|]. split; [|split; [done|split; [done|rewrite I1; by intros [? _]%Forall_cons]]]. apply (after_weaken 1); [lia|done]. }
  assert (Ho1 : irq_off d1 = true) by (by rewrite (af_off _ _ _ A1)).
  match goal with |- context [(q_getc Txq Test ≫= λ o, now o ≫= ?g) d1] =>
    destruct (take_txq g d1 b bs Ho1 (af_ok _ _ _ A1) ltac:(congruence)) as (d2 & -> & A2 & Hb & T2 & U2 & B2 & _ & I2) end.
  rewrite outb_ok, Hb. set (d3 := put_trace _ _ _).
  assert (A3 : after 0 d2 d3) by (split; try done; [apply port_put_ok; [apply A2|done]|unfold ready; simpl; lia]).
  assert (F3 : flow d3 = flow d1).
  { eapply (move_flow d1 d2 d3 b bs); [congruence|done|done| |done]. apply sent_put, A2. }
  pose proof (af_ready _ _ _ A2). pose proof (af_ready _ _ _ A3).
  destruct (IH d3) as (d4 & H4 & A4 & F4 & B4 & I4); [by rewrite (af_off _ _ _ A3), (af_off _ _ _ A2)|apply A3| |lia|].
  { cbn [d3 put_trace set_io txq]. rewrite T2. simpl in Hf. lia. }
  exists d4. split; [done|]. split; [|split; [congruence|split; [by rewrite B4, <- B1, <- B2|rewrite I1; intros [_ ?]%Forall_cons; apply I4; simpl; by rewrite I2]]].
  apply (after_weaken (1 + (0 + (0 + fuel)))); [lia|]. repeat (eapply after_trans; [eassumption|]). done.
Qed.

Lemma flush_loop_ok fuel : ∀ d, irq_off d = true → dev_ok d →
  (length (contents (txq d)) < fuel)%nat → (fuel ≤ ready d)%nat →
  ∃ d', flush_loop fuel d = Ok (tt, d') ∧ after fuel d d' ∧ flow d' = flow d ∧ buffer d' = buffer d ∧
        u_ier (uart d') = u_ier (uart d) ∧ contents (txq d') = [].
Proof.
  induction fuel as [|fuel IH]; intros d Ho Hok Hf Hr; [lia|]. cbn [flush_loop].
  rewrite (q_empty_ok _ Txq) by (done || apply Hok). cbn [get_q]. destruct (contents (txq d)) as [|b bs] eqn:Ec.
  { exists d. split; [done|]. split; [|done]. apply (after_weaken 0); [lia|by apply after_refl]. }
  rewrite bool_decide_eq_false_2 by done.
  match goal with |- context [(q_getc Txq Test ≫= λ o, now o ≫= ?g) d] =>
    destruct (take_txq g d b bs Ho Hok Ec) as (d2 & -> & A2 & Hb & T2 & U2 & B2 & _) end. pose proof (af_ready _ _ _ A2).
  assert (Ho2 : irq_off d2 = true) by (by rewrite (af_off _ _ _ A2)).
  match goal with |- context [(putc_poll b ≫= ?g) d2] =>
    destruct (putc_poll_ok g b d2 Ho2 (af_ok _ _ _ A2) Hb ltac:(lia)) as (d3 & -> & A3 & S3 & B3 & T3 & I3 & _) end.
  pose proof (af_ready _ _ _ A3). pose proof (move_flow d d2 d3 b bs Ec U2 T2 S3 T3) as F3.
  destruct (IH d3) as (d4 & H4 & A4 & F4 & B4 & I4 & T4); [by rewrite (af_off _ _ _ A3)|apply A3| |lia|].
  { rewrite T3, T2. simpl in Hf. lia. }
  exists d4. split; [done|]. split; [|split_and!; congruence].
  apply (after_weaken (0 + (1 + fuel))); [lia|]. repeat (eapply after_trans; [eassumption|]). done.
Qed.

(** ** Whole operations *)

(** An operation that accepted the bytes [acc]. *)
Record finished (k : nat) (acc : list Z) (d d' : dev) : Prop := {
  fi_ok : dev_ok d';
  fi_mode : mode d' = QUEUE ↔ mode d = QUEUE;
  fi_table : table d' = table d;
  fi_ready : (ready d ≤ ready d' + k)%nat;
  fi_flow : flow d' = flow d ++ acc;
  fi_ier : mode d = QUEUE → ier_ok d' }.

Lemma set_off_ok b d : dev_ok d → dev_ok (set_off b d).
Proof. by intros []. Qed.

Lemma finished_off k acc d d' b b' : finished k acc (set_off b d) d' → finished k acc d (set_off b' d').
Proof. intros []. split; try done. by apply set_off_ok. Qed.

Lemma after_finished k d d' : after k d d' → flow d' = flow d → (mode d = QUEUE → ier_ok d') → finished k [] d d'.
Proof. intros [] Hf Hi. split; try done. by rewrite app_nil_r. Qed.

Lemma dev_set_level_ok {B} (f : unit → st dev B) b d : (b = false → context d = false) →
  (dev_intr_set_level b ≫= f) d = f tt (set_off b d).
Proof. intros H. destruct b; [done|]. unfold dev_intr_set_level, mbind, st_bind, st_gets. by rewrite (H eq_refl). Qed.

Lemma set_level_last b d : (b = false → context d = false) → dev_intr_set_level b d = Ok (tt, set_off b d).
Proof. intros H. destruct b; [done|]. unfold dev_intr_set_level, mbind, st_bind, st_gets. by rewrite (H eq_refl). Qed.

Lemma serial_interrupt_ok d : irq_off d = true → dev_ok d → (193 ≤ ready d)%nat →
  ∃ d', serial_interrupt d = Ok (tt, d') ∧ finished 193 [] d d' ∧ after 193 d d' ∧
        (Forall is_ready (inputs (io d)) → contents (txq d') = []).
Proof.
  intros Ho Hok Hr. unfold serial_interrupt.
  match goal with |- context [(on_ports (inb IIR_REG) ≫= ?g) d] => destruct (read_step g IIR_REG d Hok ltac:(lia)) as (v & d1 & -> & A1 & U1 & B1 & T1 & _ & v0 & I1 & _) end.
  pose proof (af_ready _ _ _ A1). assert (Ho1 : irq_off d1 = true) by (by rewrite (af_off _ _ _ A1)).
  destruct (recv_loop_ok 64 d1 Ho1 (af_ok _ _ _ A1)) as (d2 & H2 & A2 & F2 & I2); [lia..|].
  rewrite (st_bind_ok _ _ _ _ _ H2). pose proof (af_ready _ _ _ A2). assert (Ho2 : irq_off d2 = true) by (by rewrite (af_off _ _ _ A2)).
  destruct (xmit_loop_ok 64 d2 Ho2 (af_ok _ _ _ A2)) as (d3 & H3 & A3 & F3 & _ & I3); [pose proof (txq_bound d2 (af_ok _ _ _ A2)); lia|lia|].
  rewrite (st_bind_ok _ _ _ _ _ H3). assert (Ho3 : irq_off d3 = true) by (by rewrite (af_off _ _ _ A3)).
  destruct (write_ier_ok d3 Ho3 (af_ok _ _ _ A3)) as (d4 & H4 & A4 & F4 & I4 & _ & T4 & _).
  assert (A : after 193 d d4).
  { apply (after_weaken (1 + (2 * 64 + (64 + 0)))); [lia|]. repeat (eapply after_trans; [eassumption|]). done. }
  exists d4. split; [done|]. split; [apply after_finished; [done|unfold flow in *; congruence|done]|]. split; [done|].
  rewrite I1, T4. intros [_ ?]%Forall_cons. auto.
Qed.

Lemma ier_ext d d' : contents (txq d') = [] → buffer d' = buffer d → u_ier (uart d') = u_ier (uart d) → ier_ok d → ier_ok d'.
Proof. intros H1 H2 H3 [_ H]. unfold ier_ok. rewrite H1, H2, H3. done. Qed.

Lemma serial_flush_ok d : dev_ok d → (irq_off d = false → context d = false) → (64 ≤ ready d)%nat →
  (mode d = QUEUE → ier_ok d) →
  ∃ d', serial_flush d = Ok (tt, d') ∧ finished 64 [] d d' ∧ contents (txq d') = [].
Proof.
  intros Hok Hc Hr Hi. unfold serial_flush. rewrite (st_bind_ok _ _ d (irq_off d) (set_off true d)) by done.
  pose proof (set_off_ok true d Hok) as Hok1.
  destruct (flush_loop_ok 64 (set_off true d) eq_refl Hok1) as (d1 & H1 & A1 & F1 & B1 & I1 & T1); [pose proof (txq_bound _ Hok1); lia|done|].
  rewrite (st_bind_ok _ _ _ _ _ H1), set_level_last by (by rewrite (af_context _ _ _ A1)).
  eexists. split; [done|]. split; [|done]. eapply (finished_off _ _ _ _ true). apply after_finished; [done|done|].
  intros Hm. eapply (ier_ext d); try done. by apply Hi.
Qed.

(** [serial_putc] from [intq_putc] on, by a thread that does not wait for the
    queue's lock: either the byte is queued or the thread sleeps. *)
Lemma putc_from_ok old b p d : irq_off d = true → dev_ok d → mode d = QUEUE → u8 b = b →
  (p = AtLock → length (contents (txq d)) = 63%nat) → ier_ok d →
  (old = false → context d = false) → (p = Test → length (contents (txq d)) ≠ 63%nat ∨ context d = false) →
  (p ≠ Test → context d = false) →
  ∃ o d', serial_putc_from old b p d = Ok (o, d') ∧ finished 0 (match o with None => [b] | Some _ => [] end) d d' ∧
          (length (contents (txq d)) ≠ 63%nat → o = None) ∧ context d' = context d ∧ cur d' = cur d ∧
          match o with
          | None => irq_off d' = old ∧ lock (txq d') = match p with Waiting => NULL | _ => lock (txq d) end
          | Some p' => irq_off d' = true ∧ (p = Test → lock (txq d) = NULL → p' = Waiting)
          end.
Proof.
  intros Ho Hok Hm Hb Hp Hi Hold Hct Hcw. unfold serial_putc_from.
  assert (∃ o q, intq_putc b p (cur d) (context d) (txq d) = Ok (o, q) ∧ intq_ok q ∧
    ((∃ p', o = Sleeps p') ∧ contents q = contents (txq d) ∧ length (contents (txq d)) = 63%nat ∨ (∃ wk, o = Returned b wk) ∧ contents q = contents (txq d) ++ [b]))
    as (o & q & Hr & Hq & Hres).
  { destruct (decide (context d = false)) as [Hc|Hc].
    - rewrite Hc. destruct (putc_ok b p (cur d) (txq d) (dv_txq _ Hok) Hp) as (o & q & Hr & Hq & Ho'). exists o, q.
      split; [done|]. split; [done|]. case_decide; [left; by destruct Ho'|right]. destruct Ho' as [-> ?]. split; [by eexists|done].
    - destruct p; [|by rewrite Hcw in Hc..]. destruct (Hct eq_refl) as [Hn|]; [|done].
      destruct (putc_context (cur d) (context d) (txq d) b (dv_txq _ Hok) Hn) as (q & wk & Hr & Hq & Hcq).
      exists (Returned b wk), q. split; [done|]. split; [done|]. right. split; [by eexists|done]. }
  rewrite (st_bind_ok _ _ _ _ _ (q_putc_eq Txq b p d o q Ho Hr)).
  destruct Hres as [([p' ->] & Hcq & Hfull)|[[wk ->] Hcq]].
  - exists (Some p'), (set_txq q d). split; [done|].
    split; [|split_and!; [done..|intros ->; by apply (putc_sleeps _ _ _ _ _ _ Hr)]]. split; try done.
    + destruct Hok. split; try done; simpl; by rewrite ?Hcq.
    + unfold ready. simpl. lia.
    + unfold flow. simpl. rewrite Hcq, app_nil_r. done.
    + intros _. unfold ier_ok. cbn [set_txq txq buffer]. by rewrite Hcq.
  - set (d1 := with_q Txq q wk d). rewrite (st_bind_ok _ _ _ tt d1) by done.
    assert (Hok1 : dev_ok d1).
    { destruct Hok as [? ? Hby ? ?]. split; try done. simpl. rewrite Hcq. apply Forall_app. split; [done|by constructor]. }
    destruct (write_ier_ok d1 Ho Hok1) as (d2 & H2 & A2 & F2 & I2 & _).
    rewrite (st_bind_ok _ _ _ _ _ H2), dev_set_level_ok by (by rewrite (af_context _ _ _ A2)).
    eexists None, _. split; [done|]. destruct A2. split.
    { split; try done; [by apply set_off_ok|]. change (flow (set_off old d2)) with (flow d2). rewrite F2. unfold flow.
      cbn [d1 with_q txq]. rewrite Hcq, app_assoc. done. }
    split_and!; try done. simpl. rewrite af_lock0. apply (putc_lock _ _ _ _ _ _ _ _ Hr).
Qed.

Lemma intq_init_ok q : intq_ok q → intq_ok (intq_init q) ∧ contents (intq_init q) = [].
Proof. intros (Hl & _ & _). split; [|done]. split; [done|]. simpl. lia. Qed.

Lemma init_poll_ok d : dev_ok d → mode d = UNINIT →
  ∃ d', init_poll d = Ok (tt, d') ∧ dev_ok d' ∧ mode d' = POLL ∧ irq_off d' = irq_off d ∧ context d' = context d ∧
        table d' = table d ∧ ready d' = ready d ∧ flow d' = flow d ∧ buffer d' = buffer d ∧ cur d' = cur d.
Proof.
  intros Hok Hm. destruct (intq_init_ok (txq d) (dv_txq _ Hok)) as [Hq Hc].
  set (d' := set_mode POLL (set_txq (intq_init (txq d)) (put_trace (inputs (io d))
    [Outb IER_REG 0; Outb FCR_REG 0; Outb LCR_REG 0x83; Outb LS_REG 1; Outb MS_REG 0; Outb LCR_REG 3; Outb MCR_REG 8] d))).
  assert (Hu : uart d' = Uart false (u_sent (uart d)) 0).
  { unfold d'. change (uart (set_mode POLL (set_txq ?q ?x))) with (uart x). rewrite uart_put.
    destruct (uart d) as [dl se ie] eqn:Eu. pose proof (dv_dlab _ Hok) as Hdl. rewrite Eu in Hdl. simpl in Hdl. by subst dl. }
  exists d'. split.
  - unfold init_poll. rewrite (st_bind_ok _ _ d (mode d) d) by done. rewrite Hm.
    unfold d', put_trace, set_serial, mbind, st_bind, on_ports, outb, st_modify. simpl. by rewrite <- !app_assoc.
  - split; [|split_and!; try done].
    + split; [apply Hok|done|by cbn [d' set_mode set_txq txq]; rewrite Hc|done|by rewrite Hu].
    + unfold flow. rewrite Hu. cbn [d' set_mode set_txq txq u_sent]. rewrite Hc, (dv_poll _ Hok); [done|]. by rewrite Hm.
Qed.

(** [serial_putc] before the queue is set up. *)
Lemma putc_early_ok b d : dev_ok d → mode d ≠ QUEUE → (irq_off d = false → context d = false) → (1 ≤ ready d)%nat →
  ∃ d', serial_putc b d = Ok (None, d') ∧ finished 1 [u8 b] d d' ∧
        irq_off d' = irq_off d ∧ context d' = context d ∧ cur d' = cur d.
Proof.
  intros Hok Hm Hc Hr. unfold serial_putc. set (d0 := set_off true d).
  rewrite (st_bind_ok _ _ d (irq_off d) d0), (st_bind_ok _ _ d0 (mode d) d0), bool_decide_eq_true_2 by done.
  pose proof (set_off_ok true d Hok : dev_ok d0) as Hok0.
  assert (∃ d1, (if bool_decide (mode d = UNINIT) then init_poll else mret tt) d0 = Ok (tt, d1) ∧ dev_ok d1 ∧ mode d1 ≠ QUEUE ∧
    irq_off d1 = true ∧ context d1 = context d ∧ table d1 = table d ∧ ready d1 = ready d ∧ flow d1 = flow d ∧ cur d1 = cur d)
    as (d1 & H1 & Hok1 & Hm1 & Ho1 & Hc1 & Ht1 & Hr1 & Hf1 & Hcur1).
  { case_bool_decide as Hu; [|exists d0; split_and!; try done].
    destruct (init_poll_ok d0 Hok0 Hu) as (d1 & H1 & Hok1 & Hm1 & Ho1 & Hc1 & Ht1 & Hr1 & Hf1 & _ & Hcur1). exists d1. rewrite Hm1. done. }
  rewrite (st_bind_ok _ _ _ _ _ H1). assert (Hb : u8 (u8 b) = u8 b) by (apply u8_small, u8_range).
  match goal with |- context [(putc_poll (u8 b) ≫= ?g) d1] =>
    destruct (putc_poll_ok g (u8 b) d1 Ho1 Hok1 Hb ltac:(lia)) as (d2 & -> & A2 & S2 & B2 & T2 & _ & M2) end.
  rewrite dev_set_level_ok by (rewrite (af_context _ _ _ A2), Hc1; done). eexists. split; [done|].
  pose proof (af_ready _ _ _ A2). pose proof (af_table _ _ _ A2).
  split; [|simpl; rewrite (af_context _ _ _ A2), (af_cur _ _ _ A2); done].
  split; [by apply set_off_ok, A2|simpl; rewrite M2; tauto|simpl; congruence|change (ready (set_off ?b ?x)) with (ready x); lia| |done].
  change (flow (set_off ?b ?x)) with (flow x). rewrite <- Hf1. unfold flow. rewrite S2, T2, (dv_poll _ Hok1 Hm1). by rewrite !app_nil_r.
Qed.

Lemma make_room_ok old d : irq_off d = true → dev_ok d → ier_ok d → (1 ≤ ready d)%nat →
  ∃ d', make_room old d = Ok (tt, d') ∧ after 1 d d' ∧ flow d' = flow d ∧ ier_ok d' ∧ mode d' = mode d ∧
        (old = true → length (contents (txq d')) ≠ 63%nat).
Proof.
  intros Ho Hok Hi Hr. unfold make_room.
  destruct old; [|exists d; split; [done|]; split; [by apply (after_weaken 0), after_refl; [lia|]|done]].
  rewrite (q_full_ok _ Txq) by (done || apply Hok). cbn [get_q]. case_bool_decide as Hfull.
  2: { exists d. split; [done|]. split; [by apply (after_weaken 0), after_refl; [lia|]|done]. }
  destruct (contents (txq d)) as [|b bs] eqn:Ec; [done|].
  destruct (take_txq putc_poll d b bs Ho Hok Ec) as (d2 & -> & A2 & Hb & T2 & U2 & B2 & M2 & _). pose proof (af_ready _ _ _ A2).
  assert (Ho2 : irq_off d2 = true) by (by rewrite (af_off _ _ _ A2)).
  destruct (putc_poll_ok mret b d2 Ho2 (af_ok _ _ _ A2) Hb ltac:(lia)) as (d3 & H3 & A3 & S3 & B3 & T3 & I3 & M3).
  exists d3. assert (putc_poll b d2 = Ok (tt, d3)) as ->.
  { unfold mbind, st_bind in H3. destruct (putc_poll b d2) as [[[] x]|] eqn:E; [|done]. unfold mret, st_ret in H3. congruence. }
  split; [done|]. split; [by apply (after_trans 0 1 _ _ _ A2)|]. split; [by apply (move_flow d d2 d3 b bs)|].
  split; [|split; [congruence|]].
  - unfold ier_ok in *. rewrite I3, U2, T3, T2, B3, B2. split; [|by apply Hi]. intros _. apply Hi. by rewrite Ec.
  - intros _. rewrite T3, T2. simpl in Hfull. lia.
Qed.

Lemma serial_putc_ok b d : dev_ok d → (irq_off d = false → context d = false) → (1 ≤ ready d)%nat →
  (mode d = QUEUE → ier_ok d) →
  ∃ o d', serial_putc b d = Ok (o, d') ∧ finished 1 (match o with None => [u8 b] | Some _ => [] end) d d' ∧
          (irq_off d = true ∨ mode d ≠ QUEUE → o = None) ∧
          (o = None → irq_off d' = irq_off d ∧ context d' = context d ∧ cur d' = cur d).
Proof.
  intros Hok Hc Hr Hi. destruct (decide (mode d = QUEUE)) as [Hm|Hm].
  2: { destruct (putc_early_ok b d Hok Hm Hc Hr) as (d' & ? & ? & ?). by exists None, d'. }
  unfold serial_putc. set (d0 := set_off true d).
  rewrite (st_bind_ok _ _ d (irq_off d) d0), (st_bind_ok _ _ d0 (mode d) d0), bool_decide_eq_false_2 by (done || (intros ?; done)).
  pose proof (set_off_ok true d Hok : dev_ok d0) as Hok0.
  destruct (make_room_ok (irq_off d) d0 eq_refl Hok0 (Hi Hm) Hr) as (d1 & H1 & A1 & F1 & I1 & M1 & T1).
  rewrite (st_bind_ok _ _ _ _ _ H1).
  destruct (putc_from_ok (irq_off d) (u8 b) Test d1) as (o & d2 & H2 & Fin & Hnone & Hkeep); try done.
  - by rewrite (af_off _ _ _ A1).
  - apply A1.
  - by rewrite M1.
  - apply u8_small, u8_range.
  - rewrite (af_context _ _ _ A1). done.
  - intros _. destruct (irq_off d) eqn:Eo; [left; by apply T1|right]. rewrite (af_context _ _ _ A1). by apply Hc.
  - exists o, d2. split; [done|]. split; [|split].
    2: { intros [Hoff|]; [|done]. apply Hnone, T1, Hoff. }
    2: { intros ->. destruct Hkeep as (-> & -> & -> & _). rewrite (af_context _ _ _ A1), (af_cur _ _ _ A1). done. }
    destruct Fin, A1. split; try done.
    + rewrite fi_mode0, M1. done.
    + by rewrite fi_table0.
    + change (ready d0) with (ready d) in *. lia.
    + rewrite fi_flow0, F1. done.
    + intros _. apply fi_ier0. by rewrite M1.
Qed.

(** A thread that has interrupts on puts a byte: the byte is accepted, or the
    queue is full and the thread sleeps. *)
Lemma serial_putc_on b d : dev_ok d → mode d = QUEUE → ier_ok d → irq_off d = false → context d = false → lock (txq d) = NULL →
  ∃ o d', serial_putc b d = Ok (o, d') ∧ finished 0 (match o with None => [u8 b] | Some _ => [] end) d d' ∧
    context d' = context d ∧ cur d' = cur d ∧
    match o with None => irq_off d' = false ∧ lock (txq d') = NULL | Some p => p = Waiting ∧ irq_off d' = true end.
Proof.
  intros Hok Hm Hi Ho Hc Hl. unfold serial_putc. set (d0 := set_off true d).
  rewrite (st_bind_ok _ _ d (irq_off d) d0), (st_bind_ok _ _ d0 (mode d) d0), bool_decide_eq_false_2 by (done || (intros ?; done)).
  rewrite Ho. rewrite (st_bind_ok _ _ d0 tt d0) by done.
  destruct (putc_from_ok false (u8 b) Test d0) as (o & d2 & H2 & [] & Hnone & Hc2 & Hk2 & Hend); try done.
  - by apply set_off_ok.
  - apply u8_small, u8_range.
  - by right.
  - exists o, d2. split; [done|]. split; [by split|]. split; [done|]. split; [done|]. destruct o as [p|].
    + destruct Hend as [? Hw]. split; [by apply Hw|done].
    + destruct Hend as [? ->]. done.
Qed.

(** It goes on when there is room. *)
Lemma serial_resume_ok b d : irq_off d = true → dev_ok d → mode d = QUEUE → u8 b = b → ier_ok d → context d = false →
  length (contents (txq d)) ≠ 63%nat →
  ∃ d', serial_putc_from false b Waiting d = Ok (None, d') ∧ finished 0 [b] d d' ∧
    context d' = context d ∧ cur d' = cur d ∧ irq_off d' = false ∧ lock (txq d') = NULL.
Proof.
  intros Ho Hok Hm Hb Hi Hc Hf. destruct (putc_from_ok false b Waiting d) as (o & d2 & H2 & Fin & Hnone & Hc2 & Hk2 & Hend); try done.
  rewrite (Hnone Hf) in *. by exists d2.
Qed.

Lemma input_getc_from_ok old p d : irq_off d = true → dev_ok d → (p = AtLock → contents (buffer d) = []) →
  context d = false → (mode d = QUEUE → ier_ok d) →
  ∃ r d', input_getc_from old p d = Ok (r, d') ∧ finished 0 [] d d' ∧
    match r with
    | inl key => contents (buffer d) = key :: contents (buffer d')
    | inr _ => contents (buffer d) = [] ∧ contents (buffer d') = []
    end.
Proof.
  intros Ho Hok Hp Hc Hi. destruct (getc_ok p (cur d) (buffer d) (dv_buffer _ Hok) Hp) as (o & q & Hr & Hq & Hres).
  unfold input_getc_from. rewrite (st_bind_ok _ _ d o (set_buffer q d)) by (apply (q_getc_eq Buffer); [done|by rewrite Hc]).
  destruct (contents (buffer d)) as [|key ks] eqn:Ec.
  - destruct Hres as [[p' ->] Hcq]. exists (inr p'), (set_buffer q d). split; [done|]. split; [|done]. split; try done.
    + destruct Hok. by split.
    + unfold ready. simpl. lia.
    + by rewrite app_nil_r.
    + intros Hm. specialize (Hi Hm). unfold ier_ok in *. cbn [set_buffer buffer txq]. rewrite Hcq. by rewrite Ec in Hi.
  - destruct Hres as [-> Hcq]. set (d1 := with_q Buffer q (if not_full (buffer d) =? NULL then [] else [not_full (buffer d)]) d).
    rewrite (st_bind_ok _ _ _ tt d1) by done.
    pose proof (after_with_buffer d q (if not_full (buffer d) =? NULL then [] else [not_full (buffer d)]) Hok Hq) as A1. fold d1 in A1.
    destruct (serial_notify_ok d1 Ho (af_ok _ _ _ A1)) as (d2 & H2 & A2 & F2 & I2 & B2 & _).
    rewrite (st_bind_ok _ _ _ _ _ H2), dev_set_level_ok by (intros _; by rewrite (af_context _ _ _ A2)).
    eexists (inl key), _. split; [done|]. split.
    + apply (finished_off 0 [] d d2 (irq_off d)). apply after_finished; [|by rewrite F2|by apply I2].
      destruct d. by apply (after_trans 0 0 _ d1).
    + cbn [set_off buffer]. rewrite B2. cbn [d1 with_q buffer]. by rewrite Hcq.
Qed.

(** ** [serial_init_queue] *)

Section init.
Context (intr_stubs : nat → Z) (regs : list (nat * nat)).
Hypothesis stubs_ok : ∀ i, 0 < intr_stubs i < 2 ^ 64.

Lemma serial_init_queue_ok d :
  dev_ok d → mode d ≠ QUEUE → (irq_off d = false → context d = false) →
  table_ok intr_stubs regs (table d) → 0x24%nat ∉ regs.*1 →
  ∃ d', serial_init_queue intr_stubs d = Ok (tt, d') ∧ dev_ok d' ∧ mode d' = QUEUE ∧ ready d' = ready d ∧ flow d' = flow d ∧
        ier_ok d' ∧ table_ok intr_stubs ((0x24%nat, 2%nat) :: regs) (table d').
Proof using stubs_ok.
  intros Hok Hm Hc Ht Hn. unfold serial_init_queue. rewrite (st_bind_ok _ _ d (mode d) d) by done.
  assert (∃ d1, (if bool_decide (mode d = UNINIT) then init_poll else mret tt) d = Ok (tt, d1) ∧ dev_ok d1 ∧ mode d1 = POLL ∧
    irq_off d1 = irq_off d ∧ context d1 = context d ∧ table d1 = table d ∧ ready d1 = ready d ∧ flow d1 = flow d)
    as (d1 & H1 & Hok1 & Hm1 & Ho1 & Hc1 & Ht1 & Hr1 & Hf1).
  { case_bool_decide as Hu; [|exists d; split_and!; try done; by destruct (mode d)].
    destruct (init_poll_ok d Hok Hu) as (d1 & H1 & Hok1 & Hm1 & Ho1 & Hc1 & Ht1 & Hr1 & Hf1 & _). by exists d1. }
  rewrite (st_bind_ok _ _ _ _ _ H1), (st_bind_ok _ _ d1 (mode d1) d1), Hm1 by done.
  rewrite (st_bind_ok _ _ d1 tt d1), (st_bind_ok _ _ d1 (table d1) d1) by done.
  pose proof (register_ok intr_stubs stubs_ok 0x24 0 KState.INTR_OFF 2 "serial" regs (table d1)) as Hreg.
  rewrite decide_False in Hreg by done. destruct Hreg as (t & Hreg & Htab); [by rewrite Ht1|unfold INTR_CNT; lia|lia|done|].
  rewrite (st_bind_ok _ _ d1 t d1) by (apply st_of_res_ok; exact Hreg).
  rewrite (st_bind_ok _ _ d1 tt (set_table t d1)), (st_bind_ok _ _ _ tt (set_mode QUEUE (set_table t d1))) by done.
  set (d2 := set_off true (set_mode QUEUE (set_table t d1))). rewrite (st_bind_ok _ _ _ (irq_off d1) d2) by done.
  assert (Hok2 : dev_ok d2) by (destruct Hok1; by split).
  destruct (write_ier_ok d2 eq_refl Hok2) as (d3 & H3 & A3 & F3 & I3 & _).
  rewrite (st_bind_ok _ _ _ _ _ H3), set_level_last by (rewrite (af_context _ _ _ A3), Ho1; simpl; by rewrite Hc1).
  eexists. split; [done|]. destruct A3 as [Hok3 _ _ _ Hm3 Ht3 _]. split; [by apply set_off_ok|]. split; [by apply Hm3|].
  split; [|split; [|split; [done|by simpl; rewrite Ht3]]].
  - rewrite <- Hr1. unfold write_ier in H3. rewrite off_ok, (q_empty_ok _ Txq), input_full_ok in H3 by (done || apply Hok2).
    unfold on_ports, outb, st_modify in H3. by injection H3 as <-.
  - change (flow (set_off ?b ?x)) with (flow x). rewrite F3. done.
Qed.
End init.

(** ** Histories *)

(** What happens to the driver: a byte is put by a thread with interrupts on
    ([on]) or by code that has them off, possibly an interrupt handler
    ([ctx]); a thread that slept in [intq_putc] on the transmit queue goes on
    from its place, in [wait] or in [lock_acquire]; a serial interrupt; a
    flush; a key arrives or is fetched; a thread that slept in [intq_getc] on
    the input buffer goes on. *)
Inductive serial_op :=
  | SPutc (on ctx : bool) (thread byte : Z)
  | SResume (p : place) (thread byte : Z)
  | SInterrupt
  | SFlush (on ctx : bool)
  | SKey (key : Z)
  | SGetc (on : bool) (thread : Z)
  | SResumeGetc (on : bool) (p : place) (thread : Z).

Definition enter (off ctx : bool) (thread : Z) (d : dev) : dev :=
  Dev off ctx thread (buffer d) (txq d) (mode d) (table d) (io d) (woken d).

(** The bytes accepted and the state. *)
Definition serial_step (op : serial_op) (d : dev) : res (list Z * dev) :=
  match op with
  | SPutc on ctx t b =>
    '(o, d) ← serial_putc b (enter (negb on) ctx t d); Ok (match o with None => [u8 b] | Some _ => [] end, d)
  | SResume p t b =>
    '(o, d) ← serial_putc_from false (u8 b) p (enter true false t d); Ok (match o with None => [u8 b] | Some _ => [] end, d)
  | SInterrupt => '(_, d) ← serial_interrupt (enter true true NULL d); Ok ([], d)
  | SFlush on ctx => '(_, d) ← serial_flush (enter (negb on) ctx NULL d); Ok ([], d)
  | SKey key =>
    '(f, d) ← input_full (enter true true NULL d);
    if (f : bool) then Ok ([], d) else '(_, d) ← input_putc key d; Ok ([], d)
  | SGetc on t => '(_, d) ← input_getc (enter (negb on) false t d); Ok ([], d)
  | SResumeGetc on p t => '(_, d) ← input_getc_from (negb on) p (enter true false t d); Ok ([], d)
  end.

(** A thread gets the lock of a queue and finds that it need not wait any
    more: the transmit queue has room, or the input buffer has a key. *)
Definition late (op : serial_op) (d : dev) : Prop :=
  match op with
  | SResume AtLock _ _ => length (contents (txq d)) ≠ 63%nat
  | SResumeGetc _ AtLock _ => contents (buffer d) ≠ []
  | _ => False
  end.
#[export] Instance late_dec op d : Decision (late op d).
Proof. unfold late. repeat case_match; apply _. Defined.

Fixpoint serial_run (ops : list serial_op) (d : dev) : res (list Z * dev) :=
  match ops with
  | [] => Ok ([], d)
  | op :: ops => '(a, d) ← serial_step op d; '(b, d) ← serial_run ops d; Ok (a ++ b, d)
  end.

Definition serial_op_ok (op : serial_op) : Prop :=
  match op with SPutc on ctx _ _ | SFlush on ctx => on = true → ctx = false | _ => True end.
Definition is_putc (op : serial_op) : Prop := match op with SPutc _ _ _ _ => True | _ => False end.

Lemma finished_enter k acc d d' off ctx t : finished k acc (enter off ctx t d) d' → finished k acc d d'.
Proof. intros []. by split. Qed.

Lemma finished_weaken k k' acc d d' : (k ≤ k')%nat → finished k acc d d' → finished k' acc d d'.
Proof. intros H []. split; try done. lia. Qed.

Lemma enter_ok off ctx t d : dev_ok d → dev_ok (enter off ctx t d).
Proof. by intros []. Qed.

Lemma serial_step_ok op d :
  dev_ok d → (mode d = QUEUE → ier_ok d) → serial_op_ok op → mode d = QUEUE ∨ is_putc op → (193 ≤ ready d)%nat → ¬ late op d →
  ∃ acc d', serial_step op d = Ok (acc, d') ∧ finished 193 acc d d'.
Proof.
  intros Hok Hi Hop Hm Hr Hl. destruct op as [on ctx t b|p t b| |on ctx|key|on t|on p t]; cbn [serial_step serial_op_ok is_putc] in *;
    try (destruct Hm as [Hm|[]]; specialize (Hi Hm)).
  - destruct (serial_putc_ok b (enter (negb on) ctx t d)) as (o & d' & -> & Fin & _); [by apply enter_ok|by destruct on; simpl; auto|unfold ready in *; simpl; lia|done|].
    eexists _, d'. split; [done|]. eapply finished_enter, finished_weaken; [|done]. lia.
  - destruct (putc_from_ok false (u8 b) p (enter true false t d)) as (o & d' & -> & Fin & _); try done;
      [by apply enter_ok|apply u8_small, u8_range|intros ->; by apply dec_stable|by right|].
    eexists _, d'. split; [done|]. eapply finished_enter, finished_weaken; [|done]. lia.
  - destruct (serial_interrupt_ok (enter true true NULL d)) as (d' & -> & Fin & _); [done|by apply enter_ok|done|].
    exists [], d'. split; [done|]. by eapply finished_enter.
  - destruct (serial_flush_ok (enter (negb on) ctx NULL d)) as (d' & -> & Fin & _); [by apply enter_ok|by destruct on; simpl; auto|unfold ready in *; simpl; lia|done|].
    exists [], d'. split; [done|]. eapply finished_enter, finished_weaken; [|done]. lia.
  - set (d0 := enter true true NULL d). assert (Hok0 : dev_ok d0) by (by apply enter_ok).
    assert (input_full d0 = Ok (bool_decide (length (contents (buffer d0)) = 63%nat), d0)) as ->.
    { pose proof (input_full_ok mret d0 eq_refl (dv_buffer _ Hok0)) as H. unfold mbind, st_bind in H.
      destruct (input_full d0) as [[x y]|]; done. }
    simpl. case_bool_decide as Hf.
    + exists [], d0. split; [done|]. apply (finished_enter _ _ _ _ true true NULL), after_finished; [|done|done].
      apply (after_weaken 0); [lia|by apply after_refl].
    + destruct (input_putc_ok key d0 eq_refl Hok0 Hf) as (d' & -> & A & F & I & _). exists [], d'. split; [done|].
      apply (finished_enter _ _ _ _ true true NULL), after_finished; [|done|done]. apply (after_weaken 0); [lia|done].
  - unfold input_getc. set (d0 := enter true false t d). rewrite (st_bind_ok _ _ _ (negb on) d0) by done.
    destruct (input_getc_from_ok (negb on) Test d0) as (r & d' & -> & Fin & _); try done; [by apply enter_ok|].
    exists [], d'. split; [done|]. eapply finished_enter, finished_weaken; [|done]. lia.
  - destruct (input_getc_from_ok (negb on) p (enter true false t d)) as (r & d' & -> & Fin & _); try done;
      [by apply enter_ok|intros ->; by apply dec_stable|].
    exists [], d'. split; [done|]. eapply finished_enter, finished_weaken; [|done]. lia.
Qed.

Lemma late_fails op d : dev_ok d → late op d → serial_step op d = Err AssertFail.
Proof.
  intros Hok Hl. destruct op as [| [] t b| | | | |on [] t]; try done; simpl in Hl; cbn [serial_step].
  - unfold serial_putc_from, q_putc. rewrite st_bind_assoc, off_ok by done. unfold mbind, st_bind, st_get, st_of_res, intq_putc. simpl.
    rewrite wait_late; [done|]. rewrite must_wait_iff by apply Hok. by apply bool_decide_eq_false_2.
  - unfold input_getc_from, q_getc. rewrite st_bind_assoc, off_ok by done. unfold mbind, st_bind, st_get, st_of_res, intq_getc. simpl.
    rewrite wait_late; [done|]. rewrite must_wait_iff by apply Hok. by apply bool_decide_eq_false_2.
Qed.

(** The steps before the first late one. *)
Fixpoint until_late (ops : list serial_op) (d : dev) : list serial_op :=
  match ops with
  | [] => []
  | op :: ops =>
    if decide (late op d) then []
    else op :: match serial_step op d with Ok (_, d') => until_late ops d' | Err _ => [] end
  end.

(** What is done up to there; the step after it fails its ASSERT. *)
Lemma serial_run_ok ops : ∀ d,
  dev_ok d → (mode d = QUEUE → ier_ok d) → Forall serial_op_ok ops → mode d = QUEUE ∨ Forall is_putc ops →
  (193 * length ops ≤ ready d)%nat →
  ∃ acc d', serial_run (until_late ops d) d = Ok (acc, d') ∧ finished (193 * length ops) acc d d' ∧
    ((until_late ops d = ops) ∨
     serial_run ops d = Err AssertFail ∧ ∃ op rest, ops = until_late ops d ++ op :: rest ∧ late op d').
Proof.
  induction ops as [|op ops IH]; intros d Hok Hi Hops Hm Hr; cbn [until_late].
  { exists [], d. split; [done|]. split; [|by left]. by apply after_finished; [apply after_refl|..]. }
  apply Forall_cons in Hops as [Hop Hops]. simpl in Hr. rewrite Forall_cons in Hm. case_decide as Hl.
  { exists [], d. split; [done|]. split; [by apply (finished_weaken 0); [lia|]; apply after_finished; [apply after_refl|..]|].
    right. split; [|by exists op, ops]. cbn [serial_run]. by rewrite (late_fails op d Hok Hl). }
  destruct (serial_step_ok op d Hok Hi Hop ltac:(tauto) ltac:(lia) Hl) as (a & d1 & H1 & [Ok1 M1 T1 R1 F1 I1]). rewrite H1.
  destruct (IH d1 Ok1) as (b & d2 & H2 & [Ok2 M2 T2 R2 F2 I2] & Hend); [tauto|done|tauto|lia|].
  exists (a ++ b), d2. cbn [serial_run]. rewrite H1. cbn [mbind res_bind]. rewrite H2. split; [done|]. split.
  { split; try done; [tauto|congruence|simpl; lia|by rewrite F2, F1, app_assoc|tauto]. }
  destruct Hend as [->|(He & op' & rest & Eo & Hl')]; [by left|right]. rewrite He. split; [done|]. exists op', rest.
  split; [|done]. cbn [app]. by f_equal.
Qed.

(** ** Theorem *)


Definition demo_dev (answers : list Z) : dev :=
  Dev false false NULL demo_intq demo_intq UNINIT
    (match intr_init demo_stubs bss_table (MkPorts [] []) with Ok (t, _) => t | Err _ => bss_table end)
    (MkPorts answers []) [].

(** The last two wait for a key, the second one for the lock of the buffer. *)
Definition serial_demo : list serial_op :=
  [SPutc true false 1 104; SPutc false false 1 105; SInterrupt; SKey 97; SGetc true 1; SFlush true false;
   SGetc true 1; SGetc true 2].
(** Two keys come before the second reader gets the lock. *)
Definition serial_late : list serial_op := [SKey 98; SKey 99; SResumeGetc true Waiting 1; SResumeGetc true AtLock 2].


Example serial_late_fails :
  match serial_init_queue demo_stubs (demo_dev (replicate 3000 0x60)) with
  | Ok (_, d) => serial_run serial_demo d ≠ Err AssertFail ∧ serial_run (serial_demo ++ serial_late) d = Err AssertFail
  | Err _ => False
  end.
Proof. vm_compute. done. Qed.

End SerialTheorems.
