(* ===== verification/Kbd.v ===== *)
(** devices/kbd.c: the keyboard. *)

From Stdlib Require Import (notations) Ascii.
From S2P Require Import Prelude KState Interrupt Intq IntrTable Serial SerialTheorems.
Import Ports IntrTable Intq Serial.
Local Open Scope Z_scope.

Module Kbd.

Definition DATA_REG : Z := 0x60.

(** The statics of kbd.c, and the devices below. *)
Record kbd := Kbd {
  left_shift : bool; right_shift : bool; left_alt : bool; right_alt : bool; left_ctrl : bool; right_ctrl : bool;
  caps_lock : bool; key_cnt : Z; devices : dev }.

Definition on_dev {A} (op : st dev A) : st kbd A := λ k,
  match op (devices k) with
  | Ok (a, d) =>
    Ok (a, Kbd (left_shift k) (right_shift k) (left_alt k) (right_alt k) (left_ctrl k) (right_ctrl k)
             (caps_lock k) (key_cnt k) d)
  | Err e => Err e
  end.

(** Handler number 1 is [keyboard_interrupt]. *)
Definition kbd_init (intr_stubs : nat → Z) : st kbd unit :=
  on_dev (t ← st_gets table;
          t ← st_of_res (intr_register_ext intr_stubs 0x21 1 "8042 Keyboard" t);
          st_modify (set_table t)).

(** ** Keymaps *)

Record keymap := Keymap { first_scancode : Z; chars : list Z }.

Definition codes (s : string) : list Z := (λ c, Z.of_N (Ascii.N_of_ascii c)) <$> String.list_ascii_of_string s.

(** The entry with scancode 0 ends each table. *)
Definition invariant_keymap : list keymap := [
  Keymap 0x01 [27]; Keymap 0x0e [8]; Keymap 0x0f (9 :: codes "QWERTYUIOP"); Keymap 0x1c [13];
  Keymap 0x1e (codes "ASDFGHJKL"); Keymap 0x2c (codes "ZXCVBNM"); Keymap 0x37 (codes "*"); Keymap 0x39 (codes " ");
  Keymap 0 []].

Definition unshifted_keymap : list keymap := [
  Keymap 0x02 (codes "1234567890-="); Keymap 0x1a (codes "[]"); Keymap 0x27 (codes ";'`"); Keymap 0x2b [92];
  Keymap 0x33 (codes ",./"); Keymap 0 []].

Definition shifted_keymap : list keymap := [
  Keymap 0x02 (codes "!@#$%^&*()_+"); Keymap 0x1a (codes "{}"); Keymap 0x27 [58; 34; 126]; Keymap 0x2b (codes "|");
  Keymap 0x33 (codes "<>?"); Keymap 0 []].

(** The character of a scancode, when the tables have it. *)
Fixpoint map_key (k : list keymap) (scancode : Z) : option Z :=
  match k with
  | [] => None
  | e :: k =>
    if first_scancode e =? 0 then None
    else if (first_scancode e <=? scancode) && (scancode <? first_scancode e + Z.of_nat (length (chars e)))
    then chars e !! Z.to_nat (scancode - first_scancode e)
    else map_key k scancode
  end.

Definition isupper (c : Z) : bool := (65 <=? c) && (c <=? 90).
Definition tolower (c : Z) : Z := if isupper c then c - 65 + 97 else c.

(** ** The interrupt handler *)

Inductive shift_var := LeftShift | RightShift | LeftAlt | RightAlt | LeftCtrl | RightCtrl.

Definition shift_keys : list (Z * shift_var) := [
  (0x2a, LeftShift); (0x36, RightShift); (0x38, LeftAlt); (0xe038, RightAlt); (0x1d, LeftCtrl); (0xe01d, RightCtrl)].

Definition set_shift (v : shift_var) (b : bool) (k : kbd) : kbd :=
  let f v' old := match v, v' with
    | LeftShift, LeftShift | RightShift, RightShift | LeftAlt, LeftAlt | RightAlt, RightAlt
    | LeftCtrl, LeftCtrl | RightCtrl, RightCtrl => b
    | _, _ => old
    end in
  Kbd (f LeftShift (left_shift k)) (f RightShift (right_shift k)) (f LeftAlt (left_alt k)) (f RightAlt (right_alt k))
    (f LeftCtrl (left_ctrl k)) (f RightCtrl (right_ctrl k)) (caps_lock k) (key_cnt k) (devices k).

Fixpoint scan_shift (l : list (Z * shift_var)) (code : Z) (release : bool) (k : kbd) : kbd :=
  match l with
  | [] => k
  | (scancode, v) :: l => if scancode =? code then set_shift v (negb release) k else scan_shift l code release k
  end.

Definition set_caps (b : bool) (k : kbd) : kbd :=
  Kbd (left_shift k) (right_shift k) (left_alt k) (right_alt k) (left_ctrl k) (right_ctrl k) b (key_cnt k) (devices k).
Definition count_key (k : kbd) : kbd :=
  Kbd (left_shift k) (right_shift k) (left_alt k) (right_alt k) (left_ctrl k) (right_ctrl k)
    (caps_lock k) (i64 (key_cnt k + 1)) (devices k).

(** [code] with its prefix, as read from the port. *)
Definition read_code : st kbd Z :=
  code ← on_dev (on_ports (inb DATA_REG));
  if code =? 0xe0 then c2 ← on_dev (on_ports (inb DATA_REG)); mret (Z.lor (u32 (Z.shiftl code 8)) c2) else mret code.

(** The three ways a scancode is an ordinary character, in order. *)
Definition lookup_char (shift : bool) (code : Z) : option Z :=
  match map_key invariant_keymap code with
  | Some c => Some c
  | None => if shift then map_key shifted_keymap code else map_key unshifted_keymap code
  end.

(** Ctrl, Shift, Caps Lock and Alt; [c] is a [uint8_t]. *)
Definition modify_char (shift alt ctrl caps : bool) (c : Z) : Z :=
  let c := if ctrl && ((0x40 <=? c) && (c <? 0x60)) then u8 (c - 0x40)
           else if Bool.eqb shift caps then u8 (tolower c) else c in
  if alt then u8 (c + 0x80) else c.

Definition keyboard_interrupt : st kbd unit :=
  shift ← st_gets (λ k, left_shift k || right_shift k);
  alt ← st_gets (λ k, left_alt k || right_alt k);
  ctrl ← st_gets (λ k, left_ctrl k || right_ctrl k);
  code ← read_code;
  let release := negb (Z.land code 0x80 =? 0) in
  let code := Z.land code (u32 (Z.lnot 0x80)) in
  if code =? 0x3a then
    (if negb release then st_modify (λ k, set_caps (negb (caps_lock k)) k) else mret tt)
  else
    match lookup_char shift code with
    | Some c =>
      if negb release then
        caps ← st_gets caps_lock;
        let c := modify_char shift alt ctrl caps c in
        f ← on_dev input_full;
        (if negb f then st_modify count_key;; on_dev (input_putc c) else mret tt)
      else mret tt
    | None => st_modify (scan_shift shift_keys code release)
    end.

End Kbd.

(** devices/kbd.c: what is typed is what arrives in the input buffer. *)
Import Ports IntrTable Intq Serial SerialTheorems Kbd.
Local Open Scope Z_scope.

Module KbdTheorems.

(** ** The keyboard without its devices *)

(** The same keys over other devices. *)
Definition over (d : dev) (k : kbd) : kbd :=
  Kbd (left_shift k) (right_shift k) (left_alt k) (right_alt k) (left_ctrl k) (right_ctrl k) (caps_lock k) (key_cnt k) d.

(** What a scancode that was read means: the new state of the keys, and the
    character it stands for. *)
Definition key_effect (code : Z) (k : kbd) : option Z * kbd :=
  let shift := left_shift k || right_shift k in
  let release := Z.testbit code 7 in
  let code := Z.land code 0xffffff7f in
  if code =? 0x3a then (None, if release then k else set_caps (negb (caps_lock k)) k)
  else
    match lookup_char shift code with
    | Some c =>
      (if release then None
       else Some (modify_char shift (left_alt k || right_alt k) (left_ctrl k || right_ctrl k) (caps_lock k) c), k)
    | None => (None, scan_shift shift_keys code release k)
    end.

(** The bytes of a scancode, and its value. *)
Definition code_ok (bytes : list Z) (code : Z) : Prop :=
  (∃ b, bytes = [b] ∧ u8 b ≠ 0xe0 ∧ code = u8 b) ∨ ∃ b b2, bytes = [b; b2] ∧ u8 b = 0xe0 ∧ code = Z.lor 0xe000 (u8 b2).

Lemma on_dev_ok {A B} (op : st dev A) (f : A → st kbd B) k a d' :
  op (devices k) = Ok (a, d') → (on_dev op ≫= f) k = f a (over d' k).
Proof. intros H. apply st_bind_ok. unfold on_dev. by rewrite H. Qed.

Lemma on_dev_last {A} (op : st dev A) k a d' : op (devices k) = Ok (a, d') → on_dev op k = Ok (a, over d' k).
Proof. intros H. unfold on_dev. by rewrite H. Qed.

Lemma inb_dev p d v l : inputs (io d) = v :: l → on_ports (inb p) d = Ok (u8 v, put_trace l [] d).
Proof. intros H. unfold on_ports, inb. rewrite H. unfold put_trace. by rewrite app_nil_r. Qed.

Lemma read_code_ok {B} (f : Z → st kbd B) k bytes code rest :
  code_ok bytes code → inputs (io (devices k)) = bytes ++ rest →
  (read_code ≫= f) k = f code (over (put_trace rest [] (devices k)) k).
Proof.
  intros [(b & -> & Hb & ->)|(b & b2 & -> & Hb & ->)] Hi; unfold read_code; rewrite st_bind_assoc;
    rewrite (on_dev_ok _ _ _ _ _ (inb_dev DATA_REG _ _ _ Hi)).
  - by rewrite (proj2 (Z.eqb_neq _ _) Hb).
  - rewrite Hb. simpl. rewrite st_bind_assoc.
    rewrite (on_dev_ok _ _ _ (u8 b2) (put_trace rest [] (put_trace (b2 :: rest) [] (devices k)))) by (by apply inb_dev).
    unfold over, put_trace. simpl. by rewrite !app_nil_r.
Qed.

Lemma release_bit code : 0 ≤ code → negb (Z.land code 0x80 =? 0) = Z.testbit code 7.
Proof.
  intros Hc. destruct (Z.testbit code 7) eqn:E.
  - destruct (Z.eqb_spec (Z.land code 0x80) 0) as [H|]; [|done].
    assert (Hb := f_equal (λ z, Z.testbit z 7) H). cbv beta in Hb. rewrite Z.land_spec, E in Hb. done.
  - assert (Z.land code 0x80 = 0) as ->; [|done]. change 0x80 with (2 ^ 7). apply Z.bits_inj'. intros n Hn.
    rewrite Z.land_spec, Z.bits_0, Z.pow2_bits_eqb by lia. destruct (Z.eqb_spec 7 n) as [<-|]; [by rewrite E|by rewrite andb_false_r].
Qed.

Lemma code_nonneg bytes code : code_ok bytes code → 0 ≤ code.
Proof.
  intros [(b & _ & _ & ->)|(b & b2 & _ & _ & ->)]; [apply u8_range|].
  apply Z.lor_nonneg. pose proof (u8_range b2). lia.
Qed.

(** The character goes to the input buffer unless it is full, and is counted
    when it does. *)
Definition deliver (o : option Z) (k : kbd) (d' : dev) (k' : kbd) : Prop :=
  let old := contents (buffer (devices k)) in
  match o with
  | Some c =>
    if decide (length old = 63%nat) then contents (buffer d') = old ∧ key_cnt k' = key_cnt k
    else contents (buffer d') = old ++ [c] ∧ key_cnt k' = i64 (key_cnt k + 1)
  | None => contents (buffer d') = old ∧ key_cnt k' = key_cnt k
  end.

(** The keys that are down and Caps Lock. *)
Definition same_keys (k k' : kbd) : Prop :=
  left_shift k = left_shift k' ∧ right_shift k = right_shift k' ∧ left_alt k = left_alt k' ∧ right_alt k = right_alt k' ∧
  left_ctrl k = left_ctrl k' ∧ right_ctrl k = right_ctrl k' ∧ caps_lock k = caps_lock k'.

(** The state the devices are in when a keyboard interrupt comes. *)
Definition kbd_ok (k : kbd) : Prop :=
  dev_ok (devices k) ∧ irq_off (devices k) = true ∧ (mode (devices k) = QUEUE → ier_ok (devices k)).

Lemma scan_shift_devices l code r k : devices (scan_shift l code r k) = devices k ∧ key_cnt (scan_shift l code r k) = key_cnt k.
Proof. induction l as [|[c v] l IH]; [done|]. simpl. by destruct (c =? code). Qed.

Lemma scan_shift_over l code r k d : scan_shift l code r (over d k) = over d (scan_shift l code r k).
Proof. induction l as [|[c v] l IH]; [done|]. simpl. destruct (c =? code); [by destruct v|done]. Qed.

Lemma keyboard_interrupt_ok k bytes code rest :
  kbd_ok k → code_ok bytes code → inputs (io (devices k)) = bytes ++ rest →
  ∃ k', keyboard_interrupt k = Ok (tt, k') ∧ kbd_ok k' ∧ inputs (io (devices k')) = rest ∧
        same_keys k' (key_effect code k).2 ∧ deliver (key_effect code k).1 k (devices k') k'.
Proof.
  intros (Hok & Ho & Hi) Hcode Hin. unfold keyboard_interrupt.
  rewrite !(st_bind_ok _ _ k _ k) by done. rewrite (read_code_ok _ _ _ _ _ Hcode Hin).
  rewrite release_bit by (by eapply code_nonneg). change (u32 (Z.lnot 0x80)) with 0xffffff7f. unfold key_effect.
  set (d1 := put_trace rest [] (devices k)). assert (Hok1 : dev_ok d1) by (by apply read_ok).
  assert (Hi1 : mode d1 = QUEUE → ier_ok d1).
  { intros Hm. specialize (Hi Hm). unfold ier_ok, d1 in *. by rewrite uart_put. }
  assert (Hk1 : kbd_ok (over d1 k)) by done.
  destruct (_ =? 0x3a). { destruct (Z.testbit code 7); simpl; eexists; (split; [reflexivity|]); by split_and!. }
  destruct (lookup_char _ _) as [c|] eqn:El.
  2: { eexists. split; [reflexivity|]. rewrite scan_shift_over. split; [done|]. split; [done|]. split; [by split_and!|].
       split; [done|]. simpl. by destruct (scan_shift_devices shift_keys (Z.land code 0xffffff7f) (Z.testbit code 7) k). }
  destruct (Z.testbit code 7); cbn [negb]. { eexists. split; [reflexivity|]. by split_and!. }
  rewrite (st_bind_ok _ _ _ (caps_lock k) (over d1 k)) by done. set (c' := modify_char _ _ _ _ _).
  assert (input_full d1 = Ok (bool_decide (length (contents (buffer d1)) = 63%nat), d1)) as Hfull.
  { pose proof (input_full_ok mret d1 Ho (dv_buffer _ Hok1)) as H. unfold mbind, st_bind in H. by destruct (input_full d1) as [[x y]|]. }
  rewrite (on_dev_ok _ _ _ _ _ (Hfull : input_full (devices (over d1 k)) = _)). cbn [deliver fst snd]. case_bool_decide as Hf; cbn [negb].
  - eexists. split; [reflexivity|]. rewrite decide_True by done. by split_and!.
  - destruct (input_putc_ok c' d1 Ho Hok1 Hf) as (d2 & H2 & A2 & F2 & I2 & B2 & T2 & N2).
    rewrite (st_bind_ok _ _ _ tt (count_key (over d1 k))) by done. rewrite (on_dev_last (input_putc c') (count_key (over d1 k)) tt d2 H2).
    eexists. split; [reflexivity|]. rewrite decide_False by done. split; [|split; [by simpl; rewrite N2|split; [by split_and!|by simpl; rewrite B2]]].
    split; [apply A2|]. split; [by simpl; rewrite (af_off _ _ _ A2)|]. intros Hm. apply I2. by apply (af_mode _ _ _ A2).
Qed.

(** ** Sequences of interrupts *)

Lemma key_effect_same code k k2 : same_keys k k2 →
  (key_effect code k).1 = (key_effect code k2).1 ∧ same_keys (key_effect code k).2 (key_effect code k2).2.
Proof.
  intros (H1 & H2 & H3 & H4 & H5 & H6 & H7). unfold key_effect. rewrite H1, H2, H3, H4, H5, H6, H7.
  destruct (_ =? 0x3a); [split; [done|]; case_match; split_and!; simpl; congruence|].
  case_match; [by split_and!|]. split; [done|]. generalize shift_keys. induction l as [|[c v] l IH]; [by split_and!|].
  simpl. case_match; [|done]. destruct v; by split_and!.
Qed.

(** The characters a sequence of scancodes stands for. *)
Fixpoint keys_run (codes : list Z) (k : kbd) : list Z * kbd :=
  match codes with
  | [] => ([], k)
  | c :: codes =>
    let '(o, k) := key_effect c k in
    let '(cs, k) := keys_run codes k in
    (match o with Some x => x :: cs | None => cs end, k)
  end.

Fixpoint kbd_run (n : nat) : st kbd unit :=
  match n with O => mret tt | S n => keyboard_interrupt;; kbd_run n end.

Definition plain_code (c : Z) : Prop := u8 c = c ∧ c ≠ 0xe0.

Lemma kbd_run_ok codes : ∀ k k2 rest,
  kbd_ok k → same_keys k k2 → Forall plain_code codes → inputs (io (devices k)) = codes ++ rest →
  (length (contents (buffer (devices k))) + length (keys_run codes k2).1 ≤ 63)%nat →
  ∃ k', kbd_run (length codes) k = Ok (tt, k') ∧ kbd_ok k' ∧ inputs (io (devices k')) = rest ∧
    same_keys k' (keys_run codes k2).2 ∧
    contents (buffer (devices k')) = contents (buffer (devices k)) ++ (keys_run codes k2).1.
Proof.
  induction codes as [|c codes IH]; intros k k2 rest Hk Hs Hc Hin Hl; cbn [kbd_run length keys_run] in *.
  { exists k. rewrite app_nil_r. by split_and!. }
  apply Forall_cons in Hc as [[Hc1 Hc2] Hc]. destruct (key_effect_same c k k2 Hs) as [He1 He2].
  destruct (keyboard_interrupt_ok k [c] c (codes ++ rest) Hk) as (k1 & H1 & Hk1 & Hin1 & Hs1 & Hd); [left; exists c; rewrite Hc1; done|done|].
  rewrite (st_bind_ok _ _ _ _ _ H1). rewrite He1 in Hd. destruct (key_effect c k2) as [o k3] eqn:E3. cbn [fst snd] in *.
  destruct (IH k1 k3 rest Hk1) as (k' & Hrun & Hk' & Hin' & Hs' & Hct); [|done|done| |].
  - unfold same_keys in *. naive_solver congruence.
  - destruct (keys_run codes k3) as [cs k4]. cbn [fst snd] in *. unfold deliver in Hd. destruct o; [case_decide|]; destruct Hd as [-> _];
      rewrite ?length_app; simpl in *; lia.
  - exists k'. destruct (keys_run codes k3) as [cs k4]. cbn [fst snd] in *. split_and!; try done. rewrite Hct. unfold deliver in Hd.
    destruct o as [x|]; [|by destruct Hd as [-> _]]. rewrite decide_False in Hd by (simpl in Hl; lia).
    destruct Hd as [-> _]. by rewrite <- app_assoc.
Qed.

(** ** Typing *)

(** The keys of a US keyboard that make characters, written down key by key and
    not taken from the driver: the code the key sends when it is pressed
    (scancode set 1 of the IBM PC/AT keyboard), and the characters engraved on
    it, without and with Shift.  Released, a key sends its code plus 0x80. *)
Definition us_keyboard : list (Z * Ascii.ascii * Ascii.ascii) := ([
  (0x01%Z, "027", "027"); (0x02%Z, "1", "!"); (0x03%Z, "2", "@"); (0x04%Z, "3", "#"); (0x05%Z, "4", "$");
  (0x06%Z, "5", "%"); (0x07%Z, "6", "^"); (0x08%Z, "7", "&"); (0x09%Z, "8", "*"); (0x0a%Z, "9", "(");
  (0x0b%Z, "0", ")"); (0x0c%Z, "-", "_"); (0x0d%Z, "=", "+"); (0x0e%Z, "008", "008"); (0x0f%Z, "009", "009");
  (0x10%Z, "q", "Q"); (0x11%Z, "w", "W"); (0x12%Z, "e", "E"); (0x13%Z, "r", "R"); (0x14%Z, "t", "T");
  (0x15%Z, "y", "Y"); (0x16%Z, "u", "U"); (0x17%Z, "i", "I"); (0x18%Z, "o", "O"); (0x19%Z, "p", "P");
  (0x1a%Z, "[", "{"); (0x1b%Z, "]", "}"); (0x1c%Z, "013", "013"); (0x1e%Z, "a", "A"); (0x1f%Z, "s", "S");
  (0x20%Z, "d", "D"); (0x21%Z, "f", "F"); (0x22%Z, "g", "G"); (0x23%Z, "h", "H"); (0x24%Z, "j", "J");
  (0x25%Z, "k", "K"); (0x26%Z, "l", "L"); (0x27%Z, ";", ":"); (0x28%Z, "'", "034"); (0x29%Z, "`", "~");
  (0x2b%Z, "\", "|"); (0x2c%Z, "z", "Z"); (0x2d%Z, "x", "X"); (0x2e%Z, "c", "C"); (0x2f%Z, "v", "V");
  (0x30%Z, "b", "B"); (0x31%Z, "n", "N"); (0x32%Z, "m", "M"); (0x33%Z, ",", "<"); (0x34%Z, ".", ">");
  (0x35%Z, "/", "?"); (0x39%Z, " ", " ")])%char.

Definition LEFT_SHIFT_KEY : Z := 0x2a.

Definition press (s : Z) : list Z := [s].
Definition unpress (s : Z) : list Z := [s + 0x80].

(** The key that has the character is pressed and released; the left Shift key
    is down meanwhile when the character is the shifted one of its key. *)
Definition type_on (keys : list (Z * Ascii.ascii * Ascii.ascii)) (c : Z) : list Z :=
  match list_find (λ k, Z.of_N (Ascii.N_of_ascii k.1.2) = c) keys, list_find (λ k, Z.of_N (Ascii.N_of_ascii k.2) = c) keys with
  | Some (_, k), _ => press k.1.1 ++ unpress k.1.1
  | None, Some (_, k) => press LEFT_SHIFT_KEY ++ press k.1.1 ++ unpress k.1.1 ++ unpress LEFT_SHIFT_KEY
  | None, None => []
  end.
Definition type_char : Z → list Z := type_on us_keyboard.
Definition type_text (text : list Z) : list Z := concat (type_char <$> text).

(** The printable characters of ASCII, with Backspace, Tab, Enter and
    Escape. *)
Definition typeable : list Z := [8; 9; 13; 27] ++ seqZ 32 95.

Definition idle_kbd (n : Z) (d : dev) : kbd := Kbd false false false false false false false n d.

Lemma type_char_ok c n d : c ∈ typeable → Forall plain_code (type_char c) ∧ keys_run (type_char c) (idle_kbd n d) = ([c], idle_kbd n d).
Proof.
  intros Hc. assert (H : Forall (λ c, bool_decide (Forall plain_code (type_char c)) = true ∧ keys_run (type_char c) (idle_kbd n d) = ([c], idle_kbd n d)) typeable).
  { unfold typeable. repeat (constructor; [split; vm_compute; reflexivity|]). constructor. }
  rewrite Forall_forall in H. destruct (H c Hc) as [H1%bool_decide_eq_true H2]. done.
Qed.

Lemma keys_run_app l1 l2 k :
  keys_run (l1 ++ l2) k = ((keys_run l1 k).1 ++ (keys_run l2 (keys_run l1 k).2).1, (keys_run l2 (keys_run l1 k).2).2).
Proof.
  revert k. induction l1 as [|c l1 IH]; intros k; simpl; [by destruct (keys_run l2 k)|].
  destruct (key_effect c k) as [o k1]. rewrite IH. destruct (keys_run l1 k1) as [cs k2]. simpl. by destruct o.
Qed.

Lemma type_text_ok text n d : Forall (.∈ typeable) text →
  Forall plain_code (type_text text) ∧ keys_run (type_text text) (idle_kbd n d) = (text, idle_kbd n d).
Proof.
  unfold type_text. induction 1 as [|c text Hc _ [IH1 IH2]]; [split; [constructor|done]|].
  destruct (type_char_ok c n d Hc) as [H1 H2]. rewrite fmap_cons. cbn [concat]. split; [by apply Forall_app|].
  rewrite keys_run_app, H2. cbn [fst snd]. rewrite IH2. done.
Qed.

(** ** Theorem *)

(** C27: typing a text of printable ASCII characters, Tab, Enter, Backspace and
    Escape on a US keyboard (the keys of [us_keyboard], each pressed and
    released, Shift held where the character needs it) brings exactly that text into the input buffer, in
    order and after what was there, as long as it fits; no ASSERT fails, no key
    is left stuck, and the serial driver's interrupt register stays right. *)
Theorem keyboard_types_text k n d text rest :
  k = idle_kbd n d → kbd_ok k → Forall (.∈ typeable) text → inputs (io d) = type_text text ++ rest →
  (length (contents (buffer d)) + length text ≤ 63)%nat →
  ∃ k', kbd_run (length (type_text text)) k = Ok (tt, k') ∧ kbd_ok k' ∧ same_keys k' (idle_kbd n d) ∧
    inputs (io (devices k')) = rest ∧ contents (buffer (devices k')) = contents (buffer d) ++ text.
Proof.
  intros -> Hk Ht Hin Hl. destruct (type_text_ok text n d Ht) as [Hp Hr].
  destruct (kbd_run_ok (type_text text) (idle_kbd n d) (idle_kbd n d) rest) as (k' & H1 & H2 & H3 & H4 & H5);
    [done|by split_and!|done|done|by rewrite Hr|]. rewrite Hr in H4, H5. by exists k'.
Qed.

Definition typing_dev (text : list Z) : dev :=
  Dev true true NULL demo_intq demo_intq POLL bss_table (MkPorts (type_text text) []) [].

Lemma keyboard_types_text_witness :
  ∃ k', kbd_run (length (type_text [72; 105; 33; 13])) (idle_kbd 0 (typing_dev [72; 105; 33; 13])) = Ok (tt, k') ∧
    kbd_ok k' ∧ same_keys k' (idle_kbd 0 (typing_dev [72; 105; 33; 13])) ∧ inputs (io (devices k')) = [] ∧
    contents (buffer (devices k')) = contents (buffer (typing_dev [72; 105; 33; 13])) ++ [72; 105; 33; 13].
Proof.
  apply keyboard_types_text; [reflexivity| | | |].
  - assert (Hq : intq_ok demo_intq) by (split; [done|simpl; lia]). split; [by split|]. by split.
  - repeat constructor; apply (bool_decide_unpack _); by vm_compute.
  - by rewrite app_nil_r.
  - apply Nat.leb_le. by vm_compute.
Defined.

End KbdTheorems.
