(* ===== verification/Vga.v ===== *)
(** devices/vga.c: the text display.

    [fb] is the framebuffer of 25 rows of 80 cells, two bytes per cell, in the
    order of its memory; a write outside of it is an error.  Interrupts and
    ports are those of [dev]. *)

From S2P Require Import Prelude KState Interrupt Intq IntrTable Serial.
Import Ports IntrTable Intq Serial.
Local Open Scope Z_scope.

Module Vga.

Definition COL_CNT : Z := 80.
Definition ROW_CNT : Z := 25.
Definition GRAY_ON_BLACK : Z := 0x07.

Record vga := MkVga { cx : Z; cy : Z; fb : list Z; inited : bool; vdev : dev }.

Definition set_pos (x y : Z) (v : vga) : vga := MkVga x y (fb v) (inited v) (vdev v).
Definition set_fb (l : list Z) (v : vga) : vga := MkVga (cx v) (cy v) l (inited v) (vdev v).

Definition on_vdev {A} (op : st dev A) : st vga A := λ v,
  match op (vdev v) with
  | Ok (a, d) => Ok (a, MkVga (cx v) (cy v) (fb v) (inited v) d)
  | Err e => Err e
  end.

(** [fb[y][x][k] = b] *)
Definition store (y x k b : Z) : st vga unit := λ v,
  let i := 160 * y + 2 * x + k in
  if (0 <=? i) && (i <? 4000) then Ok (tt, set_fb (<[Z.to_nat i := u8 b]> (fb v)) v) else Err BadAddr.

(** [memmove (&fb[0], &fb[1], sizeof fb[0] * (ROW_CNT - 1))] *)
Definition move_rows_up : st vga unit :=
  st_modify (λ v, set_fb (take 3840 (drop 160 (fb v)) ++ drop 3840 (fb v)) v).

(** [for (x = 0; x < COL_CNT; x++)]: [n] iterations are left. *)
Fixpoint clear_cells (n : nat) (y x : Z) : st vga unit :=
  match n with
  | O => mret tt
  | S n => store y x 0 32;; store y x 1 GRAY_ON_BLACK;; clear_cells n y (x + 1)
  end.

Definition clear_row (y : Z) : st vga unit := clear_cells 80 y 0.

Definition move_cursor : st vga unit :=
  v ← st_get;
  let cp := u16 (cx v + COL_CNT * cy v) in
  on_vdev (on_ports (outw 0x3d4 (Z.lor 0x0e (Z.land cp 0xff00))));;
  on_vdev (on_ports (outw 0x3d4 (Z.lor 0x0f (Z.shiftl cp 8)))).

Fixpoint clear_rows (n : nat) (y : Z) : st vga unit :=
  match n with O => mret tt | S n => clear_row y;; clear_rows n (y + 1) end.

Definition cls : st vga unit :=
  clear_rows 25 0;;
  st_modify (set_pos 0 0);;
  move_cursor.

Definition newline : st vga unit :=
  st_modify (λ v, set_pos 0 (u64 (cy v + 1)) v);;
  y ← st_gets cy;
  if ROW_CNT <=? y then
    st_modify (set_pos 0 (ROW_CNT - 1));;
    move_rows_up;;
    clear_row (ROW_CNT - 1)
  else mret tt.

Definition find_cursor : st vga (Z * Z) :=
  on_vdev (on_ports (outb 0x3d4 0x0e));;
  hi ← on_vdev (on_ports (inb 0x3d5));
  let cp := u16 (Z.shiftl hi 8) in
  on_vdev (on_ports (outb 0x3d4 0x0f));;
  lo ← on_vdev (on_ports (inb 0x3d5));
  let cp := Z.lor cp lo in
  mret (cp `mod` COL_CNT, cp / COL_CNT).

Definition init : st vga unit :=
  i ← st_gets inited;
  if negb i then
    '(x, y) ← find_cursor;
    st_modify (λ v, MkVga x y (fb v) true (vdev v))
  else mret tt.

(** include/lib/round.h *)
Definition ROUND_UP (x step : Z) : Z := u64 (u64 (x + step - 1) / step * step).

Definition put_char (c : Z) : st vga unit :=
  if c =? 10 then newline
  else if c =? 12 then cls
  else if c =? 8 then st_modify (λ v, if 0 <? cx v then set_pos (cx v - 1) (cy v) v else v)
  else if c =? 13 then st_modify (λ v, set_pos 0 (cy v) v)
  else if c =? 9 then
    st_modify (λ v, set_pos (ROUND_UP (u64 (cx v + 1)) 8) (cy v) v);;
    x ← st_gets cx;
    (if COL_CNT <=? x then newline else mret tt)
  else
    v ← st_get;
    store (cy v) (cx v) 0 c;;
    store (cy v) (cx v) 1 GRAY_ON_BLACK;;
    st_modify (λ v, set_pos (u64 (cx v + 1)) (cy v) v);;
    x ← st_gets cx;
    (if COL_CNT <=? x then newline else mret tt).

Definition vga_putc (c : Z) : st vga unit :=
  old_level ← on_vdev dev_intr_disable;
  init;;
  put_char c;;
  move_cursor;;
  on_vdev (dev_intr_set_level old_level).

End Vga.

(** devices/vga.c: the framebuffer shows what a terminal of 25 lines shows. *)
Import Ports IntrTable Serial Vga.
Local Open Scope Z_scope.

Module VgaTheorems.

(** ** The terminal *)

Definition row (l : list Z) (y : nat) : list (Z * Z) :=
  (λ x : nat, (l !!! (160 * y + 2 * x)%nat, l !!! (160 * y + 2 * x + 1)%nat)) <$> seq 0 80.
Definition rows (l : list Z) : list (list (Z * Z)) := row l <$> seq 0 25.

Record terminal := Term { t_rows : list (list (Z * Z)); t_x : nat; t_y : nat }.

Definition blank_row : list (Z * Z) := replicate 80 (32, GRAY_ON_BLACK).

Definition t_newline (t : terminal) : terminal :=
  if decide (S (t_y t) < 25)%nat then Term (t_rows t) 0 (S (t_y t)) else Term (drop 1 (t_rows t) ++ [blank_row]) 0 24.
Definition t_wrap (t : terminal) : terminal := if decide (t_x t < 80)%nat then t else t_newline t.

Definition t_put (t : terminal) (c : Z) : terminal :=
  if decide (c = 10) then t_newline t
  else if decide (c = 12) then Term (replicate 25 blank_row) 0 0
  else if decide (c = 8) then Term (t_rows t) (pred (t_x t)) (t_y t)
  else if decide (c = 13) then Term (t_rows t) 0 (t_y t)
  else if decide (c = 9) then t_wrap (Term (t_rows t) ((t_x t / 8 + 1) * 8) (t_y t))
  else t_wrap (Term (alter (λ r, <[t_x t := (c, GRAY_ON_BLACK)]> r) (t_y t) (t_rows t)) (S (t_x t)) (t_y t)).

Definition screen (v : vga) : terminal := Term (rows (fb v)) (Z.to_nat (cx v)) (Z.to_nat (cy v)).

(** ** Rows of the framebuffer *)

Lemma row_lookup l y x : (x < 80)%nat → row l y !! x = Some (l !!! (160 * y + 2 * x)%nat, l !!! (160 * y + 2 * x + 1)%nat).
Proof. intros H. unfold row. by rewrite list_lookup_fmap, lookup_seq_lt. Qed.

Lemma rows_lookup l y : (y < 25)%nat → rows l !! y = Some (row l y).
Proof. intros H. unfold rows. by rewrite list_lookup_fmap, lookup_seq_lt. Qed.

Lemma length_row l y : length (row l y) = 80%nat.
Proof. unfold row. by rewrite length_fmap, length_seq. Qed.

Lemma length_rows l : length (rows l) = 25%nat.
Proof. unfold rows. by rewrite length_fmap, length_seq. Qed.

Lemma row_ext l l' y y' :
  (∀ k, (k < 160)%nat → l !!! (160 * y + k)%nat = l' !!! (160 * y' + k)%nat) → row l y = row l' y'.
Proof.
  intros H. unfold row. apply list_fmap_ext. intros i x [-> Hx]%lookup_seq. cbv beta. set (i2 := (2 * (0 + i))%nat) in *.
  rewrite <- !Nat.add_assoc. by rewrite !H by (subst i2; lia).
Qed.

(** Both bytes of a cell. *)
Definition put2 (y x : nat) (c a : Z) (l : list Z) : list Z :=
  <[(160 * y + 2 * x + 1)%nat := a]> (<[(160 * y + 2 * x)%nat := c]> l).

Lemma rows_put2 y x c a l : length l = 4000%nat → (y < 25)%nat → (x < 80)%nat →
  rows (put2 y x c a l) = <[y := <[x := (c, a)]> (row l y)]> (rows l).
Proof.
  intros Hl Hy Hx. apply list_eq. intros y'. destruct (decide (y' < 25)%nat) as [Hy'|Hy'].
  2: { rewrite !(proj2 (lookup_ge_None _ _)); [done| |]; rewrite ?length_insert, length_rows; lia. }
  rewrite rows_lookup by done. destruct (decide (y' = y)) as [->|Hne].
  - rewrite list_lookup_insert_eq by (by rewrite length_rows). f_equal. apply list_eq. intros x'.
    destruct (decide (x' < 80)%nat) as [Hx'|Hx'].
    2: { rewrite !(proj2 (lookup_ge_None _ _)); [done| |]; rewrite ?length_insert, length_row; lia. }
    rewrite row_lookup by done. unfold put2. destruct (decide (x' = x)) as [->|Hnx].
    + rewrite list_lookup_insert_eq by (by rewrite length_row).
      rewrite list_lookup_total_insert_ne, list_lookup_total_insert_eq by lia.
      by rewrite list_lookup_total_insert_eq by (rewrite length_insert; lia).
    + rewrite list_lookup_insert_ne by done. rewrite row_lookup by done. by rewrite !list_lookup_total_insert_ne by lia.
  - rewrite list_lookup_insert_ne by done. rewrite rows_lookup by done. f_equal. apply row_ext. intros k Hk. unfold put2.
    by rewrite !list_lookup_total_insert_ne by lia.
Qed.

Lemma rows_put2_row y x c a l : length l = 4000%nat → (y < 25)%nat → (x < 80)%nat →
  row (put2 y x c a l) y = <[x := (c, a)]> (row l y).
Proof.
  intros Hl Hy Hx. pose proof (rows_lookup (put2 y x c a l) y Hy) as H. rewrite rows_put2 in H by done.
  rewrite list_lookup_insert_eq in H by (by rewrite length_rows). congruence.
Qed.

Lemma alter_lookup {A} (f : A → A) (l : list A) i x : l !! i = Some x → alter f i l = <[i := f x]> l.
Proof.
  revert i. induction l as [|y l IH]; intros [|i] H; simplify_eq/=; [done|]. f_equal. by apply IH.
Qed.

(** Scrolling. *)
Definition scrolled (l : list Z) : list Z := take 3840 (drop 160 l) ++ drop 3840 l.

Lemma scrolled_length l : length l = 4000%nat → length (scrolled l) = 4000%nat.
Proof. intros H. unfold scrolled. rewrite length_app, length_take, !length_drop. lia. Qed.

Lemma rows_scrolled l r : length l = 4000%nat → <[24%nat := r]> (rows (scrolled l)) = drop 1 (rows l) ++ [r].
Proof.
  intros Hl. apply list_eq. intros y. destruct (decide (y < 25)%nat) as [Hy|Hy].
  2: { rewrite !(proj2 (lookup_ge_None _ _)); [done| |]; rewrite ?length_insert, ?length_app, ?length_drop, length_rows; simpl; lia. }
  destruct (decide (y = 24%nat)) as [->|Hne].
  - rewrite list_lookup_insert_eq by (by rewrite length_rows). rewrite lookup_app_r; rewrite length_drop, length_rows; [done|lia].
  - rewrite list_lookup_insert_ne by done. rewrite lookup_app_l by (rewrite length_drop, length_rows; lia).
    rewrite lookup_drop, !rows_lookup by lia. f_equal. apply row_ext. intros k Hk. unfold scrolled.
    rewrite !list_lookup_total_alt, lookup_app_l by (rewrite length_take, length_drop; lia).
    rewrite lookup_take_lt, lookup_drop by lia. do 2 f_equal. lia.
Qed.

(** ** The functions *)

Definition vga_ok (v : vga) : Prop := length (fb v) = 4000%nat ∧ 0 ≤ cx v < 80 ∧ 0 ≤ cy v < 25.

Definition traced (w : list port_write) (d : dev) : dev := set_io (MkPorts (inputs (io d)) (trace (io d) ++ w)) d.
Definition with_dev (d : dev) (v : vga) : vga := MkVga (cx v) (cy v) (fb v) (inited v) d.

Lemma traced_nil d : traced [] d = d.
Proof. unfold traced, set_io. rewrite app_nil_r. by destruct d as [? ? ? ? ? ? ? [] ?]. Qed.
Lemma traced_app w w' d : traced w' (traced w d) = traced (w ++ w') d.
Proof. unfold traced, set_io. simpl. by rewrite app_assoc. Qed.
Lemma with_dev_id v : with_dev (vdev v) v = v.
Proof. by destruct v. Qed.

Lemma store2 {B} (f : unit → st vga B) y x c a v : 0 ≤ y < 25 → 0 ≤ x < 80 →
  (store y x 0 c;; store y x 1 a ≫= f) v = f tt (set_fb (put2 (Z.to_nat y) (Z.to_nat x) (u8 c) (u8 a) (fb v)) v).
Proof.
  intros Hy Hx. unfold mbind, st_bind, store.
  rewrite !(proj2 (Z.leb_le _ _)), !(proj2 (Z.ltb_lt _ _)) by lia. cbn [andb set_fb fb cx cy inited vdev].
  replace (Z.to_nat (160 * y + 2 * x + 0)) with (160 * Z.to_nat y + 2 * Z.to_nat x)%nat by lia.
  replace (Z.to_nat (160 * y + 2 * x + 1)) with (160 * Z.to_nat y + 2 * Z.to_nat x + 1)%nat by lia. done.
Qed.

Lemma clear_cells_ok n : ∀ y x v, 0 ≤ y < 25 → 0 ≤ x → x + Z.of_nat n = 80 → length (fb v) = 4000%nat →
  ∃ l, clear_cells n y x v = Ok (tt, set_fb l v) ∧ length l = 4000%nat ∧
    rows l = <[Z.to_nat y := take (Z.to_nat x) (row (fb v) (Z.to_nat y)) ++ replicate n (32, GRAY_ON_BLACK)]> (rows (fb v)).
Proof.
  induction n as [|n IH]; intros y x v Hy Hx Hn Hl; cbn [clear_cells].
  { exists (fb v). split; [by destruct v|]. split; [done|]. rewrite app_nil_r, take_ge by (rewrite length_row; lia).
    symmetry. apply list_insert_id. apply rows_lookup. lia. }
  rewrite store2 by lia. set (v1 := set_fb _ _).
  assert (Hl1 : length (fb v1) = 4000%nat) by (unfold v1, put2; simpl; by rewrite !length_insert).
  destruct (IH y (x + 1) v1) as (l & H1 & H2 & H3); [lia..|done|]. exists l. split; [done|]. split; [done|]. rewrite H3.
  unfold v1. cbn [set_fb fb]. rewrite rows_put2, rows_put2_row by (done || lia). rewrite list_insert_insert_eq. f_equal.
  replace (Z.to_nat (x + 1)) with (S (Z.to_nat x)) by lia.
  rewrite (take_S_r _ _ (u8 32, u8 GRAY_ON_BLACK)) by (apply list_lookup_insert_eq; rewrite length_row; lia).
  rewrite take_insert_ge by lia. rewrite <- app_assoc. done.
Qed.

Lemma clear_row_ok y v : 0 ≤ y < 25 → length (fb v) = 4000%nat →
  ∃ l, clear_row y v = Ok (tt, set_fb l v) ∧ length l = 4000%nat ∧ rows l = <[Z.to_nat y := blank_row]> (rows (fb v)).
Proof.
  intros Hy Hl. destruct (clear_cells_ok 80 y 0 v) as (l & H1 & H2 & H3); [lia..|done|]. by exists l.
Qed.

Lemma clear_rows_ok n : ∀ y v, 0 ≤ y → y + Z.of_nat n = 25 → length (fb v) = 4000%nat →
  ∃ l, clear_rows n y v = Ok (tt, set_fb l v) ∧ length l = 4000%nat ∧
    rows l = take (Z.to_nat y) (rows (fb v)) ++ replicate n blank_row.
Proof.
  induction n as [|n IH]; intros y v Hy Hn Hl; cbn [clear_rows].
  { exists (fb v). split; [by destruct v|]. split; [done|]. by rewrite app_nil_r, take_ge by (rewrite length_rows; lia). }
  destruct (clear_row_ok y v) as (l1 & H1 & Hl1 & Hr1); [lia|done|]. rewrite (st_bind_ok _ _ _ _ _ H1).
  destruct (IH (y + 1) (set_fb l1 v)) as (l & H2 & Hl2 & Hr2); [lia..|done|]. exists l. split; [done|]. split; [done|].
  rewrite Hr2. cbn [set_fb fb]. rewrite Hr1. replace (Z.to_nat (y + 1)) with (S (Z.to_nat y)) by lia.
  rewrite (take_S_r _ _ blank_row) by (apply list_lookup_insert_eq; rewrite length_rows; lia).
  rewrite take_insert_ge by lia. by rewrite <- app_assoc.
Qed.

(** The cursor registers of the display controller. *)
Definition crt_step (p : Z * Z) (w : port_write) : Z * Z :=
  match w with
  | Outw port v =>
    if negb (port =? 0x3d4) then p
    else if v mod 256 =? 0x0e then (v / 256, p.2) else if v mod 256 =? 0x0f then (p.1, v / 256) else p
  | Outb _ _ => p
  end.
Definition crt_cursor (d : dev) : Z := let p := foldl crt_step (0, 0) (trace (io d)) in 256 * p.1 + p.2.

Definition is_outw (w : port_write) : Prop := match w with Outw _ _ => True | Outb _ _ => False end.

(** The two words written for each position. *)
Lemma cursor_writes cp : 0 ≤ cp < 2000 →
  let hi := u16 (Z.lor 0x0e (Z.land (u16 cp) 0xff00)) in
  let lo := u16 (Z.lor 0x0f (Z.shiftl (u16 cp) 8)) in
  hi mod 256 = 14 ∧ lo mod 256 = 15 ∧ 256 * (hi / 256) + lo / 256 = cp.
Proof.
  intros Hcp. cbv zeta. set (ok := λ cp, let hi := u16 (Z.lor 0x0e (Z.land (u16 cp) 0xff00)) in
    let lo := u16 (Z.lor 0x0f (Z.shiftl (u16 cp) 8)) in
    (hi mod 256 =? 14) && (lo mod 256 =? 15) && (256 * (hi / 256) + lo / 256 =? cp)).
  assert (H : forallb ok (seqZ 0 2000) = true) by (vm_compute; reflexivity).
  rewrite forallb_forall in H. specialize (H cp). unfold ok in H. rewrite !andb_true_iff, !Z.eqb_eq in H.
  destruct H as [[H1 H2] H3]; [|done]. apply list_elem_of_In, elem_of_seqZ. lia.
Qed.

Lemma move_cursor_ok v : 0 ≤ cx v < 80 → 0 ≤ cy v < 25 →
  ∃ w, move_cursor v = Ok (tt, with_dev (traced w (vdev v)) v) ∧ crt_cursor (traced w (vdev v)) = cx v + 80 * cy v ∧
       Forall is_outw w.
Proof.
  intros Hx Hy. unfold move_cursor, mbind, st_bind, st_get, on_vdev, on_ports, outw, st_modify. simpl.
  eexists [_; _]. split; [unfold with_dev, traced, set_io; simpl; by rewrite <- app_assoc|].
  split; [|by repeat constructor]. unfold crt_cursor, traced. cbn [set_io io trace]. rewrite foldl_app. cbn [foldl crt_step].
  destruct (cursor_writes (cx v + COL_CNT * cy v)) as (-> & -> & H); [unfold COL_CNT; lia|]. exact H.
Qed.

Lemma newline_ok v : length (fb v) = 4000%nat → 0 ≤ cy v < 25 →
  ∃ v', newline v = Ok (tt, v') ∧ vga_ok v' ∧ vdev v' = vdev v ∧ inited v' = inited v ∧ screen v' = t_newline (screen v).
Proof.
  intros Hl Hy. unfold newline. rewrite (st_bind_ok _ _ v tt (set_pos 0 (u64 (cy v + 1)) v)) by done.
  rewrite u64_small by lia. rewrite (st_bind_ok _ _ _ (cy v + 1) (set_pos 0 (cy v + 1) v)) by done.
  unfold t_newline. change (t_y (screen v)) with (Z.to_nat (cy v)). change (t_rows (screen v)) with (rows (fb v)). unfold ROW_CNT. destruct (Z.leb_spec 25 (cy v + 1)) as [H|H].
  - rewrite decide_False by lia. rewrite (st_bind_ok _ _ _ tt (set_pos 0 24 v)) by done.
    rewrite (st_bind_ok _ _ _ tt (set_fb (scrolled (fb v)) (set_pos 0 24 v))) by done.
    destruct (clear_row_ok 24 (set_fb (scrolled (fb v)) (set_pos 0 24 v))) as (l & H1 & H2 & H3); [lia|by apply scrolled_length|].
    eexists. split; [exact H1|]. split; [split; [done|simpl; lia]|]. split; [done|]. split; [done|].
    unfold screen. cbn [set_fb set_pos fb cx cy] in *. rewrite H3. f_equal. by apply rows_scrolled.
  - rewrite decide_True by lia. eexists. split; [reflexivity|]. split; [split; [done|simpl; lia]|]. split; [done|]. split; [done|].
    unfold screen. simpl. f_equal. lia.
Qed.

(** The cursor may have left the row. *)
Lemma wrap_ok v : length (fb v) = 4000%nat → 0 ≤ cx v → 0 ≤ cy v < 25 →
  ∃ v', (if COL_CNT <=? cx v then newline else mret tt) v = Ok (tt, v') ∧ vga_ok v' ∧ vdev v' = vdev v ∧ inited v' = inited v ∧
        screen v' = t_wrap (screen v).
Proof.
  intros Hl Hx Hy. unfold t_wrap. change (t_x (screen v)) with (Z.to_nat (cx v)). unfold COL_CNT. destruct (Z.leb_spec 80 (cx v)).
  - rewrite decide_False by lia. by apply newline_ok.
  - rewrite decide_True by lia. exists v. by split_and!.
Qed.

Lemma round_up_8 x : 0 ≤ x < 80 → ROUND_UP (u64 (x + 1)) 8 = (x / 8 + 1) * 8 ∧ Z.to_nat ((x / 8 + 1) * 8) = ((Z.to_nat x / 8 + 1) * 8)%nat.
Proof.
  intros H. unfold ROUND_UP. rewrite (u64_small (x + 1)) by lia. replace (x + 1 + 8 - 1) with (x + 1 * 8) by lia.
  rewrite (u64_small (x + 1 * 8)) by lia. rewrite Z.div_add by lia. assert (0 ≤ x / 8 ≤ 10).
  { split; [apply Z.div_pos; lia|]. apply Z.div_le_upper_bound; lia. }
  rewrite u64_small by lia. split; [done|]. rewrite Z2Nat.inj_mul, Z2Nat.inj_add, Z2Nat.inj_div by lia. done.
Qed.

Lemma put_char_ok c v : vga_ok v → 0 ≤ c < 256 →
  ∃ w v', put_char c v = Ok (tt, v') ∧ vga_ok v' ∧ vdev v' = traced w (vdev v) ∧ inited v' = inited v ∧
            screen v' = t_put (screen v) c ∧ Forall is_outw w.
Proof.
  intros Hv Hc. pose proof Hv as (Hl & Hx & Hy). unfold put_char, t_put.
  assert (Hw : ∀ v0 (m : st vga unit) t, vdev v0 = vdev v → inited v0 = inited v →
    (∃ v', m v = Ok (tt, v') ∧ vga_ok v' ∧ vdev v' = vdev v0 ∧ inited v' = inited v0 ∧ screen v' = t) →
    ∃ w v', m v = Ok (tt, v') ∧ vga_ok v' ∧ vdev v' = traced w (vdev v) ∧ inited v' = inited v ∧ screen v' = t ∧
            Forall is_outw w).
  { intros v0 m t Hd0 Hi0 (v' & H1 & H2 & H3 & H4 & H5). exists [], v'. rewrite traced_nil. split_and!; try done; congruence. }
  destruct (Z.eqb_spec c 10); [rewrite decide_True by done; apply (Hw v); [done..|]; by apply newline_ok|rewrite decide_False by done].
  destruct (Z.eqb_spec c 12); [rewrite decide_True by done|rewrite decide_False by done].
  { unfold cls. destruct (clear_rows_ok 25 0 v) as (l & H1 & H2 & H3); [lia..|done|]. rewrite (st_bind_ok _ _ _ _ _ H1).
    rewrite (st_bind_ok _ _ _ tt (set_pos 0 0 (set_fb l v))) by done.
    destruct (move_cursor_ok (set_pos 0 0 (set_fb l v))) as (w & H4 & _ & Hw4); [simpl; lia..|]. eexists w, _. split; [exact H4|].
    split; [split; [done|simpl; lia]|]. split; [done|]. split; [done|]. split; [|done]. unfold screen. simpl. by rewrite H3. }
  destruct (Z.eqb_spec c 8); [rewrite decide_True by done|rewrite decide_False by done].
  { apply (Hw v); [done..|]. eexists. split; [reflexivity|]. destruct (Z.ltb_spec 0 (cx v)).
    - split; [split; [done|simpl; lia]|]. split; [done|]. split; [done|]. unfold screen. simpl. f_equal. lia.
    - split; [done|]. split; [done|]. split; [done|]. unfold screen. cbn [t_rows t_x t_y]. f_equal. lia. }
  destruct (Z.eqb_spec c 13); [rewrite decide_True by done|rewrite decide_False by done].
  { apply (Hw v); [done..|]. eexists. split; [reflexivity|]. split; [split; [done|simpl; lia]|]. done. }
  destruct (Z.eqb_spec c 9); [rewrite decide_True by done|rewrite decide_False by done].
  { destruct (round_up_8 (cx v) Hx) as [Hr1 Hr2]. set (v0 := set_pos ((cx v / 8 + 1) * 8) (cy v) v). apply (Hw v0); [done..|].
    rewrite (st_bind_ok _ _ v tt v0) by (unfold st_modify; by rewrite Hr1). rewrite (st_bind_ok _ _ v0 (cx v0) v0) by done.
    destruct (wrap_ok v0) as (v' & H1 & H2 & H3 & H4 & H5); [done| |done|].
    { simpl. pose proof (Z.div_pos (cx v) 8). lia. }
    exists v'. split_and!; try done. rewrite H5. f_equal. unfold screen, v0. simpl. by rewrite Hr2. }
  set (l := put2 (Z.to_nat (cy v)) (Z.to_nat (cx v)) (u8 c) (u8 GRAY_ON_BLACK) (fb v)).
  set (v0 := set_pos (cx v + 1) (cy v) (set_fb l v)). apply (Hw v0); [done..|].
  rewrite (st_bind_ok _ _ v v v) by done. rewrite store2 by lia. fold l.
  rewrite (st_bind_ok _ _ _ tt v0) by (unfold st_modify; cbn [set_fb cx cy]; by rewrite u64_small by lia).
  rewrite (st_bind_ok _ _ v0 (cx v0) v0) by done.
  destruct (wrap_ok v0) as (v' & H1 & H2 & H3 & H4 & H5); [simpl; unfold l, put2; by rewrite !length_insert|simpl; lia|done|].
  exists v'. split_and!; try done. rewrite H5. f_equal. unfold screen, v0. cbn [set_pos set_fb fb cx cy t_rows t_x t_y]. f_equal; [|lia].
  unfold l. rewrite rows_put2 by (done || lia). symmetry.
  rewrite (alter_lookup _ (rows (fb v)) _ (row (fb v) (Z.to_nat (cy v)))) by (apply rows_lookup; lia).
  rewrite (u8_small c) by lia. done.
Qed.

Lemma traced_off w d : irq_off (traced w d) = irq_off d ∧ context (traced w d) = context d.
Proof. done. Qed.

(** [init] on a display whose cursor is on the screen. *)
Lemma vga_init_ok v hi lo rest : inited v = false → inputs (io (vdev v)) = hi :: lo :: rest →
  0 ≤ hi → 0 ≤ lo < 256 → 256 * hi + lo < 2000 →
  ∃ d, init v = Ok (tt, MkVga ((256 * hi + lo) mod 80) ((256 * hi + lo) / 80) (fb v) true d) ∧
       irq_off d = irq_off (vdev v) ∧ context d = context (vdev v).
Proof.
  intros Hi Hin Hh Hl Hc. unfold init. rewrite (st_bind_ok _ _ v false v) by (unfold st_gets; by rewrite Hi). cbn [negb].
  set (d1 := set_io (MkPorts rest (trace (io (vdev v)) ++ [Outb 0x3d4 0x0e; Outb 0x3d4 0x0f])) (vdev v)).
  rewrite (st_bind_ok _ _ v ((256 * hi + lo) mod 80, (256 * hi + lo) / 80) (with_dev d1 v)); [by eexists|].
  unfold find_cursor, mbind, st_bind, on_vdev, on_ports, outb, inb, st_modify. cbn [set_io io vdev inputs trace]. rewrite Hin.
  cbn [set_io io vdev inputs trace]. rewrite !(u8_small hi), !(u8_small lo) by lia.
  assert (Z.lor (u16 (Z.shiftl hi 8)) lo = 256 * hi + lo) as ->.
  { rewrite Z.shiftl_mul_pow2 by lia. change (2 ^ 8) with 256. rewrite (Z.mul_comm hi). unfold u16. rewrite Z.mod_small by lia.
    rewrite <- Z.lxor_lor, <- Z.add_nocarry_lxor; [done| |].
    all: change 256 with (2 ^ 8); rewrite Z.mul_comm, <- Z.shiftl_mul_pow2 by lia; apply Z.bits_inj'; intros n Hn;
      rewrite Z.land_spec, Z.bits_0, Z.shiftl_spec by lia; destruct (decide (n < 8));
      [by rewrite (Z.testbit_neg_r hi) by lia|]; rewrite andb_comm; (rewrite (Z.bits_above_log2 lo); [done|lia|]);
      (destruct (decide (lo = 0)) as [->|]; [simpl; lia|]); apply Z.log2_lt_pow2; [lia|];
      assert (2 ^ 8 ≤ 2 ^ n) by (apply Z.pow_le_mono_r; lia); lia. }
  unfold with_dev, d1, set_io. simpl. by rewrite <- app_assoc.
Qed.

(** Interrupts as the caller of [vga_putc] has them. *)
Definition irq_ok (v : vga) : Prop := irq_off (vdev v) = false → context (vdev v) = false.

(** From the state after [init] on. *)
Lemma putc_rest_ok c v old : vga_ok v → inited v = true → 0 ≤ c < 256 → (old = false → context (vdev v) = false) →
  ∃ v', (put_char c;; move_cursor;; on_vdev (dev_intr_set_level old)) v = Ok (tt, v') ∧ vga_ok v' ∧ inited v' = true ∧
        screen v' = t_put (screen v) c ∧ crt_cursor (vdev v') = cx v' + 80 * cy v' ∧
        ∃ w, vdev v' = set_off old (traced w (vdev v)) ∧ Forall is_outw w.
Proof.
  intros Hv Hi Hc Ho. destruct (put_char_ok c v Hv Hc) as (w & v1 & H1 & Hv1 & Hd1 & Hi1 & Hs1 & Hw1).
  rewrite (st_bind_ok _ _ _ _ _ H1). pose proof Hv1 as (Hl1 & Hx1 & Hy1).
  destruct (move_cursor_ok v1 Hx1 Hy1) as (w2 & H2 & Hcur & Hw2). rewrite (st_bind_ok _ _ _ _ _ H2).
  set (v2 := with_dev (traced w2 (vdev v1)) v1) in *. exists (with_dev (set_off old (vdev v2)) v2). split.
  - unfold on_vdev. assert (Hc2 : old = false → context (vdev v2) = false) by (intros ->; unfold v2; simpl; rewrite Hd1; by apply Ho).
    destruct old; [done|]. unfold dev_intr_set_level, mbind, st_bind, st_gets. by rewrite (Hc2 eq_refl).
  - split; [done|]. split; [by simpl; rewrite Hi1|]. split; [done|]. split; [done|].
    exists (w ++ w2). split; [|by apply Forall_app]. simpl. by rewrite Hd1, traced_app.
Qed.

Fixpoint vga_puts (text : list Z) : st vga unit :=
  match text with [] => mret tt | c :: text => vga_putc c;; vga_puts text end.

Lemma vga_putc_ok c v : vga_ok v → inited v = true → 0 ≤ c < 256 → irq_ok v →
  ∃ v', vga_putc c v = Ok (tt, v') ∧ vga_ok v' ∧ inited v' = true ∧ screen v' = t_put (screen v) c ∧
        crt_cursor (vdev v') = cx v' + 80 * cy v' ∧ ∃ w, vdev v' = traced w (vdev v) ∧ Forall is_outw w.
Proof.
  intros Hv Hi Hc Hirq. unfold vga_putc. set (v1 := with_dev (set_off true (vdev v)) v).
  rewrite (st_bind_ok _ _ v (irq_off (vdev v)) v1) by done.
  rewrite (st_bind_ok _ _ v1 tt v1) by (unfold init, mbind, st_bind, st_gets; simpl; by rewrite Hi).
  destruct (putc_rest_ok c v1 (irq_off (vdev v))) as (v' & H1 & H2 & H3 & H4 & H5 & w & Hw & Hf); [done..|].
  exists v'. split_and!; try done. exists w. split; [|done]. rewrite Hw. by destruct (vdev v).
Qed.

Lemma vga_puts_ok text : ∀ v, vga_ok v → inited v = true → Forall (λ c, 0 ≤ c < 256) text → irq_ok v →
  crt_cursor (vdev v) = cx v + 80 * cy v →
  ∃ v', vga_puts text v = Ok (tt, v') ∧ vga_ok v' ∧ screen v' = foldl t_put (screen v) text ∧
        crt_cursor (vdev v') = cx v' + 80 * cy v'.
Proof.
  induction text as [|c text IH]; intros v Hv Hi Ht Hirq Hcur; cbn [vga_puts foldl]; [by exists v|].
  apply Forall_cons in Ht as [Hc Ht]. destruct (vga_putc_ok c v Hv Hi Hc Hirq) as (v1 & H1 & Hv1 & Hi1 & Hs1 & Hc1 & w & Hw & _).
  rewrite (st_bind_ok _ _ _ _ _ H1), <- Hs1. apply IH; try done. unfold irq_ok. by rewrite Hw.
Qed.

(** ** Theorem *)

(** C28: the first character written finds the cursor where the display
    controller has it, and from then on the framebuffer shows what a terminal
    of 25 lines of 80 cells shows: characters go to the cursor and wrap at the
    end of a line, a new line at the bottom scrolls the screen by one line and
    blanks the last, and backspace, carriage return, tab and form feed do what
    they say.  No byte outside of the framebuffer is written, whatever is
    printed, and the hardware cursor follows. *)
Theorem vga_terminal v hi lo rest c text :
  inited v = false → length (fb v) = 4000%nat → inputs (io (vdev v)) = hi :: lo :: rest →
  0 ≤ hi → 0 ≤ lo < 256 → 256 * hi + lo < 2000 → irq_ok v → Forall (λ c, 0 ≤ c < 256) (c :: text) →
  ∃ v', vga_puts (c :: text) v = Ok (tt, v') ∧ vga_ok v' ∧
    screen v' = foldl t_put (Term (rows (fb v)) (Z.to_nat ((256 * hi + lo) mod 80)) (Z.to_nat ((256 * hi + lo) / 80))) (c :: text) ∧
    crt_cursor (vdev v') = cx v' + 80 * cy v'.
Proof.
  intros Hi Hl Hin Hh Hlo Hcp Hirq [Hc Ht]%Forall_cons. cbn [vga_puts foldl]. unfold vga_putc.
  set (v1 := with_dev (set_off true (vdev v)) v). rewrite st_bind_assoc, (st_bind_ok _ _ v (irq_off (vdev v)) v1) by done.
  destruct (vga_init_ok v1 hi lo rest) as (d & H1 & Ho1 & Hc1); [done..|]. rewrite st_bind_assoc, (st_bind_ok _ _ _ _ _ H1).
  set (v2 := MkVga _ _ _ _ _). pose proof (Z.mod_pos_bound (256 * hi + lo) 80 ltac:(lia)).
  assert (0 ≤ (256 * hi + lo) / 80 < 25) by (split; [apply Z.div_pos; lia|apply Z.div_lt_upper_bound; lia]).
  destruct (putc_rest_ok c v2 (irq_off (vdev v))) as (v3 & H3 & Hv3 & Hi3 & Hs3 & Hc3 & w & Hw & _);
    [split; [done|]; by split|done|done|by simpl; rewrite Hc1|].
  rewrite (st_bind_ok _ _ _ _ _ H3). change (Term _ _ _) with (screen v2). rewrite <- Hs3. apply vga_puts_ok; try done.
  unfold irq_ok. rewrite Hw. simpl. by rewrite Hc1.
Qed.

Definition demo_screen : vga :=
  MkVga 0 0 (replicate 4000 0) false
    (Dev false false NULL (Intq.Intq 0 0 0 (replicate 64 0) 0 0) (Intq.Intq 0 0 0 (replicate 64 0) 0 0) UNINIT bss_table (MkPorts [7; 128] []) []).

Lemma vga_terminal_witness :
  ∃ v', vga_puts [72; 105; 10; 9; 33] demo_screen = Ok (tt, v') ∧ vga_ok v' ∧
    screen v' = foldl t_put (Term (rows (fb demo_screen)) (Z.to_nat ((256 * 7 + 128) mod 80)) (Z.to_nat ((256 * 7 + 128) / 80)))
                  [72; 105; 10; 9; 33] ∧
    crt_cursor (vdev v') = cx v' + 80 * cy v'.
Proof. apply (vga_terminal demo_screen 7 128 []); try done; try lia. repeat constructor; lia. Defined.

End VgaTheorems.
