(* ===== verification/Console.v ===== *)
(** lib/kernel/console.c: output to the serial port and the display, behind a
    lock that a thread may take more than once.

    [holder] is the thread that holds the console lock.  A thread that would
    have to wait for the lock is not followed further ([Waits]).  A thread that
    prints with interrupts on can be interrupted between two characters, and it
    sleeps in [serial_putc] when the transmit queue is full: what happens on
    the processor then - interrupt handlers and other threads - is [Others]. *)
From S2P Require Import Prelude KState Interrupt Stdio Intq IntrTable Serial Vga.
Import Ports IntrTable Intq Serial Vga.
Local Open Scope Z_scope.

Module Console.

Record console := MkConsole {
  display : vga; holder : Z; use_console_lock : bool; console_lock_depth : Z; write_cnt : Z }.

Definition dev_of (c : console) : dev := vdev (display c).

Definition set_lock (h depth : Z) (c : console) : console :=
  MkConsole (display c) h (use_console_lock c) depth (write_cnt c).

Definition on_display {A} (op : st vga A) : st console A := λ c,
  match op (display c) with
  | Ok (a, v) => Ok (a, MkConsole v (holder c) (use_console_lock c) (console_lock_depth c) (write_cnt c))
  | Err e => Err e
  end.

(** The thread waits. *)
Definition Waits {A} : st console A := st_err NoFuel.

Definition console_init : st console unit := st_modify (λ c, MkConsole (display c) NULL true (console_lock_depth c) (write_cnt c)).
Definition console_panic : st console unit :=
  st_modify (λ c, MkConsole (display c) (holder c) false (console_lock_depth c) (write_cnt c)).

Definition lock_held_by_current (c : console) : bool := holder c =? cur (dev_of c).

Definition acquire_console : st console unit :=
  c ← st_get;
  if negb (context (dev_of c)) && use_console_lock c then
    if lock_held_by_current c then st_modify (set_lock (holder c) (i32 (console_lock_depth c + 1)))
    else if holder c =? NULL then st_modify (set_lock (cur (dev_of c)) (console_lock_depth c))
    else Waits
  else mret tt.

Definition release_console : st console unit :=
  c ← st_get;
  if negb (context (dev_of c)) && use_console_lock c then
    if 0 <? console_lock_depth c then st_modify (set_lock (holder c) (console_lock_depth c - 1))
    else ASSERT (lock_held_by_current c);; st_modify (set_lock NULL (console_lock_depth c))
  else mret tt.

Definition console_locked_by_current_thread (c : console) : bool :=
  context (dev_of c) || negb (use_console_lock c) || lock_held_by_current c.

(** [between]: before a character is sent with interrupts on; [asleep]: from the
    moment the thread is blocked until it runs again, which happens at most
    [wakeups] times for one character. *)
Class Others := { between : st dev unit; asleep : st dev unit; wakeups : nat }.

Section others.
Context {oth : Others}.

Definition preempted : st dev unit := off ← st_gets irq_off; if (off : bool) then mret tt else between.

(** The rest of [serial_putc] of a thread that sleeps at a place inside
    [intq_putc]; it had interrupts on. *)
Fixpoint serial_wait (k : nat) (byte : Z) (p : place) : st dev unit :=
  match k with
  | O => st_err NoFuel
  | S k =>
    asleep;;
    o ← serial_putc_from false byte p;
    match o with Some p => serial_wait k byte p | None => mret tt end
  end.

Definition putchar_have_lock (c : Z) : st console unit :=
  let c := u8 c in
  l ← st_gets console_locked_by_current_thread;
  ASSERT l;;
  st_modify (λ s, MkConsole (display s) (holder s) (use_console_lock s) (console_lock_depth s) (i64 (write_cnt s + 1)));;
  on_display (on_vdev preempted);;
  p ← on_display (on_vdev (serial_putc c));
  match p with Some p => on_display (on_vdev (serial_wait wakeups c p)) | None => mret tt end;;
  on_display (vga_putc c).

(** The characters one after the other. *)
Fixpoint put_all (l : list Z) : st console unit :=
  match l with [] => mret tt | c :: l => putchar_have_lock c;; put_all l end.

(** [__vprintf] hands its output to [vprintf_helper], which counts it. *)
Definition vprintf (format : list Z) (args : list Stdio.arg) : st console Z :=
  acquire_console;;
  out ← st_of_res (Stdio.__printf format args);
  put_all out;;
  release_console;;
  mret (i32 (Z.of_nat (length out))).

(** [s] is a string up to its terminator. *)
Definition puts (s : list Z) : st console Z :=
  acquire_console;;
  put_all s;;
  putchar_have_lock 10;;
  release_console;;
  mret 0.

Definition putbuf (buffer : list Z) : st console unit :=
  acquire_console;;
  put_all buffer;;
  release_console.

Definition putchar (c : Z) : st console Z :=
  acquire_console;;
  putchar_have_lock c;;
  release_console;;
  mret c.

End others.
End Console.
