(* ===== verification/ConsoleTheorems.v ===== *)
(** lib/kernel/console.c: what is printed goes to the serial port and to the
    display, complete and in order, and the lock is left as it was. *)
From S2P Require Import Prelude KState Interrupt Stdio Intq IntrTable Serial SerialTheorems Vga Console.
Import Ports IntrTable Intq Serial SerialTheorems Vga VgaTheorems Console.
Local Open Scope Z_scope.

Module ConsoleTheorems.

(** ** Writes to the display do not concern the serial port *)

Lemma uart_traced w d : Forall is_outw w → uart (traced w d) = uart d.
Proof.
  intros Hw. unfold uart, traced. cbn [set_io io trace]. rewrite foldl_app. generalize (foldl uart_step (Uart false [] 0) (trace (io d))).
  induction Hw as [|x w Hx _ IH]; intros u; [done|]. destruct x; [done|]. apply IH.
Qed.

Lemma dev_ok_traced w d : Forall is_outw w → dev_ok d → dev_ok (traced w d).
Proof. intros Hw []. split; try done. by rewrite uart_traced. Qed.

Lemma i64_add a b : i64 (i64 a + b) = i64 (a + b).
Proof.
  unfold i64. f_equal. replace ((a + 2 ^ 63) `mod` 2 ^ 64 - 2 ^ 63 + b + 2 ^ 63) with ((a + 2 ^ 63) `mod` 2 ^ 64 + b) by lia.
  rewrite Zplus_mod_idemp_l. f_equal. lia.
Qed.

(** ** The console *)

Section others.
Context {oth : Others}.

(** The driver as a thread finds it that is not in a handler. *)
Definition in_thread (d : dev) : Prop := dev_ok d ∧ (mode d = QUEUE → ier_ok d) ∧ context d = false.

(** What others leave as it is: they print nothing, do not hold the lock of the
    transmit queue, and do not use up the answers of a port that is polled. *)
Definition others_did (d d' : dev) : Prop :=
  in_thread d' ∧ mode d' = mode d ∧ flow d' = flow d ∧ irq_off d' = irq_off d ∧ cur d' = cur d ∧
  lock (txq d') = lock (txq d) ∧ (mode d ≠ QUEUE → (ready d ≤ ready d')%nat).

(** When the thread runs again there is room in the queue: this is what wakes
    it. *)
Definition others_ok : Prop :=
  wakeups ≠ O ∧
  (∀ d, in_thread d → irq_off d = false → ∃ d', between d = Ok (tt, d') ∧ others_did d d') ∧
  (∀ d, in_thread d → mode d = QUEUE → irq_off d = true →
     ∃ d', asleep d = Ok (tt, d') ∧ others_did d d' ∧ length (contents (txq d')) ≠ 63%nat).

(** No call sleeps: interrupts are off or the driver polls. *)
Definition polls (d : dev) : Prop := irq_off d = true ∨ mode d ≠ QUEUE.

(** The state of the devices below. *)
Record console_ok (c : console) : Prop := {
  ck_dev : dev_ok (dev_of c);
  ck_ier : mode (dev_of c) = QUEUE → ier_ok (dev_of c);
  ck_vga : vga_ok (display c);
  ck_inited : inited (display c) = true;
  ck_irq : irq_ok (display c);
  ck_others : irq_off (dev_of c) = true ∨ others_ok ∧ (mode (dev_of c) = QUEUE → lock (txq (dev_of c)) = NULL);
  ck_cnt : i64 (write_cnt c) = write_cnt c }.

(** Nothing but output happened: [l] was written. *)
Record wrote (l : list Z) (c c' : console) : Prop := {
  wr_ok : console_ok c';
  wr_flow : flow (dev_of c') = flow (dev_of c) ++ l;
  wr_screen : screen (display c') = foldl t_put (screen (display c)) l;
  wr_lock : holder c' = holder c ∧ console_lock_depth c' = console_lock_depth c ∧ use_console_lock c' = use_console_lock c;
  wr_cur : cur (dev_of c') = cur (dev_of c) ∧ context (dev_of c') = context (dev_of c);
  wr_cnt : write_cnt c' = i64 (write_cnt c + Z.of_nat (length l));
  wr_polls : polls (dev_of c') ↔ polls (dev_of c);
  wr_ready : polls (dev_of c) → (ready (dev_of c) ≤ ready (dev_of c') + length l)%nat }.

(** What sending a byte does to the driver. *)
Record sent (b : Z) (d d' : dev) : Prop := {
  se_fin : dev_ok d' ∧ (mode d' = QUEUE ↔ mode d = QUEUE) ∧ flow d' = flow d ++ [b] ∧ (mode d = QUEUE → ier_ok d');
  se_off : irq_off d' = irq_off d;
  se_context : context d' = context d;
  se_cur : cur d' = cur d;
  se_lock : polls d ∨ lock (txq d') = NULL;
  se_ready : polls d → (ready d ≤ ready d' + 1)%nat }.

Definition send (b : Z) : st dev unit :=
  preempted;; p ← serial_putc b; match p with Some p => serial_wait wakeups b p | None => mret tt end.

(** Sending with interrupts on: others run, and the thread sleeps at most once. *)
Lemma send_on b d : others_ok → in_thread d → mode d = QUEUE → irq_off d = false → lock (txq d) = NULL → u8 b = b →
  ∃ d', send b d = Ok (tt, d') ∧ sent b d d'.
Proof.
  intros (Hw & Hb & Ha) Hq Hm Ho Hl Hu. destruct (Hb d Hq Ho) as (d1 & H1 & (Hok1 & Hi1 & Hc1) & Hm1 & F1 & O1 & C1 & L1 & _).
  destruct Hq as (Hok & Hi & Hc). unfold send.
  rewrite (st_bind_ok _ _ d tt d1) by (unfold preempted, mbind, st_bind, st_gets; by rewrite Ho).
  destruct (serial_putc_on b d1 Hok1 ltac:(congruence) (Hi1 ltac:(congruence)) ltac:(congruence) Hc1 ltac:(congruence))
    as (o & d2 & H2 & [Fok Fm _ _ Ff Fi] & C2 & K2 & Hend).
  rewrite (st_bind_ok _ _ _ _ _ H2). rewrite Hu in Ff. rewrite Hm1 in Fm, Fi. assert (Hnp : ¬ polls d) by (intros [?|?]; congruence).
  destruct o as [p|].
  - destruct Hend as [-> Ho2]. assert (Hm2 : mode d2 = QUEUE) by tauto.
    destruct (Ha d2 ltac:(split_and!; [done|by auto|congruence]) Hm2 Ho2) as (d3 & H3 & ((Hok3 & Hi3 & Hc3) & Hm3 & F3 & O3 & C3 & L3 & _) & Hroom).
    destruct wakeups as [|k]; [done|]. cbn [serial_wait]. rewrite (st_bind_ok _ _ _ _ _ H3).
    destruct (serial_resume_ok b d3 ltac:(congruence) Hok3 ltac:(congruence) Hu (Hi3 ltac:(congruence)) Hc3 Hroom) as (d4 & H4 & [Gok Gm _ _ Gf Gi] & C4 & K4 & O4 & L4).
    rewrite (st_bind_ok _ _ _ _ _ H4). exists d4. split; [done|]. split; [|congruence..|by right|by intros ?].
    split_and!; [done|by rewrite Gm, Hm3, Hm2, Hm|by rewrite Gf, F3, Ff, app_nil_r, F1|intros _; apply Gi; congruence].
  - destruct Hend as [Ho2 L2]. exists d2. split; [done|]. split; [|congruence..|by right|by intros ?].
    split_and!; [done|by rewrite Fm, Hm|by rewrite Ff, F1|by auto].
Qed.

(** Sending when the driver does not make the caller sleep. *)
Lemma send_polls b d : dev_ok d → (mode d = QUEUE → ier_ok d) → (irq_off d = false → context d = false) →
  irq_off d = true ∨ others_ok ∧ mode d ≠ QUEUE → (1 ≤ ready d)%nat → u8 b = b →
  ∃ d', send b d = Ok (tt, d') ∧ sent b d d'.
Proof.
  intros Hok Hi Hc Hp Hr Hu. assert (Hpo : polls d) by (destruct Hp as [|[]]; [by left|by right]).
  assert (∃ d1, preempted d = Ok (tt, d1) ∧ dev_ok d1 ∧ (mode d1 = QUEUE → ier_ok d1) ∧ context d1 = context d ∧ mode d1 = mode d ∧ flow d1 = flow d
    ∧ irq_off d1 = irq_off d ∧ cur d1 = cur d ∧ (ready d ≤ ready d1)%nat) as (d1 & H1 & Hok1 & Hi1 & C1 & M1 & F1 & O1 & K1 & R1).
  { unfold preempted, mbind, st_bind, st_gets. destruct (irq_off d) eqn:Eo; [by exists d|]. destruct Hp as [|[(_ & Hb & _) Hm]]; [done|].
    destruct (Hb d ltac:(split_and!; auto) Eo) as (d1 & H1 & (A & B & C) & D & E & F & G & _ & R). exists d1. split_and!; try done; try congruence; [|auto].
    symmetry. rewrite C. auto. }
  unfold send. rewrite (st_bind_ok _ _ _ _ _ H1).
  destruct (serial_putc_ok b d1 Hok1 ltac:(by rewrite O1, C1) ltac:(lia) Hi1) as (o & d2 & H2 & [Fok Fm _ Fr Ff Fi] & Hn & Hk).
  specialize (Hn ltac:(unfold polls in Hpo; by rewrite O1, M1)). subst o. destruct (Hk eq_refl) as (O2 & C2 & K2).
  rewrite (st_bind_ok _ _ _ _ _ H2). exists d2. split; [done|]. split; [|congruence..|by left|intros _; lia].
  split_and!; [done|by rewrite Fm, M1|by rewrite Ff, F1, Hu|intros ?; apply Fi; congruence].
Qed.

Lemma on_vdev_bind {A B} (op : st dev A) (f : A → st dev B) v :
  on_vdev (op ≫= f) v = (on_vdev op ≫= λ a, on_vdev (f a)) v.
Proof. unfold on_vdev, mbind, st_bind. by destruct (op (vdev v)) as [[a d]|]. Qed.

(** The parts of [putchar_have_lock] that concern the serial port, together. *)
Lemma putchar_eq b c : console_locked_by_current_thread c = true →
  putchar_have_lock b c =
  (on_display (on_vdev (send (u8 b)));; on_display (vga_putc (u8 b)))
    (MkConsole (display c) (holder c) (use_console_lock c) (console_lock_depth c) (i64 (write_cnt c + 1))).
Proof.
  intros Hl. unfold putchar_have_lock. rewrite (st_bind_ok _ _ c true c) by (unfold st_gets; by rewrite Hl).
  rewrite (st_bind_ok _ _ c tt c) by done. set (c1 := MkConsole _ _ _ _ _).
  rewrite (st_bind_ok _ _ c tt c1) by done. unfold send, on_display, on_vdev, mbind, st_bind.
  destruct (preempted (vdev (display c1))) as [[[] d1]|]; [|done]. simpl.
  destruct (serial_putc (u8 b) d1) as [[[p|] d2]|]; [|done..]. simpl. by destruct (serial_wait _ _ _ d2) as [[[] d3]|].
Qed.

Lemma putchar_ok b c : console_ok c → console_locked_by_current_thread c = true → (polls (dev_of c) → (1 ≤ ready (dev_of c))%nat) →
  ∃ c', putchar_have_lock b c = Ok (tt, c') ∧ wrote [u8 b] c c'.
Proof.
  intros [Hd Hi Hv Hin Hirq Hoth _] Hl Hr. rewrite putchar_eq by done.
  assert (Hu : u8 (u8 b) = u8 b) by (apply u8_small, u8_range).
  assert (∃ d1, send (u8 b) (dev_of c) = Ok (tt, d1) ∧ sent (u8 b) (dev_of c) d1) as (d1 & H1 & [(Fok & Fm & Ff & Fi) Ho1 Hc1 Hcur1 Hlk Fr]).
  { destruct (decide (irq_off (dev_of c) = true)) as [E|E]; [apply send_polls; auto; apply Hr; by left|].
    destruct Hoth as [|[Ho Hlk]]; [done|]. apply not_true_is_false in E. destruct (decide (mode (dev_of c) = QUEUE)) as [Hm|Hm].
    - apply send_on; auto. split_and!; auto.
    - apply send_polls; auto. apply Hr. by right. }
  set (c1 := MkConsole _ _ _ _ _). set (v1 := with_dev d1 (display c)).
  rewrite (st_bind_ok _ _ c1 tt (MkConsole v1 (holder c) (use_console_lock c) (console_lock_depth c) (write_cnt c1))).
  2: { unfold on_display, on_vdev. cbn [c1 display]. change (vdev (display c)) with (dev_of c). by rewrite H1. }
  destruct (vga_putc_ok (u8 b) v1) as (v2 & H2 & Hv2 & Hi2 & Hs2 & _ & w & Hw & Hf);
    [done|done|apply u8_range|unfold irq_ok; cbn [v1 with_dev vdev]; by rewrite Ho1, Hc1|].
  eexists. split; [unfold on_display; cbn [display]; by rewrite H2|]. cbn [v1 with_dev vdev] in Hw.
  assert (Hflow : flow (traced w d1) = flow d1) by (unfold flow; by rewrite uart_traced).
  assert (Hpo : polls (traced w d1) ↔ polls (dev_of c)) by (unfold polls; cbn [traced set_io irq_off mode]; rewrite Ho1; tauto).
  split; unfold dev_of; cbn [display holder use_console_lock console_lock_depth write_cnt]; rewrite ?Hw.
  - split; unfold dev_of; cbn [display]; rewrite ?Hw.
    + by apply dev_ok_traced.
    + intros Hm. cbn [traced set_io mode] in Hm. unfold ier_ok. rewrite uart_traced by done. apply Fi. by apply Fm.
    + done.
    + done.
    + unfold irq_ok. rewrite Hw. cbn [traced set_io irq_off context]. by rewrite Ho1, Hc1.
    + cbn [traced set_io irq_off mode txq]. rewrite Ho1. destruct Hoth as [|[Ho Hlk0]]; [by left|].
      destruct (irq_off (dev_of c)) eqn:E; [by left|right]. split; [done|]. intros Hm. destruct Hlk as [[?|Hp]|?]; [congruence| |done].
      destruct Hp. by apply Fm.
    + apply i64_small, i64_range.
  - by rewrite Hflow, Ff.
  - by rewrite Hs2.
  - done.
  - cbn [traced set_io cur context]. done.
  - done.
  - exact Hpo.
  - exact Fr.
Qed.

Lemma wrote_trans l1 l2 c1 c2 c3 : wrote l1 c1 c2 → wrote l2 c2 c3 → wrote (l1 ++ l2) c1 c3.
Proof.
  intros [? F1 S1 L1 K1 N1 P1 R1] [? F2 S2 L2 K2 N2 P2 R2].
  split; [done| | | | | |tauto|rewrite length_app; intros Hp; specialize (R1 Hp); specialize (R2 (proj2 P1 Hp)); lia].
  - by rewrite F2, F1, app_assoc.
  - by rewrite S2, S1, foldl_app.
  - naive_solver congruence.
  - naive_solver congruence.
  - rewrite N2, N1, i64_add, length_app. f_equal. lia.
Qed.

Lemma locked_wrote l c c' : wrote l c c' → console_locked_by_current_thread c' = console_locked_by_current_thread c.
Proof.
  intros [_ _ _ (H1 & _ & H3) (H4 & H5) _ _ _]. unfold console_locked_by_current_thread, lock_held_by_current. by rewrite H1, H3, H4, H5.
Qed.

Lemma wrote_nil c : console_ok c → wrote [] c c.
Proof.
  intros Hc. split; try done; [by rewrite app_nil_r| |intros _; simpl; lia]. simpl. rewrite Z.add_0_r. symmetry. apply Hc.
Qed.

Lemma put_all_ok l : ∀ c, console_ok c → console_locked_by_current_thread c = true → (polls (dev_of c) → (length l ≤ ready (dev_of c))%nat) →
  ∃ c', put_all l c = Ok (tt, c') ∧ wrote (u8 <$> l) c c'.
Proof.
  induction l as [|b l IH]; intros c Hc Hl Hr; cbn [put_all]; [exists c; split; [done|by apply wrote_nil]|].
  simpl in Hr. destruct (putchar_ok b c Hc Hl ltac:(intros Hp; specialize (Hr Hp); lia)) as (c1 & H1 & W1). rewrite (st_bind_ok _ _ _ _ _ H1).
  destruct (IH c1) as (c2 & H2 & W2); [apply W1|by rewrite (locked_wrote _ _ _ W1)| |].
  { intros Hp%(wr_polls _ _ _ W1). specialize (Hr Hp). pose proof (wr_ready _ _ _ W1 Hp) as Hr1. simpl in Hr1. lia. }
  exists c2. split; [done|]. rewrite fmap_cons. by apply (wrote_trans [u8 b] (u8 <$> l) c c1).
Qed.

(** ** The lock *)

(** The lock is not used, or it is free, or the running thread has it already
    and can take it once more. *)
Definition lock_ok (c : console) : Prop :=
  cur (dev_of c) ≠ NULL ∧
  (context (dev_of c) = true ∨ use_console_lock c = false ∨ holder c = NULL ∧ console_lock_depth c = 0 ∨
   holder c = cur (dev_of c) ∧ 0 ≤ console_lock_depth c < 2 ^ 31 - 1).

Lemma set_lock_ok h n c : console_ok c → console_ok (set_lock h n c).
Proof. intros []. by split. Qed.

(** A part [m] that writes [l] while the console is locked, between
    [acquire_console] and [release_console]. *)
Lemma bracket_ok {B} (m : st console unit) (f : unit → st console B) l c :
  console_ok c → lock_ok c →
  (∀ c1, console_ok c1 → console_locked_by_current_thread c1 = true → dev_of c1 = dev_of c →
         ∃ c2, m c1 = Ok (tt, c2) ∧ wrote l c1 c2) →
  ∃ c', (acquire_console;; m;; release_console ≫= f) c = f tt c' ∧ wrote l c c'.
Proof.
  intros Hc [Hcur Hl] Hm. unfold acquire_console. rewrite st_bind_assoc, (st_bind_ok _ _ c c c) by done.
  destruct (negb (context (dev_of c)) && use_console_lock c) eqn:Eb.
  2: { rewrite (st_bind_ok _ _ c tt c) by done. destruct (Hm c Hc) as (c2 & H2 & W2); [|done|].
       { unfold console_locked_by_current_thread. destruct (context (dev_of c)), (use_console_lock c); done. }
       rewrite (st_bind_ok _ _ _ _ _ H2). exists c2. split; [|done]. destruct W2 as [_ _ _ (_ & _ & L3) (_ & K2) _ _ _].
       unfold release_console. rewrite st_bind_assoc, (st_bind_ok _ _ c2 c2 c2), K2, L3, Eb by done. done. }
  apply andb_true_iff in Eb as [Eb1 Eb2]. rewrite negb_true_iff in Eb1. rewrite Eb1, Eb2 in Hl.
  destruct Hl as [|[|Hl]]; [done..|]. unfold lock_held_by_current.
  assert (∃ h1 n1, (if holder c =? cur (dev_of c) then st_modify (set_lock (holder c) (i32 (console_lock_depth c + 1)))
     else if holder c =? NULL then st_modify (set_lock (cur (dev_of c)) (console_lock_depth c)) else Waits) c = Ok (tt, set_lock h1 n1 c) ∧
    h1 = cur (dev_of c) ∧ ((0 <? n1) = true ∧ n1 - 1 = console_lock_depth c ∧ h1 = holder c ∨
                           (0 <? n1) = false ∧ n1 = console_lock_depth c ∧ holder c = NULL)) as (h1 & n1 & Hacq & -> & Hn).
  { destruct Hl as [[Hh Hd]|[Hh Hd]].
    - rewrite Hh. destruct (Z.eqb_spec NULL (cur (dev_of c))); [congruence|]. eexists _, _. split; [done|]. split; [done|]. right. by rewrite Hd.
    - rewrite Hh, Z.eqb_refl, i32_small by lia. eexists _, _. split; [done|]. split; [done|]. left. split; [apply Z.ltb_lt; lia|]. lia. }
  rewrite (st_bind_ok _ _ _ _ _ Hacq). set (c1 := set_lock (cur (dev_of c)) n1 c).
  destruct (Hm c1) as (c2 & H2 & W2); [by apply set_lock_ok| |done|].
  { unfold console_locked_by_current_thread, lock_held_by_current. cbn [c1 set_lock holder]. change (dev_of c1) with (dev_of c).
    by rewrite Z.eqb_refl, orb_true_r. }
  rewrite (st_bind_ok _ _ _ _ _ H2). destruct W2 as [W F S (L1 & L2 & L3) (K1 & K2) N P R].
  exists (set_lock (holder c) (console_lock_depth c) c2). split.
  - unfold release_console. rewrite st_bind_assoc, (st_bind_ok _ _ c2 c2 c2) by done.
    rewrite K2, L3, L2. change (context (dev_of c1)) with (context (dev_of c)). change (use_console_lock c1) with (use_console_lock c).
    rewrite Eb1, Eb2. cbn [negb andb c1 set_lock console_lock_depth]. destruct Hn as [(-> & <- & Hh)|(-> & <- & Hh)].
    + rewrite (st_bind_ok _ _ c2 tt (set_lock (holder c) (n1 - 1) c2)); [done|]. unfold st_modify. rewrite L1. cbn [c1 set_lock holder]. by rewrite Hh.
    + rewrite st_bind_assoc, (st_bind_ok _ _ c2 tt c2).
      2: { apply ASSERT_true. unfold lock_held_by_current. rewrite L1, K1. cbn [c1 set_lock holder]. change (dev_of c1) with (dev_of c). apply Z.eqb_refl. }
      rewrite Hh. by rewrite (st_bind_ok _ _ c2 tt (set_lock NULL n1 c2)).
  - split; try done. by apply set_lock_ok.
Qed.

(** ** Calls *)

Inductive console_op :=
  | Printf (format : list Z) (args : list Stdio.arg)
  | Puts (s : list Z)
  | Putbuf (buffer : list Z)
  | Putchar (c : Z).

Definition console_step (op : console_op) : st console unit :=
  match op with
  | Printf format args => _ ← vprintf format args; mret tt
  | Puts s => _ ← puts s; mret tt
  | Putbuf b => putbuf b
  | Putchar c => _ ← putchar c; mret tt
  end.

Fixpoint console_run (ops : list console_op) : st console unit :=
  match ops with [] => mret tt | op :: ops => console_step op;; console_run ops end.

(** What a call is to print. *)
Definition op_output (op : console_op) : res (list Z) :=
  match op with
  | Printf format args => Stdio.__printf format args
  | Puts s => Ok (s ++ [10])
  | Putbuf b => Ok b
  | Putchar c => Ok [c]
  end.

Fixpoint all_output (ops : list console_op) : res (list Z) :=
  match ops with [] => Ok [] | op :: ops => l ← op_output op; ls ← all_output ops; Ok (l ++ ls) end.

Lemma put_all_app l1 l2 c : put_all (l1 ++ l2) c = (put_all l1;; put_all l2) c.
Proof.
  revert c. induction l1 as [|b l1 IH]; intros c; [done|]. cbn [app put_all]. unfold mbind, st_bind in *.
  destruct (putchar_have_lock b c) as [[[] c1]|]; [|done]. apply IH.
Qed.

(** Rearranging the sequence of calls. *)
Section monad.
Context {S A B : Type} (p q q2 r : st S unit) (a : A) (s : S).

Lemma bind_ret : (q ≫= λ _, mret tt) s = q s.
Proof. unfold mbind, st_bind. by destruct (q s) as [[[] s1]|]. Qed.

Lemma bind_ext : (∀ s, q s = q2 s) → (p;; q) s = (p;; q2) s.
Proof. intros H. unfold mbind, st_bind. destruct (p s) as [[[] s1]|]; [|done]. apply H. Qed.

Lemma bracket_one : ((p;; q;; r;; mret a) ≫= λ _, mret tt) s = (p;; q;; r ≫= λ _, mret tt) s.
Proof.
  unfold mbind, st_bind. destruct (p s) as [[[] s1]|]; [|done]. destruct (q s1) as [[[] s2]|]; [|done].
  by destruct (r s2) as [[[] s3]|].
Qed.

Lemma bracket_two : ((p;; q;; q2;; r;; mret a) ≫= λ _, mret tt) s = (p;; (q;; q2);; r ≫= λ _, mret tt) s.
Proof.
  unfold mbind, st_bind. destruct (p s) as [[[] s1]|]; [|done]. destruct (q s1) as [[[] s2]|]; [|done].
  destruct (q2 s2) as [[[] s3]|]; [|done]. by destruct (r s3) as [[[] s4]|].
Qed.

Lemma bracket_unit : (p;; q;; r) s = (p;; q;; r ≫= mret) s.
Proof.
  unfold mbind, st_bind. destruct (p s) as [[[] s1]|]; [|done]. destruct (q s1) as [[[] s2]|]; [|done].
  by destruct (r s2) as [[[] s3]|].
Qed.

Lemma bracket_out (o : res (list B)) (f : list B → st S unit) (g : list B → A) l : o = Ok l →
  ((p;; out ← st_of_res o; f out;; r;; mret (g out)) ≫= λ _, mret tt) s = (p;; f l;; r ≫= λ _, mret tt) s.
Proof.
  intros ->. unfold mbind, st_bind, st_of_res. destruct (p s) as [[[] s1]|]; [|done]. destruct (f l s1) as [[[] s2]|]; [|done].
  by destruct (r s2) as [[[] s3]|].
Qed.
End monad.

Lemma put_last s b c : (put_all s;; put_all [b]) c = (put_all s;; putchar_have_lock b) c.
Proof. apply bind_ext. intros c1. cbn [put_all]. apply bind_ret. Qed.

Lemma lock_ok_wrote l c c' : wrote l c c' → lock_ok c → lock_ok c'.
Proof. intros [_ _ _ (H1 & H2 & H3) (H4 & H5) _ _ _]. unfold lock_ok. by rewrite H1, H2, H3, H4, H5. Qed.

(** A call that prints [l] under the lock. *)
Lemma locked_ok l c m (f : unit → st console unit) :
  console_ok c → lock_ok c → (polls (dev_of c) → (length l ≤ ready (dev_of c))%nat) → (∀ c1, m c1 = put_all l c1) → (∀ c1, f tt c1 = Ok (tt, c1)) →
  ∃ c', (acquire_console;; m;; release_console ≫= f) c = Ok (tt, c') ∧ wrote (u8 <$> l) c c'.
Proof.
  intros Hc Hl Hr Hm Hf. destruct (bracket_ok m f (u8 <$> l) c Hc Hl) as (c' & H1 & H2); [|exists c'; by rewrite H1, Hf].
  intros c1 Hc1 Hlk Hd. rewrite Hm. apply put_all_ok; [done|done|by rewrite Hd].
Qed.

(** Each call takes the lock, prints its output and releases the lock. *)
Lemma console_step_eq op l : op_output op = Ok l →
  ∃ m (f : unit → st console unit), (∀ c, m c = put_all l c) ∧ (∀ c, f tt c = Ok (tt, c)) ∧
    ∀ c, console_step op c = (acquire_console;; m;; release_console ≫= f) c.
Proof.
  destruct op as [format args|s|b|ch]; cbn [op_output]; intros Ho.
  - exists (put_all l), (λ _, mret tt). split; [done|]. split; [done|]. intros c. exact (bracket_out _ _ _ _ _ _ l Ho).
  - injection Ho as <-. exists (put_all s;; putchar_have_lock 10), (λ _, mret tt). split; [|split; [done|]].
    + intros c. rewrite put_all_app. symmetry. apply put_last.
    + intros c. exact (bracket_two _ _ _ _ _ _).
  - injection Ho as <-. exists (put_all b), mret. split; [done|]. split; [done|]. intros c. exact (bracket_unit _ _ _ _).
  - injection Ho as <-. exists (putchar_have_lock ch), (λ _, mret tt). split; [|split; [done|]].
    + intros c. symmetry. exact (bind_ret _ _).
    + intros c. exact (bracket_one _ _ _ _ _).
Qed.

Lemma console_step_ok op l c :
  console_ok c → lock_ok c → op_output op = Ok l → (polls (dev_of c) → (length l ≤ ready (dev_of c))%nat) →
  ∃ c', console_step op c = Ok (tt, c') ∧ wrote (u8 <$> l) c c'.
Proof.
  intros Hc Hl Ho Hr. destruct (console_step_eq op l Ho) as (m & f & Hm & Hf & He). rewrite He. by apply locked_ok.
Qed.

Lemma console_run_ok ops : ∀ l c,
  console_ok c → lock_ok c → all_output ops = Ok l → (polls (dev_of c) → (length l ≤ ready (dev_of c))%nat) →
  ∃ c', console_run ops c = Ok (tt, c') ∧ wrote (u8 <$> l) c c'.
Proof.
  induction ops as [|op ops IH]; intros l c Hc Hl Ho Hr; cbn [console_run all_output] in *.
  { injection Ho as <-. exists c. split; [done|by apply wrote_nil]. }
  destruct (op_output op) as [l1|] eqn:E1; [|done]. simpl in Ho. destruct (all_output ops) as [l2|] eqn:E2; [|done].
  simpl in Ho. injection Ho as <-. rewrite length_app in Hr.
  destruct (console_step_ok op l1 c Hc Hl E1 ltac:(intros Hp; specialize (Hr Hp); lia)) as (c1 & H1 & W1). rewrite (st_bind_ok _ _ _ _ _ H1).
  destruct (IH l2 c1) as (c2 & H2 & W2); [apply W1|by eapply lock_ok_wrote|done| |].
  { intros Hp%(wr_polls _ _ _ W1). specialize (Hr Hp). pose proof (wr_ready _ _ _ W1 Hp) as Hr1. rewrite length_fmap in Hr1. lia. }
  exists c2. split; [done|]. rewrite fmap_app. by eapply wrote_trans.
Qed.

(** ** Theorem *)

(** C26: whatever is printed with [printf], [puts], [putbuf] and [putchar], by a
    thread that has the console lock already or not, by an interrupt handler or
    during a panic, no ASSERT fails, and all of the text goes, in order, both
    to the serial port and to the display; the lock, its depth and its holder
    are left as they were, and the characters are counted.  This holds before
    and after [serial_init_queue]: with interrupts off or a polling driver, when
    no call sleeps and the port is polled; and for a thread that prints with
    interrupts on through the transmit queue, however it is interrupted between
    the characters and while it sleeps for room in the queue ([others_ok]:
    others keep the driver's state in order, print nothing meanwhile, and the
    thread is woken when there is room).  The console lock is free or the
    thread's own.  A polled device answers often enough that it is ready. *)
Theorem console_prints_everywhere ops l c :
  console_ok c → lock_ok c → all_output ops = Ok l → (polls (dev_of c) → (length l ≤ ready (dev_of c))%nat) →
  ∃ c', console_run ops c = Ok (tt, c') ∧
    u_sent (uart (dev_of c')) ++ contents (txq (dev_of c')) = u_sent (uart (dev_of c)) ++ contents (txq (dev_of c)) ++ (u8 <$> l) ∧
    screen (display c') = foldl t_put (screen (display c)) (u8 <$> l) ∧
    holder c' = holder c ∧ console_lock_depth c' = console_lock_depth c ∧
    write_cnt c' = i64 (write_cnt c + Z.of_nat (length l)).
Proof.
  intros Hc Hl Ho Hr. destruct (console_run_ok ops l c Hc Hl Ho Hr) as (c' & H1 & [W F S (L1 & L2 & _) _ N _ _]).
  exists c'. rewrite length_fmap in N. fold (flow (dev_of c')). rewrite F. unfold flow. by rewrite <- app_assoc.
Qed.

End others.

(** ** A port that is always ready *)

(** A handler runs, and the port answers that it is ready. *)
Definition with_ready_port (op : st dev unit) : st dev unit := λ d,
  match op (enter true true NULL (set_io (MkPorts (replicate 193 0x20) (trace (io d))) d)) with
  | Ok (_, d') => Ok (tt, enter (irq_off d) (context d) (cur d) (set_io (MkPorts (inputs (io d)) (trace (io d'))) d'))
  | Err e => Err e
  end.

(** The serial interrupt comes when the thread sleeps. *)
Definition lazy_port : Others :=
  {| between := mret tt; asleep := with_ready_port serial_interrupt; wakeups := 1 |}.

Lemma lazy_port_ok : @others_ok lazy_port.
Proof.
  split; [done|]. split; [intros d H _; exists d; by split_and!|]. intros d (Hok & Hi & Hc) Hm Ho.
  set (d0 := enter true true NULL (set_io (MkPorts (replicate 193 0x20) (trace (io d))) d)).
  assert (Hok0 : dev_ok d0) by (by destruct Hok).
  destruct (serial_interrupt_ok d0) as (d1 & H1 & [Fok Fm _ _ Ff Fi] & A & Hdr); [done|done|vm_compute; lia|].
  assert (E : contents (txq d1) = []) by (apply Hdr, Forall_replicate; by vm_compute).
  eexists. split; [cbn [asleep lazy_port]; unfold with_ready_port; fold d0; by rewrite H1|].
  assert (Hm1 : mode d1 = QUEUE) by (by apply Fm).
  split; [|by simpl; rewrite E]. split_and!; try done.
  - split; [by destruct Fok|]. split; [|done]. intros _. by apply Fi.
  - simpl. congruence.
  - rewrite app_nil_r in Ff. exact Ff.
  - apply (af_lock _ _ _ A).
Qed.

Definition demo_console (m : serial_mode) : console :=
  MkConsole (MkVga 0 24 (replicate 4000 0) true
    (Dev false false 1 demo_intq demo_intq m bss_table (MkPorts (replicate 40 0x20) [Outb IER_REG 1]) [])) 1 true 0 0.

(** A thread that holds the lock prints, with interrupts on: more than the
    transmit queue has room for. *)
Definition demo_output : list console_op :=
  [Printf (Stdio.lit "n=%d") [Stdio.Int 42]; Puts (replicate 80 111)].

Lemma console_prints_everywhere_witness :
  ∃ c', @console_run lazy_port demo_output (demo_console QUEUE) = Ok (tt, c') ∧
    u_sent (uart (dev_of c')) ++ contents (txq (dev_of c')) = [110; 61; 52; 50] ++ replicate 80 111 ++ [10] ∧
    holder c' = 1 ∧ console_lock_depth c' = 0.
Proof.
  destruct (@console_prints_everywhere lazy_port demo_output ([110; 61; 52; 50] ++ replicate 80 111 ++ [10]) (demo_console QUEUE))
    as (c' & H1 & H2 & _ & H3 & H4 & _).
  - assert (Hq : intq_ok demo_intq) by (split; [done|simpl; lia]).
    split; [by split|done|split; [done|simpl; lia]|done|done|right; split; [apply lazy_port_ok|done]|done].
  - split; [done|]. right. right. right. split; [done|]. simpl. lia.
  - vm_compute. reflexivity.
  - intros [Hp|Hp]; [discriminate Hp|]. by destruct Hp.
  - exists c'. split; [exact H1|]. split; [|split; [exact H3|exact H4]]. rewrite H2. vm_compute. reflexivity.
Defined.

(** The thread has slept once: the first 63 bytes have been sent. *)
Example demo_slept :
  match @console_run lazy_port demo_output (demo_console QUEUE) with
  | Ok (_, c) => length (u_sent (uart (dev_of c))) = 63%nat ∧ length (contents (txq (dev_of c))) = 22%nat
  | Err _ => False
  end.
Proof. vm_compute. done. Qed.

End ConsoleTheorems.
