(* ===== verification/Disk.v ===== *)
(** devices/disk.c and the string instructions of include/threads/io.h: the
    driver of the two ATA channels of a PC.

    The controller and the disks are a parameter, [AtaBus]: what a port access
    reads and does, what the passing of time does, and the interrupt lines.
    Time may pass between any two accesses, as much as [delays] says, and an
    interrupt is taken as soon as its line is raised, since the driver runs with
    interrupts on.  A pointer to a [struct disk] is the number of its channel
    and of the device in it.

    The driver is followed for one thread, [cur].  A thread that finds the
    channel's lock held by another one is not followed further ([Waits]). *)
From S2P Require Import Prelude KState Interrupt StdlibC Stdio IntrTable.
Import Ports IntrTable Stdio.
Local Open Scope Z_scope.

(** The hardware.  One [elapse] is at most the time [timer_msleep (10)] takes. *)
Class AtaBus (D : Type) := {
  bus_in8 : Z → D → Z * D;
  bus_in16 : Z → D → Z * D;
  bus_out8 : Z → Z → D → D;
  bus_out16 : Z → Z → D → D;
  elapse : D → D;
  irq_line : Z → D → bool }.

Module Disk.

Definition quote : string := String (Ascii.ascii_of_nat 34) EmptyString.
Fixpoint string_of (l : list Z) : string :=
  match l with [] => EmptyString | c :: l => if c =? 0 then EmptyString else String (Ascii.ascii_of_nat (Z.to_nat c)) (string_of l) end.

Definition DISK_SECTOR_SIZE : Z := 512.
Definition STA_BSY : Z := 0x80.
Definition STA_DRDY : Z := 0x40.
Definition STA_DRQ : Z := 0x08.
Definition CTL_SRST : Z := 0x04.
Definition DEV_MBS : Z := 0xa0.
Definition DEV_LBA : Z := 0x40.
Definition DEV_DEV : Z := 0x10.
Definition CMD_IDENTIFY_DEVICE : Z := 0xec.
Definition CMD_READ_SECTOR_RETRY : Z := 0x20.
Definition CMD_WRITE_SECTOR_RETRY : Z := 0x30.

Record disk := Disk {
  d_name : list Z; d_channel : nat; dev_no : Z; is_ata : bool; capacity : Z; read_cnt : Z; write_cnt : Z }.

(** [holder] is the thread that holds [lock], [completion_wait] the value of
    the semaphore. *)
Record channel := Channel {
  c_name : list Z; reg_base : Z; irq : Z; holder : Z; expecting_interrupt : bool; completion_wait : Z;
  devices : list disk }.

Definition CHANNEL_CNT : nat := 2.

Definition reg_data (c : channel) : Z := reg_base c + 0.
Definition reg_error (c : channel) : Z := reg_base c + 1.
Definition reg_nsect (c : channel) : Z := reg_base c + 2.
Definition reg_lbal (c : channel) : Z := reg_base c + 3.
Definition reg_lbam (c : channel) : Z := reg_base c + 4.
Definition reg_lbah (c : channel) : Z := reg_base c + 5.
Definition reg_device (c : channel) : Z := reg_base c + 6.
Definition reg_status (c : channel) : Z := reg_base c + 7.
Definition reg_command (c : channel) : Z := reg_status c.
Definition reg_ctl (c : channel) : Z := reg_base c + 0x206.
Definition reg_alt_status (c : channel) : Z := reg_ctl c.

Section bus.
Context {D : Type} `{AtaBus D}.

Record world := World {
  channels : list channel; hw : D; delays : list nat; console : list Z; irq_on : bool; cur : Z; table : intr_table }.

Definition set_channels (l : list channel) (w : world) : world :=
  World l (hw w) (delays w) (console w) (irq_on w) (cur w) (table w).
Definition set_hw (d : D) (w : world) : world :=
  World (channels w) d (delays w) (console w) (irq_on w) (cur w) (table w).
Definition set_delays (l : list nat) (w : world) : world :=
  World (channels w) (hw w) l (console w) (irq_on w) (cur w) (table w).
Definition print (out : list Z) (w : world) : world :=
  World (channels w) (hw w) (delays w) (console w ++ out) (irq_on w) (cur w) (table w).
Definition set_table (t : intr_table) (w : world) : world :=
  World (channels w) (hw w) (delays w) (console w) (irq_on w) (cur w) t.

Definition printf (format : string) (args : list arg) : st world unit :=
  out ← st_of_res (Stdio.printf (lit format) args); st_modify (print out).

Definition get_channel (i : nat) : st world channel := λ w,
  match channels w !! i with Some c => Ok (c, w) | None => Err BadAddr end.
Definition put_channel (i : nat) (c : channel) : st world unit :=
  st_modify (λ w, set_channels (<[i := c]> (channels w)) w).

Definition get_disk (d : nat * nat) : st world disk :=
  c ← get_channel (fst d);
  match devices c !! snd d with Some x => mret x | None => st_err BadAddr end.
Definition put_disk (d : nat * nat) (x : disk) : st world unit :=
  c ← get_channel (fst d);
  put_channel (fst d) (Channel (c_name c) (reg_base c) (irq c) (holder c) (expecting_interrupt c) (completion_wait c)
    (<[snd d := x]> (devices c))).

Definition set_is_ata (b : bool) (x : disk) : disk :=
  Disk (d_name x) (d_channel x) (dev_no x) b (capacity x) (read_cnt x) (write_cnt x).
Definition set_capacity (n : Z) (x : disk) : disk :=
  Disk (d_name x) (d_channel x) (dev_no x) (is_ata x) n (read_cnt x) (write_cnt x).
Definition count_read (x : disk) : disk :=
  Disk (d_name x) (d_channel x) (dev_no x) (is_ata x) (capacity x) (i64 (read_cnt x + 1)) (write_cnt x).
Definition count_write (x : disk) : disk :=
  Disk (d_name x) (d_channel x) (dev_no x) (is_ata x) (capacity x) (read_cnt x) (i64 (write_cnt x + 1)).

Definition set_holder (h : Z) (c : channel) : channel :=
  Channel (c_name c) (reg_base c) (irq c) h (expecting_interrupt c) (completion_wait c) (devices c).
Definition set_expecting (b : bool) (c : channel) : channel :=
  Channel (c_name c) (reg_base c) (irq c) (holder c) b (completion_wait c) (devices c).
Definition set_completion (n : Z) (c : channel) : channel :=
  Channel (c_name c) (reg_base c) (irq c) (holder c) (expecting_interrupt c) n (devices c).

Definition modify_channel (i : nat) (f : channel → channel) : st world unit := c ← get_channel i; put_channel i (f c).
Definition modify_disk (d : nat * nat) (f : disk → disk) : st world unit := x ← get_disk d; put_disk d (f x).

(** ** Interrupts and time *)

Definition raw_in8 (port : Z) : st world Z := λ w, let '(v, d) := bus_in8 port (hw w) in Ok (u8 v, set_hw d w).

(** [sema_up (&c->completion_wait)] and the loop over the channels. *)
Fixpoint handler_loop (k : nat) (i : nat) (vec_no : Z) : st world unit :=
  match k with
  | O => st_err PanicCall
  | S k =>
    c ← get_channel i;
    if vec_no =? irq c then
      if expecting_interrupt c then
        _ ← raw_in8 (reg_status c);
        modify_channel i (λ c, set_completion (u32 (completion_wait c + 1)) c)
      else printf "%s: unexpected interrupt
" [Str (Some (c_name c))]
    else handler_loop k (S i) vec_no
  end.

Definition interrupt_handler (vec_no : Z) : st world unit := handler_loop CHANNEL_CNT 0 vec_no.

(** The interrupts of the lines that are raised, the vectors of the two
    channels in the order of their priority. *)
Fixpoint deliver (vecs : list Z) : st world unit :=
  match vecs with
  | [] => mret tt
  | v :: vecs =>
    w ← st_get;
    (if irq_on w && irq_line v (hw w) then interrupt_handler v else mret tt);;
    deliver vecs
  end.

Definition unit_of_time : st world unit := st_modify (λ w, set_hw (elapse (hw w)) w);; deliver [14 + 0x20; 15 + 0x20].

Fixpoint units (n : nat) : st world unit := match n with O => mret tt | S n => unit_of_time;; units n end.

(** What passes before the next instruction of the driver. *)
Definition pause : st world unit :=
  l ← st_gets delays;
  match l with [] => mret tt | n :: l => st_modify (set_delays l);; units n end.

Definition assert_on : st world unit := b ← st_gets irq_on; ASSERT b.

(** [timer_msleep], [timer_usleep] and [timer_nsleep]: the driver's shortest
    [timer_msleep] is at least one unit. *)
Definition sleep_ms (ms : Z) : st world unit := assert_on;; unit_of_time;; pause.
Definition sleep_us (us : Z) : st world unit := assert_on;; pause.
Definition sleep_ns (ns : Z) : st world unit := assert_on;; pause.

(** ** Ports *)

Definition inb (port : Z) : st world Z := pause;; raw_in8 port.
Definition outb (port v : Z) : st world unit := pause;; st_modify (λ w, set_hw (bus_out8 port (u8 v) (hw w)) w).
Definition raw_in16 (port : Z) : st world Z := λ w, let '(v, d) := bus_in16 port (hw w) in Ok (u16 v, set_hw d w).
Definition inw (port : Z) : st world Z := pause;; raw_in16 port.
Definition outw (port v : Z) : st world unit := pause;; st_modify (λ w, set_hw (bus_out16 port (u16 v) (hw w)) w).

(** Each unit goes to memory, or comes from it, lower byte first. *)
Fixpoint insw (port : Z) (cnt : nat) : st world (list Z) :=
  match cnt with
  | O => mret []
  | S cnt => v ← inw port; l ← insw port cnt; mret (u8 v :: u8 (Z.shiftr v 8) :: l)
  end.

Fixpoint outsw (port : Z) (addr : list Z) (cnt : nat) : st world unit :=
  match cnt with
  | O => mret tt
  | S cnt =>
    match addr with
    | lo :: hi :: addr => outw port (lo + 256 * hi);; outsw port addr cnt
    | _ => st_err BadAddr
    end
  end.

(** ** Low-level ATA primitives *)

Fixpoint until_idle_loop (k : nat) (d : nat * nat) : st world bool :=
  match k with
  | O => mret false
  | S k =>
    x ← get_disk d;
    c ← get_channel (d_channel x);
    v ← inb (reg_status c);
    if Z.land v (Z.lor STA_BSY STA_DRQ) =? 0 then mret true
    else sleep_us 10;; until_idle_loop k d
  end.

Definition wait_until_idle (d : nat * nat) : st world unit :=
  idle ← until_idle_loop (Z.to_nat 1000) d;
  if idle : bool then mret tt
  else
    x ← get_disk d;
    printf "%s: idle timeout
" [Str (Some (d_name x))].

Fixpoint busy_loop (k : nat) (i : Z) (d : nat * nat) : st world (option bool) :=
  match k with
  | O => mret None
  | S k =>
    x ← get_disk d;
    c ← get_channel (d_channel x);
    (if i =? 700 then printf "%s: busy, waiting..." [Str (Some (d_name x))] else mret tt);;
    v ← inb (reg_alt_status c);
    if Z.land v STA_BSY =? 0 then
      (if 700 <=? i then printf "ok
" [] else mret tt);;
      v ← inb (reg_alt_status c);
      mret (Some (negb (Z.land v STA_DRQ =? 0)))
    else sleep_ms 10;; busy_loop k (i + 1) d
  end.

Definition wait_while_busy (d : nat * nat) : st world bool :=
  r ← busy_loop (Z.to_nat 3000) 0 d;
  match r with
  | Some drq => mret drq
  | None => printf "failed
" [];; mret false
  end.

Definition select_device (d : nat * nat) : st world unit :=
  x ← get_disk d;
  c ← get_channel (d_channel x);
  let dev := DEV_MBS in
  let dev := if dev_no x =? 1 then Z.lor dev DEV_DEV else dev in
  outb (reg_device c) dev;;
  _ ← inb (reg_alt_status c);
  sleep_ns 400.

Definition select_device_wait (d : nat * nat) : st world unit :=
  wait_until_idle d;; select_device d;; wait_until_idle d.

(** ** Commands *)

Definition select_sector (d : nat * nat) (sec_no : Z) : st world unit :=
  x ← get_disk d;
  c ← get_channel (d_channel x);
  ASSERT (sec_no <? capacity x);;
  ASSERT (sec_no <? Z.shiftl 1 28);;
  select_device_wait d;;
  outb (reg_nsect c) 1;;
  outb (reg_lbal c) sec_no;;
  outb (reg_lbam c) (Z.shiftr sec_no 8);;
  outb (reg_lbah c) (Z.shiftr sec_no 16);;
  outb (reg_device c)
    (Z.lor (Z.lor (Z.lor DEV_MBS DEV_LBA) (if dev_no x =? 1 then DEV_DEV else 0)) (Z.shiftr sec_no 24)).

Definition issue_pio_command (ch : nat) (command : Z) : st world unit :=
  assert_on;;
  modify_channel ch (set_expecting true);;
  c ← get_channel ch;
  outb (reg_command c) command.

Definition input_sector (ch : nat) : st world (list Z) :=
  c ← get_channel ch; insw (reg_data c) (Z.to_nat (DISK_SECTOR_SIZE / 2)).

Definition output_sector (ch : nat) (sector : list Z) : st world unit :=
  c ← get_channel ch; outsw (reg_data c) sector (Z.to_nat (DISK_SECTOR_SIZE / 2)).

(** ** The channel's lock and semaphore *)

Definition Waits {A} : st world A := st_err NoFuel.

Definition channel_acquire (ch : nat) : st world unit :=
  w ← st_get;
  c ← get_channel ch;
  ASSERT (negb (holder c =? cur w));;
  if holder c =? NULL then put_channel ch (set_holder (cur w) c) else Waits.

Definition channel_release (ch : nat) : st world unit :=
  w ← st_get;
  c ← get_channel ch;
  ASSERT (holder c =? cur w);;
  put_channel ch (set_holder NULL c).

(** The thread sleeps until the interrupt handler has raised the value; [k]
    bounds the time that is followed. *)
Fixpoint completion_loop (k : nat) (ch : nat) : st world unit :=
  match k with
  | O => Waits
  | S k =>
    c ← get_channel ch;
    if completion_wait c =? 0 then unit_of_time;; completion_loop k ch
    else put_channel ch (set_completion (completion_wait c - 1) c)
  end.

Definition completion_down (ch : nat) : st world unit := pause;; completion_loop (S (Z.to_nat 3000)) ch.

(** ** Reading and writing *)

Definition the_disk (d : option (nat * nat)) : st world (nat * nat) :=
  match d with Some d => mret d | None => st_err AssertFail end.

(** The new contents of the buffer; [None] is a null pointer. *)
Definition disk_read (d : option (nat * nat)) (sec_no : Z) (buffer : option (list Z)) : st world (list Z) :=
  d ← the_disk d;
  match buffer with
  | None => st_err AssertFail
  | Some buffer =>
    x ← get_disk d;
    let ch := d_channel x in
    channel_acquire ch;;
    select_sector d sec_no;;
    issue_pio_command ch CMD_READ_SECTOR_RETRY;;
    completion_down ch;;
    drq ← wait_while_busy d;
    if negb drq then st_err PanicCall
    else
      data ← input_sector ch;
      modify_disk d count_read;;
      channel_release ch;;
      mret (data ++ drop (length data) buffer)
  end.

Definition disk_write (d : option (nat * nat)) (sec_no : Z) (buffer : option (list Z)) : st world unit :=
  d ← the_disk d;
  match buffer with
  | None => st_err AssertFail
  | Some buffer =>
    x ← get_disk d;
    let ch := d_channel x in
    channel_acquire ch;;
    select_sector d sec_no;;
    issue_pio_command ch CMD_WRITE_SECTOR_RETRY;;
    drq ← wait_while_busy d;
    if negb drq then st_err PanicCall
    else
      output_sector ch buffer;;
      completion_down ch;;
      modify_disk d count_write;;
      channel_release ch
  end.

Definition disk_get (chan_no dev_no : Z) : st world (option (nat * nat)) :=
  ASSERT ((dev_no =? 0) || (dev_no =? 1));;
  if chan_no <? Z.of_nat CHANNEL_CNT then
    let d := (Z.to_nat chan_no, Z.to_nat dev_no) in
    if chan_no <? 0 then st_err BadAddr
    else x ← get_disk d; mret (if is_ata x then Some d else None)
  else mret None.

Definition disk_size (d : option (nat * nat)) : st world Z := d ← the_disk d; x ← get_disk d; mret (capacity x).

(** ** Detection *)

Definition probe (d : nat * nat) : st world bool :=
  select_device d;;
  x ← get_disk d;
  c ← get_channel (d_channel x);
  outb (reg_nsect c) 0x55;; outb (reg_lbal c) 0xaa;;
  outb (reg_nsect c) 0xaa;; outb (reg_lbal c) 0x55;;
  outb (reg_nsect c) 0x55;; outb (reg_lbal c) 0xaa;;
  n ← inb (reg_nsect c);
  if n =? 0x55 then l ← inb (reg_lbal c); mret (l =? 0xaa) else mret false.

Fixpoint slave_loop (k : nat) (ch : nat) : st world unit :=
  match k with
  | O => mret tt
  | S k =>
    c ← get_channel ch;
    n ← inb (reg_nsect c);
    ready ← (if n =? 1 then l ← inb (reg_lbal c); mret (l =? 1) else mret false);
    if ready : bool then mret tt else sleep_ms 10;; slave_loop k ch
  end.

Definition reset_channel (ch : nat) : st world unit :=
  present0 ← probe (ch, 0%nat);
  present1 ← probe (ch, 1%nat);
  c ← get_channel ch;
  outb (reg_ctl c) 0;;
  sleep_us 10;;
  outb (reg_ctl c) CTL_SRST;;
  sleep_us 10;;
  outb (reg_ctl c) 0;;
  sleep_ms 150;;
  (if present0 : bool then select_device (ch, 0%nat);; _ ← wait_while_busy (ch, 0%nat); mret tt else mret tt);;
  (if present1 : bool then
     select_device (ch, 1%nat);; slave_loop (Z.to_nat 3000) ch;; _ ← wait_while_busy (ch, 1%nat); mret tt
   else mret tt).

Definition check_device_type (d : nat * nat) : st world bool :=
  x ← get_disk d;
  c ← get_channel (d_channel x);
  select_device d;;
  error ← inb (reg_error c);
  lbam ← inb (reg_lbam c);
  lbah ← inb (reg_lbah c);
  status ← inb (reg_status c);
  if (negb (error =? 1) && (negb (error =? 0x81) || (dev_no x =? 1)))
     || (Z.land status STA_DRDY =? 0) || negb (Z.land status STA_BSY =? 0)
  then modify_disk d (set_is_ata false);; mret (negb (error =? 0x81))
  else
    modify_disk d (set_is_ata (((lbam =? 0) && (lbah =? 0)) || ((lbam =? 0x3c) && (lbah =? 0xc3))));;
    mret true.

(** [string[i]] of the [char] array *)
Definition char_at (s : list Z) (i : Z) : Z := default 0 (s !! Z.to_nat i).

(** The size without trailing white space and nulls; a [char] is signed. *)
Fixpoint trim (string : list Z) (size : nat) : nat :=
  match size with
  | O => O
  | S k =>
    let c := char_at string (Z.lxor (Z.of_nat k) 1) in
    if negb (c =? 0) && negb (StdlibC.isspace c) then S k else trim string k
  end.

Fixpoint print_chars (string : list Z) (i : nat) (k : nat) : st world unit :=
  match k with
  | O => mret tt
  | S k => printf "%c" [Int (char_at string (Z.lxor (Z.of_nat i) 1))];; print_chars string (S i) k
  end.

Definition print_ata_string (string : list Z) (size : nat) : st world unit :=
  print_chars string 0 (trim string size).

(** [id[i]] *)
Definition id_word (id : list Z) (i : Z) : Z := char_at id (2 * i) + 256 * char_at id (2 * i + 1).

Definition identify_ata_device (d : nat * nat) : st world unit :=
  x ← get_disk d;
  let ch := d_channel x in
  ASSERT (is_ata x);;
  select_device_wait d;;
  issue_pio_command ch CMD_IDENTIFY_DEVICE;;
  completion_down ch;;
  drq ← wait_while_busy d;
  if negb drq then modify_disk d (set_is_ata false)
  else
    id ← input_sector ch;
    let n := Z.lor (id_word id 60) (u32 (Z.shiftl (id_word id 61) 16)) in
    modify_disk d (set_capacity n);;
    printf "%s: detected %'u sector (" [Str (Some (d_name x)); Int n];;
    (if n >? 1024 / DISK_SECTOR_SIZE * 1024 * 1024 then
       printf "%u GB" [Int (n / (1024 / DISK_SECTOR_SIZE * 1024 * 1024))]
     else if n >? 1024 / DISK_SECTOR_SIZE * 1024 then printf "%u MB" [Int (n / (1024 / DISK_SECTOR_SIZE * 1024))]
     else if n >? 1024 / DISK_SECTOR_SIZE then printf "%u kB" [Int (n / (1024 / DISK_SECTOR_SIZE))]
     else printf "%u byte" [Int (u32 (n * DISK_SECTOR_SIZE))]);;
    printf (") disk, model " +:+ quote) [];;
    print_ata_string (drop 54 id) 40;;
    printf (quote +:+ ", serial " +:+ quote) [];;
    print_ata_string (drop 20 id) 20;;
    printf (quote +:+ "
") [].

(** ** Initialisation *)

(** [snprintf (name, 8, format, ...)] *)
Definition name8 (format : string) (args : list arg) : st world (list Z) :=
  out ← st_of_res (Stdio.printf (lit format) args); mret (take 7 out ++ [0]).

Definition new_disk (nm : list Z) (ch : nat) (dev_no : Z) : disk := Disk nm ch dev_no false 0 0 0.

Context (intr_stubs : nat → Z).

(** The interrupt handler's number in the table of handlers. *)
Definition HANDLER : nat := 4.

Definition init_channel (chan_no : nat) : st world unit :=
  nm ← name8 "hd%zu" [Int (Z.of_nat chan_no)];
  '(base, vec) ← (match chan_no with
                  | 0%nat => mret (0x1f0, 14 + 0x20)
                  | 1%nat => mret (0x170, 15 + 0x20)
                  | _ => st_err PanicCall
                  end);
  nm0 ← name8 "%s:%d" [Str (Some nm); Int 0];
  nm1 ← name8 "%s:%d" [Str (Some nm); Int 1];
  put_channel chan_no (Channel nm base vec NULL false 0 [new_disk nm0 chan_no 0; new_disk nm1 chan_no 1]);;
  w ← st_get;
  t ← st_of_res (intr_register_ext intr_stubs (Z.to_nat vec) HANDLER (string_of nm) (table w));
  st_modify (set_table t);;
  reset_channel chan_no;;
  slave ← check_device_type (chan_no, 0%nat);
  (if slave : bool then _ ← check_device_type (chan_no, 1%nat); mret tt else mret tt);;
  x0 ← get_disk (chan_no, 0%nat);
  (if is_ata x0 then identify_ata_device (chan_no, 0%nat) else mret tt);;
  x1 ← get_disk (chan_no, 1%nat);
  (if is_ata x1 then identify_ata_device (chan_no, 1%nat) else mret tt).

Definition disk_init : st world unit := init_channel 0;; init_channel 1.

Definition print_disk_stats (d : nat * nat) : st world unit :=
  p ← disk_get (Z.of_nat (fst d)) (Z.of_nat (snd d));
  match p with
  | None => mret tt
  | Some d =>
    x ← get_disk d;
    if is_ata x then
      printf "%s: %lld reads, %lld writes
" [Str (Some (d_name x)); Int (read_cnt x); Int (write_cnt x)]
    else mret tt
  end.

Definition disk_print_stats : st world unit :=
  print_disk_stats (0, 0)%nat;; print_disk_stats (0, 1)%nat;; print_disk_stats (1, 0)%nat;; print_disk_stats (1, 1)%nat.

End bus.
End Disk.
