(* ===== verification/DiskSpec.v ===== *)
(** What the disk driver relies on in the controller and the disks: the part of
    [ATA-3] it uses, as laws over an abstract view of a channel, and a
    simulated controller that obeys them. *)
From S2P Require Import Prelude Disk.
Import Disk.
Local Open Scope Z_scope.

Module DiskSpec.

(** ** Sectors as words *)

Fixpoint words (bs : list Z) : list Z :=
  match bs with lo :: hi :: bs => lo + 256 * hi :: words bs | _ => [] end.
Fixpoint bytes (ws : list Z) : list Z :=
  match ws with [] => [] | w :: ws => u8 w :: u8 (Z.shiftr w 8) :: bytes ws end.

Definition byte (b : Z) : Prop := 0 ≤ b < 256.
Definition sector_ok (s : list Z) : Prop := length s = 512%nat ∧ Forall byte s.

(** ** A channel as the standard describes it *)

(** What a busy device is about to do: give a sector, ask for one, store the one
    it got in a sector of the selected device, come out of a reset. *)
Inductive pending := ReadReady (ws : list Z) | WriteReady (lba : Z) | WriteDone (lba : Z) (ws : list Z) | ResetDone.
Inductive phase := Idle | Busy (n : nat) (p : pending) | DataIn (ws : list Z) | DataOut (lba : Z) (ws : list Z) | InReset.

(** The registers, what the selected device is doing, the interrupt line and,
    for each of the two devices, its sectors and its answer to IDENTIFY
    DEVICE. *)
Record cview := View {
  v_device : Z; v_nsect : Z; v_lbal : Z; v_lbam : Z; v_lbah : Z; v_error : Z;
  v_phase : phase; v_irq : bool; v_store : list (list (list Z)); v_ident : list (list Z) }.

Definition set_phase (p : phase) (v : cview) : cview :=
  View (v_device v) (v_nsect v) (v_lbal v) (v_lbam v) (v_lbah v) (v_error v) p (v_irq v) (v_store v) (v_ident v).
Definition set_irq (b : bool) (v : cview) : cview :=
  View (v_device v) (v_nsect v) (v_lbal v) (v_lbam v) (v_lbah v) (v_error v) (v_phase v) b (v_store v) (v_ident v).
Definition set_store (l : list (list (list Z))) (v : cview) : cview :=
  View (v_device v) (v_nsect v) (v_lbal v) (v_lbam v) (v_lbah v) (v_error v) (v_phase v) (v_irq v) l (v_ident v).
Definition set_reg (r x : Z) (v : cview) : cview :=
  View (if r =? 6 then x else v_device v) (if r =? 2 then x else v_nsect v) (if r =? 3 then x else v_lbal v)
    (if r =? 4 then x else v_lbam v) (if r =? 5 then x else v_lbah v) (v_error v) (v_phase v) (v_irq v) (v_store v) (v_ident v).
Definition get_reg (r : Z) (v : cview) : Z :=
  if r =? 1 then v_error v else if r =? 2 then v_nsect v else if r =? 3 then v_lbal v
  else if r =? 4 then v_lbam v else v_lbah v.

(** The registers a device without packet commands shows after a reset.  Device 0
    is selected; bits 5 and 7 of the device register have no meaning and are
    kept set, as [DEV_MBS] wants them. *)
Definition signature (v : cview) : cview := View 0xa0 1 1 0 0 1 Idle (v_irq v) (v_store v) (v_ident v).

Definition sel (v : cview) : nat := if Z.testbit (v_device v) 4 then 1 else 0.
Definition lba (v : cview) : Z := v_lbal v + 2 ^ 8 * v_lbam v + 2 ^ 16 * v_lbah v + 2 ^ 24 * Z.land (v_device v) 0xf.

Definition store_sector (dev : nat) (n : Z) (s : list Z) (l : list (list (list Z))) : list (list (list Z)) :=
  alter (<[Z.to_nat n := s]>) dev l.

(** A device makes progress; a device that has data, or has stored it, raises
    the interrupt line. *)
Definition complete (p : pending) (v : cview) : cview :=
  match p with
  | ReadReady ws => set_irq true (set_phase (DataIn ws) v)
  | WriteReady n => set_phase (DataOut n []) v
  | WriteDone n ws => set_irq true (set_phase Idle (set_store (store_sector (sel v) n (bytes ws) (v_store v)) v))
  | ResetDone => signature v
  end.
Definition progress (v : cview) : cview :=
  match v_phase v with
  | Busy (S n) p => set_phase (Busy n p) v
  | Busy O p => complete p v
  | _ => v
  end.

Definition is_busy (p : phase) : bool := match p with Busy _ _ | InReset => true | _ => false end.
Definition has_data (p : phase) : bool := match p with DataIn _ | DataOut _ _ => true | _ => false end.

(** The bits of a status byte. *)
Definition status_ok (p : phase) (x : Z) : Prop :=
  0 ≤ x < 256 ∧ Z.testbit x 7 = is_busy p
  ∧ (is_busy p = false → Z.testbit x 3 = has_data p ∧ (p = Idle → Z.testbit x 6 = true)).

Definition base_of (i : nat) : Z := match i with O => 0x1f0 | _ => 0x170 end.
Definition vec_of (i : nat) : Z := match i with O => 46 | _ => 47 end.
Definition other (i : nat) : nat := match i with O => 1 | _ => 0 end.

(** The ports of a channel. *)
Definition is_reg (r : Z) : Prop := 0 ≤ r ≤ 7 ∨ r = 0x206.

(** How long a device stays busy, in units of the driver's polling: the driver
    allows for the 30 seconds the standard grants. *)
Definition BUSY_MAX : nat := Z.to_nat 2999.

(** The laws.  Nothing is said of accesses the standard forbids, such as a
    command to a busy device. *)
Class AtaLaws (D : Type) `{AtaBus D} := {
  view : nat → D → cview;
  law_elapse i d : view i (elapse d) = progress (view i d);
  law_irq i d : irq_line (vec_of i) d = v_irq (view i d);
  (** reading the status acknowledges the interrupt, reading the alternate
      status does not *)
  law_status i d : status_ok (v_phase (view i d)) (fst (bus_in8 (base_of i + 7) d))
    ∧ view i (snd (bus_in8 (base_of i + 7) d)) = set_irq false (view i d);
  law_alt_status i d : status_ok (v_phase (view i d)) (fst (bus_in8 (base_of i + 0x206) d))
    ∧ view i (snd (bus_in8 (base_of i + 0x206) d)) = view i d;
  (** the registers of an idle device can be read and written *)
  law_in_reg i d r : 1 ≤ r ≤ 5 → v_phase (view i d) = Idle →
    fst (bus_in8 (base_of i + r) d) = get_reg r (view i d)
    ∧ view i (snd (bus_in8 (base_of i + r) d)) = view i d;
  law_out_reg i d r x : 2 ≤ r ≤ 6 → v_phase (view i d) = Idle →
    view i (bus_out8 (base_of i + r) x d) = set_reg r x (view i d);
  (** a device that comes out of a reset ignores the device register *)
  law_out_busy i d x n : v_phase (view i d) = Busy n ResetDone → view i (bus_out8 (base_of i + 6) x d) = view i d;
  (** commands *)
  law_read i d secs s : v_phase (view i d) = Idle → v_nsect (view i d) = 1 → Z.testbit (v_device (view i d)) 6 = true →
    v_store (view i d) !! sel (view i d) = Some secs → secs !! Z.to_nat (lba (view i d)) = Some s →
    ∃ n, (n < BUSY_MAX)%nat ∧ view i (bus_out8 (base_of i + 7) 0x20 d) = set_phase (Busy n (ReadReady (words s))) (view i d);
  law_write i d secs s : v_phase (view i d) = Idle → v_nsect (view i d) = 1 → Z.testbit (v_device (view i d)) 6 = true →
    v_store (view i d) !! sel (view i d) = Some secs → secs !! Z.to_nat (lba (view i d)) = Some s →
    ∃ n, (n < BUSY_MAX)%nat ∧ view i (bus_out8 (base_of i + 7) 0x30 d) = set_phase (Busy n (WriteReady (lba (view i d)))) (view i d);
  law_identify i d ws : v_phase (view i d) = Idle → v_ident (view i d) !! sel (view i d) = Some ws →
    ∃ n, (n < BUSY_MAX)%nat ∧ view i (bus_out8 (base_of i + 7) 0xec d) = set_phase (Busy n (ReadReady ws)) (view i d);
  (** data *)
  law_data_in i d w ws : v_phase (view i d) = DataIn (w :: ws) →
    fst (bus_in16 (base_of i) d) = w
    ∧ view i (snd (bus_in16 (base_of i) d)) = set_phase (match ws with [] => Idle | _ => DataIn ws end) (view i d);
  law_data_out i d n ws w : v_phase (view i d) = DataOut n ws → (length ws < 255)%nat →
    view i (bus_out16 (base_of i) w d) = set_phase (DataOut n (ws ++ [w])) (view i d);
  law_data_last i d n ws w : v_phase (view i d) = DataOut n ws → length ws = 255%nat →
    ∃ k, (k < BUSY_MAX)%nat ∧ view i (bus_out16 (base_of i) w d) = set_phase (Busy k (WriteDone n (ws ++ [w]))) (view i d);
  (** software reset: while the bit is set, and after it *)
  law_ctl i d : v_phase (view i d) = Idle → view i (bus_out8 (base_of i + 0x206) 0 d) = view i d;
  law_reset i d : v_phase (view i d) = Idle → view i (bus_out8 (base_of i + 0x206) 4 d) = set_phase InReset (view i d);
  law_reset_end i d : v_phase (view i d) = InReset →
    ∃ n, (n < BUSY_MAX)%nat ∧ view i (bus_out8 (base_of i + 0x206) 0 d) = set_phase (Busy n ResetDone) (view i d);
  (** the channels are independent *)
  law_frame_in8 i d r : (i < 2)%nat → is_reg r → view (other i) (snd (bus_in8 (base_of i + r) d)) = view (other i) d;
  law_frame_in16 i d r : (i < 2)%nat → is_reg r → view (other i) (snd (bus_in16 (base_of i + r) d)) = view (other i) d;
  law_frame_out8 i d r x : (i < 2)%nat → is_reg r → view (other i) (bus_out8 (base_of i + r) x d) = view (other i) d;
  law_frame_out16 i d r x : (i < 2)%nat → is_reg r → view (other i) (bus_out16 (base_of i + r) x d) = view (other i) d }.

(** ** A simulated controller *)

(** Every command takes three units of time. *)
Definition LATENCY : nat := 2.

Definition sim_status (v : cview) : Z :=
  if is_busy (v_phase v) then 0x80 else if has_data (v_phase v) then 0x48 else 0x40.

Definition sim_in8 (r : Z) (v : cview) : Z * cview :=
  if r =? 7 then (sim_status v, set_irq false v)
  else if r =? 0x206 then (sim_status v, v)
  else (get_reg r v, v).

Definition sim_sector (v : cview) : option (list Z) := secs ← v_store v !! sel v; secs !! Z.to_nat (lba v).

Definition sim_command (x : Z) (v : cview) : cview :=
  if x =? 0x20 then match sim_sector v with Some s => set_phase (Busy LATENCY (ReadReady (words s))) v | None => v end
  else if x =? 0x30 then match sim_sector v with Some _ => set_phase (Busy LATENCY (WriteReady (lba v))) v | None => v end
  else if x =? 0xec then match v_ident v !! sel v with Some ws => set_phase (Busy LATENCY (ReadReady ws)) v | None => v end
  else v.

Definition sim_out8 (r x : Z) (v : cview) : cview :=
  match v_phase v with
  | Idle => if r =? 7 then sim_command x v
            else if r =? 0x206 then if x =? 4 then set_phase InReset v else v
            else set_reg r x v
  | InReset => if (r =? 0x206) && (x =? 0) then set_phase (Busy LATENCY ResetDone) v else v
  | _ => v
  end.

Definition sim_in16 (v : cview) : Z * cview :=
  match v_phase v with
  | DataIn (w :: ws) => (w, set_phase (match ws with [] => Idle | _ => DataIn ws end) v)
  | _ => (0, v)
  end.

Definition sim_out16 (w : Z) (v : cview) : cview :=
  match v_phase v with
  | DataOut n ws =>
    set_phase (if (length ws <? 255)%nat then DataOut n (ws ++ [w]) else Busy LATENCY (WriteDone n (ws ++ [w]))) v
  | _ => v
  end.

(** The channel and the register a port belongs to. *)
Definition decode (port : Z) : bool * Z :=
  if (0x1f0 <=? port) && (port <=? 0x1f7) || (port =? 0x3f6) then (false, port - 0x1f0) else (true, port - 0x170).

Record sim := Sim { sim0 : cview; sim1 : cview }.

Definition sim_read {A} (second : bool) (f : cview → A * cview) (s : sim) : A * sim :=
  if second then let '(x, v) := f (sim1 s) in (x, Sim (sim0 s) v)
  else let '(x, v) := f (sim0 s) in (x, Sim v (sim1 s)).
Definition sim_write (second : bool) (f : cview → cview) (s : sim) : sim :=
  if second then Sim (sim0 s) (f (sim1 s)) else Sim (f (sim0 s)) (sim1 s).

#[export] Instance sim_bus : AtaBus sim := {|
  bus_in8 p s := let '(c, r) := decode p in sim_read c (sim_in8 r) s;
  bus_in16 p s := let '(c, r) := decode p in sim_read c sim_in16 s;
  bus_out8 p x s := let '(c, r) := decode p in sim_write c (sim_out8 r x) s;
  bus_out16 p x s := let '(c, r) := decode p in sim_write c (sim_out16 x) s;
  elapse s := Sim (progress (sim0 s)) (progress (sim1 s));
  irq_line v s := if v =? 46 then v_irq (sim0 s) else v_irq (sim1 s) |}.

Definition sim_view (i : nat) (s : sim) : cview := match i with O => sim0 s | _ => sim1 s end.

Lemma decode_base i r : is_reg r → decode (base_of i + r) = (match i with O => false | _ => true end, r).
Proof.
  intros Hr. unfold decode, is_reg in *.
  assert (Hc : ((0x1f0 <=? base_of i + r) && (base_of i + r <=? 0x1f7) || (base_of i + r =? 0x3f6)) = match i with O => true | _ => false end).
  { destruct i; simpl; [apply orb_true_iff; rewrite andb_true_iff, !Z.leb_le, Z.eqb_eq|
      apply orb_false_iff; rewrite andb_false_iff, !Z.leb_gt, Z.eqb_neq]; lia. }
  rewrite Hc. destruct i; simpl; f_equal; lia.
Qed.

Lemma sim_read_view {A} i (f : cview → A * cview) s :
  let '(x, s') := sim_read (match i with O => false | _ => true end) f s in
  x = fst (f (sim_view i s)) ∧ sim_view i s' = snd (f (sim_view i s)) ∧ ((i < 2)%nat → sim_view (other i) s' = sim_view (other i) s).
Proof.
  unfold sim_read. destruct i as [|i]; simpl.
  - by destruct (f (sim0 s)).
  - destruct (f (sim1 s)); simpl. repeat split.
Qed.

Lemma sim_write_view i (f : cview → cview) s :
  let s' := sim_write (match i with O => false | _ => true end) f s in
  sim_view i s' = f (sim_view i s) ∧ ((i < 2)%nat → sim_view (other i) s' = sim_view (other i) s).
Proof. by destruct i. Qed.

(** A read or a write through a port of the channel. *)
Lemma sim_in8_view i r s : is_reg r →
  fst (bus_in8 (base_of i + r) s) = fst (sim_in8 r (sim_view i s))
  ∧ sim_view i (snd (bus_in8 (base_of i + r) s)) = snd (sim_in8 r (sim_view i s))
  ∧ ((i < 2)%nat → sim_view (other i) (snd (bus_in8 (base_of i + r) s)) = sim_view (other i) s).
Proof.
  intros Hr. cbn [bus_in8 sim_bus]. rewrite (decode_base i r Hr).
  pose proof (sim_read_view i (sim_in8 r) s) as Hv. by destruct (sim_read _ _ s).
Qed.

Lemma sim_in16_view i r s : is_reg r →
  fst (bus_in16 (base_of i + r) s) = fst (sim_in16 (sim_view i s))
  ∧ sim_view i (snd (bus_in16 (base_of i + r) s)) = snd (sim_in16 (sim_view i s))
  ∧ ((i < 2)%nat → sim_view (other i) (snd (bus_in16 (base_of i + r) s)) = sim_view (other i) s).
Proof.
  intros Hr. cbn [bus_in16 sim_bus]. rewrite (decode_base i r Hr).
  pose proof (sim_read_view i sim_in16 s) as Hv. by destruct (sim_read _ _ s).
Qed.

Lemma sim_out8_view i r x s : is_reg r →
  sim_view i (bus_out8 (base_of i + r) x s) = sim_out8 r x (sim_view i s)
  ∧ ((i < 2)%nat → sim_view (other i) (bus_out8 (base_of i + r) x s) = sim_view (other i) s).
Proof. intros Hr. cbn [bus_out8 sim_bus]. rewrite (decode_base i r Hr). apply sim_write_view. Qed.

Lemma sim_out16_view i r x s : is_reg r →
  sim_view i (bus_out16 (base_of i + r) x s) = sim_out16 x (sim_view i s)
  ∧ ((i < 2)%nat → sim_view (other i) (bus_out16 (base_of i + r) x s) = sim_view (other i) s).
Proof. intros Hr. cbn [bus_out16 sim_bus]. rewrite (decode_base i r Hr). apply sim_write_view. Qed.

Lemma sim_status_ok v : status_ok (v_phase v) (sim_status v).
Proof. unfold sim_status, status_ok. by destruct (v_phase v). Qed.

Lemma latency_ok : (LATENCY < BUSY_MAX)%nat.
Proof. unfold LATENCY, BUSY_MAX. lia. Qed.

#[export] Instance sim_laws : AtaLaws sim.
Proof.
  refine {| view := sim_view |}.
  - by intros [].
  - by intros [].
  - intros i d. destruct (sim_in8_view i 7 d) as (-> & -> & _); [left; lia|]. split; [apply sim_status_ok|done].
  - intros i d. destruct (sim_in8_view i 0x206 d) as (-> & -> & _); [by right|]. split; [apply sim_status_ok|done].
  - intros i d r Hr _. destruct (sim_in8_view i r d) as (-> & -> & _); [left; lia|]. unfold sim_in8.
    rewrite (proj2 (Z.eqb_neq r 7)), (proj2 (Z.eqb_neq r 0x206)) by lia. done.
  - intros i d r x Hr Hi. destruct (sim_out8_view i r x d) as [-> _]; [left; lia|]. unfold sim_out8. rewrite Hi.
    by rewrite (proj2 (Z.eqb_neq r 7)), (proj2 (Z.eqb_neq r 0x206)) by lia.
  - intros i d x n Hi. destruct (sim_out8_view i 6 x d) as [-> _]; [left; lia|]. unfold sim_out8. by rewrite Hi.
  - intros i d secs s Hi _ _ H1 H2. destruct (sim_out8_view i 7 0x20 d) as [-> _]; [left; lia|]. unfold sim_out8. rewrite Hi. simpl.
    unfold sim_command, sim_sector. simpl. rewrite H1. simpl. rewrite H2. eexists. split; [apply latency_ok|done].
  - intros i d secs s Hi _ _ H1 H2. destruct (sim_out8_view i 7 0x30 d) as [-> _]; [left; lia|]. unfold sim_out8. rewrite Hi. simpl.
    unfold sim_command, sim_sector. simpl. rewrite H1. simpl. rewrite H2. eexists. split; [apply latency_ok|done].
  - intros i d ws Hi H1. destruct (sim_out8_view i 7 0xec d) as [-> _]; [left; lia|]. unfold sim_out8. rewrite Hi. simpl.
    unfold sim_command. simpl. rewrite H1. eexists. split; [apply latency_ok|done].
  - intros i d w ws Hi. destruct (sim_in16_view i 0 d) as (H1 & H2 & _); [left; lia|]. rewrite Z.add_0_r in H1, H2. rewrite H1, H2.
    unfold sim_in16. by rewrite Hi.
  - intros i d n ws w Hi Hl. destruct (sim_out16_view i 0 w d) as [H1 _]; [left; lia|]. rewrite Z.add_0_r in H1. rewrite H1.
    unfold sim_out16. rewrite Hi. by rewrite (proj2 (Nat.ltb_lt _ _) Hl).
  - intros i d n ws w Hi Hl. destruct (sim_out16_view i 0 w d) as [H1 _]; [left; lia|]. rewrite Z.add_0_r in H1. rewrite H1.
    unfold sim_out16. rewrite Hi. rewrite (proj2 (Nat.ltb_ge _ _)) by lia. eexists. split; [apply latency_ok|done].
  - intros i d Hi. destruct (sim_out8_view i 0x206 0 d) as [-> _]; [by right|]. unfold sim_out8. by rewrite Hi.
  - intros i d Hi. destruct (sim_out8_view i 0x206 4 d) as [-> _]; [by right|]. unfold sim_out8. by rewrite Hi.
  - intros i d Hi. destruct (sim_out8_view i 0x206 0 d) as [-> _]; [by right|]. unfold sim_out8. rewrite Hi.
    eexists. split; [apply latency_ok|done].
  - intros i d r Hi Hr. by apply sim_in8_view.
  - intros i d r Hi Hr. by apply sim_in16_view.
  - intros i d r x Hi Hr. by apply sim_out8_view.
  - intros i d r x Hi Hr. by apply sim_out16_view.
Defined.

End DiskSpec.
