(* ===== verification/DiskLogic.v ===== *)
(** A small program logic for the disk driver: triples about the channel a
    thread works on, as the driver and as the hardware see it, that hold
    whatever time passes between two instructions and whenever the interrupts
    come. *)
From S2P Require Import Prelude KState Interrupt StdlibC Stdio IntrTable Disk DiskSpec.
Import Ports IntrTable Stdio Disk DiskSpec.
Local Open Scope Z_scope.

Module DiskLogic.

(** ** The driver's data *)

Definition chan_name (i : nat) : list Z := match i with O => lit "hd0" | _ => lit "hd1" end.
Definition disk_name (i j : nat) : list Z :=
  match i, j with
  | O, O => lit "hd0:0" | O, _ => lit "hd0:1" | _, O => lit "hd1:0" | _, _ => lit "hd1:1"
  end.

Definition disk_ok (i j : nat) (x : disk) : Prop := d_name x = disk_name i j ∧ d_channel x = i ∧ dev_no x = Z.of_nat j.

Record chan_ok (i : nat) (c : channel) : Prop := {
  co_name : c_name c = chan_name i;
  co_base : reg_base c = base_of i;
  co_irq : irq c = vec_of i;
  co_devs : ∃ x0 x1, devices c = [x0; x1] ∧ disk_ok i 0 x0 ∧ disk_ok i 1 x1 }.

(** A channel on which nothing happens. *)
Definition resting (v : cview) : Prop := v_phase v = Idle ∧ v_irq v = false.

Section laws.
Context {D : Type} `{AtaLaws D}.
Local Notation world := (@world D).

Record sees (i : nat) (w : world) (c : channel) (v : cview) : Prop := {
  se_lt : (i < 2)%nat;
  se_len : length (channels w) = 2%nat;
  se_chan : channels w !! i = Some c;
  se_ok : chan_ok i c;
  se_view : view i (hw w) = v;
  se_on : irq_on w = true;
  se_cur : cur w ≠ NULL;
  se_hold : holder c = NULL ∨ holder c = cur w;
  se_other : ∃ c', channels w !! other i = Some c' ∧ irq c' ≠ vec_of i;
  se_rest : resting (view (other i) (hw w)) }.

(** What work on a channel leaves alone. *)
Record frame (i : nat) (w w' : world) : Prop := {
  fr_chan : channels w' !! other i = channels w !! other i;
  fr_view : view (other i) (hw w') = view (other i) (hw w);
  fr_cur : cur w' = cur w;
  fr_table : table w' = table w }.

#[export] Instance frame_preorder i : PreOrder (frame i).
Proof. split; [by split|]. intros w1 w2 w3 [] []. split; congruence. Qed.

(** ** Triples *)

Definition triple {A} (i : nat) (P : channel → cview → Prop) (m : st world A) (Q : A → channel → cview → Prop) : Prop :=
  ∀ w c v, sees i w c v → P c v →
  ∃ a w' c' v', m w = Ok (a, w') ∧ sees i w' c' v' ∧ frame i w w' ∧ Q a c' v'.

Lemma triple_bind {A B} i P (m : st world A) Q (f : A → st world B) R :
  triple i P m Q → (∀ a, triple i (Q a) (f a) R) → triple i P (m ≫= f) R.
Proof.
  intros Hm Hf w c v Hs HP. destruct (Hm w c v Hs HP) as (a & w1 & c1 & v1 & E1 & Hs1 & Hf1 & HQ).
  destruct (Hf a w1 c1 v1 Hs1 HQ) as (b & w2 & c2 & v2 & E2 & Hs2 & Hf2 & HR).
  exists b, w2, c2, v2. split; [by rewrite (st_bind_ok _ _ _ _ _ E1)|]. split; [done|]. split; [by etrans|done].
Qed.

Lemma triple_conseq {A} i (P P' : channel → cview → Prop) (m : st world A) (Q Q' : A → channel → cview → Prop) :
  (∀ c v, P c v → P' c v) → (∀ a c v, Q' a c v → Q a c v) → triple i P' m Q' → triple i P m Q.
Proof.
  intros HP HQ Hm w c v Hs Hp. destruct (Hm w c v Hs (HP c v Hp)) as (a & w' & c' & v' & ? & ? & ? & ?).
  exists a, w', c', v'. auto.
Qed.

Lemma triple_pre {A} i (P : channel → cview → Prop) (m : st world A) Q :
  (∀ c v, P c v → triple i (λ c' v', c' = c ∧ v' = v) m Q) → triple i P m Q.
Proof. intros Hm w c v Hs HP. by apply (Hm c v HP w c v). Qed.

(** Steps that only look. *)
Lemma triple_look {A} i (P : channel → cview → Prop) (m : st world A) Q :
  (∀ w c v, sees i w c v → P c v → ∃ a, m w = Ok (a, w) ∧ Q a c v) → triple i P m Q.
Proof. intros Hm w c v Hs HP. destruct (Hm w c v Hs HP) as (a & E & HQ). exists a, w, c, v. by split. Qed.

Lemma triple_ret {A} i (P : channel → cview → Prop) (a : A) Q : (∀ c v, P c v → Q a c v) → triple i P (mret a) Q.
Proof. intros HQ. apply triple_look. eauto. Qed.

Lemma triple_pure {A} i (φ : Prop) (P : channel → cview → Prop) (m : st world A) Q :
  (φ → triple i P m Q) → triple i (λ c v, φ ∧ P c v) m Q.
Proof. intros Hm w c v Hs [Hφ HP]. by apply (Hm Hφ w c v). Qed.

Lemma triple_assert i (b : bool) (P : channel → cview → Prop) : b = true → triple i P (ASSERT b) (λ _, P).
Proof. intros ->. apply triple_look. intros. by exists tt. Qed.

(** Steps that touch neither the channels nor the hardware. *)
Lemma triple_silent i (f : world → world) (P : channel → cview → Prop) :
  (∀ w, channels (f w) = channels w ∧ hw (f w) = hw w ∧ irq_on (f w) = irq_on w ∧ cur (f w) = cur w ∧ table (f w) = table w) →
  triple i P (st_modify f) (λ _, P).
Proof.
  intros Hf w c v Hs HP. destruct (Hf w) as (E1 & E2 & E3 & E4 & E5). exists tt, (f w), c, v.
  split; [done|]. split; [destruct Hs; split; by rewrite ?E1, ?E2, ?E3, ?E4|]. split; [split; by rewrite ?E1, ?E2|done].
Qed.

Lemma triple_printf i fmt args out (P : channel → cview → Prop) :
  Stdio.printf (lit fmt) args = Ok out → triple i P (printf fmt args) (λ _, P).
Proof.
  intros Hp. unfold printf. rewrite Hp. eapply triple_bind; [apply (triple_ret i P out (λ _, P)); done|].
  intros o. by apply triple_silent.
Qed.

Lemma triple_get_channel i (P : channel → cview → Prop) : triple i P (get_channel i) (λ c0 c v, c0 = c ∧ chan_ok i c ∧ P c v).
Proof.
  apply triple_look. intros w c v Hs HP. exists c. unfold get_channel. rewrite (se_chan _ _ _ _ Hs).
  split; [done|]. split; [done|]. split; [apply Hs|done].
Qed.

Lemma triple_put_channel i c0 (P : channel → cview → Prop) (Q : cview → Prop) :
  chan_ok i c0 → (∀ c v, P c v → holder c0 = holder c ∧ Q v) → triple i P (put_channel i c0) (λ _ c v, c = c0 ∧ Q v).
Proof.
  intros Hc HP w c v Hs Hp. apply HP in Hp as [Hh HQ]. exists tt, (set_channels (<[i := c0]> (channels w)) w), c0, v.
  assert (Hne : i ≠ other i) by (by destruct i as [|[]]).
  split; [done|]. split; [|split; [split; simpl; [by rewrite list_lookup_insert_ne|done..]|]; split; [done|eauto]].
  destruct Hs as [H1 H2 H3 H4 H5 H6 Hcu Hho H7 H8]. split; simpl; try done.
  - by rewrite length_insert.
  - apply list_lookup_insert_eq. lia.
  - by rewrite Hh.
  - by rewrite list_lookup_insert_ne.
Qed.

(** ** Time and interrupts *)

(** One unit of time: the hardware moves on, and the interrupt it raises, if it
    does, is taken. *)
Definition after_unit (c : channel) (v : cview) : channel * cview :=
  let v' := progress v in
  if v_irq v' then (set_completion (u32 (completion_wait c + 1)) c, set_irq false v') else (c, v').

(** No interrupt is pending, and none comes that the driver does not expect. *)
Definition calm (c : channel) (v : cview) : Prop :=
  v_irq v = false ∧ (expecting_interrupt c = true ∨ v_irq (progress v) = false).

(** An assertion that the passing of time cannot make false. *)
Definition lasting (P : channel → cview → Prop) : Prop :=
  ∀ c v, P c v → calm c v ∧ P (fst (after_unit c v)) (snd (after_unit c v)).

Lemma other_lt i : (i < 2)%nat → (other i < 2)%nat ∧ other (other i) = i.
Proof. destruct i as [|[]]; simpl; lia. Qed.

Lemma chan_ok_completion i c n : chan_ok i c → chan_ok i (set_completion n c).
Proof. by intros []. Qed.

Lemma handler_ok i (w : world) c v :
  sees i w c v → expecting_interrupt c = true →
  ∃ w', interrupt_handler (vec_of i) w = Ok (tt, w')
    ∧ sees i w' (set_completion (u32 (completion_wait c + 1)) c) (set_irq false v) ∧ frame i w w'.
Proof.
  intros Hs He. pose proof Hs as [H1 H2 H3 H4 H5 H6 Hcu Hho (c' & Hc' & Hirq) H8].
  assert (Hne : i ≠ other i) by (by destruct i as [|[]]).
  assert (Hh : interrupt_handler (vec_of i) w
    = (_ ← raw_in8 (reg_status c); modify_channel i (λ c, set_completion (u32 (completion_wait c + 1)) c)) w).
  { assert (Hi : (vec_of i =? irq c) = true) by (rewrite (co_irq _ _ H4); apply Z.eqb_refl).
    unfold interrupt_handler, CHANNEL_CNT. cbn [handler_loop]. destruct i as [|[|i]]; [| |lia].
    - unfold mbind at 1, st_bind at 1, get_channel at 1. rewrite H3. by rewrite Hi, He.
    - unfold mbind at 1, st_bind at 1, get_channel at 1. simpl in Hc'. rewrite Hc'.
      rewrite (proj2 (Z.eqb_neq _ _)) by done. unfold mbind at 1, st_bind at 1, get_channel at 1. rewrite H3. by rewrite Hi, He. }
  rewrite Hh. unfold mbind at 1, st_bind at 1, raw_in8, reg_status. rewrite (co_base _ _ H4).
  pose proof (law_status i (hw w)) as [_ Hv].
  assert (Hf : view (other i) (snd (bus_in8 (base_of i + 7) (hw w))) = view (other i) (hw w)) by (apply law_frame_in8; [done|left; lia]).
  destruct (bus_in8 (base_of i + 7) (hw w)) as [x d]. simpl in Hv, Hf.
  unfold modify_channel, mbind, st_bind, get_channel. simpl. rewrite H3. unfold put_channel, st_modify. simpl.
  eexists. split; [reflexivity|]. split; [|split; simpl; [by rewrite list_lookup_insert_ne|done..]].
  split; simpl; try done.
  - by rewrite length_insert.
  - apply list_lookup_insert_eq. lia.
  - by apply chan_ok_completion.
  - congruence.
  - exists c'. by rewrite list_lookup_insert_ne.
  - by rewrite Hf.
Qed.

Lemma unit_ok i (w : world) c v :
  sees i w c v → calm c v →
  ∃ w', unit_of_time w = Ok (tt, w') ∧ sees i w' (fst (after_unit c v)) (snd (after_unit c v)) ∧ frame i w w'.
Proof.
  intros Hs [Hirq Hcalm]. pose proof Hs as [H1 H2 H3 H4 H5 H6 Hcu Hho H7 [H8 H9]].
  set (w1 := set_hw (elapse (hw w)) w).
  assert (Hs1 : sees i w1 c (progress v)).
  { split; simpl; try done; [by rewrite law_elapse, H5|]. rewrite law_elapse. unfold progress. by rewrite H8. }
  assert (Hf1 : frame i w w1). { split; simpl; try done. rewrite law_elapse. unfold progress. by rewrite H8. }
  assert (Hi : irq_line (vec_of i) (hw w1) = v_irq (progress v)) by (by rewrite law_irq, (se_view _ _ _ _ Hs1)).
  assert (Hno : ∀ (w2 : world) c2 v2, sees i w2 c2 v2 → irq_line (vec_of (other i)) (hw w2) = false)
    by (intros w2 c2 v2 Hs2; rewrite law_irq; apply (se_rest _ _ _ _ Hs2)).
  assert (Hour : ∃ w2, (if irq_on w1 && irq_line (vec_of i) (hw w1) then interrupt_handler (vec_of i) else mret tt) w1 = Ok (tt, w2)
    ∧ sees i w2 (fst (after_unit c v)) (snd (after_unit c v)) ∧ frame i w w2).
  { rewrite Hi, (se_on _ _ _ _ Hs1). unfold after_unit. destruct (v_irq (progress v)); simpl.
    - destruct Hcalm as [He|]; [|done]. destruct (handler_ok i w1 c _ Hs1 He) as (w2 & E & Hs2 & Hf2).
      exists w2. split; [done|]. split; [done|by etrans].
    - by exists w1. }
  destruct Hour as (w2 & E2 & Hs2 & Hf2). exists w2. split; [|done].
  unfold unit_of_time. unfold mbind at 1, st_bind at 1, st_modify at 1. fold w1.
  cbn [deliver]. unfold mbind, st_bind, st_get.
  destruct i as [|[|i]]; [| |lia]; cbn [vec_of other] in *; change (14 + 0x20) with 46; change (15 + 0x20) with 47.
  - rewrite E2. rewrite (Hno w2 _ _ Hs2), andb_false_r. done.
  - rewrite (Hno w1 _ _ Hs1), andb_false_r.
    unfold mret at 1, st_ret at 1. cbv iota beta.
    rewrite E2. done.
Qed.

Lemma triple_unit i P : lasting P → triple i P unit_of_time (λ _, P).
Proof.
  intros HP w c v Hs Hp. destruct (HP c v Hp) as [Hc Hn]. destruct (unit_ok i w c v Hs Hc) as (w' & E & Hs' & Hf).
  exists tt, w', (fst (after_unit c v)), (snd (after_unit c v)). auto.
Qed.

Lemma triple_units i P n : lasting P → triple i P (units n) (λ _, P).
Proof.
  intros HP. induction n as [|n IH]; simpl; [by apply triple_ret|]. eapply triple_bind; [by apply triple_unit|]. by intros [].
Qed.

Lemma triple_pause i P : lasting P → triple i P pause (λ _, P).
Proof.
  intros HP. unfold pause. eapply triple_bind.
  - apply (triple_look i P _ (λ _, P)). intros w c v Hs Hp. by exists (delays w).
  - intros [|n l]; [by apply triple_ret|]. eapply triple_bind; [by apply triple_silent|]. intros []. by apply triple_units.
Qed.

Lemma triple_on i (P : channel → cview → Prop) : triple i P assert_on (λ _, P).
Proof.
  apply triple_look. intros w c v Hs HP. exists tt. unfold assert_on, mbind, st_bind, st_gets. by rewrite (se_on _ _ _ _ Hs).
Qed.

Lemma triple_msleep i P n : lasting P → triple i P (sleep_ms n) (λ _, P).
Proof.
  intros HP. eapply triple_bind; [apply triple_on|]. intros []. eapply triple_bind; [by apply triple_unit|]. intros [].
  by apply triple_pause.
Qed.

Lemma triple_usleep i P n : lasting P → triple i P (sleep_us n) (λ _, P).
Proof. intros HP. eapply triple_bind; [apply triple_on|]. intros []. by apply triple_pause. Qed.

Lemma triple_nsleep i P n : lasting P → triple i P (sleep_ns n) (λ _, P).
Proof. intros HP. eapply triple_bind; [apply triple_on|]. intros []. by apply triple_pause. Qed.

(** ** Ports *)

Definition is_ (c : channel) (v : cview) : channel → cview → Prop := λ c' v', c' = c ∧ v' = v.

Definition still (p : phase) : Prop := match p with Busy _ _ => False | _ => True end.

Lemma progress_still v : still (v_phase v) → progress v = v.
Proof. unfold progress. by destruct (v_phase v). Qed.

Lemma lasting_is c v : v_irq v = false → still (v_phase v) → lasting (is_ c v).
Proof.
  intros Hi Hs c' v' [-> ->]. unfold calm, after_unit. rewrite (progress_still v Hs), Hi. by repeat split; auto.
Qed.

Lemma set_irq_same v : v_irq v = false → set_irq false v = v.
Proof. destruct v; simpl; by intros ->. Qed.

Lemma sees_hw i (w : world) c v d v' :
  sees i w c v → view i d = v' → view (other i) d = view (other i) (hw w) →
  sees i (set_hw d w) c v' ∧ frame i w (set_hw d w).
Proof. intros [] Hv Ho. split; [split; simpl; try done; by rewrite Ho|by split]. Qed.

Lemma status_byte p x : status_ok p x → u8 x = x.
Proof. intros [Hx _]. by apply u8_small. Qed.

Lemma triple_alt i P : lasting P → triple i P (inb (base_of i + 0x206)) (λ x c v, status_ok (v_phase v) x ∧ P c v).
Proof.
  intros HP. eapply triple_bind; [by apply triple_pause|]. intros []. intros w c v Hs Hp. unfold raw_in8.
  pose proof (law_alt_status i (hw w)) as [Hx Hv]. rewrite (se_view _ _ _ _ Hs) in Hx, Hv.
  pose proof (law_frame_in8 i (hw w) 0x206 (se_lt _ _ _ _ Hs) (or_intror eq_refl)) as Ho.
  destruct (bus_in8 (base_of i + 0x206) (hw w)) as [x d]. simpl in Hx, Hv, Ho.
  destruct (sees_hw i w c v d v Hs Hv Ho). exists (u8 x), (set_hw d w), c, v. by rewrite (status_byte _ _ Hx).
Qed.

Lemma triple_status i P : lasting P → triple i P (inb (base_of i + 7)) (λ x c v, status_ok (v_phase v) x ∧ P c v).
Proof.
  intros HP. eapply triple_bind; [by apply triple_pause|]. intros []. intros w c v Hs Hp. unfold raw_in8.
  pose proof (law_status i (hw w)) as [Hx Hv]. rewrite (se_view _ _ _ _ Hs) in Hx, Hv.
  rewrite set_irq_same in Hv by apply (HP c v Hp).
  assert (Ho : view (other i) (snd (bus_in8 (base_of i + 7) (hw w))) = view (other i) (hw w)) by (apply law_frame_in8; [apply Hs|left; lia]).
  destruct (bus_in8 (base_of i + 7) (hw w)) as [x d]. simpl in Hx, Hv, Ho.
  destruct (sees_hw i w c v d v Hs Hv Ho). exists (u8 x), (set_hw d w), c, v. by rewrite (status_byte _ _ Hx).
Qed.

Lemma triple_in_reg i r c v : 1 ≤ r ≤ 5 → resting v →
  triple i (is_ c v) (inb (base_of i + r)) (λ x c' v', x = u8 (get_reg r v) ∧ is_ c v c' v').
Proof.
  intros Hr [Hp Hi]. eapply triple_bind; [apply triple_pause, lasting_is; [done|by rewrite Hp]|]. intros [].
  intros w c' v' Hs [-> ->]. unfold raw_in8. destruct (law_in_reg i (hw w) r Hr) as [Hx Hv]; [by rewrite (se_view _ _ _ _ Hs)|].
  rewrite (se_view _ _ _ _ Hs) in Hx, Hv.
  assert (Ho : view (other i) (snd (bus_in8 (base_of i + r) (hw w))) = view (other i) (hw w)) by (apply law_frame_in8; [apply Hs|left; lia]).
  destruct (bus_in8 (base_of i + r) (hw w)) as [x d]. simpl in Hx, Hv, Ho.
  destruct (sees_hw i w c v d v Hs Hv Ho). exists (u8 x), (set_hw d w), c, v. by rewrite Hx.
Qed.

(** A write to a register of which a law says what it does. *)
Lemma triple_outb i r x (P Q : channel → cview → Prop) :
  is_reg r → lasting P →
  (∀ d c v, view i d = v → P c v → Q c (view i (bus_out8 (base_of i + r) (u8 x) d))) →
  triple i P (outb (base_of i + r) x) (λ _, Q).
Proof.
  intros Hr HP HQ. eapply triple_bind; [by apply triple_pause|]. intros [] w c v Hs Hp.
  destruct (sees_hw i w c v (bus_out8 (base_of i + r) (u8 x) (hw w)) _ Hs eq_refl) as [Hs' Hf'];
    [by apply law_frame_out8; [apply Hs|]|].
  eexists tt, _, c, _. split; [reflexivity|]. split; [exact Hs'|]. split; [exact Hf'|]. apply (HQ (hw w) c v); [apply Hs|done].
Qed.

Lemma triple_out_reg i r x c v : 2 ≤ r ≤ 6 → resting v →
  triple i (is_ c v) (outb (base_of i + r) x) (λ _, is_ c (set_reg r (u8 x) v)).
Proof.
  intros Hr [Hp Hi]. apply triple_outb; [left; lia|apply lasting_is; [done|by rewrite Hp]|].
  intros d c' v' Hv [-> ->]. split; [done|]. rewrite law_out_reg; [by rewrite Hv|done|by rewrite Hv].
Qed.

Lemma resting_set_reg r x v : resting v → resting (set_reg r x v).
Proof. by intros [H1 H2]. Qed.

(** ** The driver's own data *)

Lemma triple_get_disk i j (P : channel → cview → Prop) : (j < 2)%nat →
  triple i P (get_disk (i, j)) (λ x c v, devices c !! j = Some x ∧ disk_ok i j x ∧ P c v).
Proof.
  intros Hj. apply triple_look. intros w c v Hs HP. unfold get_disk, mbind, st_bind, get_channel. simpl.
  rewrite (se_chan _ _ _ _ Hs). destruct (co_devs _ _ (se_ok _ _ _ _ Hs)) as (x0 & x1 & -> & H0' & H1').
  destruct j as [|[|j]]; [exists x0|exists x1|lia]; done.
Qed.

Lemma disk_insert_ok i j c x : (j < 2)%nat → chan_ok i c → disk_ok i j x →
  chan_ok i (Channel (c_name c) (reg_base c) (irq c) (holder c) (expecting_interrupt c) (completion_wait c) (<[j := x]> (devices c))).
Proof.
  intros Hj [H1' H2' H3' (x0 & x1 & E & D0 & D1)] Hx. split; simpl; try done. rewrite E.
  destruct j as [|[|j]]; simpl; [by exists x, x1|by exists x0, x|lia].
Qed.

Lemma triple_modify_disk i j f c v x : (j < 2)%nat → devices c !! j = Some x → (∀ y, disk_ok i j y → disk_ok i j (f y)) →
  triple i (is_ c v) (modify_disk (i, j) f)
    (λ _, is_ (Channel (c_name c) (reg_base c) (irq c) (holder c) (expecting_interrupt c) (completion_wait c) (<[j := f x]> (devices c))) v).
Proof.
  intros Hj Hx Hf. eapply triple_bind; [by apply triple_get_disk|]. intros y. apply triple_pre. intros c' v' (Hy & Hd & -> & ->).
  assert (y = x) as -> by congruence. unfold put_disk. eapply triple_bind; [apply triple_get_channel|]. intros c'. simpl.
  apply triple_pre. intros c2 v2 (-> & Hc & -> & ->). eapply triple_conseq; [| |apply (triple_put_channel i _ (is_ c v) (λ v', v' = v))]; [done|done| |].
  - apply disk_insert_ok; auto.
  - by intros ? ? [-> ->].
Qed.

Lemma chan_ok_set i c h b n : chan_ok i c → chan_ok i (set_holder h c) ∧ chan_ok i (set_expecting b c) ∧ chan_ok i (set_completion n c).
Proof. by intros []. Qed.

Lemma triple_modify i f c v : chan_ok i (f c) → holder (f c) = holder c → triple i (is_ c v) (modify_channel i f) (λ _, is_ (f c) v).
Proof.
  intros Hf Hh. eapply triple_bind; [apply triple_get_channel|]. intros c'. apply triple_pre. intros c2 v2 (-> & _ & -> & ->).
  eapply triple_conseq; [| |apply (triple_put_channel i _ (is_ c v) (λ v', v' = v))]; [done|done|done|]. by intros ? ? [-> ->].
Qed.

Lemma triple_acquire i c v : holder c = NULL →
  triple i (is_ c v) (channel_acquire i) (λ _ c' v', ∃ h, h ≠ NULL ∧ is_ (set_holder h c) v c' v').
Proof.
  intros Hh w c' v' Hs [-> ->]. pose proof Hs as [H1 H2 H3 H4 H5 H6 Hcu Hho H7 H8].
  assert (Hne : i ≠ other i) by (by destruct i as [|[]]).
  unfold channel_acquire, mbind, st_bind, st_get, get_channel. rewrite H3, Hh.
  rewrite (proj2 (Z.eqb_neq NULL (cur w))) by done. simpl. eexists tt, _, _, v. split; [reflexivity|].
  split; [|split; [split; simpl; [by rewrite list_lookup_insert_ne|done..]|by exists (cur w)]].
  split; simpl; try done; [by rewrite length_insert|apply list_lookup_insert_eq; lia|by apply (chan_ok_set i c _ true 0 H4)|by right|by rewrite list_lookup_insert_ne].
Qed.

Lemma triple_release i c v : holder c ≠ NULL → triple i (is_ c v) (channel_release i) (λ _, is_ (set_holder NULL c) v).
Proof.
  intros Hh w c' v' Hs [-> ->]. pose proof Hs as [H1 H2 H3 H4 H5 H6 Hcu Hho H7 H8].
  assert (Hne : i ≠ other i) by (by destruct i as [|[]]). assert (holder c = cur w) as Hw by (by destruct Hho).
  unfold channel_release, mbind, st_bind, st_get, get_channel. rewrite H3, Hw, Z.eqb_refl. simpl.
  eexists tt, _, _, v. split; [reflexivity|].
  split; [|split; [split; simpl; [by rewrite list_lookup_insert_ne|done..]|done]].
  split; simpl; try done; [by rewrite length_insert|apply list_lookup_insert_eq; lia|by apply (chan_ok_set i c _ true 0 H4)|by left|by rewrite list_lookup_insert_ne].
Qed.

End laws.
End DiskLogic.
