(* ===== verification/DiskDriver.v ===== *)
(** The specifications of the disk driver's functions, from the low-level
    primitives to reading and writing a sector. *)
From S2P Require Import Prelude KState Interrupt StdlibC Stdio IntrTable Disk DiskSpec DiskLogic.
Import Ports IntrTable Stdio Disk DiskSpec DiskLogic.
Local Open Scope Z_scope.

Module DiskDriver.

(** ** Bits of bytes, by running through all of them *)

Lemma all_bytes (f : Z → bool) : forallb f (Z.of_nat <$> seq 0 256) = true → ∀ x, 0 ≤ x < 256 → f x = true.
Proof.
  intros Hf x Hx. rewrite forallb_forall in Hf. apply Hf, list_elem_of_In, list_elem_of_fmap.
  exists (Z.to_nat x). rewrite elem_of_seq. lia.
Qed.

Lemma status_bits x : 0 ≤ x < 256 →
  (Z.land x STA_BSY =? 0) = negb (Z.testbit x 7) ∧ (Z.land x STA_DRQ =? 0) = negb (Z.testbit x 3)
  ∧ (Z.land x STA_DRDY =? 0) = negb (Z.testbit x 6)
  ∧ (Z.land x (Z.lor STA_BSY STA_DRQ) =? 0) = negb (Z.testbit x 7) && negb (Z.testbit x 3).
Proof.
  intros Hx. apply (all_bytes (λ x, eqb (Z.land x STA_BSY =? 0) (negb (Z.testbit x 7)) && eqb (Z.land x STA_DRQ =? 0) (negb (Z.testbit x 3))
    && eqb (Z.land x STA_DRDY =? 0) (negb (Z.testbit x 6))
    && eqb (Z.land x (Z.lor STA_BSY STA_DRQ) =? 0) (negb (Z.testbit x 7) && negb (Z.testbit x 3)))) in Hx; [|by vm_compute].
  rewrite !andb_true_iff, !eqb_true_iff in Hx. tauto.
Qed.

Lemma words_length bs n : length bs = (2 * n)%nat → length (words bs) = n.
Proof.
  revert n. assert (Hk : ∀ k bs n, (length bs ≤ k)%nat → length bs = (2 * n)%nat → length (words bs) = n).
  { induction k as [|k IH]; intros l n Hl Hn; [by destruct l, n; simpl in *; try lia|].
    destruct l as [|lo [|hi l]]; simpl in *; [by destruct n; [|lia]|lia|].
    destruct n as [|n]; [lia|]. f_equal. apply IH; lia. }
  intros n. by apply (Hk (length bs)).
Qed.

Lemma u8_pair lo hi : byte lo → byte hi → u8 (lo + 256 * hi) = lo ∧ u8 (Z.shiftr (lo + 256 * hi) 8) = hi ∧ 0 ≤ lo + 256 * hi < 65536.
Proof.
  unfold byte, u8. intros Hl Hh. rewrite Z.shiftr_div_pow2 by lia. change (2 ^ 8) with 256.
  split; [rewrite (Z.mul_comm 256 hi), Z.mod_add by lia; apply Z.mod_small; lia|]. split; [|lia].
  rewrite (Z.mul_comm 256 hi), Z.div_add, (Z.div_small lo) by lia. apply Z.mod_small. lia.
Qed.

Lemma bytes_words bs : Forall byte bs → Nat.Even (length bs) → bytes (words bs) = bs ∧ Forall (λ w, 0 ≤ w < 65536) (words bs).
Proof.
  assert (Hk : ∀ k bs, (length bs ≤ k)%nat → Forall byte bs → Nat.Even (length bs) →
    bytes (words bs) = bs ∧ Forall (λ w, 0 ≤ w < 65536) (words bs)).
  { induction k as [|k IH]; intros l Hl Hb He; [by destruct l; simpl in *; try lia|].
    destruct l as [|lo [|hi l]]; [done|by destruct He; simpl in *; lia|]. simpl in *.
    rewrite !Forall_cons in Hb. destruct Hb as (Hlo & Hhi & Hb). destruct (u8_pair lo hi Hlo Hhi) as (-> & -> & Hw).
    destruct (IH l) as [-> Hws]; [lia|done|by apply Nat.Even_succ_succ|]. split; [done|by constructor]. }
  by apply (Hk (length bs)).
Qed.

Section laws.
Context {D : Type} `{AtaLaws D}.
Implicit Types (i j : nat) (c : channel) (v : cview) (x : disk).
Local Notation triple := (triple (D := D)).

(** ** Waiting *)

Lemma regs i c : chan_ok i c →
  reg_data c = base_of i ∧ reg_error c = base_of i + 1 ∧ reg_nsect c = base_of i + 2 ∧ reg_lbal c = base_of i + 3
  ∧ reg_lbam c = base_of i + 4 ∧ reg_lbah c = base_of i + 5 ∧ reg_device c = base_of i + 6 ∧ reg_status c = base_of i + 7
  ∧ reg_command c = base_of i + 7 ∧ reg_ctl c = base_of i + 0x206 ∧ reg_alt_status c = base_of i + 0x206.
Proof.
  intros [_ Hb _ _]. unfold reg_data, reg_error, reg_nsect, reg_lbal, reg_lbam, reg_lbah, reg_device, reg_command, reg_alt_status,
    reg_status, reg_ctl. rewrite Hb. repeat split; lia.
Qed.

(** The driver's pointer to the channel of a disk is the channel at hand. *)
Lemma triple_open {A} i j (P : channel → cview → Prop) (f : disk → channel → st world A) Q :
  (j < 2)%nat →
  (∀ c v x, P c v → chan_ok i c → devices c !! j = Some x → disk_ok i j x → triple i (is_ c v) (f x c) Q) →
  triple i P (x ← get_disk (i, j); c ← get_channel (d_channel x); f x c) Q.
Proof.
  intros Hj Hf. eapply triple_bind; [by apply triple_get_disk|]. intros x. apply triple_pre. intros c v (Hx & Hd & Hp).
  pose proof Hd as (_ & -> & _). eapply triple_bind; [apply triple_get_channel|]. intros c'.
  apply triple_pre. intros c2 v2 (-> & Hc & -> & ->). by apply (Hf c v x).
Qed.

Lemma lasting_resting c v : resting v → lasting (is_ c v).
Proof. intros [Hp Hi]. apply lasting_is; [done|by rewrite Hp]. Qed.

Lemma until_idle_ok i j c v k : (j < 2)%nat → resting v →
  triple i (is_ c v) (until_idle_loop (S k) (i, j)) (λ b c' v', b = true ∧ is_ c v c' v').
Proof.
  intros Hj Hr. cbn [until_idle_loop]. apply triple_open; [done|]. intros c2 v2 x [-> ->] Hc Hx Hd.
  destruct (regs i c Hc) as (_ & _ & _ & _ & _ & _ & _ & -> & _).
  eapply triple_bind; [by apply triple_status, lasting_resting|]. intros s. apply triple_pre. intros c2 v2 [Hs [-> ->]].
  destruct Hr as [Hp Hi]. rewrite Hp in Hs. destruct Hs as (Hs & H7 & Hb). destruct (Hb eq_refl) as [H3 _].
  destruct (status_bits s Hs) as (_ & _ & _ & ->). rewrite H7, H3. simpl. by apply triple_ret.
Qed.

Lemma wait_until_idle_ok i j c v : (j < 2)%nat → resting v → triple i (is_ c v) (wait_until_idle (i, j)) (λ _, is_ c v).
Proof.
  intros Hj Hr. unfold wait_until_idle. replace (Z.to_nat 1000) with (S (Z.to_nat 999)) by lia.
  eapply triple_bind; [by apply until_idle_ok|]. intros b. apply triple_pure. intros ->. by apply triple_ret.
Qed.

Lemma busy_message i j x : (i < 2)%nat → (j < 2)%nat → disk_ok i j x → is_ok (Stdio.printf (lit "%s: busy, waiting...") [Str (Some (d_name x))]) = true.
Proof. intros Hi Hj (-> & _). by destruct i as [|[]], j as [|[]]; try lia; vm_compute. Qed.

(** One round of the polling loop. *)
Lemma busy_round i j k t P Q : (j < 2)%nat → lasting P →
  (∀ c v, P c v → is_busy (v_phase v) = false → still (v_phase v) ∧ Q (Some (has_data (v_phase v))) c v) →
  triple i (λ c v, P c v ∧ is_busy (v_phase v) = true) (sleep_ms 10;; busy_loop k (t + 1) (i, j)) Q →
  triple i P (busy_loop (S k) t (i, j)) Q.
Proof.
  intros Hj HP Hdone Hnext. cbn [busy_loop]. intros w c0 v0 Hs0. pose proof (se_lt _ _ _ _ Hs0) as Hi. revert w c0 v0 Hs0.
  apply (triple_open i j P); [done|]. intros c v x Hp Hc Hx Hd.
  destruct (regs i c Hc) as (_ & _ & _ & _ & _ & _ & _ & _ & _ & _ & ->).
  eapply (triple_bind i _ _ (λ _, P)); [|intros []; eapply triple_bind].
  - eapply (triple_conseq i _ P _ _ (λ _, P)); [by intros ? ? [-> ->]|by intros|]. destruct (t =? 700); [|by apply triple_ret].
    pose proof (busy_message i j x Hi Hj Hd) as Hm. destruct (Stdio.printf _ _) as [out|] eqn:E in Hm; [|done]. by eapply triple_printf.
  - by apply triple_alt.
  - intros s. apply triple_pre. intros c1 v1 [Hs Hp1]. pose proof Hs as (Hs1 & H7 & Hb).
    destruct (status_bits s Hs1) as (-> & _). rewrite H7. destruct (is_busy (v_phase v1)) eqn:Eb; simpl.
    + eapply triple_conseq; [| |exact Hnext]; [|done]. by intros ? ? [-> ->].
    + destruct (Hdone c1 v1 Hp1 Eb) as [Hst HQ]. eapply (triple_bind i (is_ c1 v1) _ (λ _, is_ c1 v1)).
      { destruct (700 <=? t); [eapply triple_printf; vm_compute; reflexivity|by apply triple_ret]. }
      intros []. eapply triple_bind; [apply triple_alt, lasting_is; [apply (HP c1 v1 Hp1)|done]|].
      intros s'. apply triple_pre. intros c2 v2 [Hs' [-> ->]]. destruct Hs' as (Hs1' & _ & Hb').
      destruct (Hb' Eb) as [H3 _]. destruct (status_bits s' Hs1') as (_ & -> & _). rewrite H3.
      apply triple_ret. intros ? ? [-> ->]. by rewrite negb_involutive.
Qed.

(** ** A command in flight *)

Definition raises (p : pending) : bool := match p with ReadReady _ | WriteDone _ _ => true | _ => false end.

(** What the channel looks like when the interrupt of the command, if it has
    one, has been taken. *)
Definition finish (p : pending) (v : cview) : cview := set_irq false (complete p v).
Definition told (p : pending) (c : channel) : channel := if raises p then set_completion 1 c else c.

(** The device is busy for less than [K] units, or it is done and has told. *)
Definition flight (K : nat) (p : pending) (c0 : channel) (v0 : cview) : channel → cview → Prop := λ c v,
  (∃ k, (k < K)%nat ∧ c = c0 ∧ v = set_phase (Busy k p) v0) ∨ (c = told p c0 ∧ v = finish p v0).

Lemma flight_mono K K' p c0 v0 c v : (K ≤ K')%nat → flight K p c0 v0 c v → flight K' p c0 v0 c v.
Proof. intros HK [(k & Hk & Hcv)|Hcv]; [left; exists k; split; [lia|done]|by right]. Qed.

Lemma finish_still p v : still (v_phase (finish p v)) ∧ is_busy (v_phase (finish p v)) = false ∧ v_irq (finish p v) = false.
Proof. by destruct p. Qed.

Section flight.
Context (p : pending) (c0 : channel) (v0 : cview).
Hypothesis (Hirq : v_irq v0 = false) (Hzero : completion_wait c0 = 0) (Hexp : expecting_interrupt c0 = true ∨ raises p = false).

Lemma progress_busy k : progress (set_phase (Busy (S k) p) v0) = set_phase (Busy k p) v0
  ∧ progress (set_phase (Busy 0 p) v0) = complete p v0 ∧ v_irq (complete p v0) = raises p.
Proof using Hirq Hexp. unfold progress. simpl. split; [done|]. split; [by destruct p|by destruct p]. Qed.

Lemma unit_busy k : calm c0 (set_phase (Busy k p) v0) ∧
  after_unit c0 (set_phase (Busy k p) v0) =
    match k with O => (told p c0, finish p v0) | S k => (c0, set_phase (Busy k p) v0) end.
Proof using Hirq Hzero Hexp.
  destruct (progress_busy (pred k)) as (E1 & E2 & E3). destruct k as [|k]; simpl in E1; unfold calm, after_unit.
  - rewrite E2, E3. split; [split; [exact Hirq|by destruct Hexp; auto]|]. unfold told, finish.
    destruct (raises p) eqn:Er; [by rewrite Hzero|]. by rewrite set_irq_same.
  - rewrite E1. simpl. rewrite Hirq. auto.
Qed.

Lemma flight_lasting K : lasting (flight K p c0 v0).
Proof using Hirq Hzero Hexp.
  intros c v [(k & Hk & -> & ->)|[-> ->]].
  - destruct (unit_busy k) as [Hc ->]. split; [done|]. destruct k as [|k]; [by right|left]. exists k. split; [lia|done].
  - destruct (finish_still p v0) as (Hs & _ & Hi). destruct (lasting_is (told p c0) (finish p v0) Hi Hs _ _ (conj eq_refl eq_refl)) as [Hc [E1 E2]].
    split; [done|]. right. done.
Qed.

Lemma flight_unit i K :
  triple i (λ c v, flight (S K) p c0 v0 c v ∧ is_busy (v_phase v) = true) unit_of_time (λ _, flight K p c0 v0).
Proof using Hirq Hzero Hexp.
  intros w c v Hs [[(k & Hk & -> & ->)|[-> ->]] Hb]; [|by destruct (finish_still p v0) as (_ & Hf & _); rewrite Hf in Hb].
  destruct (unit_busy k) as [Hc Ha]. destruct (unit_ok i w _ _ Hs Hc) as (w' & E & Hs' & Hf'). rewrite Ha in Hs'.
  eexists tt, w', _, _. split; [done|]. split; [exact Hs'|]. split; [done|]. destruct k as [|k]; [by right|left].
  exists k. split; [lia|done].
Qed.

Lemma completion_loop_ok i K : raises p = true → triple i (flight K p c0 v0) (completion_loop (S K) i) (λ _, is_ c0 (finish p v0)).
Proof using Hirq Hzero Hexp.
  intros Hr.
  assert (Hlast : ∀ k, triple i (is_ (told p c0) (finish p v0)) (completion_loop (S k) i) (λ _, is_ c0 (finish p v0))).
  { intros k. cbn [completion_loop]. eapply triple_bind; [apply triple_get_channel|]. intros c. apply triple_pre.
    intros c1 v1 (-> & Hc & -> & ->). unfold told in *. rewrite Hr in *. simpl.
    eapply triple_conseq; [| |apply (triple_put_channel i _ (is_ (set_completion 1 c0) (finish p v0)) (λ v, v = finish p v0))].
    - by intros ? ? [-> ->].
    - intros [] c v [-> ->]. split; [|done]. revert Hzero. destruct c0; simpl. by intros ->.
    - by apply (chan_ok_set i (set_completion 1 c0) NULL true 0 Hc).
    - by intros ? ? [-> ->]. }
  induction K as [|K IH]; apply triple_pre; intros c v [(k & Hk & -> & ->)|[-> ->]]; try apply Hlast; [lia|].
  remember (S K) as K1. cbn [completion_loop]. subst K1. eapply triple_bind; [apply triple_get_channel|]. intros c. apply triple_pre.
  intros c1 v1 (-> & _ & -> & ->). rewrite Hzero. simpl (0 =? 0). cbv iota.
  eapply (triple_bind i _ _ (λ _, flight K p c0 v0)); [|intros []; exact IH]. eapply triple_conseq; [| |apply flight_unit].
  - intros ? ? [-> ->]. split; [left; by exists k|done].
  - by intros.
Qed.

Lemma completion_down_ok i K : raises p = true → (K ≤ Z.to_nat 3000)%nat →
  triple i (flight K p c0 v0) (completion_down i) (λ _, is_ c0 (finish p v0)).
Proof using Hirq Hzero Hexp.
  intros Hr HK. unfold completion_down. eapply triple_bind; [apply triple_pause, flight_lasting|]. intros [].
  eapply triple_conseq; [| |by apply (completion_loop_ok i (Z.to_nat 3000))]; [|by intros]. intros c v. by apply flight_mono.
Qed.

Lemma busy_loop_ok i j K : (j < 2)%nat → raises p = false → ∀ t,
  triple i (flight K p c0 v0) (busy_loop (S K) t (i, j)) (λ r c v, r = Some (has_data (v_phase v)) ∧ is_ c0 (finish p v0) c v).
Proof using Hirq Hzero Hexp.
  intros Hj Hr. induction K as [|K IH]; intros t; (apply (busy_round i j _ t (flight _ p c0 v0)); [done|apply flight_lasting| |]).
  1,3: intros c v [(k & Hk & -> & ->)|[-> ->]] Hb; [done|]; destruct (finish_still p v0) as (Hs & _ & _); split; [exact Hs|];
    split; [done|]; unfold told; rewrite Hr; done.
  - intros w c v _ [[(k & Hk & _)|[-> ->]] Hb]; [lia|]. by destruct (finish_still p v0) as (_ & Hf & _); rewrite Hf in Hb.
  - eapply (triple_bind i _ _ (λ _, flight K p c0 v0)); [|intros []; apply IH]. eapply triple_bind; [apply triple_on|]. intros [].
    eapply triple_bind; [apply flight_unit|]. intros []. apply triple_pause, flight_lasting.
Qed.

Lemma wait_while_busy_ok i j K : (j < 2)%nat → raises p = false → (K < Z.to_nat 3000)%nat →
  triple i (flight K p c0 v0) (wait_while_busy (i, j)) (λ r c v, r = has_data (v_phase v) ∧ is_ c0 (finish p v0) c v).
Proof using Hirq Hzero Hexp.
  intros Hj Hr HK. unfold wait_while_busy. replace (Z.to_nat 3000) with (S (Z.to_nat 2999)) by lia.
  eapply (triple_bind i _ _ (λ r c v, r = Some (has_data (v_phase v)) ∧ is_ c0 (finish p v0) c v)).
  - eapply triple_conseq; [| |by apply (busy_loop_ok i j (Z.to_nat 2999))]; [|by intros]. intros c v. apply flight_mono. lia.
  - intros r. apply triple_pre. intros c v [-> [-> ->]]. apply triple_ret. by intros ? ? [-> ->].
Qed.

End flight.

(** Of a device that is not busy, the status is there at once. *)
Lemma wait_while_still_ok i j c v : (j < 2)%nat → v_irq v = false → still (v_phase v) → is_busy (v_phase v) = false →
  triple i (is_ c v) (wait_while_busy (i, j)) (λ r c' v', r = has_data (v_phase v) ∧ is_ c v c' v').
Proof.
  intros Hj Hi Hs Hb. unfold wait_while_busy. replace (Z.to_nat 3000) with (S (Z.to_nat 2999)) by lia.
  eapply triple_bind.
  - apply (busy_round i j _ 0 (is_ c v) (λ r c' v', r = Some (has_data (v_phase v)) ∧ is_ c v c' v')); [done|by apply lasting_is| |].
    + intros ? ? [-> ->] _. by split.
    + intros w c' v' _ [[-> ->] Hb']. by rewrite Hb in Hb'.
  - intros r. apply triple_pure. intros ->. by apply triple_ret.
Qed.

(** ** Selecting a device and a sector *)

Definition select_byte (j : nat) : Z := match j with O => 0xa0 | _ => 0xb0 end.

Lemma select_device_ok i j c v : (j < 2)%nat → resting v →
  triple i (is_ c v) (select_device (i, j)) (λ _, is_ c (set_reg 6 (select_byte j) v)).
Proof.
  intros Hj Hr. unfold select_device. apply triple_open; [done|]. intros c1 v1 x [-> ->] Hc Hx (_ & _ & Hd).
  destruct (regs i c Hc) as (_ & _ & _ & _ & _ & _ & -> & _ & _ & _ & ->).
  assert (E : u8 (if dev_no x =? 1 then Z.lor DEV_MBS DEV_DEV else DEV_MBS) = select_byte j).
  { rewrite Hd. destruct j as [|[|j]]; [done|done|lia]. }
  eapply triple_bind; [apply triple_out_reg; [lia|done]|]. intros []. rewrite E.
  eapply triple_bind; [by apply triple_alt, lasting_resting, resting_set_reg|]. intros s. apply triple_pre. intros c2 v2 [_ [-> ->]].
  by apply triple_nsleep, lasting_resting, resting_set_reg.
Qed.

Lemma select_device_wait_ok i j c v : (j < 2)%nat → resting v →
  triple i (is_ c v) (select_device_wait (i, j)) (λ _, is_ c (set_reg 6 (select_byte j) v)).
Proof.
  intros Hj Hr. eapply triple_bind; [by apply wait_until_idle_ok|]. intros [].
  eapply triple_bind; [by apply select_device_ok|]. intros []. apply wait_until_idle_ok; [done|by apply resting_set_reg].
Qed.

Definition sector_byte (j : nat) (sec : Z) : Z :=
  u8 (Z.lor (Z.lor (Z.lor DEV_MBS DEV_LBA) (match j with O => 0 | _ => DEV_DEV end)) (Z.shiftr sec 24)).
Definition addressed (j : nat) (sec : Z) (v : cview) : cview :=
  set_reg 6 (sector_byte j sec) (set_reg 5 (u8 (Z.shiftr sec 16)) (set_reg 4 (u8 (Z.shiftr sec 8)) (set_reg 3 (u8 sec)
    (set_reg 2 1 (set_reg 6 (select_byte j) v))))).

Lemma select_sector_ok i j c v x sec : (j < 2)%nat → resting v → devices c !! j = Some x → sec < capacity x → sec < 2 ^ 28 →
  triple i (is_ c v) (select_sector (i, j) sec) (λ _, is_ c (addressed j sec v)).
Proof.
  intros Hj Hr Hx Hcap Hsec. unfold select_sector. apply triple_open; [done|]. intros c1 v1 x1 [-> ->] Hc Hx1 (_ & _ & Hd).
  assert (x1 = x) as -> by congruence. destruct (regs i c Hc) as (_ & _ & -> & -> & -> & -> & -> & _).
  assert (E : (if dev_no x =? 1 then DEV_DEV else 0) = match j with O => 0 | _ => DEV_DEV end)
    by (rewrite Hd; destruct j as [|[|j]]; [done|done|lia]). rewrite E.
  eapply triple_bind; [by apply triple_assert, Z.ltb_lt|]. intros [].
  eapply triple_bind; [by apply triple_assert, Z.ltb_lt|]. intros [].
  eapply triple_bind; [by apply select_device_wait_ok|]. intros [].
  do 4 (eapply triple_bind; [apply triple_out_reg; [lia|by repeat apply resting_set_reg]|]; intros []).
  apply triple_out_reg; [lia|by repeat apply resting_set_reg].
Qed.

(** The registers address the sector. *)
Lemma addressed_spec j sec v : (j < 2)%nat → resting v → 0 ≤ sec < 2 ^ 28 →
  let v' := addressed j sec v in
  resting v' ∧ v_nsect v' = 1 ∧ Z.testbit (v_device v') 6 = true ∧ sel v' = j ∧ lba v' = sec
  ∧ v_store v' = v_store v ∧ v_ident v' = v_ident v.
Proof.
  intros Hj Hr Hs. assert (Hh : 0 ≤ Z.shiftr sec 24 < 16) by (rewrite Z.shiftr_div_pow2 by lia; change (2 ^ 24) with 16777216; Z.to_euclidean_division_equations; lia).
  assert (Hb : Z.testbit (sector_byte j sec) 6 = true ∧ Z.testbit (sector_byte j sec) 4 = (j =? 1)%nat ∧ Z.land (sector_byte j sec) 15 = Z.shiftr sec 24).
  { unfold sector_byte. set (h := Z.shiftr sec 24) in *. clearbody h.
    assert (h = 0 ∨ h = 1 ∨ h = 2 ∨ h = 3 ∨ h = 4 ∨ h = 5 ∨ h = 6 ∨ h = 7 ∨ h = 8 ∨ h = 9 ∨ h = 10 ∨ h = 11 ∨ h = 12 ∨ h = 13 ∨ h = 14 ∨ h = 15)
      as Hc by lia. destruct j as [|[|j]]; [| |lia]; repeat destruct Hc as [->|Hc]; try (by vm_compute); by rewrite Hc. }
  destruct Hb as (H6 & H4 & H15). intros v'.
  assert (Hd : v_device v' = sector_byte j sec) by done. assert (Hr' : resting v') by (by repeat apply resting_set_reg).
  assert (Hl : v_lbal v' = u8 sec ∧ v_lbam v' = u8 (Z.shiftr sec 8) ∧ v_lbah v' = u8 (Z.shiftr sec 16)) by done.
  assert (Hn : v_nsect v' = 1 ∧ v_store v' = v_store v ∧ v_ident v' = v_ident v) by done.
  clearbody v'. destruct Hl as (L1 & L2 & L3), Hn as (N1 & N2 & N3). split; [done|]. split; [done|]. split; [by rewrite Hd|].
  split; [unfold sel; rewrite Hd, H4; by destruct j as [|[|j]]; [| |lia]|]. split; [|done].
  unfold lba. rewrite Hd, H15, L1, L2, L3. unfold u8. rewrite !Z.shiftr_div_pow2 by lia.
  change (2 ^ 8) with 256. change (2 ^ 16) with 65536. change (2 ^ 24) with 16777216. change (2 ^ 28) with 268435456 in Hs.
  clear -Hs. Z.to_euclidean_division_equations. lia.
Qed.

(** ** Data *)

Lemma set_phase_twice p q v : set_phase p (set_phase q v) = set_phase p v.
Proof. done. Qed.

Lemma triple_inw i c v w ws : v_irq v = false → 0 ≤ w < 65536 →
  triple i (is_ c (set_phase (DataIn (w :: ws)) v)) (inw (base_of i))
    (λ (y : Z) c' v', y = w ∧ is_ c (set_phase (match ws with [] => Idle | _ => DataIn ws end) v) c' v').
Proof.
  intros Hi Hw. eapply triple_bind; [by apply triple_pause, lasting_is|]. intros [] w0 c' v' Hs [-> ->]. unfold raw_in16.
  destruct (law_data_in i (hw w0) w ws) as [Hx Hv]; [by rewrite (se_view _ _ _ _ Hs)|]. rewrite (se_view _ _ _ _ Hs) in Hv.
  pose proof (law_frame_in16 i (hw w0) 0 (se_lt _ _ _ _ Hs)) as Ho. rewrite Z.add_0_r in Ho. specialize (Ho ltac:(left; lia)).
  destruct (bus_in16 (base_of i) (hw w0)) as [x d]. simpl in Hx, Hv, Ho. subst x.
  destruct (sees_hw i w0 c _ d _ Hs Hv Ho) as [Hs' Hf']. eexists _, _, c, _. split; [reflexivity|]. split; [exact Hs'|].
  split; [exact Hf'|]. split; [by apply Z.mod_small|done].
Qed.

Lemma insw_ok i c v ws : v_irq v = false → ws ≠ [] → Forall (λ w, 0 ≤ w < 65536) ws →
  triple i (is_ c (set_phase (DataIn ws) v)) (insw (base_of i) (length ws))
    (λ l c' v', l = bytes ws ∧ is_ c (set_phase Idle v) c' v').
Proof.
  intros Hi. induction ws as [|w ws IH]; [done|]. intros _ [Hw Hws]%Forall_cons. cbn [insw length].
  eapply triple_bind; [by apply triple_inw|]. intros x. apply triple_pure. intros ->. destruct ws as [|w2 ws].
  - eapply (triple_bind i _ _ (λ l c' v', l = [] ∧ is_ c (set_phase Idle v) c' v')); [by apply triple_ret|].
    intros l. apply triple_pure. intros ->. by apply triple_ret.
  - eapply triple_bind; [by apply IH|]. intros l. apply triple_pure. intros ->. by apply triple_ret.
Qed.

Lemma triple_outw i (x : Z) (P Q : channel → cview → Prop) :
  lasting P → (∀ d c v, view i d = v → P c v → Q c (view i (bus_out16 (base_of i) (u16 x) d))) →
  triple i P (outw (base_of i) x) (λ _, Q).
Proof.
  intros HP HQ. eapply triple_bind; [by apply triple_pause|]. intros [] w c v Hs Hp.
  pose proof (law_frame_out16 i (hw w) 0 (u16 x) (se_lt _ _ _ _ Hs)) as Ho. rewrite Z.add_0_r in Ho. specialize (Ho ltac:(left; lia)).
  destruct (sees_hw i w c v (bus_out16 (base_of i) (u16 x) (hw w)) _ Hs eq_refl Ho) as [Hs' Hf'].
  eexists tt, _, c, _. split; [reflexivity|]. split; [exact Hs'|]. split; [exact Hf'|]. apply (HQ (hw w) c v); [apply Hs|done].
Qed.

(** The device takes the sector, and is busy storing it. *)
Lemma outsw_ok i c v n bs : v_irq v = false → ∀ ws k, words bs ≠ [] → Forall byte bs → length bs = (2 * k)%nat → (length ws + k = 256)%nat →
  triple i (is_ c (set_phase (DataOut n ws) v)) (outsw (base_of i) bs k)
    (λ _ c' v', ∃ m, (m < BUSY_MAX)%nat ∧ is_ c (set_phase (Busy m (WriteDone n (ws ++ words bs))) v) c' v').
Proof.
  intros Hi. assert (Hk : ∀ k bs ws, words bs ≠ [] → Forall byte bs → length bs = (2 * k)%nat → (length ws + k = 256)%nat →
    triple i (is_ c (set_phase (DataOut n ws) v)) (outsw (base_of i) bs k)
    (λ _ c' v', ∃ m, (m < BUSY_MAX)%nat ∧ is_ c (set_phase (Busy m (WriteDone n (ws ++ words bs))) v) c' v')); [|eauto].
  clear bs. induction k as [|k IH]; intros bs ws Hne Hb Hlen Hws; [by destruct bs|].
  destruct bs as [|lo [|hi bs]]; [done|done|]. simpl in Hlen. rewrite !Forall_cons in Hb. destruct Hb as (Hlo & Hhi & Hb).
  cbn [outsw words]. destruct (u8_pair lo hi Hlo Hhi) as (_ & _ & Hw).
  assert (Hu : u16 (lo + 256 * hi) = lo + 256 * hi) by (by apply Z.mod_small).
  destruct k as [|k].
  - destruct bs; [|simpl in Hlen; lia]. cbn [outsw words].
    eapply (triple_bind i _ _ (λ _ c' v', ∃ m, (m < BUSY_MAX)%nat ∧ is_ c (set_phase (Busy m (WriteDone n (ws ++ [lo + 256 * hi]))) v) c' v')); [|intros []; by apply triple_ret].
    apply triple_outw; [by apply lasting_is|]. intros d c' v' Hv [-> ->]. rewrite Hu.
    destruct (law_data_last i d n ws (lo + 256 * hi)) as (m & Hm & E); [by rewrite Hv|lia|]. exists m. split; [done|]. by rewrite E, Hv.
  - eapply (triple_bind i _ _ (λ _, is_ c (set_phase (DataOut n (ws ++ [lo + 256 * hi])) v))).
    + apply triple_outw; [by apply lasting_is|]. intros d c' v' Hv [-> ->]. rewrite Hu.
      split; [done|]. rewrite law_data_out with (n := n) (ws := ws); [by rewrite Hv|by rewrite Hv|lia].
    + intros []. change (lo + 256 * hi :: words bs) with ([lo + 256 * hi] ++ words bs). rewrite app_assoc. apply IH; [|done|lia|].
      * destruct bs as [|b1 [|b2 bs]]; simpl in Hlen; [lia|lia|done].
      * rewrite length_app. simpl. lia.
Qed.

(** ** Commands *)

Lemma issue_ok i c v cmd p : resting v →
  (∀ d, view i d = v → ∃ n, (n < BUSY_MAX)%nat ∧ view i (bus_out8 (base_of i + 7) (u8 cmd) d) = set_phase (Busy n p) v) →
  triple i (is_ c v) (issue_pio_command i cmd) (λ _, flight BUSY_MAX p (set_expecting true c) v).
Proof.
  intros Hr Hlaw. unfold issue_pio_command. eapply triple_bind; [apply triple_on|]. intros [].
  intros w c1 v1 Hs Hcv. pose proof (se_ok _ _ _ _ Hs) as Hc. pose proof Hcv as [-> ->]. revert w Hs Hcv.
  assert (Ht : triple i (is_ c v) (modify_channel i (set_expecting true);; (c0 ← get_channel i; outb (reg_command c0) cmd))
    (λ _, flight BUSY_MAX p (set_expecting true c) v)); [|intros w; by apply Ht].
  destruct (chan_ok_set i c NULL true 0 Hc) as (_ & Hc' & _).
  eapply triple_bind; [by apply triple_modify|]. intros []. eapply triple_bind; [apply triple_get_channel|]. intros c1.
  apply triple_pre. intros c2 v2 (-> & _ & -> & ->). destruct (regs i _ Hc') as (_ & _ & _ & _ & _ & _ & _ & _ & -> & _).
  apply triple_outb; [left; lia|by apply lasting_resting|]. intros d c2 v2 Hv [-> ->].
  destruct (Hlaw d Hv) as (n & Hn & ->). left. by exists n.
Qed.

Lemma finish_read ws v : v_irq v = false → finish (ReadReady ws) v = set_phase (DataIn ws) v.
Proof. destruct v. simpl. by intros ->. Qed.
Lemma finish_ask n v : v_irq v = false → finish (WriteReady n) v = set_phase (DataOut n []) v.
Proof. destruct v. simpl. by intros ->. Qed.

(** The channel after a command on its device [j], whose entry is now [y]. *)
Definition served (j : nat) (y : disk) (c : channel) : channel :=
  Channel (c_name c) (reg_base c) (irq c) NULL true 0 (<[j := y]> (devices c)).

Lemma input_sector_ok i c v ws : v_irq v = false → length ws = 256%nat → Forall (λ w, 0 ≤ w < 65536) ws →
  triple i (is_ c (set_phase (DataIn ws) v)) (input_sector i) (λ l c' v', l = bytes ws ∧ is_ c (set_phase Idle v) c' v').
Proof.
  intros Hi Hl Hw. unfold input_sector. eapply triple_bind; [apply triple_get_channel|]. intros c1. apply triple_pre.
  intros c2 v2 (-> & Hc & -> & ->). destruct (regs i c Hc) as (-> & _). change (Z.to_nat (DISK_SECTOR_SIZE / 2)) with 256%nat.
  rewrite <- Hl. apply insw_ok; [done| |done]. intros ->. done.
Qed.

(** What a command finds. *)
Record target (j : nat) (sec : Z) (c : channel) (v : cview) (x : disk) (secs : list (list Z)) (s : list Z) : Prop := {
  ta_j : (j < 2)%nat;
  ta_hold : holder c = NULL;
  ta_wait : completion_wait c = 0;
  ta_rest : resting v;
  ta_disk : devices c !! j = Some x;
  ta_store : v_store v !! j = Some secs;
  ta_sec : 0 ≤ sec < capacity x ∧ sec < 2 ^ 28;
  ta_data : secs !! Z.to_nat sec = Some s }.

(** The end of both: count, release the lock. *)
Lemma finish_up i j c v x h f : (j < 2)%nat → devices c !! j = Some x → completion_wait c = 0 → h ≠ NULL →
  (∀ y, disk_ok i j y → disk_ok i j (f y)) →
  triple i (is_ (set_expecting true (set_holder h c)) v) (modify_disk (i, j) f;; channel_release i) (λ _, is_ (served j (f x) c) v).
Proof.
  intros Hj Hx Hw Hh Hf. eapply triple_bind; [by apply (triple_modify_disk i j f _ v x)|]. intros [].
  eapply triple_conseq; [| |apply triple_release]; [done| |done]. intros [] c2 v2 [-> ->]. split; [|done].
  unfold served, set_holder. simpl. by rewrite Hw.
Qed.

Lemma driver_read_ok i j c v x secs s sec buf : target j sec c v x secs s → sector_ok s →
  triple i (is_ c v) (disk_read (Some (i, j)) sec (Some buf))
    (λ l c' v', l = s ++ drop 512 buf ∧ is_ (served j (count_read x) c) (set_phase Idle (addressed j sec v)) c' v').
Proof.
  intros [Hj Hhold Hwait Hrest Hx Hstore Hsec Hdata] [Hslen Hsb].
  destruct (addressed_spec j sec v Hj Hrest ltac:(lia)) as ([Hp1 Hi1] & A1 & A2 & A3 & A4 & A5 & _).
  set (v1 := addressed j sec v) in *.
  assert (Heven : Nat.Even (length s)) by (rewrite Hslen; by exists 256%nat). destruct (bytes_words s Hsb Heven) as [Hbw Hws].
  unfold disk_read, the_disk. eapply (triple_bind i _ _ (λ d, λ c' v', d = (i, j) ∧ is_ c v c' v')); [by apply triple_ret|].
  intros d. apply triple_pure. intros ->. eapply triple_bind; [by apply triple_get_disk|]. intros x1. apply triple_pre.
  intros c1 v1' (_ & (_ & -> & _) & -> & ->). eapply triple_bind; [by apply triple_acquire|]. intros []. apply triple_pre.
  intros c1 v1' (h & Hh & -> & ->). eapply triple_bind; [apply (select_sector_ok i j _ v x); [done|done|done|lia|lia]|]. intros []. fold v1.
  eapply triple_bind.
  { apply (issue_ok i _ v1 _ (ReadReady (words s))); [done|]. intros d Hv. destruct (law_read i d secs s) as (n & Hn & E);
      rewrite ?Hv; try done; [by rewrite A3, A5|by rewrite A4|]. exists n. split; [done|]. by rewrite Hv in E. }
  intros []. eapply triple_bind; [apply completion_down_ok; try done; [by left|unfold BUSY_MAX; lia]|]. intros [].
  rewrite finish_read by done. eapply triple_bind; [by apply wait_while_still_ok|]. intros b. apply triple_pure. intros ->. simpl negb.
  cbv iota. eapply triple_bind; [apply input_sector_ok; [done|by apply words_length|done]|]. intros l. apply triple_pure. intros ->.
  rewrite Hbw. intros w c2 v2 Hs Hcv.
  destruct (finish_up i j c (set_phase Idle v1) x h count_read Hj Hx Hwait Hh) with (w := w) (c := c2) (v := v2) as ([] & w' & c' & v' & E & Hs' & Hf' & Hc'); try done.
  exists (s ++ drop 512 buf), w', c', v'. split; [|done]. unfold mbind, st_bind in *. rewrite Hslen.
  destruct (modify_disk (i, j) count_read w) as [[[] w1]|]; [|done]. by rewrite E.
Qed.

Lemma output_sector_ok i c v n bs : v_irq v = false → sector_ok bs →
  triple i (is_ c (set_phase (DataOut n []) v)) (output_sector i bs) (λ _, flight BUSY_MAX (WriteDone n (words bs)) c v).
Proof.
  intros Hi [Hl Hb]. unfold output_sector. eapply triple_bind; [apply triple_get_channel|]. intros c1. apply triple_pre.
  intros c2 v2 (-> & Hc & -> & ->). destruct (regs i c Hc) as (-> & _). change (Z.to_nat (DISK_SECTOR_SIZE / 2)) with 256%nat.
  eapply triple_conseq; [| |apply (outsw_ok i c v n bs Hi [] 256)]; [done| | |done|lia|done].
  - intros [] c2 v2 (m & Hm & -> & ->). left. by exists m.
  - intros Hw. pose proof (words_length bs 256) as Hwl. rewrite Hw in Hwl. simpl in Hwl. lia.
Qed.

Lemma driver_write_ok i j c v x secs s sec buf : target j sec c v x secs s → sector_ok buf →
  triple i (is_ c v) (disk_write (Some (i, j)) sec (Some buf))
    (λ _ c' v', is_ (served j (count_write x) c) (finish (WriteDone sec (words buf)) (addressed j sec v)) c' v').
Proof.
  intros [Hj Hhold Hwait Hrest Hx Hstore Hsec Hdata] Hbuf.
  destruct (addressed_spec j sec v Hj Hrest ltac:(lia)) as ([Hp1 Hi1] & A1 & A2 & A3 & A4 & A5 & _).
  set (v1 := addressed j sec v) in *.
  unfold disk_write, the_disk. eapply (triple_bind i _ _ (λ d, λ c' v', d = (i, j) ∧ is_ c v c' v')); [by apply triple_ret|].
  intros d. apply triple_pure. intros ->. eapply triple_bind; [by apply triple_get_disk|]. intros x1. apply triple_pre.
  intros c1 v1' (_ & (_ & -> & _) & -> & ->). eapply triple_bind; [by apply triple_acquire|]. intros []. apply triple_pre.
  intros c1 v1' (h & Hh & -> & ->). eapply triple_bind; [apply (select_sector_ok i j _ v x); [done|done|done|lia|lia]|]. intros []. fold v1.
  eapply triple_bind.
  { apply (issue_ok i _ v1 _ (WriteReady sec)); [done|]. intros d Hv. destruct (law_write i d secs s) as (n & Hn & E);
      rewrite ?Hv; try done; [by rewrite A3, A5|by rewrite A4|]. exists n. split; [done|]. by rewrite Hv, A4 in E. }
  intros []. eapply triple_bind; [apply wait_while_busy_ok; try done; [by left|unfold BUSY_MAX; lia]|]. intros b.
  apply triple_pre. intros c2 v2 [-> [-> ->]]. rewrite finish_ask by done. simpl negb. cbv iota.
  eapply triple_bind; [by apply output_sector_ok|]. intros [].
  eapply triple_bind; [apply completion_down_ok; try done; [by left|unfold BUSY_MAX; lia]|]. intros [].
  by apply finish_up.
Qed.

End laws.
End DiskDriver.
