(* ===== verification/DiskDetect.v ===== *)
(** Detection: after [disk_init] the driver knows the disks that are there and
    their capacities. *)
From S2P Require Import Prelude KState Interrupt StdlibC Stdio StdioTheorems IntrTable Disk DiskSpec DiskLogic DiskDriver.
Import Ports IntrTable Stdio StdioTheorems Disk DiskSpec DiskLogic DiskDriver.
Local Open Scope Z_scope.

Module DiskDetect.

(** ** What detection prints *)

Lemma printf_c v : ∃ out, Stdio.printf (lit "%c") [Int v] = Ok out.
Proof. eexists. unfold Stdio.printf, __printf. lazy -[u8]. reflexivity. Qed.

Lemma u32_u64 n : 0 ≤ unsigned_value INT n < 2 ^ 64.
Proof. unfold unsigned_value, u32. pose proof (Z.mod_pos_bound n (2 ^ 32)). lia. Qed.

(** A format with one integer conversion. *)
Ltac one_integer :=
  unfold Stdio.printf, __printf; lazy -[format_integer unsigned_value base_d];
  match goal with |- context [format_integer ?a ?b ?c ?d ?e] =>
    let H := fresh in destruct (format_integer_ok a b c d e) as [? H];
      [apply bases_ok|apply u32_u64|rewrite H; eexists; lazy; reflexivity] end.

Lemma printf_detected i j n : (i < 2)%nat → (j < 2)%nat →
  ∃ out, Stdio.printf (lit "%s: detected %'u sector (") [Str (Some (disk_name i j)); Int n] = Ok out.
Proof. intros Hi Hj. destruct i as [|[|i]], j as [|[|j]]; try lia; one_integer. Qed.

Lemma printf_size n :
  (∃ out, Stdio.printf (lit "%u GB") [Int n] = Ok out) ∧ (∃ out, Stdio.printf (lit "%u MB") [Int n] = Ok out)
  ∧ (∃ out, Stdio.printf (lit "%u kB") [Int n] = Ok out) ∧ (∃ out, Stdio.printf (lit "%u byte") [Int n] = Ok out).
Proof. split_and!; one_integer. Qed.

Section laws.
Context {D : Type} `{AtaLaws D}.
Implicit Types (i j : nat) (c : channel) (v : cview) (x : disk).
Local Notation triple := (triple (D := D)).

Lemma print_chars_ok i (P : channel → cview → Prop) s k : ∀ n, triple i P (print_chars s n k) (λ _, P).
Proof.
  induction k as [|k IH]; intros n; cbn [print_chars]; [by apply triple_ret|].
  destruct (printf_c (char_at s (Z.lxor (Z.of_nat n) 1))) as [out Ho].
  eapply triple_bind; [by eapply triple_printf|]. intros []. apply IH.
Qed.

(** ** Reset *)

(** The channel is idle and its disks are untouched. *)
Definition quiet (c : channel) (v : cview) : channel → cview → Prop := λ c' v',
  c' = c ∧ resting v' ∧ v_store v' = v_store v ∧ v_ident v' = v_ident v.

Lemma quiet_pre {A} i c v (m : st world A) Q :
  (∀ v', resting v' → v_store v' = v_store v → v_ident v' = v_ident v → triple i (is_ c v') m Q) → triple i (quiet c v) m Q.
Proof. intros Hm. apply triple_pre. intros c1 v1 (-> & Hr & H1 & H2). by apply Hm. Qed.

Lemma probe_ok i j c v : (j < 2)%nat → triple i (quiet c v) (probe (i, j)) (λ b c' v', b = true ∧ quiet c v c' v').
Proof.
  intros Hj. apply quiet_pre. intros v' Hr Hs Hi. unfold probe. eapply triple_bind; [by apply select_device_ok|]. intros [].
  apply triple_open; [done|]. intros c1 v1 x [-> ->] Hc _ _. destruct (regs i c Hc) as (_ & _ & -> & -> & _).
  do 6 (eapply triple_bind; [apply triple_out_reg; [lia|by repeat apply resting_set_reg]|]; intros []).
  eapply triple_bind; [apply triple_in_reg; [lia|by repeat apply resting_set_reg]|]. intros n. apply triple_pure. intros ->.
  match goal with |- context [if ?b then _ else _] => change b with true end. cbv iota.
  eapply triple_bind; [apply triple_in_reg; [lia|by repeat apply resting_set_reg]|]. intros n. apply triple_pure. intros ->.
  apply triple_ret. intros c1 v1 [-> ->]. split; [done|]. split; [done|]. split; [by repeat apply resting_set_reg|done].
Qed.

(** A device that comes out of a reset has device 0 selected already. *)
Lemma select_in_reset i c v : v_irq v = false → completion_wait c = 0 →
  triple i (flight BUSY_MAX ResetDone c v) (select_device (i, 0%nat)) (λ _, flight BUSY_MAX ResetDone c v).
Proof.
  intros Hi Hw. pose proof (flight_lasting ResetDone c v Hi Hw (or_intror eq_refl) BUSY_MAX) as Hlast.
  unfold select_device. apply triple_open; [lia|]. intros c1 v1 x Hp Hc _ (_ & _ & Hd).
  eapply (triple_conseq i _ (flight BUSY_MAX ResetDone c v) _ _ (λ _, flight BUSY_MAX ResetDone c v)); [by intros ? ? [-> ->]|by intros|].
  destruct (regs i c1 Hc) as (_ & _ & _ & _ & _ & _ & -> & _ & _ & _ & ->). rewrite Hd. simpl (Z.of_nat 0 =? 1). cbv iota.
  eapply triple_bind; [apply (triple_outb i 6 _ _ (flight BUSY_MAX ResetDone c v)); [left; lia|done|]|].
  - intros d c2 v2 Hv [(k & Hk & -> & ->)|[-> ->]].
    + left. exists k. split; [done|]. split; [done|]. rewrite law_out_busy with (n := k); by rewrite Hv.
    + right. split; [done|]. rewrite law_out_reg; [by rewrite Hv|lia|by rewrite Hv].
  - intros []. eapply triple_bind; [by apply triple_alt|]. intros s.
    eapply triple_conseq; [| |by apply triple_nsleep]; [|by intros]. by intros ? ? [_ ?].
Qed.

Lemma slave_loop_ok i c v k : resting v → v_nsect v = 1 → v_lbal v = 1 →
  triple i (is_ c v) (slave_loop (S k) i) (λ _, is_ c v).
Proof.
  intros Hr Hn Hl. cbn [slave_loop]. eapply triple_bind; [apply triple_get_channel|]. intros c1. apply triple_pre.
  intros c2 v2 (-> & Hc & -> & ->). destruct (regs i c Hc) as (_ & _ & -> & -> & _).
  eapply triple_bind; [apply triple_in_reg; [lia|done]|]. intros n. apply triple_pure. intros ->. unfold get_reg. simpl. rewrite Hn. simpl.
  eapply (triple_bind i _ _ (λ b c' v', b = true ∧ is_ c v c' v')).
  - eapply triple_bind; [apply triple_in_reg; [lia|done]|]. intros n. apply triple_pure. intros ->. unfold get_reg. simpl. rewrite Hl.
    by apply triple_ret.
  - intros b. apply triple_pure. intros ->. by apply triple_ret.
Qed.

(** After a reset with both devices present, device 1 is selected and shows its
    signature. *)
Lemma reset_channel_ok i c v : resting v → completion_wait c = 0 →
  triple i (is_ c v) (reset_channel i) (λ _ c' v', ∃ v1, v_store v1 = v_store v ∧ v_ident v1 = v_ident v ∧ v_irq v1 = false
    ∧ is_ c (set_reg 6 0xb0 (signature v1)) c' v').
Proof.
  intros Hr Hw. unfold reset_channel. eapply (triple_bind i _ _ (λ b c' v', b = true ∧ quiet c v c' v')).
  { eapply triple_conseq; [| |apply (probe_ok i 0 c v)]; [|by intros|lia]. by intros ? ? [-> ->]. }
  intros p0. apply triple_pure. intros ->. eapply triple_bind; [apply probe_ok; lia|]. intros p1. apply triple_pure. intros ->.
  apply quiet_pre. intros v1 [Hp1 Hi1] Hs1 Hd1. eapply triple_bind; [apply triple_get_channel|]. intros c1. apply triple_pre.
  intros c2 v2 (-> & Hc & -> & ->). destruct (regs i c Hc) as (_ & _ & _ & _ & _ & _ & _ & _ & _ & -> & _).
  assert (Hl1 : lasting (is_ c v1)) by (by apply lasting_resting).
  assert (Hl2 : lasting (is_ c (set_phase InReset v1))) by (by apply lasting_is).
  pose proof (flight_lasting ResetDone c v1 Hi1 Hw (or_intror eq_refl) BUSY_MAX) as Hl3.
  eapply triple_bind; [apply (triple_outb i 0x206 _ _ (is_ c v1)); [by right|done|]|].
  { intros d c2 v2 Hv [-> ->]. split; [done|]. by rewrite law_ctl; rewrite Hv. }
  intros []. eapply triple_bind; [by apply triple_usleep|]. intros [].
  eapply triple_bind; [apply (triple_outb i 0x206 _ _ (is_ c (set_phase InReset v1))); [by right|done|]|].
  { intros d c2 v2 Hv [-> ->]. split; [done|]. change (u8 CTL_SRST) with 4. by rewrite law_reset; rewrite Hv. }
  intros []. eapply triple_bind; [by apply triple_usleep|]. intros [].
  eapply triple_bind; [apply (triple_outb i 0x206 _ _ (flight BUSY_MAX ResetDone c v1)); [by right|done|]|].
  { intros d c2 v2 Hv [-> ->]. change (u8 0) with 0. destruct (law_reset_end i d) as (n & Hn & ->); [by rewrite Hv|].
    rewrite Hv. left. by exists n. }
  intros []. eapply triple_bind; [by apply triple_msleep|]. intros [].
  eapply (triple_bind i _ _ (λ _, is_ c (finish ResetDone v1))).
  { eapply triple_bind; [by apply select_in_reset|]. intros []. eapply triple_bind.
    - apply wait_while_busy_ok; try done; [by right|lia|unfold BUSY_MAX; lia].
    - intros b. apply triple_pre. intros c2 v2 [_ [-> ->]]. by apply triple_ret. }
  intros []. assert (Hrest : resting (finish ResetDone v1)) by done.
  eapply triple_bind; [apply select_device_ok; [lia|done]|]. intros [].
  replace (Z.to_nat 3000) with (S (Z.to_nat 2999)) by lia.
  eapply triple_bind; [by apply slave_loop_ok|]. intros [].
  eapply triple_bind; [by apply wait_while_still_ok; [lia|..]|]. intros b. apply triple_pure. intros _.
  apply triple_ret. intros c2 v2 [-> ->]. exists v1. split; [done|]. split; [done|]. split; [done|]. split; [done|].
  unfold finish. simpl. unfold signature. by rewrite Hi1.
Qed.

(** ** Type and identity *)

Definition with_disk (j : nat) (y : disk) (c : channel) : channel :=
  Channel (c_name c) (reg_base c) (irq c) (holder c) (expecting_interrupt c) (completion_wait c) (<[j := y]> (devices c)).

Lemma check_device_type_ok i j c v x : (j < 2)%nat → resting v → devices c !! j = Some x →
  v_error v = 1 → v_lbam v = 0 → v_lbah v = 0 →
  triple i (is_ c v) (check_device_type (i, j))
    (λ b c' v', b = true ∧ is_ (with_disk j (set_is_ata true x) c) (set_reg 6 (select_byte j) v) c' v').
Proof.
  intros Hj Hr Hx He Hm Hh. unfold check_device_type. apply triple_open; [done|]. intros c1 v1 x1 [-> ->] Hc Hx1 _.
  assert (x1 = x) as -> by congruence. destruct (regs i c Hc) as (_ & -> & _ & _ & -> & -> & _ & -> & _).
  eapply triple_bind; [by apply select_device_ok|]. intros [].
  eapply triple_bind; [apply triple_in_reg; [lia|by apply resting_set_reg]|]. intros e. apply triple_pure. intros ->.
  eapply triple_bind; [apply triple_in_reg; [lia|by apply resting_set_reg]|]. intros lm. apply triple_pure. intros ->.
  eapply triple_bind; [apply triple_in_reg; [lia|by apply resting_set_reg]|]. intros lh. apply triple_pure. intros ->.
  eapply triple_bind; [by apply triple_status, lasting_resting, resting_set_reg|]. intros s. apply triple_pre. intros c1 v1 [Hs [-> ->]].
  destruct Hr as [Hp Hi]. simpl v_phase in Hs. rewrite Hp in Hs. destruct Hs as (Hs & H7 & Hb). destruct (Hb eq_refl) as [_ H6].
  destruct (status_bits s Hs) as (E7 & _ & E6 & _). rewrite E7, E6, H7, H6 by done.
  unfold get_reg. simpl. rewrite He, Hm, Hh. simpl.
  eapply triple_bind; [by apply (triple_modify_disk i j (set_is_ata true) c _ x)|]. intros []. by apply triple_ret.
Qed.

Lemma bytes_lookup ws k w : ws !! k = Some w → bytes ws !! (2 * k)%nat = Some (u8 w) ∧ bytes ws !! (2 * k + 1)%nat = Some (u8 (Z.shiftr w 8)).
Proof.
  revert k. induction ws as [|w0 ws IH]; intros [|k] Hk; simpl in Hk; [done|done|by injection Hk as ->|].
  replace (2 * S k)%nat with (S (S (2 * k))) by lia. simpl. by apply IH.
Qed.

Lemma id_word_bytes ws k w : ws !! k = Some w → 0 ≤ w < 65536 → id_word (bytes ws) (Z.of_nat k) = w.
Proof.
  intros Hk Hw. destruct (bytes_lookup ws k w Hk) as [H1 H2]. unfold id_word, char_at.
  replace (Z.to_nat (2 * Z.of_nat k)) with (2 * k)%nat by lia. replace (Z.to_nat (2 * Z.of_nat k + 1)) with (2 * k + 1)%nat by lia.
  rewrite H1, H2. simpl. unfold u8. rewrite Z.shiftr_div_pow2 by lia. change (2 ^ 8) with 256.
  rewrite (Z.mod_small (w / 256)) by (split; [apply Z.div_pos; lia|apply Z.div_lt_upper_bound; lia]).
  pose proof (Z.div_mod w 256). lia.
Qed.

(** Words 60 and 61 of the answer to IDENTIFY DEVICE. *)
Record ident_ok (ws : list Z) (n : Z) : Prop := {
  id_len : length ws = 256%nat;
  id_words : Forall (λ w, 0 ≤ w < 65536) ws;
  id_cap : ∃ lo hi, ws !! 60%nat = Some lo ∧ ws !! 61%nat = Some hi ∧ n = lo + 65536 * hi }.

Lemma ident_capacity ws n : ident_ok ws n → Z.lor (id_word (bytes ws) 60) (u32 (Z.shiftl (id_word (bytes ws) 61) 16)) = n.
Proof.
  intros [_ Hw (lo & hi & Hl & Hh & ->)]. rewrite Forall_lookup in Hw. pose proof (Hw _ _ Hl) as Wl. pose proof (Hw _ _ Hh) as Wh.
  simpl in Wl, Wh. pose proof (id_word_bytes ws 60 lo Hl Wl) as E1. pose proof (id_word_bytes ws 61 hi Hh Wh) as E2.
  change (Z.of_nat 60) with 60 in E1. change (Z.of_nat 61) with 61 in E2. rewrite E1, E2.
  rewrite Z.shiftl_mul_pow2 by lia. change (2 ^ 16) with 65536. rewrite u32_small by lia.
  assert (Hz : Z.land lo (hi * 65536) = 0).
  { apply Z.bits_inj'. intros n Hn. rewrite Z.land_spec, Z.bits_0. change 65536 with (2 ^ 16). destruct (decide (n < 16)).
    - rewrite Z.mul_pow2_bits_low by lia. apply andb_false_r.
    - rewrite (Z.bits_above_log2 lo n); [done|lia|]. destruct (decide (lo = 0)) as [->|]; [simpl; lia|].
      apply (Z.lt_le_trans _ 16); [apply Z.log2_lt_pow2; lia|lia]. }
  rewrite <- Z.lxor_lor, <- Z.add_nocarry_lxor by done. lia.
Qed.

(** The messages. *)
Lemma print_identity_ok i j x n id (P : channel → cview → Prop) : (i < 2)%nat → (j < 2)%nat → disk_ok i j x →
  triple i P
    (printf "%s: detected %'u sector (" [Str (Some (d_name x)); Int n];;
     (if n >? 1024 / DISK_SECTOR_SIZE * 1024 * 1024 then
        printf "%u GB" [Int (n / (1024 / DISK_SECTOR_SIZE * 1024 * 1024))]
      else if n >? 1024 / DISK_SECTOR_SIZE * 1024 then printf "%u MB" [Int (n / (1024 / DISK_SECTOR_SIZE * 1024))]
      else if n >? 1024 / DISK_SECTOR_SIZE then printf "%u kB" [Int (n / (1024 / DISK_SECTOR_SIZE))]
      else printf "%u byte" [Int (u32 (n * DISK_SECTOR_SIZE))]);;
     printf (") disk, model " +:+ quote) [];; print_ata_string (drop 54 id) 40;;
     printf (quote +:+ ", serial " +:+ quote) [];; print_ata_string (drop 20 id) 20;;
     printf (quote +:+ "
") []) (λ _, P).
Proof.
  intros Hi Hj (-> & _). destruct (printf_detected i j n Hi Hj) as [o1 H1'].
  eapply triple_bind; [by eapply triple_printf|]. intros []. eapply (triple_bind i _ _ (λ _, P)).
  { repeat match goal with |- context [if ?b then _ else _] => destruct b end;
      match goal with |- context [Int ?k] => destruct (printf_size k) as ([? ?] & [? ?] & [? ?] & [? ?]) end; by eapply triple_printf. }
  intros []. eapply triple_bind; [eapply triple_printf; vm_compute; reflexivity|]. intros [].
  eapply triple_bind; [apply print_chars_ok|]. intros [].
  eapply triple_bind; [eapply triple_printf; vm_compute; reflexivity|]. intros [].
  eapply triple_bind; [apply print_chars_ok|]. intros []. eapply triple_printf; vm_compute; reflexivity.
Qed.

Lemma identify_ok i j c v x ws n : (i < 2)%nat → (j < 2)%nat → resting v → completion_wait c = 0 → devices c !! j = Some x → is_ata x = true →
  v_ident v !! j = Some ws → ident_ok ws n →
  triple i (is_ c v) (identify_ata_device (i, j)) (λ _, quiet (with_disk j (set_capacity n x) (set_expecting true c)) v).
Proof.
  intros Hi Hj Hr Hw Hx Ha Hid Hok. unfold identify_ata_device. eapply triple_bind; [by apply triple_get_disk|]. intros x1.
  apply triple_pre. intros c1 v1 (Hx1 & Hd & -> & ->). assert (x1 = x) as -> by congruence. pose proof Hd as (_ & -> & _). cbv zeta.
  eapply triple_bind; [by apply triple_assert|]. intros []. eapply triple_bind; [by apply select_device_wait_ok|]. intros [].
  set (v1 := set_reg 6 (select_byte j) v). assert (Hr1 : resting v1) by (by apply resting_set_reg). pose proof Hr1 as [Hp1 Hi1].
  assert (Hsel : sel v1 = j) by (by destruct j as [|[|j]]; [| |lia]).
  eapply triple_bind.
  { apply (issue_ok i c v1 _ (ReadReady ws)); [done|]. intros d Hv. destruct (law_identify i d ws) as (k & Hk & E);
      rewrite ?Hv; try done; [by rewrite Hsel|]. exists k. split; [done|]. by rewrite Hv in E. }
  intros []. eapply triple_bind; [apply completion_down_ok; try done; [by left|unfold BUSY_MAX; lia]|]. intros [].
  rewrite finish_read by done. eapply triple_bind; [by apply wait_while_still_ok|]. intros b. apply triple_pure. intros ->. simpl negb.
  cbv iota. eapply triple_bind; [apply input_sector_ok; [done|apply Hok|apply Hok]|]. intros l. apply triple_pure. intros ->.
  cbv zeta. rewrite (ident_capacity ws n Hok).
  eapply triple_bind; [by apply (triple_modify_disk i j (set_capacity n) _ _ x)|]. intros [].
  eapply triple_conseq; [| |by apply (print_identity_ok i j x n (bytes ws) (quiet (with_disk j (set_capacity n x) (set_expecting true c)) v))].
  - intros c2 v2 [-> ->]. by split.
  - by intros.
Qed.

(** ** A channel *)

Definition fresh (i : nat) : channel :=
  Channel (chan_name i) (base_of i) (vec_of i) NULL false 0 [new_disk (disk_name i 0) i 0; new_disk (disk_name i 1) i 1].

(** A channel with two ATA disks of [n0] and [n1] sectors. *)
Definition found (i : nat) (n0 n1 : Z) : channel :=
  Channel (chan_name i) (base_of i) (vec_of i) NULL true 0
    [Disk (disk_name i 0) i 0 true n0 0 0; Disk (disk_name i 1) i 1 true n1 0 0].

Lemma detect_ok i v ws0 ws1 n0 n1 : (i < 2)%nat → resting v →
  v_ident v !! 0%nat = Some ws0 → v_ident v !! 1%nat = Some ws1 → ident_ok ws0 n0 → ident_ok ws1 n1 →
  triple i (is_ (fresh i) v)
    (reset_channel i;;
     slave ← check_device_type (i, 0%nat);
     (if slave : bool then _ ← check_device_type (i, 1%nat); mret tt else mret tt);;
     x0 ← get_disk (i, 0%nat);
     (if is_ata x0 then identify_ata_device (i, 0%nat) else mret tt);;
     x1 ← get_disk (i, 1%nat);
     (if is_ata x1 then identify_ata_device (i, 1%nat) else mret tt))
    (λ _, quiet (found i n0 n1) v).
Proof.
  intros Hi Hr H0' H1' Hok0 Hok1. eapply triple_bind; [by apply reset_channel_ok|]. intros [].
  apply triple_pre. intros c1 v1' (v1 & Hs1 & Hd1 & Hi1 & -> & ->). set (v2 := set_reg 6 0xb0 (signature v1)).
  assert (Hr2 : resting v2) by done.
  eapply triple_bind; [apply (check_device_type_ok i 0 _ v2 (new_disk (disk_name i 0) i 0)); [lia|done..]|].
  intros b. apply triple_pure. intros ->.
  set (v3 := set_reg 6 (select_byte 0) v2). set (c3 := with_disk 0 _ (fresh i)).
  set (v4 := set_reg 6 (select_byte 1) v3). set (c4 := with_disk 1 (set_is_ata true (new_disk (disk_name i 1) i 1)) c3).
  eapply (triple_bind i _ _ (λ _, is_ c4 v4)).
  { eapply triple_bind; [apply (check_device_type_ok i 1 c3 v3 (new_disk (disk_name i 1) i 1)); [lia|done..]|].
    intros b. apply triple_pure. intros ->. by apply triple_ret. }
  intros []. eapply triple_bind; [apply triple_get_disk; lia|]. intros x0. apply triple_pre. intros c1 v1' (Hx0 & _ & -> & ->).
  injection Hx0 as <-. simpl (is_ata _). cbv iota.
  eapply triple_bind; [apply (identify_ok i 0 c4 v4 (set_is_ata true (new_disk (disk_name i 0) i 0)) ws0 n0); try done; [lia|by rewrite <- Hd1 in H0']|].
  intros []. apply quiet_pre. intros v5 Hr5 Hs5 Hd5. eapply triple_bind; [apply triple_get_disk; lia|]. intros x1.
  apply triple_pre. intros c1 v1' (Hx1 & _ & -> & ->). injection Hx1 as <-. simpl (is_ata _). cbv iota.
  set (c5 := with_disk 0 _ _).
  eapply triple_conseq; [| |apply (identify_ok i 1 c5 v5 (set_is_ata true (new_disk (disk_name i 1) i 1)) ws1 n1)]; try done; [|lia|].
  - intros [] c v' (-> & Hr' & Hs' & Hd'). split; [done|]. split; [done|].
    split; [rewrite Hs', Hs5; exact Hs1|rewrite Hd', Hd5; exact Hd1].
  - rewrite Hd5. change (v_ident v4) with (v_ident v1). by rewrite Hd1.
Qed.

(** The driver before [disk_init]: hardware that rests, and no handler for the
    channel's interrupt. *)
Record before (i : nat) (w : world) (ws0 ws1 : list Z) : Prop := {
  be_lt : (i < 2)%nat;
  be_len : length (channels w) = 2%nat;
  be_on : irq_on w = true;
  be_cur : cur w ≠ NULL;
  be_other : ∃ c, channels w !! other i = Some c ∧ irq c ≠ vec_of i;
  be_rest : ∀ k, (k < 2)%nat → resting (view k (hw w));
  be_id0 : v_ident (view i (hw w)) !! 0%nat = Some ws0;
  be_id1 : v_ident (view i (hw w)) !! 1%nat = Some ws1;
  be_free : intr_handlers (table w) !! Z.to_nat (vec_of i) = Some None }.

Lemma init_channel_ok stubs i (w : world) ws0 ws1 n0 n1 :
  before i w ws0 ws1 → ident_ok ws0 n0 → ident_ok ws1 n1 → stubs (Z.to_nat (vec_of i)) ≠ NULL →
  ∃ w', init_channel stubs i w = Ok (tt, w') ∧ channels w' !! i = Some (found i n0 n1)
    ∧ channels w' !! other i = channels w !! other i ∧ length (channels w') = 2%nat
    ∧ irq_on w' = true ∧ cur w' = cur w
    ∧ resting (view i (hw w')) ∧ v_store (view i (hw w')) = v_store (view i (hw w)) ∧ v_ident (view i (hw w')) = v_ident (view i (hw w))
    ∧ view (other i) (hw w') = view (other i) (hw w)
    ∧ intr_handlers (table w') = <[Z.to_nat (vec_of i) := Some HANDLER]> (intr_handlers (table w)).
Proof.
  intros [H1' H2' H3' H4' H5' H6' H7' H8' H9'] Hok0 Hok1 Hstub.
  assert (Hne : i ≠ other i) by (by destruct i as [|[]]).
  assert (∃ t, intr_register_ext stubs (Z.to_nat (vec_of i)) HANDLER (string_of (chan_name i)) (table w) = Ok t
    ∧ intr_handlers t = <[Z.to_nat (vec_of i) := Some HANDLER]> (intr_handlers (table w))) as (t & Ht & Hth).
  { unfold intr_register_ext, register_handler. destruct i as [|[|i]]; [| |lia]; cbn [assert_res is_external mbind res_bind];
      simpl (is_external _); cbn [assert_res]; rewrite H9'; unfold make_intr_gate, make_gate; rewrite (proj2 (Z.eqb_neq _ _)) by done; simpl;
      eexists; split; reflexivity. }
  set (w1 := set_table t (set_channels (<[i := fresh i]> (channels w)) w)).
  assert (Hs : sees i w1 (fresh i) (view i (hw w))).
  { split; simpl; try done; [by rewrite length_insert|apply list_lookup_insert_eq; lia| |by left|by rewrite list_lookup_insert_ne|by apply H6', other_lt].
    split; try done. by eexists _, _. }
  destruct (detect_ok i (view i (hw w)) ws0 ws1 n0 n1 H1' (H6' i H1') H7' H8' Hok0 Hok1 w1 _ _ Hs (conj eq_refl eq_refl))
    as ([] & w' & c' & v' & E & Hs' & Hf & (-> & Hr & Hst & Hid)).
  exists w'. destruct Hs' as [_ S2 S3 S4 S5 S6 S7 S8 S9 S10]. destruct Hf as [F1 F2 F3 F4].
  split; [|rewrite S3, F1, S2, F3, S5, F2, F4; simpl; rewrite list_lookup_insert_ne by done; by split_and!].
  assert (N0 : name8 (D := D) "hd%zu" [Int (Z.of_nat i)] w = Ok (chan_name i, w)) by (destruct i as [|[|i]]; [done|done|lia]).
  assert (N1 : name8 (D := D) "%s:%d" [Str (Some (chan_name i)); Int 0] w = Ok (disk_name i 0, w)) by (destruct i as [|[|i]]; [done|done|lia]).
  assert (N2 : name8 (D := D) "%s:%d" [Str (Some (chan_name i)); Int 1] w = Ok (disk_name i 1, w)) by (destruct i as [|[|i]]; [done|done|lia]).
  rewrite <- E. unfold init_channel. rewrite (st_bind_ok _ _ _ _ _ N0).
  rewrite (st_bind_ok _ _ w (base_of i, vec_of i) w) by (destruct i as [|[|i]]; [done|done|lia]). cbv beta iota.
  rewrite (st_bind_ok _ _ _ _ _ N1), (st_bind_ok _ _ _ _ _ N2). fold (fresh i).
  rewrite (st_bind_ok (put_channel i (fresh i)) _ w tt (set_channels (<[i := fresh i]> (channels w)) w)) by done.
  rewrite (st_bind_ok st_get _ _ _ _ eq_refl). cbv beta.
  rewrite (st_bind_ok (st_of_res _) _ _ t (set_channels (<[i := fresh i]> (channels w)) w)) by (unfold st_of_res; simpl table; by rewrite Ht).
  by rewrite (st_bind_ok (st_modify (set_table t)) _ _ tt w1).
Qed.

End laws.
End DiskDetect.
