(* ===== verification/DiskTheorems.v ===== *)
(** The disk driver implements the array of sectors the file system works on,
    and finds the disks at boot. *)
From S2P Require Import Prelude KState Interrupt Bitmap StdlibC Stdio Inode IntrTable Disk DiskSpec DiskLogic DiskDriver DiskDetect.
Import Ports IntrTable Stdio Disk DiskSpec DiskLogic DiskDriver DiskDetect.
Local Open Scope Z_scope.

Module DiskTheorems.

Lemma alter_at {A} (f : A → A) (l : list A) k x : l !! k = Some x → alter f k l = <[k := f x]> l.
Proof. revert k. induction l as [|y l IH]; intros [|k] Hk; simplify_eq/=; [done|]. f_equal. by apply IH. Qed.

Section laws.
Context {D : Type} `{AtaLaws D}.
Local Notation world := (@world D).

(** ** The driver between two calls *)

(** [stores i j] is the contents of the disk [j] of channel [i]. *)
Definition disk_matches (v : cview) (j : nat) (x : disk) (secs : list (list Z)) : Prop :=
  v_store v !! j = Some secs ∧ capacity x = Z.of_nat (length secs) ∧ capacity x ≤ 2 ^ 28 ∧ Forall sector_ok secs.

Record channel_ready (w : world) (i : nat) (stores : nat → list (list Z)) (c : channel) : Prop := {
  cr_chan : channels w !! i = Some c;
  cr_ok : chan_ok i c;
  cr_hold : holder c = NULL;
  cr_wait : completion_wait c = 0;
  cr_rest : resting (view i (hw w));
  cr_disks : ∀ j x, devices c !! j = Some x → is_ata x = true → disk_matches (view i (hw w)) j x (stores j) }.

Record ready (w : world) (stores : nat → nat → list (list Z)) : Prop := {
  rd_len : length (channels w) = 2%nat;
  rd_on : irq_on w = true;
  rd_cur : cur w ≠ NULL;
  rd_chan : ∀ i, (i < 2)%nat → ∃ c, channel_ready w i (stores i) c }.

(** The disk is there. *)
Definition attached (w : world) (d : nat * nat) : Prop :=
  ∃ c x, channels w !! fst d = Some c ∧ devices c !! snd d = Some x ∧ is_ata x = true.

Definition set_store_of (d : nat * nat) (secs : list (list Z)) (stores : nat → nat → list (list Z)) : nat → nat → list (list Z) :=
  λ i j, if decide ((i, j) = d) then secs else stores i j.

Lemma ready_sees w stores i c : ready w stores → channel_ready w i (stores i) c → (i < 2)%nat → sees i w c (view i (hw w)).
Proof.
  intros [R1 R2 R3 R4] [C1 C2 C3 C4 C5 C6] Hi. destruct (other_lt i Hi) as [Ho Hoo].
  destruct (R4 (other i) Ho) as (c' & [O1 O2 O3 O4 O5 O6]). split; try done; [by left|].
  exists c'. split; [done|]. rewrite (co_irq _ _ O2). by destruct i as [|[|i]]; [| |lia].
Qed.

(** A call that leaves its channel in order leaves the driver in order. *)
Lemma ready_served w w' stores i j c x y v' secs :
  ready w stores → channel_ready w i (stores i) c → (i < 2)%nat → (j < 2)%nat → devices c !! j = Some x → is_ata x = true →
  sees i w' (served j y c) v' → frame i w w' →
  is_ata y = true → capacity y = capacity x → disk_ok i j y →
  resting v' → v_store v' = <[j := secs]> (v_store (view i (hw w))) → length secs = length (stores i j) → Forall sector_ok secs →
  ready w' (set_store_of (i, j) secs stores) ∧ ∀ d, attached w d → attached w' d.
Proof.
  intros Hrd Hcr Hi Hj Hx Ha [S1 S2 S3 S4 S5 S6 S7 S8 S9 S10] [F1 F2 F3 F4] Hya Hyc Hy Hr Hst Hlen Hok.
  pose proof Hrd as [R1 R2 R3 R4]. pose proof Hcr as [C1 C2 C3 C4 C5 C6]. destruct (C6 j x Hx Ha) as (M1 & M2 & M3 & M4).
  destruct (other_lt i Hi) as [Ho Hoo].
  assert (Hk : ∀ k, (k < 2)%nat → k = i ∨ k = other i) by (intros k; destruct i as [|[|i]], k as [|[|k]]; simpl; lia).
  assert (Hne : other i ≠ i) by (by destruct i as [|[]]). split; [split; try done|].
  - intros k [->| ->]%Hk.
    + exists (served j y c). split; [done|done|done|done|by rewrite S5|]. rewrite S5. intros j' x' Hx' Ha'. unfold set_store_of.
      destruct (decide (j' = j)) as [->|Hjj].
      * rewrite decide_True by done. simpl in Hx'. rewrite list_lookup_insert_eq in Hx' by (by apply lookup_lt_Some in Hx). injection Hx' as <-.
        split; [rewrite Hst; apply list_lookup_insert_eq; by apply lookup_lt_Some in M1|]. rewrite Hyc, Hlen. done.
      * rewrite decide_False by congruence. simpl in Hx'. rewrite list_lookup_insert_ne in Hx' by done.
        destruct (C6 j' x' Hx' Ha') as (N1 & N2). split; [rewrite Hst; by rewrite list_lookup_insert_ne|done].
    + destruct (R4 (other i) Ho) as (c' & [O1 O2 O3 O4 O5 O6]). exists c'. split; [by rewrite F1|done|done|done|by rewrite F2|].
      rewrite F2. intros j' x' Hx' Ha'. unfold set_store_of. rewrite decide_False by congruence. by apply O6.
  - intros [k l] (c1 & x1 & A1 & A2 & A3). simpl in *.
    assert (Hk2 : (k < 2)%nat) by (rewrite <- R1; by apply lookup_lt_Some in A1). apply Hk in Hk2 as [->| ->].
    + assert (c1 = c) as -> by congruence. exists (served j y c). simpl. destruct (decide (l = j)) as [->|].
      * exists y. split; [done|]. split; [|done]. apply list_lookup_insert_eq. by apply lookup_lt_Some in Hx.
      * exists x1. by rewrite list_lookup_insert_ne.
    + exists c1, x1. simpl. by rewrite F1.
Qed.

(** ** The file system's view *)

Inductive disk_op := DRead (sec : Z) | DWrite (sec : Z) (data : list Z).

(** Sector numbers are [uint32_t] and a sector's data are 512 bytes. *)
Definition op_ok (o : disk_op) : Prop :=
  match o with DRead sec => 0 ≤ sec | DWrite sec data => 0 ≤ sec ∧ sector_ok data end.

Definition drv_op (d : nat * nat) (o : disk_op) : st world (list Z) :=
  match o with
  | DRead sec => disk_read (Some d) sec (Some (replicate 512 0))
  | DWrite sec data => disk_write (Some d) sec (Some data);; mret []
  end.
Definition fs_op (o : disk_op) : st Inode.fs (list Z) :=
  match o with
  | DRead sec => Inode.disk_read sec
  | DWrite sec data => Inode.disk_write sec data;; mret []
  end.
Fixpoint do_ops {S} (op : disk_op → st S (list Z)) (l : list disk_op) : st S (list (list Z)) :=
  match l with [] => mret [] | o :: l => r ← op o; rs ← do_ops op l; mret (r :: rs) end.

(** A sector past the end: both fail their ASSERT. *)
Lemma past_end w stores i j c x sec : ready w stores → channel_ready w i (stores i) c → (i < 2)%nat → (j < 2)%nat →
  devices c !! j = Some x → capacity x ≤ sec → ∀ buf,
  disk_read (Some (i, j)) sec (Some buf) w = Err AssertFail ∧ disk_write (Some (i, j)) sec (Some buf) w = Err AssertFail.
Proof.
  intros Hrd Hcr Hi Hj Hx Hsec buf. pose proof (ready_sees _ _ _ _ Hrd Hcr Hi) as Hs. destruct Hrd as [R1 R2 R3 R4].
  destruct Hcr as [C1 C2 C3 C4 C5 C6]. destruct (co_devs _ _ C2) as (x0 & x1 & Ed & D0 & D1).
  assert (Hd : disk_ok i j x). { rewrite Ed in Hx. destruct j as [|[|j]]; [by injection Hx as <-|by injection Hx as <-|lia]. }
  pose proof Hd as (_ & Hch & _).
  assert (Hg : get_disk (i, j) w = Ok (x, w)).
  { unfold get_disk, mbind, st_bind, get_channel. simpl. by rewrite C1, Hx. }
  destruct (triple_acquire i c (view i (hw w)) C3 w _ _ Hs (conj eq_refl eq_refl)) as ([] & w1 & c1 & v1 & Ea & Hs1 & Hf1 & (h & _ & -> & ->)).
  assert (Hg1 : get_disk (i, j) w1 = Ok (x, w1)).
  { unfold get_disk, mbind, st_bind, get_channel. simpl. rewrite (se_chan _ _ _ _ Hs1). simpl. by rewrite Hx. }
  assert (Hsel : select_sector (i, j) sec w1 = Err AssertFail).
  { unfold select_sector. rewrite (st_bind_ok _ _ _ _ _ Hg1). unfold mbind at 1, st_bind at 1, get_channel at 1. rewrite Hch, (se_chan _ _ _ _ Hs1).
    cbv beta iota. rewrite (proj2 (Z.ltb_ge sec (capacity x)) Hsec). done. }
  unfold disk_read, disk_write, the_disk.
  split; rewrite (st_bind_ok _ _ _ (i, j) w) by done; rewrite (st_bind_ok _ _ _ _ _ Hg); rewrite Hch, (st_bind_ok _ _ _ _ _ Ea); by apply st_bind_err.
Qed.

Lemma drv_op_ok w stores i j o (s : Inode.fs) :
  ready w stores → (i < 2)%nat → (j < 2)%nat → attached w (i, j) → Inode.disk s = stores i j → op_ok o →
  match fs_op o s with
  | Ok (r, s') => ∃ w', drv_op (i, j) o w = Ok (r, w') ∧ ready w' (set_store_of (i, j) (Inode.disk s') stores)
                    ∧ ∀ d, attached w d → attached w' d
  | Err e => drv_op (i, j) o w = Err e
  end.
Proof.
  intros Hrd Hi Hj (c & x & A1 & A2 & A3) Hdisk Hop. simpl in A1, A2.
  destruct (rd_chan _ _ Hrd i Hi) as (c' & Hcr). assert (c' = c) as -> by (pose proof (cr_chan _ _ _ _ Hcr); congruence).
  pose proof (ready_sees _ _ _ _ Hrd Hcr Hi) as Hs. destruct (cr_disks _ _ _ _ Hcr j x A2 A3) as (M1 & M2 & M3 & M4).
  assert (Hd : disk_ok i j x).
  { destruct (co_devs _ _ (cr_ok _ _ _ _ Hcr)) as (x0 & x1 & Ed & D0 & D1). rewrite Ed in A2.
    destruct j as [|[|j]]; [by injection A2 as <-|by injection A2 as <-|lia]. }
  set (v := view i (hw w)) in *.
  assert (Htgt : ∀ sec b, 0 ≤ sec → stores i j !! Z.to_nat sec = Some b → target j sec c v x (stores i j) b).
  { intros sec b Hsec Hb. pose proof (lookup_lt_Some _ _ _ Hb). split; try done; try apply Hcr. lia. }
  destruct o as [sec|sec data]; cbn [op_ok fs_op drv_op] in *.
  - unfold Inode.disk_read. rewrite Hdisk. destruct (stores i j !! Z.to_nat sec) as [b|] eqn:Hb.
    + destruct (driver_read_ok i j c v x (stores i j) b sec (replicate 512 0) (Htgt sec b Hop Hb)
        (Forall_lookup_1 _ _ _ _ M4 Hb) w _ _ Hs (conj eq_refl eq_refl)) as (r & w' & c' & v' & E & Hs' & Hf & (-> & -> & ->)).
      exists w'. rewrite E. rewrite drop_ge, app_nil_r by (by rewrite length_replicate). split; [done|].
      pose proof (lookup_lt_Some _ _ _ Hb).
      destruct (addressed_spec j sec v Hj (cr_rest _ _ _ _ Hcr) ltac:(lia)) as ([B1 B2] & _ & _ & _ & _ & B6 & _).
      eapply ready_served; try done; rewrite ?Hdisk; try done. simpl. rewrite list_insert_id by done. done.
    + apply lookup_ge_None_1 in Hb. by apply (past_end w stores i j c x); try done; lia.
  - unfold Inode.disk_write, mbind, st_bind. rewrite Hdisk. destruct Hop as [Hsec Hdata].
    destruct (stores i j !! Z.to_nat sec) as [b|] eqn:Hb.
    + destruct (driver_write_ok i j c v x (stores i j) b sec data (Htgt sec b Hsec Hb) Hdata w _ _ Hs (conj eq_refl eq_refl))
        as ([] & w' & c' & v' & E & Hs' & Hf & (-> & ->)).
      exists w'. rewrite E. simpl. split; [done|]. pose proof (lookup_lt_Some _ _ _ Hb).
      destruct (addressed_spec j sec v Hj (cr_rest _ _ _ _ Hcr) ltac:(lia)) as ([B1 B2] & _ & _ & B4 & _ & B6 & _).
      assert (Heven : Nat.Even (length data)) by (destruct Hdata as [-> _]; by exists 256%nat).
      destruct (bytes_words data (proj2 Hdata) Heven) as [Hbw _].
      eapply ready_served; try done; rewrite ?Hdisk.
      * change (store_sector (sel (addressed j sec v)) sec (bytes (words data)) (v_store (addressed j sec v))
          = <[j := <[Z.to_nat sec := data]> (stores i j)]> (v_store v)).
        rewrite B4, B6, Hbw. by apply alter_at.
      * by rewrite length_insert.
      * by apply Forall_insert.
    + apply lookup_ge_None_1 in Hb. destruct (past_end w stores i j c x sec Hrd Hcr Hi Hj A2 ltac:(lia) data) as [_ ->]. done.
Qed.

Lemma ready_ext w st1 st2 : (∀ i j, st1 i j = st2 i j) → ready w st1 → ready w st2.
Proof.
  intros E [R1 R2 R3 R4]. split; try done. intros i Hi. destruct (R4 i Hi) as (c & [C1 C2 C3 C4 C5 C6]). exists c. split; try done.
  intros j x Hx Ha. rewrite <- E. by apply C6.
Qed.

Lemma drv_ops_ok i j ops : (i < 2)%nat → (j < 2)%nat → Forall op_ok ops → ∀ w stores (s : Inode.fs),
  ready w stores → attached w (i, j) → Inode.disk s = stores i j →
  match do_ops fs_op ops s with
  | Ok (rs, s') => ∃ w', do_ops (drv_op (i, j)) ops w = Ok (rs, w') ∧ ready w' (set_store_of (i, j) (Inode.disk s') stores)
  | Err e => do_ops (drv_op (i, j)) ops w = Err e
  end.
Proof.
  intros Hi Hj. induction 1 as [|o ops Ho Hops IH]; intros w stores s Hrd Hat Hd; cbn [do_ops].
  { exists w. split; [done|]. eapply ready_ext; [|exact Hrd]. intros i' j'. unfold set_store_of. case_decide; [|done]. by simplify_eq. }
  pose proof (drv_op_ok w stores i j o s Hrd Hi Hj Hat Hd Ho) as H1. unfold mbind, st_bind.
  destruct (fs_op o s) as [[r s1]|e]; [|by rewrite H1]. destruct H1 as (w1 & -> & Hrd1 & Hat1).
  specialize (IH w1 _ s1 Hrd1 (Hat1 _ Hat)). unfold set_store_of in IH at 1. rewrite decide_True in IH by done. specialize (IH eq_refl).
  destruct (do_ops fs_op ops s1) as [[rs s2]|e]; [|by rewrite IH]. destruct IH as (w2 & -> & Hrd2). exists w2. split; [done|].
  eapply ready_ext; [|exact Hrd2]. intros i' j'. unfold set_store_of. by case_decide.
Qed.

(** ** Boot *)

(** The hardware is at rest and has two disks on each channel that tell their
    capacities; the driver's data are all zero and no handler is registered. *)
Record powered (w : world) (idents : nat → nat → list Z) (stores : nat → nat → list (list Z)) : Prop := {
  po_chan : ∃ c0 c1, channels w = [c0; c1] ∧ irq c1 = 0;
  po_on : irq_on w = true;
  po_cur : cur w ≠ NULL;
  po_rest : ∀ i, (i < 2)%nat → resting (view i (hw w));
  po_ident : ∀ i, (i < 2)%nat → v_ident (view i (hw w)) = [idents i 0%nat; idents i 1%nat];
  po_store : ∀ i, (i < 2)%nat → v_store (view i (hw w)) = [stores i 0%nat; stores i 1%nat];
  po_disks : ∀ i j, (i < 2)%nat → (j < 2)%nat → ident_ok (idents i j) (Z.of_nat (length (stores i j)))
    ∧ Z.of_nat (length (stores i j)) ≤ 2 ^ 28 ∧ Forall sector_ok (stores i j);
  po_free : ∀ i, (i < 2)%nat → intr_handlers (table w) !! Z.to_nat (vec_of i) = Some None }.

Lemma found_ready w i (stores : nat → list (list Z)) :
  (i < 2)%nat → channels w !! i = Some (found i (Z.of_nat (length (stores 0%nat))) (Z.of_nat (length (stores 1%nat)))) →
  resting (view i (hw w)) → v_store (view i (hw w)) = [stores 0%nat; stores 1%nat] →
  (∀ j, (j < 2)%nat → Z.of_nat (length (stores j)) ≤ 2 ^ 28 ∧ Forall sector_ok (stores j)) →
  ∃ c, channel_ready w i stores c.
Proof.
  intros Hi Hc Hr Hs Hok. eexists. split; [exact Hc| |done|done|done|].
  - split; try done. by eexists _, _.
  - intros [|[|j]] x Hx _; simpl in Hx; [| |done]; injection Hx as <-; (split; [by rewrite Hs|]); (split; [done|]); apply Hok; lia.
Qed.

Lemma disk_init_ok stubs w idents stores : powered w idents stores → (∀ v, stubs v ≠ NULL) →
  ∃ w', disk_init stubs w = Ok (tt, w') ∧ ready w' stores
    ∧ (∀ i, (i < 2)%nat → channels w' !! i = Some (found i (Z.of_nat (length (stores i 0%nat))) (Z.of_nat (length (stores i 1%nat)))))
    ∧ (∀ i, (i < 2)%nat → intr_handlers (table w') !! Z.to_nat (vec_of i) = Some (Some HANDLER)).
Proof.
  intros [(c0 & c1 & Hch & Hirq) P2 P3 P4 P5 P6 P7 P8] Hstubs. assert (L0 : (0 < 2)%nat) by lia. assert (L1 : (1 < 2)%nat) by lia.
  destruct (init_channel_ok stubs 0 w (idents 0 0)%nat (idents 0 1)%nat (Z.of_nat (length (stores 0 0)%nat)) (Z.of_nat (length (stores 0 1)%nat)))
    as (w1 & E1 & A1 & A2 & A3 & A4 & A5 & A6 & A7 & A8 & A9 & A10); [|by apply P7..|done|].
  { split; try done; [by rewrite Hch| |by rewrite P5|by rewrite P5|by apply P8].
    exists c1. rewrite Hch. split; [done|]. by rewrite Hirq. }
  simpl in A2, A9.
  destruct (init_channel_ok stubs 1 w1 (idents 1 0)%nat (idents 1 1)%nat (Z.of_nat (length (stores 1 0)%nat)) (Z.of_nat (length (stores 1 1)%nat)))
    as (w2 & E2 & B1 & B2 & B3 & B4 & B5 & B6 & B7 & B8 & B9 & B10); [|by apply P7..|done|].
  { split; try done; [by rewrite A5|by eexists| |by rewrite A9, P5|by rewrite A9, P5|].
    - intros [|[|k]] Hk; [done|rewrite A9; by apply P4|lia].
    - rewrite A10, list_lookup_insert_ne by done. by apply P8. }
  simpl in B2, B9.
  assert (Hfound : ∀ i, (i < 2)%nat → channels w2 !! i = Some (found i (Z.of_nat (length (stores i 0%nat))) (Z.of_nat (length (stores i 1%nat))))).
  { intros [|[|i]] Hi; [by rewrite B2|done|lia]. }
  exists w2. split; [unfold disk_init; by rewrite (st_bind_ok _ _ _ _ _ E1)|]. split; [|split; [done|]].
  - split; try done; [by rewrite B5, A5|]. intros i Hi. apply found_ready; [done|by apply Hfound| | |by intros j Hj; apply P7].
    + destruct i as [|[|i]]; [by rewrite B9|done|lia].
    + destruct i as [|[|i]]; [by rewrite B9, A7, P6|by rewrite B7, A9, P6|lia].
  - assert (Hlt : ∀ i, (i < 2)%nat → (Z.to_nat (vec_of i) < length (intr_handlers (table w)))%nat) by (intros i Hi; by eapply lookup_lt_Some, P8).
    intros [|[|i]] Hi; [| |lia]; rewrite B10.
    + rewrite list_lookup_insert_ne, A10 by done. apply list_lookup_insert_eq. by apply (Hlt 0%nat).
    + apply list_lookup_insert_eq. rewrite A10, length_insert. by apply (Hlt 1%nat).
Qed.

End laws.

(** ** A machine with four small disks, for the examples *)

Definition demo_sector (b : Z) : list Z := replicate 512 b.
Definition demo_store (i j : nat) : list (list Z) := [demo_sector (Z.of_nat i); demo_sector (Z.of_nat j + 16)].
Definition demo_ident (i j : nat) : list Z := replicate 60 0 ++ [2; 0] ++ replicate 194 0.
Definition demo_view (i : nat) : cview :=
  View 0 0 0 0 0 0 Idle false [demo_store i 0; demo_store i 1] [demo_ident i 0; demo_ident i 1].
Definition zero_channel : channel := Channel [] 0 0 NULL false 0 [].
Definition demo_hw : sim := Sim (demo_view 0) (demo_view 1).
Definition demo_off : @world sim := World [zero_channel; zero_channel] demo_hw [1; 0; 5]%nat [] true 4096 bss_table.
Definition demo_on : @world sim := World [found 0 2 2; found 1 2 2] demo_hw [0; 3; 1; 0; 2]%nat [] true 4096 bss_table.

Lemma demo_sectors i j : (i < 2)%nat → (j < 2)%nat → Forall sector_ok (demo_store i j).
Proof. intros Hi Hj. repeat constructor; unfold byte; lia. Qed.

Lemma demo_powered : powered demo_off demo_ident demo_store.
Proof.
  split; try done.
  - by eexists _, _.
  - intros [|[|i]] Hi; [done|done|lia].
  - intros [|[|i]] Hi; [done|done|lia].
  - intros [|[|i]] Hi; [done|done|lia].
  - intros i j Hi Hj. split; [|split; [done|by apply demo_sectors]]. split; [done|by repeat constructor|]. by eexists _, _.
  - intros [|[|i]] Hi; [done|done|lia].
Qed.

Lemma demo_ready : ready demo_on demo_store.
Proof.
  split; try done. intros i Hi. apply found_ready; try done.
  - destruct i as [|[|i]]; [done|done|lia].
  - destruct i as [|[|i]]; [done|done|lia].
  - destruct i as [|[|i]]; [done|done|lia].
  - intros j Hj. split; [done|by apply demo_sectors].
Qed.

(** ** The theorems *)

(** C30: [disk_read] and [disk_write] implement an array of sectors.  For every
    sequence of reads and writes of a disk, whatever time passes between the
    driver's instructions and whenever the controller interrupts, the driver
    returns what the file system's array of sectors returns; it fails its ASSERT
    exactly when the array has no such sector; and it leaves the channel idle,
    unlocked and with no interrupt pending, the disk holding what the array
    holds and every other disk what it held. *)
Theorem disk_refines_sectors {D : Type} `{AtaLaws D} (w : @world D) stores i j ops (s : Inode.fs) :
  (i < 2)%nat → (j < 2)%nat → Forall op_ok ops → ready w stores → attached w (i, j) → Inode.disk s = stores i j →
  match do_ops fs_op ops s with
  | Ok (rs, s') => ∃ w', do_ops (drv_op (i, j)) ops w = Ok (rs, w') ∧ ready w' (set_store_of (i, j) (Inode.disk s') stores)
  | Err e => do_ops (drv_op (i, j)) ops w = Err e
  end.
Proof. intros Hi Hj Hops. by apply drv_ops_ok. Qed.

Definition demo_ops : list disk_op := [DRead 1; DWrite 1 (demo_sector 9); DRead 1].
Definition demo_fs : Inode.fs := Inode.Fs (demo_store 0 1) ∅ [] ∅ ∅ ∅ 0 0 [] 1.

Lemma disk_refines_sectors_witness :
  ∃ w', do_ops (drv_op (0, 1)%nat) demo_ops demo_on = Ok ([demo_sector 17; []; demo_sector 9], w')
    ∧ ready w' (set_store_of (0, 1)%nat [demo_sector 0; demo_sector 9] demo_store).
Proof.
  assert (Hops : Forall op_ok demo_ops).
  { repeat (apply Forall_cons; split); [simpl; lia| |simpl; lia|apply Forall_nil; exact I].
    split; [lia|]. split; [reflexivity|]. apply Forall_replicate. unfold byte. lia. }
  assert (Hat : attached demo_on (0, 1)%nat) by (by eexists _, _).
  exact (disk_refines_sectors demo_on demo_store 0 1 demo_ops demo_fs ltac:(lia) ltac:(lia) Hops demo_ready Hat eq_refl).
Defined.

(** C31: [disk_init] finds the disks.  From a driver whose data are zero and
    hardware at rest with two ATA disks on each channel, it returns, whatever
    the delays; both handlers are registered, every disk is marked as an ATA
    disk with the number of sectors it reported, [disk_get] returns it, and the
    driver is ready: reading and writing work as above. *)
Theorem disk_init_detects {D : Type} `{AtaLaws D} stubs (w : @world D) idents stores :
  powered w idents stores → (∀ v, stubs v ≠ NULL) →
  ∃ w', disk_init stubs w = Ok (tt, w') ∧ ready w' stores
    ∧ (∀ i j, (i < 2)%nat → (j < 2)%nat → attached w' (i, j)
         ∧ disk_get (Z.of_nat i) (Z.of_nat j) w' = Ok (Some (i, j), w')
         ∧ disk_size (Some (i, j)) w' = Ok (Z.of_nat (length (stores i j)), w'))
    ∧ ∀ i, (i < 2)%nat → intr_handlers (table w') !! Z.to_nat (vec_of i) = Some (Some HANDLER).
Proof.
  intros Hp Hst. destruct (disk_init_ok stubs w idents stores Hp Hst) as (w' & E & Hr & Hf & Hh).
  exists w'. split; [done|]. split; [done|]. split; [|done]. intros i j Hi Hj. specialize (Hf i Hi).
  destruct i as [|[|i]], j as [|[|j]]; try lia; unfold disk_get, disk_size, the_disk, get_disk, mbind, st_bind, get_channel, ASSERT; simpl; rewrite ?Nat2Z.id, ?Hf;
    (split; [eexists _, _; split; [exact Hf|split; reflexivity]|split; reflexivity]).
Qed.

Lemma disk_init_detects_witness :
  ∃ w', disk_init (λ _, 0xdead) demo_off = Ok (tt, w') ∧ disk_get 1 0 w' = Ok (Some (1, 0)%nat, w')
    ∧ disk_size (Some (1, 0)%nat) w' = Ok (2, w').
Proof.
  destruct (disk_init_detects (λ _, 0xdead) demo_off demo_ident demo_store demo_powered) as (w' & E & _ & Hd & _); [done|].
  destruct (Hd 1%nat 0%nat) as (_ & H1 & H2); [lia|lia|]. exists w'. split; [exact E|]. split; [exact H1|exact H2].
Defined.

(** Once a channel has had a command it takes every later interrupt for the end
    of one, since [expecting_interrupt] is never cleared: the spurious interrupt
    raises the semaphore without a message, and the next command does not
    wait. *)
Theorem spurious_interrupt_accepted :
  ∃ b w1 w2, disk_read (Some (0, 0)%nat) 0 (Some (replicate 512 0)) demo_on = Ok (b, w1)
    ∧ interrupt_handler 46 w1 = Ok (tt, w2)
    ∧ completion_wait <$> channels w1 !! 0%nat = Some 0 ∧ completion_wait <$> channels w2 !! 0%nat = Some 1 ∧ console w2 = [].
Proof.
  eexists _, _, _. split; [vm_compute; reflexivity|]. split; [vm_compute; reflexivity|]. vm_compute. done.
Qed.

End DiskTheorems.
