(* ===== verification/Fsutil.v ===== *)
(** filesys/fsutil.c: the actions of the kernel's command line that list, print,
    delete and copy files.

    [scratch] is the disk hd1:0, [None] when there is none; [put_sector] and
    [get_sector] are the static variables [sector] of [fsutil_put] and
    [fsutil_get]; [out] is what has been printed.  The disk is used through
    [disk_read] and [disk_write], which the driver implements
    ([disk_refines_sectors]).  [argv] is the part of the command line from the
    action's name on. *)
From S2P Require Import Prelude Bitmap Stdio Inode FileSys Directory IntrTable.
Import Ports Stdio Inode FileSys Directory.
Local Open Scope Z_scope.

Module Fsutil.

Definition PGSIZE : Z := 4096.

Record util := Util {
  fsys : fs; scratch : option (list (list Z)); put_sector : Z; get_sector : Z; out : list Z }.

Definition set_scratch (l : list (list Z)) (u : util) : util := Util (fsys u) (Some l) (put_sector u) (get_sector u) (out u).
Definition set_put (n : Z) (u : util) : util := Util (fsys u) (scratch u) n (get_sector u) (out u).
Definition set_get (n : Z) (u : util) : util := Util (fsys u) (scratch u) (put_sector u) n (out u).

Definition on_fs {A} (op : st fs A) : st util A := λ u,
  match op (fsys u) with
  | Ok (a, s) => Ok (a, Util s (scratch u) (put_sector u) (get_sector u) (out u))
  | Err e => Err e
  end.

Definition print (l : list Z) : st util unit :=
  st_modify (λ u, Util (fsys u) (scratch u) (put_sector u) (get_sector u) (out u ++ l)).
Definition printf (format : string) (args : list arg) : st util unit :=
  l ← st_of_res (Stdio.printf (lit format) args); print l.
Definition name_arg (name : list Z) : list arg := [Str (Some (name ++ [0]))].

Definition PANIC {A} : st util A := st_err PanicCall.

Definition argv1 (argv : list (list Z)) : st util (list Z) :=
  match argv with _ :: name :: _ => mret name | _ => st_err BadAddr end.

(** ** The scratch disk *)

Definition the_scratch : st util (list (list Z)) :=
  l ← st_gets scratch; match l with Some l => mret l | None => PANIC end.

Definition scratch_read (sec : Z) : st util (list Z) :=
  l ← the_scratch; match l !! Z.to_nat sec with Some b => mret b | None => st_err AssertFail end.

Definition scratch_write (sec : Z) (buffer : list Z) : st util unit :=
  l ← the_scratch;
  match l !! Z.to_nat sec with
  | Some _ => st_modify (set_scratch (<[Z.to_nat sec := buffer]> l))
  | None => st_err AssertFail
  end.

Section junk.
Context (junk : list Z).

(** ** fsutil_ls *)

Fixpoint ls_loop (fuel : nat) (dir : Z) : st util unit :=
  match fuel with
  | O => st_err NoFuel
  | S fuel =>
    o ← on_fs (dir_readdir junk dir);
    match o with
    | Some name => printf "%s
" (name_arg name);; ls_loop fuel dir
    | None => mret tt
    end
  end.

(** Every round moves past an entry of the directory. *)
Definition ls_fuel (dir : Z) : st util nat := on_fs (i ← dir_get_inode dir; dir_fuel i).

Definition fsutil_ls (argv : list (list Z)) : st util unit :=
  printf "Files in the root directory:
" [];;
  dir ← on_fs dir_open_root;
  if dir =? NULL then PANIC else
  fuel ← ls_fuel dir;
  ls_loop fuel dir;;
  printf "End of listing.
" [].

(** ** fsutil_cat *)

Fixpoint cat_loop (fuel : nat) (file : Z) : st util unit :=
  match fuel with
  | O => st_err NoFuel
  | S fuel =>
    pos ← on_fs (file_tell file);
    buffer ← on_fs (file_read file PGSIZE);
    let n := Z.of_nat (length buffer) in
    if n =? 0 then mret tt
    else l ← st_of_res (hex_dump pos buffer n true); print l;; cat_loop fuel file
  end.

Definition fsutil_cat (argv : list (list Z)) : st util unit :=
  file_name ← argv1 argv;
  printf "Printing '%s' to the console...
" (name_arg file_name);;
  file ← on_fs (filesys_open junk file_name);
  if file =? NULL then PANIC else
  buffer ← on_fs malloc;
  if buffer =? NULL then PANIC else
  fuel ← on_fs (file_length file);
  cat_loop (S (Z.to_nat fuel)) file;;
  on_fs (file_close file).

(** ** fsutil_rm *)

Definition fsutil_rm (argv : list (list Z)) : st util unit :=
  file_name ← argv1 argv;
  printf "Deleting '%s'...
" (name_arg file_name);;
  ok ← on_fs (filesys_remove junk file_name);
  if negb ok then PANIC else mret tt.

(** ** fsutil_put *)

Definition chunk (size : Z) : Z := if size >? DISK_SECTOR_SIZE then DISK_SECTOR_SIZE else size.

(** [sector++] *)
Definition next_put : st util Z := n ← st_gets put_sector; st_modify (set_put (u32 (n + 1)));; mret n.
Definition next_get : st util Z := n ← st_gets get_sector; st_modify (set_get (u32 (n + 1)));; mret n.

Fixpoint put_loop (fuel : nat) (dst : Z) (size : Z) : st util unit :=
  match fuel with
  | O => st_err NoFuel
  | S fuel =>
    if size >? 0 then
      let chunk_size := chunk size in
      sec ← next_put;
      buffer ← scratch_read sec;
      n ← on_fs (file_write dst buffer chunk_size);
      if negb (n =? chunk_size) then PANIC
      else put_loop fuel dst (size - chunk_size)
    else mret tt
  end.

Definition fsutil_put (argv : list (list Z)) : st util unit :=
  file_name ← argv1 argv;
  printf "Putting '%s' into the file system...
" (name_arg file_name);;
  buffer ← on_fs malloc;
  if buffer =? NULL then PANIC else
  _ ← the_scratch;
  sec ← next_put;
  buffer ← scratch_read sec;
  if negb (bool_decide (take 4 buffer = chars "PUT" ++ [0])) then PANIC else
  let size := i32 (of_le (take 4 (drop 4 buffer))) in
  if size <? 0 then PANIC else
  ok ← on_fs (filesys_create junk file_name size);
  if negb ok then PANIC else
  dst ← on_fs (filesys_open junk file_name);
  if dst =? NULL then PANIC else
  put_loop (S (Z.to_nat size)) dst size;;
  on_fs (file_close dst).

(** ** fsutil_get *)

Fixpoint get_loop (fuel : nat) (src : Z) (size : Z) : st util unit :=
  match fuel with
  | O => st_err NoFuel
  | S fuel =>
    if size >? 0 then
      let chunk_size := chunk size in
      sec ← st_gets get_sector;
      l ← the_scratch;
      if sec >=? Z.of_nat (length l) then PANIC else
      buffer ← on_fs (file_read src chunk_size);
      if negb (Z.of_nat (length buffer) =? chunk_size) then PANIC else
      sec ← next_get;
      scratch_write sec (buffer ++ replicate (Z.to_nat (DISK_SECTOR_SIZE - chunk_size)) 0);;
      get_loop fuel src (size - chunk_size)
    else mret tt
  end.

Definition get_header (size : Z) : list Z := chars "GET" ++ [0] ++ le32 (u32 size) ++ replicate 504 0.

Definition fsutil_get (argv : list (list Z)) : st util unit :=
  file_name ← argv1 argv;
  printf "Getting '%s' from the file system...
" (name_arg file_name);;
  buffer ← on_fs malloc;
  if buffer =? NULL then PANIC else
  src ← on_fs (filesys_open junk file_name);
  if src =? NULL then PANIC else
  size ← on_fs (file_length src);
  _ ← the_scratch;
  sec ← next_get;
  scratch_write sec (get_header size);;
  get_loop (S (Z.to_nat size)) src size;;
  on_fs (file_close src).

End junk.
End Fsutil.
