(* ===== verification/FsutilTheorems.v ===== *)
(** filesys/fsutil.c: copying a file in from the scratch disk and out to it
    again keeps its bytes. *)
From S2P Require Import Prelude Bitmap Stdio Inode InodeTheorems FileSys FileSysTheorems Directory DirectoryTheorems Fsutil.
Import Stdio Inode InodeTheorems FileSys FileSysTheorems Directory DirectoryTheorems Fsutil.
Local Open Scope Z_scope.

Module FsutilTheorems.

(** An open file, its inode, and memory. *)
Record open_at (s : fs) (f p : Z) (i : inode) (pos : Z) : Prop := {
  oa_file : ∃ dw, files s !! f = Some (File p pos dw);
  oa_inode : inode_ok s p i;
  oa_deny : deny_write_cnt i = 0;
  oa_mem : outcomes s = [];
  oa_brk : 0 < brk s;
  oa_pos : 0 ≤ pos < 2 ^ 31 }.

Lemma open_at_files s f p i pos pos' dw : open_at s f p i pos → 0 ≤ pos' < 2 ^ 31 →
  open_at (set_files (<[f := File p pos' dw]> (files s)) s) f p i pos'.
Proof.
  intros [H1 [] H3 H4 H5 H6] Hp. split; try done. exists dw. simpl. apply lookup_insert_eq.
Qed.

Lemma open_at_set s f p i pos d b : open_at s f p i pos → sectors_ok d → length d = length (disk s) → brk s ≤ b → open_at (set_bytes s d b) f p i pos.
Proof. intros [H1 H2 H3 H4 H5 H6] Hd Hl Hb. split; try done; [by apply inode_ok_disk|simpl; lia]. Qed.

Lemma content_files s m i : content (set_files m s) i = content s i.
Proof. done. Qed.

(** [file_write] and [file_read] at the file's position, inside the file. *)
Lemma file_write_ok s f p i pos buf n : open_at s f p i pos → 0 ≤ n ≤ Z.of_nat (length buf) → pos + n ≤ i_length (data i) →
  ∃ s', file_write f buf n s = Ok (n, s') ∧ open_at s' f p i (pos + n)
    ∧ content s' i = splice (content s i) (Z.to_nat pos) (take (Z.to_nat n) buf).
Proof.
  intros Ho Hn Hp. pose proof Ho as [[dw H1] H2 H3 H4 H5 H6]. pose proof (io_length _ _ _ H2) as Hlen.
  destruct (write_at_ok s p i buf n pos H2 H3 H4 H5) as (d & b & Hb & Hd & Hl & Hc & Hrun); [lia|lia|lia|].
  assert (Hm : moved i n pos = Z.to_nat n) by (unfold moved; lia). rewrite Hm in Hrun.
  unfold file_write. rewrite (st_bind_ok _ _ s (File p pos dw) s) by (unfold get_file; by rewrite H1). cbn [f_inode f_pos deny_write].
  rewrite (st_bind_ok _ _ _ _ _ Hrun), Z2Nat.id by lia. eexists. split; [reflexivity|].
  rewrite i32_small by lia. split; [apply open_at_files with (pos := pos); [by apply open_at_set|lia]|].
  rewrite content_files. rewrite (content_written s p i d b n pos buf), Hm by (try done; lia). done.
Qed.

Lemma file_read_ok s f p i pos n : open_at s f p i pos → 0 ≤ n → pos + n ≤ i_length (data i) →
  ∃ s', file_read f n s = Ok (take (Z.to_nat n) (drop (Z.to_nat pos) (content s i)), s') ∧ open_at s' f p i (pos + n) ∧ content s' i = content s i.
Proof.
  intros Ho Hn Hp. pose proof Ho as [[dw H1] H2 H3 H4 H5 H6]. pose proof (io_length _ _ _ H2) as Hlen. pose proof (content_length _ _ _ H2) as Hcl.
  destruct (read_at_ok s p i n pos H2 H4 H5) as (b & Hb & Hrun); [lia|lia|].
  unfold file_read. rewrite (st_bind_ok _ _ s (File p pos dw) s) by (unfold get_file; by rewrite H1). cbn [f_inode f_pos deny_write].
  rewrite (st_bind_ok _ _ _ _ _ Hrun). rewrite length_take, length_drop, Hcl, Nat.min_l by lia. rewrite Z2Nat.id by lia.
  rewrite i32_small by lia. eexists. split; [reflexivity|]. split; [|done].
  apply open_at_files with (pos := pos); [|lia]. split; try done; [by exists dw|by apply inode_ok_alloc|simpl; lia].
Qed.

(** ** The sectors of a transfer *)

Definition sectors_for (size : Z) : Z := (size + 511) / 512.

Lemma sectors_step size : 0 < size → sectors_for size = 1 + sectors_for (size - chunk size) ∧ 0 < chunk size ≤ 512 ∧ chunk size ≤ size
  ∧ (chunk size = 512 ∨ size - chunk size = 0) ∧ 0 ≤ sectors_for (size - chunk size).
Proof.
  intros Hs. unfold sectors_for, chunk, DISK_SECTOR_SIZE. destruct (Z.gtb_spec size 512).
  - replace (size + 511) with (size - 512 + 511 + 1 * 512) by lia. rewrite Z.div_add by lia.
    pose proof (Z.div_pos (size - 512 + 511) 512). lia.
  - rewrite Z.sub_diag. change ((0 + 511) / 512) with 0. replace (size + 511) with (size - 1 + 1 * 512) by lia.
    rewrite Z.div_add, Z.div_small by lia. lia.
Qed.

Lemma take_chunk size b (l : list (list Z)) : 0 < size → length b = 512%nat →
  take (Z.to_nat size) (b ++ concat l) = take (Z.to_nat (chunk size)) b ++ take (Z.to_nat (size - chunk size)) (concat l).
Proof.
  intros Hs Hb. destruct (sectors_step size Hs) as (_ & Hc & Hle & [E|E] & _).
  - rewrite E, take_app, Hb. rewrite (take_ge b) by lia. rewrite (take_ge b) by lia. do 2 f_equal. lia.
  - rewrite E, take_0, app_nil_r. replace (chunk size) with size by lia. rewrite take_app_le by lia. done.
Qed.

(** ** Copying *)

Lemma put_loop_ok fuel f p i l g o : ∀ s k pos size,
  open_at s f p i pos → blocks 512 l → Z.of_nat (length l) < 2 ^ 32 → 0 ≤ size < Z.of_nat fuel → pos + size = i_length (data i) →
  0 ≤ k → k + sectors_for size ≤ Z.of_nat (length l) →
  ∃ s', put_loop fuel f size (Util s (Some l) k g o) = Ok (tt, Util s' (Some l) (k + sectors_for size) g o)
    ∧ open_at s' f p i (pos + size)
    ∧ content s' i = take (Z.to_nat pos) (content s i) ++ take (Z.to_nat size) (concat (drop (Z.to_nat k) l)).
Proof.
  induction fuel as [|fuel IH]; intros s k pos size Ho Hl Hl32 Hs Hpos Hk Hend; [lia|]. cbn [put_loop].
  pose proof (content_length _ _ _ (oa_inode _ _ _ _ _ Ho)) as Hcl. pose proof (oa_pos _ _ _ _ _ Ho) as Hpp.
  destruct (Z.gtb_spec size 0) as [Hgt|Hle].
  - destruct (sectors_step size Hgt) as (Hsec & Hc & Hcs & _ & Hnn).
    assert (Hb : ∃ b, l !! Z.to_nat k = Some b) by (apply lookup_lt_is_Some_2; lia). destruct Hb as [b Hb].
    assert (Hb512 : length b = 512%nat) by (by apply (Forall_lookup_1 _ _ _ _ Hl Hb)).
    rewrite (st_bind_ok next_put _ _ k (Util s (Some l) (k + 1) g o)) by (unfold next_put, mbind, st_bind, st_gets, st_modify, set_put; simpl; by rewrite u32_small by lia).
    rewrite (st_bind_ok (scratch_read k) _ _ b (Util s (Some l) (k + 1) g o))
      by (unfold scratch_read, the_scratch, mbind, st_bind, st_gets; simpl; by rewrite Hb).
    destruct (file_write_ok s f p i pos b (chunk size) Ho) as (s1 & Hw & Ho1 & Hc1); [lia|lia|].
    rewrite (st_bind_ok (on_fs _) _ _ (chunk size) (Util s1 (Some l) (k + 1) g o)) by (unfold on_fs; cbn [fsys]; by rewrite Hw).
    rewrite Z.eqb_refl. cbn [negb].
    destruct (IH s1 (k + 1) (pos + chunk size) (size - chunk size)) as (s2 & Hr & Ho2 & Hc2); try done; try lia.
    exists s2. split; [rewrite Hr; do 3 f_equal; lia|]. split; [by replace (pos + size) with (pos + chunk size + (size - chunk size)) by lia|].
    rewrite Hc2, Hc1. rewrite (drop_S _ _ _ Hb). cbn [concat]. rewrite take_chunk by done.
    rewrite app_assoc. f_equal; [|do 3 f_equal; lia].
    unfold splice. rewrite app_assoc. rewrite take_app_le.
    + apply take_ge. rewrite length_app, !length_take. lia.
    + rewrite length_app, !length_take. lia.
  - assert (size = 0) as -> by lia. exists s. change (sectors_for 0) with 0. rewrite !Z.add_0_r. split; [done|]. split; [done|]. change (Z.to_nat 0) with 0%nat.
    rewrite take_0, app_nil_r, take_ge; [done|lia].
Qed.

Lemma get_loop_ok fuel f p i k0 o : ∀ s l g pos size,
  open_at s f p i pos → blocks 512 l → Z.of_nat (length l) < 2 ^ 32 → 0 ≤ size < Z.of_nat fuel → pos + size = i_length (data i) →
  0 ≤ g → g + sectors_for size ≤ Z.of_nat (length l) →
  ∃ s' l', get_loop fuel f size (Util s (Some l) k0 g o) = Ok (tt, Util s' (Some l') k0 (g + sectors_for size) o)
    ∧ open_at s' f p i (pos + size) ∧ content s' i = content s i
    ∧ length l' = length l ∧ blocks 512 l' ∧ take (Z.to_nat g) l' = take (Z.to_nat g) l
    ∧ take (Z.to_nat size) (concat (drop (Z.to_nat g) l')) = drop (Z.to_nat pos) (content s i)
    ∧ drop (Z.to_nat (g + sectors_for size)) l' = drop (Z.to_nat (g + sectors_for size)) l.
Proof.
  induction fuel as [|fuel IH]; intros s l g pos size Ho Hl Hl32 Hs Hpos Hk Hend; [lia|]. cbn [get_loop].
  pose proof (content_length _ _ _ (oa_inode _ _ _ _ _ Ho)) as Hcl. pose proof (oa_pos _ _ _ _ _ Ho) as Hpp.
  destruct (Z.gtb_spec size 0) as [Hgt|Hle].
  - destruct (sectors_step size Hgt) as (Hsec & Hc & Hcs & Hfull & Hnn).
    assert (Hb : ∃ b, l !! Z.to_nat g = Some b) by (apply lookup_lt_is_Some_2; lia). destruct Hb as [b Hb].
    rewrite (st_bind_ok (st_gets get_sector) _ _ g (Util s (Some l) k0 g o)) by done.
    rewrite (st_bind_ok the_scratch _ _ l (Util s (Some l) k0 g o)) by done.
    destruct (Z.geb_spec g (Z.of_nat (length l))) as [|_]; [lia|].
    destruct (file_read_ok s f p i pos (chunk size) Ho) as (s1 & Hr & Ho1 & Hc1); [lia|lia|].
    set (d := take (Z.to_nat (chunk size)) (drop (Z.to_nat pos) (content s i))) in *.
    assert (Hd : length d = Z.to_nat (chunk size)) by (unfold d; rewrite length_take, length_drop; lia).
    rewrite (st_bind_ok (on_fs _) _ _ d (Util s1 (Some l) k0 g o)) by (unfold on_fs; cbn [fsys]; by rewrite Hr).
    rewrite Hd, Z2Nat.id, Z.eqb_refl by lia. cbn [negb].
    rewrite (st_bind_ok next_get _ _ g (Util s1 (Some l) k0 (g + 1) o)) by (unfold next_get, mbind, st_bind, st_gets, st_modify, set_get; simpl; by rewrite u32_small by lia).
    set (sec := d ++ replicate (Z.to_nat (DISK_SECTOR_SIZE - chunk size)) 0).
    assert (Hsl : length sec = 512%nat) by (unfold sec, DISK_SECTOR_SIZE; rewrite length_app, length_replicate; lia).
    set (l1 := <[Z.to_nat g := sec]> l).
    rewrite (st_bind_ok (scratch_write g sec) _ _ tt (Util s1 (Some l1) k0 (g + 1) o))
      by (unfold scratch_write, the_scratch, mbind, st_bind, st_gets; simpl; by rewrite Hb).
    assert (Hl1 : length l1 = length l) by apply length_insert.
    destruct (IH s1 l1 (g + 1) (pos + chunk size) (size - chunk size)) as (s2 & l2 & Hr2 & Ho2 & Hc2 & Hlen2 & Hbl2 & Htk2 & Hdat2 & Hdr2);
      try done; try lia; [by apply Forall_insert|].
    assert (Hat : l2 !! Z.to_nat g = Some sec).
    { transitivity (take (Z.to_nat (g + 1)) l2 !! Z.to_nat g); [by rewrite lookup_take_lt by lia|]. rewrite Htk2, lookup_take_lt by lia.
      apply list_lookup_insert_eq. lia. }
    exists s2, l2. split; [rewrite Hr2; do 3 f_equal; lia|].
    split; [by replace (pos + size) with (pos + chunk size + (size - chunk size)) by lia|]. split; [by rewrite Hc2|].
    split; [by rewrite Hlen2|]. split; [done|]. split_and!.
    + transitivity (take (Z.to_nat g) (take (Z.to_nat (g + 1)) l2)); [by rewrite take_take, Nat.min_l by lia|].
      rewrite Htk2, take_take, Nat.min_l by lia. unfold l1. by rewrite take_insert_ge by lia.
    + rewrite (drop_S _ _ _ Hat). cbn [concat]. rewrite take_chunk by done.
      replace (S (Z.to_nat g)) with (Z.to_nat (g + 1)) by lia. rewrite Hdat2, Hc1. unfold sec.
      rewrite take_app_le, take_ge by lia. unfold d. rewrite <- (take_drop (Z.to_nat (chunk size)) (drop (Z.to_nat pos) (content s i))) at 2.
      f_equal. rewrite drop_drop. f_equal. lia.
    + rewrite Hsec. replace (g + (1 + sectors_for (size - chunk size))) with (g + 1 + sectors_for (size - chunk size)) by lia.
      rewrite Hdr2. unfold l1. rewrite drop_insert_lt by lia. done.
  - assert (size = 0) as -> by lia. exists s, l. change (sectors_for 0) with 0. rewrite !Z.add_0_r.
    split_and!; try done. change (Z.to_nat 0) with 0%nat. rewrite take_0, drop_ge by lia. done.
Qed.

(** ** The theorem *)

(** C32: Copying a file in and out again.  [fsutil_put]'s loop copies the file
    from the sectors of the scratch disk that follow the header into a file of
    that size, every byte of it, and moves past exactly the sectors it read;
    [fsutil_get]'s loop, on any later state in which a file with these bytes is
    open, writes them to the scratch disk from its current sector on, where they
    read the same as at their origin, and touches no other sector. *)
Theorem fsutil_put_get_roundtrip s f p i l k g o size :
  open_at s f p i 0 → size = i_length (data i) → blocks 512 l → Z.of_nat (length l) < 2 ^ 32 →
  0 ≤ k → k + sectors_for size ≤ Z.of_nat (length l) →
  ∃ s', put_loop (S (Z.to_nat size)) f size (Util s (Some l) k g o) = Ok (tt, Util s' (Some l) (k + sectors_for size) g o)
    ∧ content s' i = take (Z.to_nat size) (concat (drop (Z.to_nat k) l))
    ∧ ∀ s2 f2 p2 g2 k2 o2, open_at s2 f2 p2 i 0 → content s2 i = content s' i → 0 ≤ g2 → g2 + sectors_for size ≤ Z.of_nat (length l) →
      ∃ s3 l', get_loop (S (Z.to_nat size)) f2 size (Util s2 (Some l) k2 g2 o2) = Ok (tt, Util s3 (Some l') k2 (g2 + sectors_for size) o2)
        ∧ take (Z.to_nat size) (concat (drop (Z.to_nat g2) l')) = take (Z.to_nat size) (concat (drop (Z.to_nat k) l))
        ∧ take (Z.to_nat g2) l' = take (Z.to_nat g2) l
        ∧ drop (Z.to_nat (g2 + sectors_for size)) l' = drop (Z.to_nat (g2 + sectors_for size)) l.
Proof.
  intros Ho Hsz Hl Hl32 Hk Hend. pose proof (io_length _ _ _ (oa_inode _ _ _ _ _ Ho)) as Hlen.
  destruct (put_loop_ok (S (Z.to_nat size)) f p i l g o s k 0 size) as (s' & Hr & _ & Hc); try done; try lia.
  exists s'. split; [done|]. split; [by rewrite Hc|]. intros s2 f2 p2 g2 k2 o2 Ho2 Hc2 Hg2 Hend2.
  destruct (get_loop_ok (S (Z.to_nat size)) f2 p2 i k2 o2 s2 l g2 0 size) as (s3 & l' & Hr3 & _ & _ & _ & _ & Htk & Hdat & Hdr); try done; try lia.
  exists s3, l'. split; [done|]. split; [|done]. rewrite Hdat, Hc2, Hc. done.
Qed.

(** ** The actions on a small machine *)

Definition put_header (size : Z) : list Z := chars "PUT" ++ [0] ++ le32 size ++ replicate 504 0.
Definition demo_scratch : list (list Z) :=
  [put_header 700; replicate 512 3; replicate 512 4] ++ replicate 5 (replicate 512 0).
Definition demo_util : util := Util blank_disk (Some demo_scratch) 0 3 [].
Definition file_a : list (list Z) := [chars "get"; chars "a"].

(** Put a file, list it, get it back, print it and delete it. *)
Example fsutil_session :
  match (on_fs (filesys_init (Some (disk blank_disk)) true);; fsutil_put demo_junk file_a;; fsutil_get demo_junk file_a;;
         fsutil_rm demo_junk file_a;; fsutil_ls demo_junk [chars "ls"]) demo_util with
  | Ok (_, u) => take 700 (concat (drop 4 (default [] (scratch u)))) = replicate 512 3 ++ replicate 188 4
      ∧ default [] (scratch u) !! 3%nat = Some (get_header 700) ∧ put_sector u = 3 ∧ get_sector u = 6
  | Err _ => False
  end.
Proof. vm_compute. done. Qed.

(** [fsutil_ls] does not close the directory it opened: the root directory stays
    open. *)
Example fsutil_ls_leaks_directory :
  match (on_fs (filesys_init (Some (disk blank_disk)) true);; before ← st_gets (λ u, length (open_inodes (fsys u)));
         fsutil_ls demo_junk [chars "ls"];; after ← st_gets (λ u, length (open_inodes (fsys u))); mret (before, after)) demo_util with
  | Ok (r, _) => r = (1, 2)%nat
  | Err _ => False
  end.
Proof. vm_compute. done. Qed.

Definition demo_open : fs :=
  Fs (replicate 8 (replicate 512 7)) {[ 100 := demo_inode ]} [100] {[ 60 := File 100 0 false ]} ∅ ∅ 0 0 [] 200.

Lemma demo_open_at : open_at demo_open 60 100 demo_inode 0.
Proof.
  split; try done; [by exists false|]. destruct demo_inode_ok as [H1 H2 H3 H4 H5 H6 H7]. by split.
Qed.

Lemma fsutil_put_get_roundtrip_witness :
  ∃ s', put_loop 1301 60 1300 (Util demo_open (Some (replicate 8 (replicate 512 5))) 1 0 []) = Ok (tt, Util s' (Some (replicate 8 (replicate 512 5))) 4 0 [])
    ∧ content s' demo_inode = replicate 1300 5.
Proof.
  destruct (fsutil_put_get_roundtrip demo_open 60 100 demo_inode (replicate 8 (replicate 512 5)) 1 0 [] 1300 demo_open_at) as (s' & H1 & H2 & _);
    [reflexivity|repeat (apply Forall_cons; split; [reflexivity|]); apply Forall_nil; exact I|vm_compute; reflexivity|lia|vm_compute; discriminate|].
  exists s'. split; [exact H1|]. rewrite H2. vm_compute. reflexivity.
Defined.

End FsutilTheorems.
