(* ===== verification/KernelInit.v ===== *)
(** threads/init.c: the kernel's command line, its options and its actions.

    [mem] is the memory of characters: the area the boot loader left and the
    string literals, which [literal] gives the addresses of.  [args] is the static
    array [argv] of [read_command_line]; a pointer into it is an index.  The
    file system's part of the state is that of fsutil.c, whose [out] is the
    console, which has all characters since the start.  [stats] holds the counters
    of the other subsystems, for [print_stats].

    [FILESYS] is the macro of that name; USERPROG is not defined, since the
    sources of user programs are not part of the repository.  [run_test] is the
    dispatcher of the tests and [hdb] the disk of the file system, by its
    sectors, if there is one. *)
From S2P Require Import Prelude Bitmap StringC StdlibC Stdio Vaddr Inode FileSys Directory Random IntrTable Fsutil.
Import Vaddr StringC StdlibC Ports Random Fsutil.
Local Open Scope Z_scope.

Module KernelInit.

Definition LOADER_END : Z := 0x7e00.
Definition LOADER_SIG_LEN : Z := 2.
Definition LOADER_ARGS_LEN : Z := 128.
Definition LOADER_ARG_CNT_LEN : Z := 4.
Definition LOADER_SIG : Z := LOADER_END - LOADER_SIG_LEN.
Definition LOADER_ARGS : Z := LOADER_SIG - LOADER_ARGS_LEN.
Definition LOADER_ARG_CNT : Z := LOADER_ARGS - LOADER_ARG_CNT_LEN.

(** The linker sets the bounds of the segment. *)
Definition bss_init (_start_bss _end_bss : Z) : st cmem unit := memset _start_bss 0 (_end_bss - _start_bss);; mret tt.

(** The counters of the timer, the threads, the disks that are present (name,
    reads and writes) and the keyboard. *)
Record counters := Counters {
  c_ticks : Z; c_idle : Z; c_kernel : Z; c_user : Z; c_disks : list (list Z * Z * Z); c_keys : Z }.

Record bootst := BootSt {
  mem : cmem; args : list Z; acts : util; power_off_when_done : bool; format_filesys : bool; thread_mlfqs : bool;
  rng : prng; stats : counters; off : bool }.

Definition set_mem (m : cmem) (b : bootst) : bootst :=
  BootSt m (args b) (acts b) (power_off_when_done b) (format_filesys b) (thread_mlfqs b) (rng b) (stats b) (off b).
Definition set_args (l : list Z) (b : bootst) : bootst :=
  BootSt (mem b) l (acts b) (power_off_when_done b) (format_filesys b) (thread_mlfqs b) (rng b) (stats b) (off b).
Definition set_acts (u : util) (b : bootst) : bootst :=
  BootSt (mem b) (args b) u (power_off_when_done b) (format_filesys b) (thread_mlfqs b) (rng b) (stats b) (off b).
Definition set_power_off (b : bootst) : bootst :=
  BootSt (mem b) (args b) (acts b) true (format_filesys b) (thread_mlfqs b) (rng b) (stats b) (off b).
Definition set_format (b : bootst) : bootst :=
  BootSt (mem b) (args b) (acts b) (power_off_when_done b) true (thread_mlfqs b) (rng b) (stats b) (off b).
Definition set_mlfqs (b : bootst) : bootst :=
  BootSt (mem b) (args b) (acts b) (power_off_when_done b) (format_filesys b) true (rng b) (stats b) (off b).
Definition set_rng (g : prng) (b : bootst) : bootst :=
  BootSt (mem b) (args b) (acts b) (power_off_when_done b) (format_filesys b) (thread_mlfqs b) g (stats b) (off b).
Definition set_off (b : bootst) : bootst :=
  BootSt (mem b) (args b) (acts b) (power_off_when_done b) (format_filesys b) (thread_mlfqs b) (rng b) (stats b) true.

Definition on_mem {A} (op : st cmem A) : st bootst A := λ b,
  match op (mem b) with Ok (a, m) => Ok (a, set_mem m b) | Err e => Err e end.
Definition on_acts {A} (op : st util A) : st bootst A := λ b,
  match op (acts b) with Ok (a, u) => Ok (a, set_acts u b) | Err e => Err e end.
Definition printf (format : string) (a : list Stdio.arg) : st bootst unit := on_acts (Fsutil.printf format a).
Definition PANIC {A} : st bootst A := st_err PanicCall.

(** ** The array of arguments *)

Definition get_arg (i : nat) : st bootst Z := b ← st_get; st_of_option BadAddr (args b !! i).
Definition set_arg (i : nat) (p : Z) : st bootst unit :=
  b ← st_get; if (i <? length (args b))%nat then st_modify (set_args (<[i := p]> (args b))) else st_err BadAddr.

(** The characters before the null byte, as [printf] reads them. *)
Fixpoint read_chars (k : nat) (p : Z) : st cmem (list Z) :=
  match k with O => mret [] | S k => c ← get_byte p; l ← read_chars k (p + 1); mret (c :: l) end.
Definition read_string (p : Z) : st bootst (list Z) := on_mem (n ← strlen p; read_chars (Z.to_nat n) p).

Definition read32 (p : Z) : st cmem Z := l ← read_chars 4 p; mret (Inode.of_le l).

(** ** read_command_line *)

Fixpoint args_loop (k : nat) (i : nat) (p end_ : Z) : st bootst unit :=
  match k with
  | O => mret tt
  | S k =>
    if end_ <=? p then PANIC
    else
      set_arg i p;;
      n ← on_mem (strnlen p (end_ - p));
      args_loop k (S i) (p + n + 1) end_
  end.

Fixpoint print_args (k : nat) (i : nat) : st bootst unit :=
  match k with
  | O => mret tt
  | S k =>
    p ← get_arg i;
    space ← on_mem (strchr p 32);
    s ← read_string p;
    (if space =? NULL then printf " %s" (name_arg s) else printf " '%s'" (name_arg s));;
    print_args k (S i)
  end.

Definition read_command_line : st bootst nat :=
  v ← on_mem (read32 (ptov LOADER_ARG_CNT));
  let argc := i32 v in
  let p := ptov LOADER_ARGS in
  args_loop (Z.to_nat argc) 0 p (p + LOADER_ARGS_LEN);;
  (if 0 <=? argc then set_arg (Z.to_nat argc) NULL else st_err BadAddr);;
  printf "Kernel command line:" [];;
  print_args (Z.to_nat argc) 0;;
  printf "
" [];;
  mret 0%nat.

Section build.
Context (FILESYS : bool) (literal : string → Z) (junk : list Z) (run_test : list Z → st util unit)
  (hdb : option (list (list Z))).

(** ** power_off and usage *)

Definition timer_print_stats (c : counters) : st bootst unit := printf "Timer: %lld ticks
" [Stdio.Int (c_ticks c)].
Definition thread_print_stats (c : counters) : st bootst unit :=
  printf "Thread: %lld idle ticks, %lld kernel ticks, %lld user ticks
" [Stdio.Int (c_idle c); Stdio.Int (c_kernel c); Stdio.Int (c_user c)].
Fixpoint disk_stats_loop (l : list (list Z * Z * Z)) : st bootst unit :=
  match l with
  | [] => mret tt
  | (name, reads, writes) :: l =>
    printf "%s: %lld reads, %lld writes
" (name_arg name ++ [Stdio.Int reads; Stdio.Int writes]);; disk_stats_loop l
  end.

(** [write_cnt] counts the characters printed so far. *)
Definition console_print_stats : st bootst unit :=
  b ← st_get; printf "Console: %lld characters output
" [Stdio.Int (Z.of_nat (length (out (acts b))))].
Definition kbd_print_stats (c : counters) : st bootst unit := printf "Keyboard: %lld keys pressed
" [Stdio.Int (c_keys c)].

Definition print_stats : st bootst unit :=
  b ← st_get;
  timer_print_stats (stats b);;
  thread_print_stats (stats b);;
  (if FILESYS then disk_stats_loop (c_disks (stats b)) else mret tt);;
  console_print_stats;;
  kbd_print_stats (stats b).

(** The processor loops after the write to port 0x604. *)
Definition power_off : st bootst unit :=
  (if FILESYS then on_acts (on_fs Directory.filesys_done) else mret tt);;
  print_stats;;
  printf "Powering off...
" [];;
  st_modify set_off.

Definition usage : st bootst unit :=
  printf "
Command line syntax: [OPTION...] [ACTION...]
Options must precede actions.
Actions are executed in the order specified.

Available actions:
  run TEST           Run TEST.
" [];;
  (if FILESYS then printf "  ls                 List files in the root directory.
  cat FILE           Print FILE to the console.
  rm FILE            Delete FILE.
Use these actions indirectly via `pintos' -g and -p options:
  put FILE           Put FILE into file system from scratch disk.
  get FILE           Get FILE from file system into scratch disk.
" [] else mret tt);;
  printf "
Options:
  -h                 Print this help message and power off.
  -q                 Power off VM after actions or on panic.
  -f                 Format file system disk during startup.
  -rs=SEED           Set random number seed to SEED.
  -mlfqs             Use multi-level feedback queue scheduler.
" [];;
  power_off.

(** ** parse_options *)

(** [!strcmp (name, lit)] *)
Definition is_lit (name : Z) (l : string) : st bootst bool := r ← on_mem (strcmp name (literal l)); mret (r =? 0).

(** Returns true when the machine was powered off. *)
Definition parse_option (name value : Z) : st bootst bool :=
  h ← is_lit name "-h";
  if h : bool then usage;; mret true else
  q ← is_lit name "-q";
  if q : bool then st_modify set_power_off;; mret false else
  f ← (if FILESYS then is_lit name "-f" else mret false);
  if f : bool then st_modify set_format;; mret false else
  rs ← is_lit name "-rs";
  if rs : bool then
    n ← on_mem (atoi value);
    st_modify (λ b, set_rng (random_init (u32 n) (rng b)) b);; mret false
  else
  m ← is_lit name "-mlfqs";
  if m : bool then st_modify set_mlfqs;; mret false else PANIC.

(** [None] when the machine was powered off; the array has at most 65 entries. *)
Fixpoint parse_loop (fuel : nat) (i : nat) : st bootst (option nat) :=
  match fuel with
  | O => st_err NoFuel
  | S fuel =>
    p ← get_arg i;
    if p =? NULL then mret (Some i) else
    c ← on_mem (get_byte p);
    if negb (c =? 45) then mret (Some i) else
    '(name, save_ptr) ← on_mem (strtok_r p (literal "=") (Some 0));
    '(value, _) ← on_mem (strtok_r NULL (literal "") (Some save_ptr));
    stop ← parse_option name value;
    if stop : bool then mret None else parse_loop fuel (S i)
  end.

Definition parse_options (i : nat) : st bootst (option nat) := parse_loop 66 i.

(** ** run_actions *)

Definition run_task (argv : list (list Z)) : st util unit :=
  task ← argv1 argv;
  Fsutil.printf "Executing '%s':
" (name_arg task);;
  run_test task;;
  Fsutil.printf "Execution of '%s' complete.
" (name_arg task).

Record action := Action { a_name : string; a_argc : nat; function : list (list Z) → st util unit }.

Definition actions : list action :=
  Action "run" 2 run_task ::
  (if FILESYS then
     [Action "ls" 1 (fsutil_ls junk); Action "cat" 2 (fsutil_cat junk); Action "rm" 2 (fsutil_rm junk);
      Action "put" 2 (fsutil_put junk); Action "get" 2 (fsutil_get junk)]
   else []).

Fixpoint find_action (l : list action) (p : Z) : st bootst action :=
  match l with
  | [] => PANIC
  | a :: l => b ← is_lit p (a_name a); if b : bool then mret a else find_action l p
  end.

(** The required arguments: the strings from [argv[i]] on. *)
Fixpoint required (k : nat) (i : nat) : st bootst (list (list Z)) :=
  match k with
  | O => mret []
  | S k => p ← get_arg i; if p =? NULL then PANIC else s ← read_string p; l ← required k (S i); mret (s :: l)
  end.

Fixpoint actions_loop (fuel : nat) (i : nat) : st bootst unit :=
  match fuel with
  | O => st_err NoFuel
  | S fuel =>
    p ← get_arg i;
    if p =? NULL then mret tt else
    a ← find_action actions p;
    argv ← required (a_argc a) i;
    on_acts (function a argv);;
    actions_loop fuel (i + a_argc a)%nat
  end.

Definition run_actions (i : nat) : st bootst unit := actions_loop 66 i.

(** ** main *)

(** [filesys_init] of Directory.v does not print; [do_format] prints these words
    before and after its steps, which print nothing. *)
Definition init_filesys (format : bool) : st util unit :=
  on_fs (Directory.filesys_init hdb format);;
  if format then Fsutil.printf "Formatting file system...done.
" [] else mret tt.

Definition start_filesys : st bootst unit :=
  b ← st_get;
  (if FILESYS then on_acts (init_filesys (format_filesys b)) else mret tt);;
  printf "Boot complete.
" [].

(** The steps of [main] that change this state: the other subsystems have been
    initialised before [start_filesys]. *)
Definition main : st bootst unit :=
  i ← read_command_line;
  i ← parse_options i;
  match i with
  | None => mret tt
  | Some i =>
    start_filesys;;
    run_actions i;;
    b ← st_get;
    if power_off_when_done b then power_off else mret tt
  end.

End build.
End KernelInit.
