(* ===== verification/KernelInitTheorems.v ===== *)
(** threads/init.c: the command line is split, its options are set and its
    actions are executed in order. *)
From S2P Require Import Prelude Bitmap StringC StringTheorems StdlibC StdlibTheorems Stdio Vaddr Inode InodeTheorems FileSys Directory DirectoryTheorems Random IntrTable Fsutil FsutilTheorems KernelInit.
Import Vaddr StringC StringTheorems StdlibC StdlibTheorems Ports Random Fsutil KernelInit.
Local Open Scope Z_scope.

Module KernelInitTheorems.

(** ** Strings one after the other *)

Definition text (s : list Z) : Prop := Forall (λ c, is_byte c ∧ c ≠ 0) s.
Definition laid_out (ws : list (list Z)) : list Z := concat ((λ s, s ++ [0]) <$> ws).
Fixpoint starts (a : Z) (ws : list (list Z)) : list Z :=
  match ws with [] => [] | s :: ws => a :: starts (a + Z.of_nat (length s) + 1) ws end.

Lemma starts_length a ws : length (starts a ws) = length ws.
Proof. revert a. induction ws as [|s ws IH]; intros a; simpl; [done|]. by rewrite IH. Qed.

Lemma laid_out_length s ws : length (laid_out (s :: ws)) = (length s + 1 + length (laid_out ws))%nat.
Proof. unfold laid_out. csimpl. by rewrite !length_app. Qed.

Lemma starts_app a ws vs : starts a (ws ++ vs) = starts a ws ++ starts (a + Z.of_nat (length (laid_out ws))) vs.
Proof.
  revert a. induction ws as [|s ws IH]; intros a; simpl; [by rewrite Z.add_0_r|]. rewrite IH, laid_out_length. do 2 f_equal. f_equal. lia.
Qed.

Lemma laid_out_cons m a s ws : 0 < a → text s → bytes_at m a (laid_out (s :: ws)) →
  cstr m a s ∧ bytes_at m (a + Z.of_nat (length s) + 1) (laid_out ws).
Proof.
  intros Ha Hs Hb. unfold laid_out in Hb. simpl in Hb. apply bytes_at_app in Hb as [H1 H2]. split; [by split|].
  rewrite length_app in H2. simpl in H2. by replace (a + Z.of_nat (length s) + 1) with (a + Z.of_nat (length s + 1)) by lia.
Qed.

Lemma strnlen_loop_ok s : ∀ m a pre n fuel,
  text s → bytes_at m (a + Z.of_nat pre) (s ++ [0]) → (length s < fuel)%nat → Z.of_nat pre + Z.of_nat (length s) ≤ n →
  strnlen_loop fuel a n (Z.of_nat pre) m = Ok (Z.of_nat pre + Z.of_nat (length s), m).
Proof.
  induction s as [|x s IH]; intros m a pre n [|fuel] Hs Hb Hf Hn; simpl in Hf; try lia; cbn [strnlen_loop].
  - simpl in Hb. apply bytes_at_cons in Hb as [Hx _]. rewrite (get_byte_ok _ _ _ _ Hx). simpl. by rewrite Z.add_0_r.
  - simpl in Hb. apply bytes_at_cons in Hb as [Hx Hb]. apply Forall_cons in Hs as [[_ Hx0] Hs].
    rewrite (get_byte_ok _ _ _ _ Hx). apply Z.eqb_neq in Hx0 as ->. simpl in Hn. rewrite (proj2 (Z.ltb_lt (Z.of_nat pre) n)) by lia. cbn [negb andb].
    replace (Z.of_nat pre + 1) with (Z.of_nat (S pre)) by lia. rewrite IH; [do 2 f_equal; simpl; lia|done| |lia|lia].
    by replace (a + Z.of_nat (S pre)) with (a + Z.of_nat pre + 1) by lia.
Qed.

Lemma strnlen_ok m a s n : cstr m a s → Z.of_nat (length s) ≤ n → strnlen a n m = Ok (Z.of_nat (length s), m).
Proof.
  intros Hs Hn. pose proof (cstr_fuel _ _ _ Hs). unfold strnlen. rewrite with_fuel.
  rewrite (strnlen_loop_ok s m a 0 n (S (size m))); [done|apply Hs|rewrite Z.add_0_r; apply Hs|lia|lia].
Qed.

Lemma read_chars_ok m l : ∀ a, bytes_at m a l → read_chars (length l) a m = Ok (l, m).
Proof.
  induction l as [|c l IH]; intros a Hl; cbn [read_chars length]; [done|]. apply bytes_at_cons in Hl as [Hc Hl].
  rewrite (get_byte_ok _ _ _ _ Hc). by rewrite (st_bind_ok _ _ _ _ _ (IH _ Hl)).
Qed.

Lemma read_string_ok b p s : cstr (mem b) p s → read_string p b = Ok (s, b).
Proof.
  intros Hs. unfold read_string, on_mem. rewrite (st_bind_ok _ _ _ _ _ (strlen_ok _ _ _ Hs)), Nat2Z.id.
  pose proof (cstr_bytes _ _ _ Hs) as Hb. apply bytes_at_app in Hb as [Hb _]. rewrite (read_chars_ok _ _ _ Hb). by destruct b.
Qed.

(** ** What is printed *)

Lemma strnlen_bytes_ok s n : text s → Z.of_nat (length s) < n → Stdio.strnlen_bytes (s ++ [0]) n = Ok (length s).
Proof.
  intros Hs. revert n. induction Hs as [|c s [_ Hc] Hs IH]; intros n Hn; [done|]. simpl. apply Z.eqb_neq in Hc. rewrite Hc. simpl.
  simpl in Hn. rewrite (proj2 (Z.ltb_lt 0 n)) by lia. by rewrite IH by lia.
Qed.

Lemma format_plain_string s n c : Stdio.width c = 0 → Stdio.format_string s n c = take n s.
Proof.
  intros Hw. unfold Stdio.format_string. rewrite Hw. rewrite (proj2 (Z.ltb_ge (Z.of_nat n) 0)) by lia. simpl. apply app_nil_r.
Qed.

Lemma printf_word s : text s → Z.of_nat (length s) < 2 ^ 64 - 1 → Stdio.printf (Stdio.lit " %s") (name_arg s) = Ok (32 :: s).
Proof.
  intros Hs Hl. unfold Stdio.printf, Stdio.__printf, name_arg.
  transitivity (n ← Stdio.strnlen_bytes (s ++ [0]) (2 ^ 64 - 1);
    Ok (32 :: Stdio.format_string (s ++ [0]) n (Stdio.Conversion 0 0 (-1) Stdio.INT) ++ [])).
  { generalize (s ++ [0]). intros z. lazy -[Stdio.strnlen_bytes Stdio.format_string]. by destruct (Stdio.strnlen_bytes _ _). }
  rewrite strnlen_bytes_ok by done. cbn [mbind res_bind]. rewrite format_plain_string by done.
  by rewrite app_nil_r, take_app_length.
Qed.

Lemma printf_quoted s : text s → Z.of_nat (length s) < 2 ^ 64 - 1 → Stdio.printf (Stdio.lit " '%s'") (name_arg s) = Ok (32 :: 39 :: s ++ [39]).
Proof.
  intros Hs Hl. unfold Stdio.printf, Stdio.__printf, name_arg.
  transitivity (n ← Stdio.strnlen_bytes (s ++ [0]) (2 ^ 64 - 1);
    Ok (32 :: 39 :: Stdio.format_string (s ++ [0]) n (Stdio.Conversion 0 0 (-1) Stdio.INT) ++ [39])).
  { generalize (s ++ [0]). intros z. lazy -[Stdio.strnlen_bytes Stdio.format_string]. by destruct (Stdio.strnlen_bytes _ _). }
  rewrite strnlen_bytes_ok by done. cbn [mbind res_bind]. rewrite format_plain_string by done.
  by rewrite take_app_length.
Qed.

(** An argument as the kernel shows it. *)
Definition shown (s : list Z) : list Z := if bool_decide (32 ∈ s) then 32 :: 39 :: s ++ [39] else 32 :: s.

Definition printed (l : list Z) (u : util) : util := Util (fsys u) (scratch u) (put_sector u) (get_sector u) (out u ++ l).

Lemma printf_ok fmt a l b : Stdio.printf (Stdio.lit fmt) a = Ok l → printf fmt a b = Ok (tt, set_acts (printed l (acts b)) b).
Proof.
  intros Hp. unfold printf, on_acts, Fsutil.printf, mbind, st_bind, st_of_res. by rewrite Hp.
Qed.

(** ** read_command_line *)

Lemma on_mem_ok {A} (op : st cmem A) b a : op (mem b) = Ok (a, mem b) → on_mem op b = Ok (a, b).
Proof. intros Ho. unfold on_mem. rewrite Ho. by destruct b. Qed.

Lemma get_arg_ok i b p : args b !! i = Some p → get_arg i b = Ok (p, b).
Proof. intros Hp. unfold get_arg, mbind, st_bind, st_get. by rewrite Hp. Qed.

Lemma set_arg_ok i p b : (i < length (args b))%nat → set_arg i p b = Ok (tt, set_args (<[i := p]> (args b)) b).
Proof. intros Hi. unfold set_arg, mbind, st_bind, st_get. by rewrite (proj2 (Nat.ltb_lt _ _) Hi). Qed.

(** The array with the pointers [ps] from index [i] on. *)
Definition filled (i : nat) (ps l : list Z) : list Z := take i l ++ ps ++ drop (i + length ps) l.

Lemma filled_nil i l : filled i [] l = l.
Proof. unfold filled. simpl. by rewrite Nat.add_0_r, take_drop. Qed.

Lemma filled_cons i p ps l : (i < length l)%nat → filled (S i) ps (<[i := p]> l) = filled i (p :: ps) l.
Proof.
  intros Hi. unfold filled. rewrite drop_insert_lt by lia. rewrite (take_S_r _ _ p) by (by apply list_lookup_insert_eq).
  rewrite take_insert_ge by lia. rewrite <- app_assoc. simpl. do 4 f_equal. lia.
Qed.

Lemma args_loop_ok ws : ∀ b i p e, 0 < p → Forall text ws → bytes_at (mem b) p (laid_out ws) →
  p + Z.of_nat (length (laid_out ws)) ≤ e → (i + length ws ≤ length (args b))%nat →
  args_loop (length ws) i p e b = Ok (tt, set_args (filled i (starts p ws) (args b)) b).
Proof.
  induction ws as [|s ws IH]; intros b i p e Hp Ht Hb He Hi; cbn [args_loop length starts].
  { rewrite filled_nil. by destruct b. }
  apply Forall_cons in Ht as [Hs Ht]. destruct (laid_out_cons _ _ _ _ Hp Hs Hb) as [Hcs Hb']. rewrite laid_out_length in He. simpl in Hi.
  rewrite (proj2 (Z.leb_gt e p)) by lia. rewrite (st_bind_ok _ _ _ _ _ (set_arg_ok i p b ltac:(lia))).
  rewrite (st_bind_ok (on_mem _) _ _ (Z.of_nat (length s)) (set_args (<[i := p]> (args b)) b)) by (apply on_mem_ok, strnlen_ok; [done|lia]).
  rewrite IH; [|lia|done|done|lia|simpl; rewrite length_insert; lia]. simpl. by rewrite filled_cons by lia.
Qed.

Lemma find_space_none s : find_index (λ x, x =? 32) (s ++ [0]) = None ↔ ¬ (32 ∈ s).
Proof.
  rewrite find_index_none, Forall_forall. split.
  - intros Hf Hin. specialize (Hf 32 ltac:(apply elem_of_app; by left)). done.
  - intros Hn x [Hx|Hx]%elem_of_app; apply Z.eqb_neq; [by intros ->|]. apply list_elem_of_singleton in Hx as ->. done.
Qed.

Lemma strchr_space m p s : cstr m p s → ∃ r, strchr p 32 m = Ok (r, m) ∧ (r =? NULL) = negb (bool_decide (32 ∈ s)).
Proof.
  intros Hs. eexists. split; [apply strchr_ok; [done|unfold is_byte; lia]|].
  destruct (find_index (λ x, x =? 32) (s ++ [0])) as [k|] eqn:E.
  - rewrite bool_decide_eq_true_2; [|apply dec_stable; intros Hn%find_space_none; congruence]. simpl.
    apply Z.eqb_neq. pose proof (cstr_pos _ _ _ Hs). unfold NULL. lia.
  - apply find_space_none in E. by rewrite bool_decide_eq_false_2.
Qed.

Lemma set_acts_same b : set_acts (acts b) b = b.
Proof. by destruct b. Qed.

Lemma print_args_ok ws : ∀ b i a, 0 < a → Forall text ws → bytes_at (mem b) a (laid_out ws) →
  (∀ k p, starts a ws !! k = Some p → args b !! (i + k)%nat = Some p) → Z.of_nat (length (laid_out ws)) < 2 ^ 64 - 1 →
  print_args (length ws) i b = Ok (tt, set_acts (printed (concat (shown <$> ws)) (acts b)) b).
Proof.
  induction ws as [|s ws IH]; intros b i a Ha Ht Hb Hargs Hlen; cbn [print_args length].
  { unfold printed. csimpl. rewrite app_nil_r. by destruct b as [? ? [] ? ? ? ? ? ?]. }
  apply Forall_cons in Ht as [Hs Ht]. destruct (laid_out_cons _ _ _ _ Ha Hs Hb) as [Hcs Hb']. rewrite laid_out_length in Hlen.
  rewrite (st_bind_ok _ _ _ _ _ (get_arg_ok i b a ltac:(specialize (Hargs 0%nat a eq_refl); by rewrite Nat.add_0_r in Hargs))).
  destruct (strchr_space _ _ _ Hcs) as (r & Hr & Hrn). rewrite (st_bind_ok (on_mem _) _ _ r b) by (by apply on_mem_ok).
  rewrite (st_bind_ok _ _ _ _ _ (read_string_ok b a s Hcs)).
  rewrite (st_bind_ok _ _ _ tt (set_acts (printed (shown s) (acts b)) b)).
  2:{ rewrite Hrn. unfold shown. destruct (bool_decide (32 ∈ s)); simpl; apply printf_ok; [apply printf_quoted|apply printf_word]; done || lia. }
  rewrite (IH _ (S i) (a + Z.of_nat (length s) + 1)); [|lia|done|done| |lia].
  - unfold printed. csimpl. by rewrite app_assoc.
  - intros k p Hk. simpl. specialize (Hargs (S k) p Hk). by replace (S (i + k))%nat with (i + S k)%nat by lia.
Qed.

(** What the boot loader leaves: the number of arguments and the arguments, none
    of them empty, inside the area of 128 bytes. *)
Definition ARGS : Z := ptov LOADER_ARGS.

Record loaded (b : bootst) (ws : list (list Z)) : Prop := {
  lo_cnt : bytes_at (mem b) (ptov LOADER_ARG_CNT) (Inode.le32 (Z.of_nat (length ws)));
  lo_args : bytes_at (mem b) ARGS (laid_out ws);
  lo_text : Forall text ws;
  lo_nonempty : Forall (λ s, s ≠ []) ws;
  lo_fits : Z.of_nat (length (laid_out ws)) ≤ LOADER_ARGS_LEN;
  lo_array : length (args b) = 65%nat }.

Lemma laid_out_half ws : Forall (λ s, s ≠ []) ws → (2 * length ws ≤ length (laid_out ws))%nat.
Proof.
  induction 1 as [|s ws Hs _ IH]; [done|]. rewrite laid_out_length. simpl. destruct s; [done|]. simpl. lia.
Qed.

Lemma filled_end ps l : (length ps < length l)%nat → <[length ps := NULL]> (filled 0 ps l) = filled 0 (ps ++ [NULL]) l.
Proof.
  intros Hl. unfold filled. simpl. destruct (lookup_lt_is_Some_2 l (length ps) Hl) as [x Hx].
  rewrite (drop_S _ _ _ Hx), length_app. simpl. rewrite Nat.add_1_r, <- app_assoc. simpl.
  rewrite insert_app_r_alt by done. by rewrite Nat.sub_diag.
Qed.

Definition banner (ws : list (list Z)) : list Z := Stdio.chars "Kernel command line:" ++ concat (shown <$> ws) ++ [10].
Definition argv_of (ws : list (list Z)) : list Z := starts ARGS ws ++ [NULL].

Definition after_read (ws : list (list Z)) (b : bootst) : bootst :=
  set_acts (printed (banner ws) (acts b)) (set_args (filled 0 (argv_of ws) (args b)) b).

Lemma read_command_line_ok b ws : loaded b ws → read_command_line b = Ok (0%nat, after_read ws b).
Proof.
  intros [H1 H2 H3 H4 H5 H6]. pose proof (laid_out_half ws H4) as Hhalf. unfold LOADER_ARGS_LEN in H5.
  assert (Hpos : 0 < ARGS) by (by vm_compute).
  assert (Hn : Inode.of_le (Inode.le32 (Z.of_nat (length ws))) = Z.of_nat (length ws)) by (apply InodeTheorems.le32_decode; lia).
  unfold read_command_line.
  rewrite (st_bind_ok (on_mem _) _ _ (Z.of_nat (length ws)) b).
  2:{ apply on_mem_ok. unfold read32. rewrite (st_bind_ok _ _ _ _ _ (read_chars_ok _ _ _ H1)). by rewrite Hn. }
  cbv zeta. rewrite i32_small, Nat2Z.id, (proj2 (Z.leb_le 0 _)) by lia. fold ARGS.
  rewrite (st_bind_ok _ _ _ _ _ (args_loop_ok ws b 0 ARGS (ARGS + LOADER_ARGS_LEN) Hpos H3 H2 ltac:(unfold LOADER_ARGS_LEN; lia) ltac:(lia))).
  set (l1 := filled 0 (starts ARGS ws) (args b)).
  assert (Hl1 : length l1 = 65%nat).
  { unfold l1, filled. simpl. rewrite length_app, length_drop, starts_length. lia. }
  rewrite (st_bind_ok _ _ _ _ _ (set_arg_ok (length ws) NULL (set_args l1 b) ltac:(simpl; lia))). simpl (args (set_args l1 b)).
  assert (Hfill : <[length ws := NULL]> l1 = filled 0 (argv_of ws) (args b)).
  { unfold l1, argv_of. rewrite <- (starts_length ARGS ws). apply filled_end. rewrite starts_length. lia. }
  rewrite Hfill. set (b1 := set_args (filled 0 (argv_of ws) (args b)) (set_args l1 b)).
  rewrite (st_bind_ok _ _ _ tt (set_acts (printed (Stdio.chars "Kernel command line:") (acts b1)) b1)) by (apply printf_ok; by vm_compute).
  set (b2 := set_acts _ b1). assert (Hk : ∀ k p, starts ARGS ws !! k = Some p → args b2 !! (0 + k)%nat = Some p).
  { intros k p Hk. simpl. unfold filled. simpl. apply lookup_app_l_Some. unfold argv_of. by apply lookup_app_l_Some. }
  rewrite (st_bind_ok _ _ _ _ _ (print_args_ok ws b2 0 ARGS Hpos H3 H2 Hk ltac:(lia))).
  set (b3 := set_acts _ b2).
  rewrite (st_bind_ok (printf _ []) _ _ tt (set_acts (printed [10] (acts b3)) b3)) by (apply printf_ok; by vm_compute).
  cbn [mret st_ret]. f_equal. f_equal. unfold after_read, b3, b2, b1, printed, banner. simpl. by rewrite <- !app_assoc.
Qed.

Section build.
Context (FILESYS : bool) (literal : string → Z) (junk : list Z) (run_test : list Z → st util unit)
  (hdb : option (list (list Z))).

(** ** The string literals *)

Definition literals : list string := ["="; ""; "-h"; "-q"; "-f"; "-rs"; "-mlfqs"; "run"; "ls"; "cat"; "rm"; "put"; "get"].

(** The literals are in memory, outside the loader's area. *)
Definition lits_ok (m : cmem) : Prop := ∀ l, l ∈ literals →
  cstr m (literal l) (Stdio.chars l)
  ∧ (literal l + Z.of_nat (length (Stdio.chars l)) < ARGS ∨ ARGS + LOADER_ARGS_LEN ≤ literal l).

Definition same_outside (m m' : cmem) : Prop := ∀ x, ¬ (ARGS ≤ x < ARGS + LOADER_ARGS_LEN) → m' !! x = m !! x.

Lemma lits_same m m' : lits_ok m → same_outside m m' → lits_ok m'.
Proof.
  intros Hl Hs l Hin. destruct (Hl l Hin) as [Hc Hd]. split; [|done]. eapply cstr_agree; [exact Hc|]. intros x Hx. apply Hs. lia.
Qed.

Lemma is_lit_ok b p s l : cstr (mem b) p s → lits_ok (mem b) → l ∈ literals →
  is_lit literal p l b = Ok (bool_decide (s = Stdio.chars l), b).
Proof.
  intros Hs Hl Hin. destruct (Hl l Hin) as [Hc _]. destruct (strcmp_orders _ _ _ _ _ Hs Hc) as (r & Hr & _ & Hiff).
  unfold is_lit. rewrite (st_bind_ok (on_mem _) _ _ r b) by (by apply on_mem_ok). unfold mret, st_ret. do 2 f_equal.
  destruct (Z.eqb_spec r 0); symmetry; [apply bool_decide_eq_true_2|apply bool_decide_eq_false_2]; tauto.
Qed.

(** ** Options *)

(** The name of an option, its value and what it sets. *)
Inductive opt : list Z → list Z → (bootst → bootst) → Prop :=
  | OptQ v : opt (Stdio.chars "-q") v set_power_off
  | OptF v : FILESYS = true → opt (Stdio.chars "-f") v set_format
  | OptRs v : v ≠ [] → Forall digit v → decimal v < 2 ^ 31 →
      opt (Stdio.chars "-rs") v (λ b, set_rng (random_init (u32 (decimal v)) (rng b)) b)
  | OptMlfqs v : opt (Stdio.chars "-mlfqs") v set_mlfqs.

Definition opt_arg (a : list Z) (f : bootst → bootst) : Prop :=
  ∃ name value, opt name value f ∧ (a = name ∧ value = [] ∨ a = name ++ 61 :: value).

Lemma opt_effect name v f b m l : opt name v f →
  f (set_mem m b) = set_mem m (f b) ∧ mem (f b) = mem b ∧ args (f b) = args b ∧ acts (f b) = acts b ∧ f (set_args l b) = set_args l (f b).
Proof. by destruct 1. Qed.

Lemma parse_option_ok b name p v q f : opt name v f → cstr (mem b) p name → lits_ok (mem b) →
  (v ≠ [] → cstr (mem b) q v) → parse_option FILESYS literal p q b = Ok (false, f b).
Proof.
  intros Ho Hp Hl Hv. unfold parse_option.
  assert (Hlit : ∀ l, l ∈ literals → is_lit literal p l b = Ok (bool_decide (name = Stdio.chars l), b)) by (intros; by apply is_lit_ok).
  assert (Hf : (if FILESYS then is_lit literal p "-f" else mret false) b = Ok (FILESYS && bool_decide (name = Stdio.chars "-f"), b)).
  { destruct FILESYS; [|done]. apply Hlit. by apply (bool_decide_unpack _). }
  rewrite (st_bind_ok _ _ _ _ _ (Hlit "-h" ltac:(by apply (bool_decide_unpack _)))).
  destruct Ho; repeat first
    [rewrite (st_bind_ok _ _ _ _ _ (Hlit "-q" ltac:(by apply (bool_decide_unpack _))))
    |rewrite (st_bind_ok _ _ _ _ _ Hf)
    |rewrite (st_bind_ok _ _ _ _ _ (Hlit "-rs" ltac:(by apply (bool_decide_unpack _))))
    |rewrite (st_bind_ok _ _ _ _ _ (Hlit "-mlfqs" ltac:(by apply (bool_decide_unpack _))))
    |rewrite bool_decide_eq_false_2 by done|rewrite bool_decide_eq_true_2 by done|rewrite andb_false_r]; try done.
  - subst FILESYS. done.
  - rewrite (st_bind_ok (on_mem _) _ _ (decimal v) b); [done|]. apply on_mem_ok.
    pose proof (atoi_ok (mem b) q [] [] v []) as Ha. rewrite app_nil_r in Ha. simpl in Ha. apply Ha; try done; [by apply Hv|by left|].
    split; [|done]. pose proof (decimal_from_ge v 0 ltac:(done) ltac:(lia)) as Hd. change (decimal_from 0 v) with (decimal v) in Hd. lia.
Qed.

Lemma opt_tokens name v f a : opt name v f → a = name ∧ v = [] ∨ a = name ++ 61 :: v →
  find_index (λ x, negb (in_set [61] x)) a = Some 0%nat
  ∧ take (default (length a) (find_index (in_set [61]) a)) a = name
  ∧ drop (S (default (length a) (find_index (in_set [61]) a))) a = v ∧ head a = Some 45 ∧ name ≠ [].
Proof. intros Ho Ha. destruct Ho; destruct Ha as [[-> ->]| ->]; (split_and!; [done..|by vm_compute]). Qed.

(** The two calls of [strtok_r] split an option into name and value, inside its
    own characters. *)
Lemma split_option m p a name v f : cstr m p a → opt name v f → a = name ∧ v = [] ∨ a = name ++ 61 :: v →
  lits_ok m → ARGS ≤ p → p + Z.of_nat (length a) < ARGS + LOADER_ARGS_LEN →
  ∃ save q m1 m2 x, strtok_r p (literal "=") (Some 0) m = Ok ((p, save), m1)
    ∧ strtok_r NULL (literal "") (Some save) m1 = Ok ((q, x), m2)
    ∧ cstr m2 p name ∧ (v ≠ [] → cstr m2 q v) ∧ (∀ x, ¬ (p ≤ x < p + Z.of_nat (length a)) → m2 !! x = m !! x).
Proof.
  intros Hc Ho Ha Hl Hp He. destruct (opt_tokens _ _ _ _ Ho Ha) as (F1 & F2 & F3 & _ & _).
  pose proof (strtok_step (literal "=") [61] m p a Hc (proj1 (Hl "=" ltac:(set_solver)))) as Hst. rewrite F1 in Hst. cbv zeta in Hst.
  rewrite drop_0 in Hst. set (n := default (length a) (find_index (in_set [61]) a)) in *.
  destruct Hst as (save & m1 & Hop & Hsv & Ht1 & Ht2 & Hpl & Hfr & Hpn). rewrite F2 in Ht1. rewrite F3 in Ht2, Hpl, Hpn.
  rewrite Z.add_0_r in Hop, Ht1. exists save. simpl Nat.add in Hsv, Hpn.
  assert (Hlen : (length name ≤ n)%nat) by (rewrite <- F2, length_take; lia).
  assert (Hs1 : same_outside m m1) by (intros x Hx; apply Hfr; lia).
  pose proof (lits_same _ _ Hl Hs1) as Hl1. pose proof (proj1 (Hl1 "" ltac:(set_solver))) as Hempty.
  assert (Hsp : 0 < save) by (pose proof (cstr_pos _ _ _ Hc); lia).
  pose proof (strtok_step (literal "") [] m1 save v Ht2 Hempty) as Hst2.
  pose proof (strtok_start (literal "") [] m1 save NULL save Hempty Hsp eq_refl) as Hstart.
  destruct v as [|c v].
  - simpl in Hst2. exists NULL, m1, m1. eexists. split; [exact Hop|]. split; [rewrite Hstart; exact Hst2|]. split; [done|].
    split; [done|]. intros x Hx. apply Hfr. lia.
  - assert (E1 : find_index (λ x, negb (in_set [] x)) (c :: v) = Some 0%nat) by done.
    assert (E2 : find_index (in_set []) (c :: v) = None) by (apply find_index_none, Forall_forall; done).
    rewrite E1 in Hst2. cbv zeta in Hst2. rewrite drop_0, E2 in Hst2. cbn [default] in Hst2.
    destruct Hst2 as (q & m2 & Hop2 & _ & Hv & _ & _ & Hfr2 & _). rewrite Z.add_0_r in Hop2, Hv. rewrite take_ge in Hv by lia.
    exists save, m1, m2, q. split; [exact Hop|]. split; [rewrite Hstart; exact Hop2|]. split; [|split; [done|]].
    + eapply cstr_agree; [exact Ht1|]. intros x Hx. apply Hfr2. specialize (Hpn ltac:(done)). lia.
    + intros x Hx. rewrite Hfr2 by lia. apply Hfr. lia.
Qed.

(** The pointers [ps] are the entries of the array from [i] on. *)
Definition args_at (i : nat) (ps : list Z) (b : bootst) : Prop := ∀ k p, ps !! k = Some p → args b !! (i + k)%nat = Some p.

Lemma args_at_cons i p ps b : args_at i (p :: ps) b ↔ args b !! i = Some p ∧ args_at (S i) ps b.
Proof.
  split.
  - intros H. split; [specialize (H 0%nat p eq_refl); by rewrite Nat.add_0_r in H|]. intros k q Hk. specialize (H (S k) q Hk).
    by replace (S i + k)%nat with (i + S k)%nat by lia.
  - intros [H1 H2] [|k] q Hk; [rewrite Nat.add_0_r; by simplify_eq/=|]. specialize (H2 k q Hk). by replace (i + S k)%nat with (S i + k)%nat by lia.
Qed.

(** A word that [parse_options] leaves to [run_actions]. *)
Definition first_action (ws : list (list Z)) : Prop := match ws with [] => True | w :: _ => head w ≠ Some 45 end.

Lemma bytes_at_frame m m' a l : bytes_at m a l → (∀ x, a ≤ x < a + Z.of_nat (length l) → m' !! x = m !! x) → bytes_at m' a l.
Proof. intros Hb Hs k c Hk. rewrite Hs; [by apply Hb|]. apply lookup_lt_Some in Hk. lia. Qed.

Definition apply_all (fs : list (bootst → bootst)) (b : bootst) : bootst := foldl (λ b f, f b) b fs.

Lemma parse_loop_stops b i a ws fuel :
  0 < a → Forall text ws → first_action ws → bytes_at (mem b) a (laid_out ws) → args_at i (starts a ws ++ [NULL]) b → (0 < fuel)%nat →
  parse_loop FILESYS literal fuel i b = Ok (Some i, b).
Proof.
  intros Ha Ht Hf Hb Hargs Hfuel. destruct fuel as [|fuel]; [lia|]. cbn [parse_loop]. destruct ws as [|w ws].
  { simpl in Hargs. apply args_at_cons in Hargs as [H0 _]. by rewrite (st_bind_ok _ _ _ _ _ (get_arg_ok i b NULL H0)). }
  simpl in Hargs. apply args_at_cons in Hargs as [H0 _]. rewrite (st_bind_ok _ _ _ _ _ (get_arg_ok i b a H0)).
  assert (a =? NULL = false) as -> by (apply Z.eqb_neq; unfold NULL; lia).
  apply Forall_cons in Ht as [Hw _]. destruct (laid_out_cons _ _ _ _ Ha Hw Hb) as [Hc _]. apply cstr_bytes in Hc.
  assert (∃ c, mem b !! a = Some c ∧ c ≠ 45) as (c & Hm & Hc45).
  { destruct w as [|c w]; simpl in Hc; apply bytes_at_cons in Hc as [Hc _]; [by exists 0|]. exists c. split; [done|]. simpl in Hf. congruence. }
  rewrite (st_bind_ok (on_mem _) _ _ c b) by (apply on_mem_ok; unfold get_byte; by rewrite Hm).
  by apply Z.eqb_neq in Hc45 as ->.
Qed.


Lemma parse_loop_option b i p a f fuel :
  0 < p → cstr (mem b) p a → opt_arg a f → lits_ok (mem b) → args b !! i = Some p →
  ARGS ≤ p → p + Z.of_nat (length a) < ARGS + LOADER_ARGS_LEN →
  ∃ m, parse_loop FILESYS literal (S fuel) i b = parse_loop FILESYS literal fuel (S i) (set_mem m (f b))
    ∧ (∀ x, ¬ (p ≤ x < p + Z.of_nat (length a)) → m !! x = mem b !! x).
Proof.
  intros Hp Hc (name & v & Ho & Ha) Hl Hi H1 H2.
  destruct (opt_tokens _ _ _ _ Ho Ha) as (_ & _ & _ & Hh & _).
  destruct (split_option _ _ _ _ _ _ Hc Ho Ha Hl H1 H2) as (save & q & m1 & m2 & x & Ht1 & Ht2 & Hn & Hv & Hfr).
  exists m2. split; [|exact Hfr]. cbn [parse_loop]. rewrite (st_bind_ok _ _ _ _ _ (get_arg_ok i b p Hi)).
  assert (p =? NULL = false) as -> by (apply Z.eqb_neq; unfold NULL; lia).
  assert (Hm : mem b !! p = Some 45).
  { apply cstr_bytes in Hc. destruct a as [|c a]; simplify_eq/=. by apply bytes_at_cons in Hc as [Hc _]. }
  rewrite (st_bind_ok (on_mem _) _ _ 45 b) by (apply on_mem_ok; unfold get_byte; by rewrite Hm). cbn [negb Z.eqb Pos.eqb].
  rewrite (st_bind_ok (on_mem _) _ _ (p, save) (set_mem m1 b)) by (unfold on_mem; by rewrite Ht1).
  rewrite (st_bind_ok (on_mem _) _ _ (q, x) (set_mem m2 b)) by (unfold on_mem; simpl; by rewrite Ht2).
  assert (Hl2 : lits_ok m2) by (eapply lits_same; [exact Hl|]; intros y Hy; apply Hfr; lia).
  rewrite (st_bind_ok _ _ _ _ _ (parse_option_ok (set_mem m2 b) _ _ _ _ _ Ho Hn Hl2 Hv)).
  by destruct (opt_effect _ _ _ b m2 [] Ho) as (-> & _).
Qed.

Lemma opt_arg_effect a f b m : opt_arg a f → f (set_mem m b) = set_mem m (f b) ∧ mem (f b) = mem b ∧ args (f b) = args b ∧ acts (f b) = acts b.
Proof. intros (name & v & Ho & _). destruct (opt_effect _ _ _ b m [] Ho) as (?&?&?&?&_). done. Qed.

Lemma apply_all_effect os fs b m : Forall2 opt_arg os fs →
  apply_all fs (set_mem m b) = set_mem m (apply_all fs b) ∧ mem (apply_all fs b) = mem b ∧ args (apply_all fs b) = args b
  ∧ acts (apply_all fs b) = acts b.
Proof.
  intros Ho. revert b. induction Ho as [|a f os fs Ha _ IH]; intros b; [done|]. unfold apply_all in *. simpl.
  destruct (opt_arg_effect _ _ b m Ha) as (-> & H2 & H3 & H4). destruct (IH (f b)) as (E1 & E2 & E3 & E4). by rewrite E1, E2, E3, E4.
Qed.

Lemma parse_loop_ok os fs ws : Forall2 opt_arg os fs → ∀ b i a fuel,
  ARGS ≤ a → a + Z.of_nat (length (laid_out os)) ≤ ARGS + LOADER_ARGS_LEN → Forall text (os ++ ws) → first_action ws → lits_ok (mem b) →
  bytes_at (mem b) a (laid_out (os ++ ws)) → args_at i (starts a (os ++ ws) ++ [NULL]) b → (length os < fuel)%nat →
  ∃ m, parse_loop FILESYS literal fuel i b = Ok (Some (i + length os)%nat, set_mem m (apply_all fs b))
    ∧ (∀ x, ¬ (a ≤ x < a + Z.of_nat (length (laid_out os))) → m !! x = mem b !! x).
Proof.
  induction 1 as [|o f os fs Ho Hos IH]; intros b i a fuel H1 H2 Ht Hf Hl Hb Hargs Hfuel;
    assert (Hpos : 0 < a) by (assert (0 < ARGS) by (by vm_compute); lia).
  { exists (mem b). split; [|done]. simpl. rewrite (parse_loop_stops b i a ws fuel) by (done || simpl in Hfuel; lia).
    rewrite Nat.add_0_r. by destruct b. }
  cbn [app] in *. apply Forall_cons in Ht as [Ho1 Ht]. rewrite laid_out_length in H2. destruct (laid_out_cons _ _ _ _ Hpos Ho1 Hb) as [Hc Hb'].
  cbn [starts app] in Hargs. apply args_at_cons in Hargs as [Hi Hargs]. destruct fuel as [|fuel]; [simpl in Hfuel; lia|].
  destruct (parse_loop_option b i a o f fuel Hpos Hc Ho Hl Hi ltac:(lia) ltac:(lia)) as (m & -> & Hfr).
  destruct (opt_arg_effect _ _ b m Ho) as (_ & E2 & E3 & _).
  destruct (IH (set_mem m (f b)) (S i) (a + Z.of_nat (length o) + 1) fuel) as (m2 & Hr & Hfr2); try done; try (simpl in *; lia).
  - eapply lits_same; [exact Hl|]. intros x Hx. apply Hfr. lia.
  - eapply bytes_at_frame; [exact Hb'|]. intros x Hx. simpl. apply Hfr. lia.
  - intros k q Hk. simpl. rewrite E3. by apply Hargs.
  - exists m2. split.
    + rewrite Hr. destruct (apply_all_effect _ _ (f b) m Hos) as (-> & _). cbn [length]. do 3 f_equal. lia.
    + intros x Hx. rewrite laid_out_length in Hx. rewrite Hfr2 by lia. apply Hfr. lia.
Qed.


(** ** Actions *)

Inductive command := Run (task : list Z) | Ls | Cat (name : list Z) | Rm (name : list Z) | Put (name : list Z) | Get (name : list Z).

Definition words_of (c : command) : list (list Z) :=
  match c with
  | Run t => [Stdio.chars "run"; t] | Ls => [Stdio.chars "ls"] | Cat f => [Stdio.chars "cat"; f]
  | Rm f => [Stdio.chars "rm"; f] | Put f => [Stdio.chars "put"; f] | Get f => [Stdio.chars "get"; f]
  end.

Definition perform (c : command) : st util unit :=
  match c with
  | Run t => run_task run_test (words_of c) | Ls => fsutil_ls junk (words_of c) | Cat f => fsutil_cat junk (words_of c)
  | Rm f => fsutil_rm junk (words_of c) | Put f => fsutil_put junk (words_of c) | Get f => fsutil_get junk (words_of c)
  end.

(** A kernel without a file system has one action. *)
Definition available (c : command) : Prop := match c with Run _ => True | _ => FILESYS = true end.

Fixpoint perform_all (cs : list command) : st util unit :=
  match cs with [] => mret tt | c :: cs => perform c;; perform_all cs end.

Definition command_words (cs : list command) : list (list Z) := concat (words_of <$> cs).

Fixpoint find_word (l : list action) (w : list Z) : option action :=
  match l with [] => None | a :: l => if bool_decide (w = Stdio.chars (a_name a)) then Some a else find_word l w end.

Lemma find_word_eq n k fn l w : w = Stdio.chars n → find_word (Action n k fn :: l) w = Some (Action n k fn).
Proof. intros ->. cbn [find_word a_name]. by rewrite bool_decide_eq_true_2. Qed.

Lemma find_word_ne n k fn l w : w ≠ Stdio.chars n → find_word (Action n k fn :: l) w = find_word l w.
Proof. intros Hw. cbn [find_word a_name]. by rewrite bool_decide_eq_false_2. Qed.

Lemma find_action_ok l b p w : cstr (mem b) p w → lits_ok (mem b) → Forall (λ a, a_name a ∈ literals) l →
  find_action literal l p b = match find_word l w with Some a => Ok (a, b) | None => Err PanicCall end.
Proof.
  intros Hp Hl. induction 1 as [|a l Ha _ IH]; [done|]. cbn [find_action find_word]. rewrite (st_bind_ok _ _ _ _ _ (is_lit_ok b p w _ Hp Hl Ha)).
  by destruct (bool_decide _).
Qed.

Lemma actions_literals : Forall (λ a, a_name a ∈ literals) (actions FILESYS junk run_test).
Proof. unfold actions. destruct FILESYS; repeat constructor; simpl; set_solver. Qed.

Lemma command_action c : available c → ∃ w a, head (words_of c) = Some w ∧ find_word (actions FILESYS junk run_test) w = Some a
  ∧ a_argc a = length (words_of c) ∧ function a (words_of c) = perform c.
Proof.
  intros Ha. unfold actions. destruct c; simpl in Ha; try rewrite Ha; do 2 eexists; (split; [reflexivity|]);
    (split; [repeat first [apply find_word_eq; reflexivity|rewrite find_word_ne by (vm_compute; congruence)]|split; [reflexivity|cbn [function perform]; reflexivity]]).
Qed.

Lemma required_ok ws vs : ∀ b i a, 0 < a → Forall text ws → bytes_at (mem b) a (laid_out (ws ++ vs)) →
  args_at i (starts a (ws ++ vs) ++ [NULL]) b → required (length ws) i b = Ok (ws, b).
Proof.
  induction ws as [|w ws IH]; intros b i a Ha Ht Hb Hargs; [done|]. cbn [required length]. apply Forall_cons in Ht as [Hw Ht].
  cbn [app starts] in *. apply args_at_cons in Hargs as [Hi Hargs]. destruct (laid_out_cons _ _ _ _ Ha Hw Hb) as [Hc Hb'].
  rewrite (st_bind_ok _ _ _ _ _ (get_arg_ok i b a Hi)).
  assert (a =? NULL = false) as -> by (apply Z.eqb_neq; unfold NULL; lia).
  rewrite (st_bind_ok _ _ _ _ _ (read_string_ok b a w Hc)).
  by rewrite (st_bind_ok _ _ _ _ _ (IH b (S i) (a + Z.of_nat (length w) + 1) ltac:(lia) Ht Hb' Hargs)).
Qed.


Lemma actions_loop_ok cs : ∀ b i a fuel,
  0 < a → Forall available cs → Forall text (command_words cs) → lits_ok (mem b) → bytes_at (mem b) a (laid_out (command_words cs)) →
  args_at i (starts a (command_words cs) ++ [NULL]) b → (length cs < fuel)%nat →
  actions_loop FILESYS literal junk run_test fuel i b = on_acts (perform_all cs) b.
Proof.
  induction cs as [|c cs IH]; intros b i a fuel Ha Hav Ht Hl Hb Hargs Hfuel; (destruct fuel as [|fuel]; [simpl in Hfuel; lia|]); cbn [actions_loop].
  { cbn in Hargs. apply args_at_cons in Hargs as [H0 _]. rewrite (st_bind_ok _ _ _ _ _ (get_arg_ok i b NULL H0)). unfold on_acts. simpl.
    by rewrite set_acts_same. }
  apply Forall_cons in Hav as [Hc Hav]. destruct (command_action c Hc) as (w & act & Hw & Hfind & Hargc & Hfun).
  change (command_words (c :: cs)) with (words_of c ++ command_words cs) in *. apply Forall_app in Ht as [Ht1 Ht2].
  pose proof (required_ok _ _ _ _ _ Ha Ht1 Hb Hargs) as Hreq.
  assert (args b !! i = Some a ∧ cstr (mem b) a w) as [Hi Hcs].
  { destruct (words_of c) as [|w' ws]; simplify_eq/=. apply args_at_cons in Hargs as [Hi _]. apply Forall_cons in Ht1 as [Hw _].
    split; [done|]. by destruct (laid_out_cons _ _ _ _ Ha Hw Hb). }
  rewrite (st_bind_ok _ _ _ _ _ (get_arg_ok i b a Hi)).
  assert (a =? NULL = false) as -> by (apply Z.eqb_neq; unfold NULL; lia).
  pose proof (find_action_ok _ b a w Hcs Hl actions_literals) as Hfa. rewrite Hfind in Hfa. rewrite (st_bind_ok _ _ _ _ _ Hfa).
  rewrite Hargc, (st_bind_ok _ _ _ _ _ Hreq), Hfun. cbn [perform_all]. unfold on_acts at 1 2.
  unfold mbind, st_bind. destruct (perform c (acts b)) as [[[] u]|e]; [|done].
  rewrite starts_app in Hargs. rewrite (IH (set_acts u b) (i + length (words_of c))%nat (a + Z.of_nat (length (laid_out (words_of c)))) fuel); try done; try (simpl in *; lia).
  - unfold laid_out in Hb. rewrite fmap_app, concat_app in Hb. by apply bytes_at_app in Hb as [_ Hb].
  - intros k q Hk. simpl. specialize (Hargs (length (words_of c) + k)%nat q). rewrite <- app_assoc, Nat.add_assoc in Hargs. apply Hargs.
    rewrite lookup_app_r by (rewrite starts_length; lia). rewrite starts_length. by replace (length (words_of c) + k - length (words_of c))%nat with k by lia.
Qed.

Lemma command_words_length cs : (length cs ≤ length (command_words cs))%nat.
Proof. induction cs as [|c cs IH]; [done|]. unfold command_words in *. csimpl. rewrite length_app. destruct c; simpl; lia. Qed.

Lemma command_words_first cs : first_action (command_words cs).
Proof. by destruct cs as [|[] cs]. Qed.

Lemma bind_on_acts {A B} (op : st util A) (k : A → st bootst B) b :
  (on_acts op ≫= k) b = match op (acts b) with Ok (a, u) => k a (set_acts u b) | Err e => Err e end.
Proof. unfold mbind, st_bind, on_acts. by destruct (op (acts b)) as [[a u]|e]. Qed.

(** What is done with the file system and the console when the options are set. *)
Definition started (format : bool) : st util unit :=
  (if FILESYS then init_filesys hdb format else mret tt);;
  Fsutil.printf "Boot complete.
" [].
Definition session (format : bool) (cs : list command) : st util unit := started format;; perform_all cs.

Lemma start_filesys_ok {B} (k : st bootst B) b :
  (start_filesys FILESYS hdb;; k) b = match started (format_filesys b) (acts b) with Ok (_, u) => k (set_acts u b) | Err e => Err e end.
Proof.
  unfold start_filesys, started, printf. rewrite st_bind_assoc. unfold mbind at 1. unfold st_bind at 1, st_get. rewrite st_bind_assoc.
  destruct FILESYS; [|cbn [mret st_ret]; rewrite !(st_bind_ok (mret tt) _ _ tt _) by done].
  - rewrite bind_on_acts. unfold mbind at 2, st_bind. destruct (init_filesys _ _ (acts b)) as [[[] u]|e]; [|done]. by rewrite bind_on_acts.
  - by rewrite bind_on_acts.
Qed.

(** The machine is powered off when [-q] was given. *)
Definition finish : st bootst unit := b ← st_get; if power_off_when_done b then power_off FILESYS else mret tt.

(** C33: a command line that consists of options and then actions is carried out
    as written: the line is shown, each option sets its flag, the file system is
    started with the flag for formatting, the actions are performed in order
    and with their arguments, and the machine is powered off exactly when asked
    to; an error of an action is the error of the whole.  Memory changes only
    inside the boot loader's area. *)
Theorem command_line_executes b os fs cs :
  loaded b (os ++ command_words cs) → Forall2 opt_arg os fs → Forall available cs → lits_ok (mem b) →
  let b1 := apply_all fs (after_read (os ++ command_words cs) b) in
  ∃ m, same_outside (mem b) m
    ∧ main FILESYS literal junk run_test hdb b = (on_acts (session (format_filesys b1) cs);; finish) (set_mem m b1).
Proof.
  intros Hload Hos Hav Hl. unfold main. rewrite (st_bind_ok _ _ _ _ _ (read_command_line_ok _ _ Hload)).
  destruct Hload as [_ H2 H3 H4 H5 H6]. pose proof (laid_out_half _ H4) as Hhalf. pose proof (command_words_length cs) as Hlen.
  unfold LOADER_ARGS_LEN in H5. rewrite length_app in Hhalf. set (ws := command_words cs) in *. set (b1 := after_read (os ++ ws) b).
  assert (Hsplit : laid_out (os ++ ws) = laid_out os ++ laid_out ws) by (unfold laid_out; by rewrite fmap_app, concat_app).
  assert (Htot := H5). rewrite Hsplit, length_app in Htot.
  assert (Hargs : args_at 0 (starts ARGS (os ++ ws) ++ [NULL]) b1).
  { intros k q Hk. simpl. unfold filled. simpl. by apply lookup_app_l_Some. }
  destruct (parse_loop_ok os fs ws Hos b1 0 ARGS 66) as (m & Hp & Hfr); try done; try (apply command_words_first); try (unfold LOADER_ARGS_LEN; lia).
  destruct (apply_all_effect _ _ b1 m Hos) as (_ & E2 & E3 & E4).
  exists m. split; [intros x Hx; rewrite Hfr by (unfold LOADER_ARGS_LEN in Hx; lia); done|].
  unfold parse_options. rewrite (st_bind_ok _ _ _ _ _ Hp). cbv zeta beta iota. simpl (0 + _)%nat.
  rewrite start_filesys_ok, bind_on_acts. unfold session. change (format_filesys (set_mem m (apply_all fs b1))) with (format_filesys (apply_all fs b1)).
  unfold mbind at 3. unfold st_bind at 3. destruct (started _ (acts (set_mem m (apply_all fs b1)))) as [[[] u]|e]; [|done].
  unfold run_actions. rewrite starts_app in Hargs. unfold mbind at 1. unfold st_bind at 1.
  rewrite (actions_loop_ok cs _ (length os) (ARGS + Z.of_nat (length (laid_out os)))); [| | | | | | |lia].
  - unfold on_acts. simpl (acts _). by destruct (perform_all cs u) as [[[] u']|e].
  - assert (0 < ARGS) by (by vm_compute). lia.
  - done.
  - by apply Forall_app in H3 as [_ H3].
  - eapply lits_same; [exact Hl|]. intros x Hx. simpl. rewrite Hfr by (unfold LOADER_ARGS_LEN in Hx; lia). done.
  - simpl. rewrite Hsplit in H2. apply bytes_at_app in H2 as [_ H2]. eapply bytes_at_frame; [exact H2|]. intros x Hx. rewrite Hfr by lia. done.
  - intros k q Hk. simpl. rewrite E3. specialize (Hargs (length os + k)%nat q). apply Hargs. rewrite <- app_assoc.
    rewrite lookup_app_r by (rewrite starts_length; lia). rewrite starts_length. by replace (length os + k - length os)%nat with k by lia.
Qed.

End build.

(** ** A command line *)

Lemma bytes_at_check m a l : (λ i, m !! (a + Z.of_nat i)) <$> seq 0 (length l) = Some <$> l → bytes_at m a l.
Proof.
  intros H i c Hi. assert (Hs : seq 0 (length l) !! i = Some i) by (apply lookup_seq; split; [done|by eapply lookup_lt_Some]).
  assert (Hl : ((λ i, m !! (a + Z.of_nat i)) <$> seq 0 (length l)) !! i = Some (m !! (a + Z.of_nat i))) by (by rewrite list_lookup_fmap, Hs).
  rewrite H, list_lookup_fmap, Hi in Hl. simpl in Hl. congruence.
Qed.

Fixpoint store (a : Z) (l : list Z) (m : cmem) : cmem := match l with [] => m | c :: l => <[a := c]> (store (a + 1) l m) end.

Definition demo_literal (l : string) : Z :=
  0x100000 + 16 * Z.of_nat (default 0%nat (fst <$> list_find (λ x, x = l) literals)).
Definition demo_memory (n : nat) (area : list Z) : cmem :=
  store (ptov LOADER_ARG_CNT) (Inode.le32 (Z.of_nat n) ++ area ++ replicate (128 - length area) 0)
    (foldr (λ l m, store (demo_literal l) (Stdio.chars l ++ [0]) m) ∅ literals).

Definition demo_boot (ws : list (list Z)) : bootst :=
  BootSt (demo_memory (length ws) (laid_out ws)) (replicate 65 NULL) FsutilTheorems.demo_util false false false (Prng (replicate 256 0) 0 0 false) (Counters 431 300 131 0 [(Stdio.chars "hd0:0", 12, 3)] 5) false.

Definition demo_options : list (list Z) := [Stdio.chars "-q"; Stdio.chars "-f"; Stdio.chars "-rs=42"].
Definition demo_commands : list command := [Put (Stdio.chars "a"); Get (Stdio.chars "a"); Ls].
Definition demo_line : list (list Z) := demo_options ++ command_words demo_commands.
Definition demo_hdb : option (list (list Z)) := Some (Inode.disk DirectoryTheorems.blank_disk).
Definition demo_task (s : list Z) : st util unit := mret tt.

Ltac bytes_done := unfold text, is_byte; apply (bool_decide_unpack _); vm_compute; exact I.

Lemma demo_literals : lits_ok demo_literal (mem (demo_boot demo_line)).
Proof.
  intros l Hl. assert (Forall (λ l, cstr (mem (demo_boot demo_line)) (demo_literal l) (Stdio.chars l) ∧ demo_literal l + Z.of_nat (length (Stdio.chars l)) < ARGS) literals) as Hall.
  { unfold literals. repeat (apply Forall_cons; split; [split; [split; [by vm_compute|bytes_done|apply bytes_at_check; by vm_compute]|by vm_compute]|]); apply Forall_nil; exact I. }
  rewrite Forall_forall in Hall. destruct (Hall l Hl). split; [done|by left].
Qed.

Lemma demo_loaded : loaded (demo_boot demo_line) demo_line.
Proof.
  split; [apply bytes_at_check; by vm_compute|apply bytes_at_check; by vm_compute| | |by vm_compute|by vm_compute].
  - bytes_done.
  - apply (bool_decide_unpack _). by vm_compute.
Qed.

Definition seed_42 (b : bootst) : bootst := set_rng (random_init (u32 42) (rng b)) b.

Lemma demo_opts : Forall2 (opt_arg true) demo_options [set_power_off; set_format; seed_42].
Proof.
  constructor; [|constructor; [|constructor; [|constructor]]].
  - exists (Stdio.chars "-q"), []. split; [apply OptQ|by left].
  - exists (Stdio.chars "-f"), []. split; [by apply OptF|by left].
  - exists (Stdio.chars "-rs"), (Stdio.chars "42"). split; [|by right].
    apply (OptRs true (Stdio.chars "42")); [done|apply (bool_decide_unpack _); by vm_compute|by vm_compute].
Qed.

Lemma command_line_executes_witness :
  match main true demo_literal DirectoryTheorems.demo_junk demo_task demo_hdb (demo_boot demo_line) with
  | Ok (_, b) => off b = true
      ∧ out (acts b) = Stdio.chars "Kernel command line: -q -f -rs=42 put a get a ls
Formatting file system...done.
Boot complete.
Putting 'a' into the file system...
Getting 'a' from the file system...
Files in the root directory:
a
End of listing.
Timer: 431 ticks
Thread: 300 idle ticks, 131 kernel ticks, 0 user ticks
hd0:0: 12 reads, 3 writes
Console: 312 characters output
Keyboard: 5 keys pressed
Powering off...
"
  | Err _ => False
  end.
Proof.
  destruct (command_line_executes true demo_literal DirectoryTheorems.demo_junk demo_task demo_hdb (demo_boot demo_line) demo_options
    [set_power_off; set_format; seed_42] demo_commands demo_loaded demo_opts) as (m & Hm & E);
    [repeat constructor|exact demo_literals|].
  change (demo_options ++ command_words demo_commands) with demo_line in E. rewrite E. clear E Hm.
  vm_compute. split; reflexivity.
Defined.

(** ** Lines that are not carried out *)

(** The area has room for 128 empty arguments but the array for 64 arguments and
    the null pointer: with 65 empty arguments the null pointer is written
    behind the array. *)
Example empty_arguments_overflow : read_command_line (demo_boot (replicate 65 [])) = Err BadAddr.
Proof. vm_compute. done. Qed.

(** With a negative number of arguments it is written in front of the array. *)
Example negative_count_overflow :
  read_command_line (set_mem (store (ptov LOADER_ARG_CNT) (replicate 4 255) (mem (demo_boot []))) (demo_boot [])) = Err BadAddr.
Proof. vm_compute. done. Qed.

(** [-rs] without a value passes a null pointer to [atoi]. *)
Example seed_without_value :
  main true demo_literal DirectoryTheorems.demo_junk demo_task demo_hdb (demo_boot [Stdio.chars "-rs"]) = Err AssertFail.
Proof. vm_compute. done. Qed.

(** Without the disk hd0:1 the file system cannot be started. *)
Example no_disk_panics :
  main true demo_literal DirectoryTheorems.demo_junk demo_task None (demo_boot [Stdio.chars "ls"]) = Err PanicCall.
Proof. vm_compute. done. Qed.

(** A kernel without a file system shows [-f] in its help and refuses it. *)
Example format_without_filesys :
  main false demo_literal DirectoryTheorems.demo_junk demo_task demo_hdb (demo_boot [Stdio.chars "-f"]) = Err PanicCall.
Proof. vm_compute. done. Qed.

(** An action that lacks its argument and an unknown one stop the kernel. *)
Example missing_argument :
  main true demo_literal DirectoryTheorems.demo_junk demo_task demo_hdb (demo_boot [Stdio.chars "-f"; Stdio.chars "cat"]) = Err PanicCall
  ∧ main true demo_literal DirectoryTheorems.demo_junk demo_task demo_hdb (demo_boot [Stdio.chars "-f"; Stdio.chars "dir"]) = Err PanicCall.
Proof. vm_compute. done. Qed.

(** [-h] powers the machine off and no action is performed. *)
Example help_powers_off :
  match main true demo_literal DirectoryTheorems.demo_junk demo_task demo_hdb (demo_boot [Stdio.chars "-h"; Stdio.chars "ls"]) with
  | Ok (_, b) => off b = true ∧ fsys (acts b) = fsys (acts (demo_boot []))
  | Err _ => False
  end.
Proof. vm_compute. done. Qed.

(** [bss_init] zeroes the segment and nothing else. *)
Theorem bss_init_zeroes lo hi m : 0 < lo ≤ hi → mapped m lo (hi - lo) →
  ∃ m', bss_init lo hi m = Ok (tt, m') ∧ ∀ x, m' !! x = if decide (lo ≤ x < hi) then Some 0 else m !! x.
Proof.
  intros Hlo Hm. destruct (memset_loop_ok (Z.to_nat (hi - lo)) m lo 0) as (m' & H & Hx); [by rewrite Z2Nat.id by lia|].
  exists m'. unfold bss_init, memset, assert_block. rewrite (proj2 (Z.eqb_neq lo NULL)) by (unfold NULL; lia). split; [|intros x; rewrite Hx, Z2Nat.id by lia; repeat case_decide; (lia || done)].
  cbn [negb orb]. rewrite !st_bind_assoc. rewrite (st_bind_ok (ASSERT true) _ m tt m) by done. rewrite st_bind_assoc. by rewrite (st_bind_ok _ _ _ _ _ H).
Qed.

End KernelInitTheorems.
