(* ===== verification/UserLib.v ===== *)
(** lib/user: the system call stubs and the console of user programs.

    The kernel's side of a system call is not part of the repository.
    [UserSyscall] is over any [kernel] that answers the registers it gets;
    [UserConsole] over any [write] that takes the bytes of a buffer. *)
From S2P Require Import Prelude StringC Stdio.
Local Open Scope Z_scope.

(** ** lib/user/syscall.c *)
Module UserSyscall.

Inductive number :=
  | SYS_HALT | SYS_EXIT | SYS_FORK | SYS_EXEC | SYS_WAIT | SYS_CREATE | SYS_REMOVE | SYS_OPEN | SYS_FILESIZE
  | SYS_READ | SYS_WRITE | SYS_SEEK | SYS_TELL | SYS_CLOSE | SYS_MMAP | SYS_MUNMAP
  | SYS_CHDIR | SYS_MKDIR | SYS_READDIR | SYS_ISDIR | SYS_INUMBER.

#[export] Instance number_eq_dec : EqDecision number.
Proof. solve_decision. Defined.

Definition numbers : list number :=
  [SYS_HALT; SYS_EXIT; SYS_FORK; SYS_EXEC; SYS_WAIT; SYS_CREATE; SYS_REMOVE; SYS_OPEN; SYS_FILESIZE;
   SYS_READ; SYS_WRITE; SYS_SEEK; SYS_TELL; SYS_CLOSE; SYS_MMAP; SYS_MUNMAP;
   SYS_CHDIR; SYS_MKDIR; SYS_READDIR; SYS_ISDIR; SYS_INUMBER].

(** The value of the enumeration constant. *)
Definition value (n : number) : Z := Z.of_nat (default 0%nat (fst <$> list_find (λ m, m = n) numbers)).

(** The registers a stub loads, and R11. *)
Record regs := Regs { rax : Z; rbx : Z; rcx : Z; rdx : Z; rsi : Z; rdi : Z; r11 : Z }.

Section stubs.
Context {W : Type} (kernel : regs → st W Z) (return_address : number → Z) (rflags : Z).

(** The instruction: RCX gets the address of the next one and R11 the flags. *)
Definition SYSCALL (next : Z) (r : regs) : st W Z :=
  kernel (Regs (rax r) (rbx r) next (rdx r) (rsi r) (rdi r) rflags).

(** Inlined into each stub; R11 is not set before the instruction. *)
Definition syscall (num : number) (a1 a2 a3 a4 a5 : Z) : st W Z :=
  SYSCALL (return_address num) (Regs (value num) (u64 a3) (u64 a2) (u64 a1) (u64 a5) (u64 a4) 0).

Definition syscall0 (n : number) : st W Z := syscall n 0 0 0 0 0.
Definition syscall1 (n : number) (a0 : Z) : st W Z := syscall n a0 0 0 0 0.
Definition syscall2 (n : number) (a0 a1 : Z) : st W Z := syscall n a0 a1 0 0 0.
Definition syscall3 (n : number) (a0 a1 a2 : Z) : st W Z := syscall n a0 a1 a2 0 0.

(** Conversions of the result to int, unsigned and bool. *)
Definition as_int (op : st W Z) : st W Z := r ← op; mret (i32 r).
Definition as_unsigned (op : st W Z) : st W Z := r ← op; mret (u32 r).
Definition as_bool (op : st W Z) : st W bool := r ← op; mret (negb (r =? 0)).

Definition halt : st W unit := syscall0 SYS_HALT;; st_err AssertFail.
Definition exit (status : Z) : st W unit := syscall1 SYS_EXIT status;; st_err AssertFail.
Definition fork : st W Z := as_int (syscall0 SYS_FORK).
Definition exec (file : Z) : st W Z := as_int (syscall1 SYS_EXEC file).
Definition wait (pid : Z) : st W Z := as_int (syscall1 SYS_WAIT pid).
Definition create (file initial_size : Z) : st W bool := as_bool (syscall2 SYS_CREATE file initial_size).
Definition remove (file : Z) : st W bool := as_bool (syscall1 SYS_REMOVE file).
Definition open (file : Z) : st W Z := as_int (syscall1 SYS_OPEN file).
Definition filesize (fd : Z) : st W Z := as_int (syscall1 SYS_FILESIZE fd).
Definition read (fd buffer size : Z) : st W Z := as_int (syscall3 SYS_READ fd buffer size).
Definition write (fd buffer size : Z) : st W Z := as_int (syscall3 SYS_WRITE fd buffer size).
Definition seek (fd position : Z) : st W unit := syscall2 SYS_SEEK fd position;; mret tt.
Definition tell (fd : Z) : st W Z := as_unsigned (syscall1 SYS_TELL fd).
Definition close (fd : Z) : st W unit := syscall1 SYS_CLOSE fd;; mret tt.
Definition mmap (fd addr : Z) : st W Z := as_int (syscall2 SYS_MMAP fd addr).
Definition munmap (mapid : Z) : st W unit := syscall1 SYS_MUNMAP mapid;; mret tt.
Definition chdir (dir : Z) : st W bool := as_bool (syscall1 SYS_CHDIR dir).
Definition mkdir (dir : Z) : st W bool := as_bool (syscall1 SYS_MKDIR dir).
Definition readdir (fd name : Z) : st W bool := as_bool (syscall2 SYS_READDIR fd name).
Definition isdir (fd : Z) : st W bool := as_bool (syscall1 SYS_ISDIR fd).
Definition inumber (fd : Z) : st W Z := as_int (syscall1 SYS_INUMBER fd).

(** lib/user/entry.c *)
Definition _start (main : Z → Z → st W Z) (argc argv : Z) : st W unit := r ← main argc argv; exit r.

(** The second argument is passed in RCX, which the instruction overwrites: no
    kernel can tell two calls apart that differ in their second argument only. *)
Theorem second_argument_lost a b b' c :
  create a b = create a b' ∧ read a b c = read a b' c ∧ write a b c = write a b' c ∧ seek a b = seek a b'
  ∧ mmap a b = mmap a b' ∧ readdir a b = readdir a b'.
Proof. done. Qed.

End stubs.

Lemma value_inj n m : value n = value m → n = m.
Proof. by destruct n, m. Qed.

(** The first and third arguments reach the kernel. *)
Theorem other_arguments_arrive return_address rflags n a b c n' a' b' c' :
  0 ≤ a < 2 ^ 64 → 0 ≤ c < 2 ^ 64 → 0 ≤ a' < 2 ^ 64 → 0 ≤ c' < 2 ^ 64 →
  (∀ W (kernel : regs → st W Z), syscall3 kernel return_address rflags n a b c = syscall3 kernel return_address rflags n' a' b' c') →
  n = n' ∧ a = a' ∧ c = c'.
Proof.
  intros Ha Hc Ha' Hc' H. pose proof (H regs (λ r _, Ok (0, r))) as Hr. apply (f_equal (λ f, f (Regs 0 0 0 0 0 0 0))) in Hr.
  unfold syscall3, syscall, SYSCALL in Hr. cbn [rax rbx rdx rsi rdi] in Hr. injection Hr as Hn Hc3 _ Ha1.
  unfold u64 in *. rewrite !Z.mod_small in Hc3, Ha1 by lia. split; [by apply value_inj|done].
Qed.

End UserSyscall.

(** ** lib/user/console.c *)
Module UserConsole.

Definition STDOUT_FILENO : Z := 1.
Definition BUF_SIZE : nat := 64.

Record vhprintf_aux := Aux { buf : list Z; p : nat; char_cnt : Z; handle : Z }.

Section console.
Context {W : Type} (write : Z → list Z → st W unit).

Definition putchar (c : Z) : st W Z := write STDOUT_FILENO [u8 c];; mret c.
Definition puts (s : list Z) : st W Z := write STDOUT_FILENO s;; putchar 10;; mret 0.

Definition flush (aux : vhprintf_aux) : st W vhprintf_aux :=
  (if (0 <? p aux)%nat then write (handle aux) (take (p aux) (buf aux)) else mret tt);;
  mret (Aux (buf aux) 0 (char_cnt aux) (handle aux)).

Definition add_char (c : Z) (aux : vhprintf_aux) : st W vhprintf_aux :=
  if (p aux <? length (buf aux))%nat then
    let aux := Aux (<[p aux := c]> (buf aux)) (S (p aux)) (char_cnt aux) (handle aux) in
    aux ← (if (BUF_SIZE <=? p aux)%nat then flush aux else mret aux);
    mret (Aux (buf aux) (p aux) (i32 (char_cnt aux + 1)) (handle aux))
  else st_err BadAddr.

Fixpoint add_all (l : list Z) (aux : vhprintf_aux) : st W vhprintf_aux :=
  match l with [] => mret aux | c :: l => aux ← add_char c aux; add_all l aux end.

(** [junk] is what the buffer holds at first; [__vprintf] hands its output to
    [add_char]. *)
Definition vhprintf (junk : list Z) (handle : Z) (format : list Z) (args : list Stdio.arg) : st W Z :=
  match Stdio.__printf format args with
  | Err e => st_err e
  | Ok out =>
    aux ← add_all out (Aux junk 0 0 handle);
    aux ← flush aux;
    mret (char_cnt aux)
  end.
Definition vprintf (junk : list Z) (format : list Z) (args : list Stdio.arg) : st W Z := vhprintf junk STDOUT_FILENO format args.
Definition hprintf (junk : list Z) (handle : Z) (format : list Z) (args : list Stdio.arg) : st W Z := vhprintf junk handle format args.

(** ** The writes of one call *)

Fixpoint write_all (h : Z) (ps : list (list Z)) : st W unit :=
  match ps with [] => mret tt | l :: ps => write h l;; write_all h ps end.

(** [l] cut as the buffer cuts it when it holds [pend]. *)
Fixpoint pieces (pend l : list Z) : list (list Z) :=
  match l with
  | [] => match pend with [] => [] | _ => [pend] end
  | c :: l => if (BUF_SIZE <=? S (length pend))%nat then (pend ++ [c]) :: pieces [] l else pieces (pend ++ [c]) l
  end.

(** Pieces of 64 bytes, the last one of 1 to 64. *)
Fixpoint well_cut (ps : list (list Z)) : Prop :=
  match ps with
  | [] => True
  | l :: ps => (0 < length l ≤ BUF_SIZE)%nat ∧ (ps ≠ [] → length l = BUF_SIZE) ∧ well_cut ps
  end.

Lemma pieces_concat l : ∀ pend, concat (pieces pend l) = pend ++ l.
Proof.
  induction l as [|c l IH]; intros pend; cbn [pieces]; [by destruct pend; simpl; rewrite ?app_nil_r|].
  destruct (_ <=? _)%nat; cbn [concat]; rewrite IH, <- app_assoc; done.
Qed.

Lemma pieces_well_cut l : ∀ pend, (length pend < BUF_SIZE)%nat → well_cut (pieces pend l).
Proof.
  induction l as [|c l IH]; intros pend Hp; cbn [pieces].
  { destruct pend; simpl; [done|]. simpl in Hp. split; [lia|done]. }
  destruct (Nat.leb_spec BUF_SIZE (S (length pend))) as [H|H].
  - assert (Hl : length (pend ++ [c]) = BUF_SIZE) by (rewrite length_app; simpl; lia). split; [rewrite Hl; unfold BUF_SIZE; lia|].
    split; [done|]. apply IH. unfold BUF_SIZE. simpl. lia.
  - apply IH. rewrite length_app. simpl. lia.
Qed.

(** The characters in the buffer. *)
Definition held (aux : vhprintf_aux) : list Z := take (p aux) (buf aux).

Definition cleared (aux : vhprintf_aux) : vhprintf_aux := Aux (buf aux) 0 (char_cnt aux) (handle aux).

Lemma user_bind_ext {A} (op : st W unit) (f g : st W A) s : (∀ s', f s' = g s') → (op;; f) s = (op;; g) s.
Proof. intros H. unfold mbind, st_bind. destruct (op s) as [[? s']|e]; [apply H|done]. Qed.

Lemma user_flush_ok {A} aux (k : vhprintf_aux → st W A) s : (p aux ≤ length (buf aux))%nat →
  (flush aux ≫= k) s = (write_all (handle aux) (pieces (held aux) []);; k (cleared aux)) s.
Proof.
  intros Hp. unfold flush. rewrite st_bind_assoc. unfold pieces, held. destruct (Nat.ltb_spec 0 (p aux)) as [H|H].
  - destruct (take (p aux) (buf aux)) as [|c l] eqn:E; [apply (f_equal length) in E; rewrite length_take in E; simpl in E; lia|].
    cbn [write_all]. rewrite !st_bind_assoc. unfold mbind, st_bind. by destruct (write _ _ _) as [[[] s']|e].
  - replace (p aux) with 0%nat by lia. done.
Qed.

(** The buffer after one more character. *)
Definition added (c : Z) (q : nat) (aux : vhprintf_aux) : vhprintf_aux :=
  Aux (<[p aux := c]> (buf aux)) q (char_cnt aux + 1) (handle aux).

Lemma held_added c aux : (p aux < length (buf aux))%nat → take (S (p aux)) (<[p aux := c]> (buf aux)) = held aux ++ [c].
Proof. intros Hp. rewrite (take_S_r _ _ c) by (by apply list_lookup_insert_eq). by rewrite take_insert_ge by lia. Qed.

Lemma add_char_ok {A} c aux (k : vhprintf_aux → st W A) s :
  length (buf aux) = BUF_SIZE → (p aux < BUF_SIZE)%nat → 0 ≤ char_cnt aux < 2 ^ 31 - 1 →
  (add_char c aux ≫= k) s
  = if (BUF_SIZE <=? S (p aux))%nat then (write (handle aux) (held aux ++ [c]);; k (added c 0 aux)) s else k (added c (S (p aux)) aux) s.
Proof.
  intros Hb Hp Hc. unfold add_char. rewrite (proj2 (Nat.ltb_lt (p aux) (length (buf aux)))) by lia. cbv zeta. cbn [p].
  rewrite <- (held_added c aux) by lia. destruct (BUF_SIZE <=? S (p aux))%nat.
  - rewrite st_bind_assoc. unfold flush. cbn [p buf handle char_cnt]. change (0 <? S (p aux))%nat with true. cbv iota.
    rewrite st_bind_assoc. unfold mbind, st_bind. destruct (write _ _ _) as [[[] s']|e]; [|done]. unfold mret, st_ret. cbn [p buf handle char_cnt].
    by rewrite i32_small by lia.
  - rewrite (st_bind_ok _ _ _ (added c (S (p aux)) aux) s); [done|]. unfold mret, st_ret, mbind, st_bind. cbn [p buf handle char_cnt].
    by rewrite i32_small by lia.
Qed.

Lemma held_length aux : (p aux ≤ length (buf aux))%nat → length (held aux) = p aux.
Proof. intros Hp. unfold held. rewrite length_take. lia. Qed.

Lemma add_all_ok {A} l (k : Z → st W A) : ∀ aux s,
  length (buf aux) = BUF_SIZE → (p aux < BUF_SIZE)%nat → 0 ≤ char_cnt aux → char_cnt aux + Z.of_nat (length l) < 2 ^ 31 →
  (aux ← add_all l aux; aux ← flush aux; k (char_cnt aux)) s
  = (write_all (handle aux) (pieces (held aux) l);; k (char_cnt aux + Z.of_nat (length l))) s.
Proof.
  induction l as [|c l IH]; intros aux s Hb Hp Hc Hn.
  { cbn [add_all]. rewrite (st_bind_ok _ _ _ aux s) by done. rewrite user_flush_ok by lia. simpl length. by rewrite Z.add_0_r. }
  cbn [add_all]. cbn [length] in Hn. rewrite st_bind_assoc, add_char_ok by (done || lia). cbn [pieces]. rewrite held_length by lia.
  replace (char_cnt aux + Z.of_nat (length (c :: l))) with (char_cnt aux + 1 + Z.of_nat (length l)) by (simpl length; lia).
  destruct (Nat.leb_spec BUF_SIZE (S (p aux))) as [H|H].
  - cbn [write_all]. rewrite st_bind_assoc. apply user_bind_ext. intros s'.
    rewrite IH; [done|simpl; by rewrite length_insert|unfold BUF_SIZE; simpl; lia|simpl; lia|simpl; lia].
  - rewrite IH; [|simpl; by rewrite length_insert|simpl; lia|simpl; lia|simpl; lia]. cbn [handle char_cnt added].
    unfold held at 1. cbn [p buf added]. by rewrite held_added by lia.
Qed.

Lemma vhprintf_ok junk h format args out s :
  length junk = BUF_SIZE → Stdio.__printf format args = Ok out → Z.of_nat (length out) < 2 ^ 31 →
  vhprintf junk h format args s = (write_all h (pieces [] out);; mret (Z.of_nat (length out))) s.
Proof. intros Hj Ho Hl. unfold vhprintf. rewrite Ho. rewrite add_all_ok by (done || unfold BUF_SIZE; simpl; lia). done. Qed.

(** C35: the printing functions of user programs write exactly the formatted text to
    the handle, in order, in blocks of 64 bytes and one last block of what is
    left, whatever the buffer held and whatever [write] does; the buffer is
    never exceeded and the result is the number of characters. *)
Theorem user_printf_writes junk h format args out s :
  length junk = BUF_SIZE → Stdio.__printf format args = Ok out → Z.of_nat (length out) < 2 ^ 31 →
  ∃ ps, concat ps = out ∧ well_cut ps
    ∧ vhprintf junk h format args s = (write_all h ps;; mret (Z.of_nat (length out))) s.
Proof.
  intros Hj Ho Hl. exists (pieces [] out). split; [apply pieces_concat|]. split; [apply pieces_well_cut; unfold BUF_SIZE; simpl; lia|].
  by apply vhprintf_ok.
Qed.

End console.

(** A program that records its writes. *)
Definition record_write (h : Z) (l : list Z) : st (list (Z * list Z)) unit := st_modify (λ w, w ++ [(h, l)]).

Lemma user_printf_writes_witness :
  ∃ ps, concat ps = Stdio.chars "pid 42" ∧ well_cut ps
    ∧ vhprintf record_write (replicate 64 170) 1 (Stdio.lit "pid %d") [Stdio.Int 42] [] = (write_all record_write 1 ps;; mret 6) [].
Proof.
  exact (user_printf_writes record_write (replicate 64 170) 1 (Stdio.lit "pid %d") [Stdio.Int 42] (Stdio.chars "pid 42") []
    ltac:(reflexivity) ltac:(vm_compute; reflexivity) ltac:(vm_compute; reflexivity)).
Defined.

(** A text of 130 characters takes three writes. *)
Example long_line_blocks :
  match vhprintf record_write (replicate 64 170) 1 (Stdio.lit "%130d") [Stdio.Int 7] [] with
  | Ok (n, w) => n = 130 ∧ length ∘ snd <$> w = [64; 64; 2]%nat
  | Err _ => False
  end.
Proof. vm_compute. done. Qed.

End UserConsole.
