(* ===== verification/Debug.v ===== *)
(** lib/debug.c, lib/kernel/debug.c and lib/user/debug.c: the call stack and
    panics.

    [debug_backtrace] prints through any [vprintf], the kernel's or that of user
    programs.  [words] is the memory of 64-bit words that holds the stack; the
    saved frame pointer of a function is at its frame, the return address 8
    bytes above.  A panic prints with interrupts off, so that nothing else runs
    ([Others] of Console.v is not asked). *)

From S2P Require Import Prelude Stdio Intq IntrTable Serial SerialTheorems Vga Console ConsoleTheorems UserLib.
Import Serial Vga Console.
Local Open Scope Z_scope.

Module Debug.

(** The text with its quotation marks, character 34. *)
Definition explanation : list Z :=
  Stdio.chars "The `backtrace' program can make call stacks useful.
Read " ++ 34 :: Stdio.chars "Backtraces" ++ 34 :: Stdio.chars " in the " ++ 34 :: Stdio.chars "Debugging Tools" ++ 34 :: Stdio.lit " chapter
of the Pintos documentation for more information.
".

Section backtrace.
Context {W : Type} (vprintf : list Z → list Stdio.arg → st W Z) (words : gmap Z Z).

Definition printf (format : string) (args : list Stdio.arg) : st W unit := _ ← vprintf (Stdio.lit format) args; mret tt.
Definition load (a : Z) : st W Z := st_of_option BadAddr (words !! a).

Fixpoint frames_loop (fuel : nat) (frame : Z) : st W unit :=
  match fuel with
  | O => st_err NoFuel
  | S fuel =>
    if frame =? NULL then mret tt else
    next ← load frame;
    if next =? NULL then mret tt else
    pc ← load (frame + 8);
    printf " %p" [Stdio.Int pc];;
    frames_loop fuel next
  end.

(** The state is the flag [explained] and what [vprintf] changes; a chain without
    a cycle has at most one frame for each word. *)
Definition lift {A} (op : st W A) : st (bool * W) A := λ s,
  match op (snd s) with Ok (a, w) => Ok (a, (fst s, w)) | Err e => Err e end.

Definition debug_backtrace (frame : Z) : st (bool * W) unit :=
  lift (printf "Call stack:" []);;
  lift (frames_loop (S (size words)) frame);;
  lift (printf ".
" []);;
  explained ← st_gets fst;
  if explained : bool then mret tt else
    st_modify (λ s, (true, snd s));;
    lift (_ ← vprintf explanation []; mret tt).

End backtrace.

(** ** lib/kernel/debug.c *)

Record panic_state := Panicking { con : console; explained : bool; level : Z }.

Definition on_con {A} (op : st console A) : st panic_state A := λ s,
  match op (con s) with Ok (a, c) => Ok (a, Panicking c (explained s) (level s)) | Err e => Err e end.
Definition kprintf {oth : Others} (format : string) (args : list Stdio.arg) : st panic_state unit := on_con (printf vprintf format args).

(** The kernel ends in [power_off] or in an endless loop. *)
Inductive ending := PowersOff | Loops.

Definition a_string (s : list Z) : Stdio.arg := Stdio.Str (Some (s ++ [0])).

Section kernel.
Context {oth : Others} (words : gmap Z Z) (power_off_when_done : bool).

Definition kernel_backtrace (frame : Z) : st panic_state unit := λ s,
  match debug_backtrace vprintf words frame (explained s, con s) with
  | Ok (_, (e, c)) => Ok (tt, Panicking c e (level s))
  | Err e => Err e
  end.

Definition debug_panic (frame : Z) (file : list Z) (line : Z) (function : list Z) (message : list Z) (args : list Stdio.arg) : st panic_state ending :=
  on_con (on_display (on_vdev dev_intr_disable));;
  on_con console_panic;;
  st_modify (λ s, Panicking (con s) (explained s) (i32 (level s + 1)));;
  l ← st_gets level;
  (if l =? 1 then
     kprintf "Kernel PANIC at %s:%d in %s(): " [a_string file; Stdio.Int line; a_string function];;
     on_con (_ ← vprintf message args; mret tt);;
     kprintf "
" [];;
     kernel_backtrace frame
   else if l =? 2 then
     kprintf "Kernel PANIC recursion at %s:%d in %s().
" [a_string file; Stdio.Int line; a_string function]
   else mret tt);;
  on_con (on_display (on_vdev serial_flush));;
  mret (if power_off_when_done then PowersOff else Loops).

End kernel.

(** ** lib/user/debug.c *)

Section user.
Context {W : Type} (write : Z → list Z → st W unit) (exit : Z → st W unit) (junk : list Z) (words : gmap Z Z).

Definition user_panic (frame : Z) (file : list Z) (line : Z) (function : list Z) (message : list Z) (args : list Stdio.arg) : st (bool * W) unit :=
  let vprintf := UserConsole.vprintf write junk in
  lift (printf vprintf "User process ABORT at %s:%d in %s(): " [a_string file; Stdio.Int line; a_string function]);;
  lift (_ ← vprintf message args; mret tt);;
  lift (printf vprintf "
" []);;
  debug_backtrace vprintf words frame;;
  lift (exit 1).

End user.
End Debug.

(** The call stack is printed from the innermost call outwards, and what a panic
    reports reaches the serial port and the display, whoever holds the console. *)
Import Ports IntrTable Intq Serial SerialTheorems Vga VgaTheorems Console ConsoleTheorems Debug.
Local Open Scope Z_scope.

Module DebugTheorems.

(** ** The stack *)

Section stack.
Context (words : gmap Z Z).

(** The frames from [f] on with their return addresses, up to the first one without
    a caller; a caller's frame is above its callee's. *)
Fixpoint frame_chain (f : Z) (l : list (Z * Z)) : Prop :=
  match l with
  | [] => f = NULL ∨ words !! f = Some NULL
  | (g, pc) :: l =>
    g = f ∧ f ≠ NULL ∧ words !! (f + 8) = Some pc ∧
    ∃ next, words !! f = Some next ∧ next ≠ NULL ∧ f < next ∧ frame_chain next l
  end.

Lemma frame_chain_above l : ∀ f, frame_chain f l → Forall (λ x, f ≤ fst x ∧ is_Some (words !! fst x)) l ∧ NoDup (fst <$> l).
Proof.
  induction l as [|[g pc] l IH]; intros f Hc; [split; constructor|].
  destruct Hc as (-> & _ & _ & next & Hn & _ & Hlt & Hc). destruct (IH next Hc) as [H1 H2]. split.
  - constructor; [split; [simpl; lia|by exists next]|]. eapply Forall_impl; [exact H1|]. intros x [? ?]. split; [lia|done].
  - csimpl. constructor; [|done]. intros ([g' pc'] & -> & Hin)%list_elem_of_fmap. rewrite Forall_forall in H1. apply H1 in Hin as [Hle _].
    simpl in *. lia.
Qed.

Lemma frame_chain_size f l : frame_chain f l → (length l ≤ size words)%nat.
Proof.
  intros [H1 H2]%frame_chain_above. rewrite <- size_dom, <- (length_fmap fst l), <- (size_list_to_set (C := gset Z)) by done.
  apply subseteq_size. intros x Hx%elem_of_list_to_set. apply list_elem_of_fmap in Hx as (y & -> & Hy).
  rewrite Forall_forall in H1. by apply elem_of_dom, H1.
Qed.

(** ** Printing it *)

Section print.
Context {W : Type} (vprintf : list Z → list Stdio.arg → st W Z).

Definition run_call (call : list Z * list Stdio.arg) : st W unit := _ ← vprintf (fst call) (snd call); mret tt.
Fixpoint run_calls (calls : list (list Z * list Stdio.arg)) : st W unit :=
  match calls with [] => mret tt | call :: calls => run_call call;; run_calls calls end.

Lemma run_calls_app c1 c2 w : run_calls (c1 ++ c2) w = (run_calls c1;; run_calls c2) w.
Proof.
  revert w. induction c1 as [|x c1 IH]; intros w; [done|]. cbn [app run_calls]. rewrite st_bind_assoc. apply bind_ext. exact IH.
Qed.

Definition pc_call (x : Z * Z) : list Z * list Stdio.arg := (Stdio.lit " %p", [Stdio.Int (snd x)]).

Lemma frames_loop_ok l : ∀ f fuel w, frame_chain f l → (length l < fuel)%nat → frames_loop vprintf words fuel f w = run_calls (pc_call <$> l) w.
Proof.
  induction l as [|[g pc] l IH]; intros f [|fuel] w Hc Hf; simpl in Hf; try lia; cbn [frames_loop].
  - destruct (Z.eqb_spec f NULL) as [->|Hn]; [done|]. destruct Hc as [?|Hc]; [done|].
    rewrite (st_bind_ok (load words f) _ _ NULL w); [done|]. unfold load. by rewrite Hc.
  - destruct Hc as (-> & Hn & Hpc & next & Hnext & Hn2 & _ & Hc). apply Z.eqb_neq in Hn as ->.
    rewrite (st_bind_ok (load words f) _ _ next w) by (unfold load; by rewrite Hnext). apply Z.eqb_neq in Hn2 as ->.
    rewrite (st_bind_ok (load words (f + 8)) _ _ pc w) by (unfold load; by rewrite Hpc).
    csimpl. cbn [run_calls]. apply bind_ext. intros w'. apply IH; [done|lia].
Qed.

Definition backtrace_calls (explained : bool) (l : list (Z * Z)) : list (list Z * list Stdio.arg) :=
  (Stdio.lit "Call stack:", []) :: (pc_call <$> l) ++ (Stdio.lit ".
", []) :: (if explained then [] else [(explanation, [])]).

Lemma lift_bind {A} (op : st W unit) (k : unit → st (bool * W) A) e w :
  (lift op ≫= k) (e, w) = match op w with Ok (_, w') => k tt (e, w') | Err r => Err r end.
Proof. unfold mbind, st_bind, lift. cbn [fst snd]. by destruct (op w) as [[[] w']|r]. Qed.

Lemma bind_eq {A B} (op : st W A) (k : A → st W B) w :
  (op ≫= k) w = match op w with Ok (a, w') => k a w' | Err r => Err r end.
Proof. done. Qed.

(** [debug_backtrace] is this sequence of calls. *)
Lemma backtrace_ok f l e w : frame_chain f l →
  debug_backtrace vprintf words f (e, w)
  = match run_calls (backtrace_calls e l) w with Ok (_, w') => Ok (tt, (true, w')) | Err r => Err r end.
Proof.
  intros Hc. pose proof (frame_chain_size _ _ Hc) as Hs. unfold debug_backtrace, backtrace_calls. cbn [run_calls].
  change (printf vprintf "Call stack:" []) with (run_call (Stdio.lit "Call stack:", [])).
  change (printf vprintf ".
" []) with (run_call (Stdio.lit ".
", [])). rewrite lift_bind, (bind_eq (run_call _)).
  destruct (run_call _ w) as [[[] w1]|r]; [|done].
  rewrite run_calls_app, lift_bind, (frames_loop_ok l) by (done || lia). rewrite (bind_eq (run_calls _)).
  destruct (run_calls (pc_call <$> l) w1) as [[[] w2]|r]; [|done]. rewrite lift_bind. cbn [run_calls].
  rewrite (bind_eq (run_call _)). destruct (run_call _ w2) as [[[] w3]|r]; [|done].
  rewrite (st_bind_ok _ _ _ e (e, w3)) by done. destruct e; [done|]. rewrite (st_bind_ok _ _ _ tt (true, w3)) by done.
  unfold lift. cbn [fst snd run_calls]. change (_ ← vprintf explanation []; mret tt) with (run_call (explanation, [])).
  unfold mbind, st_bind. by destruct (run_call _ w3) as [[[] w4]|r].
Qed.

End print.
End stack.

(** ** Panics *)

(** The console when the kernel panics: the lock may be anyone's, and interrupts may
    be on or off. *)
Record panic_ready (c : console) : Prop := {
  pr_dev : dev_ok (dev_of c);
  pr_ier : mode (dev_of c) = QUEUE → ier_ok (dev_of c);
  pr_vga : vga_ok (display c);
  pr_inited : inited (display c) = true;
  pr_cur : cur (dev_of c) ≠ NULL;
  pr_cnt : i64 (write_cnt c) = write_cnt c }.

(** The console after [intr_disable] and [console_panic]. *)
Definition seized (c : console) : console :=
  MkConsole (with_dev (set_off true (dev_of c)) (display c)) (holder c) false (console_lock_depth c) (write_cnt c).

Section others.
Context {oth : Others}.

Lemma seized_ok c : panic_ready c → console_ok (seized c) ∧ lock_ok (seized c).
Proof.
  intros [H1 H2 H3 H4 H5 H6]. split; [split|split]; try done.
  - by apply set_off_ok.
  - by left.
  - by right; left.
Qed.

Lemma run_calls_console calls c : run_calls vprintf calls c = console_run (uncurry Printf <$> calls) c.
Proof. revert c. induction calls as [|[f a] calls IH]; intros c; [done|]. csimpl. cbn [run_calls console_run]. apply bind_ext. exact IH. Qed.

Section panic.
Context (words : gmap Z Z) (power_off_when_done : bool) (frame : Z) (stack : list (Z * Z)).
Context (file : list Z) (line : Z) (function : list Z) (message : list Z) (args : list Stdio.arg).

(** What is to be printed, by the number of panics before. *)
Definition panic_calls (level : Z) (explained : bool) : list (list Z * list Stdio.arg) :=
  let place := [a_string file; Stdio.Int line; a_string function] in
  if level =? 0 then
    [(Stdio.lit "Kernel PANIC at %s:%d in %s(): ", place); (message, args); (Stdio.lit "
", [])] ++ backtrace_calls explained stack
  else if level =? 1 then [(Stdio.lit "Kernel PANIC recursion at %s:%d in %s().
", place)]
  else [].

Definition panic_output (level : Z) (explained : bool) : res (list Z) := all_output (uncurry Printf <$> panic_calls level explained).

Lemma on_con_bind {A B} (op : st console A) (k : A → st panic_state B) s :
  (on_con op ≫= k) s = match op (con s) with Ok (a, c) => k a (Panicking c (explained s) (level s)) | Err e => Err e end.
Proof. unfold mbind, st_bind, on_con. by destruct (op (con s)) as [[a c]|e]. Qed.

(** The body of [debug_panic] is the sequence of calls. *)
Lemma report_ok l c e : 0 ≤ l → (l = 0 → frame_chain words frame stack) →
  (if l + 1 =? 1 then
     kprintf "Kernel PANIC at %s:%d in %s(): " [a_string file; Stdio.Int line; a_string function];;
     on_con (_ ← vprintf message args; mret tt);;
     kprintf "
" [];;
     kernel_backtrace words frame
   else if l + 1 =? 2 then
     kprintf "Kernel PANIC recursion at %s:%d in %s().
" [a_string file; Stdio.Int line; a_string function]
   else mret tt) (Panicking c e (l + 1))
  = match run_calls vprintf (panic_calls l e) c with Ok (_, c') => Ok (tt, Panicking c' (e || (l =? 0)) (l + 1)) | Err r => Err r end.
Proof.
  intros Hl Hc. unfold panic_calls, kprintf.
  replace (l + 1 =? 1) with (l =? 0) by (destruct (Z.eqb_spec l 0), (Z.eqb_spec (l + 1) 1); lia || done).
  replace (l + 1 =? 2) with (l =? 1) by (destruct (Z.eqb_spec l 1), (Z.eqb_spec (l + 1) 2); lia || done).
  destruct (Z.eqb_spec l 0) as [H0|H0]; [|destruct (l =? 1)].
  - rewrite orb_true_r. cbn [app run_calls]. do 3 (rewrite on_con_bind, (bind_eq (run_call _ _)); cbn [con explained level];
      match goal with |- match ?x with _ => _ end = match match ?y with _ => _ end with _ => _ end => change x with y; destruct y as [[[] ?]|?]; [|done] end).
    unfold kernel_backtrace. cbn [con explained level]. rewrite (backtrace_ok words vprintf frame stack) by auto.
    by destruct (run_calls _ _ _) as [[[] c']|r].
  - rewrite orb_false_r. unfold on_con. cbn [con explained level run_calls]. rewrite (bind_eq (run_call _ _)).
    match goal with |- match ?x with _ => _ end = match match ?y with _ => _ end with _ => _ end => change x with y; by destruct y as [[[] ?]|?] end.
  - by rewrite orb_false_r.
Qed.

(** C36: whoever holds the console lock and whatever runs, a panic never waits and
    never fails: its place, its message and the call stack (for a panic
    inside the first one only its place, for a third one nothing) are sent over the
    serial port completely, after everything that was still queued, and shown on
    the display, and the kernel then powers off or stops. *)
Theorem panic_message_sent s text :
  panic_ready (con s) → 0 ≤ level s < 2 ^ 31 - 1 → (level s = 0 → frame_chain words frame stack) →
  panic_output (level s) (explained s) = Ok text → (length text + 64 ≤ ready (dev_of (con s)))%nat →
  ∃ s', debug_panic words power_off_when_done frame file line function message args s
      = Ok (if power_off_when_done then PowersOff else Loops, s')
    ∧ u_sent (uart (dev_of (con s'))) = u_sent (uart (dev_of (con s))) ++ contents (txq (dev_of (con s))) ++ (u8 <$> text)
    ∧ contents (txq (dev_of (con s'))) = []
    ∧ screen (display (con s')) = foldl t_put (screen (display (con s))) (u8 <$> text)
    ∧ level s' = level s + 1.
Proof.
  intros Hp Hl Hc Ho Hr. destruct s as [c e l]. cbn [con explained level] in *. destruct (seized_ok c Hp) as [Hok Hlk].
  unfold debug_panic. rewrite (st_bind_ok (on_con (on_display _)) _ _ (irq_off (dev_of c))
    (Panicking (MkConsole (with_dev (set_off true (dev_of c)) (display c)) (holder c) (use_console_lock c) (console_lock_depth c) (write_cnt c)) e l)) by done.
  rewrite (st_bind_ok (on_con console_panic) _ _ tt (Panicking (seized c) e l)) by done.
  rewrite (st_bind_ok (st_modify _) _ _ tt (Panicking (seized c) e (l + 1))) by (unfold st_modify; simpl; by rewrite i32_small by lia).
  rewrite (st_bind_ok (st_gets _) _ _ (l + 1) (Panicking (seized c) e (l + 1))) by done.
  destruct (console_run_ok (uncurry Printf <$> panic_calls l e) text (seized c) Hok Hlk Ho) as (c1 & H1 & W1); [intros _; change (ready (dev_of (seized c))) with (ready (dev_of c)); lia|].
  rewrite <- run_calls_console in H1. pose proof (report_ok l (seized c) e ltac:(lia) Hc) as Hrep. rewrite H1 in Hrep.
  rewrite (st_bind_ok _ _ _ _ _ Hrep). rewrite on_con_bind. cbn [con explained level].
  destruct W1 as [K1 F1 S1 _ _ _ _ R1]. specialize (R1 (or_introl eq_refl)). rewrite length_fmap in R1. change (ready (dev_of (seized c))) with (ready (dev_of c)) in R1.
  destruct (serial_flush_ok (dev_of c1) (ck_dev _ K1) (ck_irq _ K1) ltac:(lia) (ck_ier _ K1)) as (d2 & H2 & Fin & T2).
  unfold on_display, on_vdev. change (vdev (display c1)) with (dev_of c1). rewrite H2.
  eexists. split; [done|]. cbn [con level]. unfold dev_of. cbn [display vdev]. pose proof (fi_flow _ _ _ _ Fin) as F2.
  unfold flow in F1, F2. rewrite T2, F1, !app_nil_r in F2. change (dev_of (seized c)) with (set_off true (dev_of c)) in F2.
  split; [rewrite F2; by rewrite <- app_assoc|]. split; [done|]. split; [exact S1|done].
Qed.

End panic.
End others.

(** A panic in an interrupt handler of a thread that waits for another's console
    lock, with a stack of two calls. *)
Definition demo_words : gmap Z Z := {[ 1000 := 1016; 1008 := 74565; 1016 := 1040; 1024 := 16; 1040 := 0 ]}.
Definition demo_con : console :=
  MkConsole (MkVga 0 24 (replicate 4000 0) true
    (Dev true true 1 demo_intq demo_intq POLL bss_table (MkPorts (replicate 300 0x20) []) [])) 2 true 0 0.
Definition demo_text : list Z := Stdio.chars "Kernel PANIC at a.c:7 in f(): no 42
Call stack: 0x12345 0x10.
".

Lemma panic_message_sent_witness :
  ∃ s', @debug_panic lazy_port demo_words true 1000 (Stdio.chars "a.c") 7 (Stdio.chars "f") (Stdio.lit "no %d") [Stdio.Int 42] (Panicking demo_con true 0)
      = Ok (PowersOff, s') ∧ u_sent (uart (dev_of (con s'))) = demo_text.
Proof.
  assert (Hready : panic_ready demo_con).
  { assert (Hq : intq_ok demo_intq) by (split; [done|simpl; lia]). split; [by split|done|split; [done|simpl; lia]|done|done|done]. }
  destruct (@panic_message_sent lazy_port demo_words true 1000 [(1000, 74565); (1016, 16)] (Stdio.chars "a.c") 7 (Stdio.chars "f") (Stdio.lit "no %d") [Stdio.Int 42]
    (Panicking demo_con true 0) demo_text Hready) as (s' & H1 & H2 & _).
  - cbn [level]. lia.
  - intros _. split; [reflexivity|]. split; [discriminate|]. split; [reflexivity|]. exists 1016.
    split; [reflexivity|]. split; [discriminate|]. split; [reflexivity|].
    split; [reflexivity|]. split; [discriminate|]. split; [reflexivity|]. exists 1040.
    split; [reflexivity|]. split; [discriminate|]. split; [reflexivity|]. right. reflexivity.
  - vm_compute. reflexivity.
  - apply Nat.leb_le. vm_compute. reflexivity.
  - exists s'. split; [exact H1|]. rewrite H2. vm_compute. reflexivity.
Defined.

End DebugTheorems.
