(* ===== verification/UserPrograms.v ===== *)
(** examples/: cat, cp, cmp, hex-dump, lineup, rm, echo, bubsort and matmult.

    A program is its [main]; returning a status and [exit] with it are the same, by
    lib/user/entry.c.  A string of [argv] is its characters without the
    terminator; [junk] is what the buffer of [printf] holds at first.  [fuel]
    bounds the rounds of a loop that ends when a file does: the theorems hold
    for every number that exceeds the length of the file. *)

From S2P Require Import Prelude StringC StdlibC Stdio UserLib.

(** The system calls as the programs of examples/ use them.

    The kernel's side of the system calls is not part of the repository.
    [UserOS] is the operations, with the bytes of a buffer in place of its
    address; [UserFileLaws] is what include/lib/user/syscall.h and the manual of
    the system promise about files: files have a fixed length, a handle has a
    position, a call that opens or creates a file may fail and then changes
    nothing; a read of an open file gives what there is up to the size, or fails
    with -1; a write may be short, at the end of the file or before, or fail.
    [ReliableIO] is a system whose reads and writes of open files do not fail.
    [sim_os] is a system that keeps these promises.  The calls are taken as
    documented, above the stubs of lib/user/syscall.c (UserLib.v has these, and
    shows that they lose an argument). *)
Local Open Scope Z_scope.

Module UserFiles.

Class UserOS (W : Type) := {
  sys_open : list Z → st W Z;
  sys_close : Z → st W unit;
  sys_read : Z → Z → st W (Z * list Z);
  sys_write : Z → list Z → st W Z;
  (** [write] with a negative size, which the call takes for one of almost 4 GB
      from a buffer of 1024 bytes: nothing is promised about it. *)
  sys_write_wild : Z → Z → st W Z;
  sys_create : list Z → Z → st W bool;
  sys_remove : list Z → st W bool;
  sys_filesize : Z → st W Z;
  sys_seek : Z → Z → st W unit;
  sys_tell : Z → st W Z }.

Definition STDIN_FILENO : Z := 0.
Definition STDOUT_FILENO : Z := 1.
Definition EXIT_SUCCESS : Z := 0.
Definition EXIT_FAILURE : Z := 1.

(** ** What the programs rely on *)

(** The files by name, the open handles with name and position, and the console. *)
Record view := View { files : gmap (list Z) (list Z); handles : gmap Z (list Z * Z); console : list Z }.

Definition set_files (f : gmap (list Z) (list Z)) (v : view) : view := View f (handles v) (console v).
Definition set_handles (h : gmap Z (list Z * Z)) (v : view) : view := View (files v) h (console v).
Definition set_console (l : list Z) (v : view) : view := View (files v) (handles v) l.

(** [l] written over [d] at [pos], as far as [d] goes. *)
Definition overwrite (d : list Z) (pos : nat) (l : list Z) : list Z :=
  let l := take (length d - pos) l in take pos d ++ l ++ drop (pos + length l) d.

Lemma overwrite_fitting d pos l : overwrite d pos (take (length (take (length d - pos) l)) l) = overwrite d pos l.
Proof.
  assert (E : take (length d - pos) (take (length (take (length d - pos) l)) l) = take (length d - pos) l).
  { rewrite take_take, length_take. destruct (decide (length l ≤ length d - pos)%nat); [by rewrite !take_ge by lia|f_equal; lia]. }
  unfold overwrite. by rewrite E.
Qed.

Class UserFileLaws (W : Type) `{!UserOS W} := {
  look : W → view;
  law_open name w : ∃ fd w', sys_open name w = Ok (fd, w') ∧
    (fd < 0 ∧ look w' = look w ∨
     2 ≤ fd < 2 ^ 31 ∧ handles (look w) !! fd = None ∧ is_Some (files (look w) !! name) ∧
     look w' = set_handles (<[fd := (name, 0)]> (handles (look w))) (look w));
  law_close fd w : ∃ w', sys_close fd w = Ok (tt, w') ∧ look w' = set_handles (delete fd (handles (look w))) (look w);
  law_read fd size w name pos d : handles (look w) !! fd = Some (name, pos) → files (look w) !! name = Some d → 0 ≤ pos → 0 ≤ size →
    let l := take (Z.to_nat size) (drop (Z.to_nat pos) d) in
    (∃ buf w', sys_read fd size w = Ok ((-1, buf), w') ∧ look w' = look w) ∨
    ∃ w', sys_read fd size w = Ok ((Z.of_nat (length l), l), w') ∧
      look w' = set_handles (<[fd := (name, pos + Z.of_nat (length l))]> (handles (look w))) (look w);
  law_write fd l w name pos d : 2 ≤ fd → handles (look w) !! fd = Some (name, pos) → files (look w) !! name = Some d → 0 ≤ pos →
    (∃ w', sys_write fd l w = Ok (-1, w') ∧ look w' = look w) ∨
    ∃ n w', sys_write fd l w = Ok (Z.of_nat n, w') ∧ (n ≤ length (take (length d - Z.to_nat pos) l))%nat ∧
      look w' = set_files (<[name := overwrite d (Z.to_nat pos) (take n l)]> (files (look w)))
                  (set_handles (<[fd := (name, pos + Z.of_nat n)]> (handles (look w))) (look w));
  law_print l w : ∃ w', sys_write STDOUT_FILENO l w = Ok (Z.of_nat (length l), w') ∧ look w' = set_console (console (look w) ++ l) (look w);
  law_create name size w : 0 ≤ size → ∃ ok w', sys_create name size w = Ok (ok, w') ∧
    (ok = false ∧ look w' = look w ∨
     ok = true ∧ files (look w) !! name = None ∧ look w' = set_files (<[name := replicate (Z.to_nat size) 0]> (files (look w))) (look w));
  law_filesize fd w name pos d : handles (look w) !! fd = Some (name, pos) → files (look w) !! name = Some d →
    sys_filesize fd w = Ok (Z.of_nat (length d), w);
  law_seek fd p w name pos : handles (look w) !! fd = Some (name, pos) → 0 ≤ p →
    ∃ w', sys_seek fd p w = Ok (tt, w') ∧ look w' = set_handles (<[fd := (name, p)]> (handles (look w))) (look w);
  law_tell fd w name pos : handles (look w) !! fd = Some (name, pos) → sys_tell fd w = Ok (pos, w) }.

(** A system whose reads and writes of open files do not fail, and write as much as the
    file has room for. *)
Class ReliableIO (W : Type) `{!UserOS W} `{!UserFileLaws W} := {
  rel_read fd size w n buf w' : is_Some (handles (look w) !! fd) → sys_read fd size w = Ok ((n, buf), w') → 0 ≤ n;
  rel_write fd l w name pos d n w' : 2 ≤ fd → handles (look w) !! fd = Some (name, pos) → files (look w) !! name = Some d →
    sys_write fd l w = Ok (n, w') → n = Z.of_nat (length (take (length d - Z.to_nat pos) l)) }.

Section reliable.
Context {W : Type} `{!UserOS W} `{!UserFileLaws W} `{!ReliableIO W}.

Lemma read_full fd size w name pos d : handles (look w) !! fd = Some (name, pos) → files (look w) !! name = Some d → 0 ≤ pos → 0 ≤ size →
  let l := take (Z.to_nat size) (drop (Z.to_nat pos) d) in
  ∃ w', sys_read fd size w = Ok ((Z.of_nat (length l), l), w') ∧
    look w' = set_handles (<[fd := (name, pos + Z.of_nat (length l))]> (handles (look w))) (look w).
Proof.
  intros Hh Hf Hp Hs. destruct (law_read fd size w name pos d Hh Hf Hp Hs) as [(buf & w' & H & _)|H]; [|done].
  apply rel_read in H; [lia|eauto].
Qed.

Lemma write_full fd l w name pos d : 2 ≤ fd → handles (look w) !! fd = Some (name, pos) → files (look w) !! name = Some d → 0 ≤ pos →
  let n := Z.of_nat (length (take (length d - Z.to_nat pos) l)) in
  ∃ w', sys_write fd l w = Ok (n, w') ∧
    look w' = set_files (<[name := overwrite d (Z.to_nat pos) l]> (files (look w)))
                (set_handles (<[fd := (name, pos + n)]> (handles (look w))) (look w)).
Proof.
  intros Hfd Hh Hf Hp. cbv zeta. destruct (law_write fd l w name pos d Hfd Hh Hf Hp) as [(w' & H & _)|(n & w' & H & Hn & L)].
  - eapply rel_write in H; [lia|done..].
  - pose proof H as E. eapply rel_write in E; [|done..]. exists w'. rewrite <- E. split; [done|]. rewrite L.
    apply Nat2Z.inj in E. by rewrite E at 1; rewrite overwrite_fitting.
Qed.
End reliable.

(** ** A system *)

(** One more than the handles in use. *)
Definition next_fd {A} (h : gmap Z A) : Z := foldr Z.max 1 (elements (dom h)) + 1.
Definition sim_handle (fd : Z) : st view (list Z * Z) := v ← st_get; st_of_option BadAddr (handles v !! fd).
Definition sim_data (name : list Z) : st view (list Z) := v ← st_get; st_of_option BadAddr (files v !! name).

#[export] Instance sim_os : UserOS view := {|
  sys_open name := v ← st_get;
    if decide (is_Some (files v !! name)) then
      let fd := next_fd (handles v) in
      if fd <? 2 ^ 31 then st_modify (set_handles (<[fd := (name, 0)]> (handles v)));; mret fd else mret (-1)
    else mret (-1);
  sys_close fd := v ← st_get; st_modify (set_handles (delete fd (handles v)));; mret tt;
  sys_read fd size :=
    '(name, pos) ← sim_handle fd; d ← sim_data name; v ← st_get;
    let l := take (Z.to_nat size) (drop (Z.to_nat pos) d) in
    st_modify (set_handles (<[fd := (name, pos + Z.of_nat (length l))]> (handles v)));; mret (Z.of_nat (length l), l);
  sys_write fd l :=
    if fd =? STDOUT_FILENO then v ← st_get; st_modify (set_console (console v ++ l));; mret (Z.of_nat (length l))
    else
      '(name, pos) ← sim_handle fd; d ← sim_data name; v ← st_get;
      let n := Z.of_nat (length (take (length d - Z.to_nat pos) l)) in
      st_modify (λ v, set_files (<[name := overwrite d (Z.to_nat pos) l]> (files v)) (set_handles (<[fd := (name, pos + n)]> (handles v)) v));; mret n;
  sys_write_wild fd n := st_err BadAddr;
  sys_create name size := v ← st_get;
    if decide (files v !! name = None) then st_modify (set_files (<[name := replicate (Z.to_nat size) 0]> (files v)));; mret true else mret false;
  sys_remove name := v ← st_get;
    if decide (is_Some (files v !! name)) then st_modify (set_files (delete name (files v)));; mret true else mret false;
  sys_filesize fd := '(name, _) ← sim_handle fd; d ← sim_data name; mret (Z.of_nat (length d));
  sys_seek fd p := '(name, _) ← sim_handle fd; v ← st_get; st_modify (set_handles (<[fd := (name, p)]> (handles v)));; mret tt;
  sys_tell fd := '(_, pos) ← sim_handle fd; mret pos |}.
Lemma foldr_max_ge l : Forall (λ x, x ≤ foldr Z.max 1 l) (1 :: l).
Proof.
  induction l as [|y l IH]; simpl; [repeat constructor; lia|]. apply Forall_cons in IH as [H1 H2]. constructor; [lia|].
  constructor; [lia|]. eapply Forall_impl; [exact H2|]. simpl. lia.
Qed.

Lemma next_fd_fresh {A} (h : gmap Z A) : 2 ≤ next_fd h ∧ h !! next_fd h = None.
Proof.
  unfold next_fd. pose proof (foldr_max_ge (elements (dom h))) as H. apply Forall_cons in H as [H1 H2]. split; [lia|].
  apply not_elem_of_dom. intros Hin%elem_of_elements. rewrite Forall_forall in H2. apply H2 in Hin. lia.
Qed.

#[export] Program Instance sim_file_laws : UserFileLaws view := {| look := id |}.
Next Obligation.
  intros name w. cbn [sys_open sim_os]. rewrite (st_bind_ok st_get _ _ w w) by done. destruct (decide _) as [Hs|Hs]; [|eexists _, _; split; [done|left; split; [lia|done]]].
  destruct (next_fd_fresh (handles w)) as [H2 Hn]. cbv zeta. destruct (Z.ltb_spec (next_fd (handles w)) (2 ^ 31)); eexists _, _; (split; [done|]).
  - right. split; [lia|]. done.
  - left. split; [lia|done].
Qed.
Next Obligation. intros fd w. by eexists. Qed.
Next Obligation.
  intros fd size w name pos d Hh Hf Hp Hs. unfold id in *. cbn [sys_read sim_os]. unfold sim_handle, sim_data, mbind, st_bind, st_get, st_of_option. rewrite Hh. cbn. rewrite Hf. right. by eexists.
Qed.
Next Obligation.
  intros fd l w name pos d Hfd Hh Hf Hp. unfold id in *. cbn [sys_write sim_os]. unfold STDOUT_FILENO. rewrite (proj2 (Z.eqb_neq fd 1)) by lia.
  unfold sim_handle, sim_data, mbind, st_bind, st_get, st_of_option. rewrite Hh. cbn. rewrite Hf. right.
  eexists (length (take (length d - Z.to_nat pos) l)), _. split; [done|]. split; [done|].
  by rewrite overwrite_fitting.
Qed.
Next Obligation. intros l w. by eexists. Qed.
Next Obligation.
  intros name size w Hs. cbn [sys_create sim_os]. rewrite (st_bind_ok st_get _ _ w w) by done. destruct (decide _) as [Hn|Hn]; eexists _, _; (split; [done|]); [by right|by left].
Qed.
Next Obligation.
  intros fd w name pos d Hh Hf. unfold id in *. cbn [sys_filesize sim_os]. unfold sim_handle, sim_data, mbind, st_bind, st_get, st_of_option. rewrite Hh. cbn. by rewrite Hf.
Qed.
Next Obligation.
  intros fd p w name pos Hh Hp. unfold id in *. cbn [sys_seek sim_os]. unfold sim_handle, mbind, st_bind, st_get, st_of_option. rewrite Hh. by eexists.
Qed.
Next Obligation.
  intros fd w name pos Hh. unfold id in *. cbn [sys_tell sim_os]. unfold sim_handle, mbind, st_bind, st_get, st_of_option. by rewrite Hh.
Qed.

#[export] Instance sim_reliable : ReliableIO view.
Proof.
  split.
  - intros fd size w n buf w' _. cbn [sys_read sim_os]. unfold sim_handle, sim_data, mbind, st_bind, st_get, st_of_option.
    destruct (handles w !! fd) as [[name pos]|]; cbn; [|done]. destruct (files w !! name); cbn; [|done]. intros [= <- _ _]. lia.
  - intros fd l w name pos d n w' Hfd Hh Hf. unfold look in *. cbn [sys_write sim_os]. unfold STDOUT_FILENO. rewrite (proj2 (Z.eqb_neq fd 1)) by lia.
    cbn in Hh, Hf. unfold sim_handle, sim_data, mbind, st_bind, st_get, st_of_option, id in *. rewrite Hh. cbn. rewrite Hf. cbn. by intros [= <- _].
Qed.

End UserFiles.
Import UserFiles.
Local Open Scope Z_scope.

(** include/lib/ctype.h *)
Module Ctype.
Definition islower (c : Z) : bool := (97 <=? c) && (c <=? 122).
Definition isupper (c : Z) : bool := (65 <=? c) && (c <=? 90).
Definition isalpha (c : Z) : bool := islower c || isupper c.
Definition isalnum (c : Z) : bool := isalpha c || StdlibC.isdigit c.
Definition isxdigit (c : Z) : bool := StdlibC.isdigit c || (97 <=? c) && (c <=? 102) || (65 <=? c) && (c <=? 70).
Definition isblank (c : Z) : bool := (c =? 32) || (c =? 9).
Definition isgraph (c : Z) : bool := (32 <? c) && (c <? 127).
Definition iscntrl (c : Z) : bool := (0 <=? c) && (c <? 32) || (c =? 127).
Definition isascii (c : Z) : bool := (0 <=? c) && (c <? 128).
Definition ispunct (c : Z) : bool := Stdio.isprint c && negb (isalnum c) && negb (StdlibC.isspace c).
Definition tolower (c : Z) : Z := if isupper c then c - 65 + 97 else c.
Definition toupper (c : Z) : Z := if islower c then c - 97 + 65 else c.

(** The characters of ASCII fall into the classes: a printing character is the blank,
    alphanumeric or punctuation, the others are control characters; changing the case
    of a letter back and forth is the identity, and only letters change. *)
Lemma ascii_classes : ∀ c, isascii c = true →
  (Stdio.isprint c = (c =? 32) || isalnum c || ispunct c) ∧ isgraph c = isalnum c || ispunct c ∧
  iscntrl c = negb (Stdio.isprint c) ∧ (isxdigit c = true → isalnum c = true) ∧ (isblank c = true → StdlibC.isspace c = true) ∧
  (islower c = true → tolower (toupper c) = c) ∧ (isupper c = true → toupper (tolower c) = c) ∧ (isalpha c = false → toupper c = c ∧ tolower c = c).
Proof.
  assert (H : Forall (λ c, (Stdio.isprint c = (c =? 32) || isalnum c || ispunct c) ∧ isgraph c = isalnum c || ispunct c ∧
    iscntrl c = negb (Stdio.isprint c) ∧ (isxdigit c = true → isalnum c = true) ∧ (isblank c = true → StdlibC.isspace c = true) ∧
    (islower c = true → tolower (toupper c) = c) ∧ (isupper c = true → toupper (tolower c) = c) ∧ (isalpha c = false → toupper c = c ∧ tolower c = c)) (seqZ 0 128)).
  { apply (bool_decide_unpack _). vm_compute. exact I. }
  intros c Hc. rewrite Forall_forall in H. apply H, elem_of_seqZ. unfold isascii in Hc. apply andb_prop in Hc as [? ?]. lia.
Qed.
End Ctype.
Import Ctype.

Module UserPrograms.

Definition str (s : list Z) : Stdio.arg := Stdio.Str (Some (s ++ [0])).

Section programs.
Context {W : Type} `{!UserOS W} (junk : list Z) (fuel : nat).

Definition write_out (h : Z) (l : list Z) : st W unit := _ ← sys_write h l; mret tt.
Definition printf (format : string) (args : list Stdio.arg) : st W unit :=
  _ ← UserConsole.vprintf write_out junk (Stdio.lit format) args; mret tt.

(** [write (fd, buffer, n)] of the buffer [read] filled. *)
Definition write_buffer (fd : Z) (bytes : list Z) (n : Z) : st W Z :=
  if n <? 0 then sys_write_wild fd n else sys_write fd (take (Z.to_nat n) bytes).

Definition status (success : bool) : Z := if success then EXIT_SUCCESS else EXIT_FAILURE.

(** ** cat.c *)

Fixpoint cat_file_loop (k : nat) (fd : Z) : st W unit :=
  match k with
  | O => st_err NoFuel
  | S k =>
    '(bytes_read, buffer) ← sys_read fd 1024;
    if bytes_read =? 0 then mret tt else
    _ ← write_buffer STDOUT_FILENO buffer bytes_read;
    cat_file_loop k fd
  end.

Fixpoint cat_files (names : list (list Z)) (success : bool) : st W bool :=
  match names with
  | [] => mret success
  | name :: names =>
    fd ← sys_open name;
    if fd <? 0 then
      printf "%s: open failed
" [str name];;
      cat_files names false
    else
      cat_file_loop fuel fd;;
      sys_close fd;;
      cat_files names success
  end.

Definition cat_main (argv : list (list Z)) : st W Z := success ← cat_files (tail argv) true; mret (status success).

(** ** hex-dump.c; the text that [hex_dump] prints piece by piece is written at once *)

Fixpoint hex_loop (k : nat) (fd : Z) : st W unit :=
  match k with
  | O => st_err NoFuel
  | S k =>
    pos ← sys_tell fd;
    '(bytes_read, buffer) ← sys_read fd 1024;
    if bytes_read =? 0 then mret tt else
    match Stdio.hex_dump pos buffer (u64 bytes_read) true with
    | Err e => st_err e
    | Ok text => write_out STDOUT_FILENO text;; hex_loop k fd
    end
  end.

Fixpoint hex_files (names : list (list Z)) (success : bool) : st W bool :=
  match names with
  | [] => mret success
  | name :: names =>
    fd ← sys_open name;
    if fd <? 0 then
      printf "%s: open failed
" [str name];;
      hex_files names false
    else
      hex_loop fuel fd;;
      sys_close fd;;
      hex_files names success
  end.

Definition hex_dump_main (argv : list (list Z)) : st W Z := success ← hex_files (tail argv) true; mret (status success).

(** ** cp.c *)

Fixpoint cp_loop (k : nat) (in_fd out_fd : Z) (name : list Z) : st W Z :=
  match k with
  | O => st_err NoFuel
  | S k =>
    '(bytes_read, buffer) ← sys_read in_fd 1024;
    if bytes_read =? 0 then mret EXIT_SUCCESS else
    n ← write_buffer out_fd buffer bytes_read;
    if negb (n =? bytes_read) then
      printf "%s: write failed
" [str name];;
      mret EXIT_FAILURE
    else cp_loop k in_fd out_fd name
  end.

Definition cp_main (argv : list (list Z)) : st W Z :=
  match argv with
  | [_; old; new] =>
    in_fd ← sys_open old;
    if in_fd <? 0 then printf "%s: open failed
" [str old];; mret EXIT_FAILURE else
    size ← sys_filesize in_fd;
    ok ← sys_create new (u32 size);
    if negb ok then printf "%s: create failed
" [str new];; mret EXIT_FAILURE else
    out_fd ← sys_open new;
    if out_fd <? 0 then printf "%s: open failed
" [str new];; mret EXIT_FAILURE else
    cp_loop fuel in_fd out_fd new
  | _ => printf "usage: cp OLD NEW
" [];; mret EXIT_FAILURE
  end.

(** ** cmp.c *)

(** The first of the [k] indices from [i] on at which the buffers differ. *)
Fixpoint first_diff (k : nat) (i : nat) (b0 b1 : list Z) : option (nat * Z * Z) :=
  match k with
  | O => None
  | S k =>
    let x := default 0 (b0 !! i) in
    let y := default 0 (b1 !! i) in
    if x =? y then first_diff k (S i) b0 b1 else Some (i, x, y)
  end.

Fixpoint cmp_loop (k : nat) (a b : list Z) (fd0 fd1 : Z) : st W Z :=
  match k with
  | O => st_err NoFuel
  | S k =>
    pos ← sys_tell fd0;
    '(n0, b0) ← sys_read fd0 1024;
    '(n1, b1) ← sys_read fd1 1024;
    let min_read := if n0 <? n1 then n0 else n1 in
    if min_read =? 0 then
      printf "%s and %s are identical
" [str a; str b];;
      mret EXIT_SUCCESS
    else
      match first_diff (Z.to_nat min_read) 0 b0 b1 with
      | Some (i, x, y) =>
        printf "Byte %d is %02hhx ('%c') in %s but %02hhx ('%c') in %s
" [Stdio.Int (i32 (i32 pos + Z.of_nat i)); Stdio.Int x; Stdio.Int x; str a; Stdio.Int y; Stdio.Int y; str b];;
        mret EXIT_FAILURE
      | None =>
        (if min_read <? n1 then printf "%s is shorter than %s
" [str a; str b]
         else if min_read <? n0 then printf "%s is shorter than %s
" [str b; str a]
         else mret tt);;
        cmp_loop k a b fd0 fd1
      end
  end.

Definition cmp_main (argv : list (list Z)) : st W Z :=
  match argv with
  | [_; a; b] =>
    fd0 ← sys_open a;
    if fd0 <? 0 then printf "%s: open failed
" [str a];; mret EXIT_FAILURE else
    fd1 ← sys_open b;
    if fd1 <? 0 then printf "%s: open failed
" [str a];; mret EXIT_FAILURE else
    cmp_loop fuel a b fd0 fd1
  | _ => printf "usage: cmp A B
" [];; mret EXIT_FAILURE
  end.

(** ** lineup.c *)

Fixpoint lineup_loop (k : nat) (handle : Z) : st W unit :=
  match k with
  | O => st_err NoFuel
  | S k =>
    '(n, buf) ← sys_read handle 1024;
    if n <=? 0 then mret tt else
    let buf := (λ c, u8 (toupper (u8 c))) <$> buf in
    pos ← sys_tell handle;
    sys_seek handle (u32 (pos - n));;
    m ← write_buffer handle buf n;
    (if negb (m =? n) then printf "write failed
" [] else mret tt);;
    lineup_loop k handle
  end.

Definition lineup_main (argv : list (list Z)) : st W Z :=
  match argv with
  | [_; name] =>
    handle ← sys_open name;
    if handle <? 0 then mret 2 else
    lineup_loop fuel handle;;
    sys_close handle;;
    mret EXIT_SUCCESS
  | _ => mret 1
  end.

(** ** rm.c *)

Fixpoint rm_files (names : list (list Z)) (success : bool) : st W bool :=
  match names with
  | [] => mret success
  | name :: names =>
    ok ← sys_remove name;
    if ok : bool then rm_files names success
    else
      printf "%s: remove failed
" [str name];;
      rm_files names false
  end.

Definition rm_main (argv : list (list Z)) : st W Z := success ← rm_files (tail argv) true; mret (status success).

(** ** echo.c *)

Fixpoint echo_words (argv : list (list Z)) : st W unit :=
  match argv with [] => mret tt | s :: argv => printf "%s " [str s];; echo_words argv end.

Definition echo_main (argv : list (list Z)) : st W Z :=
  echo_words argv;;
  printf "
" [];;
  mret EXIT_SUCCESS.

(** ** bubsort.c *)

Definition SORT_SIZE : nat := 128.

Definition get (l : list Z) (i : nat) : st W Z := st_of_option BadAddr (l !! i).

(** [for (j = j0; ...)] with [k] rounds to go. *)
Fixpoint bubble (k j : nat) (array : list Z) : st W (list Z) :=
  match k with
  | O => mret array
  | S k =>
    x ← get array j;
    y ← get array (S j);
    bubble k (S j) (if x >? y then <[S j := x]> (<[j := y]> array) else array)
  end.

(** The rounds of the outer loop from [i] on. *)
Fixpoint sort_rounds (n : nat) (k i : nat) (array : list Z) : st W (list Z) :=
  match k with
  | O => mret array
  | S k => array ← bubble (n - 1 - i) 0 array; sort_rounds n k (S i) array
  end.

Definition descending (n : nat) : list Z := (λ i, Z.of_nat n - Z.of_nat i - 1) <$> seq 0 n.

Definition bubsort_main : st W Z :=
  array ← sort_rounds SORT_SIZE (SORT_SIZE - 1) 0 (descending SORT_SIZE);
  x ← get array 0;
  printf "sort exiting with code %d
" [Stdio.Int x];;
  mret x.

End programs.

(** ** matmult.c *)

Section matmult.
Context (DIM : nat).

Notation matrix := (list (list Z)).
Definition entry (m : matrix) (i j : nat) : Z := default 0 (m !! i ≫= λ r, r !! j).
Definition set_entry (m : matrix) (i j : nat) (v : Z) : matrix := alter (λ r, <[j := v]> r) i m.
Definition init_matrix (f : nat → nat → Z) : matrix := (λ i, (λ j, f i j) <$> seq 0 DIM) <$> seq 0 DIM.

Definition A : matrix := init_matrix (λ i _, Z.of_nat i).
Definition B : matrix := init_matrix (λ _ j, Z.of_nat j).

Fixpoint mult_k (n k i j : nat) (c : matrix) : matrix :=
  match n with
  | O => c
  | S n => mult_k n (S k) i j (set_entry c i j (i32 (entry c i j + i32 (entry A i k * entry B k j))))
  end.
Fixpoint mult_j (n i j : nat) (c : matrix) : matrix :=
  match n with O => c | S n => mult_j n i (S j) (mult_k DIM 0 i j c) end.
Fixpoint mult_i (n i : nat) (c : matrix) : matrix :=
  match n with O => c | S n => mult_i n (S i) (mult_j DIM i 0 c) end.

Definition matmult_main : Z := entry (mult_i DIM 0 (init_matrix (λ _ _, 0))) (DIM - 1) (DIM - 1).

End matmult.
End UserPrograms.
