(* ===== verification/UserProgramTheorems.v ===== *)
(** What the programs of examples/ do, for every system that keeps the promises of
    [UserFileLaws]. *)
From Stdlib Require Import Sorted.

From S2P Require Import Prelude StringC StdlibC Stdio StdioTheorems UserLib UserPrograms.
Import UserFiles UserPrograms Ctype.
Local Open Scope Z_scope.

Module UserProgramTheorems.

Section reading.
Context {W : Type} `{!UserOS W} `{!UserFileLaws W}.

(** One round of reading a file that is open. *)
Lemma read_round `{!ReliableIO W} fd w name pos d : handles (look w) !! fd = Some (name, pos) → files (look w) !! name = Some d → 0 ≤ pos →
  let l := take 1024 (drop (Z.to_nat pos) d) in
  ∃ w', sys_read fd 1024 w = Ok ((Z.of_nat (length l), l), w') ∧
    look w' = set_handles (<[fd := (name, pos + Z.of_nat (length l))]> (handles (look w))) (look w).
Proof. intros Hh Hf Hp. exact (read_full fd 1024 w name pos d Hh Hf Hp ltac:(lia)). Qed.

Lemma drop_chunk (d : list Z) (pos : nat) : let l := take 1024 (drop pos d) in drop pos d = l ++ drop (pos + length l) d.
Proof.
  cbv zeta. rewrite <- (take_drop 1024 (drop pos d)) at 1. f_equal. rewrite drop_drop, length_take, length_drop.
  destruct (decide (1024 ≤ length d - pos)%nat); [f_equal; lia|]. by rewrite !drop_ge by lia.
Qed.

End reading.

Section laws.
Context {W : Type} `{!UserOS W} `{!UserFileLaws W} (junk : list Z) (fuel : nat).
Hypothesis Hjunk : length junk = UserConsole.BUF_SIZE.

(** ** Printing *)

Lemma write_all_ok ps : ∀ w, ∃ w', UserConsole.write_all write_out STDOUT_FILENO ps w = Ok (tt, w') ∧
  look w' = set_console (console (look w) ++ concat ps) (look w).
Proof.
  induction ps as [|l ps IH]; intros w; cbn [UserConsole.write_all].
  { exists w. split; [done|]. simpl. rewrite app_nil_r. by destruct (look w). }
  destruct (law_print l w) as (w1 & H1 & L1). rewrite (st_bind_ok (write_out _ _) _ _ tt w1) by (unfold write_out; by rewrite (st_bind_ok _ _ _ _ _ H1)).
  destruct (IH w1) as (w2 & H2 & L2). exists w2. split; [done|]. rewrite L2, L1. simpl. unfold set_console. simpl. by rewrite app_assoc.
Qed.

Lemma user_printf_ok format args text w : Stdio.__printf (Stdio.lit format) args = Ok text → Z.of_nat (length text) < 2 ^ 31 →
  ∃ w', printf junk format args w = Ok (tt, w') ∧ look w' = set_console (console (look w) ++ text) (look w).
Proof.
  intros Ht Hl. destruct (write_all_ok (UserConsole.pieces [] text) w) as (w' & H1 & L1). exists w'. split.
  - unfold printf. rewrite (st_bind_ok _ _ _ (Z.of_nat (length text)) w'); [done|]. unfold UserConsole.vprintf.
    rewrite (UserConsole.vhprintf_ok write_out junk _ _ _ text w Hjunk Ht Hl). change UserConsole.STDOUT_FILENO with STDOUT_FILENO. by rewrite (st_bind_ok _ _ _ _ _ H1).
  - by rewrite L1, UserConsole.pieces_concat.
Qed.

(** The system refuses a call. *)
Definition open_fails (name : list Z) (w : W) : Prop := ∃ fd w', sys_open name w = Ok (fd, w') ∧ fd < 0.
Definition read_fails (fd : Z) (w : W) : Prop := ∃ buf w', sys_read fd 1024 w = Ok ((-1, buf), w').

(** Strings: characters other than the terminator, of a length an int can count. *)
Definition name_ok (s : list Z) : Prop := Forall (λ c, c ≠ 0) s ∧ Z.of_nat (length s) < 2 ^ 20.

Lemma strnlen_name s n : Forall (λ c, c ≠ 0) s → Z.of_nat (length s) < n → Stdio.strnlen_bytes (s ++ [0]) n = Ok (length s).
Proof.
  intros Hs. revert n. induction Hs as [|c s Hc Hs IH]; intros n Hn; [done|]. simpl. apply Z.eqb_neq in Hc. rewrite Hc. simpl.
  simpl in Hn. rewrite (proj2 (Z.ltb_lt 0 n)) by lia. by rewrite IH by lia.
Qed.

Lemma format_name s : name_ok s →
  (n ← Stdio.strnlen_bytes (s ++ [0]) (2 ^ 64 - 1); Ok (Stdio.format_string (s ++ [0]) n (Stdio.Conversion 0 0 (-1) Stdio.INT))) = Ok s.
Proof.
  intros [Hs Hl]. rewrite strnlen_name by (done || lia). cbn [mbind res_bind]. unfold Stdio.format_string. cbn [Stdio.width].
  rewrite (proj2 (Z.ltb_ge (Z.of_nat (length s)) 0)) by lia. simpl. by rewrite app_nil_r, take_app_length.
Qed.

(** A name and a message without conversions. *)
Lemma printf_name_then rest s : (∀ z, Stdio.__printf (Stdio.lit (String.append "%s" rest)) [Stdio.Str (Some z)] =
    (n ← Stdio.strnlen_bytes z (2 ^ 64 - 1); Ok (Stdio.format_string z n (Stdio.Conversion 0 0 (-1) Stdio.INT) ++ Stdio.chars rest))) →
  name_ok s → Stdio.__printf (Stdio.lit (String.append "%s" rest)) [str s] = Ok (s ++ Stdio.chars rest).
Proof.
  intros He Hs. unfold str. rewrite He. pose proof (format_name s Hs) as Hf. destruct (Stdio.strnlen_bytes _ _) as [n|]; [|done].
  cbn [mbind res_bind] in *. injection Hf as ->. done.
Qed.

Ltac message rest := apply (printf_name_then rest); [intros z; lazy -[Stdio.strnlen_bytes Stdio.format_string]; by destruct (Stdio.strnlen_bytes _ _)|done].

Definition open_failed (s : list Z) : list Z := s ++ Stdio.chars ": open failed
".

Lemma printf_open_failed s w : name_ok s → ∃ w', printf junk "%s: open failed
" [str s] w = Ok (tt, w') ∧ look w' = set_console (console (look w) ++ open_failed s) (look w).
Proof.
  intros Hs. apply user_printf_ok; [message ": open failed
"%string|]. destruct Hs as [_ Hs]. unfold open_failed. rewrite length_app. simpl. lia.
Qed.

(** ** cat *)

Section cat.
Context `{!ReliableIO W}.

Lemma cat_file_loop_ok name d k : ∀ fd pos w, handles (look w) !! fd = Some (name, Z.of_nat pos) → files (look w) !! name = Some d →
  (length d - pos < k)%nat →
  ∃ w' pos', cat_file_loop k fd w = Ok (tt, w') ∧
    look w' = View (files (look w)) (<[fd := (name, pos')]> (handles (look w))) (console (look w) ++ drop pos d).
Proof.
  induction k as [|k IH]; intros fd pos w Hh Hf Hk; [lia|]. cbn [cat_file_loop].
  destruct (read_round fd w name _ d Hh Hf ltac:(lia)) as (w1 & H1 & L1). rewrite Nat2Z.id in H1, L1. pose proof (drop_chunk d pos) as Hd. cbv zeta in Hd.
  set (l := take 1024 (drop pos d)) in *. rewrite (st_bind_ok _ _ _ _ _ H1). destruct (Z.eqb_spec (Z.of_nat (length l)) 0) as [E|E].
  - exists w1, (Z.of_nat pos + Z.of_nat (length l)). split; [done|]. rewrite L1. unfold set_handles. f_equal.
    assert (l = []) as Hnil by (apply length_zero_iff_nil; lia).
    assert (drop pos d = []) as ->; [|by rewrite app_nil_r].
    destruct (drop pos d) eqn:Ed; [done|]. unfold l in Hnil. rewrite ?Ed in Hnil. done.
  - unfold write_buffer. rewrite (proj2 (Z.ltb_ge _ 0)) by lia. rewrite Nat2Z.id, take_ge by lia.
    destruct (law_print l w1) as (w2 & H2 & L2). rewrite (st_bind_ok _ _ _ _ _ H2). rewrite L1 in L2.
    destruct (IH fd (pos + length l)%nat w2) as (w3 & pos' & H3 & L3).
    + rewrite L2. simpl. rewrite lookup_insert_eq. do 2 f_equal. lia.
    + by rewrite L2.
    + assert (length l ≤ length d - pos)%nat by (unfold l; rewrite length_take, length_drop; lia). lia.
    + exists w3, pos'. split; [done|]. rewrite L3, L2. simpl. by rewrite insert_insert_eq, <- app_assoc, <- Hd.
Qed.

(** What [cat] shows of a file: its contents, or that it could not be opened. *)
Definition cat_shows (f : gmap (list Z) (list Z)) (name : list Z) (o : list Z * bool) : Prop :=
  snd o = true ∧ f !! name = Some (fst o) ∨ snd o = false ∧ fst o = open_failed name.

Lemma cat_files_ok names : ∀ success w, Forall name_ok names → (∀ n d, files (look w) !! n = Some d → (length d < fuel)%nat) →
  ∃ w' outs, cat_files junk fuel names success w = Ok (success && forallb snd outs, w') ∧
    look w' = set_console (console (look w) ++ concat (fst <$> outs)) (look w) ∧ Forall2 (cat_shows (files (look w))) names outs.
Proof.
  induction names as [|name names IH]; intros success w Hn Hfuel; cbn [cat_files].
  { exists w, []. split; [by rewrite andb_true_r|]. split; [|constructor]. simpl. rewrite app_nil_r. by destruct (look w). }
  apply Forall_cons in Hn as [Hname Hn]. destruct (law_open name w) as (fd & w1 & H1 & Ho). rewrite (st_bind_ok _ _ _ _ _ H1).
  destruct Ho as [[Hfd L1]|(Hfd & Hfresh & [d Hd] & L1)].
  - rewrite (proj2 (Z.ltb_lt fd 0)) by lia. destruct (printf_open_failed name w1 Hname) as (w2 & H2 & L2). rewrite (st_bind_ok _ _ _ _ _ H2).
    rewrite L1 in L2. destruct (IH false w2 Hn) as (w3 & outs & H3 & L3 & F3); [by rewrite L2|]. rewrite L2 in L3, F3.
    exists w3, ((open_failed name, false) :: outs). split; [rewrite H3; simpl; by rewrite andb_false_r|]. split; [|constructor; [by right|done]].
    rewrite L3. simpl. unfold set_console. simpl. by rewrite <- app_assoc.
  - rewrite (proj2 (Z.ltb_ge fd 0)) by lia.
    destruct (cat_file_loop_ok name d fuel fd 0 w1) as (w2 & pos & H2 & L2).
    { rewrite L1. simpl. apply lookup_insert_eq. } { by rewrite L1. } { specialize (Hfuel _ _ Hd). lia. }
    rewrite (st_bind_ok _ _ _ _ _ H2). destruct (law_close fd w2) as (w3 & H3 & L3). rewrite (st_bind_ok _ _ _ _ _ H3).
    assert (L3' : look w3 = set_console (console (look w) ++ d) (look w)).
    { rewrite L3, L2, L1. unfold set_handles, set_console. simpl. rewrite drop_0, insert_insert_eq, delete_insert_id by done. done. }
    destruct (IH success w3 Hn) as (w4 & outs & H4 & L4 & F4); [by rewrite L3'|]. rewrite L3' in L4, F4.
    exists w4, ((d, true) :: outs). split; [by rewrite H4|]. split; [|constructor; [by left|done]].
    rewrite L4. unfold set_console. simpl. by rewrite <- app_assoc.
Qed.

(** [cat] prints its files one after the other, complete; for a file that cannot be
    opened it says so and fails in the end.  It leaves no handle open. *)
Theorem cat_prints prog names w : Forall name_ok names → (∀ n d, files (look w) !! n = Some d → (length d < fuel)%nat) →
  ∃ w' outs, cat_main junk fuel (prog :: names) w = Ok (status (forallb snd outs), w') ∧
    look w' = set_console (console (look w) ++ concat (fst <$> outs)) (look w) ∧ Forall2 (cat_shows (files (look w))) names outs.
Proof.
  intros Hn Hf. destruct (cat_files_ok names true w Hn Hf) as (w' & outs & H1 & H2). exists w', outs. split; [|done].
  unfold cat_main. simpl tail. by rewrite (st_bind_ok _ _ _ _ _ H1).
Qed.

End cat.

(** ** cp *)

Lemma chunk_length (d : list Z) pos : (pos + length (take 1024 (drop pos d)) ≤ length d)%nat ∨ take 1024 (drop pos d) = [].
Proof.
  destruct (decide (pos ≤ length d)%nat); [left; rewrite length_take, length_drop; lia|right; by rewrite drop_ge by lia].
Qed.

(** Writing the next piece of [d] behind the part that is copied already. *)
Lemma overwrite_copy (d rest : list Z) pos : (pos ≤ length d)%nat → length rest = (length d - pos)%nat →
  let l := take 1024 (drop pos d) in
  take (length (take pos d ++ rest) - pos) l = l ∧
  overwrite (take pos d ++ rest) pos l = take (pos + length l) d ++ drop (length l) rest.
Proof.
  intros Hp Hr. cbv zeta. set (l := take 1024 (drop pos d)).
  assert (Hl : (length l ≤ length d - pos)%nat) by (unfold l; rewrite length_take, length_drop; lia).
  assert (Htp : length (take pos d) = pos) by (rewrite length_take; lia).
  assert (Ht : take (length (take pos d ++ rest) - pos) l = l) by (apply take_ge; rewrite length_app; lia).
  split; [done|]. unfold overwrite. rewrite Ht. rewrite take_app_length' by done. rewrite drop_app_ge by lia. rewrite Htp.
  replace (pos + length l - pos)%nat with (length l) by lia. rewrite app_assoc. f_equal.
  assert (l = take (length l) (drop pos d)) as Hll.
  { unfold l. rewrite length_take. destruct (decide (1024 ≤ length (drop pos d))%nat); [by rewrite Nat.min_l by lia|]. by rewrite Nat.min_r, !take_ge by lia. }
  rewrite Hll at 1. apply take_take_drop.
Qed.


(** A message about [new] or [old]. *)
Lemma printf_name_fails rest s w : name_ok s → (∀ z, Stdio.__printf (Stdio.lit (String.append "%s" rest)) [Stdio.Str (Some z)] =
    (n ← Stdio.strnlen_bytes z (2 ^ 64 - 1); Ok (Stdio.format_string z n (Stdio.Conversion 0 0 (-1) Stdio.INT) ++ Stdio.chars rest))) →
  (length (Stdio.chars rest) < 1000)%nat →
  ∃ w', (printf junk (String.append "%s" rest) [str s];; mret EXIT_FAILURE) w = Ok (EXIT_FAILURE, w') ∧ files (look w') = files (look w).
Proof.
  intros Hs He Hl. destruct (user_printf_ok (String.append "%s" rest) [str s] (s ++ Stdio.chars rest) w) as (w' & H1 & L1).
  - by apply printf_name_then.
  - destruct Hs as [_ Hs]. rewrite length_app. lia.
  - exists w'. rewrite (st_bind_ok _ _ _ _ _ H1). split; [done|]. by rewrite L1.
Qed.

Ltac fails_with rest s w :=
  destruct (printf_name_fails rest s w) as (?w & ?Hf & ?Ff);
  [done|intros z; lazy -[Stdio.strnlen_bytes Stdio.format_string]; by destruct (Stdio.strnlen_bytes _ _)|vm_compute; lia|].

(** The files other than [new] are as they were. *)
Definition others_same (new : list Z) (w w' : W) : Prop := ∀ n, n ≠ new → files (look w') !! n = files (look w) !! n.

(** The copy is as far as position [pos]: [rest] of the new file is still to be
    written. *)
Record copying (old new d : list Z) (in_fd out_fd : Z) (pos : nat) (rest : list Z) (w : W) : Prop := {
  co_names : old ≠ new;
  co_fds : in_fd ≠ out_fd ∧ 2 ≤ out_fd;
  co_in : handles (look w) !! in_fd = Some (old, Z.of_nat pos);
  co_out : handles (look w) !! out_fd = Some (new, Z.of_nat pos);
  co_old : files (look w) !! old = Some d;
  co_new : files (look w) !! new = Some (take pos d ++ rest);
  co_pos : (pos ≤ length d)%nat;
  co_rest : length rest = (length d - pos)%nat }.

(** In state [w] of the loop a piece of the old file is not written completely. *)
Definition write_short (in_fd out_fd : Z) (w : W) : Prop :=
  ∃ l n w1 w2, sys_read in_fd 1024 w = Ok ((Z.of_nat (length l), l), w1) ∧ sys_write out_fd l w1 = Ok (n, w2) ∧ n ≠ Z.of_nat (length l).

(** One round of the loop: it ends because the copy is complete, it ends because the write
    was short, the read fails, or the loop goes on behind the piece. *)
Lemma cp_round old new d k in_fd out_fd pos rest w : name_ok new → copying old new d in_fd out_fd pos rest w →
  (pos = length d ∧ ∃ w', cp_loop junk (S k) in_fd out_fd new w = Ok (EXIT_SUCCESS, w') ∧ files (look w') = files (look w)) ∨
  (write_short in_fd out_fd w ∧ ∃ w', cp_loop junk (S k) in_fd out_fd new w = Ok (EXIT_FAILURE, w') ∧ others_same new w w') ∨
  read_fails in_fd w ∨
  ∃ n w', (0 < n)%nat ∧ cp_loop junk (S k) in_fd out_fd new w = cp_loop junk k in_fd out_fd new w' ∧
    copying old new d in_fd out_fd (pos + n) (drop n rest) w' ∧ others_same new w w' .
Proof.
  intros Hname [Hne [Hfd Ho] Hi Hou Hold Hnew Hp Hr]. cbn [cp_loop].
  destruct (law_read in_fd 1024 w old _ d Hi Hold ltac:(lia) ltac:(lia)) as [(buf & w1 & H1 & _)|(w1 & H1 & L1)];
    [right; right; left; by exists buf, w1|]. change (Z.to_nat 1024) with 1024%nat in *. rewrite Nat2Z.id in H1, L1.
  destruct (overwrite_copy d rest pos Hp Hr) as [Ht Hover]. set (l := take 1024 (drop pos d)) in *.
  assert (Hl : length l = (1024 `min` (length d - pos))%nat) by (unfold l; by rewrite length_take, length_drop).
  rewrite (st_bind_ok _ _ _ _ _ H1). destruct (Z.eqb_spec (Z.of_nat (length l)) 0) as [E|E].
  { left. split; [lia|]. exists w1. split; [done|]. by rewrite L1. }
  right. unfold write_buffer. rewrite (proj2 (Z.ltb_ge _ 0)), Nat2Z.id, (take_ge l) by lia.
  assert (Hou1 : handles (look w1) !! out_fd = Some (new, Z.of_nat pos)) by (rewrite L1; simpl; by rewrite lookup_insert_ne).
  assert (Hnew1 : files (look w1) !! new = Some (take pos d ++ rest)) by (by rewrite L1).
  destruct (law_write out_fd l w1 new _ _ Ho Hou1 Hnew1 ltac:(lia)) as [(w2 & H2 & L2)|(n & w2 & H2 & Hn & L2)].
  { left. split; [by exists l, (-1), w1, w2; split_and!; [done|done|lia]|]. rewrite (st_bind_ok _ _ _ _ _ H2).
    rewrite (proj2 (Z.eqb_neq (-1) _)) by lia. cbn [negb]. fails_with ": write failed
"%string new w2. exists w0. split; [done|]. intros n _. by rewrite Ff, L2, L1. }
  rewrite (st_bind_ok _ _ _ _ _ H2). destruct (Z.eqb_spec (Z.of_nat n) (Z.of_nat (length l))) as [En|En]; cbn [negb].
  2:{ left. split; [by exists l, (Z.of_nat n), w1, w2|]. fails_with ": write failed
"%string new w2. exists w0. split; [done|]. intros m Hm. rewrite Ff, L2, L1. simpl. by rewrite lookup_insert_ne. }
  right. right. apply Nat2Z.inj in En as ->. rewrite (take_ge l) in L2 by done. rewrite Nat2Z.id, Hover in L2.
  exists (length l), w2. split; [lia|]. split; [done|]. split; [|intros m Hm; rewrite L2, L1; simpl; by rewrite lookup_insert_ne].
  split; rewrite ?L2, ?L1; simpl; try done; try lia.
  - rewrite lookup_insert_ne, lookup_insert_eq by done. do 2 f_equal. lia.
  - rewrite lookup_insert_eq. do 2 f_equal. lia.
  - by rewrite lookup_insert_ne.
  - apply lookup_insert_eq.
  - rewrite length_drop. lia.
Qed.

(** The whole loop; when it stops early it is in the state [w1]. *)
Lemma cp_loop_ok old new d k : name_ok new → ∀ in_fd out_fd pos rest w, copying old new d in_fd out_fd pos rest w → (length d - pos < k)%nat →
  (∃ w', cp_loop junk k in_fd out_fd new w = Ok (EXIT_SUCCESS, w') ∧ others_same new w w' ∧ files (look w') !! new = Some d) ∨
  ∃ j w1, cp_loop junk k in_fd out_fd new w = cp_loop junk (S j) in_fd out_fd new w1 ∧ others_same new w w1 ∧
    (read_fails in_fd w1 ∨
     write_short in_fd out_fd w1 ∧ ∃ w', cp_loop junk k in_fd out_fd new w = Ok (EXIT_FAILURE, w') ∧ others_same new w w').
Proof.
  intros Hname. induction k as [|k IH]; intros in_fd out_fd pos rest w Hc Hk; [lia|].
  destruct (cp_round old new d k in_fd out_fd pos rest w Hname Hc) as [(-> & w' & H & F)|[(Hs & w' & H & F)|[Hr|(n & w' & Hn & H & Hc' & F)]]].
  - left. exists w'. split; [done|]. split; [intros n _; by rewrite F|]. rewrite F. destruct Hc as [_ _ _ _ _ -> _ Hr].
    assert (rest = []) as -> by (apply length_zero_iff_nil; lia). by rewrite take_ge, app_nil_r.
  - right. exists k, w. split; [done|]. split; [done|]. right. split; [done|]. by exists w'.
  - right. exists k, w. split; [done|]. split; [done|]. by left.
  - pose proof (co_pos _ _ _ _ _ _ _ _ Hc'). destruct (IH _ _ _ _ w' Hc' ltac:(lia)) as [(w2 & H2 & F2 & N2)|(j & w1 & H1 & F1 & Hend)]; rewrite H.
    + left. exists w2. split; [done|]. split; [|done]. intros m Hm. by rewrite F2, F.
    + right. exists j, w1. split; [done|]. split; [intros m Hm; by rewrite F1, F|]. destruct Hend as [?|(Hs & w2 & H2 & F2)]; [by left|right].
      split; [done|]. exists w2. split; [done|]. intros m Hm. by rewrite F2, F.
Qed.

(** The calls before the loop that can be refused: the old file is opened, the new one
    created and opened. *)
Inductive cp_refused (old new : list Z) (w : W) : Prop :=
  | RefusedOpen : open_fails old w → cp_refused old new w
  | RefusedCreate fd w1 size w2 : sys_open old w = Ok (fd, w1) → sys_create new size w1 = Ok (false, w2) → cp_refused old new w
  | RefusedOpenNew fd w1 size w2 : sys_open old w = Ok (fd, w1) → sys_create new size w1 = Ok (true, w2) → open_fails new w2 → cp_refused old new w.

(** What comes before the loop. *)
Lemma cp_enters prog old new w : name_ok old → name_ok new →
  (∀ n d, files (look w) !! n = Some d → Z.of_nat (length d) < 2 ^ 31) →
  (cp_refused old new w ∧ ∃ w', cp_main junk fuel [prog; old; new] w = Ok (EXIT_FAILURE, w') ∧ others_same new w w'
     ∧ (files (look w) !! new ≠ None → files (look w') = files (look w))) ∨
  ∃ d in_fd out_fd w1, cp_main junk fuel [prog; old; new] w = cp_loop junk fuel in_fd out_fd new w1 ∧ files (look w) !! new = None ∧
    files (look w) !! old = Some d ∧ others_same new w w1 ∧ copying old new d in_fd out_fd 0 (replicate (length d) 0) w1.
Proof.
  intros Ho Hn Hsz. unfold cp_main. destruct (law_open old w) as (fd & w1 & H1 & Hop). rewrite (st_bind_ok _ _ _ _ _ H1).
  destruct Hop as [[Hfd L1]|(Hfd & Hfresh & [d Hd] & L1)].
  { rewrite (proj2 (Z.ltb_lt fd 0)) by lia. fails_with ": open failed
"%string old w1. left. split; [apply RefusedOpen; by exists fd, w1|]. eexists. split; [exact Hf|]. unfold others_same. by rewrite Ff, L1. }
  rewrite (proj2 (Z.ltb_ge fd 0)) by lia. pose proof (Hsz _ _ Hd) as Hf2.
  rewrite (st_bind_ok (sys_filesize fd) _ _ (Z.of_nat (length d)) w1).
  2:{ apply (law_filesize fd w1 old 0); rewrite L1; simpl; [apply lookup_insert_eq|done]. }
  rewrite u32_small by lia. destruct (law_create new (Z.of_nat (length d)) w1 ltac:(lia)) as (ok & w2 & H2 & Hc). rewrite (st_bind_ok _ _ _ _ _ H2).
  destruct Hc as [[-> L2]|(-> & Hnew & L2)]; cbn [negb].
  { fails_with ": create failed
"%string new w2. left. split; [by eapply RefusedCreate|]. eexists. split; [exact Hf|]. unfold others_same. by rewrite Ff, L2, L1. }
  rewrite L1 in Hnew, L2. simpl in Hnew. rewrite Nat2Z.id in L2.
  destruct (law_open new w2) as (fd2 & w3 & H3 & Hop). rewrite (st_bind_ok _ _ _ _ _ H3).
  destruct Hop as [[Hfd2 L3]|(Hfd2 & Hfresh2 & _ & L3)].
  { rewrite (proj2 (Z.ltb_lt fd2 0)) by lia. fails_with ": open failed
"%string new w3. left. split; [eapply RefusedOpenNew; [done..|by exists fd2, w3]|]. eexists. split; [exact Hf|]. unfold others_same. rewrite Ff, L3, L2. simpl.
    split; [intros n Hne; by rewrite lookup_insert_ne|done]. }
  rewrite (proj2 (Z.ltb_ge fd2 0)) by lia. rewrite L2 in Hfresh2, L3. simpl in Hfresh2. right. exists d, fd, fd2, w3.
  split; [done|]. split; [done|]. split; [done|]. unfold others_same. rewrite L3. simpl. split; [intros n Hne; by rewrite lookup_insert_ne|].
  assert (Hne : old ≠ new) by congruence. assert (Hfdne : fd ≠ fd2) by (intros ->; by rewrite lookup_insert_eq in Hfresh2).
  split; rewrite ?L3; simpl; try done; try lia.
  - rewrite lookup_insert_ne, lookup_insert_eq by done. done.
  - apply lookup_insert_eq.
  - by rewrite lookup_insert_ne.
  - apply lookup_insert_eq.
  - rewrite length_replicate. lia.
Qed.


(** On a system whose [write] answers -1 to the size -1, [cp] does not end while the
    reads fail, and neither does [cat]. *)
Theorem cp_never_ends in_fd out_fd name k : (∀ w, read_fails in_fd w) → (∀ w, ∃ w', sys_write_wild out_fd (-1) w = Ok (-1, w')) →
  ∀ w, cp_loop junk k in_fd out_fd name w = Err NoFuel.
Proof.
  intros Hr Hw. induction k as [|k IH]; intros w; [done|]. cbn [cp_loop]. destruct (Hr w) as (buf & w1 & H1). rewrite (st_bind_ok _ _ _ _ _ H1). cbn [Z.eqb].
  destruct (Hw w1) as (w2 & H2). unfold write_buffer. cbn [Z.ltb Z.compare]. rewrite (st_bind_ok _ _ _ _ _ H2). apply IH.
Qed.

End laws.

Definition demo_files : view := View {[ Stdio.chars "a" := replicate 1500 7 ]} ∅ [].

Lemma sim_reads fd w : ¬ read_fails (W := view) fd w.
Proof.
  intros (buf & w' & Hf). revert Hf. cbn [sys_read sim_os]. unfold sim_handle, sim_data, mbind, st_bind, st_get, st_of_option.
  destruct (handles w !! fd) as [[name pos]|]; cbn; [|done]. destruct (files w !! name); cbn; [|done]. intros [= Hx _ _]. lia.
Qed.


End UserProgramTheorems.

(** examples/cmp.c: its exit status says whether one file is the beginning of the
    other. *)
Import UserFiles UserPrograms UserProgramTheorems PrintfFacts.
Local Open Scope Z_scope.

Module CmpTheorems.

(** ** The messages *)

Lemma identical_text a b : name_ok a → name_ok b →
  ∃ text, Stdio.__printf (Stdio.lit "%s and %s are identical
") [str a; str b] = Ok text ∧ Z.of_nat (length text) < 2 ^ 31.
Proof.
  intros [Ha1 Ha2] [Hb1 Hb2]. unfold str. format_ok. lia.
Qed.

Lemma shorter_text a b : name_ok a → name_ok b →
  ∃ text, Stdio.__printf (Stdio.lit "%s is shorter than %s
") [str a; str b] = Ok text ∧ Z.of_nat (length text) < 2 ^ 31.
Proof. intros [Ha1 Ha2] [Hb1 Hb2]. unfold str. format_ok. lia. Qed.

Lemma byte_text a b i x y : name_ok a → name_ok b →
  ∃ text, Stdio.__printf (Stdio.lit "Byte %d is %02hhx ('%c') in %s but %02hhx ('%c') in %s
") [Stdio.Int i; Stdio.Int x; Stdio.Int x; str a; Stdio.Int y; Stdio.Int y; str b] = Ok text ∧ Z.of_nat (length text) < 2 ^ 31.
Proof. intros [Ha1 Ha2] [Hb1 Hb2]. unfold str. format_ok. lia. Qed.

(** ** The comparison *)

(** One is the beginning of the other. *)
Definition agree (x y : list Z) : Prop := x `prefix_of` y ∨ y `prefix_of` x.
#[export] Instance agree_dec x y : Decision (agree x y).
Proof. unfold agree. apply _. Defined.

Lemma agree_app l x y : agree (l ++ x) (l ++ y) ↔ agree x y.
Proof. unfold agree. split; (intros [H|H]; [left|right]); by apply prefix_app_inv in H || by apply prefix_app. Qed.

Lemma agree_nil_l x : agree [] x.
Proof. left. apply prefix_nil. Qed.
Lemma agree_nil_r x : agree x [].
Proof. right. apply prefix_nil. Qed.

Lemma agree_lookup x y i c d : agree x y → x !! i = Some c → y !! i = Some d → c = d.
Proof. intros [Hp|Hp] Hx Hy; eapply prefix_lookup_Some in Hp; try eassumption; congruence. Qed.

Lemma first_diff_none k : ∀ i l0 l1, first_diff k i l0 l1 = None → (i + k ≤ length l0)%nat → (i + k ≤ length l1)%nat →
  ∀ j, (i ≤ j < i + k)%nat → l0 !! j = l1 !! j.
Proof.
  induction k as [|k IH]; intros i l0 l1 Hd H0 H1 j Hj; [lia|]. cbn [first_diff] in Hd.
  destruct (lookup_lt_is_Some_2 l0 i ltac:(lia)) as [x Hx]. destruct (lookup_lt_is_Some_2 l1 i ltac:(lia)) as [y Hy]. rewrite Hx, Hy in Hd. simpl in Hd.
  destruct (Z.eqb_spec x y) as [->|]; [|done]. destruct (decide (j = i)) as [->|Hji]; [by rewrite Hx, Hy|]. apply (IH (S i)); try done; lia.
Qed.

Lemma first_diff_some k : ∀ i l0 l1 j x y, first_diff k i l0 l1 = Some (j, x, y) → (i + k ≤ length l0)%nat → (i + k ≤ length l1)%nat →
  l0 !! j = Some x ∧ l1 !! j = Some y ∧ x ≠ y.
Proof.
  induction k as [|k IH]; intros i l0 l1 j x y Hd H0 H1; [done|]. cbn [first_diff] in Hd.
  destruct (lookup_lt_is_Some_2 l0 i ltac:(lia)) as [x0 Hx]. destruct (lookup_lt_is_Some_2 l1 i ltac:(lia)) as [y0 Hy]. rewrite Hx, Hy in Hd. simpl in Hd.
  destruct (Z.eqb_spec x0 y0) as [->|]; [|by simplify_eq]. apply (IH (S i)); try done; lia.
Qed.

Lemma chunk_app (x : list Z) : x = take 1024 x ++ drop (length (take 1024 x)) x.
Proof.
  rewrite length_take. destruct (decide (1024 ≤ length x)%nat); [by rewrite Nat.min_l, take_drop by lia|].
  by rewrite Nat.min_r, drop_ge, take_ge, app_nil_r by lia.
Qed.

Lemma prefix_of_lookup (l0 l1 : list Z) : (length l0 ≤ length l1)%nat → (∀ j, (j < length l0)%nat → l0 !! j = l1 !! j) → l0 `prefix_of` l1.
Proof.
  intros Hle Hall. exists (drop (length l0) l1). rewrite <- (take_drop (length l0) l1) at 1. f_equal.
  apply list_eq_same_length with (length l0); [done|rewrite length_take; lia|]. intros j u v Hj Hu Hv. rewrite lookup_take_lt in Hu by lia.
  specialize (Hall j Hj). congruence.
Qed.

(** The next pieces of what is left, [x] and [y]. *)
Lemma pieces_agree (x y : list Z) : let l0 := take 1024 x in let l1 := take 1024 y in
  first_diff (length l0 `min` length l1) 0 l0 l1 = None →
  (length l0 = length l1 → agree x y ↔ agree (drop (length l0) x) (drop (length l1) y)) ∧
  ((length l0 < length l1)%nat → drop (length l0) x = [] ∧ agree x y) ∧ ((length l1 < length l0)%nat → drop (length l1) y = [] ∧ agree x y).
Proof.
  cbv zeta. intros Hd. set (l0 := take 1024 x) in *. set (l1 := take 1024 y) in *.
  assert (Hall : ∀ j, (j < length l0 `min` length l1)%nat → l0 !! j = l1 !! j) by (intros j Hj; eapply first_diff_none; [exact Hd|lia|lia|lia]).
  pose proof (chunk_app x) as Hx. pose proof (chunk_app y) as Hy. fold l0 in Hx. fold l1 in Hy.
  assert (H0 : (length l0 < length l1)%nat → drop (length l0) x = []) by (intros Hlt; apply drop_ge; revert Hlt; unfold l0, l1; rewrite !length_take; lia).
  assert (H1 : (length l1 < length l0)%nat → drop (length l1) y = []) by (intros Hlt; apply drop_ge; revert Hlt; unfold l0, l1; rewrite !length_take; lia).
  split_and!.
  - intros He. assert (l0 = l1) as Heq.
    { assert (Hp : l0 `prefix_of` l1) by (apply prefix_of_lookup; [lia|]; intros j Hj; apply Hall; lia). by apply prefix_length_eq; [|lia]. }
    assert (Hy' : y = l0 ++ drop (length l1) y) by (rewrite Heq; exact Hy).
    rewrite <- (agree_app l0 (drop (length l0) x) (drop (length l1) y)). by rewrite <- Hx, <- Hy'.
  - intros Hlt. split; [auto|]. left. rewrite Hx, (H0 Hlt), app_nil_r. transitivity l1; [|rewrite Hy; by eexists].
    apply prefix_of_lookup; [lia|]. intros j Hj. apply Hall. lia.
  - intros Hlt. split; [auto|]. right. rewrite Hy, (H1 Hlt), app_nil_r. transitivity l0; [|rewrite Hx; by eexists].
    apply prefix_of_lookup; [lia|]. intros j Hj. symmetry. apply Hall. lia.
Qed.

Section laws.
Context {W : Type} `{!UserOS W} `{!UserFileLaws W} (junk : list Z) (a b : list Z) (d0 d1 : list Z).
Hypothesis Hjunk : length junk = UserConsole.BUF_SIZE.
Hypothesis Ha : name_ok a.
Hypothesis Hb : name_ok b.

(** Both files are open, at these positions. *)
Definition at_ (fd0 fd1 : Z) (p0 p1 : nat) (w : W) : Prop :=
  fd0 ≠ fd1 ∧ handles (look w) !! fd0 = Some (a, Z.of_nat p0) ∧ handles (look w) !! fd1 = Some (b, Z.of_nat p1)
  ∧ files (look w) !! a = Some d0 ∧ files (look w) !! b = Some d1.

Lemma at_console fd0 fd1 p0 p1 w w' l : look w' = set_console l (look w) → at_ fd0 fd1 p0 p1 w → at_ fd0 fd1 p0 p1 w'.
Proof. unfold at_. by intros ->. Qed.

(** In state [w] one of the two reads of a round fails. *)
Definition reads_fail (fd0 fd1 : Z) (w : W) : Prop :=
  read_fails fd0 w ∨ ∃ r w1, sys_read fd0 1024 w = Ok (r, w1) ∧ read_fails fd1 w1.

Lemma reads_ok fd0 fd1 p0 p1 w : at_ fd0 fd1 p0 p1 w →
  let l0 := take 1024 (drop p0 d0) in let l1 := take 1024 (drop p1 d1) in
  reads_fail fd0 fd1 w ∨
  ∃ w1 w2, sys_read fd0 1024 w = Ok ((Z.of_nat (length l0), l0), w1) ∧ sys_read fd1 1024 w1 = Ok ((Z.of_nat (length l1), l1), w2)
    ∧ at_ fd0 fd1 (p0 + length l0) (p1 + length l1) w2 ∧ files (look w2) = files (look w).
Proof.
  intros (Hne & H0 & H1 & F0 & F1). cbv zeta.
  destruct (law_read fd0 1024 w a _ d0 H0 F0 ltac:(lia) ltac:(lia)) as [(buf & w1 & R1 & _)|(w1 & R1 & L1)]; [left; left; by exists buf, w1|].
  change (Z.to_nat 1024) with 1024%nat in *. rewrite Nat2Z.id in R1, L1.
  destruct (law_read fd1 1024 w1 b (Z.of_nat p1) d1) as [(buf & w2 & R2 & _)|(w2 & R2 & L2)];
    [rewrite L1; simpl; by rewrite lookup_insert_ne|by rewrite L1|lia|lia|left; right; eexists _, w1; split; [done|by exists buf, w2]|].
  change (Z.to_nat 1024) with 1024%nat in *. rewrite Nat2Z.id in R2, L2.
  right. exists w1, w2. split; [done|]. split; [done|]. split; [|by rewrite L2, L1]. rewrite L1 in L2. unfold at_. rewrite L2. simpl. split; [done|].
  rewrite lookup_insert_eq, lookup_insert_ne, lookup_insert_eq by done. rewrite !Nat2Z.inj_add. done.
Qed.

(** A message that leaves files and handles alone. *)
Lemma print_ok format args : (∃ text, Stdio.__printf (Stdio.lit format) args = Ok text ∧ Z.of_nat (length text) < 2 ^ 31) →
  ∀ w, ∃ w' l, printf junk format args w = Ok (tt, w') ∧ look w' = set_console l (look w).
Proof. intros (text & Ht & Hl) w. destruct (user_printf_ok junk Hjunk format args text w Ht Hl) as (w' & H & L). by exists w', (console (look w) ++ text). Qed.

Lemma take_chunk_nil (d : list Z) p : take 1024 (drop p d) = [] → drop p d = [].
Proof. by destruct (drop p d). Qed.

Lemma min_if n m : (if n <? m then n else m) = Z.min n m.
Proof. destruct (Z.ltb_spec n m); lia. Qed.

Lemma cmp_ends k fd0 fd1 p0 p1 w : at_ fd0 fd1 p0 p1 w → drop p0 d0 = [] ∨ drop p1 d1 = [] →
  reads_fail fd0 fd1 w ∨ ∃ w', cmp_loop junk (S k) a b fd0 fd1 w = Ok (EXIT_SUCCESS, w') ∧ files (look w') = files (look w).
Proof.
  intros Hat He. destruct (reads_ok _ _ _ _ _ Hat) as [?|(w1 & w2 & R1 & R2 & _ & Hf)]; [by left|right]. cbn [cmp_loop]. rewrite (st_bind_ok (sys_tell fd0) _ _ (Z.of_nat p0) w) by (destruct Hat as (_ & H0 & _); by eapply law_tell).
  rewrite (st_bind_ok _ _ _ _ _ R1), (st_bind_ok _ _ _ _ _ R2).
  rewrite min_if. replace (Z.min _ _) with 0 by (destruct He as [-> | ->]; simpl; lia).
  cbn [Z.eqb]. destruct (print_ok _ _ (identical_text a b Ha Hb) w2) as (w3 & l & H3 & L3). rewrite (st_bind_ok _ _ _ _ _ H3).
  exists w3. split; [done|]. by rewrite L3.
Qed.

Definition cmp_status (x y : list Z) : Z := if decide (agree x y) then EXIT_SUCCESS else EXIT_FAILURE.

(** The message about the shorter file, whatever was read. *)
Lemma says_shorter m n0 n1 w : ∃ w' l,
  (if m <? n1 then printf junk "%s is shorter than %s
" [str a; str b]
   else if m <? n0 then printf junk "%s is shorter than %s
" [str b; str a]
   else mret tt) w = Ok (tt, w') ∧ look w' = set_console l (look w).
Proof.
  destruct (m <? n1); [apply print_ok, (shorter_text a b Ha Hb)|]. destruct (m <? n0); [apply print_ok, (shorter_text b a Hb Ha)|].
  exists w, (console (look w)). split; [done|]. by destruct (look w).
Qed.

(** One round at the same position of both files, before the end of both: a read fails, a
    difference is found, or the loop goes on. *)
Lemma cmp_round k fd0 fd1 p w : at_ fd0 fd1 p p w → drop p d0 ≠ [] → drop p d1 ≠ [] →
  let l0 := take 1024 (drop p d0) in let l1 := take 1024 (drop p d1) in
  reads_fail fd0 fd1 w ∨
  (∃ w', cmp_loop junk (S k) a b fd0 fd1 w = Ok (EXIT_FAILURE, w') ∧ files (look w') = files (look w) ∧ ¬ agree (drop p d0) (drop p d1)) ∨
  (∃ w', cmp_loop junk (S k) a b fd0 fd1 w = cmp_loop junk k a b fd0 fd1 w' ∧ files (look w') = files (look w) ∧
     at_ fd0 fd1 (p + length l0) (p + length l1) w' ∧ first_diff (length l0 `min` length l1) 0 l0 l1 = None).
Proof.
  intros Hat He0 He1. cbv zeta. destruct (reads_ok _ _ _ _ _ Hat) as [Hr|(w1 & w2 & R1 & R2 & Hat2 & Hf)]; [by left|right]. cbn [cmp_loop].
  rewrite (st_bind_ok (sys_tell fd0) _ _ (Z.of_nat p) w) by (destruct Hat as (_ & H0 & _); by eapply law_tell).
  rewrite (st_bind_ok _ _ _ _ _ R1), (st_bind_ok _ _ _ _ _ R2).
  set (l0 := take 1024 (drop p d0)) in *. set (l1 := take 1024 (drop p d1)) in *.
  assert (Hn0 : length l0 ≠ 0%nat) by (intros Hz; apply length_zero_iff_nil, take_chunk_nil in Hz; auto).
  assert (Hn1 : length l1 ≠ 0%nat) by (intros Hz; apply length_zero_iff_nil, take_chunk_nil in Hz; auto).
  rewrite min_if, <- Nat2Z.inj_min, Nat2Z.id. rewrite (proj2 (Z.eqb_neq _ 0)) by lia.
  destruct (first_diff (length l0 `min` length l1) 0 l0 l1) as [[[i x] y]|] eqn:Ed; [left|right].
  - apply first_diff_some in Ed as (Hx & Hy & Hne); [|lia|lia]. apply lookup_take_Some in Hx as [Hx _]. apply lookup_take_Some in Hy as [Hy _].
    destruct (print_ok _ _ (byte_text a b (i32 (i32 (Z.of_nat p) + Z.of_nat i)) x y Ha Hb) w2) as (w3 & l & H3 & L3). rewrite (st_bind_ok _ _ _ _ _ H3).
    exists w3. split; [done|]. split; [by rewrite L3|]. intros Hag. by eapply Hne, agree_lookup.
  - destruct (says_shorter (Z.of_nat (length l0 `min` length l1)) (Z.of_nat (length l0)) (Z.of_nat (length l1)) w2) as (w3 & l & H3 & L3).
    rewrite (st_bind_ok _ _ _ _ _ H3). exists w3. split; [done|]. split; [by rewrite L3|]. split; [by eapply at_console|done].
Qed.

(** The loop is left with the right status, or it comes to a state [w1] in which a read
    fails. *)
Lemma cmp_loop_ok k : ∀ fd0 fd1 p w, at_ fd0 fd1 p p w → (length d0 - p < k)%nat →
  (∃ j w1, cmp_loop junk (S k) a b fd0 fd1 w = cmp_loop junk (S j) a b fd0 fd1 w1 ∧ files (look w1) = files (look w) ∧ reads_fail fd0 fd1 w1) ∨
  ∃ w', cmp_loop junk (S k) a b fd0 fd1 w = Ok (cmp_status (drop p d0) (drop p d1), w') ∧ files (look w') = files (look w).
Proof.
  induction k as [|k IH]; intros fd0 fd1 p w Hat Hk; [lia|]. unfold cmp_status.
  destruct (decide (drop p d0 = [] ∨ drop p d1 = [])) as [He|He].
  { destruct (cmp_ends (S k) _ _ _ _ _ Hat He) as [Hr|(w' & H & F)]; [left; by exists (S k), w|right]. exists w'. rewrite H. split; [|done].
    rewrite decide_True; [done|]. destruct He as [-> | ->]; [apply agree_nil_l|apply agree_nil_r]. }
  destruct (cmp_round (S k) fd0 fd1 p w Hat) as [Hr|[(w' & H & F & Hag)|(w' & H & F & Hat2 & Ed)]]; [tauto|tauto|left; by exists (S k), w|right|].
  { exists w'. rewrite H, decide_False by done. done. }
  pose proof (pieces_agree (drop p d0) (drop p d1)) as Hpieces. cbv zeta in Hpieces. rewrite !drop_drop in Hpieces.
  set (l0 := take 1024 (drop p d0)) in *. set (l1 := take 1024 (drop p d1)) in *. rewrite H. destruct (Hpieces Ed) as (Heq & Hlt & Hgt).
  assert (Hl0 : length l0 ≠ 0%nat) by (intros Hz; apply length_zero_iff_nil, take_chunk_nil in Hz; auto).
  destruct (lt_eq_lt_dec (length l0) (length l1)) as [[E|E]|E].
  2: { rewrite <- E in Hat2, Heq. specialize (Heq eq_refl). assert (length l0 ≤ length d0 - p)%nat by (unfold l0; rewrite length_take, length_drop; lia).
       destruct (IH _ _ _ w' Hat2 ltac:(lia)) as [(j & w1 & H1 & F1 & Hr)|(w1 & H1 & F1)]; [left; exists j, w1; by rewrite F1|right].
       exists w1. rewrite H1, F1. split; [|done]. unfold cmp_status. do 2 f_equal. by apply decide_ext. }
  all: first [destruct (Hlt E) as [Hend Hag]|destruct (Hgt E) as [Hend Hag]].
  all: destruct (cmp_ends k _ _ _ _ w' Hat2) as [Hr|(w4 & H4 & F4)]; [by auto|left; by exists k, w'|right].
  all: exists w4; rewrite F4, decide_True by done; done.
Qed.

(** While the reads of the first file fail [cmp] does not end, whatever the second one
    gives. *)
Theorem cmp_never_ends fd0 fd1 k : (∀ w, read_fails fd0 w) → (∀ w, ∃ r w', sys_read fd1 1024 w = Ok (r, w')) →
  (∀ w, ∃ pos, sys_tell fd0 w = Ok (pos, w)) → ∀ w, cmp_loop junk k a b fd0 fd1 w = Err NoFuel.
Proof.
  intros H0 H1 Ht. induction k as [|k IH]; intros w; [done|]. cbn [cmp_loop]. destruct (Ht w) as [pos Hp]. rewrite (st_bind_ok _ _ _ _ _ Hp).
  destruct (H0 w) as (b0 & w1 & R0). rewrite (st_bind_ok _ _ _ _ _ R0). destruct (H1 w1) as ([n1 b1] & w2 & R1). rewrite (st_bind_ok _ _ _ _ _ R1).
  rewrite min_if. rewrite (proj2 (Z.eqb_neq _ 0)) by lia. replace (Z.to_nat (Z.min (-1) n1)) with 0%nat by lia. cbn [first_diff].
  destruct (says_shorter (Z.min (-1) n1) (-1) n1 w2) as (w3 & l & H3 & _). rewrite (st_bind_ok _ _ _ _ _ H3). apply IH.
Qed.

End laws.

Section main.
Context {W : Type} `{!UserOS W} `{!UserFileLaws W} (junk : list Z) (fuel : nat).
Hypothesis Hjunk : length junk = UserConsole.BUF_SIZE.

End main.

(** Two files of 1024 and 1025 bytes: no message says that one is shorter. *)
Definition demo_view : view :=
  View {[ Stdio.chars "a" := replicate 1024 7; Stdio.chars "b" := replicate 1025 7; Stdio.chars "c" := replicate 9 7 ++ [8] ]} ∅ [].


Example cmp_says_identical :
  match cmp_main (replicate 64 0) 3000 [Stdio.chars "cmp"; Stdio.chars "a"; Stdio.chars "b"] demo_view with
  | Ok (code, v) => code = EXIT_SUCCESS ∧ console v = Stdio.chars "a and b are identical
"
  | Err _ => False
  end.
Proof. vm_compute. done. Qed.

Example cmp_finds_difference :
  match cmp_main (replicate 64 0) 3000 [Stdio.chars "cmp"; Stdio.chars "a"; Stdio.chars "c"] demo_view with
  | Ok (code, v) => code = EXIT_FAILURE ∧ console v = Stdio.chars "Byte 9 is 07 ('" ++ [7] ++ Stdio.chars "') in a but 08 ('" ++ [8] ++ Stdio.chars "') in c
"
  | Err _ => False
  end.
Proof. vm_compute. done. Qed.

End CmpTheorems.

(** examples/lineup.c, bubsort.c and matmult.c. *)
Import UserFiles UserPrograms UserProgramTheorems Ctype.
Local Open Scope Z_scope.

Module LineupTheorems.

(** ** lineup *)

(** A character in upper case, as the program stores it. *)
Definition up (c : Z) : Z := u8 (toupper (u8 c)).

Lemma overwrite_behind (p x l : list Z) : (length l ≤ length x)%nat →
  take (length (p ++ x) - length p) l = l ∧ overwrite (p ++ x) (length p) l = (p ++ l) ++ drop (length l) x.
Proof.
  intros Hl. assert (Ht : take (length (p ++ x) - length p) l = l) by (apply take_ge; rewrite length_app; lia). split; [done|].
  unfold overwrite. rewrite Ht, take_app_length, <- drop_drop, drop_app_length. apply app_assoc.
Qed.

Section laws.
Context {W : Type} `{!UserOS W} `{!UserFileLaws W} `{!ReliableIO W} (junk : list Z) (fuel : nat).

Lemma lineup_loop_ok name d k : ∀ fd pos w, 2 ≤ fd → (pos ≤ length d)%nat → Z.of_nat (length d) < 2 ^ 31 →
  handles (look w) !! fd = Some (name, Z.of_nat pos) → files (look w) !! name = Some ((up <$> take pos d) ++ drop pos d) →
  (length d - pos < k)%nat →
  ∃ w', lineup_loop junk k fd w = Ok (tt, w') ∧ files (look w') = <[name := up <$> d]> (files (look w)) ∧
    delete fd (handles (look w')) = delete fd (handles (look w)) ∧ console (look w') = console (look w).
Proof.
  induction k as [|k IH]; intros fd pos w Hfd Hp Hd Hh Hf Hk; [lia|]. cbn [lineup_loop].
  destruct (read_round fd w name _ _ Hh Hf ltac:(lia)) as (w1 & H1 & L1). rewrite Nat2Z.id in H1, L1.
  assert (Hpre : length (up <$> take pos d) = pos) by (rewrite length_fmap, length_take; lia).
  rewrite drop_app_length' in H1, L1 by done. set (l := take 1024 (drop pos d)) in *.
  assert (Hl : (length l ≤ length d - pos)%nat) by (unfold l; rewrite length_take, length_drop; lia).
  rewrite (st_bind_ok _ _ _ _ _ H1). destruct (Z.leb_spec (Z.of_nat (length l)) 0) as [E|E].
  - exists w1. split; [done|]. rewrite L1. simpl. split; [|by rewrite delete_insert_eq]. symmetry. apply insert_id. rewrite Hf. f_equal.
    assert (length (drop pos d) = 0%nat) as Hz by (unfold l in E; rewrite length_take in E; lia). rewrite length_drop in Hz.
    by rewrite take_ge, drop_ge, app_nil_r by lia.
  - cbv zeta. rewrite (st_bind_ok (sys_tell fd) _ _ (Z.of_nat pos + Z.of_nat (length l)) w1) by (eapply law_tell; rewrite L1; apply lookup_insert_eq).
    replace (Z.of_nat pos + Z.of_nat (length l) - Z.of_nat (length l)) with (Z.of_nat pos) by lia. rewrite u32_small by lia.
    destruct (law_seek fd (Z.of_nat pos) w1 name (Z.of_nat pos + Z.of_nat (length l))) as (w2 & H2 & L2); [rewrite L1; apply lookup_insert_eq|lia|].
    rewrite (st_bind_ok _ _ _ _ _ H2). rewrite L1 in L2. unfold write_buffer. rewrite (proj2 (Z.ltb_ge _ 0)) by lia. fold up.
    change ((λ c, u8 (toupper (u8 c))) <$> l) with (up <$> l). rewrite Nat2Z.id, take_ge by (rewrite length_fmap; lia).
    destruct (overwrite_behind (up <$> take pos d) (drop pos d) (up <$> l)) as [Ht Ho]; [rewrite length_fmap, length_drop; lia|]. rewrite Hpre in Ht, Ho.
    destruct (write_full fd (up <$> l) w2 name (Z.of_nat pos) ((up <$> take pos d) ++ drop pos d)) as (w3 & H3 & L3);
      [done|rewrite L2; apply lookup_insert_eq|by rewrite L2|lia|].
    rewrite Nat2Z.id, Ht, ?Ho, length_fmap in H3, L3. rewrite (st_bind_ok _ _ _ _ _ H3), Z.eqb_refl. cbn [negb]. rewrite (st_bind_ok (mret tt) _ _ tt w3) by done.
    rewrite Ho, length_fmap, drop_drop, <- fmap_app, L2 in L3.
    assert (Hll : l = take (length l) (drop pos d)).
    { unfold l. rewrite length_take. destruct (decide (1024 ≤ length (drop pos d))%nat); [by rewrite Nat.min_l by lia|]. by rewrite Nat.min_r, !take_ge by lia. }
    assert (Hup : take pos d ++ l = take (pos + length l) d) by (rewrite Hll at 1; apply take_take_drop). rewrite Hup in L3.
    destruct (IH fd (pos + length l)%nat w3) as (w4 & H4 & F4 & D4 & C4); try done; rewrite ?L3; simpl; try lia.
    + rewrite lookup_insert_eq. do 2 f_equal. lia.
    + apply lookup_insert_eq.
    + exists w4. split; [done|]. rewrite F4, D4, C4, L3. simpl. rewrite insert_insert_eq, !insert_insert_eq, delete_insert_eq. done.
Qed.

(** [lineup] returns; when the file can be opened it ends with every letter in upper
    case and nothing else changed, and no handle is left open. *)
Theorem lineup_upcases prog name d w : files (look w) !! name = Some d → (length d < fuel)%nat → Z.of_nat (length d) < 2 ^ 31 →
  ∃ code w', lineup_main junk fuel [prog; name] w = Ok (code, w') ∧
    (code = 2 ∧ look w' = look w ∨ code = EXIT_SUCCESS ∧ look w' = set_files (<[name := up <$> d]> (files (look w))) (look w)).
Proof.
  intros Hd Hf Hl. unfold lineup_main. destruct (law_open name w) as (fd & w1 & H1 & Hop). rewrite (st_bind_ok _ _ _ _ _ H1).
  destruct Hop as [[Hfd L1]|(Hfd & Hfresh & _ & L1)]; [rewrite (proj2 (Z.ltb_lt fd 0)) by lia; exists 2, w1; split; [done|by left]|].
  rewrite (proj2 (Z.ltb_ge fd 0)) by lia. destruct (lineup_loop_ok name d fuel fd 0 w1) as (w2 & H2 & F2 & D2 & C2);
    [lia|lia|done|rewrite L1; apply lookup_insert_eq|by rewrite L1|lia|].
  rewrite (st_bind_ok _ _ _ _ _ H2). destruct (law_close fd w2) as (w3 & H3 & L3). rewrite (st_bind_ok _ _ _ _ _ H3).
  exists EXIT_SUCCESS, w3. split; [done|]. right. split; [done|]. rewrite L3. unfold set_handles, set_files. rewrite F2, D2, C2, L1. simpl.
  by rewrite delete_insert_id.
Qed.

End laws.

(** ** bubsort *)

Section sort.
Context {W : Type}.

Lemma get_ok (l : list Z) i x (w : W) : l !! i = Some x → get l i w = Ok (x, w).
Proof. intros H. unfold get. by rewrite H. Qed.

(** A pass over [x :: l]: the largest element is carried along. *)
Fixpoint carry (x : Z) (l : list Z) : list Z :=
  match l with [] => [x] | y :: l => if x >? y then y :: carry x l else x :: carry y l end.

Lemma bubble_ok l : ∀ pre x post (w : W),
  bubble (length l) (length pre) (pre ++ x :: l ++ post) w = Ok (pre ++ carry x l ++ post, w).
Proof.
  induction l as [|y l IH]; intros pre x post w; [done|]. cbn [bubble length app carry].
  rewrite (st_bind_ok _ _ _ _ _ (get_ok (pre ++ x :: y :: l ++ post) (length pre) x w (list_lookup_middle _ _ _ _ eq_refl))).
  assert (Hy : (pre ++ x :: y :: l ++ post) !! S (length pre) = Some y).
  { rewrite lookup_app_r by lia. by replace (S (length pre) - length pre)%nat with 1%nat by lia. }
  rewrite (st_bind_ok _ _ _ _ _ (get_ok _ _ _ w Hy)).
  destruct (x >? y).
  - rewrite insert_app_r_alt, Nat.sub_diag by lia. cbn [insert list_insert]. rewrite insert_app_r_alt by lia.
    replace (S (length pre) - length pre)%nat with 1%nat by lia. cbn [insert list_insert].
    specialize (IH (pre ++ [y]) x post w). rewrite length_app, Nat.add_1_r, <- !app_assoc in IH. exact IH.
  - specialize (IH (pre ++ [x]) y post w). rewrite length_app, Nat.add_1_r, <- !app_assoc in IH. exact IH.
Qed.

Lemma carry_perm l : ∀ x, carry x l ≡ₚ x :: l.
Proof.
  induction l as [|y l IH]; intros x; cbn [carry]; [done|]. destruct (x >? y); rewrite IH; [apply Permutation_swap|done].
Qed.

(** The last element after a pass is the largest. *)
Lemma carry_last l : ∀ x, ∃ init m, carry x l = init ++ [m] ∧ length init = length l ∧ Forall (λ z, z ≤ m) (x :: l).
Proof.
  induction l as [|y l IH]; intros x; cbn [carry]; [exists [], x; split; [done|split; [done|repeat constructor; lia]]|].
  destruct (Z.gtb_spec x y).
  - destruct (IH x) as (init & m & -> & Hl & Hm). exists (y :: init), m. split; [done|]. split; [simpl; lia|]. inversion Hm; subst. repeat constructor; [done|lia|done].
  - destruct (IH y) as (init & m & -> & Hl & Hm). exists (x :: init), m. split; [done|]. split; [simpl; lia|]. inversion Hm; subst. repeat constructor; [lia|done|done].
Qed.

(** After [i] rounds the last [i] elements are in place. *)
Lemma sort_rounds_ok n k : ∀ i front back (w : W), (i + k = n - 1)%nat → length front = S k → length back = i → (1 ≤ n)%nat →
  StronglySorted Z.le back → (∀ x y, x ∈ front → y ∈ back → x ≤ y) →
  ∃ l, sort_rounds n k i (front ++ back) w = Ok (l, w) ∧ l ≡ₚ front ++ back ∧ StronglySorted Z.le l.
Proof.
  induction k as [|k IH]; intros i front back w Hi Hf Hb Hn Hs Hle; cbn [sort_rounds].
  { exists (front ++ back). split; [done|]. split; [done|]. destruct front as [|x [|? ?]]; simplify_eq/=. constructor; [done|].
    apply Forall_forall. intros y Hy. apply Hle; set_solver. }
  destruct front as [|x l]; [done|]. simpl in Hf. replace (n - 1 - i)%nat with (length l) by lia.
  pose proof (bubble_ok l [] x back w) as Hbub. cbn [app length] in Hbub. cbn [app]. rewrite (st_bind_ok _ _ _ _ _ Hbub).
  destruct (carry_last l x) as (init & m & Hc & Hlen & Hm). pose proof (carry_perm l x) as Hp. rewrite Hc in Hp |- *. rewrite <- app_assoc. cbn [app].
  destruct (IH (S i) init (m :: back) w) as (l' & H1 & H2 & H3); [lia|lia|simpl; lia|done| | |].
  - constructor; [done|]. apply Forall_forall. intros y Hy. apply Hle; [|done]. rewrite <- Hp. set_solver.
  - intros a y Ha Hy. apply elem_of_cons in Hy as [->|Hy].
    + rewrite Forall_forall in Hm. apply Hm. rewrite <- Hp. set_solver.
    + apply Hle; [|done]. rewrite <- Hp. set_solver.
  - exists l'. split; [done|]. split; [|done]. rewrite H2. change (x :: l ++ back) with ((x :: l) ++ back). by rewrite <- Hp, <- app_assoc.
Qed.

(** Bubble sort sorts every array. *)
Theorem bubble_sorts l (w : W) : l ≠ [] →
  ∃ l', sort_rounds (length l) (length l - 1) 0 l w = Ok (l', w) ∧ l' ≡ₚ l ∧ StronglySorted Z.le l'.
Proof.
  intros Hl. destruct (sort_rounds_ok (length l) (length l - 1) 0 l [] w) as (l' & H1 & H2 & H3); try (destruct l; simpl; done || lia).
  - constructor.
  - intros x y _ Hy. set_solver.
  - rewrite app_nil_r in H1, H2. by exists l'.
Qed.

End sort.

Example bubsort_returns_least :
  match bubsort_main (replicate 64 0) (View ∅ ∅ []) with
  | Ok (code, v) => code = 0 ∧ console v = Stdio.chars "sort exiting with code 0
"
  | Err _ => False
  end.
Proof. vm_compute. done. Qed.

(** ** matmult *)

Section mult.
Context (DIM : nat).

Definition dims (m : list (list Z)) : Prop := length m = DIM ∧ Forall (λ r, length r = DIM) m.

Lemma init_dims f : dims (init_matrix DIM f).
Proof.
  unfold init_matrix. split; [by rewrite length_fmap, length_seq|]. apply Forall_fmap, Forall_true. intros i. simpl. by rewrite length_fmap, length_seq.
Qed.

Lemma init_entry f i j : (i < DIM)%nat → (j < DIM)%nat → entry (init_matrix DIM f) i j = f i j.
Proof. intros Hi Hj. unfold entry, init_matrix. rewrite list_lookup_fmap, lookup_seq_lt by done. simpl. by rewrite list_lookup_fmap, lookup_seq_lt. Qed.

Lemma set_dims m i j v : dims m → dims (set_entry m i j v).
Proof. intros [H1 H2]. unfold set_entry. split; [by rewrite length_alter|]. apply Forall_alter; [done|]. intros r _ Hr. by rewrite length_insert. Qed.

Lemma set_get m i j v i' j' : dims m → (i < DIM)%nat → (j < DIM)%nat →
  entry (set_entry m i j v) i' j' = if decide (i' = i ∧ j' = j) then v else entry m i' j'.
Proof.
  intros [H1 H2] Hi Hj. unfold entry, set_entry. destruct (decide (i' = i)) as [->|Hne].
  - rewrite list_lookup_alter_eq. destruct (lookup_lt_is_Some_2 m i ltac:(lia)) as [r Hr]. rewrite Hr. simpl.
    assert (length r = DIM) by (rewrite Forall_lookup in H2; by eapply H2). destruct (decide (j' = j)) as [->|Hj'].
    + rewrite list_lookup_insert_eq by lia. by rewrite decide_True.
    + rewrite list_lookup_insert_ne by done. rewrite decide_False by naive_solver. done.
  - rewrite list_lookup_alter_ne by done. by rewrite decide_False by naive_solver.
Qed.

Lemma mult_k_ok n : ∀ k i j c, dims c → (i < DIM)%nat → (j < DIM)%nat → (k + n = DIM)%nat →
  0 ≤ entry c i j → entry c i j + Z.of_nat n * (Z.of_nat i * Z.of_nat j) < 2 ^ 31 → Z.of_nat i * Z.of_nat j < 2 ^ 31 →
  dims (mult_k DIM n k i j c) ∧
  ∀ i' j', entry (mult_k DIM n k i j c) i' j' = if decide (i' = i ∧ j' = j) then entry c i j + Z.of_nat n * (Z.of_nat i * Z.of_nat j) else entry c i' j'.
Proof.
  induction n as [|n IH]; intros k i j c Hc Hi Hj Hk H0 Hlt Hij; cbn [mult_k].
  { split; [done|]. intros i' j'. destruct (decide _) as [[-> ->]|]; lia. }
  unfold A, B. rewrite !init_entry by lia. rewrite (i32_small (Z.of_nat i * Z.of_nat j)) by lia. rewrite i32_small by nia.
  set (c1 := set_entry c i j (entry c i j + Z.of_nat i * Z.of_nat j)).
  assert (E1 : ∀ i' j', entry c1 i' j' = if decide (i' = i ∧ j' = j) then entry c i j + Z.of_nat i * Z.of_nat j else entry c i' j') by (intros; by apply set_get).
  assert (E2 : entry c1 i j = entry c i j + Z.of_nat i * Z.of_nat j) by (by rewrite E1, decide_True).
  destruct (IH (S k) i j c1) as [Hd He]; [by apply set_dims|done|done|lia|nia|nia|done|]. split; [done|]. intros i' j'. rewrite He, E2, E1.
  destruct (decide (i' = i ∧ j' = j)); [nia|done].
Qed.

(** No sum overflows. *)
Hypothesis Hbound : Z.of_nat DIM * (Z.of_nat DIM * Z.of_nat DIM) < 2 ^ 31.

Lemma mult_j_ok n : ∀ i j c, dims c → (i < DIM)%nat → (j + n = DIM)%nat → (∀ j', (j ≤ j' < DIM)%nat → entry c i j' = 0) →
  dims (mult_j DIM n i j c) ∧
  ∀ i' j', entry (mult_j DIM n i j c) i' j' = if decide (i' = i ∧ (j ≤ j' < DIM)%nat) then Z.of_nat DIM * (Z.of_nat i * Z.of_nat j') else entry c i' j'.
Proof.
  induction n as [|n IH]; intros i j c Hc Hi Hj H0; cbn [mult_j].
  { split; [done|]. intros i' j'. by rewrite decide_False by lia. }
  pose proof (H0 j ltac:(lia)) as Hz.
  assert (Hij : 0 ≤ Z.of_nat i * Z.of_nat j ≤ Z.of_nat DIM * Z.of_nat DIM) by nia.
  assert (Hsum : Z.of_nat DIM * (Z.of_nat i * Z.of_nat j) < 2 ^ 31) by (apply Z.le_lt_trans with (2 := Hbound); apply Z.mul_le_mono_nonneg_l; lia).
  destruct (mult_k_ok DIM 0 i j c) as [Hd He]; [done|lia|lia|lia|lia|lia|nia|]. rewrite Hz in He.
  destruct (IH i (S j) (mult_k DIM DIM 0 i j c)) as [Hd2 He2]; [done|done|lia| |].
  { intros j' Hj'. rewrite He. rewrite decide_False by lia. apply H0. lia. }
  split; [done|]. intros i' j'. rewrite He2, He. destruct (decide (i' = i ∧ (S j ≤ j' < DIM)%nat)) as [H1|H1]; [by rewrite decide_True by lia|].
  destruct (decide (i' = i ∧ j' = j)) as [[-> ->]|H2]; [by rewrite decide_True by lia|]. by rewrite decide_False by lia.
Qed.

Lemma mult_i_ok n i c : dims c → (i + n = DIM)%nat → (∀ i' j', (i ≤ i' < DIM)%nat → (j' < DIM)%nat → entry c i' j' = 0) →
  ∀ i' j', (i ≤ i' < DIM)%nat → (j' < DIM)%nat → entry (mult_i DIM n i c) i' j' = Z.of_nat DIM * (Z.of_nat i' * Z.of_nat j').
Proof.
  intros Hc Hi H0 i' j' Hi' Hj'.
  assert (Hgen : ∀ n i c, dims c → (i + n = DIM)%nat → (∀ i' j', (i ≤ i' < DIM)%nat → (j' < DIM)%nat → entry c i' j' = 0) →
    ∀ i' j', (i' < DIM)%nat → (j' < DIM)%nat → entry (mult_i DIM n i c) i' j' = if decide (i ≤ i')%nat then Z.of_nat DIM * (Z.of_nat i' * Z.of_nat j') else entry c i' j').
  { clear -Hbound. intros n. induction n as [|n IH]; intros i c Hc Hi H0 i' j' Hi' Hj'; cbn [mult_i]; [by rewrite decide_False by lia|].
    destruct (mult_j_ok DIM i 0 c) as [Hd He]; [done|lia|lia|intros; apply H0; lia|]. rewrite IH; [|done|lia| |done|done].
    - rewrite He. destruct (decide (S i ≤ i')%nat); [by rewrite decide_True by lia|]. destruct (decide (i' = i ∧ _)) as [[-> _]|]; [by rewrite decide_True by lia|].
      by rewrite decide_False by lia.
    - intros a b Ha Hb. rewrite He, decide_False by lia. apply H0; lia. }
  rewrite Hgen by (done || lia). by rewrite decide_True by lia.
Qed.

(** The program multiplies its matrices, and its exit status is the last entry of
    the product. *)
Theorem matmult_multiplies : (0 < DIM)%nat →
  (∀ i j, (i < DIM)%nat → (j < DIM)%nat → entry (mult_i DIM DIM 0 (init_matrix DIM (λ _ _, 0))) i j = Z.of_nat DIM * (Z.of_nat i * Z.of_nat j)) ∧
  matmult_main DIM = Z.of_nat DIM * ((Z.of_nat DIM - 1) * (Z.of_nat DIM - 1)).
Proof.
  intros Hpos. assert (H : ∀ i j, (i < DIM)%nat → (j < DIM)%nat → entry (mult_i DIM DIM 0 (init_matrix DIM (λ _ _, 0))) i j = Z.of_nat DIM * (Z.of_nat i * Z.of_nat j)).
  { intros i j Hi Hj. apply mult_i_ok; [apply init_dims|lia| |lia|done]. intros. apply init_entry; lia. }
  split; [done|]. unfold matmult_main. rewrite H by lia. by rewrite Nat2Z.inj_sub by lia.
Qed.

End mult.

(** The dimension of the source. *)
Corollary matmult_128 : matmult_main 128 = 2064512.
Proof. apply (matmult_multiplies 128); lia. Qed.

End LineupTheorems.

(** examples/: mcat and mcp, which read and write files through mapped memory.

    [MapOS] adds to the system calls mmap, munmap and the program's accesses to memory.
    What the programs rely on, [MapLaws]: a mapping starts with the bytes of its file,
    loads and stores go to it, and its bytes are the file's again when it is unmapped.
    [memcpy] between two mappings is the load of all bytes and their store; the mappings
    are 0x10000000 bytes apart, which is the limit on the size of a file here. *)
Import UserFiles UserPrograms UserProgramTheorems.
Local Open Scope Z_scope.

Module Mapped.

Class MapOS (W : Type) := {
  sys_mmap : Z → Z → st W Z;
  sys_munmap : Z → st W unit;
  mem_load : Z → Z → st W (list Z);
  mem_store : Z → list Z → st W unit }.

Definition MAP_FAILED : Z := -1.
Definition in_data : Z := 0x10000000.
Definition out_data : Z := 0x20000000.

Section programs.
Context {W : Type} `{!UserOS W} `{!MapOS W} (junk : list Z).

Fixpoint mcat_files (names : list (list Z)) : st W Z :=
  match names with
  | [] => mret EXIT_SUCCESS
  | name :: names =>
    fd ← sys_open name;
    if fd <? 0 then printf junk "%s: open failed
" [str name];; mret EXIT_FAILURE else
    size ← sys_filesize fd;
    map ← sys_mmap fd in_data;
    if map =? MAP_FAILED then printf junk "%s: mmap failed
" [str name];; mret EXIT_FAILURE else
    bytes ← mem_load in_data size;
    sys_write STDOUT_FILENO bytes;;
    sys_munmap map;;
    mcat_files names
  end.

Definition mcat_main (argv : list (list Z)) : st W Z := mcat_files (tail argv).

Definition mcp_main (argv : list (list Z)) : st W Z :=
  match argv with
  | [_; old; new] =>
    in_fd ← sys_open old;
    if in_fd <? 0 then printf junk "%s: open failed
" [str old];; mret EXIT_FAILURE else
    size ← sys_filesize in_fd;
    ok ← sys_create new (u32 size);
    if negb ok then printf junk "%s: create failed
" [str new];; mret EXIT_FAILURE else
    out_fd ← sys_open new;
    if out_fd <? 0 then printf junk "%s: open failed
" [str new];; mret EXIT_FAILURE else
    in_map ← sys_mmap in_fd in_data;
    if in_map =? MAP_FAILED then printf junk "%s: mmap failed
" [str old];; mret EXIT_FAILURE else
    out_map ← sys_mmap out_fd out_data;
    if out_map =? MAP_FAILED then printf junk "%s: mmap failed
" [str new];; mret EXIT_FAILURE else
    bytes ← mem_load in_data (u64 size);
    mem_store out_data bytes;;
    sys_munmap in_map;;
    sys_munmap out_map;;
    mret EXIT_SUCCESS
  | _ => printf junk "usage: cp OLD NEW
" [];; mret EXIT_FAILURE
  end.

End programs.

(** ** What the programs rely on *)

Record mapping := Mapping { map_id : Z; map_name : list Z; map_bytes : list Z }.

Class MapLaws (W : Type) `{!UserOS W} `{!MapOS W} `{!UserFileLaws W} := {
  maps : W → gmap Z mapping;
  law_mmap fd a w name pos d : handles (look w) !! fd = Some (name, pos) → files (look w) !! name = Some d →
    ∃ id w', sys_mmap fd a w = Ok (id, w') ∧ look w' = look w ∧
      (id = MAP_FAILED ∨ 0 ≤ id ∧ maps w' = <[a := Mapping id name d]> (maps w));
  law_munmap a w m : maps w !! a = Some m →
    ∃ w', sys_munmap (map_id m) w = Ok (tt, w') ∧ maps w' = delete a (maps w) ∧
      look w' = set_files (<[map_name m := map_bytes m]> (files (look w))) (look w);
  law_load a w m n : maps w !! a = Some m → 0 ≤ n ≤ Z.of_nat (length (map_bytes m)) →
    mem_load a n w = Ok (take (Z.to_nat n) (map_bytes m), w);
  law_store a w m l : maps w !! a = Some m → (length l ≤ length (map_bytes m))%nat →
    ∃ w', mem_store a l w = Ok (tt, w') ∧ look w' = look w ∧
      maps w' = <[a := Mapping (map_id m) (map_name m) (l ++ drop (length l) (map_bytes m))]> (maps w) }.

Section theorems.
Context {W : Type} `{!UserOS W} `{!MapOS W} `{!UserFileLaws W} `{!MapLaws W} (junk : list Z).
Hypothesis Hjunk : length junk = UserConsole.BUF_SIZE.

Ltac fails_with rest s w :=
  destruct (printf_name_fails junk Hjunk rest s w) as (?w & ?Hf & ?Ff);
  [done|intros z; lazy -[Stdio.strnlen_bytes Stdio.format_string]; by destruct (Stdio.strnlen_bytes _ _)|vm_compute; lia|].

(** Copying between the two mappings and unmapping them. *)
Lemma copy_mapped w (i1 i2 : Z) old new d d' : maps w !! in_data = Some (Mapping i1 old d) → maps w !! out_data = Some (Mapping i2 new d') →
  length d' = length d → Z.of_nat (length d) < 2 ^ 28 → files (look w) !! old = Some d → old ≠ new →
  ∃ w', (bytes ← mem_load in_data (u64 (Z.of_nat (length d))); mem_store out_data bytes;; sys_munmap i1;; sys_munmap i2;; mret EXIT_SUCCESS) w
      = Ok (EXIT_SUCCESS, w') ∧ files (look w') = <[new := d]> (files (look w)).
Proof.
  intros Hi Ho Hl Hs Hold Hne. rewrite u64_small by lia.
  rewrite (st_bind_ok _ _ _ _ _ (law_load in_data w _ (Z.of_nat (length d)) Hi ltac:(simpl; lia))). cbn [map_bytes]. rewrite Nat2Z.id, take_ge by lia.
  destruct (law_store out_data w _ d Ho ltac:(simpl; lia)) as (w1 & H1 & L1 & M1). rewrite (st_bind_ok _ _ _ _ _ H1). cbn [map_bytes map_id map_name] in M1.
  rewrite drop_ge, app_nil_r in M1 by lia.
  destruct (law_munmap in_data w1 (Mapping i1 old d)) as (w2 & H2 & M2 & L2); [by rewrite M1, lookup_insert_ne|]. rewrite (st_bind_ok _ _ _ _ _ H2).
  destruct (law_munmap out_data w2 (Mapping i2 new d)) as (w3 & H3 & M3 & L3); [by rewrite M2, M1, lookup_delete_ne, lookup_insert_eq|]. rewrite (st_bind_ok _ _ _ _ _ H3).
  exists w3. split; [done|]. rewrite L3, L2, L1. simpl. by rewrite (insert_id (files (look w)) old d).
Qed.

(** [mcp] always returns; it succeeds unless the system refuses a call, and then the new
    file, which did not exist before, has the bytes of the old one and no other file has
    changed. *)
Theorem mcp_copies prog old new w : name_ok old → name_ok new →
  (∀ n d, files (look w) !! n = Some d → Z.of_nat (length d) < 2 ^ 28) →
  ∃ code w', mcp_main junk [prog; old; new] w = Ok (code, w') ∧
    (code = EXIT_FAILURE ∧ (∀ n, n ≠ new → files (look w') !! n = files (look w) !! n) ∧ (files (look w) !! new ≠ None → files (look w') = files (look w))
     ∨ code = EXIT_SUCCESS ∧ files (look w) !! new = None ∧ ∃ d, files (look w) !! old = Some d ∧ files (look w') = <[new := d]> (files (look w))).
Proof.
  intros Ho Hn Hsize. unfold mcp_main. destruct (law_open old w) as (fd & w1 & H1 & Hop). rewrite (st_bind_ok _ _ _ _ _ H1).
  destruct Hop as [[Hfd L1]|(Hfd & Hfresh & [d Hd] & L1)].
  { rewrite (proj2 (Z.ltb_lt fd 0)) by lia. destruct (printf_open_failed junk Hjunk old w1 Ho) as (w2 & H2 & L2). rewrite (st_bind_ok _ _ _ _ _ H2).
    exists EXIT_FAILURE, w2. split; [done|]. left. rewrite L2, L1. done. }
  rewrite (proj2 (Z.ltb_ge fd 0)) by lia. pose proof (Hsize _ _ Hd) as Hd28.
  rewrite (st_bind_ok (sys_filesize fd) _ _ (Z.of_nat (length d)) w1) by (apply (law_filesize fd w1 old 0); rewrite L1; simpl; [apply lookup_insert_eq|done]).
  rewrite u32_small by lia. destruct (law_create new (Z.of_nat (length d)) w1 ltac:(lia)) as (ok & w2 & H2 & Hc). rewrite (st_bind_ok _ _ _ _ _ H2).
  destruct Hc as [[-> L2]|(-> & Hnew & L2)]; cbn [negb].
  { fails_with ": create failed
"%string new w2. do 2 eexists. split; [exact Hf|]. left. rewrite Ff, L2, L1. done. }
  rewrite L1 in Hnew, L2. simpl in Hnew. rewrite Nat2Z.id in L2. destruct (law_open new w2) as (fd2 & w3 & H3 & Hop). rewrite (st_bind_ok _ _ _ _ _ H3).
  assert (Hmade : ∀ w', files (look w') = files (look w2) → (∀ n, n ≠ new → files (look w') !! n = files (look w) !! n) ∧ (files (look w) !! new ≠ None → files (look w') = files (look w))).
  { intros w' ->. rewrite L2. simpl. split; [intros n Hne; by rewrite lookup_insert_ne|done]. }
  destruct Hop as [[Hfd2 L3]|(Hfd2 & Hfresh2 & _ & L3)].
  { rewrite (proj2 (Z.ltb_lt fd2 0)) by lia. destruct (printf_open_failed junk Hjunk new w3 Hn) as (w4 & H4 & L4). rewrite (st_bind_ok _ _ _ _ _ H4).
    exists EXIT_FAILURE, w4. split; [done|]. left. split; [done|]. apply Hmade. by rewrite L4, L3. }
  rewrite (proj2 (Z.ltb_ge fd2 0)) by lia. rewrite L2 in Hfresh2, L3. simpl in Hfresh2. assert (Hne : old ≠ new) by congruence.
  assert (Hfdne : fd ≠ fd2) by (intros ->; by rewrite lookup_insert_eq in Hfresh2).
  assert (F3 : files (look w3) = files (look w2)) by (by rewrite L3, L2).
  destruct (law_mmap fd in_data w3 old 0 d) as (i1 & w4 & H4 & L4 & Hi1); [rewrite L3; simpl; rewrite lookup_insert_ne by done; apply lookup_insert_eq|rewrite L3; simpl; by rewrite lookup_insert_ne|].
  rewrite (st_bind_ok _ _ _ _ _ H4). destruct Hi1 as [-> | [Hi1 M4]].
  { rewrite Z.eqb_refl. fails_with ": mmap failed
"%string old w4. do 2 eexists. split; [exact Hf|]. left. split; [done|]. apply Hmade. by rewrite Ff, L4. }
  rewrite (proj2 (Z.eqb_neq i1 MAP_FAILED)) by (unfold MAP_FAILED; lia).
  destruct (law_mmap fd2 out_data w4 new 0 (replicate (length d) 0)) as (i2 & w5 & H5 & L5 & Hi2); [rewrite L4, L3; simpl; apply lookup_insert_eq|rewrite L4, L3; simpl; apply lookup_insert_eq|].
  rewrite (st_bind_ok _ _ _ _ _ H5). destruct Hi2 as [-> | [Hi2 M5]].
  { rewrite Z.eqb_refl. fails_with ": mmap failed
"%string new w5. do 2 eexists. split; [exact Hf|]. left. split; [done|]. apply Hmade. by rewrite Ff, L5, L4. }
  rewrite (proj2 (Z.eqb_neq i2 MAP_FAILED)) by (unfold MAP_FAILED; lia).
  destruct (copy_mapped w5 i1 i2 old new d (replicate (length d) 0)) as (w6 & H6 & F6).
  - by rewrite M5, lookup_insert_ne, M4, lookup_insert_eq.
  - by rewrite M5, lookup_insert_eq.
  - by rewrite length_replicate.
  - done.
  - rewrite L5, L4, F3, L2. simpl. by rewrite lookup_insert_ne.
  - done.
  - exists EXIT_SUCCESS, w6. split; [exact H6|]. right. split; [done|]. split; [done|]. exists d. split; [done|].
    rewrite F6, L5, L4, F3, L2. simpl. by rewrite insert_insert_eq.
Qed.

End theorems.
End Mapped.
