(* ===== verification/Shell.v ===== *)
(** examples/shell.c: the command line editor and the shell.

    [ShellOS] is the system calls the shell uses: a character from standard input,
    output, and the calls on processes and directories.  [line] is the buffer,
    [pos] an index into it. *)
From S2P Require Import Prelude StringC StdlibC Stdio UserLib.
Local Open Scope Z_scope.

Module Shell.

Class ShellOS (W : Type) := {
  sh_getc : st W Z;
  sh_write : list Z → st W unit;
  sh_exec : list Z → st W Z;
  sh_wait : Z → st W Z;
  sh_chdir : list Z → st W bool }.

Section shell.
Context {W : Type} `{!ShellOS W} (junk : list Z).

Definition sh_printf (format : string) (args : list Stdio.arg) : st W unit :=
  _ ← UserConsole.vprintf (λ _ l, sh_write l) junk (Stdio.lit format) args; mret tt.
Definition sh_putchar (c : Z) : st W unit := _ ← UserConsole.putchar (λ _ l, sh_write l) c; mret tt.

Definition set_byte (line : list Z) (i : nat) (c : Z) : st W (list Z) :=
  if (i <? length line)%nat then mret (<[i := c]> line) else st_err BadAddr.

(** The characters 8, 32, 8; returns the new position, [None] for false. *)
Definition backspace (pos : nat) : st W (option nat) :=
  match pos with
  | O => mret None
  | S p => _ ← UserConsole.vprintf (λ _ l, sh_write l) junk [8; 32; 8; 0] []; mret (Some p)
  end.

(** [while (backspace (&pos, line)) continue;] *)
Fixpoint erase (k : nat) (pos : nat) : st W nat :=
  match k with
  | O => st_err NoFuel
  | S k => r ← backspace pos; match r with Some p => erase k p | None => mret pos end
  end.

(** [fuel] bounds the number of characters typed. *)
Fixpoint line_loop (fuel : nat) (size : nat) (line : list Z) (pos : nat) : st W (list Z) :=
  match fuel with
  | O => st_err NoFuel
  | S fuel =>
    c ← sh_getc;
    if c =? 13 then line ← set_byte line pos 0; sh_putchar 10;; mret line
    else if c =? 8 then r ← backspace pos; line_loop fuel size line (default pos r)
    else if c =? 21 then p ← erase (S pos) pos; line_loop fuel size line p
    else if (pos <? size - 1)%nat then
      sh_putchar c;;
      line ← set_byte line pos c;
      line_loop fuel size line (S pos)
    else line_loop fuel size line pos
  end.

Definition read_line (fuel : nat) (line : list Z) : st W (list Z) := line_loop fuel (length line) line 0.

(** The string in a buffer, up to its terminator. *)
Fixpoint c_string (l : list Z) : list Z :=
  match l with [] => [] | c :: l => if c =? 0 then [] else c :: c_string l end.

Definition PID_ERROR : Z := -1.

(** One command; false when the shell is left. *)
Definition command_step (fuel : nat) (junk_line : list Z) : st W bool :=
  sh_printf "--" [];;
  command ← read_line fuel junk_line;
  let s := c_string command in
  if bool_decide (s = Stdio.chars "exit") then mret false
  else if bool_decide (take 3 command = Stdio.chars "cd ") then
    ok ← sh_chdir (drop 3 s);
    (if ok : bool then mret tt
     else _ ← UserConsole.vprintf (λ _ l, sh_write l) junk (34 :: Stdio.chars "%s" ++ 34 :: Stdio.lit ": chdir failed
") [Stdio.Str (Some (drop 3 s ++ [0]))]; mret tt);;
    mret true
  else if bool_decide (head command = Some 0) then mret true
  else
    pid ← sh_exec s;
    (if negb (pid =? PID_ERROR) then
       code ← sh_wait pid;
       _ ← UserConsole.vprintf (λ _ l, sh_write l) junk (34 :: Stdio.chars "%s" ++ 34 :: Stdio.lit ": exit code %d
") [Stdio.Str (Some (s ++ [0])); Stdio.Int code]; mret tt
     else sh_printf "exec failed
" []);;
    mret true.

(** [commands] bounds the number of commands. *)
Fixpoint shell_loop (commands fuel : nat) (junk_line : list Z) : st W unit :=
  match commands with
  | O => st_err NoFuel
  | S commands => go ← command_step fuel junk_line; if go : bool then shell_loop commands fuel junk_line else mret tt
  end.

Definition shell_main (commands fuel : nat) (junk_line : list Z) : st W Z :=
  sh_printf "Shell starting...
" [];;
  shell_loop commands fuel junk_line;;
  sh_printf "Shell exiting." [];;
  mret 0.

End shell.

(** ** What is typed *)

(** The text on the line, what is shown and the characters left, when the line is
    entered; [size] is the size of the buffer. *)
Fixpoint edit (size : nat) (keys text : list Z) : option (list Z * list Z * list Z) :=
  match keys with
  | [] => None
  | c :: keys =>
    if c =? 13 then Some (text, [10], keys)
    else
      let '(text', shown) :=
        if c =? 8 then (take (length text - 1) text, match text with [] => [] | _ => [8; 32; 8] end)
        else if c =? 21 then ([], concat (replicate (length text) [8; 32; 8]))
        else if (length text <? size - 1)%nat then (text ++ [c], [u8 c]) else (text, []) in
      '(t, out, rest) ← edit size keys text'; Some (t, shown ++ out, rest)
  end.

Class ShellLaws (W : Type) `{!ShellOS W} := {
  typed : W → list Z;
  shown : W → list Z;
  law_getc w c keys : typed w = c :: keys → ∃ w', sh_getc w = Ok (c, w') ∧ typed w' = keys ∧ shown w' = shown w;
  law_shown w l : ∃ w', sh_write l w = Ok (tt, w') ∧ typed w' = typed w ∧ shown w' = shown w ++ l }.

Section laws.
Context {W : Type} `{!ShellOS W} `{!ShellLaws W} (junk : list Z).
Hypothesis Hjunk : length junk = UserConsole.BUF_SIZE.

Lemma sh_putchar_ok c w : ∃ w', sh_putchar c w = Ok (tt, w') ∧ typed w' = typed w ∧ shown w' = shown w ++ [u8 c].
Proof.
  destruct (law_shown w [u8 c]) as (w' & H & L). exists w'. split; [|done]. unfold sh_putchar, UserConsole.putchar.
  rewrite st_bind_assoc. by rewrite (st_bind_ok _ _ _ _ _ H).
Qed.

Lemma backspace_ok p w : ∃ w', backspace junk (S p) w = Ok (Some p, w') ∧ typed w' = typed w ∧ shown w' = shown w ++ [8; 32; 8].
Proof.
  destruct (law_shown w [8; 32; 8]) as (w' & H & L). exists w'. split; [|done]. unfold backspace, UserConsole.vprintf.
  rewrite (st_bind_ok _ _ _ 3 w'); [done|]. rewrite (UserConsole.vhprintf_ok _ junk _ _ _ [8; 32; 8] w Hjunk) by done.
  change (UserConsole.pieces [] [8; 32; 8]) with [[8; 32; 8]]. cbn [UserConsole.write_all]. rewrite st_bind_assoc.
  by rewrite (st_bind_ok _ _ _ _ _ H).
Qed.

Lemma erase_ok p : ∀ k w, (p < k)%nat → ∃ w', erase junk k p w = Ok (0%nat, w') ∧ typed w' = typed w ∧ shown w' = shown w ++ concat (replicate p [8; 32; 8]).
Proof.
  induction p as [|p IH]; intros [|k] w Hk; try lia; cbn [erase].
  - exists w. split; [done|]. simpl. by rewrite app_nil_r.
  - destruct (backspace_ok p w) as (w1 & H1 & T1 & S1). rewrite (st_bind_ok _ _ _ _ _ H1). destruct (IH k w1) as (w2 & H2 & T2 & S2); [lia|].
    exists w2. split; [done|]. rewrite T2, S2, T1, S1. simpl. by rewrite <- app_assoc.
Qed.

Lemma set_line_ok line i c (w : W) : (i < length line)%nat → set_byte line i c w = Ok (<[i := c]> line, w).
Proof. intros Hi. unfold set_byte. by rewrite (proj2 (Nat.ltb_lt _ _) Hi). Qed.

Lemma take_put (line text : list Z) c : take (length text) line = text → (length text < length line)%nat →
  take (S (length text)) (<[length text := c]> line) = text ++ [c].
Proof.
  intros Ht Hl. rewrite (take_S_r _ _ c) by (by apply list_lookup_insert_eq). by rewrite take_insert_ge, Ht by lia.
Qed.

(** With the text typed so far in the buffer. *)
Lemma line_loop_ok keys : ∀ fuel size line text w t out rest, typed w = keys → (length keys ≤ fuel)%nat →
  length line = size → take (length text) line = text → (length text < size)%nat →
  edit size keys text = Some (t, out, rest) →
  ∃ w' line', line_loop junk fuel size line (length text) w = Ok (line', w') ∧ typed w' = rest ∧ shown w' = shown w ++ out
    ∧ take (S (length t)) line' = t ++ [0] ∧ length line' = size ∧ (length t < size)%nat.
Proof.
  induction keys as [|c keys IH]; intros fuel size line text w t out rest Hw Hf Hs Ht Hl He; [done|].
  destruct fuel as [|fuel]; [simpl in Hf; lia|]. simpl in Hf. destruct (law_getc w c keys Hw) as (w1 & H1 & T1 & S1). cbn [line_loop]. rewrite (st_bind_ok _ _ _ _ _ H1).
  cbn [edit] in He. destruct (c =? 13).
  { injection He as <- <- <-. rewrite (st_bind_ok _ _ _ _ _ (set_line_ok line (length text) 0 w1 ltac:(lia))).
    destruct (sh_putchar_ok 10 w1) as (w2 & H2 & T2 & S2). rewrite (st_bind_ok _ _ _ _ _ H2). exists w2, (<[length text := 0]> line). split; [done|].
    rewrite T2, S2, S1, length_insert. split; [done|]. split; [done|]. split; [apply take_put; [done|lia]|done]. }
  destruct (c =? 8).
  { destruct (edit size keys (take (length text - 1) text)) as [[[t1 out1] rest1]|] eqn:E; [|done]. cbn in He. injection He as <- <- <-.
    assert (Hlen : length (take (length text - 1) text) = (length text - 1)%nat) by (rewrite length_take; lia).
    assert (∃ w2, (r ← backspace junk (length text); line_loop junk fuel size line (default (length text) r)) w1
      = line_loop junk fuel size line (length text - 1) w2 ∧ typed w2 = typed w1 ∧ shown w2 = shown w1 ++ match text with [] => [] | _ => [8; 32; 8] end)
      as (w2 & -> & T2 & S2).
    { destruct text as [|x text]; [exists w1; split; [done|by rewrite app_nil_r]|]. cbn [length]. destruct (backspace_ok (length text) w1) as (w2 & H2 & L2).
      exists w2. rewrite (st_bind_ok _ _ _ _ _ H2). split; [|done]. cbn [default]. by replace (S (length text) - 1)%nat with (length text) by lia. }
    destruct (IH fuel size line (take (length text - 1) text) w2 t1 out1 rest1) as (w3 & line3 & H3 & T3 & S3 & R3); try done; try lia.
    - by rewrite T2.
    - rewrite Hlen. transitivity (take (length text - 1) (take (length text) line)); [by rewrite take_take, Nat.min_l by lia|by rewrite Ht].
    - rewrite Hlen in H3. exists w3, line3. split; [done|]. rewrite T3, S3, S2, S1. split; [done|]. by rewrite <- app_assoc. }
  destruct (c =? 21).
  { destruct (edit size keys []) as [[[t1 out1] rest1]|] eqn:E; [|done]. cbn in He. injection He as <- <- <-.
    destruct (erase_ok (length text) (S (length text)) w1 ltac:(lia)) as (w2 & H2 & T2 & S2). rewrite (st_bind_ok _ _ _ _ _ H2).
    destruct (IH fuel size line [] w2 t1 out1 rest1) as (w3 & line3 & H3 & T3 & S3 & R3); try done; try (simpl; lia).
    - by rewrite T2.
    - exists w3, line3. split; [done|]. rewrite T3, S3, S2, S1. split; [done|]. by rewrite <- app_assoc. }
  destruct (Nat.ltb_spec (length text) (size - 1)) as [Hroom|Hroom].
  - destruct (edit size keys (text ++ [c])) as [[[t1 out1] rest1]|] eqn:E; [|done]. cbn in He. injection He as <- <- <-.
    destruct (sh_putchar_ok c w1) as (w2 & H2 & T2 & S2). rewrite (st_bind_ok _ _ _ _ _ H2).
    rewrite (st_bind_ok _ _ _ _ _ (set_line_ok line (length text) c w2 ltac:(lia))).
    assert (Hsn : length (text ++ [c]) = S (length text)) by (rewrite length_app; simpl; lia).
    destruct (IH fuel size (<[length text := c]> line) (text ++ [c]) w2 t1 out1 rest1) as (w3 & line3 & H3 & T3 & S3 & R3); try done; try lia.
    + by rewrite T2.
    + by rewrite length_insert.
    + rewrite Hsn. apply take_put; [done|lia].
    + rewrite Hsn in H3. exists w3, line3. split; [done|]. rewrite T3, S3, S2, S1. split; [done|]. by rewrite <- app_assoc.
  - destruct (edit size keys text) as [[[t1 out1] rest1]|] eqn:E; [|done]. cbn in He. injection He as <- <- <-.
    destruct (IH fuel size line text w1 t1 out1 rest1) as (w3 & line3 & H3 & T3 & S3 & R3); try done; try lia.
    exists w3, line3. split; [done|]. by rewrite T3, S3, S1.
Qed.

(** C39: for everything that can be typed up to the return key, [read_line] leaves
    exactly the text a line editor has then (characters are appended while there is
    room, backspace takes the last one away, control-U all of them), terminated
    and inside the buffer; it shows what that editor shows and reads nothing
    behind the return key.  A line feed is a character like any other here:
    that the line "will not end in a new-line character", as the comment in the
    source has it, is not what the code does ([read_line_keeps_newline]). *)
Theorem read_line_edits fuel line w t out rest : line ≠ [] → (length (typed w) ≤ fuel)%nat → edit (length line) (typed w) [] = Some (t, out, rest) →
  ∃ w' line', read_line junk fuel line w = Ok (line', w') ∧ take (S (length t)) line' = t ++ [0]
    ∧ length line' = length line ∧ (length t < length line)%nat ∧ typed w' = rest ∧ shown w' = shown w ++ out.
Proof.
  intros Hl Hf He. destruct (line_loop_ok (typed w) fuel (length line) line [] w t out rest) as (w' & line' & H1 & H2 & H3 & H4 & H5 & H6); try done.
  - destruct line; [done|simpl; lia].
  - by exists w', line'.
Qed.

Lemma edit_plain size text rest : ∀ pre, Forall (λ c, c ≠ 13 ∧ c ≠ 8 ∧ c ≠ 21) text → (length pre + length text < size)%nat →
  edit size (text ++ 13 :: rest) pre = Some (pre ++ text, (u8 <$> text) ++ [10], rest).
Proof.
  induction text as [|c text IH]; intros pre Ht Hl; cbn [app edit]; [by rewrite app_nil_r|].
  apply Forall_cons in Ht as [(H1 & H2 & H3) Ht]. simpl in Hl.
  rewrite (proj2 (Z.eqb_neq c 13)), (proj2 (Z.eqb_neq c 8)), (proj2 (Z.eqb_neq c 21)) by done.
  rewrite (proj2 (Nat.ltb_lt _ _)) by lia. rewrite IH by (done || (rewrite length_app; simpl; lia)). simpl.
  by rewrite <- app_assoc.
Qed.

(** The line ends in a new-line character when one was typed before the return
    key. *)
Theorem read_line_keeps_newline fuel line w text rest :
  typed w = text ++ [10; 13] ++ rest → Forall (λ c, c ≠ 13 ∧ c ≠ 8 ∧ c ≠ 21) text → (S (length text) < length line)%nat →
  (length (typed w) ≤ fuel)%nat →
  ∃ w' line', read_line junk fuel line w = Ok (line', w') ∧ take (S (S (length text))) line' = text ++ [10; 0].
Proof.
  intros Hw Ht Hl Hf. assert (He : edit (length line) (typed w) [] = Some (text ++ [10], (u8 <$> (text ++ [10])) ++ [10], rest)).
  { rewrite Hw. change (text ++ [10; 13] ++ rest) with (text ++ [10] ++ 13 :: rest). rewrite app_assoc. apply (edit_plain _ _ _ []).
    - apply Forall_app. split; [done|]. by repeat constructor.
    - rewrite length_app. simpl. lia. }
  destruct (line_loop_ok (typed w) fuel (length line) line [] w _ _ _ eq_refl Hf eq_refl eq_refl ltac:(simpl; lia) He)
    as (w' & line' & H1 & _ & _ & H4 & _). exists w', line'. split; [done|].
  rewrite length_app, Nat.add_1_r in H4. by rewrite H4, <- app_assoc.
Qed.

End laws.

(** ** A terminal *)

Record terminal := Terminal { t_in : list Z; t_out : list Z; t_runs : list (list Z) }.

#[export] Instance terminal_os : ShellOS terminal := {|
  sh_getc := s ← st_get; match t_in s with c :: l => st_modify (λ s, Terminal l (t_out s) (t_runs s));; mret c | [] => st_err NoFuel end;
  sh_write l := st_modify (λ s, Terminal (t_in s) (t_out s ++ l) (t_runs s));
  sh_exec cmd := s ← st_get; st_modify (λ s, Terminal (t_in s) (t_out s) (t_runs s ++ [cmd]));; mret (Z.of_nat (length (t_runs s)));
  sh_wait pid := mret 0;
  sh_chdir dir := mret false |}.

#[export] Program Instance terminal_laws : ShellLaws terminal := {| typed := t_in; shown := t_out |}.
Next Obligation. intros [i o r] c keys Hk. simpl in Hk. subst i. by eexists. Qed.
Next Obligation. intros w l. by eexists. Qed.

(** "lx", backspace, "s", return; then a second line. *)
Definition demo_keys : list Z := Stdio.chars "lx" ++ [8] ++ Stdio.chars "s" ++ [13] ++ Stdio.chars "exit" ++ [13].

Lemma read_line_edits_witness :
  ∃ w' line', read_line (replicate 64 0) 20 (replicate 80 170) (Terminal demo_keys [] []) = Ok (line', w')
    ∧ take 3 line' = Stdio.chars "ls" ++ [0] ∧ t_in w' = Stdio.chars "exit" ++ [13].
Proof.
  destruct (read_line_edits (replicate 64 0) eq_refl 20 (replicate 80 170) (Terminal demo_keys [] []) (Stdio.chars "ls")
    (Stdio.chars "lx" ++ [8; 32; 8] ++ Stdio.chars "s" ++ [10]) (Stdio.chars "exit" ++ [13])) as (w' & line' & H1 & H2 & _ & _ & H3 & _).
  - discriminate.
  - apply Nat.leb_le. vm_compute. reflexivity.
  - vm_compute. reflexivity.
  - exists w', line'. split; [exact H1|]. split; [exact H2|exact H3].
Defined.

(** "ls", line feed, return. *)
Example newline_kept :
  match read_line (replicate 64 0) 20 (replicate 80 170) (Terminal (Stdio.chars "ls" ++ [10; 13]) [] []) with
  | Ok (line, _) => c_string line = Stdio.chars "ls" ++ [10]
  | Err _ => False
  end.
Proof. vm_compute. done. Qed.

Example shell_session :
  match shell_main (replicate 64 0) 5 20 (replicate 80 170) (Terminal demo_keys [] []) with
  | Ok (code, w) => code = 0 ∧ t_runs w = [Stdio.chars "ls"]
  | Err _ => False
  end.
Proof. vm_compute. done. Qed.

End Shell.
