(* ===== verification/Pwd.v ===== *)
(** examples/pwd.c: the absolute name of the working directory, found by going up
    through the parents.

    [DirOS] is the system calls the program uses.  A character array is the list of
    its bytes; a store behind its end is an error.  [entries] bounds the number of
    entries of a directory; the levels are bounded by MAX_LEVEL. *)

From S2P Require Import Prelude StringC StdlibC Stdio UserLib UserPrograms.
Local Open Scope Z_scope.

Module Pwd.

Class DirOS (W : Type) := {
  dir_open : list Z → st W Z;
  dir_inumber : Z → st W Z;
  dir_close : Z → st W unit;
  dir_readdir : Z → st W (option (list Z)) }.

Definition MAX_LEVEL : nat := 20.
Definition READDIR_MAX_LEN : nat := 14.
Definition NAME_SIZE : nat := MAX_LEVEL * 3 + 1 + READDIR_MAX_LEN + 1.

(** The string that starts a sequence of bytes. *)
Fixpoint string_of (l : list Z) : option (list Z) :=
  match l with [] => None | c :: l => if c =? 0 then Some [] else s ← string_of l; Some (c :: s) end.

Section pwd.
Context {W : Type} `{!DirOS W} (entries : nat).

Definition poke (buf : list Z) (i : nat) (bytes : list Z) : st W (list Z) :=
  if (i + length bytes <=? length buf)%nat then mret (take i buf ++ bytes ++ drop (i + length bytes) buf) else st_err BadAddr.
Definition string_at (buf : list Z) (i : nat) : st W (list Z) := st_of_option BadAddr (string_of (drop i buf)).

Definition get_inumber (file_name : list Z) : st W (option Z) :=
  fd ← dir_open file_name;
  if 0 <=? fd then inum ← dir_inumber fd; dir_close fd;; mret (Some inum) else mret None.

(** The new contents and length, [None] for false. *)
Definition prepend (prefix dst : list Z) (dst_len dst_size : nat) : st W (option (list Z * nat)) :=
  if (length prefix + dst_len + 1 <=? dst_size)%nat then
    let dst_len := (dst_len + length prefix)%nat in
    dst ← poke dst (dst_size - dst_len) prefix;
    mret (Some (dst, dst_len))
  else mret None.

(** The inner loop: [name] with the entry found, [None] for false. *)
Fixpoint find_child (k : nat) (parent_fd : Z) (name : list Z) (namep : nat) (child_inum : Z) : st W (option (list Z)) :=
  match k with
  | O => st_err NoFuel
  | S k =>
    e ← dir_readdir parent_fd;
    match e with
    | None => dir_close parent_fd;; mret None
    | Some entry =>
      name ← poke name namep (entry ++ [0]);
      s ← string_at name 0;
      test_inum ← get_inumber s;
      match test_inum with
      | None => dir_close parent_fd;; mret None
      | Some t => if t =? child_inum then mret (Some name) else find_child k parent_fd name namep child_inum
      end
    end
  end.

Fixpoint up_loop (k : nat) (name : list Z) (namep : nat) (cwd : list Z) (cwd_len : nat) (child_inum : Z) : st W (option (list Z * nat)) :=
  match k with
  | O => st_err NoFuel
  | S k =>
    if (MAX_LEVEL * 3 <? namep)%nat then mret None else
    name ← poke name namep [46; 46; 0];
    s ← string_at name 0;
    parent_fd ← dir_open s;
    if parent_fd <? 0 then mret None else
    name ← poke name (namep + 2) [47];
    let namep := (namep + 3)%nat in
    parent_inum ← dir_inumber parent_fd;
    if parent_inum =? child_inum then mret (Some (cwd, cwd_len)) else
    r ← find_child entries parent_fd name namep child_inum;
    match r with
    | None => mret None
    | Some name =>
      dir_close parent_fd;;
      s ← string_at name (namep - 1);
      r ← prepend s cwd cwd_len (length cwd);
      match r with
      | None => mret None
      | Some (cwd, cwd_len) => up_loop k name namep cwd cwd_len parent_inum
      end
    end
  end.

(** [junk] is what the array [name] holds at first. *)
Definition getcwd (junk cwd : list Z) : st W (option (list Z)) :=
  if (length cwd <? 2)%nat then mret None else
  child ← get_inumber [46];
  match child with
  | None => mret None
  | Some child_inum =>
    r ← up_loop (MAX_LEVEL + 2) junk 0 cwd 0 child_inum;
    match r with
    | None => mret None
    | Some (cwd, cwd_len) =>
      if (0 <? cwd_len)%nat then
        cwd ← poke cwd 0 (drop (length cwd - cwd_len) cwd);
        cwd ← poke cwd cwd_len [0];
        mret (Some cwd)
      else cwd ← poke cwd 0 [47; 0]; mret (Some cwd)
    end
  end.

(** [print] is [printf] of a string and a new-line character. *)
Definition pwd_main (print : list Z → st W unit) (junk junk_cwd : list Z) : st W Z :=
  r ← getcwd junk junk_cwd;
  match r with
  | Some cwd => s ← string_at cwd 0; print s;; mret 0
  | None => print (Stdio.chars "error");; mret 1
  end.

End pwd.
End Pwd.

(** examples/pwd.c prints the path from the root to the working directory. *)
Import Pwd.
Local Open Scope Z_scope.

Module PwdTheorems.

(** ** What the program relies on *)

(** What a name leads to: the number of the inode and the names of its entries. *)
Notation node := (Z * list (list Z))%type.

Class DirLaws (W : Type) `{!DirOS W} (resolve : list Z → option node) := {
  opened : W → gmap Z node;
  law_open s w : ∃ fd w', dir_open s w = Ok (fd, w') ∧
    match resolve s with
    | None => fd < 0 ∧ opened w' = opened w
    | Some n => 0 ≤ fd ∧ opened w !! fd = None ∧ opened w' = <[fd := n]> (opened w)
    end;
  law_inumber fd w n : opened w !! fd = Some n → dir_inumber fd w = Ok (fst n, w);
  law_close fd w : ∃ w', dir_close fd w = Ok (tt, w') ∧ opened w' = delete fd (opened w);
  law_readdir fd w i nm names : opened w !! fd = Some (i, nm :: names) →
    ∃ w', dir_readdir fd w = Ok (Some nm, w') ∧ opened w' = <[fd := (i, names)]> (opened w) }.

(** ** Arrays *)

Definition text (s : list Z) : Prop := Forall (λ c, c ≠ 0) s.

Lemma string_of_ok s rest : text s → string_of (s ++ 0 :: rest) = Some s.
Proof. induction 1 as [|c s Hc Hs IH]; [done|]. cbn [string_of app]. apply Z.eqb_neq in Hc as ->. by rewrite IH. Qed.

Section arrays.
Context {W : Type}.

Lemma poke_app (pre rest bytes : list Z) (w : W) : (length bytes ≤ length rest)%nat →
  poke (pre ++ rest) (length pre) bytes w = Ok (pre ++ bytes ++ drop (length bytes) rest, w).
Proof.
  intros Hl. unfold poke. rewrite length_app, (proj2 (Nat.leb_le _ _)) by lia. unfold mret, st_ret. do 2 f_equal.
  by rewrite take_app_length, <- drop_drop, drop_app_length.
Qed.

Lemma string_at_ok (pre s rest : list Z) (w : W) : text s → string_at (pre ++ s ++ 0 :: rest) (length pre) w = Ok (s, w).
Proof. intros Hs. unfold string_at. by rewrite drop_app_length, string_of_ok. Qed.

(** [prefix] in front of the text at the end of an array. *)
Lemma prepend_ok (prefix front acc : list Z) (w : W) :
  ∃ front', prepend prefix (front ++ acc) (length acc) (length (front ++ acc)) w
    = Ok (if (length prefix + length acc + 1 <=? length (front ++ acc))%nat then Some (front' ++ prefix ++ acc, (length acc + length prefix)%nat) else None, w)
    ∧ ((length prefix + length acc + 1 ≤ length (front ++ acc))%nat → length (front' ++ prefix ++ acc) = length (front ++ acc)).
Proof.
  exists (take (length front - length prefix) front). unfold prepend. destruct (Nat.leb_spec (length prefix + length acc + 1) (length (front ++ acc))) as [H|H]; [|split; [done|lia]].
  rewrite length_app in H. set (f1 := take (length front - length prefix) front). set (f2 := drop (length front - length prefix) front).
  assert (Hf1 : length f1 = (length front - length prefix)%nat) by (unfold f1; rewrite length_take; lia).
  assert (Hf2 : length f2 = length prefix) by (unfold f2; rewrite length_drop; lia).
  assert (Hf : front ++ acc = f1 ++ f2 ++ acc) by (unfold f1, f2; by rewrite app_assoc, take_drop).
  split; [|intros _; rewrite Hf, !length_app; lia]. cbv zeta. rewrite Hf.
  replace (length (f1 ++ f2 ++ acc) - (length acc + length prefix))%nat with (length f1) by (rewrite !length_app; lia).
  rewrite (st_bind_ok _ _ _ _ _ (poke_app f1 (f2 ++ acc) prefix w ltac:(rewrite length_app; lia))). rewrite drop_app_length' by done. done.
Qed.

End arrays.

(** ** Going up *)

Definition ups (k : nat) : list Z := concat (replicate k [46; 46; 47]).

Lemma ups_S k : ups (S k) = ups k ++ [46; 46; 47].
Proof. unfold ups. rewrite replicate_S_end, concat_app. simpl. done. Qed.

Lemma ups_length k : length (ups k) = (3 * k)%nat.
Proof. induction k as [|k IH]; [done|]. rewrite ups_S, length_app, IH. simpl. lia. Qed.

Lemma ups_text k : text (ups k).
Proof. induction k as [|k IH]; [constructor|]. rewrite ups_S. apply Forall_app. split; [done|]. repeat constructor; done. Qed.

(** A directory above the working directory: the name of the directory below it, its
    own inode and its entries. *)
Record level := Level { l_name : list Z; l_inum : Z; l_entries : list (list Z * Z) }.

Section tree.
Context {W : Type} `{!DirOS W} (resolve : list Z → option node) `{!DirLaws W resolve} (entries : nat).

(** The directories [above] the one with inode [child], which is [k] levels above the
    working directory; the root is its own parent. *)
Fixpoint tree (k : nat) (child : Z) (above : list level) : Prop :=
  match above with
  | [] => ∃ l, resolve (ups k ++ [46; 46]) = Some (child, l)
  | L :: above =>
    resolve (ups k ++ [46; 46]) = Some (l_inum L, fst <$> l_entries L) ∧ l_inum L ≠ child ∧ (length (l_entries L) < entries)%nat ∧
    (∃ pre post, l_entries L = pre ++ (l_name L, child) :: post ∧ Forall (λ e, snd e ≠ child) pre) ∧
    Forall (λ e, text (fst e) ∧ (length (fst e) ≤ READDIR_MAX_LEN)%nat ∧ ∃ l, resolve (ups (S k) ++ fst e) = Some (snd e, l)) (l_entries L) ∧
    tree (S k) (l_inum L) above
  end.

Lemma get_inumber_ok s w i l : resolve s = Some (i, l) → ∃ w', get_inumber s w = Ok (Some i, w') ∧ opened w' = opened w.
Proof.
  intros Hs. destruct (law_open s w) as (fd & w1 & H1 & Ho). rewrite Hs in Ho. destruct Ho as (Hfd & Hn & L1). unfold get_inumber.
  rewrite (st_bind_ok _ _ _ _ _ H1), (proj2 (Z.leb_le 0 fd)) by lia.
  rewrite (st_bind_ok _ _ _ _ _ (law_inumber fd w1 (i, l) ltac:(rewrite L1; apply lookup_insert_eq))).
  destruct (law_close fd w1) as (w2 & H2 & L2). rewrite (st_bind_ok _ _ _ _ _ H2). exists w2. split; [done|]. by rewrite L2, L1, delete_insert_id.
Qed.

(** One entry. *)
Definition with_entry (k : nat) (nm rest : list Z) : list Z := ups k ++ nm ++ 0 :: drop (S (length nm)) rest.

Lemma with_entry_length k nm rest : (length nm < length rest)%nat → length (with_entry k nm rest) = length (ups k ++ rest).
Proof. intros H. unfold with_entry. rewrite !length_app. cbn [length]. rewrite length_drop. lia. Qed.

Lemma child_step nm j l child fd i names k fuel rest w : opened w !! fd = Some (i, nm :: names) → (15 ≤ length rest)%nat →
  text nm → (length nm ≤ READDIR_MAX_LEN)%nat → resolve (ups k ++ nm) = Some (j, l) →
  ∃ w', find_child (S fuel) fd (ups k ++ rest) (length (ups k)) child w
      = (if j =? child then mret (Some (with_entry k nm rest)) else find_child fuel fd (with_entry k nm rest) (length (ups k)) child) w'
    ∧ opened w' = <[fd := (i, names)]> (opened w).
Proof.
  intros Ho Hr Ht Hlen Hres. unfold READDIR_MAX_LEN in Hlen. cbn [find_child]. destruct (law_readdir _ _ _ _ _ Ho) as (w1 & H1 & L1). rewrite (st_bind_ok _ _ _ _ _ H1).
  assert (Hl1 : length (nm ++ [0]) = S (length nm)) by (rewrite length_app; simpl; lia).
  rewrite (st_bind_ok _ _ _ (with_entry k nm rest) w1).
  2:{ rewrite poke_app by lia. rewrite Hl1. unfold with_entry. by rewrite <- (app_assoc nm). }
  rewrite (st_bind_ok _ _ _ (ups k ++ nm) w1).
  2:{ unfold with_entry. rewrite app_assoc. apply (string_at_ok []), Forall_app. split; [apply ups_text|done]. }
  destruct (get_inumber_ok _ w1 _ _ Hres) as (w2 & H2 & L2). rewrite (st_bind_ok _ _ _ _ _ H2). exists w2. split; [by destruct (j =? child)|]. by rewrite L2, L1.
Qed.

(** The search stops at the entry with the child's inode. *)
Lemma find_child_ok nm child post fd i k : ∀ pre fuel rest w, (length pre < fuel)%nat → (15 ≤ length rest)%nat →
  Forall (λ e, snd e ≠ child) pre → opened w !! fd = Some (i, fst <$> (pre ++ (nm, child) :: post)) →
  Forall (λ e, text (fst e) ∧ (length (fst e) ≤ READDIR_MAX_LEN)%nat ∧ ∃ l, resolve (ups k ++ fst e) = Some (snd e, l)) (pre ++ (nm, child) :: post) →
  ∃ w' rest', find_child fuel fd (ups k ++ rest) (length (ups k)) child w = Ok (Some (ups k ++ nm ++ 0 :: rest'), w')
    ∧ opened w' = <[fd := (i, fst <$> post)]> (opened w) ∧ length (ups k ++ nm ++ 0 :: rest') = length (ups k ++ rest).
Proof.
  induction pre as [|[nm' j] pre IH]; intros [|fuel] rest w Hf Hr Hpre Ho He; simpl in Hf; try lia;
    cbn [app] in Ho; rewrite fmap_cons in Ho; apply Forall_cons in He as [(Ht & Hlen & l & Hres) He]; cbn [fst snd] in *.
  - destruct (child_step nm child l child fd i _ k fuel rest w Ho Hr Ht Hlen Hres) as (w1 & -> & L1). rewrite Z.eqb_refl.
    exists w1, (drop (S (length nm)) rest). split; [done|]. split; [done|]. apply with_entry_length. unfold READDIR_MAX_LEN in Hlen. lia.
  - destruct (child_step nm' j l child fd i _ k fuel rest w Ho Hr Ht Hlen Hres) as (w1 & -> & L1). apply Forall_cons in Hpre as [Hj Hpre].
    rewrite (proj2 (Z.eqb_neq j child) Hj). pose proof (with_entry_length k nm' rest ltac:(unfold READDIR_MAX_LEN in Hlen; lia)) as Hwe. unfold with_entry in *.
    set (rest2 := nm' ++ 0 :: drop (S (length nm')) rest) in *. rewrite !length_app in Hwe.
    destruct (IH fuel rest2 w1) as (w3 & rest3 & H3 & L3 & E3); [lia|lia|done|rewrite L1; apply lookup_insert_eq|done|].
    exists w3, rest3. split; [done|]. rewrite L3, L1, insert_insert_eq, E3, !length_app. split; [done|lia].
Qed.

(** The path of the directories [above], and then [acc]. *)
Fixpoint path (above : list level) (acc : list Z) : list Z :=
  match above with [] => acc | L :: above => path above (47 :: l_name L ++ acc) end.

Lemma path_length above : ∀ acc, (length acc ≤ length (path above acc))%nat.
Proof. induction above as [|L above IH]; intros acc; cbn [path]; [done|]. etransitivity; [|apply IH]. cbn [length]. rewrite length_app. lia. Qed.

(** The prologue of a round: the parent is open and its name ends in a slash. *)
Lemma up_step k fuel child rest cwd cwd_len i l w : resolve (ups k ++ [46; 46]) = Some (i, l) → (k ≤ MAX_LEVEL)%nat → length (ups k ++ rest) = NAME_SIZE →
  ∃ fd w' rest', up_loop entries (S fuel) (ups k ++ rest) (length (ups k)) cwd cwd_len child w
    = (if i =? child then mret (Some (cwd, cwd_len)) else
       r ← find_child entries fd (ups (S k) ++ rest') (length (ups (S k))) child;
       match r with
       | None => mret None
       | Some name =>
         dir_close fd;;
         s ← string_at name (length (ups (S k)) - 1);
         r ← prepend s cwd cwd_len (length cwd);
         match r with
         | None => mret None
         | Some (cwd, cwd_len) => up_loop entries fuel name (length (ups (S k))) cwd cwd_len i
         end
       end) w'
    ∧ opened w' !! fd = Some (i, l) ∧ length (ups (S k) ++ rest') = NAME_SIZE.
Proof.
  intros Hres Hk Hlen. pose proof (ups_length k) as Hu. unfold MAX_LEVEL, NAME_SIZE, READDIR_MAX_LEN in *. rewrite length_app in Hlen. cbn in Hlen, Hk.
  cbn [up_loop]. unfold MAX_LEVEL. rewrite (proj2 (Nat.ltb_ge (20 * 3) (length (ups k)))) by lia.
  rewrite (st_bind_ok _ _ _ _ _ (poke_app (ups k) rest [46; 46; 0] w ltac:(simpl; lia))). cbn [length].
  rewrite (st_bind_ok _ _ _ (ups k ++ [46; 46]) w).
  2:{ replace (ups k ++ [46; 46; 0] ++ drop 3 rest) with ((ups k ++ [46; 46]) ++ 0 :: drop 3 rest) by (by rewrite <- app_assoc).
      apply (string_at_ok []), Forall_app. split; [apply ups_text|]. repeat constructor; done. }
  destruct (law_open (ups k ++ [46; 46]) w) as (fd & w1 & H1 & Ho). rewrite Hres in Ho. destruct Ho as (Hfd & _ & L1).
  rewrite (st_bind_ok _ _ _ _ _ H1), (proj2 (Z.ltb_ge fd 0)) by lia.
  rewrite (st_bind_ok _ _ _ (ups (S k) ++ drop 3 rest) w1).
  2:{ replace (ups k ++ [46; 46; 0] ++ drop 3 rest) with ((ups k ++ [46; 46]) ++ 0 :: drop 3 rest) by (by rewrite <- app_assoc).
      replace (length (ups k) + 2)%nat with (length (ups k ++ [46; 46])) by (by rewrite length_app).
      rewrite poke_app by (simpl; lia). cbn [length drop]. rewrite ups_S. by rewrite <- !app_assoc. }
  assert (Hop : opened w1 !! fd = Some (i, l)) by (rewrite L1; apply lookup_insert_eq).
  rewrite (st_bind_ok _ _ _ _ _ (law_inumber fd w1 _ Hop)). cbn [fst].
  replace (length (ups k) + 3)%nat with (length (ups (S k))) by (rewrite !ups_length; lia).
  exists fd, w1, (drop 3 rest). split; [done|]. split; [done|]. rewrite length_app, ups_length, length_drop. lia.
Qed.

Lemma up_loop_ok above : ∀ k fuel child rest front acc w, tree k child above → (k + length above ≤ MAX_LEVEL)%nat → (length above < fuel)%nat →
  length (ups k ++ rest) = NAME_SIZE → (1 + length acc ≤ length (front ++ acc))%nat →
  ∃ w' front', up_loop entries fuel (ups k ++ rest) (length (ups k)) (front ++ acc) (length acc) child w
      = Ok (if (length (path above acc) + 1 <=? length (front ++ acc))%nat then Some (front' ++ path above acc, length (path above acc)) else None, w')
    ∧ ((length (path above acc) + 1 ≤ length (front ++ acc))%nat → length (front' ++ path above acc) = length (front ++ acc)).
Proof.
  induction above as [|L above IH]; intros k [|fuel] child rest front acc w Ht Hk Hf Hlen Hacc; simpl in Hf, Hk; try lia; cbn [tree path] in *.
  - destruct Ht as [l Hres]. destruct (up_step k fuel child rest (front ++ acc) (length acc) child l w Hres ltac:(lia) Hlen) as (fd & w1 & rest1 & -> & _).
    rewrite Z.eqb_refl, (proj2 (Nat.leb_le _ _)) by lia. by exists w1, front.
  - destruct Ht as (Hres & Hne & Hent & (pre & post & Hl & Hpre) & Hall & Ht).
    destruct (up_step k fuel child rest (front ++ acc) (length acc) _ _ w Hres ltac:(lia) Hlen) as (fd & w1 & rest1 & -> & Ho & Hlen1).
    rewrite (proj2 (Z.eqb_neq _ _) Hne). rewrite Hl in Ho, Hent, Hall. rewrite length_app in Hent.
    assert (Hr1 : (15 ≤ length rest1)%nat) by (rewrite length_app, ups_length in Hlen1; unfold NAME_SIZE, MAX_LEVEL, READDIR_MAX_LEN in *; lia).
    destruct (find_child_ok (l_name L) child post fd _ (S k) pre entries rest1 w1 ltac:(lia) Hr1 Hpre Ho Hall) as (w2 & rest2 & H2 & _ & Hlen2).
    rewrite (st_bind_ok _ _ _ _ _ H2). destruct (law_close fd w2) as (w3 & H3 & _). rewrite (st_bind_ok _ _ _ _ _ H3).
    assert (Hname : text (l_name L)) by (apply Forall_app in Hall as [_ Hall]; apply Forall_cons in Hall as [[Hall _] _]; exact Hall).
    rewrite (st_bind_ok _ _ _ (47 :: l_name L) w3).
    2:{ rewrite ups_S, length_app, <- app_assoc. cbn [length app].
        replace (length (ups k) + 3 - 1)%nat with (length (ups k ++ [46; 46])) by (rewrite length_app; simpl; lia).
        rewrite <- (string_at_ok (ups k ++ [46; 46]) (47 :: l_name L) rest2 w3) by (by constructor). f_equal. by rewrite <- app_assoc. }
    destruct (prepend_ok (47 :: l_name L) front acc w3) as (front1 & H4 & Hsame). rewrite (st_bind_ok _ _ _ _ _ H4).
    pose proof (path_length above (47 :: l_name L ++ acc)) as Hpl. cbn [length] in Hpl, Hsame |- *. rewrite length_app in Hpl. cbn [app] in Hsame |- *.
    destruct (Nat.leb_spec (S (length (l_name L)) + length acc + 1) (length (front ++ acc))) as [Hfit|Hfit].
    2:{ rewrite (proj2 (Nat.leb_gt _ _)) by lia. exists w3, front. split; [done|lia]. }
    specialize (Hsame Hfit). replace (length acc + S (length (l_name L)))%nat with (length (47 :: l_name L ++ acc)) by (cbn [length]; rewrite length_app; lia).
    destruct (IH (S k) fuel _ (l_name L ++ 0 :: rest2) front1 (47 :: l_name L ++ acc) w3 Ht) as (w4 & front2 & -> & Hsame2);
      [lia|lia|congruence|rewrite Hsame; cbn [length]; rewrite length_app; lia|].
    rewrite Hsame in *. by exists w4, front2.
Qed.

(** ** The whole program *)

Lemma path_text above : ∀ k child acc, tree k child above → text acc → text (path above acc).
Proof.
  induction above as [|L above IH]; intros k child acc Ht Ha; cbn [tree path] in *; [done|].
  destruct Ht as (_ & _ & _ & (pre & post & Hl & _) & Hall & Ht). apply (IH _ _ _ Ht). constructor; [done|]. apply Forall_app. split; [|done].
  rewrite Hl in Hall. apply Forall_app in Hall as [_ Hall]. apply Forall_cons in Hall as [[Hall _] _]. exact Hall.
Qed.

(** The name of the directory: a slash alone for the root. *)
Definition absolute (above : list level) : list Z := match above with [] => [47] | _ => path above [] end.

Lemma path_nonempty L above : (0 < length (path (L :: above) []))%nat.
Proof. cbn [path]. pose proof (path_length above (47 :: l_name L ++ [])) as H. cbn [length] in H. lia. Qed.

(** The text at the end of the array moves to the front and is terminated. *)
Lemma finalize_ok (front p : list Z) (w : W) : (length p + 1 ≤ length (front ++ p))%nat → text p →
  (cwd ← poke (front ++ p) 0 (drop (length (front ++ p) - length p) (front ++ p)); cwd ← poke cwd (length p) [0]; s ← string_at cwd 0; mret s) w = Ok (p, w).
Proof.
  intros Hl Hp. rewrite length_app in *. replace (length front + length p - length p)%nat with (length front) by lia. rewrite drop_app_length.
  rewrite (st_bind_ok _ _ _ _ _ (poke_app [] (front ++ p) p w ltac:(rewrite length_app; lia))). cbn [app].
  rewrite (st_bind_ok _ _ _ _ _ (poke_app p (drop (length p) (front ++ p)) [0] w ltac:(rewrite length_drop, length_app; simpl; lia))). cbn [app].
  pose proof (string_at_ok [] p (drop 1 (drop (length p) (front ++ p))) w Hp) as E. cbn [app length] in E. by rewrite (st_bind_ok _ _ _ _ _ E).
Qed.

Lemma getcwd_ok junk cwd child l above w : resolve [46] = Some (child, l) → tree 0 child above → (length above ≤ MAX_LEVEL)%nat →
  length junk = NAME_SIZE → (2 ≤ length cwd)%nat →
  ∃ w', (r ← getcwd entries junk cwd; match r with Some c => s ← string_at c 0; mret (Some s) | None => mret None end) w
    = Ok (if (length (path above []) + 1 <=? length cwd)%nat then Some (absolute above) else None, w').
Proof.
  intros Hd Ht Hab Hj Hc. unfold getcwd. rewrite (proj2 (Nat.ltb_ge _ _) Hc), st_bind_assoc.
  destruct (get_inumber_ok _ w _ _ Hd) as (w1 & H1 & _). rewrite (st_bind_ok _ _ _ _ _ H1), st_bind_assoc.
  destruct (up_loop_ok above 0 (MAX_LEVEL + 2) child junk cwd [] w1 Ht) as (w2 & front & H2 & Hlen); [simpl; lia|lia|done|rewrite length_app; simpl; lia|].
  rewrite app_nil_r in H2, Hlen. change (ups 0 ++ junk) with junk in H2. change (length (ups 0)) with 0%nat in H2. change (length (@nil Z)) with 0%nat in H2.
  rewrite (st_bind_ok _ _ _ _ _ H2). exists w2. destruct (Nat.leb_spec (length (path above []) + 1) (length cwd)) as [Hfit|Hfit]; [|done]. specialize (Hlen Hfit).
  destruct above as [|L above].
  - change (path [] []) with (@nil Z) in *. rewrite app_nil_r in *. cbn [length Nat.ltb Nat.leb]. rewrite st_bind_assoc.
    by rewrite (st_bind_ok _ _ _ _ _ (poke_app [] front [47; 0] w2 ltac:(simpl; lia))).
  - rewrite (proj2 (Nat.ltb_lt _ _) (path_nonempty L above)).
    pose proof (finalize_ok front (path (L :: above) []) w2 ltac:(lia) (path_text _ _ _ _ Ht ltac:(constructor))) as Hfin.
    apply st_bind_inv in Hfin as (c1 & v1 & E1 & Hfin). apply st_bind_inv in Hfin as (c2 & v2 & E2 & Hfin). apply st_bind_inv in Hfin as (c3 & v3 & E3 & Hfin).
    rewrite st_bind_assoc, (st_bind_ok _ _ _ _ _ E1), st_bind_assoc, (st_bind_ok _ _ _ _ _ E2). unfold mbind at 1, st_bind at 1, mret at 1, st_ret at 1. cbn beta iota.
    rewrite (st_bind_ok _ _ _ _ _ E3). injection Hfin as -> ->. done.
Qed.

(** C40: pwd.c's [main] with a working directory at most MAX_LEVEL levels below the root,
    names of at most READDIR_MAX_LEN characters and an array [cwd] of 128 bytes: it
    climbs through the parents, finds in each the entry that has the inode of the
    directory below, and prints the slash-separated path from the root (a slash alone in
    the root) with status 0 when the path and its terminator fit in [cwd]; it prints
    "error" with status 1 when they do not.  Neither [name] nor [cwd] is written behind
    its end, whatever the arrays held before. *)
Theorem pwd_prints_path (print : list Z → st W unit) junk junk_cwd child l above w :
  resolve [46] = Some (child, l) → tree 0 child above → (length above ≤ MAX_LEVEL)%nat →
  length junk = NAME_SIZE → length junk_cwd = 128%nat →
  ∃ w', pwd_main entries print junk junk_cwd w
    = (if (length (path above []) <? 128)%nat then print (absolute above);; mret 0 else print (Stdio.chars "error");; mret 1) w'.
Proof.
  intros Hd Ht Hab Hj Hc. destruct (getcwd_ok junk junk_cwd child l above w Hd Ht Hab Hj ltac:(lia)) as (w' & H). rewrite Hc in H.
  exists w'. apply st_bind_inv in H as (r & w1 & E1 & H). unfold pwd_main. rewrite (st_bind_ok _ _ _ _ _ E1).
  destruct (Nat.ltb_spec (length (path above [])) 128) as [Hf|Hf]; [rewrite (proj2 (Nat.leb_le _ _)) in H by lia|rewrite (proj2 (Nat.leb_gt _ _)) in H by lia];
    (destruct r as [c|]; [apply st_bind_inv in H as (s & w2 & E2 & H)|]); unfold mret, st_ret in H; simplify_eq; [by rewrite (st_bind_ok _ _ _ _ _ E2)|done].
Qed.

End tree.

(** ** A system that keeps the promises *)

Section sim.
Variable resolve : list Z → option node.

Record world := World { handles : gmap Z node; console : list (list Z) }.

Definition sim_dir : DirOS world := {|
  dir_open s := λ w, match resolve s with
    | None => Ok (-1, w)
    | Some n => let fd := UserFiles.next_fd (handles w) in Ok (fd, World (<[fd := n]> (handles w)) (console w))
    end;
  dir_inumber fd := λ w, match handles w !! fd with Some n => Ok (fst n, w) | None => Ok (-1, w) end;
  dir_close fd := λ w, Ok (tt, World (delete fd (handles w)) (console w));
  dir_readdir fd := λ w, match handles w !! fd with
    | Some (i, nm :: names) => Ok (Some nm, World (<[fd := (i, names)]> (handles w)) (console w))
    | _ => Ok (None, w)
    end |}.

Program Definition sim_dir_laws : @DirLaws world sim_dir resolve := {| opened := handles |}.
Next Obligation.
  intros s w. cbn. destruct (UserFiles.next_fd_fresh (handles w)) as [H2 Hn]. destruct (resolve s) as [n|]; eexists _, _; (split; [done|]); [|done]. split; [lia|done].
Qed.
Next Obligation. intros fd w n H. cbn. by rewrite H. Qed.
Next Obligation. intros fd w. cbn. by eexists. Qed.
Next Obligation. intros fd w i nm names H. cbn. rewrite H. by eexists. Qed.

Definition print_line (s : list Z) : st world unit := λ w, Ok (tt, World (handles w) (console w ++ [s])).

End sim.

(** The directory /home/ed, with its parent holding also "al". *)
Definition home (s : list Z) : option node :=
  if decide (s = Stdio.chars ".") then Some (3, []) else
  if decide (s = Stdio.chars "..") then Some (2, [Stdio.chars "al"; Stdio.chars "ed"]) else
  if decide (s = Stdio.chars "../al") then Some (4, []) else
  if decide (s = Stdio.chars "../ed") then Some (3, []) else
  if decide (s = Stdio.chars "../..") then Some (1, [Stdio.chars "home"]) else
  if decide (s = Stdio.chars "../../home") then Some (2, []) else
  if decide (s = Stdio.chars "../../..") then Some (1, []) else None.

Definition home_above : list level :=
  [Level (Stdio.chars "ed") 2 [(Stdio.chars "al", 4); (Stdio.chars "ed", 3)]; Level (Stdio.chars "home") 1 [(Stdio.chars "home", 2)]].

Lemma home_tree : tree home 3 0 3 home_above.
Proof.
  assert (Hnz : ∀ s, forallb (λ c, negb (c =? 0)) s = true → text s).
  { intros s Hs. apply Forall_forall. intros c Hc. rewrite forallb_forall in Hs. by apply list_elem_of_In, Hs, negb_true_iff, Z.eqb_neq in Hc. }
  cbn [tree home_above l_name l_inum l_entries fst snd length]. repeat split_and; try done; try lia.
  - exists [(Stdio.chars "al", 4)], []. split; [done|]. by repeat constructor.
  - repeat constructor; try (by apply Hnz); try (vm_compute; lia); by exists [].
  - exists [], []. split; [done|]. constructor.
  - repeat constructor; try (by apply Hnz); try (vm_compute; lia); by exists [].
  - by exists [].
Qed.

Lemma pwd_prints_path_witness : ∃ w',
  pwd_main (DirOS0 := sim_dir home) 3 print_line (repeat 1 NAME_SIZE) (repeat 1 128) (World ∅ []) = (print_line (Stdio.chars "/home/ed");; mret 0) w'.
Proof.
  pose proof (@pwd_prints_path world (sim_dir home) home (sim_dir_laws home) 3 print_line (repeat 1 NAME_SIZE) (repeat 1 128) 3 [] home_above (World ∅ [])) as H.
  apply H; [reflexivity|exact home_tree|vm_compute; lia|reflexivity|reflexivity].
Defined.

(** A working directory 21 levels deep, under a directory of the root that has a name of
    14 characters: the bound on the levels still lets the round through, and readdir is
    given a place in [name] with only 13 bytes behind it. *)
Fixpoint climb (fuel k : nat) (s : list Z) : nat * list Z :=
  match fuel, s with
  | S fuel, 46 :: 46 :: 47 :: s => climb fuel (S k) s
  | _, _ => (k, s)
  end.

Definition deep_name (level : nat) : list Z := Stdio.chars (if (level =? 1)%nat then "abcdefghijklmn" else "a").

Definition deep (s : list Z) : option node :=
  if decide (s = Stdio.chars ".") then Some (21, []) else
  let (k, s) := climb 30 0 s in
  if decide (s = Stdio.chars "..") then Some (Z.of_nat (20 - k), [deep_name (21 - k)]) else Some (Z.of_nat (22 - k), []).

Example pwd_overflows_name :
  pwd_main (DirOS0 := sim_dir deep) 3 print_line (repeat 1 NAME_SIZE) (repeat 1 128) (World ∅ []) = Err BadAddr.
Proof. vm_compute. reflexivity. Qed.

(** At the root the descriptor of the parent stays open. *)
Example pwd_leaks_descriptor : ∃ w',
  pwd_main (DirOS0 := sim_dir home) 3 print_line (repeat 1 NAME_SIZE) (repeat 1 128) (World ∅ []) = Ok (0, w') ∧
  console w' = [Stdio.chars "/home/ed"] ∧ map_to_list (handles w') = [(2, (1, []))].
Proof. eexists. split; [vm_compute; reflexivity|]. split; vm_compute; reflexivity. Qed.

End PwdTheorems.
