(* ===== verification/Insult.v ===== *)
(** examples/insult.c: sentences drawn from a grammar.

    The grammar is the tables of the source, in its order; entry [num] of [daGLoc] holds
    the number of alternatives of [daGrammar]'s entry [num] and where each begins and ends.
    The state is the system's and that of the generator of lib/random.c.  [depth] bounds the
    depth of the recursion of [expand], which the draws decide: an adjective may be an
    adjective behind another. *)

From S2P Require Import Prelude StringC StdlibC Stdio Random UserLib UserPrograms UserProgramTheorems.
Import UserFiles.
Local Open Scope Z_scope.

Module Insult.

Open Scope string_scope.
Definition start : list string :=
  ["You"; "1"; "5"; "."; "May"; "13"; "."; "With"; "the"; "19"; "of"; "18"; ","; "may"; "13"; "."].
Definition startLoc : list Z :=
  [3; 0; 4; 7; 16].
Definition adj : list string :=
  ["3"; "4"; "2"; ","; "1"].
Definition adjLoc : list Z :=
  [3; 0; 1; 2; 5].
Definition adj3 : list string :=
  ["3"; "4"].
Definition adj3Loc : list Z :=
  [2; 0; 1; 2].
Definition adj1 : list string :=
  ["lame"; "dried"; "up"; "par-broiled"; "bloated"; "half-baked"; "spiteful"; "egotistical"; "ungrateful"; "stupid";
   "moronic"; "fat"; "ugly"; "puny"; "pitiful"; "insignificant"; "blithering"; "repulsive"; "worthless";
   "blundering"; "retarded"; "useless"; "obnoxious"; "low-budget"; "assinine"; "neurotic"; "subhuman"; "crochety";
   "indescribable"; "contemptible"; "unspeakable"; "sick"; "lazy"; "good-for-nothing"; "slutty";
   "mentally-deficient"; "creepy"; "sloppy"; "dismal"; "pompous"; "pathetic"; "friendless"; "revolting"; "slovenly";
   "cantankerous"; "uncultured"; "insufferable"; "gross"; "unkempt"; "defective"; "crumby"].
Definition adj1Loc : list Z :=
  [50; 0; 1; 3; 4; 5; 6; 7; 8; 9; 10; 11; 12; 13; 14; 15; 16; 17; 18; 19; 20; 21; 22; 23; 24; 25; 26; 27; 28; 29; 30;
   31; 32; 33; 34; 35; 36; 37; 38; 39; 40; 41; 42; 43; 44; 45; 46; 47; 48; 49; 50; 51].
Definition adj2 : list string :=
  ["putrefied"; "festering"; "funky"; "moldy"; "leprous"; "curdled"; "fetid"; "slimy"; "crusty"; "sweaty"; "damp";
   "deranged"; "smelly"; "stenchy"; "malignant"; "noxious"; "grimy"; "reeky"; "nasty"; "mutilated"; "sloppy";
   "gruesome"; "grisly"; "sloshy"; "wormy"; "mealy"; "spoiled"; "contaminated"; "rancid"; "musty"; "fly-covered";
   "moth-eaten"; "decaying"; "decomposed"; "freeze-dried"; "defective"; "petrified"; "rotting"; "scabrous";
   "hirsute"].
Definition adj2Loc : list Z :=
  [40; 0; 1; 2; 3; 4; 5; 6; 7; 8; 9; 10; 11; 12; 13; 14; 15; 16; 17; 18; 19; 20; 21; 22; 23; 24; 25; 26; 27; 28; 29;
   30; 31; 32; 33; 34; 35; 36; 37; 38; 39; 40].
Definition name : list string :=
  ["10"; ","; "bad"; "excuse"; "for"; "6"; ","; "6"; "for"; "brains"; ","; "4"; "11"; "8"; "for"; "brains";
   "offspring"; "of"; "a"; "motherless"; "10"; "7"; "6"; "7"; "4"; "11"; "8"].
Definition nameLoc : list Z :=
  [7; 0; 1; 6; 10; 16; 21; 23; 27].
Definition stuff : list string :=
  ["shit"; "toe"; "jam"; "filth"; "puss"; "earwax"; "leaf"; "clippings"; "bat"; "guano"; "mucus"; "fungus"; "mung";
   "refuse"; "earwax"; "spittoon"; "spittle"; "phlegm"].
Definition stuffLoc : list Z :=
  [14; 0; 1; 3; 4; 5; 6; 8; 10; 11; 12; 13; 14; 15; 17; 18].
Definition noun_and_prep : list string :=
  ["bit"; "of"; "piece"; "of"; "vat"; "of"; "lump"; "of"; "crock"; "of"; "ball"; "of"; "tub"; "of"; "load"; "of";
   "bucket"; "of"; "mound"; "of"; "glob"; "of"; "bag"; "of"; "heap"; "of"; "mountain"; "of"; "load"; "of"; "barrel";
   "of"; "sack"; "of"; "blob"; "of"; "pile"; "of"; "truckload"; "of"; "vat"; "of"].
Definition noun_and_prepLoc : list Z :=
  [21; 0; 2; 4; 6; 8; 10; 12; 14; 16; 18; 20; 22; 24; 26; 28; 30; 32; 34; 36; 38; 40; 42].
Definition organics : list string :=
  ["droppings"; "mung"; "zits"; "puckies"; "tumors"; "cysts"; "tumors"; "livers"; "froth"; "parts"; "scabs"; "guts";
   "entrails"; "blubber"; "carcuses"; "gizards"; "9"].
Definition organicsLoc : list Z :=
  [17; 0; 1; 2; 3; 4; 5; 6; 7; 8; 9; 10; 11; 12; 13; 14; 15; 16; 17].
Definition body_parts : list string :=
  ["kidneys"; "genitals"; "buttocks"; "earlobes"; "innards"; "feet"].
Definition body_partsLoc : list Z :=
  [6; 0; 1; 2; 3; 4; 5; 6].
Definition noun : list string :=
  ["pop"; "tart"; "warthog"; "twinkie"; "barnacle"; "fondue"; "pot"; "cretin"; "fuckwad"; "moron"; "ass";
   "neanderthal"; "nincompoop"; "simpleton"; "11"].
Definition nounLoc : list Z :=
  [13; 0; 2; 3; 4; 5; 7; 8; 9; 10; 11; 12; 13; 14; 15].
Definition animal : list string :=
  ["donkey"; "llama"; "dingo"; "lizard"; "gekko"; "lemur"; "moose"; "camel"; "goat"; "eel"].
Definition animalLoc : list Z :=
  [10; 0; 1; 2; 3; 4; 5; 6; 7; 8; 9; 10].
Definition good_verb : list string :=
  ["love"; "cuddle"; "fondle"; "adore"; "smooch"; "hug"; "caress"; "worship"; "look"; "at"; "touch"].
Definition good_verbLoc : list Z :=
  [10; 0; 1; 2; 3; 4; 5; 6; 7; 8; 10; 11].
Definition curse : list string :=
  ["14"; "20"; "23"; "14"; "17"; "20"; "23"; "14"; "find"; "your"; "9"; "suddenly"; "delectable"; "14"; "and"; "14";
   "seek"; "a"; "battleground"; "23"].
Definition curseLoc : list Z :=
  [4; 0; 3; 7; 13; 20].
Definition afflictors : list string :=
  ["15"; "21"; "15"; "21"; "15"; "21"; "15"; "21"; "a"; "22"; "Rush"; "Limbaugh"; "the"; "hosts"; "of"; "Hades"].
Definition afflictorsLoc : list Z :=
  [6; 0; 2; 4; 6; 8; 12; 16].
Definition quantity : list string :=
  ["a"; "4"; "hoard"; "of"; "a"; "4"; "pack"; "of"; "a"; "truckload"; "of"; "a"; "swarm"; "of"; "many"; "an"; "army";
   "of"; "a"; "4"; "heard"; "of"; "a"; "4"; "platoon"; "of"; "a"; "4"; "and"; "4"; "group"; "of"; "16"].
Definition quantityLoc : list Z :=
  [10; 0; 4; 8; 11; 14; 15; 18; 22; 26; 32; 33].
Definition numbers : list string :=
  ["a"; "thousand"; "three"; "million"; "ninty-nine"; "nine-hundred,"; "ninty-nine"; "forty-two"; "a"; "gazillion";
   "sixty-eight"; "times"; "thirty-three"].
Definition numbersLoc : list Z :=
  [7; 0; 2; 4; 5; 7; 8; 10; 13].
Definition adv : list string :=
  ["viciously"; "manicly"; "merrily"; "happily"; ","; "with"; "the"; "19"; "of"; "18"; ","; "gleefully"; ","; "with";
   "much"; "ritualistic"; "celebration"; ","; "franticly"].
Definition advLoc : list Z :=
  [8; 0; 1; 2; 3; 4; 11; 12; 18; 19].
Definition metaphor : list string :=
  ["an"; "irate"; "manticore"; "Thor's"; "belch"; "Alah's"; "fist"; "16"; "titans"; "a"; "particularly"; "vicious";
   "she-bear"; "in"; "the"; "midst"; "of"; "her"; "menstrual"; "cycle"; "a"; "pissed-off"; "Jabberwock"].
Definition metaphorLoc : list Z :=
  [6; 0; 3; 5; 7; 9; 20; 23].
Definition force : list string :=
  ["force"; "fury"; "power"; "rage"].
Definition forceLoc : list Z :=
  [4; 0; 1; 2; 3; 4].
Definition bad_action : list string :=
  ["spit"; "shimmy"; "slobber"; "find"; "refuge"; "find"; "shelter"; "dance"; "retch"; "vomit"; "defecate"; "erect";
   "a"; "strip"; "mall"; "build"; "a"; "26"; "have"; "a"; "religious"; "experience"; "discharge"; "bodily"; "waste";
   "fart"; "dance"; "drool"; "lambada"; "spill"; "16"; "rusty"; "tacks"; "bite"; "you"; "sneeze"; "sing"; "16";
   "campfire"; "songs"; "smite"; "you"; "16"; "times"; "construct"; "a"; "new"; "home"; "throw"; "a"; "party";
   "procreate"].
Definition bad_actionLoc : list Z :=
  [25; 0; 1; 2; 3; 5; 7; 8; 9; 10; 11; 15; 18; 22; 25; 26; 27; 28; 29; 33; 35; 36; 40; 44; 48; 51; 52].
Definition beasties : list string :=
  ["yaks"; "22"; "maggots"; "22"; "cockroaches"; "stinging"; "scorpions"; "fleas"; "22"; "weasels"; "22"; "gnats";
   "South"; "American"; "killer"; "bees"; "spiders"; "4"; "monkeys"; "22"; "wiener-dogs"; "22"; "rats"; "22";
   "wolverines"; "4"; ","; "22"; "pit-fiends"].
Definition beastiesLoc : list Z :=
  [14; 0; 1; 3; 5; 7; 8; 10; 12; 16; 17; 19; 21; 23; 25; 29].
Definition condition : list string :=
  ["frothing"; "manic"; "crazed"; "plague-ridden"; "disease-carrying"; "biting"; "rabid"; "blood-thirsty";
   "ravaging"; "slavering"].
Definition conditionLoc : list Z :=
  [10; 0; 1; 2; 3; 4; 5; 6; 7; 8; 9; 10].
Definition place : list string :=
  ["in"; "24"; "25"; "upon"; "your"; "mother's"; "grave"; "on"; "24"; "best"; "rug"; "in"; "the"; "26"; "you";
   "call"; "home"; "upon"; "your"; "heinie"].
Definition placeLoc : list Z :=
  [5; 0; 3; 7; 11; 17; 20].
Definition relation : list string :=
  ["your"; "your"; "your"; "your"; "father's"; "your"; "mother's"; "your"; "grandma's"].
Definition relationLoc : list Z :=
  [6; 0; 1; 2; 3; 5; 7; 9].
Definition in_something : list string :=
  ["entrails"; "anal"; "cavity"; "shoes"; "house"; "pantry"; "general"; "direction"; "pants"; "bed"].
Definition in_somethingLoc : list Z :=
  [8; 0; 1; 3; 4; 5; 6; 8; 9; 10].
Definition bad_place : list string :=
  ["rat"; "hole"; "sewer"; "toxic"; "dump"; "oil"; "refinery"; "landfill"; "porto-pottie"].
Definition bad_placeLoc : list Z :=
  [6; 0; 2; 3; 5; 7; 8; 9].

Definition daGrammar : list (list string) :=
  [start; adj; adj3; adj1; adj2; name; stuff; noun_and_prep; organics; body_parts; noun; animal; good_verb;
   curse; afflictors; quantity; numbers; adv; metaphor; force; bad_action; beasties; condition; place;
   relation; in_something; bad_place].
Definition daGLoc : list (list Z) :=
  [startLoc; adjLoc; adj3Loc; adj1Loc; adj2Loc; nameLoc; stuffLoc; noun_and_prepLoc; organicsLoc;
   body_partsLoc; nounLoc; animalLoc; good_verbLoc; curseLoc; afflictorsLoc; quantityLoc; numbersLoc; advLoc;
   metaphorLoc; forceLoc; bad_actionLoc; beastiesLoc; conditionLoc; placeLoc; relationLoc; in_somethingLoc;
   bad_placeLoc].
Close Scope string_scope.

(** A string in memory handed to [atoi]. *)
Definition atoi_of (s : list Z) : res Z :=
  '(v, _) ← StdlibC.atoi 1 (list_to_map (zip (seqZ 1 (Z.of_nat (S (length s)))) (s ++ [0]))); Ok v.

Section insult.
Context {W : Type} `{!UserOS W} (junk : list Z) (depth : nat).

Notation world := (W * Random.prng)%type.

Definition os {A} (op : st W A) : st world A := λ w, '(a, w') ← op (fst w); Ok (a, (w', snd w)).
Definition of_res {A} (r : res A) : st world A := λ w, a ← r; Ok (a, w).
Definition draw : st world Z := λ w, let '(v, g) := Random.random_ulong (snd w) in Ok (v, (fst w, g)).
Definition put_text (handle : Z) (format : string) (args : list Stdio.arg) : st world unit :=
  os (_ ← UserConsole.hprintf UserPrograms.write_out junk handle (Stdio.lit format) args; mret tt).
Definition at_ {A} (l : list A) (i : Z) : st world A := if i <? 0 then st_err BadAddr else st_of_option BadAddr (l !! Z.to_nat i).

(** The loop of [expand] with [n] words to go from [i] on; [rec] expands another entry. *)
Fixpoint words_loop (rec : Z → st world unit) (n : nat) (i : Z) (words : list string) (handle : Z) : st world unit :=
  match n with
  | O => mret tt
  | S n =>
    w ← at_ words i;
    let word := Stdio.chars w in
    let c := default 0 (head word) in
    (if negb (StdlibC.isdigit c) then
       (if negb (Ctype.ispunct c) then put_text handle " " [] else mret tt);;
       put_text handle "%s" [UserPrograms.str word]
     else v ← of_res (atoi_of word); rec v);;
    words_loop rec n (i + 1) words handle
  end.

Fixpoint expand (k : nat) (num : Z) (grammar : list (list string)) (location : list (list Z)) (handle : Z) : st world unit :=
  match k with
  | O => st_err NoFuel
  | S k =>
    loc ← at_ location num;
    r ← draw;
    n ← at_ loc 0;
    if n =? 0 then st_err Trap else
    let which := i32 (r mod u64 n + 1) in
    listStart ← at_ loc which;
    listEnd ← at_ loc (which + 1);
    words ← (if listStart <? listEnd then at_ grammar num else mret []);
    words_loop (λ v, expand k v grammar location handle) (Z.to_nat (listEnd - listStart)) listStart words handle
  end.

(** The status [exit] is called with. *)
Definition insult_usage (ret_code : Z) (message : option string) : st world Z :=
  (if message is Some m then put_text STDOUT_FILENO m [] else mret tt);;
  put_text STDOUT_FILENO "
Usage: insult [OPTION]...
Prints random insults to screen.

  -h:               this help message
  -s <integer>:     set the random seed (default 4951)
  -n <integer>:     choose number of insults (default 4)
  -f <file>:        redirect output to <file>
" [];;
  mret ret_code.

Record options := Options { new_seed : Z; sentence_cnt : Z; handle : Z; seed_flag : bool; sent_flag : bool; file_flag : bool }.

Definition quit (op : st world Z) : st world (Z + options) := code ← op; mret (inl code).

(** The loop over the arguments: a status to exit with, or the options. *)
Fixpoint options_loop (first : list Z) (args : list (list Z)) (o : options) : st world (Z + options) :=
  match args with
  | [] => mret (inr o)
  | arg :: args =>
    if decide (first = Stdio.chars "-h") then quit (insult_usage 0 None)
    else if decide (arg = Stdio.chars "-s") then
      if seed_flag o then quit (insult_usage (-1) (Some "Can't have more than one seed")) else
      match args with
      | [] => quit (insult_usage (-1) (Some "Missing value for -s"))
      | value :: args =>
        v ← of_res (atoi_of value);
        options_loop first args (Options v (sentence_cnt o) (handle o) true (sent_flag o) (file_flag o))
      end
    else if decide (arg = Stdio.chars "-n") then
      if sent_flag o then quit (insult_usage (-1) (Some "Can't have more than one sentence option")) else
      match args with
      | [] => quit (insult_usage (-1) (Some "Missing value for -n"))
      | value :: args =>
        v ← of_res (atoi_of value);
        if v <? 1 then quit (insult_usage (-1) (Some "Must have at least one sentence")) else
        options_loop first args (Options (new_seed o) v (handle o) (seed_flag o) true (file_flag o))
      end
    else if decide (arg = Stdio.chars "-f") then
      if file_flag o then quit (insult_usage (-1) (Some "Can't have more than one output file")) else
      match args with
      | [] => quit (insult_usage (-1) (Some "Missing value for -f"))
      | value :: args =>
        os (sys_create value 0);;
        h ← os (sys_open value);
        if h <? 0 then quit (os (UserPrograms.printf junk "%s: open failed
" [UserPrograms.str value]);; mret EXIT_FAILURE) else
        options_loop first args (Options (new_seed o) (sentence_cnt o) h (seed_flag o) (sent_flag o) true)
      end
    else quit (insult_usage (-1) (Some "Unrecognized flag"))
  end.

Fixpoint sentences (n : nat) (handle : Z) : st world unit :=
  match n with
  | O => mret tt
  | S n =>
    put_text handle "
" [];;
    expand depth 0 daGrammar daGLoc handle;;
    put_text handle "

" [];;
    sentences n handle
  end.

Definition insult_main (argv : list (list Z)) : st world Z :=
  r ← options_loop (default [] (argv !! 1%nat)) (tail argv) (Options 4951 4 STDOUT_FILENO false false false);
  match r with
  | inl code => mret code
  | inr o =>
    st_modify (λ w, (fst w, Random.random_init (u32 (new_seed o)) (snd w)));;
    put_text (handle o) "
" [];;
    sentences (Z.to_nat (sentence_cnt o)) (handle o);;
    (if file_flag o then os (sys_close (handle o)) else mret tt);;
    mret EXIT_SUCCESS
  end.

End insult.
End Insult.

(** examples/insult.c prints sentences of its grammar and stays inside its tables. *)
Import UserFiles UserProgramTheorems Insult.
Local Open Scope Z_scope.

Module InsultTheorems.

(** ** The language of a grammar *)

Section language.
Context (grammar : list (list string)) (location : list (list Z)).

Definition numeral (word : list Z) : bool := StdlibC.isdigit (default 0 (head word)).

Inductive derives : Z → list (list Z) → Prop :=
  | derives_alternative num loc n which a b words ws :
      location !! Z.to_nat num = Some loc → loc !! 0%nat = Some n → 1 ≤ which ≤ n →
      loc !! Z.to_nat which = Some a → loc !! Z.to_nat (which + 1) = Some b → grammar !! Z.to_nat num = Some words →
      phrase (take (Z.to_nat (b - a)) (drop (Z.to_nat a) words)) ws → derives num ws
with phrase : list string → list (list Z) → Prop :=
  | phrase_nil : phrase [] []
  | phrase_word w l ws : numeral (Stdio.chars w) = false → phrase l ws → phrase (w :: l) (Stdio.chars w :: ws)
  | phrase_entry w l num ws1 ws2 : numeral (Stdio.chars w) = true → atoi_of (Stdio.chars w) = Ok num →
      derives num ws1 → phrase l ws2 → phrase (w :: l) (ws1 ++ ws2).

(** A blank in front of every word that is not punctuation. *)
Definition render (ws : list (list Z)) : list Z :=
  concat ((λ w, (if Ctype.ispunct (default 0 (head w)) then [] else [32]) ++ w) <$> ws).

(** ** Tables that fit together *)

Definition word_ok (w : string) : bool :=
  let word := Stdio.chars w in
  if numeral word then
    match atoi_of word with Ok v => (0 <=? v) && (v <? Z.of_nat (length location)) | Err _ => false end
  else match Stdio.__printf (Stdio.lit "%s") [UserPrograms.str word] with Ok t => bool_decide (t = word) | Err _ => false end && (length word <? 1000)%nat.

Definition entry_ok (words : list string) (loc : list Z) : bool :=
  match loc with
  | [] => false
  | n :: offsets =>
    (0 <? n) && (n <? 128) && (Z.of_nat (length offsets) =? n + 1)
    && forallb (λ o, (0 <=? o) && (o <=? Z.of_nat (length words))) offsets && forallb word_ok words
  end.

Definition grammar_ok : bool :=
  (length grammar =? length location)%nat && forallb (λ '(words, loc), entry_ok words loc) (zip grammar location).

Lemma grammar_entry num : grammar_ok = true → 0 ≤ num < Z.of_nat (length location) →
  ∃ words loc, grammar !! Z.to_nat num = Some words ∧ location !! Z.to_nat num = Some loc ∧ entry_ok words loc = true.
Proof.
  intros [Hl Hf]%andb_prop Hn. apply Nat.eqb_eq in Hl. destruct (lookup_lt_is_Some_2 grammar (Z.to_nat num)) as [words Hw]; [lia|].
  destruct (lookup_lt_is_Some_2 location (Z.to_nat num)) as [loc Hloc]; [lia|]. exists words, loc. split; [done|]. split; [done|].
  rewrite forallb_forall in Hf. apply (Hf (words, loc)). apply list_elem_of_In, list_elem_of_lookup. exists (Z.to_nat num). apply lookup_zip_with_Some. by exists words, loc.
Qed.

(** The alternative a draw selects. *)
Lemma alternative_ok words loc r : entry_ok words loc = true →
  ∃ n a b, loc !! 0%nat = Some n ∧ 0 < n < 128 ∧ let which := i32 (r mod u64 n + 1) in
    1 ≤ which ≤ n ∧ loc !! Z.to_nat which = Some a ∧ loc !! Z.to_nat (which + 1) = Some b ∧
    0 ≤ a ≤ Z.of_nat (length words) ∧ 0 ≤ b ≤ Z.of_nat (length words).
Proof.
  destruct loc as [|n offs]; [done|]. unfold entry_ok. intros H. repeat (apply andb_prop in H as [H ?]).
  apply Z.ltb_lt in H. match goal with H : (n <? 128) = true |- _ => apply Z.ltb_lt in H end. match goal with H : (_ =? n + 1) = true |- _ => apply Z.eqb_eq in H; rename H into Hlen end.
  match goal with H : forallb _ offs = true |- _ => rename H into Ho end. rewrite forallb_forall in Ho.
  assert (Hu : u64 n = n) by (apply Z.mod_small; lia). pose proof (Z.mod_pos_bound r n ltac:(lia)) as Hr.
  assert (Hi : i32 (r mod u64 n + 1) = r mod n + 1) by (rewrite Hu; apply i32_small; lia).
  destruct (lookup_lt_is_Some_2 offs (Z.to_nat (r mod n))) as [a Ha]; [lia|]. destruct (lookup_lt_is_Some_2 offs (Z.to_nat (r mod n + 1))) as [b Hb]; [lia|].
  assert (Hin : ∀ i o, offs !! i = Some o → 0 ≤ o ≤ Z.of_nat (length words)).
  { intros i o Hio. apply list_elem_of_lookup_2, list_elem_of_In, Ho, andb_prop in Hio as [? ?]. lia. }
  exists n, a, b. split; [done|]. split; [lia|]. cbv zeta. rewrite Hi. split; [lia|].
  split; [by replace (Z.to_nat (r mod n + 1)) with (S (Z.to_nat (r mod n))) by lia|].
  split; [by replace (Z.to_nat (r mod n + 1 + 1)) with (S (Z.to_nat (r mod n + 1))) by lia|]. split; by eapply Hin.
Qed.

(** ** The program *)

Context {W : Type} `{!UserOS W} `{!UserFileLaws W} (junk : list Z).
Hypothesis Hjunk : length junk = UserConsole.BUF_SIZE.
Hypothesis Hok : grammar_ok = true.

Lemma os_ok {A} (op : st W A) w a w' : op (fst w) = Ok (a, w') → os op w = Ok (a, (w', snd w)).
Proof. unfold os. by intros ->. Qed.

Lemma at_ok {A} (l : list A) i x (w : W * Random.prng) : 0 ≤ i → l !! Z.to_nat i = Some x → at_ l i w = Ok (x, w).
Proof. intros Hi Hx. unfold at_. by rewrite (proj2 (Z.ltb_ge i 0)), Hx by lia. Qed.

Lemma hprintf_printf format args :
  (_ ← UserConsole.hprintf UserPrograms.write_out junk STDOUT_FILENO (Stdio.lit format) args; mret tt) = UserPrograms.printf (W := W) junk format args.
Proof. unfold UserPrograms.printf, UserConsole.vprintf, UserConsole.hprintf. by change UserConsole.STDOUT_FILENO with STDOUT_FILENO. Qed.

Lemma hprintf_out format args text w : Stdio.__printf (Stdio.lit format) args = Ok text → Z.of_nat (length text) < 2 ^ 31 →
  ∃ w', put_text junk STDOUT_FILENO format args w = Ok (tt, (w', snd w)) ∧ look w' = set_console (console (look (fst w)) ++ text) (look (fst w)).
Proof.
  intros Ht Hl. destruct (user_printf_ok junk Hjunk format args text (fst w) Ht Hl) as (w' & H1 & L1). exists w'. split; [|done].
  unfold put_text. rewrite hprintf_printf. by apply os_ok.
Qed.

(** What a call may do: run out of depth, or print one of the phrases [P] allows. *)
Definition says (P : list (list Z) → Prop) (w : W * Random.prng) (r : res (unit * (W * Random.prng))) : Prop :=
  r = Err NoFuel ∨ ∃ ws w', r = Ok (tt, w') ∧ P ws ∧ look (fst w') = set_console (console (look (fst w)) ++ render ws) (look (fst w)).

Lemma render_app ws1 ws2 : render (ws1 ++ ws2) = render ws1 ++ render ws2.
Proof. unfold render. by rewrite fmap_app, concat_app. Qed.

Lemma says_bind P Q R (f g : st (W * Random.prng) unit) w : says P w (f w) → (∀ w', says Q w' (g w')) → (∀ ws1 ws2, P ws1 → Q ws2 → R (ws1 ++ ws2)) → says R w ((f;; g) w).
Proof.
  intros [Hf|(ws1 & w1 & Hf & HP & L1)] Hg HR; [left; by apply st_bind_err|]. rewrite (st_bind_ok _ _ _ _ _ Hf).
  destruct (Hg w1) as [Hg'|(ws2 & w2 & Hg' & HQ & L2)]; [by left|]. right. exists (ws1 ++ ws2), w2. split; [done|]. split; [by apply HR|].
  rewrite L2, L1, render_app. unfold set_console. simpl. by rewrite app_assoc.
Qed.

Lemma word_says word w : Stdio.__printf (Stdio.lit "%s") [UserPrograms.str word] = Ok word → (length word < 1000)%nat →
  says (λ ws, ws = [word]) w (((if negb (Ctype.ispunct (default 0 (head word))) then put_text junk STDOUT_FILENO " " [] else mret tt);;
    put_text junk STDOUT_FILENO "%s" [UserPrograms.str word]) w).
Proof.
  intros Hp Hl. right. exists [word]. unfold render. cbn [fmap list_fmap concat]. rewrite app_nil_r. destruct (Ctype.ispunct _); cbn [negb].
  - destruct (hprintf_out "%s" [UserPrograms.str word] word w Hp ltac:(lia)) as (w1 & H1 & L1). eexists. split; [rewrite (st_bind_ok _ _ w tt w) by done; exact H1|]. by split.
  - destruct (hprintf_out " " [] [32] w eq_refl ltac:(simpl; lia)) as (w1 & H1 & L1). rewrite (st_bind_ok _ _ _ _ _ H1).
    destruct (hprintf_out "%s" [UserPrograms.str word] word (w1, snd w) Hp ltac:(lia)) as (w2 & H2 & L2). eexists. split; [exact H2|]. split; [done|].
    cbn [fst] in *. rewrite L2, L1. unfold set_console. simpl. by rewrite <- app_assoc.
Qed.

Lemma words_loop_says rec words : forallb word_ok words = true →
  (∀ num w, 0 ≤ num < Z.of_nat (length location) → says (derives num) w (rec num w)) →
  ∀ n i w, 0 ≤ i → (Z.to_nat i + n ≤ length words)%nat →
  says (phrase (take n (drop (Z.to_nat i) words))) w (words_loop junk rec n i words STDOUT_FILENO w).
Proof.
  intros Hws Hrec. induction n as [|n IH]; intros i w Hi Hn; cbn [words_loop].
  { right. exists [], w. split; [done|]. split; [constructor|]. cbn. rewrite app_nil_r. by destruct (look (fst w)). }
  destruct (lookup_lt_is_Some_2 words (Z.to_nat i)) as [x Hx]; [lia|]. rewrite (st_bind_ok _ _ _ _ _ (at_ok words i x w Hi Hx)), (drop_S _ _ _ Hx). cbn [take].
  assert (Hxok : word_ok x = true) by (rewrite forallb_forall in Hws; by apply Hws, list_elem_of_In, list_elem_of_lookup_2 in Hx || (apply Hws, list_elem_of_In; by eapply list_elem_of_lookup_2)).
  unfold word_ok in Hxok. fold (numeral (Stdio.chars x)). cbv zeta.
  assert (Hrest : ∀ w', says (phrase (take n (drop (S (Z.to_nat i)) words))) w' (words_loop junk rec n (i + 1) words STDOUT_FILENO w')).
  { intros w'. replace (S (Z.to_nat i)) with (Z.to_nat (i + 1)) by lia. apply IH; lia. }
  destruct (numeral (Stdio.chars x)) eqn:Hd; cbn [negb].
  - destruct (atoi_of (Stdio.chars x)) as [v|] eqn:Ha; [|done]. apply andb_prop in Hxok as [Hv0%Z.leb_le Hv%Z.ltb_lt].
    eapply (says_bind (derives v)); [|exact Hrest|intros ws1 ws2 H1 H2; by eapply phrase_entry]. rewrite (st_bind_ok (of_res (Ok v)) _ w v w) by done. by apply Hrec.
  - destruct (Stdio.__printf _ _) as [t|] eqn:Hp; [|done]. apply andb_prop in Hxok as [->%bool_decide_eq_true Hl%Nat.ltb_lt].
    eapply (says_bind (λ ws, ws = [Stdio.chars x])); [by apply word_says|exact Hrest|intros ws1 ws2 -> H2; by constructor].
Qed.

(** [expand] from an entry of the tables, whatever the generator draws: it accesses the
    tables inside their bounds only, and, unless the draws nest deeper than [k] calls, it
    returns and has printed a sentence that the grammar derives from the entry. *)
Theorem expand_prints_sentence k : ∀ num w, 0 ≤ num < Z.of_nat (length location) →
  says (derives num) w (expand junk k num grammar location STDOUT_FILENO w).
Proof.
  induction k as [|k IH]; intros num w Hnum; cbn [expand]; [by left|].
  destruct (grammar_entry num Hok Hnum) as (words & loc & Hg & Hloc & He). rewrite (st_bind_ok _ _ _ _ _ (at_ok _ _ _ w (proj1 Hnum) Hloc)).
  unfold draw at 1, mbind at 1, st_bind at 1.
  destruct (Random.random_ulong (snd w)) as [r g]. destruct (alternative_ok words loc r He) as (n & a & b & Hn & Hn0 & Hwhich & Ha & Hb & Hra & Hrb).
  cbv zeta in *. set (w1 := (fst w, g)). rewrite (st_bind_ok _ _ _ _ _ (at_ok loc 0 n w1 ltac:(lia) Hn)).
  rewrite (proj2 (Z.eqb_neq n 0)) by lia. cbv zeta. set (which := i32 (r mod u64 n + 1)) in *.
  rewrite (st_bind_ok _ _ _ _ _ (at_ok loc which a w1 ltac:(lia) Ha)), (st_bind_ok _ _ _ _ _ (at_ok loc (which + 1) b w1 ltac:(lia) Hb)).
  assert (Hsay : says (derives num) w1 (words_loop junk (λ v, expand junk k v grammar location STDOUT_FILENO) (Z.to_nat (b - a)) a (if a <? b then words else []) STDOUT_FILENO w1)).
  2:{ destruct (a <? b); [rewrite (st_bind_ok _ _ _ _ _ (at_ok grammar num words w1 (proj1 Hnum) Hg))|rewrite (st_bind_ok (mret []) _ w1 [] w1) by done]; exact Hsay. }
  assert (Hwords : forallb word_ok words = true) by (destruct loc; [done|]; unfold entry_ok in He; by apply andb_prop in He as [_ ?]).
  assert (Hph : says (phrase (take (Z.to_nat (b - a)) (drop (Z.to_nat a) words))) w1
    (words_loop junk (λ v, expand junk k v grammar location STDOUT_FILENO) (Z.to_nat (b - a)) a (if a <? b then words else []) STDOUT_FILENO w1)).
  { destruct (Z.ltb_spec a b); [apply words_loop_says; [done|exact IH|lia|lia]|]. replace (Z.to_nat (b - a)) with 0%nat by lia. cbn [words_loop take].
    right. exists [], w1. split; [done|]. split; [constructor|]. cbn. rewrite app_nil_r. by destruct (look (fst w)). }
  destruct Hph as [Hf|(ws & w' & Hf & HP & L)]; [by left|]. right. exists ws, w'. split; [done|]. split; [|exact L]. by econstructor.
Qed.

End language.

(** ** The tables of the program *)

Lemma tables_ok : grammar_ok daGrammar daGLoc = true.
Proof. vm_compute. reflexivity. Qed.

Theorem insult_sentence {W : Type} `{!UserOS W} `{!UserFileLaws W} junk k w : length junk = UserConsole.BUF_SIZE →
  says (derives daGrammar daGLoc 0) w (expand junk k 0 daGrammar daGLoc STDOUT_FILENO w).
Proof. intros Hj. apply expand_prints_sentence; [done|exact tables_ok|vm_compute; split; [discriminate|reflexivity]]. Qed.

(** ** Runs *)

Definition start_world : view * Random.prng := (View ∅ ∅ [], Random.Prng [] 0 0 false).
Definition run (args : list string) : option (Z * list Z) :=
  match insult_main (repeat 0 64) 6 (Stdio.chars <$> args) start_world with Ok (v, w) => Some (v, console (fst w)) | Err _ => None end.

(** Without options: four sentences, in at most six nested calls. *)
Example insult_default : ∃ text, run ["insult"] = Some (0, text) ∧ take 67 text = [10; 10] ++ Stdio.chars " With the power of a pissed-off Jabberwock, may a putrefied heard".
Proof. eexists. split; vm_compute; reflexivity. Qed.

(** The help option is looked for in the first argument only. *)
Example insult_help_second : ∃ text, run ["insult"; "-n"; "1"; "-h"] = Some (-1, Stdio.chars "Unrecognized flag" ++ text).
Proof. eexists. vm_compute. reflexivity. Qed.

End InsultTheorems.
