(* ===== verification/Listing.v ===== *)
(** examples/: ls, mkdir, halt and recursor.

    [ListOS] is the system calls they use.  The array [name] of [list_dir] is its
    READDIR_MAX_LEN bytes; [entries] bounds the number of entries of a directory.
    [snprintf] of lib/stdio.c is run on a memory that holds the array. *)

From S2P Require Import Prelude StringC StdlibC Stdio UserLib UserPrograms UserProgramTheorems Pwd Insult.
Import UserFiles.
Local Open Scope Z_scope.

Module Listing.

Class ListOS (W : Type) := {
  ls_dirs :: Pwd.DirOS W;
  ls_write : Z → list Z → st W unit;
  ls_isdir : Z → st W bool;
  ls_filesize : Z → st W Z;
  ls_mkdir : list Z → st W bool;
  ls_exec : list Z → st W Z;
  ls_wait : Z → st W Z;
  ls_halt : st W unit }.

(** The string [snprintf] leaves in an array that held [array]. *)
Definition snprintf_in (array : list Z) (format : string) (args : list Stdio.arg) : res (list Z) :=
  let addrs := seqZ 1 (Z.of_nat (length array)) in
  '(_, m) ← Stdio.snprintf 1 (Z.of_nat (length array)) (Stdio.lit format) args (list_to_map (zip addrs array));
  match Pwd.string_of ((λ a, default 0 (m !! a)) <$> addrs) with Some s => Ok s | None => Err BadAddr end.

Section programs.
Context {W : Type} `{!ListOS W} (junk : list Z) (entries : nat).

Definition printf (format : string) (args : list Stdio.arg) : st W unit :=
  _ ← UserConsole.vprintf ls_write junk (Stdio.lit format) args; mret tt.
Definition of_res {A} (r : res A) : st W A := λ w, a ← r; Ok (a, w).

(** ** ls.c *)

(** What -l adds behind a name; [junk_full] is what [full_name] holds at first. *)
Definition describe (junk_full dir name : list Z) : st W unit :=
  full_name ← of_res (snprintf_in junk_full "%s/%s" [UserPrograms.str dir; UserPrograms.str name]);
  entry_fd ← Pwd.dir_open full_name;
  printf ": " [];;
  (if negb (entry_fd =? -1) then
     d ← ls_isdir entry_fd;
     (if d : bool then printf "directory" []
      else size ← ls_filesize entry_fd; printf "%d-byte file" [Stdio.Int size]);;
     i ← Pwd.dir_inumber entry_fd;
     printf ", inumber %d" [Stdio.Int i]
   else printf "open failed" []);;
  Pwd.dir_close entry_fd.

Fixpoint list_loop (k : nat) (junk_full dir : list Z) (dir_fd : Z) (verbose : bool) (name : list Z) : st W unit :=
  match k with
  | O => st_err NoFuel
  | S k =>
    e ← Pwd.dir_readdir dir_fd;
    match e with
    | None => mret tt
    | Some entry =>
      name ← Pwd.poke name 0 (entry ++ [0]);
      s ← Pwd.string_at name 0;
      printf "%s" [UserPrograms.str s];;
      (if verbose then describe junk_full dir s else mret tt);;
      printf "
" [];;
      list_loop k junk_full dir dir_fd verbose name
    end
  end.

Definition list_dir (junk_name junk_full dir : list Z) (verbose : bool) : st W bool :=
  dir_fd ← Pwd.dir_open dir;
  if dir_fd =? -1 then
    printf "%s: not found
" [UserPrograms.str dir];;
    mret false
  else
    d ← ls_isdir dir_fd;
    (if d : bool then
       printf "%s" [UserPrograms.str dir];;
       (if verbose then i ← Pwd.dir_inumber dir_fd; printf " (inumber %d)" [Stdio.Int i] else mret tt);;
       printf ":
" [];;
       list_loop entries junk_full dir dir_fd verbose junk_name
     else printf "%s: not a directory
" [UserPrograms.str dir]);;
    Pwd.dir_close dir_fd;;
    mret true.

Fixpoint list_dirs (junk_name junk_full : list Z) (dirs : list (list Z)) (verbose success : bool) : st W bool :=
  match dirs with
  | [] => mret success
  | dir :: dirs => ok ← list_dir junk_name junk_full dir verbose; list_dirs junk_name junk_full dirs verbose (success && ok)
  end.

Definition ls_main (junk_name junk_full : list Z) (argv : list (list Z)) : st W Z :=
  let verbose := bool_decide (argv !! 1%nat = Some (Stdio.chars "-l")) in
  let dirs := if verbose then drop 2 argv else drop 1 argv in
  success ← (match dirs with
             | [] => list_dir junk_name junk_full (Stdio.chars ".") verbose
             | _ => list_dirs junk_name junk_full dirs verbose true
             end);
  mret (UserPrograms.status success).

(** ** mkdir.c *)

Definition mkdir_main (argv : list (list Z)) : st W Z :=
  match argv with
  | [_; dir] =>
    ok ← ls_mkdir dir;
    if ok : bool then mret EXIT_SUCCESS else printf "%s: mkdir failed
" [UserPrograms.str dir];; mret EXIT_FAILURE
  | _ => printf "usage: %s DIRECTORY
" [UserPrograms.str (default [] (head argv))];; mret EXIT_FAILURE
  end.

(** ** halt.c *)

Definition halt_main : st W unit := ls_halt.

(** ** recursor.c *)

(** [argv] of four strings; [buffer] is what the array holds at first. *)
Definition recursor_main (buffer : list Z) (argv : list (list Z)) : st W Z :=
  match argv with
  | [a0; a1; a2; a3] =>
    printf "%s %s %s %s
" (UserPrograms.str <$> argv);;
    d ← of_res (Insult.atoi_of a2);
    retval ← (if negb (d =? 0) then
                command ← of_res (snprintf_in buffer "recursor %s %d %s" [UserPrograms.str a1; Stdio.Int (i32 (d - 1)); UserPrograms.str a3]);
                pid ← ls_exec command;
                waitp ← of_res (Insult.atoi_of a3);
                if negb (waitp =? 0) then ls_wait pid else mret 0
              else mret 0);
    printf "%s %s: dying, retval=%d
" [UserPrograms.str a1; UserPrograms.str a2; Stdio.Int retval];;
    mret retval
  | _ => printf "usage: recursor <string> <depth> <waitp>
" [];; mret 1
  end.

End programs.
End Listing.

(** examples/ls.c lists a directory. *)
Import UserFiles Listing PwdTheorems.
Local Open Scope Z_scope.

Module ListingTheorems.

(** ** What the program relies on *)

Class ListLaws (W : Type) `{!ListOS W} := {
  screen : W → list Z;
  listing : W → gmap Z (list (list Z));
  law_screen l w : ∃ w', ls_write STDOUT_FILENO l w = Ok (tt, w') ∧ screen w' = screen w ++ l ∧ listing w' = listing w;
  law_isdir fd w : is_Some (listing w !! fd) → ls_isdir fd w = Ok (true, w);
  law_entry fd w nm names : listing w !! fd = Some (nm :: names) →
    ∃ w', Pwd.dir_readdir fd w = Ok (Some nm, w') ∧ screen w' = screen w ∧ listing w' = <[fd := names]> (listing w);
  law_end fd w : listing w !! fd = Some [] → Pwd.dir_readdir fd w = Ok (None, w);
  law_done fd w : ∃ w', Pwd.dir_close fd w = Ok (tt, w') ∧ screen w' = screen w ∧ listing w' = delete fd (listing w) }.

Section laws.
Context {W : Type} `{!ListOS W} `{!ListLaws W} (junk : list Z).
Hypothesis Hjunk : length junk = UserConsole.BUF_SIZE.

(** From [w] to [w'] the text has appeared and nothing else has happened. *)
Definition shows (text : list Z) (w w' : W) : Prop := screen w' = screen w ++ text ∧ listing w' = listing w.

Lemma shows_app t1 t2 w w1 w2 : shows t1 w w1 → shows t2 w1 w2 → shows (t1 ++ t2) w w2.
Proof. intros [H1 L1] [H2 L2]. split; [by rewrite H2, H1, app_assoc|congruence]. Qed.

Lemma write_all_shows ps : ∀ w, ∃ w', UserConsole.write_all ls_write STDOUT_FILENO ps w = Ok (tt, w') ∧ shows (concat ps) w w'.
Proof.
  induction ps as [|l ps IH]; intros w; cbn [UserConsole.write_all concat]; [exists w; split; [done|]; split; [by rewrite app_nil_r|done]|].
  destruct (law_screen l w) as (w1 & H1 & L1). rewrite (st_bind_ok _ _ _ _ _ H1). destruct (IH w1) as (w2 & H2 & L2). exists w2. split; [done|]. by eapply shows_app.
Qed.

Lemma printf_shows format args text w : Stdio.__printf (Stdio.lit format) args = Ok text → Z.of_nat (length text) < 2 ^ 31 →
  ∃ w', printf junk format args w = Ok (tt, w') ∧ shows text w w'.
Proof.
  intros Ht Hl. destruct (write_all_shows (UserConsole.pieces [] text) w) as (w' & H1 & L1). rewrite UserConsole.pieces_concat in L1. exists w'. split; [|done].
  unfold printf. rewrite (st_bind_ok _ _ _ (Z.of_nat (length text)) w'); [done|]. unfold UserConsole.vprintf.
  rewrite (UserConsole.vhprintf_ok ls_write junk _ _ _ text w Hjunk Ht Hl). change UserConsole.STDOUT_FILENO with STDOUT_FILENO. by rewrite (st_bind_ok _ _ _ _ _ H1).
Qed.

Lemma printf_string s w : UserProgramTheorems.name_ok s → ∃ w', printf junk "%s" [UserPrograms.str s] w = Ok (tt, w') ∧ shows s w w'.
Proof.
  intros Hs. apply printf_shows; [|destruct Hs as [_ Hs]; lia]. rewrite <- (app_nil_r s) at 2. change (@nil Z) with (Stdio.chars "").
  apply (UserProgramTheorems.printf_name_then junk Hjunk ""); [|done]. intros z. lazy -[Stdio.strnlen_bytes Stdio.format_string]. by destruct (Stdio.strnlen_bytes _ _).
Qed.

(** ** The listing *)

Definition lines (names : list (list Z)) : list Z := concat ((λ nm, nm ++ [10]) <$> names).

Lemma list_loop_ok junk_full dir fd names : ∀ k name w, listing w !! fd = Some names → (length names < k)%nat → length name = Pwd.READDIR_MAX_LEN →
  Forall (λ nm, text nm ∧ (length nm < Pwd.READDIR_MAX_LEN)%nat) names →
  ∃ w', list_loop junk k junk_full dir fd false name w = Ok (tt, w') ∧ screen w' = screen w ++ lines names ∧ listing w' = <[fd := []]> (listing w).
Proof.
  induction names as [|nm names IH]; intros [|k] name w Ho Hk Hn Hall; simpl in Hk; try lia; cbn [list_loop].
  { rewrite (st_bind_ok _ _ _ _ _ (law_end fd w Ho)). exists w. split; [done|]. unfold lines. simpl. rewrite app_nil_r, insert_id; done. }
  apply Forall_cons in Hall as [[Ht Hl] Hall]. destruct (law_entry fd w nm names Ho) as (w1 & H1 & S1 & L1). rewrite (st_bind_ok _ _ _ _ _ H1).
  unfold Pwd.READDIR_MAX_LEN in Hn, Hl.
  rewrite (st_bind_ok _ _ _ _ _ (poke_app [] name (nm ++ [0]) w1 ltac:(rewrite length_app; simpl; lia))). cbn [app]. rewrite <- app_assoc. cbn [app].
  rewrite (st_bind_ok _ _ _ _ _ (string_at_ok [] nm _ w1 Ht : Pwd.string_at (nm ++ 0 :: drop (length (nm ++ [0])) name) 0 w1 = Ok (nm, w1))).
  destruct (printf_string nm w1 ltac:(split; [done|lia])) as (w2 & H2 & P2). rewrite (st_bind_ok _ _ _ _ _ H2). rewrite (st_bind_ok (mret tt) _ w2 tt w2) by done.
  destruct (printf_shows "
" [] [10] w2 eq_refl ltac:(simpl; lia)) as (w3 & H3 & P3). rewrite (st_bind_ok _ _ _ _ _ H3). destruct (shows_app _ _ _ _ _ P2 P3) as [S3 L3].
  destruct (IH k (nm ++ 0 :: drop (length (nm ++ [0])) name) w3) as (w4 & H4 & S4 & L4);
    [by rewrite L3, L1, lookup_insert_eq|lia|rewrite length_app; cbn [length]; rewrite length_drop, length_app; unfold Pwd.READDIR_MAX_LEN; simpl; lia|done|].
  exists w4. split; [done|]. rewrite S4, S3, S1, L4, L3, L1, insert_insert_eq. split; [|done]. unfold lines. cbn [fmap list_fmap concat]. by rewrite <- !app_assoc.
Qed.

(** ls.c's [list_dir] without -l, on a directory whose names have fewer than
    READDIR_MAX_LEN characters: it prints the directory's name, a colon and the
    entries in the order readdir gives them, one a line, and closes the descriptor. *)
Theorem list_dir_prints entries junk_name junk_full dir fd names w w1 : UserProgramTheorems.name_ok dir →
  Pwd.dir_open dir w = Ok (fd, w1) → 0 ≤ fd → listing w1 !! fd = Some names → (length names < entries)%nat →
  length junk_name = Pwd.READDIR_MAX_LEN → Forall (λ nm, text nm ∧ (length nm < Pwd.READDIR_MAX_LEN)%nat) names →
  ∃ w', list_dir junk entries junk_name junk_full dir false w = Ok (true, w') ∧
    screen w' = screen w1 ++ dir ++ [58; 10] ++ lines names ∧ listing w' = delete fd (listing w1).
Proof.
  intros Hdir Hopen Hfd Ho Hk Hn Hall. unfold list_dir. rewrite (st_bind_ok _ _ _ _ _ Hopen), (proj2 (Z.eqb_neq fd (-1))) by lia.
  rewrite (st_bind_ok _ _ _ _ _ (law_isdir fd w1 ltac:(by eexists))), st_bind_assoc.
  destruct (printf_string dir w1 Hdir) as (w2 & H2 & P2). rewrite (st_bind_ok _ _ _ _ _ H2), st_bind_assoc, (st_bind_ok (mret tt) _ w2 tt w2), st_bind_assoc by done.
  destruct (printf_shows ":
" [] [58; 10] w2 eq_refl ltac:(simpl; lia)) as (w3 & H3 & P3). rewrite (st_bind_ok _ _ _ _ _ H3). destruct (shows_app _ _ _ _ _ P2 P3) as [S3 L3].
  destruct (list_loop_ok junk_full dir fd names entries junk_name w3) as (w4 & H4 & S4 & L4); [by rewrite L3|done..|]. rewrite (st_bind_ok _ _ _ _ _ H4).
  destruct (law_done fd w4) as (w5 & H5 & S5 & L5). rewrite (st_bind_ok _ _ _ _ _ H5). exists w5. split; [done|].
  rewrite S5, S4, S3, L5, L4, L3, delete_insert_eq, <- !app_assoc. done.
Qed.

End laws.

(** ** Runs *)

Section sim.
Variable resolve : list Z → option node.

Definition sim_list : ListOS world := {|
  ls_dirs := sim_dir resolve;
  ls_write _ l := print_line l;
  ls_isdir fd := λ w, Ok (bool_decide (handles w !! fd ≠ None), w);
  ls_filesize fd := mret 0;
  ls_mkdir s := mret (bool_decide (resolve s = None));
  ls_exec s := mret (-1);
  ls_wait p := mret (-1);
  ls_halt := mret tt |}.

Program Definition sim_list_laws : @ListLaws world sim_list :=
  {| screen w := concat (console w); listing w := snd <$> handles w |}.
Next Obligation. intros l w. eexists. split; [done|]. simpl. rewrite concat_app. simpl. by rewrite app_nil_r. Qed.
Next Obligation.
  intros fd w [l Hl]. cbn [ls_isdir sim_list]. rewrite lookup_fmap in Hl. do 2 f_equal. apply bool_decide_eq_true. by destruct (handles w !! fd).
Qed.
Next Obligation.
  intros fd w nm names H. cbn beta in H. rewrite lookup_fmap in H. cbn. destruct (handles w !! fd) as [[i l]|]; [|done]. simpl in H. injection H as ->.
  eexists. split; [done|]. split; [done|]. simpl. by rewrite fmap_insert.
Qed.
Next Obligation. intros fd w H. cbn beta in H. rewrite lookup_fmap in H. cbn. destruct (handles w !! fd) as [[i l]|]; [|done]. simpl in H. by injection H as ->. Qed.
Next Obligation. intros fd w. cbn. eexists. split; [done|]. split; [done|]. simpl. by rewrite fmap_delete. Qed.

End sim.

(** The directory ".." of [PwdTheorems.home]. *)
Example ls_parent : ∃ w', ls_main (ListOS0 := sim_list home) (repeat 0 64) 5 (repeat 1 14) (repeat 1 128) [Stdio.chars "ls"; Stdio.chars ".."] (World ∅ []) = Ok (0, w') ∧
  concat (console w') = Stdio.chars "..:
al
ed
".
Proof. eexists. split; vm_compute; reflexivity. Qed.

Example ls_parent_long : ∃ w', ls_main (ListOS0 := sim_list home) (repeat 0 64) 5 (repeat 1 14) (repeat 1 128) [Stdio.chars "ls"; Stdio.chars "-l"; Stdio.chars ".."] (World ∅ []) = Ok (0, w') ∧
  concat (console w') = Stdio.chars ".. (inumber 2):
al: directory, inumber 4
ed: directory, inumber 3
".
Proof. eexists. split; vm_compute; reflexivity. Qed.

(** A name of READDIR_MAX_LEN characters, which readdir may return, does not fit in
    the array with its terminator. *)
Definition long_entry (s : list Z) : option node := if decide (s = [46]) then Some (1, [Stdio.chars "abcdefghijklmn"]) else None.

Example ls_overflows_name : ls_main (ListOS0 := sim_list long_entry) (repeat 0 64) 5 (repeat 1 14) (repeat 1 128) [Stdio.chars "ls"] (World ∅ []) = Err BadAddr.
Proof. vm_compute. reflexivity. Qed.

End ListingTheorems.
