(* ===== verification/Switch.v ===== *)
(** threads/thread.c, the assembly of [thread_launch] and [do_iret], and
    struct intr_frame of include/threads/interrupt.h: how the processor goes from one
    thread to another.

    The processor is its registers and a memory of 64-bit words; the code is the list of
    its instructions.  Every address the code uses is a multiple of 8 when the frames and
    the stacks are, so that two accesses meet in the whole word or not at all.  The
    operands %0 and %1 are values.  [addr i] is the address of instruction [i] of
    [thread_launch]'s code, [alu] the flags an addition leaves. *)

From S2P Require Import Prelude StringC StdlibC Stdio StdioTheorems.
Local Open Scope Z_scope.

Module Switch.

Inductive reg := R15 | R14 | R13 | R12 | R11 | R10 | R9 | R8 | RSI | RDI | RBP | RDX | RCX | RBX | RAX | RSP.
Inductive sreg := ES | DS | CS | SS.

#[export] Instance reg_eq_dec : EqDecision reg.
Proof. solve_decision. Defined.
#[export] Instance sreg_eq_dec : EqDecision sreg.
Proof. solve_decision. Defined.

(** ** struct intr_frame *)

Inductive field := Gp (r : reg) | F_es | F_pad1 | F_pad2 | F_ds | F_pad3 | F_pad4 | F_vec_no | F_error_code
  | F_rip | F_cs | F_pad5 | F_pad6 | F_eflags | F_rsp | F_ss | F_pad7 | F_pad8.

#[export] Instance field_eq_dec : EqDecision field.
Proof. solve_decision. Defined.

Definition gp_registers : list reg := [R15; R14; R13; R12; R11; R10; R9; R8; RSI; RDI; RBP; RDX; RCX; RBX; RAX].

(** The members with their sizes; the structures are packed. *)
Definition intr_frame : list (field * Z) :=
  ((λ r, (Gp r, 8)) <$> gp_registers) ++
  [(F_es, 2); (F_pad1, 2); (F_pad2, 4); (F_ds, 2); (F_pad3, 2); (F_pad4, 4); (F_vec_no, 8); (F_error_code, 8);
   (F_rip, 8); (F_cs, 2); (F_pad5, 2); (F_pad6, 4); (F_eflags, 8); (F_rsp, 8); (F_ss, 2); (F_pad7, 2); (F_pad8, 4)].

Fixpoint offset_in (l : list (field * Z)) (f : field) (o : Z) : Z :=
  match l with [] => o | (g, n) :: l => if decide (f = g) then o else offset_in l f (o + n) end.
Definition offsetof (f : field) : Z := offset_in intr_frame f 0.
Definition frame_size : Z := foldr (λ e n, snd e + n) 0 intr_frame.

(** ** The processor *)

Record cpu := Cpu { gp : reg → Z; sr : sreg → Z; rflags : Z; rip : Z; mem : Z → Z }.

Definition upd (m : Z → Z) (a v : Z) : Z → Z := λ x, if x =? a then v else m x.
Definition set_gp (r : reg) (v : Z) (s : cpu) : cpu :=
  Cpu (λ x, if decide (x = r) then v else gp s x) (sr s) (rflags s) (rip s) (mem s).
Definition set_sr (r : sreg) (v : Z) (s : cpu) : cpu :=
  Cpu (gp s) (λ x, if decide (x = r) then v else sr s x) (rflags s) (rip s) (mem s).
Definition set_flags (f : Z) (s : cpu) : cpu := Cpu (gp s) (sr s) f (rip s) (mem s).
Definition set_rip (a : Z) (s : cpu) : cpu := Cpu (gp s) (sr s) (rflags s) a (mem s).
Definition store (a v : Z) (s : cpu) : cpu := Cpu (gp s) (sr s) (rflags s) (rip s) (upd (mem s) a v).

Inductive instr :=
  | Push (r : reg) | Pop (r : reg) | Pushfq
  | MovImm (v : Z) (r : reg) | MovReg (r r' : reg)
  | MovTo (r : reg) (o : Z) (base : reg) | MovFrom (o : Z) (base r : reg)
  | MovwTo (r : sreg) (o : Z) (base : reg) | MovwFrom (o : Z) (base : reg) (r : sreg)
  | Addq (v : Z) (r : reg)
  | Call (return_address : Z)
  | Iretq.

Section semantics.
Variable alu : Z → Z → Z → Z.

Definition push (v : Z) (s : cpu) : cpu := let a := u64 (gp s RSP - 8) in set_gp RSP a (store a v s).

(** [Call] leaves the return address on the stack; the code that follows is the callee's.
    PUSHFQ stores the flags RF and VM (16 and 17) as zero. *)
Definition step (s : cpu) (i : instr) : cpu :=
  match i with
  | Push r => push (gp s r) s
  | Pop r => let a := gp s RSP in set_gp r (mem s a) (set_gp RSP (u64 (a + 8)) s)
  | Pushfq => push (Z.ldiff (rflags s) (2 ^ 16 + 2 ^ 17)) s
  | MovImm v r => set_gp r v s
  | MovReg r r' => set_gp r' (gp s r) s
  | MovTo r o base => store (u64 (gp s base + o)) (gp s r) s
  | MovFrom o base r => set_gp r (mem s (u64 (gp s base + o))) s
  | MovwTo r o base => let a := u64 (gp s base + o) in store a (mem s a - mem s a mod 2 ^ 16 + sr s r) s
  | MovwFrom o base r => set_sr r (mem s (u64 (gp s base + o)) mod 2 ^ 16) s
  | Addq v r => set_flags (alu (gp s r) v (rflags s)) (set_gp r (u64 (gp s r + v)) s)
  | Call a => push a s
  | Iretq =>
    let a := gp s RSP in
    set_rip (mem s a) (set_sr CS (mem s (a + 8) mod 2 ^ 16) (set_flags (mem s (a + 16))
      (set_gp RSP (mem s (a + 24)) (set_sr SS (mem s (a + 32) mod 2 ^ 16) s))))
  end.

Definition run (code : list instr) (s : cpu) : cpu := foldl step s code.

(** ** The code *)

Definition do_iret (tf : Z) : list instr :=
  [MovImm tf RSP; MovFrom 0 RSP R15; MovFrom 8 RSP R14; MovFrom 16 RSP R13; MovFrom 24 RSP R12; MovFrom 32 RSP R11;
   MovFrom 40 RSP R10; MovFrom 48 RSP R9; MovFrom 56 RSP R8; MovFrom 64 RSP RSI; MovFrom 72 RSP RDI; MovFrom 80 RSP RBP;
   MovFrom 88 RSP RDX; MovFrom 96 RSP RCX; MovFrom 104 RSP RBX; MovFrom 112 RSP RAX; Addq 120 RSP;
   MovwFrom 8 RSP DS; MovwFrom 0 RSP ES; Addq 32 RSP; Iretq].

Variable addr : nat → Z.

(** The labels: [__next] is behind the first call, [out_iret] behind the second. *)
Definition __next : Z := addr 28.
Definition out_iret : Z := addr 39.

Definition launch_code (tf_cur tf : Z) : list instr :=
  [Push RAX; Push RBX; Push RCX; MovImm tf_cur RAX; MovImm tf RCX;
   MovTo R15 0 RAX; MovTo R14 8 RAX; MovTo R13 16 RAX; MovTo R12 24 RAX; MovTo R11 32 RAX; MovTo R10 40 RAX;
   MovTo R9 48 RAX; MovTo R8 56 RAX; MovTo RSI 64 RAX; MovTo RDI 72 RAX; MovTo RBP 80 RAX; MovTo RDX 88 RAX;
   Pop RBX; MovTo RBX 96 RAX; Pop RBX; MovTo RBX 104 RAX; Pop RBX; MovTo RBX 112 RAX;
   Addq 120 RAX; MovwTo ES 0 RAX; MovwTo DS 8 RAX; Addq 32 RAX;
   Call __next; Pop RBX; Addq (out_iret - __next) RBX; MovTo RBX 0 RAX; MovwTo CS 8 RAX;
   Pushfq; Pop RBX; MovTo RBX 16 RAX; MovTo RSP 24 RAX; MovwTo SS 32 RAX; MovReg RCX RDI; Call out_iret].

Definition thread_launch_asm (tf_cur tf : Z) (s : cpu) : cpu := let s := run (launch_code tf_cur tf) s in run (do_iret (gp s RDI)) s.

End semantics.

(** ** The frame of a new thread *)

Definition FLAG_IF : Z := Z.shiftl 1 9.
Definition SEL_KCSEG : Z := 8.
Definition SEL_KDSEG : Z := 16.
Definition PGSIZE : Z := 4096.

(** What [init_thread] and [thread_create] store in the frame of the thread at [t], whose
    page the allocator has zeroed. *)
Definition new_frame (kernel_thread function aux t : Z) (f : field) : Z :=
  match f with
  | F_rip => kernel_thread
  | Gp RDI => function
  | Gp RSI => aux
  | F_ds | F_es | F_ss => SEL_KDSEG
  | F_cs => SEL_KCSEG
  | F_eflags => FLAG_IF
  | F_rsp => u64 (t + PGSIZE - 8)
  | _ => 0
  end.

End Switch.

(** threads/thread.c: a thread that is switched away from continues, when it is switched
    to again, behind [thread_launch]'s assembly with the registers it had. *)
Import Switch.
Local Open Scope Z_scope.

Module SwitchTheorems.

(** The offsets the assembly uses are those of the members; the labels are at the ends of
    the calls. *)
Lemma layout : (offsetof <$> (Gp <$> gp_registers)) = [0; 8; 16; 24; 32; 40; 48; 56; 64; 72; 80; 88; 96; 104; 112] ∧
  (offsetof <$> [F_es; F_ds; F_rip; F_cs; F_eflags; F_rsp; F_ss]) = [120; 128; 152; 160; 168; 176; 184] ∧ frame_size = 192.
Proof. vm_compute. done. Qed.

Lemma labels addr a b : launch_code addr a b !! 27%nat = Some (Call (addr 28%nat)) ∧ length (launch_code addr a b) = 39%nat ∧ out_iret addr = addr 39%nat.
Proof. done. Qed.

Lemma upd_eq m a v x : x = a → upd m a v x = v.
Proof. intros ->. unfold upd. by rewrite Z.eqb_refl. Qed.
Lemma upd_ne m a v x : x ≠ a → upd m a v x = m x.
Proof. intros H. unfold upd. by rewrite (proj2 (Z.eqb_neq x a) H). Qed.

Section switch.
Context (alu : Z → Z → Z → Z) (addr : nat → Z).

(** An addition leaves the interrupt flag alone. *)
Hypothesis alu_if : ∀ x y f, Z.testbit (alu x y f) 9 = Z.testbit f 9.
Hypothesis addr_ok : ∀ i, 0 ≤ addr i < 2 ^ 64.

Definition stack_ok (s : cpu) : Prop := 32 ≤ gp s RSP < 2 ^ 64 ∧ gp s RSP mod 8 = 0.
Definition frame_at (a : Z) : Prop := 0 ≤ a ∧ a + frame_size ≤ 2 ^ 64 ∧ a mod 8 = 0.
Definition off_stack (a : Z) (s : cpu) : Prop := a + frame_size ≤ gp s RSP - 32 ∨ gp s RSP ≤ a.

Lemma run_app l1 l2 s : run alu (l1 ++ l2) s = run alu l2 (run alu l1 s).
Proof. apply foldl_app. Qed.

(** What a piece of code leaves: registers, segments, the interrupt flag and memory. *)
Record piece (s s' : cpu) (changed : list reg) (m : Z → Z) : Prop := Piece {
  piece_gp : ∀ r, r ∉ changed → gp s' r = gp s r;
  piece_sr : sr s' = sr s;
  piece_if : Z.testbit (rflags s') 9 = Z.testbit (rflags s) 9;
  piece_mem : mem s' = m }.

Ltac run_piece := cbv -[u64 Z.add Z.sub upd Z.ldiff Z.modulo Z.pow Z.testbit elem_of not].
Ltac other_regs := let r := fresh "r" in intros r ?Hr; destruct r; first [reflexivity|exfalso; apply Hr; set_solver].

(** The registers that are used are saved on the stack. *)
Lemma piece_push s a b : 32 ≤ gp s RSP < 2 ^ 64 →
  let s' := run alu [Push RAX; Push RBX; Push RCX; MovImm a RAX; MovImm b RCX] s in let p := gp s RSP in
  piece s s' [RAX; RCX; RSP] (upd (upd (upd (mem s) (p - 8) (gp s RAX)) (p - 16) (gp s RBX)) (p - 24) (gp s RCX)) ∧
  gp s' RAX = a ∧ gp s' RCX = b ∧ gp s' RSP = p - 24.
Proof.
  intros Hs. destruct s as [g r f i m]. cbn [gp] in Hs. assert (H1 : u64 (g RSP - 8) = g RSP - 8) by (apply u64_small; lia).
  assert (H2 : u64 (g RSP - 8 - 8) = g RSP - 16) by (rewrite u64_small; lia). assert (H3 : u64 (g RSP - 16 - 8) = g RSP - 24) by (rewrite u64_small; lia).
  cbv zeta. split; [split; [other_regs|done|done|]|]; run_piece; by rewrite !H1, !H2, !H3.
Qed.

(** Registers into the frame. *)
Definition stored (l : list reg) (g : reg → Z) (a : Z) (m : Z → Z) : Z → Z := foldl (λ m r, upd m (a + offsetof (Gp r)) (g r)) m l.

Lemma offset_range r : r ≠ RSP → 0 ≤ offsetof (Gp r) < 120.
Proof. destruct r; intros H; [vm_compute; split; [discriminate|reflexivity]..|done]. Qed.
Lemma offset_inj r r' : r ≠ RSP → r' ≠ RSP → offsetof (Gp r) = offsetof (Gp r') → r = r'.
Proof. destruct r, r'; intros H H'; vm_compute; first [reflexivity|discriminate|done]. Qed.

Lemma piece_stores l a : ∀ s, gp s RAX = a → 0 ≤ a → a + 120 ≤ 2 ^ 64 → Forall (λ r, r ≠ RSP) l →
  piece s (run alu ((λ r, MovTo r (offsetof (Gp r)) RAX) <$> l) s) [] (stored l (gp s) a (mem s)).
Proof.
  induction l as [|r l IH]; intros s Ha H0 H1 Hl; [done|]. apply Forall_cons in Hl as [Hr Hl]. pose proof (offset_range r Hr) as Ho.
  set (s1 := step alu s (MovTo r (offsetof (Gp r)) RAX)).
  assert (Hm : mem s1 = upd (mem s) (a + offsetof (Gp r)) (gp s r)) by (unfold s1; cbn [step store mem]; by rewrite Ha, u64_small by lia).
  destruct (IH s1) as [Pg Ps Pf Pm]; [done..|]. split; [done..|]. cbn [fmap list_fmap run foldl]. fold s1. unfold run in Pm. cbn [stored foldl]. by rewrite Pm, Hm.
Qed.

Lemma stored_at l g a m r : NoDup l → Forall (λ r, r ≠ RSP) l → r ≠ RSP → stored l g a m (a + offsetof (Gp r)) = if decide (r ∈ l) then g r else m (a + offsetof (Gp r)).
Proof.
  revert m. induction l as [|q l IH]; intros m Hd Hl Hr; [done|]. apply NoDup_cons in Hd as [Hq Hd]. apply Forall_cons in Hl as [Hqr Hl].
  cbn [stored foldl]. unfold stored in IH. rewrite IH by done. destruct (decide (r ∈ l)) as [Hin|Hin]; [rewrite decide_True by set_solver; done|].
  destruct (decide (r = q)) as [->|Hne]; [rewrite decide_True by set_solver; by apply upd_eq|]. rewrite decide_False by set_solver.
  apply upd_ne. intros He. apply Hne, offset_inj; [done|done|lia].
Qed.

Lemma stored_off l g a m x : Forall (λ r, r ≠ RSP) l → x < a ∨ a + 120 ≤ x → stored l g a m x = m x.
Proof.
  revert m. induction l as [|q l IH]; intros m Hl Hx; [done|]. apply Forall_cons in Hl as [Hqr Hl]. cbn [stored foldl]. unfold stored in IH.
  rewrite IH by done. apply upd_ne. pose proof (offset_range q Hqr). lia.
Qed.

(** The three from the stack. *)
Lemma piece_pops s a p : gp s RAX = a → gp s RSP = p - 24 → 32 ≤ p < 2 ^ 64 → 0 ≤ a → a + 192 ≤ 2 ^ 64 → a + 192 ≤ p - 32 ∨ p ≤ a →
  let s' := run alu [Pop RBX; MovTo RBX 96 RAX; Pop RBX; MovTo RBX 104 RAX; Pop RBX; MovTo RBX 112 RAX] s in
  piece s s' [RBX; RSP] (upd (upd (upd (mem s) (a + 96) (mem s (p - 24))) (a + 104) (mem s (p - 16))) (a + 112) (mem s (p - 8))) ∧ gp s' RSP = u64 p.
Proof.
  intros Ha Hp Hpr Ha0 Ha1 Hd. destruct s as [g r f i m]. cbn [gp mem] in *.
  assert (H1 : u64 (g RSP + 8) = p - 16) by (rewrite u64_small; lia). assert (H2 : u64 (p - 16 + 8) = p - 8) by (rewrite u64_small; lia).
  assert (H3 : p - 8 + 8 = p) by lia. assert (H4 : u64 (g RAX + 96) = a + 96) by (rewrite u64_small; lia).
  assert (H5 : u64 (g RAX + 104) = a + 104) by (rewrite u64_small; lia). assert (H6 : u64 (g RAX + 112) = a + 112) by (rewrite u64_small; lia).
  assert (M1 : ∀ v, upd m (a + 96) v (p - 16) = m (p - 16)) by (intros v; apply upd_ne; lia).
  assert (M2 : ∀ v v', upd (upd m (a + 96) v) (a + 104) v' (p - 8) = m (p - 8)) by (intros v v'; rewrite !upd_ne; [done|lia|lia]).
  cbv zeta. split; [split; [other_regs|done|done|]|]; run_piece; by rewrite ?H4, ?H5, ?H6, ?H1, ?H2, ?H3, ?Hp, ?M1, ?M2.
Qed.

Definition low16 (w v : Z) : Z := w - w mod 2 ^ 16 + v.

Lemma low16_mod w v : 0 ≤ v < 2 ^ 16 → low16 w v mod 2 ^ 16 = v.
Proof. intros Hv. unfold low16. rewrite <- (Z.mod_small v (2 ^ 16)) at 2 by done. rewrite <- Z.add_mod_idemp_l by lia. rewrite Zminus_mod_idemp_r. by rewrite Z.sub_diag, Z.mod_0_l by lia. Qed.

(** The data segments. *)
Lemma piece_segments s a : gp s RAX = a → 0 ≤ a → a + 192 ≤ 2 ^ 64 →
  let s' := run alu [Addq 120 RAX; MovwTo ES 0 RAX; MovwTo DS 8 RAX; Addq 32 RAX] s in
  piece s s' [RAX] (upd (upd (mem s) (a + 120) (low16 (mem s (a + 120)) (sr s ES))) (a + 128) (low16 (mem s (a + 128)) (sr s DS))) ∧ gp s' RAX = a + 152.
Proof.
  intros Ha Ha0 Ha1. destruct s as [g r f i m]. cbn [gp mem sr] in *.
  assert (H1 : u64 (g RAX + 120) = a + 120) by (rewrite u64_small; lia). assert (H2 : u64 (a + 120 + 0) = a + 120) by (rewrite u64_small; lia).
  assert (H3 : u64 (a + 120 + 8) = a + 128) by (rewrite u64_small; lia). assert (H4 : u64 (a + 120 + 32) = a + 152) by (rewrite u64_small; lia).
  assert (M1 : ∀ v, upd m (a + 120) v (a + 128) = m (a + 128)) by (intros v; apply upd_ne; lia).
  cbv zeta. split; [split; [other_regs|done|run_piece; by rewrite !alu_if|]|]; run_piece; by rewrite ?H1, ?H2, ?H3, ?H4, ?M1.
Qed.

(** The instruction pointer and the code segment. *)
Lemma piece_rip s c p : gp s RAX = c → gp s RSP = p → 32 ≤ p < 2 ^ 64 → 152 ≤ c → c + 40 ≤ 2 ^ 64 → c + 40 ≤ p - 32 ∨ p ≤ c - 152 →
  let s' := run alu [Call (__next addr); Pop RBX; Addq (out_iret addr - __next addr) RBX; MovTo RBX 0 RAX; MovwTo CS 8 RAX] s in
  piece s s' [RBX; RSP] (upd (upd (upd (mem s) (p - 8) (__next addr)) c (out_iret addr)) (c + 8) (low16 (mem s (c + 8)) (sr s CS))) ∧ gp s' RSP = p.
Proof.
  intros Hc Hp Hpr Hc0 Hc1 Hd. pose proof (addr_ok 39) as Hout. destruct s as [g r f i m]. cbn [gp mem sr] in *. unfold __next, out_iret. generalize dependent (addr 39). generalize (addr 28). intros n o Hout.
  assert (H1 : u64 (g RSP - 8) = p - 8) by (rewrite u64_small; lia). assert (H2 : u64 (p - 8 + 8) = p) by (rewrite u64_small; lia).
  assert (H3 : u64 (n + (o - n)) = o) by (rewrite u64_small; lia). assert (H4 : u64 (g RAX + 0) = c) by (rewrite u64_small; lia). assert (H5 : u64 (g RAX + 8) = c + 8) by (rewrite u64_small; lia).
  assert (M1 : upd m (p - 8) n (p - 8) = n) by (by apply upd_eq). assert (M2 : ∀ v, upd (upd m (p - 8) n) c v (c + 8) = m (c + 8)) by (intros v; rewrite !upd_ne; [done|lia|lia]).
  cbv zeta. split; [split; [other_regs|done|run_piece; by rewrite !alu_if|]|]; run_piece; by rewrite ?H1, ?M1, ?H3, ?H4, ?H5, ?M2, ?H2.
Qed.

(** The flags, the stack and its segment; the argument of [do_iret]. *)
Lemma piece_flags s c p : gp s RAX = c → gp s RSP = p → 32 ≤ p < 2 ^ 64 → 152 ≤ c → c + 40 ≤ 2 ^ 64 → c + 40 ≤ p - 32 ∨ p ≤ c - 152 →
  let s' := run alu [Pushfq; Pop RBX; MovTo RBX 16 RAX; MovTo RSP 24 RAX; MovwTo SS 32 RAX; MovReg RCX RDI; Call (out_iret addr)] s in
  let fl := Z.ldiff (rflags s) (2 ^ 16 + 2 ^ 17) in
  mem s' = upd (upd (upd (upd (upd (mem s) (p - 8) fl) (c + 16) fl) (c + 24) p) (c + 32) (low16 (mem s (c + 32)) (sr s SS))) (p - 8) (out_iret addr) ∧ gp s' RDI = gp s RCX.
Proof.
  intros Hc Hp Hpr Hc0 Hc1 Hd. destruct s as [g r f i m]. cbn [gp mem sr rflags] in *. generalize (out_iret addr) as o. intros o.
  assert (H1 : u64 (g RSP - 8) = p - 8) by (rewrite u64_small; lia). assert (H2 : u64 (p - 8 + 8) = p) by (rewrite u64_small; lia). assert (H3 : u64 (p - 8) = p - 8) by (rewrite u64_small; lia).
  assert (H4 : u64 (g RAX + 16) = c + 16) by (rewrite u64_small; lia). assert (H5 : u64 (g RAX + 24) = c + 24) by (rewrite u64_small; lia). assert (H6 : u64 (g RAX + 32) = c + 32) by (rewrite u64_small; lia).
  assert (M1 : ∀ v, upd m (p - 8) v (p - 8) = v) by (intros v; by apply upd_eq).
  assert (M2 : ∀ u v v', upd (upd (upd m (p - 8) u) (c + 16) v) (c + 24) v' (c + 32) = m (c + 32)) by (intros u v v'; rewrite !upd_ne; [done|lia..]).
  cbv zeta. run_piece. by rewrite ?H1, ?M1, ?H2, ?H3, ?H4, ?H5, ?H6, ?M2.
Qed.

(** ** The frame of a thread that was switched away from *)

Record saved (m : Z → Z) (a : Z) (s : cpu) : Prop := Saved {
  saved_gp : ∀ r, r ≠ RSP → m (a + offsetof (Gp r)) = gp s r;
  saved_es : m (a + offsetof F_es) mod 2 ^ 16 = sr s ES;
  saved_ds : m (a + offsetof F_ds) mod 2 ^ 16 = sr s DS;
  saved_rip : m (a + offsetof F_rip) = out_iret addr;
  saved_cs : m (a + offsetof F_cs) mod 2 ^ 16 = sr s CS;
  saved_if : Z.testbit (m (a + offsetof F_eflags)) 9 = Z.testbit (rflags s) 9;
  saved_rsp : m (a + offsetof F_rsp) = gp s RSP;
  saved_ss : m (a + offsetof F_ss) mod 2 ^ 16 = sr s SS }.

Definition segments_ok (s : cpu) : Prop := ∀ q, 0 ≤ sr s q < 2 ^ 16.

Definition direct : list reg := [R15; R14; R13; R12; R11; R10; R9; R8; RSI; RDI; RBP; RDX].

Lemma direct_low r : r ∈ direct → 0 ≤ offsetof (Gp r) ≤ 88.
Proof. unfold direct. intros H. destruct r; first [vm_compute; split; discriminate|exfalso; set_solver]. Qed.

Lemma indirect r : r ∉ direct → r ≠ RSP → r = RCX ∨ r = RBX ∨ r = RAX.
Proof. intros Hr Hs. destruct r; try tauto; exfalso; apply Hr, (bool_decide_unpack _); vm_compute; exact I. Qed.

(** Memory behind [launch_code], in one expression. *)
Definition after_launch (a : Z) (s : cpu) (fl : Z) : Z → Z :=
  let p := gp s RSP in
  let m1 := upd (upd (upd (mem s) (p - 8) (gp s RAX)) (p - 16) (gp s RBX)) (p - 24) (gp s RCX) in
  let m2 := stored direct (gp s) a m1 in
  let m3 := upd (upd (upd m2 (a + 96) (m2 (p - 24))) (a + 104) (m2 (p - 16))) (a + 112) (m2 (p - 8)) in
  let m4 := upd (upd m3 (a + 120) (low16 (m3 (a + 120)) (sr s ES))) (a + 128) (low16 (m3 (a + 128)) (sr s DS)) in
  let c := a + 152 in
  let m5 := upd (upd (upd m4 (p - 8) (__next addr)) c (out_iret addr)) (c + 8) (low16 (m4 (c + 8)) (sr s CS)) in
  upd (upd (upd (upd (upd m5 (p - 8) fl) (c + 16) fl) (c + 24) p) (c + 32) (low16 (m5 (c + 32)) (sr s SS))) (p - 8) (out_iret addr).

Lemma stored_ext l g g' a m : (∀ r, r ∈ l → g r = g' r) → stored l g a m = stored l g' a m.
Proof.
  unfold stored. revert m. induction l as [|q l IH]; intros m H; [done|]. cbn [foldl]. rewrite (H q) by set_solver. apply IH. set_solver.
Qed.

Lemma launch_split a b : launch_code addr a b =
    [Push RAX; Push RBX; Push RCX; MovImm a RAX; MovImm b RCX] ++ ((λ r, MovTo r (offsetof (Gp r)) RAX) <$> direct) ++
    [Pop RBX; MovTo RBX 96 RAX; Pop RBX; MovTo RBX 104 RAX; Pop RBX; MovTo RBX 112 RAX] ++ [Addq 120 RAX; MovwTo ES 0 RAX; MovwTo DS 8 RAX; Addq 32 RAX] ++
    [Call (__next addr); Pop RBX; Addq (out_iret addr - __next addr) RBX; MovTo RBX 0 RAX; MovwTo CS 8 RAX] ++
    [Pushfq; Pop RBX; MovTo RBX 16 RAX; MovTo RSP 24 RAX; MovwTo SS 32 RAX; MovReg RCX RDI; Call (out_iret addr)].
Proof. reflexivity. Qed.

Lemma launch_mem s a b : stack_ok s → frame_at a → off_stack a s →
  ∃ fl, Z.testbit fl 9 = Z.testbit (rflags s) 9 ∧ mem (run alu (launch_code addr a b) s) = after_launch a s fl ∧ gp (run alu (launch_code addr a b) s) RDI = b.
Proof.
  intros [Hp _] (Ha0 & Ha1 & _) Hd. unfold off_stack in Hd. change frame_size with 192 in *.
  rewrite launch_split.
  rewrite !run_app. set (p := gp s RSP) in *.
  pose proof (piece_push s a b Hp) as ([G1 S1 F1 M1] & A1 & C1 & P1). fold p in M1, P1. set (s1 := run alu _ s) in *. clearbody s1.
  pose proof (piece_stores direct a s1 A1 Ha0 ltac:(lia) ltac:(repeat constructor; discriminate)) as [G2 S2 F2 M2]. set (s2 := run alu _ s1) in *. clearbody s2.
  pose proof (piece_pops s2 a p ltac:(rewrite G2 by set_solver; done) ltac:(rewrite G2 by set_solver; done) Hp Ha0 Ha1 Hd) as ([G3 S3 F3 M3] & P3).
  set (s3 := run alu _ s2) in *. clearbody s3. rewrite u64_small in P3 by lia.
  pose proof (piece_segments s3 a ltac:(rewrite G3, G2 by set_solver; done) Ha0 Ha1) as ([G4 S4 F4 M4] & A4). set (s4 := run alu _ s3) in *. clearbody s4.
  pose proof (piece_rip s4 (a + 152) p A4 ltac:(rewrite G4 by set_solver; done) Hp ltac:(lia) ltac:(lia) ltac:(lia)) as ([G5 S5 F5 M5] & P5).
  set (s5 := run alu _ s4) in *. clearbody s5.
  pose proof (piece_flags s5 (a + 152) p ltac:(rewrite G5 by set_solver; done) P5 Hp ltac:(lia) ltac:(lia) ltac:(lia)) as (M6 & D6).
  set (s6 := run alu _ s5) in *. clearbody s6. cbv zeta in M6.
  exists (Z.ldiff (rflags s5) (2 ^ 16 + 2 ^ 17)). split; [|split].
  - rewrite Z.ldiff_spec, F5, F4, F3, F2, F1. change (Z.testbit (2 ^ 16 + 2 ^ 17) 9) with false. by rewrite andb_true_r.
  - rewrite M6, M5, M4, M3, M2, M1, S5, S4, S3, S2, S1. unfold after_launch. fold p.
    rewrite (stored_ext direct (gp s1) (gp s)); [done|]. intros r Hr. apply G1. intros Hin. unfold direct in Hr. set_solver.
  - rewrite D6, G5, G4, G3, G2 by set_solver. done.
Qed.

Ltac skip_upds := repeat (rewrite upd_ne by lia).

Lemma after_launch_saved a s fl : stack_ok s → frame_at a → off_stack a s → segments_ok s → Z.testbit fl 9 = Z.testbit (rflags s) 9 →
  saved (after_launch a s fl) a s.
Proof.
  intros [Hp _] (Ha0 & Ha1 & _) Hd Hseg Hfl. unfold off_stack in Hd. change frame_size with 192 in *. unfold after_launch. set (p := gp s RSP) in *. cbv zeta.
  set (m1 := upd (upd (upd (mem s) (p - 8) _) (p - 16) _) (p - 24) _). set (m2 := stored direct (gp s) a m1).
  assert (K : ∀ x, p - 24 ≤ x < p → m2 x = m1 x) by (intros x Hx; apply stored_off; [repeat constructor; discriminate|lia]).
  assert (Krax : m2 (p - 8) = gp s RAX) by (rewrite K by lia; unfold m1; skip_upds; by apply upd_eq).
  assert (Krbx : m2 (p - 16) = gp s RBX) by (rewrite K by lia; unfold m1; skip_upds; by apply upd_eq).
  assert (Krcx : m2 (p - 24) = gp s RCX) by (rewrite K by lia; unfold m1; by apply upd_eq).
  rewrite Krax, Krbx, Krcx. split.
  - intros r Hr. destruct (decide (r ∈ direct)) as [Hin|Hin].
    + pose proof (direct_low r Hin). skip_upds. unfold m2. rewrite stored_at; [by rewrite decide_True|apply (bool_decide_unpack _); vm_compute; exact I|repeat constructor; discriminate|done].
    + destruct (indirect r Hin Hr) as [-> | [-> | ->]];
        [change (offsetof (Gp RCX)) with 96|change (offsetof (Gp RBX)) with 104|change (offsetof (Gp RAX)) with 112]; skip_upds; by apply upd_eq.
  - change (offsetof F_es) with 120. skip_upds. rewrite upd_eq by done. apply low16_mod, Hseg.
  - change (offsetof F_ds) with 128. skip_upds. rewrite upd_eq by done. apply low16_mod, Hseg.
  - change (offsetof F_rip) with 152. skip_upds. by apply upd_eq.
  - change (offsetof F_cs) with 160. skip_upds. rewrite upd_eq by lia. apply low16_mod, Hseg.
  - change (offsetof F_eflags) with 168. skip_upds. by rewrite upd_eq by lia.
  - change (offsetof F_rsp) with 176. skip_upds. by rewrite upd_eq by lia.
  - change (offsetof F_ss) with 184. skip_upds. rewrite upd_eq by lia. apply low16_mod, Hseg.
Qed.

(** Nothing else is written: only the frame and three words below the stack pointer. *)
Lemma after_launch_else a s fl x : off_stack a s → frame_at a → x < a ∨ a + 192 ≤ x → x < gp s RSP - 24 ∨ gp s RSP ≤ x → after_launch a s fl x = mem s x.
Proof.
  intros Hd (Ha0 & Ha1 & _) Hx Hs. unfold off_stack in Hd. change frame_size with 192 in *. unfold after_launch. cbv zeta. skip_upds.
  rewrite stored_off by (first [lia|repeat constructor; discriminate]). by skip_upds.
Qed.

(** ** Launching a frame *)

(** The registers a frame holds. *)
Record resumed (m : Z → Z) (b : Z) (s : cpu) : Prop := Resumed {
  resumed_gp : ∀ r, r ≠ RSP → gp s r = m (b + offsetof (Gp r));
  resumed_es : sr s ES = m (b + offsetof F_es) mod 2 ^ 16;
  resumed_ds : sr s DS = m (b + offsetof F_ds) mod 2 ^ 16;
  resumed_rip : rip s = m (b + offsetof F_rip);
  resumed_cs : sr s CS = m (b + offsetof F_cs) mod 2 ^ 16;
  resumed_flags : rflags s = m (b + offsetof F_eflags);
  resumed_rsp : gp s RSP = m (b + offsetof F_rsp);
  resumed_ss : sr s SS = m (b + offsetof F_ss) mod 2 ^ 16 }.

Lemma loads_ok l b : ∀ s, gp s RSP = b → 0 ≤ b → b + 192 ≤ 2 ^ 64 → Forall (λ r, r ≠ RSP) l → NoDup l →
  let s' := run alu ((λ r, MovFrom (offsetof (Gp r)) RSP r) <$> l) s in
  (∀ r, gp s' r = if decide (r ∈ l) then mem s (b + offsetof (Gp r)) else gp s r) ∧ mem s' = mem s.
Proof.
  induction l as [|q l IH]; intros s Hs H0 H1 Hl Hd; [done|]. apply Forall_cons in Hl as [Hq Hl]. apply NoDup_cons in Hd as [Hql Hd]. pose proof (offset_range q Hq) as Ho.
  set (s1 := step alu s (MovFrom (offsetof (Gp q)) RSP q)). cbv zeta. cbn [fmap list_fmap run foldl]. fold s1.
  destruct (IH s1) as [Hg Hm]; [unfold s1; cbn [step set_gp gp]; by rewrite decide_False by congruence|done..|]. split; [|exact Hm].
  intros r. unfold run, fmap in Hg. rewrite Hg. destruct (decide (r ∈ l)); [by rewrite decide_True by set_solver|].
  unfold s1. cbn [step set_gp gp]. destruct (decide (r = q)) as [->|Hne]; [|rewrite decide_False by set_solver; done].
  rewrite decide_True by set_solver. by rewrite Hs, u64_small by lia.
Qed.

Lemma do_iret_split b : do_iret b = [MovImm b RSP] ++ ((λ r, MovFrom (offsetof (Gp r)) RSP r) <$> gp_registers) ++ [Addq 120 RSP; MovwFrom 8 RSP DS; MovwFrom 0 RSP ES; Addq 32 RSP; Iretq].
Proof. reflexivity. Qed.

Lemma piece_return s b : gp s RSP = b → 0 ≤ b → b + 192 ≤ 2 ^ 64 →
  let s' := run alu [Addq 120 RSP; MovwFrom 8 RSP DS; MovwFrom 0 RSP ES; Addq 32 RSP; Iretq] s in
  (∀ r, r ≠ RSP → gp s' r = gp s r) ∧ mem s' = mem s ∧ sr s' ES = mem s (b + 120) mod 2 ^ 16 ∧ sr s' DS = mem s (b + 128) mod 2 ^ 16 ∧ rip s' = mem s (b + 152) ∧
  sr s' CS = mem s (b + 160) mod 2 ^ 16 ∧ rflags s' = mem s (b + 168) ∧ gp s' RSP = mem s (b + 176) ∧ sr s' SS = mem s (b + 184) mod 2 ^ 16.
Proof.
  intros Hb H0 H1. destruct s as [g r f i m]. cbn [gp mem] in *.
  assert (E1 : u64 (g RSP + 120) = b + 120) by (rewrite u64_small; lia). assert (E2 : u64 (b + 120 + 8) = b + 128) by (rewrite u64_small; lia).
  assert (E3 : u64 (b + 120 + 0) = b + 120) by (rewrite u64_small; lia). assert (E4 : u64 (b + 120 + 32) = b + 152) by (rewrite u64_small; lia).
  assert (E5 : b + 152 + 8 = b + 160 ∧ b + 152 + 16 = b + 168 ∧ b + 152 + 24 = b + 176 ∧ b + 152 + 32 = b + 184) by lia. destruct E5 as (E5 & E6 & E7 & E8).
  cbv zeta. split; [by intros []|]. repeat split; run_piece; by rewrite ?E1, ?E2, ?E3, ?E4, ?E5, ?E6, ?E7, ?E8.
Qed.

Lemma do_iret_ok s b : frame_at b → resumed (mem s) b (run alu (do_iret b) s) ∧ mem (run alu (do_iret b) s) = mem s.
Proof.
  intros (H0 & H1 & _). change frame_size with 192 in H1. rewrite do_iret_split, !run_app. set (s1 := run alu [MovImm b RSP] s).
  assert (Hs1 : gp s1 RSP = b ∧ mem s1 = mem s) by done. clearbody s1. destruct Hs1 as [Hb1 M1].
  pose proof (loads_ok gp_registers b s1 Hb1 H0 H1 ltac:(repeat constructor; discriminate) ltac:(apply (bool_decide_unpack _); vm_compute; exact I)) as (G2 & M2).
  set (s2 := run alu _ s1) in *. clearbody s2.
  pose proof (piece_return s2 b ltac:(rewrite G2, decide_False by (unfold gp_registers; set_solver); done) H0 H1) as (G3 & M3 & E1 & E2 & E3 & E4 & E5 & E6 & E7).
  set (s3 := run alu _ s2) in *. clearbody s3. rewrite M2, M1 in *. split; [|done]. split; try done.
  intros r Hr. rewrite G3, G2, decide_True by (destruct r; unfold gp_registers; (done || set_solver)). done.
Qed.

(** A thread switches to the frame at [b]: its own frame is saved, nothing else is written
    but three words below its stack pointer, and the processor has the registers of the
    other frame. *)
Lemma launch_ok s a b : stack_ok s → frame_at a → frame_at b → off_stack a s → segments_ok s →
  let s' := thread_launch_asm alu addr a b s in
  saved (mem s') a s ∧ resumed (mem s') b s' ∧
  (∀ x, x < a ∨ a + frame_size ≤ x → x < gp s RSP - 24 ∨ gp s RSP ≤ x → mem s' x = mem s x).
Proof.
  intros Hs Ha Hb Hd Hseg. destruct (launch_mem s a b Hs Ha Hd) as (fl & Hfl & Hm & Hrdi). cbv zeta. unfold thread_launch_asm. rewrite Hrdi.
  set (s1 := run alu (launch_code addr a b) s) in *. clearbody s1. destruct (do_iret_ok s1 b Hb) as [Hr Hm2]. rewrite Hm2, Hm in *.
  split; [by apply after_launch_saved|]. split; [done|]. intros x Hx Hx2. by apply after_launch_else.
Qed.

Lemma frame_offsets f : 0 ≤ offsetof f ≤ frame_size.
Proof. destruct f as [[]| | | | | | | | | | | | | | | | |]; vm_compute; split; discriminate. Qed.

(** The frame survives what leaves its words alone. *)
Lemma saved_same m m' a s : (∀ x, a ≤ x < a + frame_size → m' x = m x) → saved m a s → saved m' a s.
Proof.
  intros Hm [H1 H2 H3 H4 H5 H6 H7 H8]. assert (K : ∀ f, offsetof f < frame_size → m' (a + offsetof f) = m (a + offsetof f)).
  { intros f Hf. apply Hm. pose proof (frame_offsets f). lia. }
  split; [|rewrite K by done; done..]. intros r Hr. pose proof (offset_range r Hr). rewrite K; [by apply H1|]. change frame_size with 192. lia.
Qed.

(** C8: a thread that calls [thread_launch] is resumed exactly where it was: when it has
    switched away, whatever the other threads do with memory outside its frame, and when
    any thread then switches to it, the processor has all sixteen general registers and the
    four segment registers as they were, interrupts are on or off as they were, and
    execution goes on at the label out_iret, at the end of [thread_launch]. *)
Theorem switch_roundtrip s a b s2 c :
  stack_ok s → frame_at a → frame_at b → off_stack a s → segments_ok s →
  let s1 := thread_launch_asm alu addr a b s in
  (∀ x, a ≤ x < a + frame_size → mem s2 x = mem s1 x) →
  stack_ok s2 → frame_at c → off_stack c s2 → segments_ok s2 →
  a + frame_size ≤ c ∨ c + frame_size ≤ a → off_stack a s2 →
  let s3 := thread_launch_asm alu addr c a s2 in
  (∀ r, gp s3 r = gp s r) ∧ (∀ q, sr s3 q = sr s q) ∧ Z.testbit (rflags s3) 9 = Z.testbit (rflags s) 9 ∧ rip s3 = out_iret addr.
Proof.
  intros Hs Ha Hb Hd Hseg. cbv zeta. intros Hkeep Hs2 Hc Hd2 Hseg2 Hca Ha2.
  destruct (launch_ok s a b Hs Ha Hb Hd Hseg) as (Hsaved & _ & _). destruct (launch_ok s2 c a Hs2 Hc Ha Hd2 Hseg2) as (_ & [R1 R2 R3 R4 R5 R6 R7 R8] & Helse).
  set (s1 := thread_launch_asm alu addr a b s) in *. set (s3 := thread_launch_asm alu addr c a s2) in *. clearbody s1 s3.
  assert (Hs3 : saved (mem s3) a s).
  { apply (saved_same (mem s1)); [|done]. intros x Hx. rewrite <- Hkeep by done. apply Helse; [lia|]. unfold off_stack in Ha2. lia. }
  destruct Hs3 as [S1 S2 S3 S4 S5 S6 S7 S8]. split; [intros r; destruct (decide (r = RSP)) as [->|Hr]; [by rewrite R7, S7|by rewrite R1, S1]|].
  split; [intros []; congruence|]. split; [by rewrite R6|by rewrite R4].
Qed.

(** A new thread starts in [kernel_thread] with its function and argument, on its own
    stack, in the kernel's segments and with interrupts on. *)
Theorem new_thread_starts s a b kernel_thread function aux t :
  stack_ok s → frame_at a → frame_at b → off_stack a s → segments_ok s →
  a + frame_size ≤ b ∨ b + frame_size ≤ a → off_stack b s →
  (∀ f, offsetof f mod 8 = 0 → mem s (b + offsetof f) = new_frame kernel_thread function aux t f) →
  let s' := thread_launch_asm alu addr a b s in
  rip s' = kernel_thread ∧ gp s' RDI = function ∧ gp s' RSI = aux ∧ gp s' RSP = u64 (t + PGSIZE - 8) ∧
  sr s' CS = SEL_KCSEG ∧ sr s' DS = SEL_KDSEG ∧ sr s' ES = SEL_KDSEG ∧ sr s' SS = SEL_KDSEG ∧ Z.testbit (rflags s') 9 = true.
Proof.
  intros Hs Ha Hb Hd Hseg Hab Hdb Hf. destruct (launch_ok s a b Hs Ha Hb Hd Hseg) as (_ & [R1 R2 R3 R4 R5 R6 R7 R8] & Helse). cbv zeta.
  set (s' := thread_launch_asm alu addr a b s) in *. clearbody s'.
  assert (K : ∀ f, offsetof f < frame_size → offsetof f mod 8 = 0 → mem s' (b + offsetof f) = new_frame kernel_thread function aux t f).
  { intros f Hlt H8. rewrite <- Hf by done. pose proof (frame_offsets f). unfold off_stack in *. apply Helse; lia. }
  rewrite R4, R5, R3, R2, R8, R7, R6, (R1 RDI), (R1 RSI), !K by done. done.
Qed.

End switch.

(** Two threads with frames at 16384 and 32768; the first has 1 to 15 in its registers. *)
Definition demo_cpu : cpu :=
  Cpu (λ r, if decide (r = RSP) then 8192 else 1 + Z.of_nat (default 0%nat (fst <$> list_find (λ q, q = r) gp_registers))) (λ _, 16) 0 0 (λ _, 0).
Definition demo_addr (i : nat) : Z := 4096 + Z.of_nat i mod 64.
Definition demo_with (m : Z → Z) : cpu := Cpu (λ r, if decide (r = RSP) then 12288 else 0) (λ _, 16) 0 0 m.
Definition demo_later : cpu := demo_with (mem (thread_launch_asm (λ _ _ f, f) demo_addr 16384 32768 demo_cpu)).

Lemma demo_with_mem m : mem (demo_with m) = m.
Proof. done. Qed.

Definition demo_end : cpu := thread_launch_asm (λ _ _ f, f) demo_addr 65536 16384 demo_later.

Lemma demo_addr_ok i : 0 ≤ demo_addr i < 2 ^ 64.
Proof. unfold demo_addr. pose proof (Z.mod_pos_bound (Z.of_nat i) 64). lia. Qed.
Lemma demo_keeps x : 16384 ≤ x < 16384 + frame_size → mem demo_later x = mem (thread_launch_asm (λ _ _ f, f) demo_addr 16384 32768 demo_cpu) x.
Proof. intros _. unfold demo_later. by rewrite demo_with_mem. Qed.
Lemma demo_stacks : stack_ok demo_cpu ∧ stack_ok demo_later ∧ off_stack 16384 demo_cpu ∧ off_stack 16384 demo_later ∧ off_stack 65536 demo_later.
Proof. split; [|split]; [split; [vm_compute; split; [discriminate|reflexivity]|reflexivity]..|]. repeat split; right; vm_compute; discriminate. Qed.
Lemma demo_frames : frame_at 16384 ∧ frame_at 32768 ∧ frame_at 65536.
Proof. repeat split; vm_compute; discriminate. Qed.
Lemma demo_segments : segments_ok demo_cpu ∧ segments_ok demo_later.
Proof. split; intros q; vm_compute; (split; [discriminate|reflexivity]). Qed.

Lemma switch_roundtrip_witness :
  (∀ r, gp demo_end r = gp demo_cpu r) ∧ (∀ q, sr demo_end q = sr demo_cpu q) ∧ Z.testbit (rflags demo_end) 9 = Z.testbit (rflags demo_cpu) 9 ∧ rip demo_end = out_iret demo_addr.
Proof.
  destruct demo_stacks as (S1 & S2 & O1 & O2 & O3). destruct demo_frames as (F1 & F2 & F3). destruct demo_segments as (Q1 & Q2).
  exact (switch_roundtrip (λ _ _ f, f) demo_addr (λ _ _ _, eq_refl) demo_addr_ok demo_cpu 16384 32768 demo_later 65536
    S1 F1 F2 O1 Q1 demo_keeps S2 F3 O3 Q2 (or_introl (proj1 (Z.leb_le _ _) (eq_refl : (16384 + frame_size <=? 65536) = true))) O2).
Defined.

End SwitchTheorems.

(** threads/interrupt.c, [intr_dump_frame]: the registers of an interrupt frame as text.

    The frame is its members by name; [cr2] is the processor's register CR2 and
    [intr_names] the table of names.  The calls of printf go to any [vprintf]. *)
Import Switch PrintfFacts.
Local Open Scope Z_scope.

Module FrameDump.

Section dump.
Context {W : Type} (vprintf : list Z → list Stdio.arg → st W Z) (cr2 : Z) (intr_names : Z → list Z).

(** The formats of the calls in their order with what they print. *)
Definition dump_lines (f : field → Z) : list (string * list Stdio.arg) :=
  let i x := Stdio.Int (f x) in let g r := Stdio.Int (f (Gp r)) in
  [("Interrupt %#04llx (%s) at rip=%llx
", [i F_vec_no; Stdio.Str (Some (intr_names (f F_vec_no) ++ [0])); i F_rip]);
   (" cr2=%016llx error=%16llx
", [Stdio.Int cr2; i F_error_code]);
   ("rax %016llx rbx %016llx rcx %016llx rdx %016llx
", [g RAX; g RBX; g RCX; g RDX]);
   ("rsp %016llx rbp %016llx rsi %016llx rdi %016llx
", [i F_rsp; g RBP; g RSI; g RDI]);
   ("rip %016llx r8 %016llx  r9 %016llx r10 %016llx
", [i F_rip; g R8; g R9; g R10]);
   ("r11 %016llx r12 %016llx r13 %016llx r14 %016llx
", [g R11; g R12; g R13; g R14]);
   ("r15 %016llx rflags %08llx
", [g R15; i F_eflags]);
   ("es: %04x ds: %04x cs: %04x ss: %04x
", [i F_es; i F_ds; i F_cs; i F_ss])].

Fixpoint print_lines (l : list (string * list Stdio.arg)) : st W unit :=
  match l with [] => mret tt | (format, args) :: l => vprintf (Stdio.lit format) args;; print_lines l end.

Definition intr_dump_frame (f : field → Z) : st W unit := print_lines (dump_lines f).

End dump.

(** ** Every line is printed *)

Lemma prints_x s0 spec c v fuel rest args n : s0 ≠ 37 →
  Stdio.parse_conversion (s0 :: spec ++ 120 :: rest) (Stdio.Int v :: args) = Ok (c, 120 :: rest, Stdio.Int v :: args) →
  Stdio.type c = Stdio.INT ∨ Stdio.type c = Stdio.LONGLONG → prints fuel rest args n →
  prints (S fuel) (37 :: s0 :: spec ++ 120 :: rest) (Stdio.Int v :: args) (3 * Z.to_nat (Stdio.width c) + 67 + n).
Proof.
  intros Hs Hp Ht (out & Ho & Hl). set (value := Stdio.unsigned_value (Stdio.type c) v).
  assert (Hv : 0 ≤ value < 2 ^ 64) by (unfold value; destruct Ht as [-> | ->]; cbn [Stdio.unsigned_value]; [pose proof (u32_range v); lia|apply u64_range]).
  destruct (StdioTheorems.format_integer_short value false false Stdio.base_x c) as (o & Hf & Hlo); [apply StdioTheorems.bases_ok|done|].
  exists (o ++ out). split; [|rewrite length_app; lia].
  cbn [Stdio.__vprintf Stdio.peek mbind res_bind tail Z.eqb Pos.eqb negb]. rewrite (proj2 (Z.eqb_neq s0 37) Hs), Hp. cbn [mbind res_bind Stdio.peek].
  change (Stdio.one_of 120 [100; 105]) with false. change (Stdio.one_of 120 [111; 117; 120; 88]) with true. cbn [Stdio.va_arg mbind res_bind tail].
  change (Stdio.unsigned_base 120) with Stdio.base_x. fold value. rewrite Hf. cbn [mbind res_bind]. by rewrite Ho.
Qed.

(** The conversions that occur. *)
Ltac hex s0 spec :=
  match goal with |- prints _ (37 :: s0 :: ?l) _ _ =>
    eapply (prints_x s0 spec); [discriminate|reflexivity|(by left) || (by right)|] end.
Ltac dump_steps :=
  repeat first [apply prints_end|hex 48 [49; 54; 108; 108]|hex 48 [52]|hex 49 [54; 108; 108]|hex 48 [56; 108; 108]|hex 35 [48; 52; 108; 108]|hex 108 [108]
    |apply prints_s; [assumption|lia|]|apply prints_char; [discriminate|discriminate|]].
Ltac dump_ok :=
  match goal with |- ∃ text, Stdio.__printf ?f ?a = _ ∧ _ =>
    let l := eval vm_compute in f in let n := eval vm_compute in (Stdio.vprintf_fuel f) in
    eapply (prints_text f a); [change (Stdio.vprintf_fuel f) with n; change f with l; dump_steps|] end.

Ltac widths := repeat match goal with |- context [Z.to_nat (Stdio.width ?c)] => let n := eval vm_compute in (Z.to_nat (Stdio.width c)) in change (Z.to_nat (Stdio.width c)) with n end.

(** Whatever the frame holds, every line is formatted, and stays short of what printf can
    count; the name of the vector is a string. *)
Theorem dump_lines_printed cr2 intr_names f : Forall (λ c, c ≠ 0) (intr_names (f F_vec_no)) → Z.of_nat (length (intr_names (f F_vec_no))) < 1000 →
  Forall (λ '(format, args), ∃ text, Stdio.__printf (Stdio.lit format) args = Ok text ∧ Z.of_nat (length text) < 2 ^ 31) (dump_lines cr2 intr_names f).
Proof. intros Hn Hl. unfold dump_lines. repeat (apply Forall_cons; split); [dump_ok..|apply Forall_nil]; widths; lia. Qed.

(** A page fault. *)
Definition demo_frame (f : field) : Z := match f with F_vec_no => 14 | F_rip => 0x8004001234 | F_rsp => 0x8004200f00 | F_cs => 8 | F_ds | F_es | F_ss => 16 | F_eflags => 0x202 | Gp RAX => 255 | _ => 0 end.
Definition gather (format : list Z) (args : list Stdio.arg) : st (list Z) Z := λ w, text ← Stdio.__printf format args; Ok (0, w ++ text).

Example dump_example : ∃ text, intr_dump_frame gather 0xdead (λ _, Stdio.chars "#PF Page-Fault Exception") demo_frame [] = Ok (tt, text) ∧
  take 137 text = Stdio.chars "Interrupt 0x0e (#PF Page-Fault Exception) at rip=8004001234
 cr2=000000000000dead error=               0
rax 00000000000000ff rbx 0000000".
Proof. eexists. split; vm_compute; reflexivity. Qed.

End FrameDump.
